(* ===== verification/_CoqProject ===== *)
-Q . S2P
Prelude.v
Spinlock.v
Queue.v
CStr.v
Proc.v
ProcInv.v
ProcOps.v
Choice.v
KStep.v
Keep.v
SchedInv.v
System.v
Boot.v
ProcProps.v
Trap.v
Ps.v
Grep.v
Printf.v
Mem.v
Kalloc.v
Vm.v
VmRep.v
VmMap.v
VmUser.v
VmAlloc.v
VmCopy.v
VmOut.v
VmProps.v
Mp.v
Apic.v
Segment.v
Umalloc.v
Uheap.v
Ualloc.v
Umprops.v
Ulib.v
Uprog.v
Sh.v
Shrun.v
Monitor.v
Clock.v
Console.v
Consprops.v
Kbd.v
Pipe.v
Sleeplock.v
Dlist.v
Blocks.v
Bio.v
Ide.v
Ideserve.v
Bytes.v
Log.v
Storage.v
Fs.v
Tx.v
Bitmap.v
Content.v
Bmap.v
Rw.v
Inode.v
Writei.v
Filetx.v
Files.v
Icache.v
File.v
Ftable.v
Sysfile.v
Syscalls.v
Filedemo.v
Mkfs.v
Mkinv.v
Mkrun.v
Mkimg.v
Mkmain.v
Exec.v
Bootmain.v
Execseg.v
Execarg.v
Execprops.v
