(* ===== verification/Prelude.v ===== *)
(** * A verification development for an xv6 kernel with a three-level scheduler

    The program is xv6 for the x86 (the C files under src/code) with a changed
    scheduler: processes are in one of three queues (round robin, last come first
    served, best job first), they age from one queue to the next, and system calls
    change a process's queue and its BJF parameters.  This file holds what the
    components share; the others follow the program's parts.

    ** Parts and files

    - Locks.  Spinlock.v: acquire, release, pushcli, popcli, holding of
      spinlock.c and mycpu of proc.c; its module LockProtocol interleaves the memory
      accesses of several CPUs.  Monitor.v: functions that sleep and wake under one
      spin lock, as atomic segments; Sleeplock.v: sleeplock.c as such a monitor.
    - Processes.  Queue.v: the queue arrays.  Proc.v: the data and all operations of
      proc.c over a class [KEnv] of the services it calls elsewhere; a function that
      calls sched() is split at the context switch (sleep_begin/sleep_end and so
      on).  ProcInv.v, ProcOps.v, KStep.v, Keep.v, SchedInv.v: the invariant of
      the table and the queues and that each operation keeps it.  Choice.v: which
      process scheduler() picks.  System.v, Boot.v: several CPUs as a transition
      system and what holds from boot on.  ProcProps.v: wakeup, exit, kill and the
      cases in which the code misbehaves.  Ps.v: the listings.  Trap.v: trap(), the
      dispatch of system calls and sysproc.c; Clock.v: ticks and sys_sleep as a
      monitor.
    - Memory.  Mem.v: memmove and memset over addresses; Kalloc.v: kalloc.c; Vm.v:
      the page tables of vm.c.  VmRep.v: page tables as functions; VmMap.v: walkpgdir,
      mappages; VmUser.v, VmAlloc.v, VmCopy.v, VmOut.v: growing, freeing, copying and
      writing address spaces; VmProps.v: the theorems.  Segment.v: the descriptors of
      mmu.h, seginit, switchuvm, switchkvm and kvmalloc of vm.c and tvinit and idtinit of
      trap.c, and what the processor makes of the tables.
    - Storage.  Blocks.v: the interface of the buffer cache (classes [BlockOps],
      [BlockDev]); Dlist.v and Bio.v: bio.c over memide.c, an instance of it.
      Ide.v: ide.c as a monitor over an interface of the controller (classes [IdeCtl],
      [IdeCtlOk]); Ideserve.v: what it serves.
      Bytes.v: integers in blocks; Log.v: log.c over the interface; Storage.v: both
      together.
    - Files.  Fs.v: all of fs.c.  Tx.v, Bitmap.v, Content.v, Bmap.v, Rw.v,
      Inode.v, Writei.v: the block allocator, the blocks and the contents of a file,
      readi, writei and iupdate, proved against a file as a list of bytes.
      Filetx.v: a file written in a transaction, crashes included; Files.v: the
      theorems.  Icache.v: reference counts of inodes.  File.v, Ftable.v: file.c and
      pipealloc, and the counts of open files.  Sysfile.v, Syscalls.v: sysfile.c and
      the argument functions of syscall.c.  Pipe.v: pipe.c as a monitor.
      Filedemo.v: concrete states on which the theorems are applied.
    - Images and programs.  Mkfs.v: mkfs.c on the list of blocks of the image; Mkinv.v,
      Mkrun.v, Mkimg.v, Mkmain.v: the image while it is built, and at the end.
      Exec.v: exec.c over page tables and an interface of the file system (classes
      [ExecFs], [ExecFsOk]; fs.c is the instance [kernel_fs]); Execseg.v,
      Execarg.v, Execprops.v: segments, arguments and the whole.  Bootmain.v: bootmain.c over an interface of the disk controller (classes [BootCtl], [BootCtlOk]).
    - Machine.  Mp.v: mp.c over memory; Apic.v: the local APIC and the clock chip of lapic.c,
      ioapic.c, picirq.c and uart.c.  The devices are
      given by what their registers answer.
    - Console.  Console.v: console.c as a monitor; Consprops.v: that it is a line
      discipline; Kbd.v: the translation of scan codes.
    - Strings and user programs.  CStr.v: string.c; Ulib.v: ulib.c; Printf.v:
      printf.c; Sh.v: the parser of sh.c; Shrun.v: runcmd and main of sh.c as the
      system calls each process makes; Grep.v: grep.c; Uprog.v: wc.c, cat.c, echo.c,
      ls.c and main of grep.c.  Umalloc.v: umalloc.c over an
      interface of sbrk; Uheap.v, Ualloc.v, Umprops.v: free, malloc and a program that
      uses them.

    Parts interact as in the code: Proc runs over Spinlock and Queue; Pipe, Sleeplock,
    Console, Clock and Ide over Monitor; Vm over Kalloc and Mem; Log over the interface
    that Bio implements; Fs over Log and Sleeplock; File over Fs and Pipe; Sysfile over
    File; Exec over Vm and Fs; Trap over Proc; Segment over Spinlock and Vm; Uprog over Printf and Ulib.  Mkfs writes the layout that Fs reads.

    ** How code is modelled

    A C function is a function in the monad [M] below; its state is a record of the
    globals and memory it uses, and pointers to elements of a global array are
    indices.  [Panic], [Undef] and [Spin] are the ways in which a function does not
    return: a call of panic(), an access C leaves undefined, and a wait.  In code
    that is run for one process (Bio, Log, Fs, File, Sysfile) a wait for another
    process is [Spin] as well.  Integers are [Z] with the wrap-around of their C type
    written out ([u32], [i32], [u8]).  Loops over a fixed range are over its list of indices;
    the others carry fuel, and running out of it is [Spin]: the theorems that a
    function returns show that the fuel its callers pass is enough (the parser of
    Sh.v, readi and writei with one unit per byte, the matcher of Grep.v, free with
    one walk around the list of free blocks and malloc with two, the loops of mkfs with
    the length of the file, strlen in exec with more than the length of the string, the
    loop of the shell with one unit per byte of input, the polling of the disk with the
    bound of the controller's class, the loops of mpinit with more than the 64 KB that a
    table can have, those of the boot loader with more than the sectors of 4 GB, the
    loop of cmostime with the accesses before the clock is quiet).

    Assumptions stand in the statements or in classes: block loops are for
    disks below 2^31 blocks; [name] buffers that the code leaves uninitialised start
    as zeros; a page for a pipe holds the byte 1 that kfree fills in.

    ** What the theorems show

    - Scheduling: in every reachable state a process is on at most one CPU, which
      executes it exactly while it is RUNNING; it is in the queue of its kind exactly
      while it should be as long as no process sleeps, waits, exits or changes its
      queue again with a change of queue pending (the code does not prevent it, and a
      run in Boot.v then loses a process).  What the queue arrays do in every case,
      full and absent entries included; which process round robin and LCFS pick, or
      that they panic, for entries in any state; BJF finds the least rank but runs
      nothing (a bug of the code); how long the timer lets a process run, and when
      sleep returns.
    - Locks and monitors: mutual exclusion; pipes are bounded FIFOs under every
      interleaving, without lost wake-ups or use after free.
    - Storage: the disk driver serves requests in order under every interleaving; the
      cache is transparent; commit and recovery are atomic and can be
      restarted after a crash at any disk write.
    - Files: writei replaces a range of bytes and touches no other file, files stay
      well-formed, what is written is read, a write in a transaction is atomic with
      respect to crashes; every file system call keeps the reference counts and gives
      back its locks on every path.
    - Memory: no page is lost or handed out twice by kalloc and by the functions of
      vm.c, on their error paths too; growing, copying, writing and freeing an address
      space do what they should; the blocks of malloc are disjoint and in memory for
      requests below 2 GB (larger ones wrap around in the code).
    - Protection: user programs enter the kernel only through the gate for system calls,
      on the kernel stack of their process, and reach no port.
    - Images and programs: mkfs leaves an image that Fs can mount, with the files of
      its command line; exec builds the address space that the ELF file describes with
      its arguments, or changes nothing; the boot loader puts every segment of the kernel
      in its place.
    - Machine: mpinit records the processors that the BIOS describes where the code
      looks for them (not all of the ROM that its comment names); a processor is started
      where it should be, interrupts are routed to the vectors that trap() expects, and the
      time of day is one that the clock showed, given what its data sheet says of the
      update bit.
    - Console: it is a line discipline on lists under every interleaving.
    - Shell: the parser returns on every line and cuts out its words; a session starts
      exactly the programs that the lines ask for, wired as they ask, and prints the
      parser's messages, whatever each system call answers.
    - Libraries: memmove, memset, safestrcpy, printint and atoi, grep's matcher, the counts
      of wc, what cat and echo print.

    ** Not modelled

    The assembly files have no C to translate.  main.c is the sequence of the functions
    that initialize the components, and startothers, which waits for processors that run
    entryother.S.  The other user programs and usertests.c only call system calls; uartintr
    only passes uartgetc to consoleintr.  sys_exec takes exec as an argument: Exec.v has the
    memory of page tables, where Sysfile.v has that of one process.  The constructors of the shell's commands are
    values, so malloc does not fail there.  The file system runs for one process at a
    time: two processes inside fs.c at once are covered only by the locks' own theorems. *)

From stdpp Require Export base list strings gmap sorting.
From Stdlib Require Export ZArith Lia.

#[global] Open Scope Z_scope.
Set Default Goal Selector "!".
#[export] Set Warnings "-clear-no-such-hyp,-postfix-notation-not-level-1".

(** ** Outcomes and the kernel monad

    A C function of the kernel is a state transformer that may also fail to
    return.  [Panic] is a call of [panic()], which prints its message and
    freezes the machine; [Undef] is an access that C leaves undefined (an
    index outside its array, a null pointer dereference); [Spin] is a busy
    wait on a lock that another CPU holds. *)

Inductive outcome (S A : Type) : Type :=
| Ok (a : A) (s : S)
| Panic (msg : string)
| Undef (msg : string)
| Spin.
Arguments Ok {S A} a s.
Arguments Panic {S A} msg.
Arguments Undef {S A} msg.
Arguments Spin {S A}.

Definition M (S A : Type) : Type := S → outcome S A.

#[global] Instance M_ret S : MRet (M S) := λ A a s, Ok a s.
#[global] Instance M_bind S : MBind (M S) := λ A B f m s,
  match m s with
  | Ok a s' => f a s'
  | Panic e => Panic e
  | Undef e => Undef e
  | Spin => Spin
  end.

Definition get {S} : M S S := λ s, Ok s s.
Definition gets {S A} (f : S → A) : M S A := λ s, Ok (f s) s.
Definition modify {S} (f : S → S) : M S unit := λ s, Ok tt (f s).
Definition panic {S A} (msg : string) : M S A := λ _, Panic msg.
Definition undef {S A} (msg : string) : M S A := λ _, Undef msg.
Definition spin {S A} : M S A := λ _, Spin.
Definition when {S} (b : bool) (m : M S unit) : M S unit := if b then m else mret tt.

(** Array read [a[i]] and write [a[i] = x] with C's bounds made explicit. *)
Definition array_get {S A} (what : string) (l : list A) (i : Z) : M S A :=
  if decide (0 ≤ i) then
    match l !! Z.to_nat i with Some x => mret x | None => undef what end
  else undef what.
Definition in_bounds {A} (l : list A) (i : Z) : bool :=
  bool_decide (0 ≤ i < Z.of_nat (length l)).

(** Loops: [for_each] runs its body on every index, [find_index] stops at the
    first element that satisfies the test. *)
Fixpoint for_each {S} {I : Type} (l : list I) (body : I → M S unit) : M S unit :=
  match l with
  | [] => mret tt
  | i :: l' => body i ;; for_each l' body
  end.

Fixpoint find_index {A} (P : A → bool) (l : list A) : option nat :=
  match l with
  | [] => None
  | x :: l' => if P x then Some 0%nat else S <$> find_index P l'
  end.

(** ** Weakest preconditions

    [wp m Q s]: from [s], [m] returns, and in a state and with a value that
    satisfy [Q]. [wlp m Q s]: if it returns, [Q] holds. *)
Definition wp {S A} (m : M S A) (Q : A → S → Prop) (s : S) : Prop :=
  match m s with Ok a s' => Q a s' | _ => False end.
Definition wlp {S A} (m : M S A) (Q : A → S → Prop) (s : S) : Prop :=
  match m s with Ok a s' => Q a s' | _ => True end.

Section wp.
Context {S : Type}.

Lemma wp_ok {A} (m : M S A) Q s : wp m Q s ↔ ∃ a s', m s = Ok a s' ∧ Q a s'.
Proof.
  unfold wp. destruct (m s) as [a s'| | |]; split; try done.
  - by exists a, s'.
  - by intros (a' & s'' & [= -> ->] & ?).
  - by intros (?&?&?&?).
  - by intros (?&?&?&?).
  - by intros (?&?&?&?).
Qed.
Lemma wlp_ok {A} (m : M S A) Q s : wlp m Q s ↔ ∀ a s', m s = Ok a s' → Q a s'.
Proof.
  unfold wlp. destruct (m s) as [a s'| | |]; split; try done.
  - by intros ? ? ? [= -> ->].
  - by intros H; apply H.
Qed.
Lemma wp_bind {A B} (m : M S A) (f : A → M S B) Q s :
  wp (m ≫= f) Q s ↔ wp m (λ a s', wp (f a) Q s') s.
Proof. unfold wp, mbind, M_bind. by destruct (m s). Qed.
Lemma wlp_bind {A B} (m : M S A) (f : A → M S B) Q s :
  wlp (m ≫= f) Q s ↔ wlp m (λ a s', wlp (f a) Q s') s.
Proof. unfold wlp, mbind, M_bind. by destruct (m s). Qed.
Lemma wp_mono {A} (m : M S A) (Q Q' : A → S → Prop) s :
  (∀ a s', Q a s' → Q' a s') → wp m Q s → wp m Q' s.
Proof. unfold wp. destruct (m s); naive_solver. Qed.
Lemma wlp_mono {A} (m : M S A) (Q Q' : A → S → Prop) s :
  (∀ a s', Q a s' → Q' a s') → wlp m Q s → wlp m Q' s.
Proof. unfold wlp. destruct (m s); naive_solver. Qed.
Lemma wp_wlp {A} (m : M S A) Q s : wp m Q s → wlp m Q s.
Proof. unfold wp, wlp. by destruct (m s). Qed.
Lemma wlp_and {A} (m : M S A) (Q Q' : A → S → Prop) s :
  wlp m Q s → wlp m Q' s → wlp m (λ a s', Q a s' ∧ Q' a s') s.
Proof. unfold wlp. by destruct (m s). Qed.

(** Two computations agree on every state: the monad laws up to this. *)
Definition m_eq {A} (m1 m2 : M S A) : Prop := ∀ s, m1 s = m2 s.
#[global] Instance m_eq_equiv A : Equivalence (@m_eq A).
Proof. unfold m_eq. split; red; intros; [done | congruence | etrans; eauto]. Qed.
#[global] Instance m_bind_proper A B :
  Proper (pointwise_relation A (@m_eq B) ==> @m_eq A ==> @m_eq B) (@mbind (M S) _ A B).
Proof.
  intros f g Hfg m1 m2 Hm s. unfold mbind, M_bind. rewrite (Hm s).
  destruct (m2 s); [apply Hfg | done..].
Qed.
#[global] Instance wp_proper A :
  Proper (@m_eq A ==> eq ==> eq ==> iff) (@wp S A).
Proof. intros m1 m2 Hm Q ? <- s ? <-. unfold wp. by rewrite (Hm s). Qed.
Lemma m_bind_assoc {A B C} (m : M S A) (f : A → M S B) (g : B → M S C) :
  m_eq ((m ≫= f) ≫= g) (m ≫= λ a, f a ≫= g).
Proof. intros s. unfold mbind, M_bind. by destruct (m s). Qed.
Lemma m_bind_ret_l {A B} (a : A) (f : A → M S B) : m_eq (mret a ≫= f) (f a).
Proof. done. Qed.

Lemma bind_ok {A B} (m : M S A) (f : A → M S B) b s s' :
  (m ≫= f) s = Ok b s' ↔ ∃ a s1, m s = Ok a s1 ∧ f a s1 = Ok b s'.
Proof.
  unfold mbind, M_bind. destruct (m s) as [a s1| | |]; split; intros H; try discriminate H.
  - by exists a, s1.
  - by destruct H as (? & ? & [= -> ->] & ?).
  - by destruct H as (? & ? & ? & ?).
  - by destruct H as (? & ? & ? & ?).
  - by destruct H as (? & ? & ? & ?).
Qed.
Lemma bind_run {A B} (m : M S A) (f : A → M S B) a s s1 :
  m s = Ok a s1 → (m ≫= f) s = f a s1.
Proof. unfold mbind, M_bind. by intros ->. Qed.

Lemma array_get_ok {A} what (l : list A) i x (s : S) :
  0 ≤ i → l !! Z.to_nat i = Some x → array_get what l i s = Ok x s.
Proof. intros ? Hl. unfold array_get. rewrite decide_True by done. by rewrite Hl. Qed.
Lemma array_get_inv {A} what (l : list A) i x (s s' : S) :
  array_get what l i s = Ok x s' → 0 ≤ i ∧ l !! Z.to_nat i = Some x ∧ s' = s.
Proof.
  unfold array_get. case_decide; [|done]. destruct (l !! Z.to_nat i) eqn:E; [|done].
  by intros [= -> ->].
Qed.

Lemma for_each_app {I} (l1 l2 : list I) (body : I → M S unit) :
  m_eq (for_each (l1 ++ l2) body) (for_each l1 body ;; for_each l2 body).
Proof.
  induction l1 as [|i l1 IH]; intros s; [done|]. simpl.
  unfold mbind, M_bind. destruct (body i s) as [[] s1| | |]; [|done..].
  rewrite (IH s1). unfold mbind, M_bind. by destruct (for_each l1 body s1).
Qed.

(** The loop rule: an invariant indexed by what is left to visit. *)
Lemma wp_for_each {I} (body : I → M S unit) (Inv : list I → S → Prop) l s :
  (∀ i l' s, Inv (i :: l') s → wp (body i) (λ _ s', Inv l' s') s) →
  Inv l s → wp (for_each l body) (λ _ s', Inv [] s') s.
Proof.
  intros Hstep. revert s. induction l as [|i l IH]; intros s Hs; [done|].
  simpl. apply wp_bind. eapply wp_mono; [|by apply Hstep]. intros ? s' ?. by apply IH.
Qed.
Lemma wlp_for_each {I} (body : I → M S unit) (Inv : list I → S → Prop) l s :
  (∀ i l' s, Inv (i :: l') s → wlp (body i) (λ _ s', Inv l' s') s) →
  Inv l s → wlp (for_each l body) (λ _ s', Inv [] s') s.
Proof.
  intros Hstep. revert s. induction l as [|i l IH]; intros s Hs; [done|].
  simpl. apply wlp_bind. eapply wlp_mono; [|by apply Hstep]. intros ? s' ?. by apply IH.
Qed.
End wp.

(** ** Frames

    [frames f m]: a run of [m] that returns leaves the component [f] of the
    state as it was. *)
Definition frames {S A X} (f : S → X) (m : M S A) : Prop :=
  ∀ s a s', m s = Ok a s' → f s' = f s.
Create HintDb frames.

Section frames.
Context {S X : Type} (f : S → X).
Lemma frames_ret {A} (a : A) : frames f (mret a : M S A).
Proof. by intros s b s' [= _ ->]. Qed.
Lemma frames_gets {A} (g : S → A) : frames f (gets g).
Proof. by intros s b s' [= _ ->]. Qed.
Lemma frames_get : frames f (get : M S S).
Proof. by intros s b s' [= _ ->]. Qed.
Lemma frames_panic {A} e : frames f (panic e : M S A).
Proof. by intros s b s'. Qed.
Lemma frames_undef {A} e : frames f (undef e : M S A).
Proof. by intros s b s'. Qed.
Lemma frames_spin {A} : frames f (spin : M S A).
Proof. by intros s b s'. Qed.
Lemma frames_modify g : (∀ s, f (g s) = f s) → frames f (modify g).
Proof. by intros Hg s b s' [= _ <-]. Qed.
Lemma frames_array_get {A} w (l : list A) i : frames f (array_get w l i).
Proof. by intros s b s' (_ & _ & ->)%array_get_inv. Qed.
Lemma frames_bind {A B} (m : M S A) (k : A → M S B) :
  frames f m → (∀ a, frames f (k a)) → frames f (m ≫= k).
Proof. intros Hm Hk s b s' (a & s1 & H1 & H2)%bind_ok. rewrite (Hk _ _ _ _ H2). by eapply Hm. Qed.
Lemma frames_when b (m : M S unit) : frames f m → frames f (when b m).
Proof. destruct b; [done|]. intros _. apply frames_ret. Qed.
Lemma frames_if {A} (b : bool) (m1 m2 : M S A) :
  frames f m1 → frames f m2 → frames f (if b then m1 else m2).
Proof. by destruct b. Qed.
Lemma frames_for_each {I} (l : list I) (body : I → M S unit) :
  (∀ i, frames f (body i)) → frames f (for_each l body).
Proof.
  intros Hb. induction l as [|i l IH]; simpl; [apply frames_ret|].
  apply frames_bind; [apply Hb|done].
Qed.
End frames.
#[export] Hint Resolve frames_ret frames_gets frames_get frames_panic frames_undef frames_spin
  frames_array_get frames_bind frames_when frames_if frames_for_each : frames.

(** Decompose a computation down to the primitives whose frame is known. *)
Ltac solve_frames :=
  repeat (first
    [ progress intros
    | solve [eauto with frames]
    | apply frames_modify; solve [auto]
    | apply frames_bind | apply frames_when | apply frames_if | apply frames_for_each
    | match goal with |- frames _ (match ?x with _ => _ end) => destruct x end ]).

(** ** Field update *)
Class Setter {R T : Type} (proj : R → T) := set : (T → T) → R → R.
Arguments set {R T} proj {_} f !r /.
Declare Scope kernel_scope.
Delimit Scope kernel_scope with K.
#[global] Open Scope kernel_scope.
Notation "r <| f := v |>" := (set f (λ _, v) r)
  (at level 12, f at level 11, v at level 200, left associativity,
   format "r  <| f  :=  v |>") : kernel_scope.

(** ** Lenses: a component of the kernel state and how to replace it *)
Record lens (S T : Type) : Type := Lens { view : S → T; upd : T → S → S }.
Arguments Lens {S T} _ _.
Arguments view {S T} _ _.
Arguments upd {S T} _ _ _.
Class LensOk {S T} (L : lens S T) : Prop := {
  view_upd : ∀ t s, view L (upd L t s) = t;
  upd_view : ∀ s, upd L (view L s) s = s;
  upd_upd : ∀ t t' s, upd L t (upd L t' s) = upd L t s }.
Class LensDisj {S T U} (L : lens S T) (K : lens S U) : Prop := {
  view_upd_l : ∀ t s, view K (upd L t s) = view K s;
  view_upd_r : ∀ u s, view L (upd K u s) = view L s;
  upd_comm : ∀ t u s, upd L t (upd K u s) = upd K u (upd L t s) }.

(** Run a computation on a component. *)
Definition zoom {S T A} (L : lens S T) (m : M T A) : M S A := λ s,
  match m (view L s) with
  | Ok a t => Ok a (upd L t s)
  | Panic e => Panic e
  | Undef e => Undef e
  | Spin => Spin
  end.
Lemma zoom_ok {S T A} (L : lens S T) (m : M T A) a s s' :
  zoom L m s = Ok a s' ↔ ∃ t, m (view L s) = Ok a t ∧ s' = upd L t s.
Proof.
  unfold zoom. destruct (m (view L s)) as [b t| | |]; split; intros H; try discriminate H.
  - injection H as -> <-. by exists t.
  - destruct H as (t' & [= -> ->] & ->). done.
  - by destruct H as (? & ? & ?).
  - by destruct H as (? & ? & ?).
  - by destruct H as (? & ? & ?).
Qed.
Lemma zoom_run {S T A} (L : lens S T) (m : M T A) a s t :
  m (view L s) = Ok a t → zoom L m s = Ok a (upd L t s).
Proof. unfold zoom. by intros ->. Qed.

Lemma wp_zoom {S T A} (L : lens S T) (m : M T A) Q s :
  wp (zoom L m) Q s ↔ wp m (λ a t, Q a (upd L t s)) (view L s).
Proof. unfold wp, zoom. by destruct (m (view L s)). Qed.
Lemma wlp_zoom {S T A} (L : lens S T) (m : M T A) Q s :
  wlp (zoom L m) Q s ↔ wlp m (λ a t, Q a (upd L t s)) (view L s).
Proof. unfold wlp, zoom. by destruct (m (view L s)). Qed.

(** ** Lists *)
Section lists.
Context {A : Type}.
Implicit Types (l : list A) (P : A → bool).

Lemma find_index_Some P l i :
  find_index P l = Some i ↔
  ∃ x, l !! i = Some x ∧ P x = true ∧ ∀ j y, (j < i)%nat → l !! j = Some y → P y = false.
Proof.
  revert i. induction l as [|x l IH]; intros i; simpl.
  - naive_solver.
  - destruct (P x) eqn:Px.
    + split.
      * intros [= <-]. exists x. split; [done|]. split; [done|]. lia.
      * intros (y & Hy & HP & Hm). destruct i as [|i]; [done|].
        specialize (Hm 0%nat x ltac:(lia) eq_refl). congruence.
    + rewrite fmap_Some. setoid_rewrite IH. split.
      * intros (i' & (y & ? & ? & Hm) & ->). exists y. repeat split; [done|done|].
        intros [|j] z ?; simpl; [naive_solver|]. apply Hm. lia.
      * intros (y & Hy & HP & Hm). destruct i as [|i]; simpl in *; [congruence|].
        exists i. split; [|done]. exists y. repeat split; [done|done|].
        intros j z ? ?. apply (Hm (S j)); [lia|done].
Qed.
Lemma find_index_None P l :
  find_index P l = None ↔ ∀ i x, l !! i = Some x → P x = false.
Proof.
  induction l as [|x l IH]; simpl; [naive_solver|].
  destruct (P x) eqn:Px.
  - split; [done|]. intros H. specialize (H 0%nat x eq_refl). congruence.
  - rewrite fmap_None, IH. split.
    + intros H [|i] y; naive_solver.
    + intros H i y Hi. by apply (H (S i)).
Qed.
Lemma find_index_lt P l i : find_index P l = Some i → (i < length l)%nat.
Proof. intros (x & Hx & _)%find_index_Some. by eapply lookup_lt_Some. Qed.

Lemma filter_all (P : A → Prop) `{!∀ x, Decision (P x)} (l : list A) :
  (∀ x, x ∈ l → P x) → filter P l = l.
Proof.
  induction l as [|x l IH]; intros HP; [done|].
  rewrite filter_cons_True by (apply HP, elem_of_cons; by left).
  f_equal. apply IH. intros y Hy. apply HP, elem_of_cons. by right.
Qed.
Lemma filter_ext_in (P Q : A → Prop) `{!∀ x, Decision (P x)} `{!∀ x, Decision (Q x)} (l : list A) :
  (∀ x, x ∈ l → P x ↔ Q x) → filter P l = filter Q l.
Proof.
  induction l as [|x l IH]; intros HP; [done|].
  assert (filter P l = filter Q l) as IH' by (apply IH; intros y Hy; apply HP, elem_of_cons; by right).
  specialize (HP x ltac:(apply elem_of_cons; by left)).
  destruct (decide (P x)) as [Px|Px].
  - rewrite !filter_cons_True by naive_solver. by rewrite IH'.
  - rewrite !filter_cons_False by naive_solver. done.
Qed.
Lemma alter_lookup_insert (f : A → A) (l : list A) i x :
  l !! i = Some x → alter f i l = <[i := f x]> l.
Proof.
  intros Hi. apply list_eq. intros j. destruct (decide (i = j)) as [<-|Hij].
  - rewrite list_lookup_alter_eq, Hi. by rewrite list_lookup_insert_eq by (by eapply lookup_lt_Some).
  - by rewrite list_lookup_alter_ne, list_lookup_insert_ne.
Qed.

(** Taking out the one occurrence of [x]. *)
Lemma delete_filter_ne `{!EqDecision A} (l : list A) k x :
  NoDup l → l !! k = Some x → delete k l = filter (λ y, y ≠ x) l.
Proof.
  revert k. induction l as [|y l IH]; intros k Hnd Hk; [done|].
  apply NoDup_cons in Hnd as [Hy Hnd]. destruct k as [|k]; simpl in *.
  - injection Hk as ->. rewrite filter_cons_False by (intros H; by apply H).
    symmetry. apply filter_all. intros z Hz ->. done.
  - rewrite filter_cons_True; [by rewrite <- (IH k)|].
    intros ->. by apply Hy, list_elem_of_lookup_2 with k.
Qed.
Lemma NoDup_bounded_length (l : list nat) n :
  NoDup l → (∀ x, x ∈ l → (x < n)%nat) → (length l ≤ n)%nat.
Proof.
  intros Hnd Hb. rewrite <- (length_seq n 0). apply submseteq_length, NoDup_submseteq; [done|].
  intros x Hx. apply elem_of_seq. specialize (Hb x Hx). lia.
Qed.

Lemma lookup_insert_Some_inv (l : list A) i j x y :
  <[i:=x]> l !! j = Some y → (i = j ∧ x = y) ∨ (i ≠ j ∧ l !! j = Some y).
Proof. intros H%list_lookup_insert_Some. naive_solver. Qed.
End lists.

(** ** Machine integers

    A C [uint] is an integer in [0, 2^32), an [int] one in [-2^31, 2^31); [u32]
    and [i32] are the conversions modulo 2^32. *)
Definition u32 (z : Z) : Z := z mod 2 ^ 32.
Definition i32 (z : Z) : Z := (z + 2 ^ 31) mod 2 ^ 32 - 2 ^ 31.
Definition u16 (z : Z) : Z := z mod 2 ^ 16.
Definition u8 (z : Z) : Z := z mod 2 ^ 8.

Lemma u32_range z : 0 ≤ u32 z < 2 ^ 32.
Proof. apply Z.mod_pos_bound. lia. Qed.
Lemma u32_small z : 0 ≤ z < 2 ^ 32 → u32 z = z.
Proof. apply Z.mod_small. Qed.
Lemma u32_idem z : u32 (u32 z) = u32 z.
Proof. apply Z.mod_mod. lia. Qed.
Lemma i32_range z : - 2 ^ 31 ≤ i32 z < 2 ^ 31.
Proof. unfold i32. pose proof (Z.mod_pos_bound (z + 2 ^ 31) (2 ^ 32)). lia. Qed.
Lemma i32_small z : - 2 ^ 31 ≤ z < 2 ^ 31 → i32 z = z.
Proof. intros. unfold i32. rewrite Z.mod_small; lia. Qed.
Lemma i32_u32 z : i32 (u32 z) = i32 z.
Proof. unfold i32, u32. rewrite Zplus_mod_idemp_l. done. Qed.
Lemma u32_i32 z : u32 (i32 z) = u32 z.
Proof.
  unfold i32, u32. rewrite Zminus_mod_idemp_l. f_equal. lia.
Qed.

(** Joining a number with one of fewer bits. *)
Lemma lor_low k a b : 0 ≤ k → a mod 2 ^ k = 0 → 0 ≤ b < 2 ^ k → Z.lor a b = a + b.
Proof.
  intros Hk Ha Hb. assert (Z.land a b = 0) as H0.
  { apply Z.bits_inj'. intros n Hn. rewrite Z.land_spec, Z.bits_0. destruct (Z.lt_ge_cases n k).
    - assert (Z.testbit a n = false) as ->; [|done]. rewrite (Z.div_mod a (2 ^ k)), Ha, Z.add_0_r by lia.
      by rewrite Z.mul_comm, Z.mul_pow2_bits_low.
    - assert (Z.testbit b n = false) as ->; [|by rewrite andb_false_r].
      destruct (decide (b = 0)) as [->|]; [apply Z.bits_0|]. apply Z.bits_above_log2; [lia|].
      apply Z.log2_lt_pow2; [lia|]. assert (2 ^ k ≤ 2 ^ n) by (apply Z.pow_le_mono_r; lia). lia. }
  rewrite <- Z.lxor_lor by done. symmetry. by apply Z.add_nocarry_lxor.
Qed.
Lemma u8_i32 z : u8 (i32 z) = u8 z.
Proof.
  unfold u8, i32. rewrite Zminus_mod, Z.mod_mod_divide by (by exists (2 ^ 24)). rewrite <- Zminus_mod. f_equal. lia.
Qed.

Create HintDb kernel.
#[export] Hint Resolve u32_range i32_range : kernel.

(** ** Tactics *)

Ltac ok_inj H := first [injection H as ? ? | injection H as ? | clear H]; subst.

(** Step through a computation known to return: every [bind] of the equation
    becomes its intermediate value and state. *)
Ltac inv_bind :=
  repeat match goal with
  | H : (_ ≫= _) _ = Ok _ _ |- _ =>
      let a := fresh "a" in let s := fresh "s" in let H1 := fresh "H" in
      apply bind_ok in H as (a & s & H1 & H)
  | H : mret _ _ = Ok _ _ |- _ => ok_inj H
  | H : Ok _ _ = Ok _ _ |- _ => ok_inj H
  | H : gets _ _ = Ok _ _ |- _ => ok_inj H
  | H : get _ = Ok _ _ |- _ => ok_inj H
  | H : modify _ _ = Ok _ _ |- _ => ok_inj H
  | H : panic _ _ = Ok _ _ |- _ => discriminate H
  | H : undef _ _ = Ok _ _ |- _ => discriminate H
  | H : spin _ = Ok _ _ |- _ => discriminate H
  | H : array_get _ _ _ _ = Ok _ _ |- _ =>
      apply array_get_inv in H as (? & ? & ?); subst
  | a : unit |- _ => destruct a
  end.

(** Run the next computation of the goal with an equation for it. *)
Ltac run H := first [ rewrite (bind_run _ _ _ _ _ H) | erewrite bind_run; [|exact H] ].
