(* ===== verification/Spinlock.v ===== *)
(** * Spin locks and interrupt nesting (spinlock.c, and mycpu/cpuid of proc.c)

    The machine as the locking code sees it: which CPU executes, each CPU's
    interrupt flag and local APIC id, and the [cpus] array that mpinit fills.
    [acquire] and [release] act on any lock of a larger kernel state through a
    lens, so that the scheduler's [ptable.lock] and [tickslock] are the same
    code.  [LockProtocol] is the interleaved view: several CPUs run acquire and
    release on one lock, one memory access at a time. *)

From S2P Require Import Prelude.

(** A physical CPU: its local APIC id and the IF bit of its eflags. *)
Record hwcpu := mkHw { hw_lapicid : Z; hw_if : bool }.

(** [struct cpu], the fields the kernel's C code reads and writes. *)
Record cpu := mkCpu {
  apicid : Z;
  ncli : Z;
  intena : bool;
  cpu_proc : option nat }.
#[global] Instance set_ncli : Setter ncli := λ f c, mkCpu (apicid c) (f (ncli c)) (intena c) (cpu_proc c).
#[global] Instance set_intena : Setter intena := λ f c, mkCpu (apicid c) (ncli c) (f (intena c)) (cpu_proc c).
#[global] Instance set_cpu_proc : Setter cpu_proc := λ f c, mkCpu (apicid c) (ncli c) (intena c) (f (cpu_proc c)).

(** [this] is the executing CPU; [frame] is the address of the running
    function's first argument and [stack] the words of kernel memory, which
    getcallerpcs follows. *)
Record mach := mkMach {
  this : nat;
  hw : list hwcpu;
  cpus : list cpu;
  frame : Z;
  stack : Z → Z }.
#[global] Instance set_hw : Setter hw := λ f m, mkMach (this m) (f (hw m)) (cpus m) (frame m) (stack m).
#[global] Instance set_cpus : Setter cpus := λ f m, mkMach (this m) (hw m) (f (cpus m)) (frame m) (stack m).

(** [struct spinlock] *)
Record spinlock := mkLock {
  lk_locked : Z;
  lk_name : string;
  lk_cpu : option nat;
  lk_pcs : list Z }.
#[global] Instance set_lk_locked : Setter lk_locked := λ f l, mkLock (f (lk_locked l)) (lk_name l) (lk_cpu l) (lk_pcs l).
#[global] Instance set_lk_name : Setter lk_name := λ f l, mkLock (lk_locked l) (f (lk_name l)) (lk_cpu l) (lk_pcs l).
#[global] Instance set_lk_cpu : Setter lk_cpu := λ f l, mkLock (lk_locked l) (lk_name l) (f (lk_cpu l)) (lk_pcs l).
#[global] Instance set_lk_pcs : Setter lk_pcs := λ f l, mkLock (lk_locked l) (lk_name l) (lk_cpu l) (f (lk_pcs l)).

Definition KERNBASE : Z := 0x80000000.

(** Follow the %ebp chain: [ebp[1]] is the saved %eip, [ebp[0]] the caller's
    %ebp; the rest of the ten entries is zero. *)
Fixpoint getcallerpcs_loop (mem : Z → Z) (ebp : Z) (n : nat) : list Z :=
  match n with
  | O => []
  | S n' =>
      if (ebp =? 0) || (ebp <? KERNBASE) || (ebp =? 0xffffffff)
      then replicate n 0
      else mem (u32 (ebp + 4)) :: getcallerpcs_loop mem (mem ebp) n'
  end.
Definition getcallerpcs (mem : Z → Z) (v : Z) : list Z :=
  getcallerpcs_loop mem (u32 (v - 2 * 4)) 10.

Section code.
Context {S : Type} (mch : lens S mach).

Definition get_mach : M S mach := gets (view mch).
Definition put_mach (m : mach) : M S unit := modify (upd mch m).

(** The instructions: pushfl, cli, sti, and the local APIC id register. *)
Definition readeflags : M S bool :=
  m ← get_mach;
  match hw m !! this m with Some h => mret (hw_if h) | None => undef "no such cpu" end.
Definition set_if (b : bool) : M S unit :=
  m ← get_mach;
  match hw m !! this m with
  | Some h => put_mach (m <| hw := <[this m := mkHw (hw_lapicid h) b]> (hw m) |>)
  | None => undef "no such cpu"
  end.
Definition cli : M S unit := set_if false.
Definition sti : M S unit := set_if true.
Definition lapicid : M S Z :=
  m ← get_mach;
  match hw m !! this m with Some h => mret (hw_lapicid h) | None => undef "no such cpu" end.

(** Index of the CPU whose [apicid] is the local APIC's. *)
Definition mycpu : M S nat :=
  e ← readeflags;
  if (e : bool) then panic "mycpu called with interrupts enabled" else
  id ← lapicid;
  m ← get_mach;
  match find_index (λ c, apicid c =? id) (cpus m) with
  | Some i => mret i
  | None => panic "unknown apicid"
  end.
Definition cpuid : M S nat := mycpu.

Definition get_cpu (i : nat) : M S cpu :=
  m ← get_mach; array_get "cpus" (cpus m) (Z.of_nat i).
Definition put_cpu (i : nat) (c : cpu) : M S unit :=
  m ← get_mach; put_mach (m <| cpus := <[i := c]> (cpus m) |>).

Definition pushcli : M S unit :=
  eflags ← readeflags;
  cli ;;
  i ← mycpu;
  c ← get_cpu i;
  put_cpu i ((if ncli c =? 0 then c <| intena := eflags |> else c) <| ncli := ncli c + 1 |>).

Definition popcli : M S unit :=
  e ← readeflags;
  if (e : bool) then panic "popcli - interruptible" else
  i ← mycpu;
  c ← get_cpu i;
  put_cpu i (c <| ncli := ncli c - 1 |>) ;;
  if ncli c - 1 <? 0 then panic "popcli" else
  when ((ncli c - 1 =? 0) && intena c) sti.

Section lock.
Context (lk : lens S spinlock).

Definition initlock (name : string) : M S unit :=
  modify (λ s, upd lk (mkLock 0 name None (lk_pcs (view lk s))) s).

Definition holding : M S bool :=
  pushcli ;;
  l ← gets (view lk);
  i ← mycpu;
  let r := negb (lk_locked l =? 0) && bool_decide (lk_cpu l = Some i) in
  popcli ;;
  mret r.

(** The xchg loop: it leaves with the lock set, or spins while another CPU
    has it. *)
Definition xchg_locked : M S unit :=
  l ← gets (view lk);
  if lk_locked l =? 0 then modify (upd lk (l <| lk_locked := 1 |>)) else spin.

Definition acquire : M S unit :=
  pushcli ;;
  h ← holding;
  if (h : bool) then panic "acquire" else
  xchg_locked ;;
  i ← mycpu;
  m ← get_mach;
  modify (λ s, upd lk (view lk s <| lk_cpu := Some i |>
                                 <| lk_pcs := getcallerpcs (stack m) (frame m) |>) s).

Definition release : M S unit :=
  h ← holding;
  if negb h then panic "release" else
  modify (λ s, upd lk (view lk s <| lk_pcs := <[0%nat := 0]> (lk_pcs (view lk s)) |>
                                 <| lk_cpu := None |>) s) ;;
  modify (λ s, upd lk (view lk s <| lk_locked := 0 |>) s) ;;
  popcli.
End lock.
End code.

(** ** Functional behaviour

    [cur m h c]: the executing CPU has hardware state [h] and entry [c], and
    [c] is the entry mycpu() finds. *)
Definition cur (m : mach) (h : hwcpu) (c : cpu) : Prop :=
  hw m !! this m = Some h ∧ cpus m !! this m = Some c ∧ apicid c = hw_lapicid h ∧
  ∀ j c', (j < this m)%nat → cpus m !! j = Some c' → apicid c' ≠ hw_lapicid h.

(** Nesting depth is a count, and inside a nest interrupts are off. *)
Definition cli_ok (h : hwcpu) (c : cpu) : Prop := 0 ≤ ncli c ∧ (0 < ncli c → hw_if h = false).
Definition mach_ok (m : mach) : Prop := ∃ h c, cur m h c ∧ cli_ok h c.

Definition at_cpu (m : mach) (h : hwcpu) (c : cpu) : mach :=
  m <| hw := <[this m := h]> (hw m) |> <| cpus := <[this m := c]> (cpus m) |>.
Definition if_off (h : hwcpu) : hwcpu := mkHw (hw_lapicid h) false.
Definition push_cpu (e : bool) (c : cpu) : cpu :=
  (if ncli c =? 0 then c <| intena := e |> else c) <| ncli := ncli c + 1 |>.
Definition pop_if (c : cpu) : bool := (ncli c - 1 =? 0) && intena c.
Definition m_push (m : mach) (h : hwcpu) (c : cpu) : mach :=
  at_cpu m (if_off h) (push_cpu (hw_if h) c).
Definition m_pop (m : mach) (h : hwcpu) (c : cpu) : mach :=
  at_cpu m (mkHw (hw_lapicid h) (pop_if c)) (c <| ncli := ncli c - 1 |>).

Lemma push_cpu_apicid e c : apicid (push_cpu e c) = apicid c.
Proof. unfold push_cpu. by destruct (ncli c =? 0). Qed.
Lemma push_cpu_ncli e c : ncli (push_cpu e c) = ncli c + 1.
Proof. done. Qed.
Lemma push_cpu_proc e c : cpu_proc (push_cpu e c) = cpu_proc c.
Proof. unfold push_cpu. by destruct (ncli c =? 0). Qed.

Lemma cur_fun m h c h' c' : cur m h c → cur m h' c' → h = h' ∧ c = c'.
Proof. unfold cur. naive_solver. Qed.

Lemma cur_at_cpu m h c h' c' :
  cur m h c → hw_lapicid h' = hw_lapicid h → apicid c' = apicid c → cur (at_cpu m h' c') h' c'.
Proof.
  intros (Hh & Hc & Ha & Hfst) Hid Hap. unfold cur, at_cpu; simpl.
  apply lookup_lt_Some in Hh. apply lookup_lt_Some in Hc.
  rewrite !list_lookup_insert_eq by done. repeat split; [congruence|].
  intros j c'' Hj. rewrite list_lookup_insert_ne by lia. rewrite Hid. by apply Hfst.
Qed.

Lemma at_cpu_at_cpu m h c h' c' : at_cpu (at_cpu m h c) h' c' = at_cpu m h' c'.
Proof. unfold at_cpu; simpl. by rewrite !list_insert_insert_eq. Qed.
Lemma at_cpu_id m h c : cur m h c → at_cpu m h c = m.
Proof.
  intros (Hh & Hc & _). unfold at_cpu; simpl. destruct m as [t hh cc f st]; simpl in *.
  by rewrite !list_insert_id.
Qed.

Section specs.
Context {S : Type} (mch : lens S mach) `{!LensOk mch}.
Implicit Types (s : S).

Lemma readeflags_run s h c : cur (view mch s) h c → readeflags mch s = Ok (hw_if h) s.
Proof. intros (Hh & _). unfold readeflags, get_mach, mbind, M_bind, gets. by rewrite Hh. Qed.

Lemma set_if_run b s h c :
  cur (view mch s) h c →
  set_if mch b s = Ok tt (upd mch (at_cpu (view mch s) (mkHw (hw_lapicid h) b) c) s).
Proof.
  intros (Hh & Hc & _). unfold set_if, get_mach, mbind, M_bind, gets. rewrite Hh.
  unfold put_mach, modify, at_cpu; simpl. by rewrite (list_insert_id (cpus _)).
Qed.

Lemma mycpu_run s h c :
  cur (view mch s) h c → hw_if h = false → mycpu mch s = Ok (this (view mch s)) s.
Proof.
  intros Hcur Hif. unfold mycpu.
  rewrite (bind_run _ _ _ _ _ (readeflags_run _ _ _ Hcur)), Hif.
  destruct Hcur as (Hh & Hc & Ha & Hfst).
  unfold lapicid, get_mach, mbind, M_bind, gets. rewrite Hh. simpl.
  assert (find_index (λ c, apicid c =? hw_lapicid h) (cpus (view mch s))
          = Some (this (view mch s))) as ->; [|done].
  apply find_index_Some. exists c. split; [done|]. split; [lia|].
  intros j c' Hj Hc'. specialize (Hfst _ _ Hj Hc'). lia.
Qed.

Lemma get_cpu_run s h c :
  cur (view mch s) h c → get_cpu mch (this (view mch s)) s = Ok c s.
Proof.
  intros (_ & Hc & _). unfold get_cpu. rewrite bind_run with (a := view mch s) (s1 := s) by done.
  apply array_get_ok; [lia|]. by rewrite Nat2Z.id.
Qed.

Lemma put_cpu_run s h c c' :
  cur (view mch s) h c →
  put_cpu mch (this (view mch s)) c' s = Ok tt (upd mch (at_cpu (view mch s) h c') s).
Proof.
  intros (Hh & _). unfold put_cpu, get_mach, put_mach, modify, gets, mbind, M_bind, at_cpu; simpl.
  destruct (view mch s) as [t hh cc f st]; simpl in *. by rewrite (list_insert_id hh).
Qed.

(** pushcli disables interrupts, remembers at depth 0 whether they were on,
    and deepens the nest by one. *)
Lemma pushcli_run s h c :
  cur (view mch s) h c →
  pushcli mch s = Ok tt (upd mch (m_push (view mch s) h c) s).
Proof.
  intros Hc. unfold pushcli. run (readeflags_run s h c Hc).
  unfold cli. run (set_if_run false s h c Hc).
  set (s1 := upd mch _ s).
  assert (cur (view mch s1) (if_off h) c) as Hc1.
  { unfold s1. rewrite view_upd. by eapply cur_at_cpu. }
  run (mycpu_run s1 _ _ Hc1 eq_refl). run (get_cpu_run s1 _ _ Hc1).
  rewrite (put_cpu_run s1 _ _ _ Hc1). unfold s1. rewrite view_upd, upd_upd, at_cpu_at_cpu.
  done.
Qed.

Lemma popcli_run s h c :
  cur (view mch s) h c → hw_if h = false → 1 ≤ ncli c →
  popcli mch s = Ok tt (upd mch (m_pop (view mch s) h c) s).
Proof.
  intros Hc Hif Hn. unfold popcli. run (readeflags_run s h c Hc). rewrite Hif.
  run (mycpu_run s h c Hc Hif). run (get_cpu_run s h c Hc). run (put_cpu_run s h c (c <| ncli := ncli c - 1 |>) Hc).
  rewrite (proj2 (Z.ltb_ge _ _)) by lia. unfold m_pop, pop_if, when.
  destruct ((ncli c - 1 =? 0) && intena c).
  - unfold sti. erewrite set_if_run.
    + rewrite view_upd, upd_upd, at_cpu_at_cpu. done.
    + rewrite view_upd. by eapply cur_at_cpu.
  - unfold mret, M_ret. do 3 f_equal. destruct h; simpl in *; by subst.
Qed.

(** popcli outside a nest, or with interrupts on, is a fatal error. *)
Lemma popcli_unbalanced s h c :
  cur (view mch s) h c → ncli c ≤ 0 → ∃ msg, popcli mch s = Panic msg.
Proof.
  intros Hc Hn. unfold popcli. run (readeflags_run s h c Hc).
  destruct (hw_if h) eqn:Hif; [by eexists|].
  run (mycpu_run s h c Hc Hif). run (get_cpu_run s h c Hc). run (put_cpu_run s h c (c <| ncli := ncli c - 1 |>) Hc).
  rewrite (proj2 (Z.ltb_lt _ _)) by lia. by eexists.
Qed.
End specs.

(** The CPU after a balanced pushcli/popcli: only the dead [intena] of depth 0
    may have changed. *)
Definition peek_cpu (h : hwcpu) (c : cpu) : cpu :=
  if ncli c =? 0 then c <| intena := hw_if h |> else c.

Lemma m_pop_push m h c :
  cur m h c → cli_ok h c →
  m_pop (m_push m h c) (if_off h) (push_cpu (hw_if h) c) = at_cpu m h (peek_cpu h c).
Proof.
  intros Hc [Hn Hif]. unfold m_pop, m_push. rewrite at_cpu_at_cpu. unfold pop_if, push_cpu, peek_cpu.
  destruct h as [id e], c as [a n i p]; simpl in *.
  destruct (Z.eqb_spec n 0) as [->|Hn0]; simpl; [done|].
  rewrite Hif by lia. replace (n + 1 - 1) with n by lia.
  by rewrite (proj2 (Z.eqb_neq n 0) Hn0).
Qed.

Lemma cur_push m h c : cur m h c → cur (m_push m h c) (if_off h) (push_cpu (hw_if h) c).
Proof. intros Hc. apply (cur_at_cpu m h c); [done|done|]. apply push_cpu_apicid. Qed.
Lemma cli_ok_push h c : cli_ok h c → cli_ok (if_off h) (push_cpu (hw_if h) c).
Proof. intros [? ?]. split; [rewrite push_cpu_ncli; lia|done]. Qed.

(** Run the pushcli at the head of the goal; [s1] is the state after it. *)
Ltac after_push mch s h c Hc s1 Hc1 :=
  run (pushcli_run mch s h c Hc);
  set (s1 := upd mch _ s);
  assert (cur (view mch s1) (if_off h) (push_cpu (hw_if h) c)) as Hc1
    by (unfold s1; rewrite view_upd; by apply cur_push).

Section nest.
Context {S : Type} (mch : lens S mach) `{!LensOk mch}.

Fixpoint iter_m (n : nat) (m : M S unit) : M S unit :=
  match n with O => mret tt | Datatypes.S n' => m ;; iter_m n' m end.

Lemma iter_m_snoc n (m : M S unit) : m_eq (iter_m n m ;; m) (m ;; iter_m n m).
Proof.
  induction n as [|n IH]; intros s; simpl.
  - unfold mbind, M_bind, mret, M_ret. by destruct (m s) as [[]| | |].
  - unfold mbind, M_bind in *. destruct (m s) as [[] s1| | |]; [|done..].
    rewrite <- (IH s1). by destruct (iter_m n m s1).
Qed.

Lemma push_pop_nest n s h c :
  cur (view mch s) h c → cli_ok h c →
  (iter_m n (pushcli mch) ;; iter_m n (popcli mch)) s =
  Ok tt (match n with O => s | _ => upd mch (at_cpu (view mch s) h (peek_cpu h c)) s end).
Proof.
  revert s h c. induction n as [|n IH]; intros s h c Hc Hok; [done|]. simpl.
  rewrite (m_bind_assoc _ _ _ s). after_push mch s h c Hc s1 Hc1.
  pose proof (cli_ok_push h c Hok) as Hok1.
  assert (∀ f : M S unit, (iter_m n (pushcli mch) ;; iter_m n (popcli mch) ;; f) s1 = f s1) as Hn.
  { intros f. rewrite <- (m_bind_assoc _ _ _ s1).
    erewrite bind_run; [reflexivity|]. rewrite (IH s1 _ _ Hc1 Hok1).
    destruct n as [|n]; [done|]. unfold peek_cpu. rewrite push_cpu_ncli.
    rewrite (proj2 (Z.eqb_neq _ 0)) by (destruct Hok; lia).
    by rewrite at_cpu_id, upd_view. }
  transitivity ((iter_m n (pushcli mch);; iter_m n (popcli mch);; popcli mch) s1).
  { unfold mbind at 1, M_bind at 1. symmetry. unfold mbind at 1, M_bind at 1.
    destruct (iter_m n (pushcli mch) s1) as [[] s2| | |]; [|done..]. apply iter_m_snoc. }
  rewrite Hn. destruct Hok as [Hn0 Hif].
  rewrite (popcli_run mch s1 _ _ Hc1 eq_refl); [|rewrite push_cpu_ncli; lia].
  unfold s1. by rewrite view_upd, upd_upd, m_pop_push.
Qed.
End nest.

Section lockspecs.
Context {S : Type} (mch : lens S mach) `{!LensOk mch}.
Context (lk : lens S spinlock) `{!LensOk lk} `{!LensDisj mch lk}.
Implicit Types (s : S).

Definition held_by (l : spinlock) (i : nat) : bool :=
  negb (lk_locked l =? 0) && bool_decide (lk_cpu l = Some i).

Lemma holding_run s h c :
  cur (view mch s) h c → cli_ok h c →
  holding mch lk s = Ok (held_by (view lk s) (this (view mch s)))
                        (upd mch (at_cpu (view mch s) h (peek_cpu h c)) s).
Proof.
  intros Hc Hok. unfold holding. after_push mch s h c Hc s1 Hc1.
  rewrite bind_run with (a := view lk s1) (s1 := s1) by done.
  run (mycpu_run mch s1 _ _ Hc1 eq_refl). destruct Hok as [Hn Hif].
  run (popcli_run mch s1 _ _ Hc1 eq_refl ltac:(rewrite push_cpu_ncli; lia)).
  unfold s1. rewrite view_upd, upd_upd, m_pop_push by done. by rewrite view_upd_l.
Qed.

(** Inside a nest, asking whether the lock is held changes nothing. *)
Lemma holding_nested s h c :
  cur (view mch s) h c → cli_ok h c → 0 < ncli c →
  holding mch lk s = Ok (held_by (view lk s) (this (view mch s))) s.
Proof.
  intros Hc Hok Hn. rewrite (holding_run s h c) by done. unfold peek_cpu.
  rewrite (proj2 (Z.eqb_neq _ 0)) by lia. by rewrite at_cpu_id, upd_view.
Qed.

Definition taken (m : mach) (l : spinlock) : spinlock :=
  mkLock 1 (lk_name l) (Some (this m)) (getcallerpcs (stack m) (frame m)).
Definition freed (l : spinlock) : spinlock :=
  mkLock 0 (lk_name l) None (<[0%nat := 0]> (lk_pcs l)).

Lemma acquire_run s h c :
  cur (view mch s) h c → cli_ok h c → lk_locked (view lk s) = 0 →
  acquire mch lk s =
  Ok tt (upd lk (taken (view mch s) (view lk s)) (upd mch (m_push (view mch s) h c) s)).
Proof.
  intros Hc Hok Hfree. unfold acquire. after_push mch s h c Hc s1 Hc1.
  assert (view lk s1 = view lk s) as Hl by (unfold s1; by rewrite view_upd_l).
  run (holding_nested s1 _ _ Hc1 (cli_ok_push h c Hok) ltac:(rewrite push_cpu_ncli; destruct Hok; lia)).
  unfold held_by. rewrite Hl, Hfree. simpl.
  unfold xchg_locked. rewrite bind_run with (a := tt) (s1 := upd lk (view lk s <| lk_locked := 1 |>) s1).
  2:{ rewrite bind_run with (a := view lk s1) (s1 := s1) by done. rewrite Hl, Hfree. done. }
  set (s2 := upd lk _ s1).
  assert (view mch s2 = m_push (view mch s) h c) as Hm2.
  { unfold s2, s1. by rewrite view_upd_r, view_upd. }
  assert (cur (view mch s2) (if_off h) (push_cpu (hw_if h) c)) as Hc2.
  { rewrite Hm2. by apply cur_push. }
  run (mycpu_run mch s2 _ _ Hc2 eq_refl).
  rewrite bind_run with (a := view mch s2) (s1 := s2) by done.
  unfold modify. f_equal. unfold s2. rewrite upd_upd, view_upd, view_upd_r. unfold s1.
  rewrite view_upd. done.
Qed.

(** Acquiring a lock this CPU holds is a fatal error. *)
Lemma acquire_again s h c :
  cur (view mch s) h c → cli_ok h c → held_by (view lk s) (this (view mch s)) = true →
  acquire mch lk s = Panic "acquire".
Proof.
  intros Hc Hok Hheld. unfold acquire. after_push mch s h c Hc s1 Hc1.
  run (holding_nested s1 _ _ Hc1 (cli_ok_push h c Hok) ltac:(rewrite push_cpu_ncli; destruct Hok; lia)).
  unfold s1. rewrite view_upd, view_upd_l.
  replace (this (m_push _ _ _)) with (this (view mch s)) by done. by rewrite Hheld.
Qed.

(** A lock another CPU holds makes acquire spin. *)
Lemma acquire_spins s h c :
  cur (view mch s) h c → cli_ok h c → lk_locked (view lk s) ≠ 0 →
  lk_cpu (view lk s) ≠ Some (this (view mch s)) →
  acquire mch lk s = Spin.
Proof.
  intros Hc Hok Hl Hcpu. unfold acquire. after_push mch s h c Hc s1 Hc1.
  run (holding_nested s1 _ _ Hc1 (cli_ok_push h c Hok) ltac:(rewrite push_cpu_ncli; destruct Hok; lia)).
  unfold s1. rewrite view_upd, view_upd_l. unfold held_by. simpl.
  rewrite bool_decide_eq_false_2 by done. rewrite andb_false_r.
  unfold mbind, M_bind, xchg_locked, gets, mbind, M_bind. rewrite view_upd_l.
  by rewrite (proj2 (Z.eqb_neq _ 0) Hl).
Qed.

Lemma release_run s h c :
  cur (view mch s) h c → hw_if h = false → 1 ≤ ncli c →
  held_by (view lk s) (this (view mch s)) = true →
  release mch lk s =
  Ok tt (upd lk (freed (view lk s)) (upd mch (m_pop (view mch s) h c) s)).
Proof.
  intros Hc Hif Hn Hheld. unfold release.
  run (holding_nested s h c Hc ltac:(split; [lia|done]) ltac:(lia)). rewrite Hheld. simpl.
  unfold modify at 1. unfold mbind at 1, M_bind at 1. unfold modify at 1.
  unfold mbind at 1, M_bind at 1. rewrite upd_upd, view_upd.
  rewrite (popcli_run mch _ h c); [|by rewrite view_upd_r|done|lia].
  by rewrite view_upd_r, upd_comm.
Qed.

(** Releasing a lock this CPU does not hold is a fatal error. *)
Lemma release_not_held s h c :
  cur (view mch s) h c → cli_ok h c → held_by (view lk s) (this (view mch s)) = false →
  release mch lk s = Panic "release".
Proof.
  intros Hc Hok Hheld. unfold release. run (holding_run s h c Hc Hok). by rewrite Hheld.
Qed.
End lockspecs.

(** The locking code writes the machine and the lock, nothing else. *)
Section lockframes.
Context {S X : Type} (mch : lens S mach) (f : S → X).
Hypothesis f_mach : ∀ m s, f (upd mch m s) = f s.

Lemma frames_put_mach m : frames f (put_mach mch m).
Proof. apply frames_modify. auto. Qed.
Lemma frames_get_mach : frames f (get_mach mch).
Proof. apply frames_gets. Qed.
#[local] Hint Resolve frames_put_mach frames_get_mach : frames.
Lemma frames_readeflags : frames f (readeflags mch).
Proof. unfold readeflags. solve_frames. Qed.
Lemma frames_set_if b : frames f (set_if mch b).
Proof. unfold set_if. solve_frames. Qed.
Lemma frames_lapicid : frames f (lapicid mch).
Proof. unfold lapicid. solve_frames. Qed.
#[local] Hint Resolve frames_readeflags frames_set_if frames_lapicid : frames.
Lemma frames_mycpu : frames f (mycpu mch).
Proof. unfold mycpu. solve_frames. Qed.
Lemma frames_get_cpu i : frames f (get_cpu mch i).
Proof. unfold get_cpu. solve_frames. Qed.
Lemma frames_put_cpu i c : frames f (put_cpu mch i c).
Proof. unfold put_cpu. solve_frames. Qed.
#[local] Hint Resolve frames_mycpu frames_get_cpu frames_put_cpu : frames.
Lemma frames_pushcli : frames f (pushcli mch).
Proof. unfold pushcli, cli. solve_frames. Qed.
Lemma frames_popcli : frames f (popcli mch).
Proof. unfold popcli, sti. solve_frames. Qed.
#[local] Hint Resolve frames_pushcli frames_popcli : frames.
Lemma frames_sti : frames f (sti mch).
Proof. apply frames_set_if. Qed.

Context (lk : lens S spinlock).
Lemma frames_holding : frames f (holding mch lk).
Proof. unfold holding. solve_frames. Qed.
#[local] Hint Resolve frames_holding : frames.
Hypothesis f_lock : ∀ l s, f (upd lk l s) = f s.
Lemma frames_acquire : frames f (acquire mch lk).
Proof.
  unfold acquire, xchg_locked. solve_frames.
Qed.
Lemma frames_release : frames f (release mch lk).
Proof. unfold release. solve_frames. Qed.
End lockframes.

(** ** Mutual exclusion

    Several CPUs run acquire and release on one lock; each step is one access
    to the lock's memory.  [Trying] is the xchg loop, [Got] the window after the
    xchg returned 0 and before [lk->cpu] is set, [Leaving] the one after
    [lk->cpu = 0] and before [lk->locked = 0]. *)
Module LockProtocol.

Inductive pc := Out | Trying | Got | In | Leaving.
#[global] Instance pc_eq_dec : EqDecision pc.
Proof. solve_decision. Defined.

Record sys := mkSys { slock : spinlock; spc : list pc }.

Definition inside (p : pc) : bool := match p with Got | In | Leaving => true | _ => false end.

Inductive step : sys → sys → Prop :=
| step_start l ps i :
    ps !! i = Some Out → held_by l i = false →
    step (mkSys l ps) (mkSys l (<[i := Trying]> ps))
| step_xchg_busy l ps i :
    ps !! i = Some Trying → lk_locked l ≠ 0 →
    step (mkSys l ps) (mkSys (l <| lk_locked := 1 |>) ps)
| step_xchg_free l ps i :
    ps !! i = Some Trying → lk_locked l = 0 →
    step (mkSys l ps) (mkSys (l <| lk_locked := 1 |>) (<[i := Got]> ps))
| step_record l ps i pcs :
    ps !! i = Some Got →
    step (mkSys l ps) (mkSys (l <| lk_cpu := Some i |> <| lk_pcs := pcs |>) (<[i := In]> ps))
| step_forget l ps i :
    ps !! i = Some In → held_by l i = true →
    step (mkSys l ps) (mkSys (l <| lk_pcs := <[0%nat := 0]> (lk_pcs l) |> <| lk_cpu := None |>)
                             (<[i := Leaving]> ps))
| step_free l ps i :
    ps !! i = Some Leaving →
    step (mkSys l ps) (mkSys (l <| lk_locked := 0 |>) (<[i := Out]> ps)).

(** initlock, with every CPU outside. *)
Definition initial (n : nat) (name : string) (pcs : list Z) : sys :=
  mkSys (mkLock 0 name None pcs) (replicate n Out).

Definition inv (s : sys) : Prop :=
  (∀ i j p q, spc s !! i = Some p → spc s !! j = Some q →
     inside p = true → inside q = true → i = j) ∧
  (lk_locked (slock s) ≠ 0 ↔ ∃ i p, spc s !! i = Some p ∧ inside p = true) ∧
  (∀ i, lk_cpu (slock s) = Some i ↔ spc s !! i = Some In).

Lemma inv_initial n name pcs : inv (initial n name pcs).
Proof.
  unfold inv, initial; simpl.
  assert (∀ i p, replicate n Out !! i = Some p → p = Out) as Hr.
  { by intros i p [-> _]%lookup_replicate. }
  repeat split.
  - intros i j p q Hp%Hr Hq%Hr ?. by subst.
  - done.
  - intros (i & p & Hp%Hr & ?). by subst.
  - done.
  - by intros ?%Hr.
Qed.

(** One CPU moves from [p] to [p']: it may enter the region only when the lock
    is free, and the lock's two fields must follow the move. *)
Lemma inv_move l l' ps i p p' :
  inv (mkSys l ps) → ps !! i = Some p →
  (inside p' = true → inside p = true ∨ lk_locked l = 0) →
  (lk_locked l' ≠ 0 ↔ inside p' = true ∨ (inside p = false ∧ lk_locked l ≠ 0)) →
  lk_cpu l' = (if decide (p' = In) then Some i else
               if decide (p = In) then None else lk_cpu l) →
  inv (mkSys l' (<[i := p']> ps)).
Proof.
  unfold inv; simpl. intros (Hex & Hlk & Hcpu) Hi Henter Hl' Hc'.
  pose proof (lookup_lt_Some _ _ _ Hi) as Hlen.
  assert (∀ j q, i ≠ j → inside p' = true → ps !! j = Some q → inside q = true → False) as Hsole.
  { intros j q Hij Hp' Hj Hq. destruct (Henter Hp') as [Hp|H0].
    - by apply Hij, (Hex _ _ _ _ Hi Hj).
    - apply Hlk in H0; [done|]. by exists j, q. }
  split; [|split].
  - intros j k q r [[-> <-]|[? Hj]]%lookup_insert_Some_inv [[-> <-]|[? Hk]]%lookup_insert_Some_inv Hq Hr;
      [done|exfalso; eauto..|]. by apply (Hex _ _ _ _ Hj Hk).
  - rewrite Hl'. split.
    + intros [Hp'|[Hp (j & q & Hj & Hq)%Hlk]].
      * exists i, p'. by rewrite list_lookup_insert_eq.
      * exists j, q. rewrite list_lookup_insert_ne; [done|]. congruence.
    + intros (j & q & [[-> <-]|[Hij Hj]]%lookup_insert_Some_inv & Hq); [by left|]. right. split.
      * destruct (inside p) eqn:Hp; [|done]. exfalso. by apply Hij, (Hex _ _ _ _ Hi Hj).
      * apply Hlk. by exists j, q.
  - intros j. rewrite Hc'. destruct (decide (i = j)) as [<-|Hij].
    + rewrite list_lookup_insert_eq by done. repeat case_decide; naive_solver.
    + rewrite list_lookup_insert_ne by done. repeat case_decide; subst.
      * split; [by intros [= ->]|]. intros Hj. exfalso. eapply Hsole; eauto.
      * split; [done|]. intros Hj. exfalso. by apply Hij, (Hex _ _ _ _ Hi Hj).
      * apply Hcpu.
Qed.

Lemma inv_step s s' : inv s → step s s' → inv s'.
Proof.
  intros Hinv Hstep. pose proof Hinv as (Hex & Hlk & Hcpu).
  destruct Hstep as [l ps i Hi Hh | l ps i Hi Hl | l ps i Hi Hl | l ps i pcs Hi | l ps i Hi Hh | l ps i Hi]; simpl in *.
  2: { split_and!; [done|simpl|done]. rewrite <- Hlk. split; [done|lia]. }
  all: eapply inv_move; [exact Hinv|exact Hi|simpl..];
    first [done|intuition (congruence || lia)|split; [by left|intros _; apply Hlk; eauto]].
Qed.

Lemma inv_reachable n name pcs s : rtc step (initial n name pcs) s → inv s.
Proof.
  intros Hr. remember (initial n name pcs) as s0 eqn:E.
  assert (inv s0) as H0 by (subst; apply inv_initial). clear E.
  induction Hr; [done|]. eauto using inv_step.
Qed.

(** C2: Mutual exclusion of the spin lock: in every interleaving of the memory
    accesses of acquire and release by [n] CPUs, at most one CPU is between the
    xchg that took the lock and the store that frees it, and holding() answers
    yes on exactly the CPU inside the critical section. *)
Theorem lock_mutual_exclusion n name pcs s :
  rtc step (initial n name pcs) s →
  (∀ i j p q, spc s !! i = Some p → spc s !! j = Some q →
     inside p = true → inside q = true → i = j) ∧
  (∀ i, held_by (slock s) i = true ↔ spc s !! i = Some In).
Proof.
  intros Hr. destruct (inv_reachable n name pcs s Hr) as (Hex & Hlk & Hcpu). split; [done|].
  intros i. unfold held_by. rewrite andb_true_iff, negb_true_iff, Z.eqb_neq, bool_decide_eq_true, Hcpu.
  split; [by intros [_ ?]|]. intros Hi. split; [|done]. apply Hlk. by exists i, In.
Qed.
Lemma lock_mutual_exclusion_witness :
  held_by (mkLock 1 "ptable" (Some 1%nat) []) 1 = true ∧
  ∀ i, held_by (mkLock 1 "ptable" (Some 1%nat) []) i = true ↔ [Trying; In] !! i = Some In.
Proof.
  split; [reflexivity|].
  refine (proj2 (lock_mutual_exclusion 2 "ptable" [] (mkSys (mkLock 1 "ptable" (Some 1%nat) []) [Trying; In]) _)).
  eapply rtc_l; [by apply (step_start _ _ 1)|]. simpl.
  eapply rtc_l; [by apply (step_start _ _ 0)|]. simpl.
  eapply rtc_l; [by apply (step_xchg_free _ _ 1)|]. simpl.
  eapply rtc_l; [by apply (step_xchg_busy _ _ 0)|]. simpl.
  eapply rtc_l; [by apply (step_record _ _ 1 [])|]. apply rtc_refl.
Defined.
End LockProtocol.

(** ** Balanced sections *)
Section balanced.
Context {S : Type} (mch : lens S mach) `{!LensOk mch}.
Context (lk : lens S spinlock) `{!LensOk lk} `{!LensDisj mch lk}.

(** Pushcli and popcli nest: after [n] pushcli and [n] popcli the interrupt
    flag and the nesting depth are what they were, and nothing else changed. *)
Theorem cli_nesting n s h c :
  cur (view mch s) h c → cli_ok h c →
  ∃ c', (iter_m n (pushcli mch) ;; iter_m n (popcli mch)) s = Ok tt (upd mch (at_cpu (view mch s) h c') s) ∧
        ncli c' = ncli c ∧ apicid c' = apicid c ∧ cpu_proc c' = cpu_proc c ∧
        (0 < ncli c → intena c' = intena c).
Proof.
  intros Hc Hok. rewrite (push_pop_nest mch n s h c Hc Hok). destruct n as [|n].
  - exists c. by rewrite at_cpu_id, upd_view.
  - exists (peek_cpu h c). unfold peek_cpu. destruct (Z.eqb_spec (ncli c) 0); [|done].
    split_and!; [done..|]. simpl. lia.
Qed.

(** On a free lock, acquire takes it for this CPU with interrupts off, a
    second acquire by the same CPU is a fatal error, and the matching release
    frees the lock and restores the interrupt flag and the nesting depth. *)
Theorem acquire_release s h c :
  cur (view mch s) h c → cli_ok h c → lk_locked (view lk s) = 0 →
  ∃ s1, acquire mch lk s = Ok tt s1 ∧ held_by (view lk s1) (this (view mch s)) = true ∧
    (hw_if <$> hw (view mch s1) !! this (view mch s1)) = Some false ∧
    acquire mch lk s1 = Panic "acquire" ∧
    release mch lk s1 = Ok tt (upd lk (freed (taken (view mch s) (view lk s)))
                                 (upd mch (at_cpu (view mch s) h (peek_cpu h c)) s)).
Proof.
  intros Hc Hok Hf. eexists. split; [by apply acquire_run|].
  set (s1 := upd lk _ _).
  assert (view mch s1 = m_push (view mch s) h c) as Hm by (unfold s1; by rewrite view_upd_r, view_upd).
  assert (cur (view mch s1) (if_off h) (push_cpu (hw_if h) c)) as Hc1 by (rewrite Hm; by apply cur_push).
  assert (held_by (view lk s1) (this (view mch s)) = true) as Hh.
  { unfold s1. rewrite view_upd. unfold held_by. simpl. by rewrite bool_decide_eq_true_2. }
  assert (this (view mch s1) = this (view mch s)) as Ht by (by rewrite Hm).
  split; [done|]. split; [|split].
  - destruct Hc1 as (-> & _). done.
  - eapply (acquire_again mch lk s1 _ _ Hc1); [by apply cli_ok_push|]. by rewrite Ht.
  - rewrite (release_run mch lk s1 _ _ Hc1); [|done|destruct Hok; rewrite push_cpu_ncli; lia|by rewrite Ht].
    rewrite Hm, m_pop_push by done. unfold s1. rewrite view_upd, (upd_comm (L := mch) (K := lk)).
    by rewrite !upd_upd.
Qed.
End balanced.

(** One CPU with a lock, for the examples. *)
Definition demo_pair : Type := mach * spinlock.
Definition D_mach : lens demo_pair mach := Lens fst (λ m s, (m, snd s)).
Definition D_lock : lens demo_pair spinlock := Lens snd (λ l s, (fst s, l)).
#[global] Instance D_mach_ok : LensOk D_mach.
Proof. split; by intros; destruct s. Qed.
#[global] Instance D_lock_ok : LensOk D_lock.
Proof. split; by intros; destruct s. Qed.
#[global] Instance D_disj : LensDisj D_mach D_lock.
Proof. split; by intros; destruct s. Qed.
Definition demo_cpu0 : demo_pair :=
  (mkMach 0 [mkHw 3 true] [mkCpu 3 0 false None] 0 (λ _, 0), mkLock 0 "demo" None (replicate 10 0)).
Lemma demo_cpu0_cur : cur (view D_mach demo_cpu0) (mkHw 3 true) (mkCpu 3 0 false None).
Proof. split; [done|]. split; [done|]. split; [done|]. simpl. lia. Qed.
Lemma demo_cpu0_ok : cli_ok (mkHw 3 true) (mkCpu 3 0 false None).
Proof. by split. Qed.
Lemma cli_nesting_witness :
  ∃ c', (iter_m 3 (pushcli D_mach) ;; iter_m 3 (popcli D_mach)) demo_cpu0 =
        Ok tt (upd D_mach (at_cpu (view D_mach demo_cpu0) (mkHw 3 true) c') demo_cpu0) ∧ ncli c' = 0.
Proof.
  destruct (cli_nesting D_mach 3 demo_cpu0 _ _ demo_cpu0_cur demo_cpu0_ok) as (c' & Hr & Hn & _).
  exists c'. split; [exact Hr|exact Hn].
Defined.
Lemma acquire_release_witness :
  ∃ s1, acquire D_mach D_lock demo_cpu0 = Ok tt s1 ∧ acquire D_mach D_lock s1 = Panic "acquire".
Proof.
  destruct (acquire_release D_mach D_lock demo_cpu0 _ _ demo_cpu0_cur demo_cpu0_ok eq_refl)
    as (s1 & H1 & _ & _ & H2 & _). by exists s1.
Defined.
