(* ===== verification/Queue.v ===== *)
(** * The scheduling queues (struct queue and its uses in proc.c)

    A queue is an array of [NPROC] process pointers and the index [pi] of its
    last entry, -1 when it is empty.  The operations below are the queue code of
    proc.c: the append that fork, yield, wakeup1, kill, agingMechanism and
    change_queue all write out, and the removal of shiftOutQueue and
    cleanupCorresQueue.  [Spec] is what a queue promises, a list of processes in
    arrival order; [repr] relates the two. *)

From S2P Require Import Prelude.

Definition NPROC : Z := 64.

(** Entries are indices into ptable.proc, [None] for the null pointer. *)
Record queue := mkQueue { q_proc : list (option nat); q_pi : Z }.
#[global] Instance set_q_proc : Setter q_proc := λ f q, mkQueue (f (q_proc q)) (q_pi q).
#[global] Instance set_q_pi : Setter q_pi := λ f q, mkQueue (q_proc q) (f (q_pi q)).

Definition q_get (i : Z) : M queue (option nat) :=
  q ← get; array_get "q->proc[i]" (q_proc q) i.
Definition q_put (i : Z) (x : option nat) : M queue unit :=
  q ← get;
  if in_bounds (q_proc q) i then modify (λ q, q <| q_proc := <[Z.to_nat i := x]> (q_proc q) |>)
  else undef "q->proc[i]".

(** [q.pi++; q.proc[q.pi] = p;] *)
Definition enqueue (p : nat) : M queue unit :=
  modify (λ q, q <| q_pi := q_pi q + 1 |>) ;;
  q ← get;
  q_put (q_pi q) (Some p).

(** shiftOutQueue's first loop: the index of the first entry whose process has
    the pid, [pi + 1] when there is none.  [n] counts the iterations left. *)
Fixpoint shift_find (pid_of : nat → Z) (target : Z) (qi : Z) (n : nat) : M queue Z :=
  match n with
  | O => mret qi
  | S n' =>
      e ← q_get qi;
      match e with
      | None => undef "null->pid"
      | Some i => if pid_of i =? target then mret qi else shift_find pid_of target (qi + 1) n'
      end
  end.

(** Its second loop: swap the entry with the next one until it is past the end. *)
Fixpoint shift_swap (qi : Z) (n : nat) : M queue unit :=
  match n with
  | O => q_put qi None
  | S n' =>
      temp ← q_get qi;
      nxt ← q_get (qi + 1);
      q_put qi nxt ;;
      q_put (qi + 1) temp ;;
      shift_swap (qi + 1) n'
  end.

Definition shift_out (pid_of : nat → Z) (target : Z) : M queue unit :=
  q ← get;
  qi ← shift_find pid_of target 0 (Z.to_nat (q_pi q + 1));
  shift_swap qi (Z.to_nat (q_pi q + 1 - qi)).

(** [q.pi--;] *)
Definition q_dec : M queue unit := modify (λ q, q <| q_pi := q_pi q - 1 |>).

(** ** What a queue promises *)
Module Spec.
Definition push (p : nat) (l : list nat) : list nat := l ++ [p].
(** Remove the first process with the pid. *)
Definition remove (pid_of : nat → Z) (target : Z) (l : list nat) : list nat :=
  match find_index (λ i, pid_of i =? target) l with
  | Some k => delete k l
  | None => l
  end.
Definition drop_last (l : list nat) : list nat := take (length l - 1) l.
End Spec.

(** The array holds [l] in its first entries. *)
Definition repr (q : queue) (l : list nat) : Prop :=
  Z.of_nat (length (q_proc q)) = NPROC ∧ q_pi q = Z.of_nat (length l) - 1 ∧
  ∀ i p, l !! i = Some p → q_proc q !! i = Some (Some p).

Lemma repr_length q l : repr q l → Z.of_nat (length l) ≤ NPROC.
Proof.
  intros (Hlen & _ & Hl). destruct (decide (l = [])) as [->|Hne]; [simpl; unfold NPROC; lia|].
  destruct (lookup_lt_is_Some_2 l (length l - 1)) as [p Hp].
  { destruct l; [done|]. simpl. lia. }
  apply Hl in Hp. apply lookup_lt_Some in Hp. unfold NPROC in *. lia.
Qed.
Lemma repr_fun q l l' : repr q l → repr q l' → l = l'.
Proof.
  intros (_ & Hp & Hl) (_ & Hp' & Hl'). apply list_eq_same_length with (length l); [lia|done|].
  intros i x y _ Hx%Hl Hy%Hl'. naive_solver.
Qed.
Lemma repr_lookup q l i p : repr q l → l !! i = Some p → q_proc q !! i = Some (Some p).
Proof. intros (_ & _ & Hl). apply Hl. Qed.

Lemma repr_empty : repr (mkQueue (replicate (Z.to_nat NPROC) None) (-1)) [].
Proof. done. Qed.

Lemma q_get_run q i x : 0 ≤ i → q_proc q !! Z.to_nat i = Some x → q_get i q = Ok x q.
Proof. intros. unfold q_get. rewrite bind_run with (a := q) (s1 := q) by done. by apply array_get_ok. Qed.
Lemma q_put_run q i x :
  0 ≤ i < Z.of_nat (length (q_proc q)) →
  q_put i x q = Ok tt (q <| q_proc := <[Z.to_nat i := x]> (q_proc q) |>).
Proof.
  intros. unfold q_put. rewrite bind_run with (a := q) (s1 := q) by done.
  unfold in_bounds. by rewrite bool_decide_eq_true_2.
Qed.

(** Appending to a queue that is not full is the list append. *)
Lemma enqueue_spec q l p :
  repr q l → Z.of_nat (length l) < NPROC →
  ∃ q', enqueue p q = Ok tt q' ∧ repr q' (Spec.push p l).
Proof.
  intros (Hlen & Hpi & Hl) Hlt. unfold enqueue.
  rewrite bind_run with (a := tt) (s1 := q <| q_pi := q_pi q + 1 |>) by done.
  rewrite bind_run with (a := q <| q_pi := q_pi q + 1 |>) (s1 := q <| q_pi := q_pi q + 1 |>) by done.
  rewrite q_put_run by (simpl; lia). eexists. split; [done|].
  unfold repr, Spec.push; simpl. rewrite length_insert, length_app; simpl.
  split; [done|]. split; [lia|]. intros i x Hi.
  replace (Z.to_nat (q_pi q + 1)) with (length l) by lia.
  apply lookup_app_Some in Hi as [Hi|[Hge Hi]].
  - rewrite list_lookup_insert_ne; [by apply Hl|]. apply lookup_lt_Some in Hi. lia.
  - apply list_lookup_singleton_Some in Hi as [Hi <-].
    replace i with (length l) by lia. apply list_lookup_insert_eq. lia.
Qed.

(** On a full queue the append writes outside the array. *)
Lemma enqueue_full q l p :
  repr q l → Z.of_nat (length l) = NPROC → enqueue p q = Undef "q->proc[i]".
Proof.
  intros (Hlen & Hpi & Hl) Hlt. unfold enqueue.
  unfold mbind, M_bind, modify, get, q_put, in_bounds; simpl. unfold mbind, M_bind, get; simpl.
  by rewrite bool_decide_eq_false_2 by lia.
Qed.

Lemma shift_find_spec pid_of target q l k n :
  repr q l → (k + n = length l)%nat →
  shift_find pid_of target (Z.of_nat k) n q =
  Ok (match find_index (λ i, pid_of i =? target) (drop k l) with
      | Some j => Z.of_nat (k + j) | None => Z.of_nat (length l) end) q.
Proof.
  intros Hr. revert k. induction n as [|n IH]; intros k Hk; simpl.
  - rewrite drop_ge by lia. simpl. by replace (length l) with k by lia.
  - destruct (lookup_lt_is_Some_2 l k) as [p Hp]; [lia|].
    rewrite (drop_S l p k Hp). simpl.
    rewrite (bind_run _ _ (Some p) q q).
    2:{ apply q_get_run; [lia|]. rewrite Nat2Z.id. by eapply repr_lookup. }
    destruct (pid_of p =? target); [by rewrite Nat.add_0_r|].
    replace (Z.of_nat k + 1) with (Z.of_nat (S k)) by lia. rewrite IH by lia.
    destruct (find_index _ (drop (S k) l)); simpl; [|done]. do 2 f_equal. lia.
Qed.

(** The second loop moves entry [k] to the end and clears it: the others close
    up.  [m] is the list with the entry taken out. *)
Lemma shift_swap_spec n : ∀ q (a b : list (option nat)) x,
  Z.of_nat (length (q_proc q)) = NPROC → Z.of_nat (length a + S n) < NPROC →
  length b = n →
  (∀ i, (i < length a + S n)%nat → q_proc q !! i = (a ++ x :: b) !! i) →
  ∃ q', shift_swap (Z.of_nat (length a)) (S n) q = Ok tt q' ∧ q_pi q' = q_pi q ∧
        length (q_proc q') = length (q_proc q) ∧
        ∀ i, (i < length a + n)%nat → q_proc q' !! i = (a ++ b) !! i.
Proof.
  induction n as [|n IH]; intros q a b x Hlen Hlt Hb Hq.
  all: destruct (lookup_lt_is_Some_2 (q_proc q) (S (length a))) as [y Hy]; [lia|].
  all: assert (q_proc q !! length a = Some x) as Hx by (rewrite Hq by lia; by apply list_lookup_middle).
  all: cbn [shift_swap].
  all: rewrite (bind_run _ _ x q q) by (apply q_get_run; [lia|]; by rewrite Nat2Z.id).
  all: replace (Z.of_nat (length a) + 1) with (Z.of_nat (S (length a))) by lia.
  all: rewrite (bind_run _ _ y q q) by (apply q_get_run; [lia|]; by rewrite Nat2Z.id).
  all: erewrite bind_run; [|apply q_put_run; lia]; erewrite bind_run; [|apply q_put_run; simpl; rewrite length_insert; lia].
  all: simpl; rewrite !Nat2Z.id.
  - destruct b; [|done]. rewrite app_nil_r. cbn [shift_swap].
    rewrite q_put_run by (simpl; rewrite !length_insert; lia). eexists. split; [done|].
    simpl. rewrite Nat2Z.id, !length_insert. repeat split.
    intros i Hi. rewrite !list_lookup_insert_ne by lia. rewrite Hq by lia.
    by rewrite lookup_app_l by lia.
  - destruct b as [|y' b]; [done|].
    assert (y = y') as ->.
    { rewrite Hq, lookup_app_r in Hy by lia. replace (S (length a) - length a)%nat with 1%nat in Hy by lia.
      simpl in Hy. congruence. }
    edestruct (IH (mkQueue (<[S (length a):=x]> (<[length a:=y']> (q_proc q))) (q_pi q)) (a ++ [y']) b x)
      as (q' & Hrun & Hpi & Hlen' & Hl); [simpl; rewrite !length_insert; lia|rewrite length_app; simpl; lia|simpl in Hb; lia| |].
    { intros i Hi. simpl. rewrite length_app in Hi; simpl in Hi.
      rewrite <- app_assoc. simpl. destruct (decide (i = S (length a))) as [->|]; [|].
      - rewrite list_lookup_insert_eq by (rewrite length_insert; lia).
        rewrite lookup_app_r by lia. by replace (S (length a) - length a)%nat with 1%nat by lia.
      - rewrite list_lookup_insert_ne by done. destruct (decide (i = length a)) as [->|].
        + rewrite list_lookup_insert_eq by lia. by rewrite list_lookup_middle.
        + rewrite list_lookup_insert_ne by done. rewrite Hq by lia.
          destruct (decide (i < length a)%nat); [by rewrite !lookup_app_l by lia|].
          rewrite !lookup_app_r by lia. by destruct (i - length a)%nat as [|[|k]] eqn:?; [lia|lia|]. }
    exists q'. simpl in Hpi, Hlen'. rewrite length_app in Hrun, Hl; simpl in Hrun, Hl.
    replace (length a + 1)%nat with (S (length a)) in Hrun by lia. split; [done|].
    rewrite !length_insert in Hlen'. split; [done|]. split; [done|].
    intros i Hi. rewrite Hl by lia. by rewrite <- app_assoc.
Qed.

Lemma repr_take q q' (l l' : list nat) :
  repr q l → length (q_proc q') = length (q_proc q) →
  q_pi q' = Z.of_nat (length l') - 1 →
  (∀ i, (i < length l')%nat → q_proc q' !! i = Some <$> l' !! i) → repr q' l'.
Proof.
  intros (Hlen & _) Hlen' Hpi Hl. split; [congruence|]. split; [done|].
  intros i p Hi. rewrite Hl by (by eapply lookup_lt_Some). by rewrite Hi.
Qed.

(** Taking a process out: [shiftOutQueue(q, p); q.pi--;] removes it from a
    queue that is not full and has it. *)
Lemma shift_out_present q l pid_of target k :
  repr q l → Z.of_nat (length l) < NPROC →
  find_index (λ i, pid_of i =? target) l = Some k →
  ∃ q', (shift_out pid_of target ;; q_dec) q = Ok tt q' ∧ repr q' (delete k l).
Proof.
  intros Hr Hlt Hk. pose proof Hr as (Hlen & Hpi & Hl).
  pose proof (find_index_lt _ _ _ Hk) as Hkl.
  unfold shift_out. rewrite (m_bind_assoc _ _ _ q).
  rewrite bind_run with (a := q) (s1 := q) by done.
  replace (Z.to_nat (q_pi q + 1)) with (length l) by lia. rewrite (m_bind_assoc _ _ _ q).
  rewrite (bind_run _ _ _ _ _ (shift_find_spec pid_of target q l 0 (length l) Hr eq_refl)).
  rewrite drop_0, Hk. simpl.
  replace (Z.to_nat (q_pi q + 1 - Z.of_nat k)) with (S (length l - S k)) by lia.
  destruct (lookup_lt_is_Some_2 l k Hkl) as [p Hp].
  destruct (shift_swap_spec (length l - S k) q (Some <$> take k l) (Some <$> drop (S k) l) (Some p))
    as (q' & Hrun & Hpi' & Hlen' & Hl').
  { done. }
  { rewrite length_fmap, length_take_le by lia. lia. }
  { by rewrite length_fmap, length_drop. }
  { intros i Hi. rewrite length_fmap, length_take_le in Hi by lia.
    rewrite <- fmap_cons, <- fmap_app, (take_drop_middle l k p Hp).
    destruct (lookup_lt_is_Some_2 l i) as [x Hx]; [lia|]. rewrite (Hl i x Hx).
    by rewrite list_lookup_fmap, Hx. }
  rewrite length_fmap, length_take_le in Hrun, Hl' by lia. run Hrun.
  eexists. split; [done|]. eapply repr_take; [exact Hr|done|..]; simpl.
  - rewrite length_delete by (by eexists). lia.
  - intros i Hi. rewrite length_delete in Hi by (by eexists). rewrite Hl' by lia.
    by rewrite <- fmap_app, <- delete_take_drop, list_lookup_fmap.
Qed.

(** A process that is not in the queue: the loops find nothing, and the
    decrement drops whatever process came last. *)
Lemma shift_out_absent q l pid_of target :
  repr q l → Z.of_nat (length l) < NPROC →
  find_index (λ i, pid_of i =? target) l = None → l ≠ [] →
  ∃ q', (shift_out pid_of target ;; q_dec) q = Ok tt q' ∧ repr q' (take (length l - 1) l).
Proof.
  intros Hr Hlt Hk Hne. pose proof Hr as (Hlen & Hpi & Hl).
  unfold shift_out. rewrite (m_bind_assoc _ _ _ q).
  rewrite bind_run with (a := q) (s1 := q) by done.
  replace (Z.to_nat (q_pi q + 1)) with (length l) by lia. rewrite (m_bind_assoc _ _ _ q).
  rewrite (bind_run _ _ _ _ _ (shift_find_spec pid_of target q l 0 (length l) Hr eq_refl)).
  rewrite drop_0, Hk. simpl.
  replace (Z.to_nat (q_pi q + 1 - Z.of_nat (length l))) with 0%nat by lia. cbn [shift_swap].
  erewrite bind_run; [|apply q_put_run; lia].
  assert (0 < length l)%nat by (destruct l; [done|simpl; lia]).
  eexists. split; [done|]. eapply repr_take; [exact Hr|simpl; apply length_insert|..]; simpl.
  - rewrite length_take_le by lia. lia.
  - intros i Hi. rewrite length_take_le in Hi by lia. rewrite Nat2Z.id.
    rewrite list_lookup_insert_ne by lia. rewrite lookup_take_lt by lia.
    destruct (lookup_lt_is_Some_2 l i) as [x Hx]; [lia|]. by rewrite (Hl i x Hx), Hx.
Qed.

(** The removal on a full queue reaches past the end of the array. *)
Lemma shift_out_full q l pid_of target :
  repr q l → Z.of_nat (length l) = NPROC →
  (shift_out pid_of target ;; q_dec) q = Undef "q->proc[i]".
Proof.
  intros Hr Hfull. pose proof Hr as (Hlen & Hpi & Hl).
  unfold shift_out. rewrite (m_bind_assoc _ _ _ q).
  rewrite bind_run with (a := q) (s1 := q) by done.
  replace (Z.to_nat (q_pi q + 1)) with (length l) by lia. rewrite (m_bind_assoc _ _ _ q).
  rewrite (bind_run _ _ _ _ _ (shift_find_spec pid_of target q l 0 (length l) Hr eq_refl)).
  rewrite drop_0. simpl.
  assert (∀ n q k, q_pi q = NPROC - 1 → Z.of_nat (length (q_proc q)) = NPROC →
    k + Z.of_nat n = NPROC → 0 ≤ k →
    shift_swap k n q = Undef "q->proc[i]") as Hswap.
  { clear. induction n as [|n IH]; intros q k Hpi Hlen Hk Hk0; cbn [shift_swap].
    - unfold q_put, mbind, M_bind, get, in_bounds. by rewrite bool_decide_eq_false_2 by lia.
    - destruct (lookup_lt_is_Some_2 (q_proc q) (Z.to_nat k)) as [x Hx]; [lia|].
      rewrite (bind_run _ _ x q q) by (by apply q_get_run).
      destruct (q_proc q !! Z.to_nat (k + 1)) as [y|] eqn:Hy.
      + rewrite (bind_run _ _ y q q) by (apply q_get_run; [lia|done]).
        erewrite bind_run; [|apply q_put_run; lia].
        apply lookup_lt_Some in Hy.
        erewrite bind_run; [|apply q_put_run; simpl; rewrite length_insert; lia].
        apply IH; simpl; rewrite ?length_insert; lia.
      + unfold mbind at 1, M_bind at 1, q_get, mbind, M_bind, get, array_get.
        rewrite decide_True by lia. by rewrite Hy. }
  unfold mbind, M_bind.
  destruct (find_index _ l) as [k|] eqn:Hk; [apply find_index_lt in Hk|]; by rewrite Hswap by lia.
Qed.

(** On an empty queue the removal clears entry 0 and leaves [pi] at -2, an index
    that no list has. *)
Lemma shift_out_empty q pid_of target :
  repr q [] → ∃ q', (shift_out pid_of target ;; q_dec) q = Ok tt q' ∧ q_pi q' = -2.
Proof.
  intros Hr. pose proof Hr as (Hlen & Hpi & _). simpl in Hpi.
  unfold shift_out. rewrite (m_bind_assoc _ _ _ q).
  rewrite bind_run with (a := q) (s1 := q) by done. rewrite Hpi. cbn [Z.add Z.to_nat shift_find].
  rewrite (m_bind_assoc _ _ _ q). rewrite bind_run with (a := 0) (s1 := q) by done.
  cbn [Z.sub Z.opp Z.add Z.to_nat shift_swap]. unfold NPROC in Hlen.
  erewrite bind_run; [|apply q_put_run; lia].
  eexists. split; [done|]. simpl. lia.
Qed.


(** Removing a process that is not in the queue does not fail: it returns,
    and the queue has lost its last process instead. *)
Theorem remove_absent_drops_last q l pid_of target p :
  repr q (l ++ [p]) → Z.of_nat (length (l ++ [p])) < NPROC →
  find_index (λ i, pid_of i =? target) (l ++ [p]) = None →
  ∃ q', (shift_out pid_of target ;; q_dec) q = Ok tt q' ∧ repr q' l.
Proof.
  intros Hr Hlt Hn. destruct (shift_out_absent q (l ++ [p]) pid_of target Hr Hlt Hn) as (q' & Hq & Hr').
  { by destruct l. }
  exists q'. split; [done|]. rewrite length_app in Hr'. simpl in Hr'.
  by rewrite Nat.add_sub, take_app_length in Hr'.
Qed.

Definition demo_queue : queue :=
  mkQueue ([Some 4%nat; Some 7%nat; Some 2%nat] ++ replicate 61 None) 2.
Lemma demo_queue_repr : repr demo_queue [4%nat; 7%nat; 2%nat].
Proof.
  split; [done|]. split; [done|]. intros i p. do 3 (destruct i as [|i]; [by intros [= <-]|]). done.
Qed.
Lemma remove_absent_drops_last_witness :
  ∃ q', (shift_out Z.of_nat 9 ;; q_dec) demo_queue = Ok tt q' ∧ repr q' [4%nat; 7%nat].
Proof.
  apply (remove_absent_drops_last demo_queue [4%nat; 7%nat] Z.of_nat 9 2%nat);
    [apply demo_queue_repr|done|done].
Defined.
