(* ===== verification/CStr.v ===== *)
(** * C strings and byte blocks as lists (string.c)

    A pointer argument that a routine only reads is the list of bytes from the
    pointer to the end of the object it points into; reading past that list is
    undefined and the routine returns [None].  A routine that writes returns the
    bytes it stores.  memmove and memset, whose source and destination may overlap,
    are in [Mem]. *)

From S2P Require Import Prelude.

(** strlen: [None] when no byte of the object is NUL. *)
Fixpoint strlen (s : list Z) : option Z :=
  match s with
  | [] => None
  | c :: s' => if c =? 0 then Some 0 else (λ n, n + 1) <$> strlen s'
  end.

(** The bytes safestrcpy(s, t, n) stores, from s on. *)
Fixpoint safestrcpy_out (t : list Z) (n : nat) {struct n} : option (list Z) :=
  match n with
  | O => Some []
  | 1%nat => Some [0]
  | S n' =>
      match t with
      | [] => None
      | c :: t' => if c =? 0 then Some [0; 0] else cons c <$> safestrcpy_out t' n'
      end
  end.
Definition safestrcpy (s t : list Z) (n : Z) : option (list Z) :=
  if n <=? 0 then Some s
  else (λ w, w ++ drop (length w) s) <$> safestrcpy_out t (Z.to_nat n).

(** The bytes strncpy(s, t, n) stores: [t] up to its NUL, padded with NULs. *)
Fixpoint strncpy_out (t : list Z) (n : nat) {struct n} : option (list Z) :=
  match n with
  | O => Some []
  | S n' =>
      match t with
      | [] => None
      | c :: t' => if c =? 0 then Some (0 :: replicate n' 0) else cons c <$> strncpy_out t' n'
      end
  end.

(** strncmp: difference of the first bytes that differ, as unsigned chars. *)
Fixpoint strncmp (p q : list Z) (n : nat) {struct n} : option Z :=
  match n with
  | O => Some 0
  | S n' =>
      match p, q with
      | c :: p', d :: q' =>
          if negb (c =? 0) && (c =? d) then strncmp p' q' n' else Some (c - d)
      | _, _ => None
      end
  end.

(** memcmp *)
Fixpoint memcmp (v1 v2 : list Z) (n : nat) {struct n} : option Z :=
  match n with
  | O => Some 0
  | S n' =>
      match v1, v2 with
      | c :: v1', d :: v2' => if c =? d then memcmp v1' v2' n' else Some (c - d)
      | _, _ => None
      end
  end.

(** [cstr s]: the characters before the first NUL. *)
Fixpoint cstr (s : list Z) : list Z :=
  match s with
  | [] => []
  | c :: s' => if c =? 0 then [] else c :: cstr s'
  end.
Definition terminated (s : list Z) : Prop := 0 ∈ s.

Lemma terminated_cons c s : terminated (c :: s) → c ≠ 0 → terminated s.
Proof. unfold terminated. intros [?|?]%elem_of_cons ?; [lia|done]. Qed.
Lemma cstr_nonzero s c : c ∈ cstr s → c ≠ 0.
Proof.
  induction s as [|d s IH]; simpl; [by intros ?%elem_of_nil|].
  destruct (Z.eqb_spec d 0); [by intros ?%elem_of_nil|]. intros [->|?]%elem_of_cons; auto.
Qed.

(** strlen is the length of the string before its NUL. *)
Lemma strlen_spec s : terminated s → strlen s = Some (Z.of_nat (length (cstr s))).
Proof.
  induction s as [|c s IH]; intros Ht; [by apply elem_of_nil in Ht|]. simpl.
  destruct (Z.eqb_spec c 0); [done|]. rewrite IH by (by eapply terminated_cons). simpl. f_equal. lia.
Qed.
Lemma strlen_unterminated s : ¬ terminated s → strlen s = None.
Proof.
  induction s as [|c s IH]; intros Ht; [done|]. simpl. unfold terminated in Ht.
  rewrite not_elem_of_cons in Ht. destruct Ht as [? ?].
  rewrite (proj2 (Z.eqb_neq c 0)) by lia. by rewrite IH.
Qed.

(** safestrcpy stores at most [n] bytes, the string cut to [n - 1] characters,
    and always a terminating NUL. *)
Lemma safestrcpy_out_spec t n :
  terminated t → (0 < n)%nat →
  ∃ w, safestrcpy_out t n = Some w ∧ (length w ≤ n)%nat ∧ terminated w ∧
       cstr w = take (n - 1) (cstr t).
Proof.
  revert n. induction t as [|c t IH]; intros n Ht Hn; [by apply elem_of_nil in Ht|].
  destruct n as [|[|n]]; [lia| |].
  - exists [0]. repeat split; [simpl; lia|by apply list_elem_of_singleton].
  - change (safestrcpy_out (c :: t) (S (S n))) with
      (if c =? 0 then Some [0; 0] else cons c <$> safestrcpy_out t (S n)).
    cbn [cstr]. destruct (Z.eqb_spec c 0) as [->|Hc].
    + exists [0; 0]. repeat split; [simpl; lia|]. apply elem_of_cons. by left.
    + destruct (IH (S n)) as (w & Hw & Hlen & Htw & Hcw); [by eapply terminated_cons|lia|].
      exists (c :: w). rewrite Hw. repeat split.
      * simpl. lia.
      * apply elem_of_cons. by right.
      * simpl. rewrite (proj2 (Z.eqb_neq c 0) Hc), Hcw. simpl. by rewrite Nat.sub_0_r.
Qed.

Lemma cstr_word w s : Forall (λ c, c ≠ 0) w → cstr (w ++ 0 :: s) = w.
Proof.
  induction w as [|c w IH]; intros Hw; [done|]. apply Forall_cons in Hw as [Hc Hw]. simpl.
  rewrite (proj2 (Z.eqb_neq c 0) Hc). by rewrite IH.
Qed.
Lemma cstr_app_terminated w s : terminated w → cstr (w ++ s) = cstr w.
Proof.
  induction w as [|c w IH]; intros Ht; [by apply elem_of_nil in Ht|]. simpl.
  destruct (Z.eqb_spec c 0); [done|]. rewrite IH; [done|by eapply terminated_cons].
Qed.

Lemma safestrcpy_spec s t n :
  terminated t → 0 < n ≤ Z.of_nat (length s) →
  ∃ s', safestrcpy s t n = Some s' ∧ length s' = length s ∧ terminated s' ∧
        cstr s' = take (Z.to_nat n - 1) (cstr t) ∧ drop (Z.to_nat n) s' = drop (Z.to_nat n) s.
Proof.
  intros Ht Hn. unfold safestrcpy. rewrite (proj2 (Z.leb_gt n 0)) by lia.
  destruct (safestrcpy_out_spec t (Z.to_nat n) Ht) as (w & Hw & Hlen & Htw & Hcw); [lia|].
  rewrite Hw. simpl. eexists. split; [done|]. split; [|split; [|split]].
  - rewrite length_app, length_drop. lia.
  - apply elem_of_app. by left.
  - by rewrite cstr_app_terminated.
  - rewrite drop_app, (drop_ge w) by lia. rewrite drop_drop. simpl. f_equal. lia.
Qed.

(** strncpy always stores exactly [n] bytes: the string, cut or padded. *)
Lemma strncpy_out_spec t n :
  terminated t →
  strncpy_out t n = Some (take n (cstr t ++ replicate n 0)).
Proof.
  revert n. induction t as [|c t IH]; intros n Ht; [by apply elem_of_nil in Ht|].
  destruct n as [|n]; [done|]. cbn [strncpy_out cstr]. destruct (Z.eqb_spec c 0) as [->|Hc].
  - simpl. by rewrite take_ge by (rewrite length_replicate; lia).
  - rewrite IH by (by eapply terminated_cons). simpl. f_equal. f_equal.
    change (0 :: replicate n 0) with (replicate (S n) 0).
    rewrite <- (Nat.add_1_r n), replicate_add, app_assoc.
    rewrite (take_app_le (cstr t ++ replicate n 0)); [done|]. rewrite length_app, length_replicate. lia.
Qed.

(** strncmp is 0 exactly when the strings agree on their first [n] characters. *)
Lemma strncmp_zero p q n :
  terminated p → terminated q → Forall (λ c, 0 ≤ c < 256) p → Forall (λ c, 0 ≤ c < 256) q →
  strncmp p q n = Some 0 ↔ take n (cstr p) = take n (cstr q).
Proof.
  revert q n. induction p as [|c p IH]; intros q n Hp Hq Fp Fq; [by apply elem_of_nil in Hp|].
  destruct q as [|d q]; [by apply elem_of_nil in Hq|].
  destruct n as [|n]; [done|]. apply Forall_cons in Fp as [? Fp]. apply Forall_cons in Fq as [? Fq].
  simpl. destruct (Z.eqb_spec c 0) as [->|Hc]; simpl.
  - destruct (Z.eqb_spec d 0) as [->|Hd]; [done|]. split; [intros [= ?]; lia|done].
  - destruct (Z.eqb_spec c d) as [->|Hcd].
    + rewrite (proj2 (Z.eqb_neq d 0) Hc). simpl. rewrite IH; eauto using terminated_cons.
      split; [by intros ->|by intros [= ?]].
    + split; [intros [= ?]; lia|]. destruct (Z.eqb_spec d 0); [done|]. by intros [= ? _].
Qed.

(** memcmp is 0 exactly when the two blocks are equal. *)
Lemma memcmp_zero v1 v2 n :
  (n ≤ length v1)%nat → (n ≤ length v2)%nat →
  memcmp v1 v2 n = Some 0 ↔ take n v1 = take n v2.
Proof.
  revert v1 v2. induction n as [|n IH]; intros v1 v2 H1 H2; [done|].
  destruct v1 as [|c v1], v2 as [|d v2]; simpl in *; [lia..|].
  destruct (Z.eqb_spec c d) as [->|Hcd].
  - rewrite IH by lia. split; [by intros ->|by intros [= ?]].
  - split; [intros [= ?]; lia|by intros [= ? _]].
Qed.

(** C34: safestrcpy(s, t, n), for a terminated [t] and a buffer of at least [n]
    bytes, writes at most [n] bytes, leaves a terminated string, and that string
    is [t] cut to its first [n - 1] characters. *)
Theorem safestrcpy_truncates s t n :
  terminated t → 0 < n ≤ Z.of_nat (length s) →
  ∃ s', safestrcpy s t n = Some s' ∧ length s' = length s ∧ terminated s' ∧
        cstr s' = take (Z.to_nat n - 1) (cstr t) ∧ drop (Z.to_nat n) s' = drop (Z.to_nat n) s.
Proof. apply safestrcpy_spec. Qed.
Lemma safestrcpy_truncates_witness :
  ∃ s', safestrcpy (replicate 6 1) [104; 101; 108; 108; 111; 0] 4 = Some s' ∧ cstr s' = [104; 101; 108].
Proof.
  destruct (safestrcpy_truncates (replicate 6 1) [104; 101; 108; 108; 111; 0] 4) as (s' & H1 & _ & _ & H2 & _).
  - repeat (apply elem_of_cons; first [by left|right]).
  - simpl. lia.
  - exists s'. split; [exact H1|exact H2].
Defined.
