(* ===== verification/Proc.v ===== *)
(** * Processes: data and operations (proc.h, proc.c)

    The process table, the three scheduling queues and the operations of proc.c.
    Pointers to processes are indices into [ptable.proc]; the code's
    one-past-the-end pointer is the index [NPROC], and following it is
    undefined.  Trap frames, contexts and the return address that allocproc
    lays out on a kernel stack are memory objects reached by their address.

    The services proc.c calls in the rest of the kernel (page allocator, page
    tables, open files, inodes, log) are the operations of the class [KEnv];
    they act on a state of their own and reach processes only through what
    proc.c passes them.

    A kernel thread leaves the CPU inside [sched()].  The functions that call it
    are split at that point: [*_begin] is the code up to the context switch,
    [*_end] the code after it. *)

From S2P Require Import Prelude Spinlock Queue CStr.
From Stdlib Require Import SpecFloat.

(** ** Data *)
Inductive procstate := UNUSED | EMBRYO | SLEEPING | RUNNABLE | RUNNING | ZOMBIE.
#[global] Instance procstate_eq_dec : EqDecision procstate.
Proof. solve_decision. Defined.
Inductive schedQ := DEF | RR | LCFS | BJF.
#[global] Instance schedQ_eq_dec : EqDecision schedQ.
Proof. solve_decision. Defined.

(** Sleep channels are addresses of kernel objects: null, a process, [ticks],
    or another object's address. *)
Inductive channel := CNull | CProc (p : nat) | CTicks | CAddr (a : Z).
#[global] Instance channel_eq_dec : EqDecision channel.
Proof. solve_decision. Defined.
Definition proc_chan (p : option nat) : channel := match p with Some i => CProc i | None => CNull end.

Definition KSTACKSIZE : Z := 4096.
Definition PGSIZE : Z := 4096.
Definition NOFILE : nat := 16.
Definition TIME_SLOT : Z := 5.
Definition AGING_BOUND : Z := 2000.
Definition BJF_UPPER_BOUND : Z := 500.
Definition SEG_UCODE : Z := 3.
Definition SEG_UDATA : Z := 4.
Definition DPL_USER : Z := 3.
Definition FL_IF : Z := 0x200.

(** [struct trapframe] (x86.h) and [struct context]. *)
Record trapframe := mkTf {
  tf_edi : Z;
  tf_esi : Z;
  tf_ebp : Z;
  tf_oesp : Z;
  tf_ebx : Z;
  tf_edx : Z;
  tf_ecx : Z;
  tf_eax : Z;
  tf_gs : Z;
  tf_fs : Z;
  tf_es : Z;
  tf_ds : Z;
  tf_trapno : Z;
  tf_err : Z;
  tf_eip : Z;
  tf_cs : Z;
  tf_eflags : Z;
  tf_esp : Z;
  tf_ss : Z }.
#[global] Instance set_tf_edi : Setter tf_edi := λ f r, mkTf (f (tf_edi r)) (tf_esi r) (tf_ebp
  r) (tf_oesp r) (tf_ebx r) (tf_edx r) (tf_ecx r) (tf_eax r) (tf_gs r) (tf_fs r) (tf_es r) (tf_ds
  r) (tf_trapno r) (tf_err r) (tf_eip r) (tf_cs r) (tf_eflags r) (tf_esp r) (tf_ss r).
#[global] Instance set_tf_esi : Setter tf_esi := λ f r, mkTf (tf_edi r) (f (tf_esi r)) (tf_ebp
  r) (tf_oesp r) (tf_ebx r) (tf_edx r) (tf_ecx r) (tf_eax r) (tf_gs r) (tf_fs r) (tf_es r) (tf_ds
  r) (tf_trapno r) (tf_err r) (tf_eip r) (tf_cs r) (tf_eflags r) (tf_esp r) (tf_ss r).
#[global] Instance set_tf_ebp : Setter tf_ebp := λ f r, mkTf (tf_edi r) (tf_esi r) (f (tf_ebp
  r)) (tf_oesp r) (tf_ebx r) (tf_edx r) (tf_ecx r) (tf_eax r) (tf_gs r) (tf_fs r) (tf_es r) (tf_ds
  r) (tf_trapno r) (tf_err r) (tf_eip r) (tf_cs r) (tf_eflags r) (tf_esp r) (tf_ss r).
#[global] Instance set_tf_oesp : Setter tf_oesp := λ f r, mkTf (tf_edi r) (tf_esi r) (tf_ebp r)
  (f (tf_oesp r)) (tf_ebx r) (tf_edx r) (tf_ecx r) (tf_eax r) (tf_gs r) (tf_fs r) (tf_es r) (tf_ds
  r) (tf_trapno r) (tf_err r) (tf_eip r) (tf_cs r) (tf_eflags r) (tf_esp r) (tf_ss r).
#[global] Instance set_tf_ebx : Setter tf_ebx := λ f r, mkTf (tf_edi r) (tf_esi r) (tf_ebp r)
  (tf_oesp r) (f (tf_ebx r)) (tf_edx r) (tf_ecx r) (tf_eax r) (tf_gs r) (tf_fs r) (tf_es r) (tf_ds
  r) (tf_trapno r) (tf_err r) (tf_eip r) (tf_cs r) (tf_eflags r) (tf_esp r) (tf_ss r).
#[global] Instance set_tf_edx : Setter tf_edx := λ f r, mkTf (tf_edi r) (tf_esi r) (tf_ebp r)
  (tf_oesp r) (tf_ebx r) (f (tf_edx r)) (tf_ecx r) (tf_eax r) (tf_gs r) (tf_fs r) (tf_es r) (tf_ds
  r) (tf_trapno r) (tf_err r) (tf_eip r) (tf_cs r) (tf_eflags r) (tf_esp r) (tf_ss r).
#[global] Instance set_tf_ecx : Setter tf_ecx := λ f r, mkTf (tf_edi r) (tf_esi r) (tf_ebp r)
  (tf_oesp r) (tf_ebx r) (tf_edx r) (f (tf_ecx r)) (tf_eax r) (tf_gs r) (tf_fs r) (tf_es r) (tf_ds
  r) (tf_trapno r) (tf_err r) (tf_eip r) (tf_cs r) (tf_eflags r) (tf_esp r) (tf_ss r).
#[global] Instance set_tf_eax : Setter tf_eax := λ f r, mkTf (tf_edi r) (tf_esi r) (tf_ebp r)
  (tf_oesp r) (tf_ebx r) (tf_edx r) (tf_ecx r) (f (tf_eax r)) (tf_gs r) (tf_fs r) (tf_es r) (tf_ds
  r) (tf_trapno r) (tf_err r) (tf_eip r) (tf_cs r) (tf_eflags r) (tf_esp r) (tf_ss r).
#[global] Instance set_tf_gs : Setter tf_gs := λ f r, mkTf (tf_edi r) (tf_esi r) (tf_ebp r)
  (tf_oesp r) (tf_ebx r) (tf_edx r) (tf_ecx r) (tf_eax r) (f (tf_gs r)) (tf_fs r) (tf_es r) (tf_ds
  r) (tf_trapno r) (tf_err r) (tf_eip r) (tf_cs r) (tf_eflags r) (tf_esp r) (tf_ss r).
#[global] Instance set_tf_fs : Setter tf_fs := λ f r, mkTf (tf_edi r) (tf_esi r) (tf_ebp r)
  (tf_oesp r) (tf_ebx r) (tf_edx r) (tf_ecx r) (tf_eax r) (tf_gs r) (f (tf_fs r)) (tf_es r) (tf_ds
  r) (tf_trapno r) (tf_err r) (tf_eip r) (tf_cs r) (tf_eflags r) (tf_esp r) (tf_ss r).
#[global] Instance set_tf_es : Setter tf_es := λ f r, mkTf (tf_edi r) (tf_esi r) (tf_ebp r)
  (tf_oesp r) (tf_ebx r) (tf_edx r) (tf_ecx r) (tf_eax r) (tf_gs r) (tf_fs r) (f (tf_es r)) (tf_ds
  r) (tf_trapno r) (tf_err r) (tf_eip r) (tf_cs r) (tf_eflags r) (tf_esp r) (tf_ss r).
#[global] Instance set_tf_ds : Setter tf_ds := λ f r, mkTf (tf_edi r) (tf_esi r) (tf_ebp r)
  (tf_oesp r) (tf_ebx r) (tf_edx r) (tf_ecx r) (tf_eax r) (tf_gs r) (tf_fs r) (tf_es r) (f (tf_ds
  r)) (tf_trapno r) (tf_err r) (tf_eip r) (tf_cs r) (tf_eflags r) (tf_esp r) (tf_ss r).
#[global] Instance set_tf_trapno : Setter tf_trapno := λ f r, mkTf (tf_edi r) (tf_esi r) (tf_ebp
  r) (tf_oesp r) (tf_ebx r) (tf_edx r) (tf_ecx r) (tf_eax r) (tf_gs r) (tf_fs r) (tf_es r) (tf_ds
  r) (f (tf_trapno r)) (tf_err r) (tf_eip r) (tf_cs r) (tf_eflags r) (tf_esp r) (tf_ss r).
#[global] Instance set_tf_err : Setter tf_err := λ f r, mkTf (tf_edi r) (tf_esi r) (tf_ebp r)
  (tf_oesp r) (tf_ebx r) (tf_edx r) (tf_ecx r) (tf_eax r) (tf_gs r) (tf_fs r) (tf_es r) (tf_ds r)
  (tf_trapno r) (f (tf_err r)) (tf_eip r) (tf_cs r) (tf_eflags r) (tf_esp r) (tf_ss r).
#[global] Instance set_tf_eip : Setter tf_eip := λ f r, mkTf (tf_edi r) (tf_esi r) (tf_ebp r)
  (tf_oesp r) (tf_ebx r) (tf_edx r) (tf_ecx r) (tf_eax r) (tf_gs r) (tf_fs r) (tf_es r) (tf_ds r)
  (tf_trapno r) (tf_err r) (f (tf_eip r)) (tf_cs r) (tf_eflags r) (tf_esp r) (tf_ss r).
#[global] Instance set_tf_cs : Setter tf_cs := λ f r, mkTf (tf_edi r) (tf_esi r) (tf_ebp r)
  (tf_oesp r) (tf_ebx r) (tf_edx r) (tf_ecx r) (tf_eax r) (tf_gs r) (tf_fs r) (tf_es r) (tf_ds r)
  (tf_trapno r) (tf_err r) (tf_eip r) (f (tf_cs r)) (tf_eflags r) (tf_esp r) (tf_ss r).
#[global] Instance set_tf_eflags : Setter tf_eflags := λ f r, mkTf (tf_edi r) (tf_esi r) (tf_ebp
  r) (tf_oesp r) (tf_ebx r) (tf_edx r) (tf_ecx r) (tf_eax r) (tf_gs r) (tf_fs r) (tf_es r) (tf_ds
  r) (tf_trapno r) (tf_err r) (tf_eip r) (tf_cs r) (f (tf_eflags r)) (tf_esp r) (tf_ss r).
#[global] Instance set_tf_esp : Setter tf_esp := λ f r, mkTf (tf_edi r) (tf_esi r) (tf_ebp r)
  (tf_oesp r) (tf_ebx r) (tf_edx r) (tf_ecx r) (tf_eax r) (tf_gs r) (tf_fs r) (tf_es r) (tf_ds r)
  (tf_trapno r) (tf_err r) (tf_eip r) (tf_cs r) (tf_eflags r) (f (tf_esp r)) (tf_ss r).
#[global] Instance set_tf_ss : Setter tf_ss := λ f r, mkTf (tf_edi r) (tf_esi r) (tf_ebp r)
  (tf_oesp r) (tf_ebx r) (tf_edx r) (tf_ecx r) (tf_eax r) (tf_gs r) (tf_fs r) (tf_es r) (tf_ds r)
  (tf_trapno r) (tf_err r) (tf_eip r) (tf_cs r) (tf_eflags r) (tf_esp r) (f (tf_ss r)).
Definition tf_zero : trapframe := mkTf 0 0 0 0 0 0 0 0 0 0 0 0 0 0 0 0 0 0 0.
Definition TFSIZE : Z := 76.
Record ctxt := mkCtxt { c_edi : Z; c_esi : Z; c_ebx : Z; c_ebp : Z; c_eip : Z }.
Definition CTXSIZE : Z := 20.

(** [struct proc] *)
Record proc := mkProc {
  sz : Z;
  pgdir : Z;
  kstack : Z;
  state : procstate;
  pid : Z;
  parent : option nat;
  tf : Z;
  context : Z;
  chan : channel;
  killed : Z;
  ofile : list (option nat);
  cwd : option nat;
  name : list Z;
  q_type : schedQ;
  priority : Z;
  priority_ratio : spec_float;
  executed_cycle : spec_float;
  executed_cycle_ratio : spec_float;
  arrivetime : Z;
  arrivetime_ratio : spec_float;
  size_ratio : spec_float;
  running_ticks : Z;
  waiting_time : Z;
  change_running_queue : Z }.
#[global] Instance set_sz : Setter sz := λ f r, mkProc (f (sz r)) (pgdir r) (kstack r) (state r)
  (pid r) (parent r) (tf r) (context r) (chan r) (killed r) (ofile r) (cwd r) (name r) (q_type r)
  (priority r) (priority_ratio r) (executed_cycle r) (executed_cycle_ratio r) (arrivetime r)
  (arrivetime_ratio r) (size_ratio r) (running_ticks r) (waiting_time r) (change_running_queue r).
#[global] Instance set_pgdir : Setter pgdir := λ f r, mkProc (sz r) (f (pgdir r)) (kstack r)
  (state r) (pid r) (parent r) (tf r) (context r) (chan r) (killed r) (ofile r) (cwd r) (name r)
  (q_type r) (priority r) (priority_ratio r) (executed_cycle r) (executed_cycle_ratio r)
  (arrivetime r) (arrivetime_ratio r) (size_ratio r) (running_ticks r) (waiting_time r)
  (change_running_queue r).
#[global] Instance set_kstack : Setter kstack := λ f r, mkProc (sz r) (pgdir r) (f (kstack r))
  (state r) (pid r) (parent r) (tf r) (context r) (chan r) (killed r) (ofile r) (cwd r) (name r)
  (q_type r) (priority r) (priority_ratio r) (executed_cycle r) (executed_cycle_ratio r)
  (arrivetime r) (arrivetime_ratio r) (size_ratio r) (running_ticks r) (waiting_time r)
  (change_running_queue r).
#[global] Instance set_state : Setter state := λ f r, mkProc (sz r) (pgdir r) (kstack r) (f
  (state r)) (pid r) (parent r) (tf r) (context r) (chan r) (killed r) (ofile r) (cwd r) (name r)
  (q_type r) (priority r) (priority_ratio r) (executed_cycle r) (executed_cycle_ratio r)
  (arrivetime r) (arrivetime_ratio r) (size_ratio r) (running_ticks r) (waiting_time r)
  (change_running_queue r).
#[global] Instance set_pid : Setter pid := λ f r, mkProc (sz r) (pgdir r) (kstack r) (state r)
  (f (pid r)) (parent r) (tf r) (context r) (chan r) (killed r) (ofile r) (cwd r) (name r) (q_type
  r) (priority r) (priority_ratio r) (executed_cycle r) (executed_cycle_ratio r) (arrivetime r)
  (arrivetime_ratio r) (size_ratio r) (running_ticks r) (waiting_time r) (change_running_queue r).
#[global] Instance set_parent : Setter parent := λ f r, mkProc (sz r) (pgdir r) (kstack r)
  (state r) (pid r) (f (parent r)) (tf r) (context r) (chan r) (killed r) (ofile r) (cwd r) (name
  r) (q_type r) (priority r) (priority_ratio r) (executed_cycle r) (executed_cycle_ratio r)
  (arrivetime r) (arrivetime_ratio r) (size_ratio r) (running_ticks r) (waiting_time r)
  (change_running_queue r).
#[global] Instance set_tf : Setter tf := λ f r, mkProc (sz r) (pgdir r) (kstack r) (state r)
  (pid r) (parent r) (f (tf r)) (context r) (chan r) (killed r) (ofile r) (cwd r) (name r) (q_type
  r) (priority r) (priority_ratio r) (executed_cycle r) (executed_cycle_ratio r) (arrivetime r)
  (arrivetime_ratio r) (size_ratio r) (running_ticks r) (waiting_time r) (change_running_queue r).
#[global] Instance set_context : Setter context := λ f r, mkProc (sz r) (pgdir r) (kstack r)
  (state r) (pid r) (parent r) (tf r) (f (context r)) (chan r) (killed r) (ofile r) (cwd r) (name
  r) (q_type r) (priority r) (priority_ratio r) (executed_cycle r) (executed_cycle_ratio r)
  (arrivetime r) (arrivetime_ratio r) (size_ratio r) (running_ticks r) (waiting_time r)
  (change_running_queue r).
#[global] Instance set_chan : Setter chan := λ f r, mkProc (sz r) (pgdir r) (kstack r) (state r)
  (pid r) (parent r) (tf r) (context r) (f (chan r)) (killed r) (ofile r) (cwd r) (name r) (q_type
  r) (priority r) (priority_ratio r) (executed_cycle r) (executed_cycle_ratio r) (arrivetime r)
  (arrivetime_ratio r) (size_ratio r) (running_ticks r) (waiting_time r) (change_running_queue r).
#[global] Instance set_killed : Setter killed := λ f r, mkProc (sz r) (pgdir r) (kstack r)
  (state r) (pid r) (parent r) (tf r) (context r) (chan r) (f (killed r)) (ofile r) (cwd r) (name
  r) (q_type r) (priority r) (priority_ratio r) (executed_cycle r) (executed_cycle_ratio r)
  (arrivetime r) (arrivetime_ratio r) (size_ratio r) (running_ticks r) (waiting_time r)
  (change_running_queue r).
#[global] Instance set_ofile : Setter ofile := λ f r, mkProc (sz r) (pgdir r) (kstack r) (state
  r) (pid r) (parent r) (tf r) (context r) (chan r) (killed r) (f (ofile r)) (cwd r) (name r)
  (q_type r) (priority r) (priority_ratio r) (executed_cycle r) (executed_cycle_ratio r)
  (arrivetime r) (arrivetime_ratio r) (size_ratio r) (running_ticks r) (waiting_time r)
  (change_running_queue r).
#[global] Instance set_cwd : Setter cwd := λ f r, mkProc (sz r) (pgdir r) (kstack r) (state r)
  (pid r) (parent r) (tf r) (context r) (chan r) (killed r) (ofile r) (f (cwd r)) (name r) (q_type
  r) (priority r) (priority_ratio r) (executed_cycle r) (executed_cycle_ratio r) (arrivetime r)
  (arrivetime_ratio r) (size_ratio r) (running_ticks r) (waiting_time r) (change_running_queue r).
#[global] Instance set_name : Setter name := λ f r, mkProc (sz r) (pgdir r) (kstack r) (state r)
  (pid r) (parent r) (tf r) (context r) (chan r) (killed r) (ofile r) (cwd r) (f (name r)) (q_type
  r) (priority r) (priority_ratio r) (executed_cycle r) (executed_cycle_ratio r) (arrivetime r)
  (arrivetime_ratio r) (size_ratio r) (running_ticks r) (waiting_time r) (change_running_queue r).
#[global] Instance set_q_type : Setter q_type := λ f r, mkProc (sz r) (pgdir r) (kstack r)
  (state r) (pid r) (parent r) (tf r) (context r) (chan r) (killed r) (ofile r) (cwd r) (name r)
  (f (q_type r)) (priority r) (priority_ratio r) (executed_cycle r) (executed_cycle_ratio r)
  (arrivetime r) (arrivetime_ratio r) (size_ratio r) (running_ticks r) (waiting_time r)
  (change_running_queue r).
#[global] Instance set_priority : Setter priority := λ f r, mkProc (sz r) (pgdir r) (kstack r)
  (state r) (pid r) (parent r) (tf r) (context r) (chan r) (killed r) (ofile r) (cwd r) (name r)
  (q_type r) (f (priority r)) (priority_ratio r) (executed_cycle r) (executed_cycle_ratio r)
  (arrivetime r) (arrivetime_ratio r) (size_ratio r) (running_ticks r) (waiting_time r)
  (change_running_queue r).
#[global] Instance set_priority_ratio : Setter priority_ratio := λ f r, mkProc (sz r) (pgdir r)
  (kstack r) (state r) (pid r) (parent r) (tf r) (context r) (chan r) (killed r) (ofile r) (cwd r)
  (name r) (q_type r) (priority r) (f (priority_ratio r)) (executed_cycle r) (executed_cycle_ratio
  r) (arrivetime r) (arrivetime_ratio r) (size_ratio r) (running_ticks r) (waiting_time r)
  (change_running_queue r).
#[global] Instance set_executed_cycle : Setter executed_cycle := λ f r, mkProc (sz r) (pgdir r)
  (kstack r) (state r) (pid r) (parent r) (tf r) (context r) (chan r) (killed r) (ofile r) (cwd r)
  (name r) (q_type r) (priority r) (priority_ratio r) (f (executed_cycle r)) (executed_cycle_ratio
  r) (arrivetime r) (arrivetime_ratio r) (size_ratio r) (running_ticks r) (waiting_time r)
  (change_running_queue r).
#[global] Instance set_executed_cycle_ratio : Setter executed_cycle_ratio := λ f r, mkProc (sz
  r) (pgdir r) (kstack r) (state r) (pid r) (parent r) (tf r) (context r) (chan r) (killed r)
  (ofile r) (cwd r) (name r) (q_type r) (priority r) (priority_ratio r) (executed_cycle r) (f
  (executed_cycle_ratio r)) (arrivetime r) (arrivetime_ratio r) (size_ratio r) (running_ticks r)
  (waiting_time r) (change_running_queue r).
#[global] Instance set_arrivetime : Setter arrivetime := λ f r, mkProc (sz r) (pgdir r) (kstack
  r) (state r) (pid r) (parent r) (tf r) (context r) (chan r) (killed r) (ofile r) (cwd r) (name
  r) (q_type r) (priority r) (priority_ratio r) (executed_cycle r) (executed_cycle_ratio r) (f
  (arrivetime r)) (arrivetime_ratio r) (size_ratio r) (running_ticks r) (waiting_time r)
  (change_running_queue r).
#[global] Instance set_arrivetime_ratio : Setter arrivetime_ratio := λ f r, mkProc (sz r) (pgdir
  r) (kstack r) (state r) (pid r) (parent r) (tf r) (context r) (chan r) (killed r) (ofile r) (cwd
  r) (name r) (q_type r) (priority r) (priority_ratio r) (executed_cycle r) (executed_cycle_ratio
  r) (arrivetime r) (f (arrivetime_ratio r)) (size_ratio r) (running_ticks r) (waiting_time r)
  (change_running_queue r).
#[global] Instance set_size_ratio : Setter size_ratio := λ f r, mkProc (sz r) (pgdir r) (kstack
  r) (state r) (pid r) (parent r) (tf r) (context r) (chan r) (killed r) (ofile r) (cwd r) (name
  r) (q_type r) (priority r) (priority_ratio r) (executed_cycle r) (executed_cycle_ratio r)
  (arrivetime r) (arrivetime_ratio r) (f (size_ratio r)) (running_ticks r) (waiting_time r)
  (change_running_queue r).
#[global] Instance set_running_ticks : Setter running_ticks := λ f r, mkProc (sz r) (pgdir r)
  (kstack r) (state r) (pid r) (parent r) (tf r) (context r) (chan r) (killed r) (ofile r) (cwd r)
  (name r) (q_type r) (priority r) (priority_ratio r) (executed_cycle r) (executed_cycle_ratio r)
  (arrivetime r) (arrivetime_ratio r) (size_ratio r) (f (running_ticks r)) (waiting_time r)
  (change_running_queue r).
#[global] Instance set_waiting_time : Setter waiting_time := λ f r, mkProc (sz r) (pgdir r)
  (kstack r) (state r) (pid r) (parent r) (tf r) (context r) (chan r) (killed r) (ofile r) (cwd r)
  (name r) (q_type r) (priority r) (priority_ratio r) (executed_cycle r) (executed_cycle_ratio r)
  (arrivetime r) (arrivetime_ratio r) (size_ratio r) (running_ticks r) (f (waiting_time r))
  (change_running_queue r).
#[global] Instance set_change_running_queue : Setter change_running_queue := λ f r, mkProc (sz
  r) (pgdir r) (kstack r) (state r) (pid r) (parent r) (tf r) (context r) (chan r) (killed r)
  (ofile r) (cwd r) (name r) (q_type r) (priority r) (priority_ratio r) (executed_cycle r)
  (executed_cycle_ratio r) (arrivetime r) (arrivetime_ratio r) (size_ratio r) (running_ticks r)
  (waiting_time r) (f (change_running_queue r)).

(** The globals of proc.c (and [ticks] of trap.c). *)
Record core := mkCore {
  procs : list proc;
  rr_q : queue;
  lcfs_q : queue;
  bjf_q : queue;
  rr_counter : Z;
  nextpid : Z;
  initproc : option nat;
  ticks : Z;
  g_priority_ratio : Z;
  g_arrivetime_ratio : Z;
  g_executed_cycle_ratio : Z;
  g_size_ratio : Z;
  tframes : gmap Z trapframe;
  contexts : gmap Z ctxt;
  kwords : gmap Z Z;
  forkret_first : bool }.
#[global] Instance set_procs : Setter procs := λ f r, mkCore (f (procs r)) (rr_q r) (lcfs_q r)
  (bjf_q r) (rr_counter r) (nextpid r) (initproc r) (ticks r) (g_priority_ratio r)
  (g_arrivetime_ratio r) (g_executed_cycle_ratio r) (g_size_ratio r) (tframes r) (contexts r)
  (kwords r) (forkret_first r).
#[global] Instance set_rr_q : Setter rr_q := λ f r, mkCore (procs r) (f (rr_q r)) (lcfs_q r)
  (bjf_q r) (rr_counter r) (nextpid r) (initproc r) (ticks r) (g_priority_ratio r)
  (g_arrivetime_ratio r) (g_executed_cycle_ratio r) (g_size_ratio r) (tframes r) (contexts r)
  (kwords r) (forkret_first r).
#[global] Instance set_lcfs_q : Setter lcfs_q := λ f r, mkCore (procs r) (rr_q r) (f (lcfs_q r))
  (bjf_q r) (rr_counter r) (nextpid r) (initproc r) (ticks r) (g_priority_ratio r)
  (g_arrivetime_ratio r) (g_executed_cycle_ratio r) (g_size_ratio r) (tframes r) (contexts r)
  (kwords r) (forkret_first r).
#[global] Instance set_bjf_q : Setter bjf_q := λ f r, mkCore (procs r) (rr_q r) (lcfs_q r) (f
  (bjf_q r)) (rr_counter r) (nextpid r) (initproc r) (ticks r) (g_priority_ratio r)
  (g_arrivetime_ratio r) (g_executed_cycle_ratio r) (g_size_ratio r) (tframes r) (contexts r)
  (kwords r) (forkret_first r).
#[global] Instance set_rr_counter : Setter rr_counter := λ f r, mkCore (procs r) (rr_q r)
  (lcfs_q r) (bjf_q r) (f (rr_counter r)) (nextpid r) (initproc r) (ticks r) (g_priority_ratio r)
  (g_arrivetime_ratio r) (g_executed_cycle_ratio r) (g_size_ratio r) (tframes r) (contexts r)
  (kwords r) (forkret_first r).
#[global] Instance set_nextpid : Setter nextpid := λ f r, mkCore (procs r) (rr_q r) (lcfs_q r)
  (bjf_q r) (rr_counter r) (f (nextpid r)) (initproc r) (ticks r) (g_priority_ratio r)
  (g_arrivetime_ratio r) (g_executed_cycle_ratio r) (g_size_ratio r) (tframes r) (contexts r)
  (kwords r) (forkret_first r).
#[global] Instance set_initproc : Setter initproc := λ f r, mkCore (procs r) (rr_q r) (lcfs_q r)
  (bjf_q r) (rr_counter r) (nextpid r) (f (initproc r)) (ticks r) (g_priority_ratio r)
  (g_arrivetime_ratio r) (g_executed_cycle_ratio r) (g_size_ratio r) (tframes r) (contexts r)
  (kwords r) (forkret_first r).
#[global] Instance set_ticks : Setter ticks := λ f r, mkCore (procs r) (rr_q r) (lcfs_q r)
  (bjf_q r) (rr_counter r) (nextpid r) (initproc r) (f (ticks r)) (g_priority_ratio r)
  (g_arrivetime_ratio r) (g_executed_cycle_ratio r) (g_size_ratio r) (tframes r) (contexts r)
  (kwords r) (forkret_first r).
#[global] Instance set_g_priority_ratio : Setter g_priority_ratio := λ f r, mkCore (procs r)
  (rr_q r) (lcfs_q r) (bjf_q r) (rr_counter r) (nextpid r) (initproc r) (ticks r) (f
  (g_priority_ratio r)) (g_arrivetime_ratio r) (g_executed_cycle_ratio r) (g_size_ratio r)
  (tframes r) (contexts r) (kwords r) (forkret_first r).
#[global] Instance set_g_arrivetime_ratio : Setter g_arrivetime_ratio := λ f r, mkCore (procs r)
  (rr_q r) (lcfs_q r) (bjf_q r) (rr_counter r) (nextpid r) (initproc r) (ticks r)
  (g_priority_ratio r) (f (g_arrivetime_ratio r)) (g_executed_cycle_ratio r) (g_size_ratio r)
  (tframes r) (contexts r) (kwords r) (forkret_first r).
#[global] Instance set_g_executed_cycle_ratio : Setter g_executed_cycle_ratio := λ f r, mkCore
  (procs r) (rr_q r) (lcfs_q r) (bjf_q r) (rr_counter r) (nextpid r) (initproc r) (ticks r)
  (g_priority_ratio r) (g_arrivetime_ratio r) (f (g_executed_cycle_ratio r)) (g_size_ratio r)
  (tframes r) (contexts r) (kwords r) (forkret_first r).
#[global] Instance set_g_size_ratio : Setter g_size_ratio := λ f r, mkCore (procs r) (rr_q r)
  (lcfs_q r) (bjf_q r) (rr_counter r) (nextpid r) (initproc r) (ticks r) (g_priority_ratio r)
  (g_arrivetime_ratio r) (g_executed_cycle_ratio r) (f (g_size_ratio r)) (tframes r) (contexts r)
  (kwords r) (forkret_first r).
#[global] Instance set_tframes : Setter tframes := λ f r, mkCore (procs r) (rr_q r) (lcfs_q r)
  (bjf_q r) (rr_counter r) (nextpid r) (initproc r) (ticks r) (g_priority_ratio r)
  (g_arrivetime_ratio r) (g_executed_cycle_ratio r) (g_size_ratio r) (f (tframes r)) (contexts r)
  (kwords r) (forkret_first r).
#[global] Instance set_contexts : Setter contexts := λ f r, mkCore (procs r) (rr_q r) (lcfs_q r)
  (bjf_q r) (rr_counter r) (nextpid r) (initproc r) (ticks r) (g_priority_ratio r)
  (g_arrivetime_ratio r) (g_executed_cycle_ratio r) (g_size_ratio r) (tframes r) (f (contexts r))
  (kwords r) (forkret_first r).
#[global] Instance set_kwords : Setter kwords := λ f r, mkCore (procs r) (rr_q r) (lcfs_q r)
  (bjf_q r) (rr_counter r) (nextpid r) (initproc r) (ticks r) (g_priority_ratio r)
  (g_arrivetime_ratio r) (g_executed_cycle_ratio r) (g_size_ratio r) (tframes r) (contexts r) (f
  (kwords r)) (forkret_first r).
#[global] Instance set_forkret_first : Setter forkret_first := λ f r, mkCore (procs r) (rr_q r)
  (lcfs_q r) (bjf_q r) (rr_counter r) (nextpid r) (initproc r) (ticks r) (g_priority_ratio r)
  (g_arrivetime_ratio r) (g_executed_cycle_ratio r) (g_size_ratio r) (tframes r) (contexts r)
  (kwords r) (f (forkret_first r)).

(** ** The rest of the kernel, as proc.c calls it

    A pointer result 0 is a failure. *)
Class KEnv (E : Type) := {
  e_kalloc : M E Z;
  e_kfree : Z → M E unit;
  e_setupkvm : M E Z;
  e_inituvm : Z → M E unit;
  e_copyuvm : Z → Z → M E Z;
  e_freevm : Z → M E unit;
  e_allocuvm : Z → Z → Z → M E Z;
  e_deallocuvm : Z → Z → Z → M E Z;
  e_switchuvm : Z → Z → M E unit;
  e_switchkvm : M E unit;
  e_namei : string → M E (option nat);
  e_filedup : nat → M E nat;
  e_fileclose : nat → M E unit;
  e_idup : option nat → M E (option nat);
  e_iput : option nat → M E unit;
  e_begin_op : M E unit;
  e_end_op : M E unit;
  e_iinit : M E unit;
  e_initlog : M E unit;
  e_lock : nat → lens E spinlock;
  forkret_addr : Z;
  trapret_addr : Z }.

(** The kernel as seen by the code on one CPU.  [k_intena] is, per process, the
    local [intena] of the sched() call it is switched out in. *)
Record kern (E : Type) := mkKern {
  k_mach : mach;
  k_ptable_lock : spinlock;
  k_tickslock : spinlock;
  k_core : core;
  k_intena : list bool;
  k_ext : E }.
Arguments mkKern {E} _ _ _ _ _ _.
Arguments k_mach {E} _.
Arguments k_ptable_lock {E} _.
Arguments k_tickslock {E} _.
Arguments k_core {E} _.
Arguments k_intena {E} _.
Arguments k_ext {E} _.

Inductive lkref := PtableLock | TicksLock | ExtLock (n : nat).
#[global] Instance lkref_eq_dec : EqDecision lkref.
Proof. solve_decision. Defined.

(** ** Pure helpers *)

(** randGen *)
Definition randGen (ticks seed : Z) : Z :=
  let cticks := ticks in
  let seed := u32 (seed + cticks) in
  let seed := u32 (Z.shiftl seed 5) in
  let seed := seed / 13 in
  let seed := u32 (Z.shiftl seed 1) in
  let seed := u32 (seed * 17) in
  let seed := Z.shiftr seed 2 in
  let seed := u32 (seed - cticks / 3) in
  seed / 3.

(** Floating point as the kernel is compiled (x87): a [float] in memory is an
    IEEE binary32 number, arithmetic is in the 64-bit-precision extended
    format, and the conversion to [int] truncates, giving 0x80000000 when the
    value does not fit. *)
Definition float_quarter : spec_float := S754_finite false 8388608 (-25).
Definition float_zero : spec_float := S754_zero false.
Definition float_of_int (z : Z) : spec_float := binary_normalize 24 128 z 0 false.
Definition ext_of_int (z : Z) : spec_float := binary_normalize 64 16384 z 0 false.
Definition ext_mul : spec_float → spec_float → spec_float := SFmul 64 16384.
Definition ext_add : spec_float → spec_float → spec_float := SFadd 64 16384.
Definition ext_trunc (f : spec_float) : Z :=
  let v := match f with
           | S754_finite s m e =>
               let a := if 0 <=? e then Z.shiftl (Zpos m) e else Z.shiftr (Zpos m) (- e) in
               Some (if s then - a else a)
           | S754_zero _ => Some 0
           | _ => None
           end in
  match v with
  | Some z => if bool_decide (- 2 ^ 31 ≤ z < 2 ^ 31) then z else - 2 ^ 31
  | None => - 2 ^ 31
  end.

(** calculate_rank *)
Definition calculate_rank (p : proc) : Z :=
  ext_trunc
    (ext_add (ext_add (ext_mul (ext_of_int (priority p)) (priority_ratio p))
                      (ext_mul (ext_of_int (arrivetime p)) (arrivetime_ratio p)))
             (ext_mul (executed_cycle p) (executed_cycle_ratio p))).

(** ** Code that touches only the globals of proc.c

    Following a pointer into ptable.proc, reading and writing. *)
Definition get_proc (p : nat) : M core proc :=
  c ← get; array_get "ptable.proc" (procs c) (Z.of_nat p).
Definition upd_proc (p : nat) (f : proc → proc) : M core unit :=
  c ← get;
  if in_bounds (procs c) (Z.of_nat p) then modify (λ c, c <| procs := alter f p (procs c) |>)
  else undef "ptable.proc".
Definition pid_of (ps : list proc) (i : nat) : Z := match ps !! i with Some p => pid p | None => 0 end.
Definition all_procs : list nat := seq 0 (Z.to_nat NPROC).

Definition L_rr_q : lens core queue := Lens rr_q (λ q c, c <| rr_q := q |>).
Definition L_lcfs_q : lens core queue := Lens lcfs_q (λ q c, c <| lcfs_q := q |>).
Definition L_bjf_q : lens core queue := Lens bjf_q (λ q c, c <| bjf_q := q |>).

(** The append to the queue of kind [t]; a [DEF] process is in none. *)
Definition enqueue_q (t : schedQ) (p : nat) : M core unit :=
  match t with
  | RR => zoom L_rr_q (enqueue p)
  | LCFS => zoom L_lcfs_q (enqueue p)
  | BJF => zoom L_bjf_q (enqueue p)
  | DEF => mret tt
  end.

(** The loops of shiftOutQueue(q, p) for the queue of kind [t]. *)
Definition shift_q (t : schedQ) (p : nat) : M core unit :=
  c ← get;
  let target := pid_of (procs c) p in
  match t with
  | RR => zoom L_rr_q (shift_out (pid_of (procs c)) target)
  | LCFS => zoom L_lcfs_q (shift_out (pid_of (procs c)) target)
  | BJF => zoom L_bjf_q (shift_out (pid_of (procs c)) target)
  | DEF => mret tt
  end.
(** [q.pi--;] *)
Definition dec_q (t : schedQ) : M core unit :=
  match t with
  | RR => zoom L_rr_q q_dec
  | LCFS => zoom L_lcfs_q q_dec
  | BJF => zoom L_bjf_q q_dec
  | DEF => mret tt
  end.

(** wakeup1 *)
Definition wakeup1_one (ch : channel) (p : nat) : M core unit :=
  x ← get_proc p;
  if bool_decide (state x = SLEEPING) && bool_decide (chan x = ch) then
    enqueue_q (q_type x) p ;;
    upd_proc p (λ y, y <| state := RUNNABLE |>)
  else mret tt.
Definition wakeup1 (ch : channel) : M core unit := for_each all_procs (wakeup1_one ch).

(** exit's loop that passes abandoned children to init. *)
Definition exit_reparent_one (cp : nat) (ini : option nat) (p : nat) : M core unit :=
  x ← get_proc p;
  if bool_decide (parent x = Some cp) then
    upd_proc p (λ y, y <| parent := ini |>) ;;
    y ← get_proc p;
    when (bool_decide (state y = ZOMBIE)) (wakeup1 (proc_chan ini))
  else mret tt.
Definition exit_reparent (cp : nat) (ini : option nat) : M core unit :=
  for_each all_procs (exit_reparent_one cp ini).

(** The round-robin queue: the process [rr_counter] points at, or, when it runs
    on another CPU, the next runnable one in cyclic order.  Index arithmetic is
    in [uint]. *)
Fixpoint rr_scan (q : queue) (i : Z) (n : nat) : M core (option nat) :=
  match n with
  | O => mret None
  | S n' =>
      cnt ← gets rr_counter;
      e ← array_get "rr_q.proc" (q_proc q) (u32 (cnt + i + 1) mod (q_pi q + 1));
      match e with
      | None => undef "null->state"
      | Some p =>
          x ← get_proc p;
          if bool_decide (state x = RUNNABLE) then mret (Some p) else rr_scan q (i + 1) n'
      end
  end.
Definition choose_rr (q : queue) : M core (option nat) :=
  cnt ← gets rr_counter;
  e ← array_get "rr_q.proc" (q_proc q) (cnt mod (q_pi q + 1));
  match e with
  | None => undef "null->state"
  | Some p =>
      x ← get_proc p;
      match state x with
      | RUNNABLE => mret (Some p)
      | RUNNING => rr_scan q 0 (Z.to_nat (q_pi q))
      | _ => panic "No runnable process"
      end
  end.

(** The last-come-first-served queue: the last entry, or, when it runs on
    another CPU, the last runnable one before it. *)
Fixpoint lcfs_scan (q : queue) (i : nat) : M core (option nat) :=
  match i with
  | O => mret None
  | S i' =>
      e ← array_get "lcfs_q.proc" (q_proc q) (Z.of_nat i');
      match e with
      | None => undef "null->state"
      | Some p =>
          x ← get_proc p;
          if bool_decide (state x = RUNNABLE) then mret (Some p) else lcfs_scan q i'
      end
  end.
Definition choose_lcfs (q : queue) : M core (option nat) :=
  e ← array_get "lcfs_q.proc" (q_proc q) (q_pi q);
  match e with
  | None => undef "null->state"
  | Some p =>
      x ← get_proc p;
      match state x with
      | RUNNABLE => mret (Some p)
      | RUNNING => lcfs_scan q (Z.to_nat (q_pi q))
      | _ => panic "No runnable process"
      end
  end.

(** The best-job-first queue: the loop over its first [pi] entries.  [acc] holds
    the variables that the branch shares with the code after it: found_runnable,
    [p] ([None] while it is not assigned) and worst_rank. *)
Definition worst_rank_init : spec_float := float_of_int 999999999.
Fixpoint bjf_scan (q : queue) (i : Z) (n : nat) (acc : bool * option nat * spec_float) :
    M core (bool * option nat * spec_float) :=
  match n with
  | O => mret acc
  | S n' =>
      e ← array_get "bjf_q.proc" (q_proc q) i;
      match e with
      | None => undef "null->state"
      | Some p =>
          x ← get_proc p;
          if negb (bool_decide (state x = RUNNABLE)) then bjf_scan q (i + 1) n' acc
          else
          let rank := float_of_int (calculate_rank x) in
          let '(found_runnable, _, worst_rank) := acc in
          bjf_scan q (i + 1) n' (if SFltb rank worst_rank then (found_runnable, Some p, rank) else acc)
      end
  end.
(** [found_runnable] starts as 0; what comes after the branch runs [p] if it is set. *)
Definition choose_bjf (q : queue) : M core (option nat) :=
  r ← bjf_scan q 0 (Z.to_nat (q_pi q)) (false, None, worst_rank_init);
  let '(found_runnable, p, _) := r in
  mret (if (found_runnable : bool) then p else None).

(** The search loops of change_queue and change_local_bjf: the pointer they
    leave in [p], one past the end when no process has the pid. *)
Definition find_pid (pd : Z) : M core nat :=
  ps ← gets procs;
  mret (match find_index (λ p, pid p =? pd) ps with Some p => p | None => Z.to_nat NPROC end).

Definition set_ratios (pr ar er sr : Z) (y : proc) : proc :=
  y <| priority_ratio := float_of_int pr |> <| arrivetime_ratio := float_of_int ar |>
    <| executed_cycle_ratio := float_of_int er |> <| size_ratio := float_of_int sr |>.


Section code.
Context {E : Type} `{KEnv E}.
Abbreviation K := (kern E).

Definition L_mach : lens K mach :=
  Lens k_mach (λ m s, mkKern m (k_ptable_lock s) (k_tickslock s) (k_core s) (k_intena s) (k_ext s)).
Definition L_ptable_lock : lens K spinlock :=
  Lens k_ptable_lock (λ l s, mkKern (k_mach s) l (k_tickslock s) (k_core s) (k_intena s) (k_ext s)).
Definition L_tickslock : lens K spinlock :=
  Lens k_tickslock (λ l s, mkKern (k_mach s) (k_ptable_lock s) l (k_core s) (k_intena s) (k_ext s)).
Definition L_core : lens K core :=
  Lens k_core (λ c s, mkKern (k_mach s) (k_ptable_lock s) (k_tickslock s) c (k_intena s) (k_ext s)).
Definition L_intena : lens K (list bool) :=
  Lens k_intena (λ c s, mkKern (k_mach s) (k_ptable_lock s) (k_tickslock s) (k_core s) c (k_ext s)).
Definition L_ext : lens K E :=
  Lens k_ext (λ e s, mkKern (k_mach s) (k_ptable_lock s) (k_tickslock s) (k_core s) (k_intena s) e).
Definition L_lock (lk : lkref) : lens K spinlock :=
  match lk with
  | PtableLock => L_ptable_lock
  | TicksLock => L_tickslock
  | ExtLock n => Lens (λ s, view (e_lock n) (k_ext s)) (λ l s, upd L_ext (upd (e_lock n) l (k_ext s)) s)
  end.

Definition acquire_lk (lk : lkref) : M K unit := acquire L_mach (L_lock lk).
Definition release_lk (lk : lkref) : M K unit := release L_mach (L_lock lk).
Definition holding_lk (lk : lkref) : M K bool := holding L_mach (L_lock lk).
Definition ext {A} (m : M E A) : M K A := zoom L_ext m.
Definition inc {A} (m : M core A) : M K A := zoom L_core m.
Definition getc {A} (f : core → A) : M K A := inc (gets f).
Definition modc (f : core → core) : M K unit := inc (modify f).

(** The same accesses from code that runs on the whole kernel state. *)
Definition proc_at (p : nat) : M K proc := inc (get_proc p).
Definition set_at (p : nat) (f : proc → proc) : M K unit := inc (upd_proc p f).

(** pinit *)
Definition pinit : M K unit :=
  initlock L_ptable_lock "ptable" ;;
  modc (λ c, c <| rr_q := rr_q c <| q_pi := -1 |> |>) ;;
  modc (λ c, c <| lcfs_q := lcfs_q c <| q_pi := -1 |> |>) ;;
  modc (λ c, c <| bjf_q := bjf_q c <| q_pi := -1 |> |>).

(** myproc *)
Definition myproc : M K (option nat) :=
  pushcli L_mach ;;
  i ← mycpu L_mach;
  c ← get_cpu L_mach i;
  popcli L_mach ;;
  mret (cpu_proc c).

(** [myproc()->f]: the null pointer is not followed. *)
Definition curproc : M K nat :=
  p ← myproc; match p with Some i => mret i | None => undef "null process" end.

(** allocproc *)
Definition allocproc : M K (option nat) :=
  acquire_lk PtableLock ;;
  ps ← getc procs;
  match find_index (λ p, bool_decide (state p = UNUSED)) ps with
  | None => release_lk PtableLock ;; mret None
  | Some p =>
      n ← getc nextpid;
      set_at p (λ x, x <| state := EMBRYO |> <| pid := n |>) ;;
      (if n =? 2 ^ 31 - 1 then undef "nextpid overflow" else modc (λ c, c <| nextpid := n + 1 |>)) ;;
      release_lk PtableLock ;;
      k ← ext e_kalloc;
      set_at p (λ x, x <| kstack := k |>) ;;
      if k =? 0 then set_at p (λ x, x <| state := UNUSED |>) ;; mret None
      else
      let sp := k + KSTACKSIZE - TFSIZE in
      set_at p (λ x, x <| tf := sp |>) ;;
      let sp := sp - 4 in
      modc (λ c, c <| kwords := <[sp := trapret_addr]> (kwords c) |>) ;;
      let sp := sp - CTXSIZE in
      set_at p (λ x, x <| context := sp |>) ;;
      modc (λ c, c <| contexts := <[sp := mkCtxt 0 0 0 0 forkret_addr]> (contexts c) |>) ;;
      t ← getc ticks;
      set_at p (λ x, x <| arrivetime := t |>) ;;
      mret (Some p)
  end.

Definition bytes_of_string (s : string) : list Z :=
  (λ a, Z.of_nat (Ascii.nat_of_ascii a)) <$> String.list_ascii_of_string s.
(** safestrcpy(p->name, t, sizeof(p->name)) *)
Definition set_proc_name (p : nat) (t : list Z) : M K unit :=
  x ← proc_at p;
  match safestrcpy (name x) t 16 with
  | Some n => set_at p (λ x, x <| name := n |>)
  | None => undef "safestrcpy"
  end.

(** userinit *)
Definition userinit : M K unit :=
  o ← allocproc;
  match o with
  | None => panic "userinit allocproc failed"
  | Some p =>
      modc (λ c, c <| initproc := Some p |>) ;;
      d ← ext e_setupkvm;
      set_at p (λ x, x <| pgdir := d |>) ;;
      if d =? 0 then panic "userinit: out of memory?" else
      ext (e_inituvm d) ;;
      set_at p (λ x, x <| sz := PGSIZE |>) ;;
      x ← proc_at p;
      let useg := Z.lor (Z.shiftl SEG_UDATA 3) DPL_USER in
      modc (λ c, c <| tframes := <[tf x := tf_zero
        <| tf_cs := Z.lor (Z.shiftl SEG_UCODE 3) DPL_USER |>
        <| tf_ds := useg |> <| tf_es := useg |> <| tf_ss := useg |>
        <| tf_eflags := FL_IF |> <| tf_esp := PGSIZE |> <| tf_eip := 0 |>]> (tframes c) |>) ;;
      set_proc_name p (bytes_of_string "initcode" ++ [0]) ;;
      ip ← ext (e_namei "/");
      set_at p (λ x, x <| cwd := ip |>) ;;
      acquire_lk PtableLock ;;
      set_at p (λ x, x <| q_type := LCFS |>) ;;
      inc (enqueue_q LCFS p) ;;
      set_at p (λ x, x <| state := RUNNABLE |>) ;;
      release_lk PtableLock
  end.

(** growproc *)
Definition growproc (n : Z) : M K Z :=
  p ← curproc;
  x ← proc_at p;
  let fin (sz' : Z) : M K Z :=
    set_at p (λ x, x <| sz := sz' |>) ;;
    ext (e_switchuvm (kstack x) (pgdir x)) ;;
    mret 0 in
  if 0 <? n then
    sz' ← ext (e_allocuvm (pgdir x) (sz x) (u32 (sz x + n)));
    if sz' =? 0 then mret (-1) else fin sz'
  else if n <? 0 then
    sz' ← ext (e_deallocuvm (pgdir x) (sz x) (u32 (sz x + n)));
    if sz' =? 0 then mret (-1) else fin sz'
  else fin (sz x).

(** fork's file loop: share each open file with the child. *)
Definition fork_dup_files (np cp : nat) : M K unit :=
  for_each (seq 0 NOFILE) (λ i,
    x ← proc_at cp;
    o ← array_get "ofile" (ofile x) (Z.of_nat i);
    match o with
    | Some f => f' ← ext (e_filedup f); set_at np (λ y, y <| ofile := <[i := Some f']> (ofile y) |>)
    | None => mret tt
    end).

(** fork, once allocproc has returned the child [np]. *)
Definition fork_child (cp np : nat) : M K Z :=
  x ← proc_at cp;
  d ← ext (e_copyuvm (pgdir x) (sz x));
  set_at np (λ y, y <| pgdir := d |>) ;;
  if d =? 0 then
    y ← proc_at np;
    ext (e_kfree (kstack y)) ;;
    set_at np (λ y, y <| kstack := 0 |>) ;;
    set_at np (λ y, y <| state := UNUSED |>) ;;
    mret (-1)
  else
  set_at np (λ y, y <| sz := sz x |>) ;;
  set_at np (λ y, y <| parent := Some cp |>) ;;
  y ← proc_at np;
  frames ← getc tframes;
  match frames !! tf x with
  | None => undef "*curproc->tf"
  | Some fr =>
      modc (λ c, c <| tframes := <[tf y := fr <| tf_eax := 0 |>]> (tframes c) |>) ;;
      fork_dup_files np cp ;;
      ip ← ext (e_idup (cwd x));
      set_at np (λ y, y <| cwd := ip |>) ;;
      set_proc_name np (name x) ;;
      y ← proc_at np;
      let pid' := pid y in
      acquire_lk PtableLock ;;
      set_at np (λ y, y <| q_type := LCFS |>) ;;
      inc (enqueue_q LCFS np) ;;
      t ← getc ticks;
      set_at np (λ y, y <| arrivetime := t |>) ;;
      set_at np (λ y, y <| waiting_time := 0 |>) ;;
      set_at np (λ y, y <| executed_cycle := float_zero |>) ;;
      acquire_lk TicksLock ;;
      t ← getc ticks;
      set_at np (λ y, y <| priority := i32 (u32 (u32 (t * t) * 1021) mod 100) |>) ;;
      release_lk TicksLock ;;
      set_at np (λ y, y <| priority_ratio := float_quarter |>
                          <| executed_cycle_ratio := float_quarter |>
                          <| arrivetime_ratio := float_quarter |>
                          <| size_ratio := float_quarter |>) ;;
      set_at np (λ y, y <| state := RUNNABLE |>) ;;
      release_lk PtableLock ;;
      mret pid'
  end.

(** fork *)
Definition fork : M K Z :=
  cp ← curproc;
  o ← allocproc;
  match o with
  | None => mret (-1)
  | Some np => fork_child cp np
  end.

Definition shiftOutQueue (t : schedQ) (p : nat) : M K unit :=
  h ← holding_lk PtableLock;
  if negb h then panic "scheduling queue lock not held" else
  inc (shift_q t p).

(** cleanupCorresQueue *)
Definition cleanupCorresQueue (p : nat) : M K unit :=
  x ← proc_at p;
  match q_type x with
  | RR =>
      q ← getc rr_q;
      if q_pi q <=? -1 then panic "RR: nothing to clean" else
      shiftOutQueue RR p ;;
      inc (dec_q RR)
  | LCFS =>
      q ← getc lcfs_q;
      if q_pi q <=? -1 then panic "LCFS: nothing to clean" else
      shiftOutQueue LCFS p ;;
      inc (dec_q LCFS)
  | BJF =>
      q ← getc bjf_q;
      if q_pi q <=? -1 then panic "BJF: nothing to clean" else
      shiftOutQueue BJF p ;;
      inc (dec_q BJF)
  | DEF => panic "defaut scheduling cleanup"
  end.

(** wakeup *)
Definition wakeup (ch : channel) : M K unit :=
  acquire_lk PtableLock ;;
  inc (wakeup1 ch) ;;
  release_lk PtableLock.

(** sched, up to the context switch (it saves intena) and after it. *)
Definition sched_begin : M K unit :=
  p ← curproc;
  h ← holding_lk PtableLock;
  if negb h then panic "sched ptable.lock" else
  i ← mycpu L_mach;
  c ← get_cpu L_mach i;
  if negb (ncli c =? 1) then panic "sched locks" else
  x ← proc_at p;
  if bool_decide (state x = RUNNING) then panic "sched running" else
  e ← readeflags L_mach;
  if (e : bool) then panic "sched interruptible" else
  modify (λ s, upd L_intena (<[p := intena c]> (k_intena s)) s).
Definition sched_end (p : nat) : M K unit :=
  sv ← gets k_intena;
  b ← array_get "intena" sv (Z.of_nat p);
  i ← mycpu L_mach;
  c ← get_cpu L_mach i;
  put_cpu L_mach i (c <| intena := b |>).

(** exit's file loop *)
Definition exit_close_files (cp : nat) : M K unit :=
  for_each (seq 0 NOFILE) (λ fd,
    x ← proc_at cp;
    o ← array_get "ofile" (ofile x) (Z.of_nat fd);
    match o with
    | Some f => ext (e_fileclose f) ;; set_at cp (λ y, y <| ofile := <[fd := None]> (ofile y) |>)
    | None => mret tt
    end).

(** exit, before ptable.lock is taken: the guard, the open files, the cwd. *)
Definition exit_release_files (cp : nat) : M K unit :=
  ini ← getc initproc;
  if bool_decide (Some cp = ini) then panic "init exiting" else
  exit_close_files cp ;;
  ext e_begin_op ;;
  x ← proc_at cp;
  ext (e_iput (cwd x)) ;;
  ext e_end_op ;;
  set_at cp (λ y, y <| cwd := None |>).

(** exit, under ptable.lock, up to the context switch; it never returns. *)
Definition exit_zombie (cp : nat) : M K unit :=
  acquire_lk PtableLock ;;
  cleanupCorresQueue cp ;;
  x ← proc_at cp;
  inc (wakeup1 (proc_chan (parent x))) ;;
  ini ← getc initproc;
  inc (exit_reparent cp ini) ;;
  set_at cp (λ y, y <| state := ZOMBIE |>) ;;
  sched_begin.

Definition exit : M K unit :=
  cp ← curproc;
  exit_release_files cp ;;
  exit_zombie cp.

(** sleep, up to the context switch, and after it. *)
Definition sleep_begin (ch : channel) (lk : option lkref) : M K unit :=
  o ← myproc;
  match o with
  | None => panic "sleep"
  | Some p =>
      match lk with
      | None => panic "sleep without lk"
      | Some l =>
          when (negb (bool_decide (l = PtableLock))) (acquire_lk PtableLock ;; release_lk l) ;;
          cleanupCorresQueue p ;;
          set_at p (λ y, y <| chan := ch |>) ;;
          set_at p (λ y, y <| state := SLEEPING |>) ;;
          sched_begin
      end
  end.
Definition sleep_end (p : nat) (l : lkref) : M K unit :=
  sched_end p ;;
  set_at p (λ y, y <| chan := CNull |>) ;;
  when (negb (bool_decide (l = PtableLock))) (release_lk PtableLock ;; acquire_lk l).

(** wait's scan of the table: a zombie child is reaped, otherwise whether the
    caller has children at all. *)
Inductive wait_scan_result := WReaped (pid : Z) | WNone (havekids : bool).
Fixpoint wait_scan (cp : nat) (l : list nat) (havekids : bool) : M K wait_scan_result :=
  match l with
  | [] => mret (WNone havekids)
  | p :: l' =>
      x ← proc_at p;
      if negb (bool_decide (parent x = Some cp)) then wait_scan cp l' havekids
      else if bool_decide (state x = ZOMBIE) then
        ext (e_kfree (kstack x)) ;;
        set_at p (λ y, y <| kstack := 0 |>) ;;
        ext (e_freevm (pgdir x)) ;;
        set_at p (λ y, y <| pid := 0 |> <| parent := None |>
                           <| name := <[0%nat := 0]> (name y) |>
                           <| killed := 0 |> <| state := UNUSED |>) ;;
        mret (WReaped (pid x))
      else wait_scan cp l' true
  end.

(** One turn of wait's loop, entered with ptable.lock held: return a value, or
    go to sleep on the caller's own address (the turn is repeated after
    [sleep_end]). *)
Inductive wait_turn_result := WRet (r : Z) | WSlept.
Definition wait_turn (cp : nat) : M K wait_turn_result :=
  r ← wait_scan cp all_procs false;
  match r with
  | WReaped pid => release_lk PtableLock ;; mret (WRet pid)
  | WNone havekids =>
      x ← proc_at cp;
      if negb havekids || negb (killed x =? 0) then release_lk PtableLock ;; mret (WRet (-1))
      else sleep_begin (CProc cp) (Some PtableLock) ;; mret WSlept
  end.
Definition wait : M K wait_turn_result :=
  cp ← curproc;
  acquire_lk PtableLock ;;
  wait_turn cp.

(** ** The scheduler *)

(** Hand the CPU to [p], up to the context switch, and take it back. *)
Definition dispatch (p : nat) : M K unit :=
  set_at p (λ y, y <| waiting_time := 0 |>) ;;
  i ← mycpu L_mach;
  c ← get_cpu L_mach i;
  put_cpu L_mach i (c <| cpu_proc := Some p |>) ;;
  x ← proc_at p;
  ext (e_switchuvm (kstack x) (pgdir x)) ;;
  set_at p (λ y, y <| state := RUNNING |>).
Definition undispatch : M K unit :=
  ext e_switchkvm ;;
  i ← mycpu L_mach;
  c ← get_cpu L_mach i;
  put_cpu L_mach i (c <| cpu_proc := None |>).

(** What a pass of the scheduler does next: switch to a process (and, for the
    table scan, where the scan goes on afterwards), or end the pass. *)
Inductive pass_result := Switch (p : nat) (resume : option nat) | PassDone.

(** The table scan of the last branch, from index [i] on. *)
Fixpoint def_scan (l : list nat) : M K pass_result :=
  match l with
  | [] => mret PassDone
  | p :: l' =>
      x ← proc_at p;
      if negb (bool_decide (state x = RUNNABLE)) then def_scan l'
      else dispatch p ;; mret (Switch p (Some (S p)))
  end.

(** Which queue decides: RR before LCFS before BJF before the whole table. *)
Definition scheduler_choose : M K pass_result :=
  rr ← getc rr_q; lc ← getc lcfs_q; bj ← getc bjf_q;
  let run (o : option nat) : M K pass_result :=
    match o with
    | Some p => dispatch p ;; mret (Switch p None)
    | None => mret PassDone
    end in
  if 0 <=? q_pi rr then o ← inc (choose_rr rr); run o
  else if 0 <=? q_pi lc then o ← inc (choose_lcfs lc); run o
  else if 0 <=? q_pi bj then o ← inc (choose_bjf bj); run o
  else def_scan all_procs.

(** One pass of the scheduler's endless loop up to its context switch, and the
    rest of the pass when the process has switched back. *)
Definition scheduler_begin : M K pass_result :=
  sti L_mach ;;
  acquire_lk PtableLock ;;
  r ← scheduler_choose;
  match r with
  | PassDone => release_lk PtableLock ;; mret PassDone
  | _ => mret r
  end.
Definition scheduler_end (resume : option nat) : M K pass_result :=
  undispatch ;;
  match resume with
  | None => release_lk PtableLock ;; mret PassDone
  | Some i =>
      r ← def_scan (drop i all_procs);
      match r with
      | PassDone => release_lk PtableLock ;; mret PassDone
      | _ => mret r
      end
  end.

(** yield, up to the context switch, and after it. *)
Definition yield_begin : M K unit :=
  acquire_lk PtableLock ;;
  p ← curproc;
  set_at p (λ y, y <| running_ticks := 0 |>) ;;
  x ← proc_at p;
  when (bool_decide (q_type x = RR)) (modc (λ c, c <| rr_counter := u32 (rr_counter c + 1) |>)) ;;
  when (negb (change_running_queue x =? 0))
    (inc (enqueue_q (q_type x) p) ;;
     set_at p (λ y, y <| change_running_queue := 0 |>)) ;;
  set_at p (λ y, y <| state := RUNNABLE |>) ;;
  sched_begin.
Definition yield_end (p : nat) : M K unit :=
  sched_end p ;;
  release_lk PtableLock.

(** forkret *)
Definition forkret : M K unit :=
  release_lk PtableLock ;;
  first ← getc forkret_first;
  when first
    (modc (λ c, c <| forkret_first := false |>) ;;
     ext e_iinit ;;
     ext e_initlog).

(** kill *)
Definition kill (pd : Z) : M K Z :=
  acquire_lk PtableLock ;;
  ps ← getc procs;
  match find_index (λ p, pid p =? pd) ps with
  | Some p =>
      set_at p (λ y, y <| killed := 1 |>) ;;
      x ← proc_at p;
      when (bool_decide (state x = SLEEPING))
        (inc (enqueue_q (q_type x) p) ;;
         set_at p (λ y, y <| state := RUNNABLE |>)) ;;
      release_lk PtableLock ;;
      mret 0
  | None => release_lk PtableLock ;; mret (-1)
  end.

(** agingMechanism *)
Definition aging_one (p : nat) : M K unit :=
  x ← proc_at p;
  when (bool_decide (state x = RUNNABLE))
    (set_at p (λ y, y <| waiting_time := u32 (waiting_time y + 1) |>) ;;
     x ← proc_at p;
     when ((AGING_BOUND <? waiting_time x) && negb (bool_decide (q_type x = RR)))
       (cleanupCorresQueue p ;;
        set_at p (λ y, y <| q_type := RR |>) ;;
        inc (enqueue_q RR p))).
Definition agingMechanism : M K unit :=
  h ← holding_lk PtableLock;
  when (negb h) (acquire_lk PtableLock) ;;
  for_each all_procs aging_one ;;
  release_lk PtableLock.

(** change_queue; [queueID] is the C [int]. *)
Definition queue_of_id (queueID : Z) : option schedQ :=
  if queueID =? 0 then Some DEF else if queueID =? 1 then Some RR
  else if queueID =? 2 then Some LCFS else if queueID =? 3 then Some BJF else None.
Definition change_queue (pd queueID : Z) : M K unit :=
  acquire_lk PtableLock ;;
  p ← inc (find_pid pd);
  x ← proc_at p;
  if negb (pid x =? pd) then release_lk PtableLock else
  when (bool_decide (state x = RUNNING) || bool_decide (state x = RUNNABLE)) (cleanupCorresQueue p) ;;
  match queue_of_id queueID with
  | Some t =>
      set_at p (λ y, y <| q_type := t |>) ;;
      when (bool_decide (state x = RUNNABLE)) (inc (enqueue_q t p))
  | None => mret tt
  end ;;
  when (bool_decide (state x = RUNNING)) (set_at p (λ y, y <| change_running_queue := 1 |>)) ;;
  release_lk PtableLock.

(** change_local_bjf: its test [p == 0] is never true. *)
Definition change_local_bjf (pd pRatio aRatio eRatio sRatio : Z) : M K Z :=
  acquire_lk PtableLock ;;
  p ← inc (find_pid pd);
  set_at p (set_ratios pRatio aRatio eRatio sRatio) ;;
  release_lk PtableLock ;;
  mret 0.

(** change_global_bjf *)
Definition change_global_bjf (pRatio aRatio eRatio sRatio : Z) : M K Z :=
  acquire_lk PtableLock ;;
  inc (for_each all_procs (λ p, upd_proc p (set_ratios pRatio aRatio eRatio sRatio))) ;;
  release_lk PtableLock ;;
  modc (λ c, c <| g_priority_ratio := pRatio |> <| g_arrivetime_ratio := aRatio |>
               <| g_executed_cycle_ratio := eRatio |> <| g_size_ratio := sRatio |>) ;;
  mret 0.

End code.
