(* ===== verification/ProcInv.v ===== *)
(** * The invariant of the process table and the scheduling queues

    [cinv ex c qs]: the three queue arrays hold the lists [qs RR], [qs LCFS] and
    [qs BJF], and a process is in the queue of its kind exactly while it is
    runnable, or running with no change of queue pending.  Every operation of
    proc.c moves one process at a time; between the write to the queue and the
    write to the process, [ex !! p = Some b] says that [p] is (or is not) in its
    queue whatever its state says.  The lemmas below are the moves. *)

From S2P Require Import Prelude Spinlock Queue CStr Proc.

Definition queue_at (t : schedQ) (c : core) : queue :=
  match t with RR => rr_q c | LCFS => lcfs_q c | BJF => bjf_q c | DEF => mkQueue [] (-1) end.
Definition set_queue (t : schedQ) (q : queue) (c : core) : core :=
  match t with
  | RR => c <| rr_q := q |> | LCFS => c <| lcfs_q := q |> | BJF => c <| bjf_q := q |> | DEF => c
  end.

Definition queued (x : proc) : Prop :=
  state x = RUNNABLE ∨ (state x = RUNNING ∧ change_running_queue x = 0).
Definition live (x : proc) : Prop := state x ≠ UNUSED.
#[global] Instance queued_dec x : Decision (queued x).
Proof. unfold queued. apply _. Defined.
Lemma queued_live x : queued x → live x.
Proof. unfold queued, live. intros [->|[-> _]]; done. Qed.

Abbreviation exc := (gmap nat bool).
Definition inq (ex : exc) (i : nat) (x : proc) : Prop :=
  match ex !! i with Some b => b = true | None => queued x end.

Record cinv (ex : exc) (c : core) (qs : schedQ → list nat) : Prop := {
  ci_len : Z.of_nat (length (procs c)) = NPROC;
  ci_repr : ∀ t, t ≠ DEF → repr (queue_at t c) (qs t);
  ci_nodup : ∀ t, NoDup (qs t);
  ci_mem : ∀ t i, i ∈ qs t ↔ t ≠ DEF ∧ ∃ x, procs c !! i = Some x ∧ q_type x = t ∧ inq ex i x;
  ci_flag : ∀ i x, procs c !! i = Some x → change_running_queue x ≠ 0 → state x = RUNNING;
  ci_pid : ∀ i j x y, procs c !! i = Some x → procs c !! j = Some y → live x → live y →
    pid x = pid y → i = j;
  ci_pid_range : ∀ i x, procs c !! i = Some x → live x → 0 < pid x < nextpid c;
  ci_next : 0 < nextpid c;
  ci_ex : ∀ p b, ex !! p = Some b → ∃ x, procs c !! p = Some x ∧ live x }.
Arguments ci_len {_ _ _}.
Arguments ci_repr {_ _ _}.
Arguments ci_nodup {_ _ _}.
Arguments ci_mem {_ _ _}.
Arguments ci_flag {_ _ _}.
Arguments ci_pid {_ _ _}.
Arguments ci_pid_range {_ _ _}.
Arguments ci_next {_ _ _}.
Arguments ci_ex {_ _ _}.

Lemma set_queue_procs t q c : procs (set_queue t q c) = procs c.
Proof. by destruct t. Qed.
Lemma set_queue_nextpid t q c : nextpid (set_queue t q c) = nextpid c.
Proof. by destruct t. Qed.
Lemma queue_at_set t q c : t ≠ DEF → queue_at t (set_queue t q c) = q.
Proof. by destruct t. Qed.
Lemma queue_at_set_ne t u q c : t ≠ u → queue_at u (set_queue t q c) = queue_at u c.
Proof. by destruct t, u. Qed.
Lemma queue_at_procs t c l : queue_at t (c <| procs := l |>) = queue_at t c.
Proof. by destruct t. Qed.

Lemma inq_None ex i x : ex !! i = None → inq ex i x ↔ queued x.
Proof. unfold inq. by intros ->. Qed.
Lemma inq_Some ex i x b : ex !! i = Some b → inq ex i x ↔ b = true.
Proof. unfold inq. by intros ->. Qed.
Lemma inq_insert_ne ex i p b x : i ≠ p → inq (<[p := b]> ex) i x ↔ inq ex i x.
Proof. intros. unfold inq. by rewrite lookup_insert_ne. Qed.
Lemma inq_insert_eq ex p b x : inq (<[p := b]> ex) p x ↔ b = true.
Proof. apply inq_Some, lookup_insert_eq. Qed.
Lemma inq_delete_ne ex i p x : i ≠ p → inq (delete p ex) i x ↔ inq ex i x.
Proof. intros. unfold inq. by rewrite lookup_delete_ne. Qed.
Lemma inq_delete_eq ex p x : inq (delete p ex) p x ↔ queued x.
Proof. apply inq_None, lookup_delete_eq. Qed.
Lemma inq_live ex c qs i x : cinv ex c qs → procs c !! i = Some x → inq ex i x → live x.
Proof.
  intros Hc Hi. unfold inq. destruct (ex !! i) as [b|] eqn:Hb; [|by intros; apply queued_live].
  intros _. destruct (ci_ex Hc _ _ Hb) as (y & Hy & ?). by simplify_eq.
Qed.

(** ** Writing one process

    General form: [p]'s entry becomes [x'], the queues stay. *)
Lemma cinv_write ex ex' c c' qs p x x' :
  cinv ex c qs → procs c !! p = Some x → procs c' = <[p := x']> (procs c) →
  nextpid c ≤ nextpid c' → (∀ t, t ≠ DEF → queue_at t c' = queue_at t c) →
  (∀ i y, i ≠ p → inq ex' i y ↔ inq ex i y) →
  (∀ t, t ≠ DEF → q_type x' = t ∧ inq ex' p x' ↔ q_type x = t ∧ inq ex p x) →
  (change_running_queue x' ≠ 0 → state x' = RUNNING) →
  (live x' → 0 < pid x' < nextpid c' ∧ ((live x ∧ pid x' = pid x) ∨ nextpid c ≤ pid x')) →
  (∀ q b, ex' !! q = Some b → if decide (q = p) then live x' else ∃ b', ex !! q = Some b') →
  cinv ex' c' qs.
Proof.
  intros Hc Hp Hps Hnp Hqs Hinq Hmem Hflag Hpid Hex. destruct Hc.
  assert (p < length (procs c))%nat as Hlt by (by eapply lookup_lt_Some).
  split; [by rewrite Hps, length_insert| |done|..].
  - intros t Ht. rewrite Hqs by done. by apply ci_repr0.
  - intros t i. rewrite Hps, ci_mem0. destruct (decide (i = p)) as [->|Hip].
    + rewrite list_lookup_insert_eq by done. rewrite Hp. specialize (Hmem t). naive_solver.
    + rewrite list_lookup_insert_ne by done. naive_solver.
  - intros i y. rewrite Hps. intros [[<- <-]|[? Hi]]%lookup_insert_Some_inv; [done|]. eauto.
  - intros i j y z. rewrite Hps.
    intros [[<- <-]|[? Hi]]%lookup_insert_Some_inv [[<- <-]|[? Hj]]%lookup_insert_Some_inv Hy Hz E;
      [done|..|by eauto].
    + destruct (Hpid Hy) as [? [[? ?]|?]]; [eapply ci_pid0; eauto; congruence|].
      specialize (ci_pid_range0 _ _ Hj Hz). lia.
    + destruct (Hpid Hz) as [? [[? ?]|?]]; [eapply ci_pid0; eauto; congruence|].
      specialize (ci_pid_range0 _ _ Hi Hy). lia.
  - intros i y. rewrite Hps. intros [[<- <-]|[? Hi]]%lookup_insert_Some_inv Hy.
    + by destruct (Hpid Hy).
    + specialize (ci_pid_range0 _ _ Hi Hy). lia.
  - lia.
  - intros q b Hq. specialize (Hex q b Hq). rewrite Hps. case_decide as Hd; [subst|].
    + exists x'. by rewrite list_lookup_insert_eq.
    + rewrite list_lookup_insert_ne by done. destruct Hex as [b' Hb]. eauto.
Qed.

(** A write that leaves the scheduling fields alone. *)
Definition same_sched (x x' : proc) : Prop :=
  state x' = state x ∧ q_type x' = q_type x ∧ pid x' = pid x ∧
  change_running_queue x' = change_running_queue x.

Lemma inq_same ex i x x' : same_sched x x' → inq ex i x' ↔ inq ex i x.
Proof.
  intros (Hst & Hq & Hpid & Hfl). unfold inq, queued. by rewrite Hst, Hfl.
Qed.

Lemma cinv_keep ex c qs p x x' :
  cinv ex c qs → procs c !! p = Some x → same_sched x x' →
  cinv ex (c <| procs := <[p := x']> (procs c) |>) qs.
Proof.
  intros Hc Hp Hs. pose proof Hs as (Hst & Hq & Hpid & Hfl).
  eapply cinv_write; [exact Hc|exact Hp|done|done|..].
  - intros t _. by rewrite queue_at_procs.
  - done.
  - intros t _. by rewrite Hq, (inq_same ex p x x' Hs).
  - rewrite Hst, Hfl. by apply (ci_flag Hc p).
  - unfold live. rewrite Hst, Hpid. simpl. intros Hl. split; [by eapply (ci_pid_range Hc)|by left].
  - intros q b Hb. case_decide as Hd; [subst|by eauto].
    destruct (ci_ex Hc p b Hb) as (y & Hy & Hl). unfold live in *. simplify_eq. by rewrite Hst.
Qed.

(** The excepted process may change state, kind (when it is in no queue) and
    pending flag. *)
Lemma cinv_write_ex ex c qs p b x x' :
  cinv ex c qs → ex !! p = Some b → procs c !! p = Some x →
  (b = true → q_type x' = q_type x) →
  (change_running_queue x' ≠ 0 → state x' = RUNNING) → live x' → pid x' = pid x →
  cinv ex (c <| procs := <[p := x']> (procs c) |>) qs.
Proof.
  intros Hc Hb Hp Hq Hfl Hl Hpid. destruct (ci_ex Hc p b Hb) as (y & Hy & Hl'). simplify_eq.
  eapply cinv_write; [exact Hc|exact Hp|done|done|..].
  - intros t _. by rewrite queue_at_procs.
  - done.
  - intros t _. rewrite !(inq_Some _ _ _ _ Hb). destruct b; [rewrite Hq by done|]; naive_solver.
  - done.
  - intros _. rewrite Hpid. simpl. split; [by eapply (ci_pid_range Hc)|by left].
  - intros q b' Hq'. case_decide; [done|by eauto].
Qed.

(** A write to a process that is in no queue and stays in none. *)
Lemma cinv_write_idle ex c c' qs p x x' :
  cinv ex c qs → ex !! p = None → procs c !! p = Some x → ¬ queued x → ¬ queued x' →
  procs c' = <[p := x']> (procs c) → nextpid c ≤ nextpid c' →
  (∀ t, t ≠ DEF → queue_at t c' = queue_at t c) →
  (change_running_queue x' ≠ 0 → state x' = RUNNING) →
  (live x' → 0 < pid x' < nextpid c' ∧ ((live x ∧ pid x' = pid x) ∨ nextpid c ≤ pid x')) →
  cinv ex c' qs.
Proof.
  intros Hc Hex Hp Hn Hn' Hps Hnp Hq Hfl Hpid.
  eapply cinv_write; [exact Hc|exact Hp|done|done|done|done|..|done|done|].
  - intros t _. rewrite !(inq_None _ _ _ Hex). naive_solver.
  - intros q b Hb. rewrite decide_False by congruence. eauto.
Qed.

(** Opening and closing an exception. *)
Lemma cinv_open ex c qs p x (b : bool) :
  cinv ex c qs → ex !! p = None → procs c !! p = Some x → live x → (queued x ↔ b = true) →
  cinv (<[p := b]> ex) c qs.
Proof.
  intros Hc Hex Hp Hl Hb. pose proof Hc as []. split; try done.
  - intros t i. rewrite ci_mem0. destruct (decide (i = p)) as [->|Hip].
    + rewrite Hp. setoid_rewrite inq_insert_eq. setoid_rewrite inq_None; [|done]. naive_solver.
    + by setoid_rewrite inq_insert_ne.
  - intros q b' [[<- <-]|[? ?]]%lookup_insert_Some; eauto.
Qed.
Lemma cinv_close ex c qs p x (b : bool) :
  cinv ex c qs → ex !! p = Some b → procs c !! p = Some x →
  (q_type x ≠ DEF → queued x ↔ b = true) → cinv (delete p ex) c qs.
Proof.
  intros Hc Hex Hp Hb. pose proof Hc as []. split; try done.
  - intros t i. rewrite ci_mem0. destruct (decide (i = p)) as [->|Hip].
    + rewrite Hp. setoid_rewrite inq_delete_eq. setoid_rewrite inq_Some; [|done]. naive_solver.
    + by setoid_rewrite inq_delete_ne.
  - intros q b' [? ?]%lookup_delete_Some. eauto.
Qed.

(** Fields outside the table, the queues and the pid counter do not matter. *)
Lemma cinv_ext ex c c' qs :
  cinv ex c qs → procs c' = procs c → nextpid c' = nextpid c →
  (∀ t, t ≠ DEF → queue_at t c' = queue_at t c) → cinv ex c' qs.
Proof.
  intros [] Hps Hn Hq. split; rewrite ?Hps, ?Hn; try done.
  intros t Ht. rewrite Hq by done. auto.
Qed.

(** ** Moves of the queues *)
Definition qpush (t : schedQ) (p : nat) (qs : schedQ → list nat) : schedQ → list nat :=
  λ u, if decide (u = t ∧ t ≠ DEF) then qs u ++ [p] else qs u.
Definition qdrop (t : schedQ) (p : nat) (qs : schedQ → list nat) : schedQ → list nat :=
  λ u, if decide (u = t) then filter (λ i, i ≠ p) (qs u) else qs u.

Lemma qpush_nodup t p qs : (∀ u, NoDup (qs u)) → p ∉ qs t → ∀ u, NoDup (qpush t p qs u).
Proof.
  intros Hnd Hn u. unfold qpush. case_decide as Hd; [|done]. destruct Hd as [-> _].
  apply NoDup_app. split; [done|]. split; [|apply NoDup_singleton].
  by intros y Hy ->%list_elem_of_singleton.
Qed.
Lemma qpush_mem t p qs u i : i ∈ qpush t p qs u ↔ i ∈ qs u ∨ (i = p ∧ u = t ∧ t ≠ DEF).
Proof.
  unfold qpush. case_decide as Hd; [|naive_solver]. rewrite elem_of_app, list_elem_of_singleton.
  naive_solver.
Qed.
Lemma qdrop_nodup t p qs : (∀ u, NoDup (qs u)) → ∀ u, NoDup (qdrop t p qs u).
Proof. intros Hnd u. unfold qdrop. case_decide; [by apply NoDup_filter|done]. Qed.
Lemma qdrop_mem t p qs u i : i ∈ qdrop t p qs u ↔ i ∈ qs u ∧ (u = t → i ≠ p).
Proof. unfold qdrop. case_decide; [rewrite list_elem_of_filter|]; naive_solver. Qed.

Lemma qs_lt ex c qs t i : cinv ex c qs → i ∈ qs t → (i < Z.to_nat NPROC)%nat.
Proof.
  intros Hc Hin. pose proof (ci_len Hc). apply (ci_mem Hc) in Hin as (_ & x & Hx & _).
  apply lookup_lt_Some in Hx. unfold NPROC in *. lia.
Qed.
(** A process that is outside a queue leaves room for it there. *)
Lemma qs_room ex c qs t p :
  cinv ex c qs → (p < Z.to_nat NPROC)%nat → p ∉ qs t → Z.of_nat (length (qs t)) < NPROC.
Proof.
  intros Hc Hp Hn.
  assert (length (p :: qs t) ≤ Z.to_nat NPROC)%nat as Hl.
  { apply NoDup_bounded_length.
    - apply NoDup_cons. split; [done|]. apply (ci_nodup Hc).
    - intros i [->|Hi]%elem_of_cons; [done|]. by eapply qs_lt. }
  simpl in Hl. unfold NPROC in *. lia.
Qed.

Lemma get_proc_run c p x : procs c !! p = Some x → get_proc p c = Ok x c.
Proof.
  intros Hp. unfold get_proc. rewrite bind_run with (a := c) (s1 := c) by done.
  apply array_get_ok; [lia|]. by rewrite Nat2Z.id.
Qed.
Lemma get_proc_inv c c' p x : get_proc p c = Ok x c' → procs c !! p = Some x ∧ c' = c.
Proof. unfold get_proc. intros Hg. inv_bind. by rewrite Nat2Z.id in *. Qed.
Ltac inv_get :=
  match goal with Hg : get_proc _ _ = Ok _ _ |- _ => apply get_proc_inv in Hg as [?Hget ->] end.
Lemma upd_proc_run c p x f :
  procs c !! p = Some x → upd_proc p f c = Ok tt (c <| procs := <[p := f x]> (procs c) |>).
Proof.
  intros Hp. unfold upd_proc. rewrite bind_run with (a := c) (s1 := c) by done.
  pose proof (lookup_lt_Some _ _ _ Hp). unfold in_bounds. rewrite bool_decide_eq_true_2 by lia.
  unfold modify. f_equal. simpl. by rewrite (alter_lookup_insert _ _ _ x).
Qed.
Lemma upd_proc_inv c c' p f :
  upd_proc p f c = Ok tt c' →
  ∃ x, procs c !! p = Some x ∧ c' = c <| procs := <[p := f x]> (procs c) |>.
Proof.
  intros Hu. destruct (procs c !! p) as [x|] eqn:Hp.
  - exists x. split; [done|]. rewrite (upd_proc_run _ _ _ _ Hp) in Hu. by injection Hu as <-.
  - exfalso. unfold upd_proc in Hu. inv_bind. unfold in_bounds in Hu.
    apply lookup_ge_None_1 in Hp. rewrite bool_decide_eq_false_2 in Hu by lia. done.
Qed.

Lemma enqueue_q_run c t p q q' :
  t ≠ DEF → queue_at t c = q → enqueue p q = Ok tt q' →
  enqueue_q t p c = Ok tt (set_queue t q' c).
Proof. intros Ht <- Hq. destruct t; simpl in *; [done|by rewrite (zoom_run _ _ _ _ _ Hq)..]. Qed.

(** The append, for a process that is in no queue. *)
Lemma enqueue_q_spec ex c qs p x :
  cinv ex c qs → ex !! p = Some false → procs c !! p = Some x →
  ∃ q', enqueue_q (q_type x) p c = Ok tt (set_queue (q_type x) q' c) ∧
        cinv (<[p := true]> ex) (set_queue (q_type x) q' c) (qpush (q_type x) p qs).
Proof.
  intros Hc Hex Hp.
  assert (∀ t, p ∉ qs t) as Hn.
  { intros t Hin. apply (ci_mem Hc) in Hin as (_ & y & _ & _ & Hy). by rewrite (inq_Some _ _ _ _ Hex) in Hy. }
  pose proof (lookup_lt_Some _ _ _ Hp). pose proof (ci_len Hc) as Hlen.
  assert (∀ c' qs', procs c' = procs c → nextpid c' = nextpid c →
    (∀ t, t ≠ DEF → repr (queue_at t c') (qs' t)) → (∀ t, qs' t = qpush (q_type x) p qs t) →
    cinv (<[p := true]> ex) c' (qpush (q_type x) p qs)) as Hfin.
  { intros c' qs' Hps Hnp Hr Hqs. pose proof Hc as []. split; rewrite ?Hps, ?Hnp; try done.
    - intros t Ht. rewrite <- Hqs. by apply Hr.
    - by apply qpush_nodup.
    - intros t i. rewrite qpush_mem. destruct (decide (i = p)) as [->|Hip].
      + rewrite Hp. setoid_rewrite inq_insert_eq. specialize (Hn t). naive_solver.
      + rewrite ci_mem0. setoid_rewrite inq_insert_ne; [|done..]. naive_solver.
    - intros q b [[<- <-]|[? ?]]%lookup_insert_Some; eauto. }
  destruct (decide (q_type x = DEF)) as [Ht|Ht].
  - exists (mkQueue [] (-1)). replace (set_queue (q_type x) _ c) with c by (by rewrite Ht).
    split; [by rewrite Ht|]. apply (Hfin c qs); [done|done|by apply (ci_repr Hc)|].
    intros t. unfold qpush. by rewrite decide_False by naive_solver.
  - destruct (enqueue_spec (queue_at (q_type x) c) (qs (q_type x)) p) as (q' & Hq & Hr).
    + by apply (ci_repr Hc).
    + eapply qs_room; [done| |done]. unfold NPROC in *. lia.
    + exists q'. split; [by eapply enqueue_q_run|].
      apply (Hfin _ (qpush (q_type x) p qs)); [apply set_queue_procs|apply set_queue_nextpid| |done].
      intros u Hu. unfold qpush. case_decide as Hd.
      * destruct Hd as [-> _]. by rewrite queue_at_set.
      * rewrite queue_at_set_ne by naive_solver. by apply (ci_repr Hc).
Qed.

Lemma find_pid_in_queue ex c qs t p x :
  cinv ex c qs → procs c !! p = Some x → p ∈ qs t → live x →
  ∃ k, find_index (λ i, pid_of (procs c) i =? pid x) (qs t) = Some k ∧ qs t !! k = Some p.
Proof.
  intros Hc Hp Hin Hlive.
  destruct (find_index (λ i, pid_of (procs c) i =? pid x) (qs t)) as [k|] eqn:Hk.
  - exists k. split; [done|]. apply find_index_Some in Hk as (i & Hi & He & _).
    assert (i ∈ qs t) as Hi' by (by eapply list_elem_of_lookup_2).
    apply (ci_mem Hc) in Hi' as (_ & y & Hy & _ & Hqd).
    apply Z.eqb_eq in He. unfold pid_of in He. rewrite Hy in He.
    rewrite Hi. f_equal. eapply (ci_pid Hc); eauto using inq_live.
  - exfalso. rewrite find_index_None in Hk. apply list_elem_of_lookup in Hin as [k Hk'].
    specialize (Hk _ _ Hk'). apply Z.eqb_neq in Hk. apply Hk. unfold pid_of. by rewrite Hp.
Qed.

(** [shiftOutQueue(q, p); q.pi--;] for a process that is in its queue. *)
Lemma remove_q_spec ex c qs p x :
  cinv ex c qs → ex !! p = Some true → procs c !! p = Some x → q_type x ≠ DEF →
  Z.of_nat (length (qs (q_type x))) < NPROC →
  ∃ q', (shift_q (q_type x) p ;; dec_q (q_type x)) c = Ok tt (set_queue (q_type x) q' c) ∧
        cinv (<[p := false]> ex) (set_queue (q_type x) q' c) (qdrop (q_type x) p qs).
Proof.
  intros Hc Hex Hp Ht Hlen. set (t := q_type x) in *.
  assert (p ∈ qs t) as Hin.
  { apply (ci_mem Hc). split; [done|]. exists x. by rewrite (inq_Some _ _ _ _ Hex). }
  destruct (ci_ex Hc p true Hex) as (y & Hy & Hlive). simplify_eq.
  destruct (find_pid_in_queue ex c qs t p x) as (k & Hk & Hkp); [done..|].
  destruct (shift_out_present (queue_at t c) (qs t) (pid_of (procs c)) (pid x) k) as (q' & Hq & Hr);
    [by apply (ci_repr Hc)|done|done|].
  rewrite (delete_filter_ne _ k p) in Hr by (done || apply (ci_nodup Hc)).
  exists q'. split.
  - apply bind_ok in Hq as ([] & q1 & Hq1 & Hq2).
    assert (pid_of (procs c) p = pid x) as Hpid by (unfold pid_of; by rewrite Hp).
    unfold shift_q. rewrite (m_bind_assoc _ _ _ c). rewrite bind_run with (a := c) (s1 := c) by done.
    rewrite Hpid. injection Hq2 as <-.
    destruct t; [done|..]; simpl in *; by rewrite (bind_run _ _ _ _ _ (zoom_run _ _ _ _ _ Hq1)).
  - pose proof Hc as []. split; rewrite ?set_queue_procs, ?set_queue_nextpid; try done.
    + intros u Hu. unfold qdrop. case_decide as Hd; [subst u; by rewrite queue_at_set|].
      rewrite queue_at_set_ne by done. by apply ci_repr0.
    + by apply qdrop_nodup.
    + intros u i. rewrite qdrop_mem, ci_mem0. destruct (decide (i = p)) as [->|Hip].
      * rewrite Hp. setoid_rewrite inq_insert_eq. naive_solver.
      * setoid_rewrite inq_insert_ne; [|done..]. naive_solver.
    + intros q b [[<- <-]|[? ?]]%lookup_insert_Some; eauto.
Qed.

(** A removal that returns found a queue with room for the shift. *)
Lemma remove_q_inv ex c c' qs p x :
  cinv ex c qs → ex !! p = Some true → procs c !! p = Some x → q_type x ≠ DEF →
  (shift_q (q_type x) p ;; dec_q (q_type x)) c = Ok tt c' →
  Z.of_nat (length (qs (q_type x))) < NPROC ∧
  ∃ q', c' = set_queue (q_type x) q' c ∧ cinv (<[p := false]> ex) c' (qdrop (q_type x) p qs).
Proof.
  intros Hc Hex Hp Ht Hrun.
  destruct (decide (Z.of_nat (length (qs (q_type x))) = NPROC)) as [Hfull|Hnf].
  - exfalso. unfold shift_q in Hrun. rewrite (m_bind_assoc _ _ _ c) in Hrun.
    rewrite bind_run with (a := c) (s1 := c) in Hrun by done.
    pose proof (shift_out_full (queue_at (q_type x) c) (qs (q_type x)) (pid_of (procs c))
                  (pid_of (procs c) p) (ci_repr Hc _ Ht) Hfull) as Hu.
    destruct (q_type x); [done|..]; simpl in *; inv_bind;
      match goal with H1 : zoom _ (shift_out _ _) _ = Ok _ _ |- _ =>
        apply zoom_ok in H1 as (q1 & Hq1 & ->) end;
      simpl in *; rewrite (bind_run _ _ _ _ _ Hq1) in Hu; done.
  - assert (Z.of_nat (length (qs (q_type x))) < NPROC) as Hlt.
    { pose proof (repr_length _ _ (ci_repr Hc _ Ht)). lia. }
    split; [done|]. destruct (remove_q_spec ex c qs p x) as (q' & Hr & Hq); [done..|].
    rewrite Hr in Hrun. injection Hrun as <-. by exists q'.
Qed.

(** ** A checker for the invariant, for concrete tables *)
Definition qs_of (a b d : list nat) (t : schedQ) : list nat :=
  match t with RR => a | LCFS => b | BJF => d | DEF => [] end.
Definition check_queue (q : queue) (l : list nat) : bool :=
  bool_decide (Z.of_nat (length (q_proc q)) = NPROC) && bool_decide (q_pi q = Z.of_nat (length l) - 1) &&
  bool_decide (take (length l) (q_proc q) = Some <$> l) && bool_decide (NoDup l).
Definition check_member (l : list nat) (t : schedQ) (i : nat) (x : proc) : bool :=
  bool_decide (i ∈ l ↔ q_type x = t ∧ queued x).
Definition check_proc (a b d : list nat) (n : Z) (i : nat) (x : proc) : bool :=
  check_member a RR i x && check_member b LCFS i x && check_member d BJF i x &&
  (bool_decide (change_running_queue x = 0) || bool_decide (state x = RUNNING)) &&
  (bool_decide (state x = UNUSED) || bool_decide (0 < pid x < n)).
Definition live_pids (ps : list proc) : list Z :=
  omap (λ x, if bool_decide (state x = UNUSED) then None else Some (pid x)) ps.
Definition cinv_check (c : core) (a b d : list nat) : bool :=
  bool_decide (Z.of_nat (length (procs c)) = NPROC) &&
  check_queue (rr_q c) a && check_queue (lcfs_q c) b && check_queue (bjf_q c) d &&
  forallb (λ '(i, x), check_proc a b d (nextpid c) i x) (imap pair (procs c)) &&
  forallb (λ i, bool_decide (i < Z.to_nat NPROC)%nat) (a ++ b ++ d) &&
  bool_decide (NoDup (live_pids (procs c))) && bool_decide (0 < nextpid c).

Lemma check_queue_sound q l : check_queue q l = true → repr q l ∧ NoDup l.
Proof.
  unfold check_queue. rewrite !andb_true_iff, !bool_decide_eq_true. intros [[[Hlen Hpi] Hl] Hnd].
  split; [|done]. split; [done|]. split; [done|]. intros i p Hi.
  rewrite <- (lookup_take_lt _ (length l)) by (by eapply lookup_lt_Some).
  by rewrite Hl, list_lookup_fmap, Hi.
Qed.
Lemma live_pids_inj ps i j x y :
  NoDup (live_pids ps) → ps !! i = Some x → ps !! j = Some y → live x → live y → pid x = pid y → i = j.
Proof.
  revert i j. induction ps as [|z ps IH]; intros i j Hnd Hi Hj Hx Hy Hpid; [done|].
  assert (∀ k w, ps !! k = Some w → live w → pid w ∈ live_pids ps) as Hin.
  { intros k w Hk Hw. apply list_elem_of_omap. exists w. split; [by eapply list_elem_of_lookup_2|].
    by rewrite bool_decide_eq_false_2. }
  unfold live_pids in Hnd. cbn [omap list_omap] in Hnd.
  destruct i as [|i], j as [|j]; simplify_eq/=; [done| | |].
  - rewrite bool_decide_eq_false_2 in Hnd by done. apply NoDup_cons in Hnd as [Hn _].
    destruct Hn. rewrite Hpid. by eapply Hin.
  - rewrite bool_decide_eq_false_2 in Hnd by done. apply NoDup_cons in Hnd as [Hn _].
    destruct Hn. rewrite <- Hpid. by eapply Hin.
  - f_equal. eapply IH; [|done..]. destruct (bool_decide _); [done|]. by apply NoDup_cons in Hnd as [_ ?].
Qed.
Lemma cinv_check_sound c a b d : cinv_check c a b d = true → cinv ∅ c (qs_of a b d).
Proof.
  unfold cinv_check. rewrite !andb_true_iff, !bool_decide_eq_true, !forallb_forall.
  intros [[[[[[[Hlen Ha] Hb] Hd] Hp] Hlt] Hnd] Hn].
  apply check_queue_sound in Ha as [Ha Na], Hb as [Hb Nb], Hd as [Hd Nd].
  assert (∀ i x, procs c !! i = Some x → check_proc a b d (nextpid c) i x = true) as Hall.
  { intros i x Hx. apply (Hp (i, x)), list_elem_of_In. apply list_elem_of_lookup. exists i.
    by rewrite list_lookup_imap, Hx. }
  clear Hp. unfold check_proc, check_member in Hall.
  setoid_rewrite andb_true_iff in Hall. setoid_rewrite andb_true_iff in Hall.
  setoid_rewrite andb_true_iff in Hall. setoid_rewrite andb_true_iff in Hall.
  setoid_rewrite orb_true_iff in Hall. setoid_rewrite bool_decide_eq_true in Hall.
  assert (∀ i, i ∈ a ++ b ++ d → ∃ x, procs c !! i = Some x) as Hsome.
  { intros i Hi. apply lookup_lt_is_Some_2. apply list_elem_of_In, Hlt, bool_decide_eq_true in Hi. lia. }
  split; try done.
  - intros [] Ht; done.
  - intros []; [constructor|done..].
  - intros t i. setoid_rewrite inq_None; [|done].
    assert (i ∈ qs_of a b d t → ∃ x, procs c !! i = Some x) as Hx.
    { intros Hi. apply Hsome. rewrite !elem_of_app. destruct t; simpl in Hi; [by apply elem_of_nil in Hi|auto..]. }
    assert (∀ x, procs c !! i = Some x → t ≠ DEF → i ∈ qs_of a b d t ↔ q_type x = t ∧ queued x) as Hm.
    { intros x Hix Ht. destruct (Hall i x Hix) as [[[[? ?] ?] _] _]. by destruct t. }
    split.
    + intros Hi. assert (t ≠ DEF) as Ht by (intros ->; by apply elem_of_nil in Hi).
      split; [done|]. destruct (Hx Hi) as [x Hix]. exists x. split; [done|]. by apply (Hm x).
    + intros (Ht & x & Hix & ?). by apply (Hm x).
  - intros i x Hix. destruct (Hall i x Hix) as [[_ [?|?]] _]; done.
  - intros i j x y. by apply live_pids_inj.
  - intros i x Hix Hl. destruct (Hall i x Hix) as [_ [?|?]]; done.
Qed.
