(* ===== verification/ProcOps.v ===== *)
(** * Behaviour of the operations of proc.c

    What each critical section of proc.c does to a table that satisfies [cinv]:
    total specifications of the loops over the table, and rules to step through
    the code that runs with or takes ptable.lock. *)

From S2P Require Import Prelude Spinlock Queue CStr Proc ProcInv.

Section kern.
Context {E : Type} `{KEnv E}.
Abbreviation K := (kern E).
Implicit Types (s : K) (p : nat).

#[export] Instance L_mach_ok : LensOk (L_mach (E := E)).
Proof. split; by intros; destruct s. Qed.
#[export] Instance L_ptable_ok : LensOk (L_ptable_lock (E := E)).
Proof. split; by intros; destruct s. Qed.
#[export] Instance L_tickslock_ok : LensOk (L_tickslock (E := E)).
Proof. split; by intros; destruct s. Qed.
#[export] Instance L_core_ok : LensOk (L_core (E := E)).
Proof. split; by intros; destruct s. Qed.
#[export] Instance L_ext_ok : LensOk (L_ext (E := E)).
Proof. split; by intros; destruct s. Qed.
#[export] Instance L_mach_ptable : LensDisj (L_mach (E := E)) L_ptable_lock.
Proof. split; by intros; destruct s. Qed.
#[export] Instance L_mach_tickslock : LensDisj (L_mach (E := E)) L_tickslock.
Proof. split; by intros; destruct s. Qed.

(** ** What each part of the code leaves alone *)
Lemma frames_core_acquire lk : frames k_core (acquire_lk (E := E) lk).
Proof. apply frames_acquire; [done|]. by destruct lk. Qed.
Lemma frames_core_release lk : frames k_core (release_lk (E := E) lk).
Proof. apply frames_release; [done|]. by destruct lk. Qed.
Lemma frames_core_holding lk : frames k_core (holding_lk (E := E) lk).
Proof. by apply frames_holding. Qed.
Lemma frames_core_ext {A} (m : M E A) : frames k_core (ext m).
Proof. intros s a s' (t & _ & ->)%zoom_ok. done. Qed.
Lemma frames_core_pushcli : frames k_core (pushcli (L_mach (E := E))).
Proof. by apply frames_pushcli. Qed.
Lemma frames_core_popcli : frames k_core (popcli (L_mach (E := E))).
Proof. by apply frames_popcli. Qed.
Lemma frames_core_mycpu : frames k_core (mycpu (L_mach (E := E))).
Proof. by apply frames_mycpu. Qed.
Lemma frames_core_get_cpu i : frames k_core (get_cpu (L_mach (E := E)) i).
Proof. by apply frames_get_cpu. Qed.
Lemma frames_core_put_cpu i c : frames k_core (put_cpu (L_mach (E := E)) i c).
Proof. by apply frames_put_cpu. Qed.
Lemma frames_core_readeflags : frames k_core (readeflags (L_mach (E := E))).
Proof. by apply frames_readeflags. Qed.
Lemma frames_core_sti : frames k_core (sti (L_mach (E := E))).
Proof. by apply frames_sti. Qed.
#[local] Hint Resolve frames_core_acquire frames_core_release frames_core_holding frames_core_ext
  frames_core_pushcli frames_core_popcli frames_core_mycpu frames_core_get_cpu frames_core_put_cpu
  frames_core_readeflags frames_core_sti : frames.

Lemma frames_inc {A X} (f : core → X) (m : M core A) :
  frames f m → frames (λ s, f (k_core s)) (inc m).
Proof. intros Hm s a s' (t & Ht & ->)%zoom_ok. by eapply Hm. Qed.
Lemma frames_core_proc_at p : frames k_core (proc_at (E := E) p).
Proof.
  intros s a s' (t & Ht & ->)%zoom_ok. unfold get_proc in Ht. inv_bind. by destruct s.
Qed.
Lemma frames_core_getc {A} (f : core → A) : frames k_core (getc (E := E) f).
Proof. intros s a s' (t & Ht & ->)%zoom_ok. injection Ht as _ <-. by destruct s. Qed.
#[local] Hint Resolve frames_core_proc_at frames_core_getc : frames.
Lemma frames_core_myproc : frames k_core (myproc (E := E)).
Proof. unfold myproc. solve_frames. Qed.
#[local] Hint Resolve frames_core_myproc : frames.
Lemma frames_core_curproc : frames k_core (curproc (E := E)).
Proof. unfold curproc. solve_frames. Qed.
#[local] Hint Resolve frames_core_curproc : frames.
Lemma frames_core_sched_begin : frames k_core (sched_begin (E := E)).
Proof. unfold sched_begin. solve_frames. Qed.
Lemma frames_core_sched_end p : frames k_core (sched_end (E := E) p).
Proof. unfold sched_end. solve_frames. Qed.

(** ** The critical section of ptable.lock *)

(** [inside s h c]: the executing CPU holds ptable.lock. *)
Definition inside s (h : hwcpu) (c : cpu) : Prop :=
  cur (k_mach s) h c ∧ hw_if h = false ∧ 1 ≤ ncli c ∧
  held_by (k_ptable_lock s) (this (k_mach s)) = true.
(** [outside s h c]: nobody does. *)
Definition outside s (h : hwcpu) (c : cpu) : Prop :=
  cur (k_mach s) h c ∧ cli_ok h c ∧ lk_locked (k_ptable_lock s) = 0.

Definition enter s (h : hwcpu) (c : cpu) : K :=
  upd L_ptable_lock (taken (k_mach s) (k_ptable_lock s)) (upd L_mach (m_push (k_mach s) h c) s).
Definition leave s (h : hwcpu) (c : cpu) : K :=
  upd L_ptable_lock (freed (k_ptable_lock s)) (upd L_mach (m_pop (k_mach s) h c) s).

Lemma acquire_ptable s h c :
  outside s h c → acquire_lk PtableLock s = Ok tt (enter s h c).
Proof. intros (Hc & Hok & Hl). by apply (acquire_run L_mach L_ptable_lock). Qed.
Lemma release_ptable s h c :
  inside s h c → release_lk PtableLock s = Ok tt (leave s h c).
Proof. intros (Hc & Hif & Hn & Hh). by apply (release_run L_mach L_ptable_lock). Qed.
Lemma enter_inside s h c :
  outside s h c → inside (enter s h c) (if_off h) (push_cpu (hw_if h) c).
Proof.
  intros (Hc & [Hn Hif] & Hl). split; [by apply cur_push|]. split; [done|].
  split; [rewrite push_cpu_ncli; lia|]. unfold held_by. simpl. by rewrite bool_decide_eq_true_2.
Qed.
Lemma inside_core s h c d : inside s h c → inside (upd L_core d s) h c.
Proof. done. Qed.
Lemma holding_inside s h c : inside s h c → holding_lk PtableLock s = Ok true s.
Proof.
  intros (Hc & Hif & Hn & Hh). unfold holding_lk; cbn [L_lock].
  rewrite (holding_nested L_mach L_ptable_lock s h c); [|done|split; [lia|done]|lia].
  simpl. by rewrite Hh.
Qed.
Lemma holding_outside s h c :
  outside s h c →
  holding_lk PtableLock s = Ok false (upd L_mach (at_cpu (k_mach s) h (peek_cpu h c)) s).
Proof.
  intros (Hc & Hok & Hl). unfold holding_lk; cbn [L_lock].
  rewrite (holding_run L_mach L_ptable_lock s h c) by done. unfold held_by. simpl. by rewrite Hl.
Qed.

(** A critical section whose body changes only the core: afterwards the lock is
    free again and the CPU is as before (up to the dead intena). *)
Definition after s (h : hwcpu) (c : cpu) (d : core) : K :=
  upd L_ptable_lock (freed (taken (k_mach s) (k_ptable_lock s)))
    (upd L_mach (at_cpu (k_mach s) h (peek_cpu h c)) (upd L_core d s)).
Lemma critical_section s h c d {A} (body : M core A) (a : A) :
  outside s h c → body (k_core s) = Ok a d →
  (acquire_lk PtableLock ;; r ← inc body; release_lk PtableLock ;; mret r) s = Ok a (after s h c d).
Proof.
  intros Hout Hb. run (acquire_ptable s h c Hout).
  rewrite (bind_run _ _ a _ (upd L_core d (enter s h c))) by (by apply (zoom_run L_core)).
  rewrite (bind_run _ _ tt _ _ (release_ptable _ _ _ (inside_core _ _ _ d (enter_inside _ _ _ Hout)))).
  unfold mret, M_ret. f_equal. unfold leave, after, enter. destruct Hout as (Hc & Hok & _).
  simpl. by rewrite m_pop_push.
Qed.
Lemma critical_section_unit s h c d (body : M core unit) :
  outside s h c → body (k_core s) = Ok tt d →
  (acquire_lk PtableLock ;; inc body ;; release_lk PtableLock) s = Ok tt (after s h c d).
Proof.
  intros Hout Hb. rewrite <- (critical_section s h c d body tt Hout Hb).
  unfold mbind, M_bind. destruct (acquire_lk PtableLock s) as [[] s1| | |]; [|done..].
  destruct (inc body s1) as [[] s2| | |]; [|done..]. by destruct (release_lk PtableLock s2) as [[]| | |].
Qed.
Lemma after_outside s h c d :
  outside s h c → outside (after s h c d) h (peek_cpu h c).
Proof.
  intros (Hc & [Hn Hif] & Hl). split; [|split; [|done]].
  - eapply cur_at_cpu; [done|done|]. unfold peek_cpu. by destruct (ncli c =? 0).
  - unfold cli_ok, peek_cpu. by destruct (ncli c =? 0).
Qed.
End kern.
#[export] Hint Resolve frames_core_acquire frames_core_release frames_core_holding frames_core_ext
  frames_core_pushcli frames_core_popcli frames_core_mycpu frames_core_get_cpu frames_core_put_cpu
  frames_core_readeflags frames_core_sti frames_core_proc_at frames_core_getc frames_core_myproc
  frames_core_curproc frames_core_sched_begin frames_core_sched_end : frames.

(** ** wakeup1 *)

(** The globals other than the table and the queues. *)
Definition core_rest (c : core) : core :=
  let q := mkQueue [] (-1) in
  c <| procs := [] |> <| rr_q := q |> <| lcfs_q := q |> <| bjf_q := q |>.
Lemma core_rest_procs c l : core_rest (c <| procs := l |>) = core_rest c.
Proof. done. Qed.
Lemma core_rest_set_queue t q c : core_rest (set_queue t q c) = core_rest c.
Proof. by destruct t. Qed.

Definition woken_by (ch : channel) (x : proc) : bool :=
  bool_decide (state x = SLEEPING) && bool_decide (chan x = ch).
Definition wake (ch : channel) (x : proc) : proc :=
  if woken_by ch x then x <| state := RUNNABLE |> else x.
Definition woken (ps : list proc) (ch : channel) (t : schedQ) (i : nat) : bool :=
  match ps !! i with Some x => woken_by ch x && bool_decide (q_type x = t) | None => false end.

Lemma woken_by_spec ch x : woken_by ch x = true ↔ state x = SLEEPING ∧ chan x = ch.
Proof. unfold woken_by. by rewrite andb_true_iff, !bool_decide_eq_true. Qed.

(** The processes in the middle of a move do not sleep. *)
Definition ex_awake (ex : exc) (ps : list proc) : Prop :=
  ∀ i x, is_Some (ex !! i) → ps !! i = Some x → state x ≠ SLEEPING.
Lemma ex_awake_empty ps : ex_awake ∅ ps.
Proof. intros i x [b Hb]. by rewrite lookup_empty in Hb. Qed.

(** A sleeping process is put into its queue and made runnable. *)
Lemma enqueue_wake_spec ex c qs p x :
  cinv ex c qs → ex !! p = None → procs c !! p = Some x → state x = SLEEPING →
  ∃ q', enqueue_q (q_type x) p c = Ok tt (set_queue (q_type x) q' c) ∧
    cinv ex (set_queue (q_type x) q' c
       <| procs := <[p := x <| state := RUNNABLE |>]> (procs c) |>) (qpush (q_type x) p qs).
Proof.
  intros Hc Hex Hp Hst.
  assert (cinv (<[p := false]> ex) c qs) as H1.
  { eapply cinv_open; [done..| |]; unfold live, queued; rewrite Hst; naive_solver. }
  destruct (enqueue_q_spec _ _ _ _ _ H1 (lookup_insert_eq _ _ _) Hp) as (q' & Hrun & H2).
  exists q'. split; [done|]. rewrite insert_insert_eq in H2.
  rewrite <- (delete_insert_id ex p true Hex).
  eapply (cinv_close _ _ _ p (x <| state := RUNNABLE |>) true).
  - pose proof (cinv_write_ex _ _ _ p true x (x <| state := RUNNABLE |>) H2
                  (lookup_insert_eq _ _ _)) as H3.
    rewrite set_queue_procs in H3. apply H3; [done|done| |done|done].
    intros Hf. exfalso. pose proof (ci_flag Hc _ _ Hp Hf) as Hr. by rewrite Hst in Hr.
  - apply lookup_insert_eq.
  - simpl. rewrite list_lookup_insert_eq; [done|]. by eapply lookup_lt_Some.
  - intros _. unfold queued. naive_solver.
Qed.

Lemma wakeup1_one_spec ex c qs ch p x :
  cinv ex c qs → ex_awake ex (procs c) → procs c !! p = Some x →
  ∃ c' qs', wakeup1_one ch p c = Ok tt c' ∧ cinv ex c' qs' ∧ core_rest c' = core_rest c ∧
    procs c' = <[p := wake ch x]> (procs c) ∧
    ∀ t, t ≠ DEF → qs' t = qs t ++ filter (λ i, woken (procs c) ch t i = true) [p].
Proof.
  intros Hc Hex Hp. unfold wakeup1_one. run (get_proc_run _ _ _ Hp). fold (woken_by ch x).
  unfold wake. destruct (woken_by ch x) eqn:Hw.
  - pose proof (proj1 (woken_by_spec _ _) Hw) as [Hst Hch].
    destruct (enqueue_wake_spec ex c qs p x) as (q' & Hrun & Hc'); [done| |done..|].
    { destruct (ex !! p) eqn:E; [|done]. by destruct (Hex p x). }
    run Hrun. rewrite (upd_proc_run _ p x) by (by rewrite set_queue_procs).
    rewrite set_queue_procs. eexists _, (qpush (q_type x) p qs).
    split; [done|]. split; [done|]. split; [|split; [done|]].
    + rewrite core_rest_procs. apply core_rest_set_queue.
    + intros t Ht. unfold qpush. cbn [filter list_filter].
      unfold woken. rewrite Hp, Hw. simpl.
      destruct (decide (q_type x = t)) as [<-|Hne].
      * rewrite decide_True by done. by rewrite decide_True by (by rewrite bool_decide_eq_true_2).
      * rewrite decide_False by naive_solver. rewrite decide_False by (by rewrite bool_decide_eq_false_2).
        by rewrite app_nil_r.
  - exists c, qs. split; [done|]. split; [done|]. split; [done|]. split.
    + by rewrite list_insert_id.
    + intros t Ht. cbn [filter list_filter]. unfold woken. rewrite Hp, Hw. simpl. by rewrite app_nil_r.
Qed.
Lemma ex_awake_wake ex ch ps p x :
  ex_awake ex ps → ps !! p = Some x → ex_awake ex (<[p := wake ch x]> ps).
Proof.
  intros Hex Hp i y Hi [[<- <-]|[? ?]]%lookup_insert_Some_inv; [|by eapply Hex].
  unfold wake. destruct (woken_by ch x); [done|]. by eapply Hex.
Qed.

Lemma wakeup1_loop ex c qs ch l :
  cinv ex c qs → ex_awake ex (procs c) → NoDup l → Forall (λ p, p < Z.to_nat NPROC)%nat l →
  ∃ c' qs', for_each l (wakeup1_one ch) c = Ok tt c' ∧ cinv ex c' qs' ∧ core_rest c' = core_rest c ∧
    (∀ i, procs c' !! i = (if decide (i ∈ l) then wake ch <$> procs c !! i else procs c !! i)) ∧
    ∀ t, t ≠ DEF → qs' t = qs t ++ filter (λ i, woken (procs c) ch t i = true) l.
Proof.
  revert c qs. induction l as [|p l IH]; intros c qs Hc Hex Hnd Hb.
  - exists c, qs. split; [done|]. split; [done|]. split; [done|]. split.
    + intros i. by rewrite decide_False by (by intros ?%elem_of_nil).
    + intros. by rewrite app_nil_r.
  - apply NoDup_cons in Hnd as [Hpl Hnd]. apply Forall_cons in Hb as [Hp Hb].
    destruct (lookup_lt_is_Some_2 (procs c) p) as [x Hx].
    { pose proof (ci_len Hc). lia. }
    destruct (wakeup1_one_spec ex c qs ch p x) as (c1 & qs1 & Hr1 & Hc1 & Hf1 & Hp1 & Hq1); [done..|].
    destruct (IH c1 qs1) as (c2 & qs2 & Hr2 & Hc2 & Hf2 & Hp2 & Hq2);
      [done|by rewrite Hp1; apply ex_awake_wake|done|done|].
    exists c2, qs2. simpl. run Hr1. split; [done|]. split; [done|]. split; [congruence|].
    assert (p < length (procs c))%nat by (by eapply lookup_lt_Some).
    split.
    + intros i. rewrite Hp2, Hp1. destruct (decide (i = p)) as [->|Hip].
      * rewrite decide_False by done. rewrite decide_True by (apply elem_of_cons; by left).
        by rewrite list_lookup_insert_eq, Hx.
      * rewrite list_lookup_insert_ne by done.
        destruct (decide (i ∈ l)); [rewrite decide_True by (apply elem_of_cons; by right)|
                                    rewrite decide_False by (rewrite elem_of_cons; naive_solver)]; done.
    + intros t Ht. rewrite Hq2, Hq1 by done. rewrite <- app_assoc. f_equal.
      change (p :: l) with ([p] ++ l). rewrite filter_app. f_equal.
      apply filter_ext_in. intros i Hi. unfold woken. rewrite Hp1.
      rewrite list_lookup_insert_ne by (intros ->; done). done.
Qed.

Lemma all_procs_nodup : NoDup all_procs.
Proof. apply NoDup_seq. Qed.
Lemma all_procs_elem i : i ∈ all_procs ↔ (i < Z.to_nat NPROC)%nat.
Proof. unfold all_procs. rewrite elem_of_seq. lia. Qed.
Lemma all_procs_bound : Forall (λ p, p < Z.to_nat NPROC)%nat all_procs.
Proof. apply Forall_forall. intros i. apply all_procs_elem. Qed.

(** wakeup1 makes runnable exactly the processes that sleep on the channel, and
    appends them, in table order, to the queues of their kinds. *)
Lemma wakeup1_spec ex c qs ch :
  cinv ex c qs → ex_awake ex (procs c) →
  ∃ c' qs', wakeup1 ch c = Ok tt c' ∧ cinv ex c' qs' ∧ core_rest c' = core_rest c ∧
    procs c' = wake ch <$> procs c ∧
    ∀ t, t ≠ DEF → qs' t = qs t ++ filter (λ i, woken (procs c) ch t i = true) all_procs.
Proof.
  intros Hc Hex. destruct (wakeup1_loop ex c qs ch all_procs Hc Hex all_procs_nodup all_procs_bound)
    as (c' & qs' & Hr & Hc' & Hf & Hp & Hq).
  exists c', qs'. split; [done|]. split; [done|]. split; [done|]. split; [|done].
  apply list_eq. intros i. rewrite Hp, list_lookup_fmap. case_decide as Hi; [done|].
  rewrite all_procs_elem in Hi. pose proof (ci_len Hc).
  rewrite (lookup_ge_None_2 (procs c)); [done|]. lia.
Qed.

(** ** exit's loop over the children *)
Definition adopt (cp : nat) (ini : option nat) (x : proc) : proc :=
  if bool_decide (parent x = Some cp) then x <| parent := ini |> else x.
Definition dead_child (cp : nat) (x : proc) : bool :=
  bool_decide (parent x = Some cp) && bool_decide (state x = ZOMBIE).
Definition wake_if (w : bool) (ch : channel) (x : proc) : proc := if w then wake ch x else x.

Lemma wake_idem ch x : wake ch (wake ch x) = wake ch x.
Proof.
  unfold wake. destruct (woken_by ch x) eqn:Hw; [|by rewrite Hw].
  unfold woken_by. simpl. done.
Qed.
Lemma wake_if_wake_if w1 w2 ch x : wake_if w2 ch (wake_if w1 ch x) = wake_if (w1 || w2) ch x.
Proof. destruct w1, w2; simpl; [apply wake_idem|done..]. Qed.
Lemma adopt_wake_if cp ini w ch x : adopt cp ini (wake_if w ch x) = wake_if w ch (adopt cp ini x).
Proof.
  destruct w; [|done]. unfold wake_if, wake. destruct (woken_by ch x) eqn:Hw.
  - unfold adopt. destruct (bool_decide (parent x = Some cp)) eqn:Hb; simpl; rewrite Hb;
      unfold woken_by in *; simpl; by rewrite Hw.
  - unfold adopt. destruct (bool_decide (parent x = Some cp)); unfold woken_by in *; simpl; by rewrite Hw.
Qed.
Lemma dead_child_wake_if cp w ch x : dead_child cp (wake_if w ch x) = dead_child cp x.
Proof.
  destruct w; [|done]. unfold dead_child, wake_if, wake. destruct (woken_by ch x) eqn:Hw; [|done].
  apply woken_by_spec in Hw as [-> _]. done.
Qed.
Lemma wake_if_awake ex ps w ch : ex_awake ex ps → ex_awake ex (wake_if w ch <$> ps).
Proof.
  intros Hex i y Hi. rewrite list_lookup_fmap, fmap_Some. intros (x & Hx & ->).
  unfold wake_if, wake. destruct w; [destruct (woken_by ch x)|]; [done|by eapply Hex..].
Qed.
Lemma same_sched_adopt cp ini x : same_sched x (adopt cp ini x).
Proof. unfold adopt. by destruct (bool_decide (parent x = Some cp)). Qed.

Lemma reparent_one_spec ex c qs cp ini p x :
  cinv ex c qs → ex_awake ex (procs c) → procs c !! p = Some x →
  ∃ c' qs', exit_reparent_one cp ini p c = Ok tt c' ∧ cinv ex c' qs' ∧ core_rest c' = core_rest c ∧
    procs c' = wake_if (dead_child cp x) (proc_chan ini) <$> <[p := adopt cp ini x]> (procs c).
Proof.
  intros Hc Hex Hp. unfold exit_reparent_one. run (get_proc_run _ _ _ Hp).
  assert (p < length (procs c))%nat by (by eapply lookup_lt_Some).
  pose proof (cinv_keep _ _ _ _ _ _ Hc Hp (same_sched_adopt cp ini x)) as Hc1.
  assert (ex_awake ex (<[p := adopt cp ini x]> (procs c))) as Hex1.
  { intros i y Hi [[<- <-]|[? ?]]%lookup_insert_Some_inv; [|by eapply Hex].
    rewrite (proj1 (same_sched_adopt cp ini x)). by eapply Hex. }
  unfold dead_child. unfold adopt in *.
  destruct (bool_decide (parent x = Some cp)); simpl in *.
  - run (upd_proc_run c p x (λ y, y <| parent := ini |>) Hp).
    set (x1 := x <| parent := ini |>) in *. set (c1 := c <| procs := _ |>) in *.
    run (get_proc_run c1 p x1 ltac:(unfold c1; simpl; by rewrite list_lookup_insert_eq)).
    change (state x1) with (state x).
    destruct (bool_decide (state x = ZOMBIE)); simpl.
    + destruct (wakeup1_spec ex c1 qs (proc_chan ini) Hc1 Hex1) as (c2 & qs2 & Hr & H2 & Hf & Hps & _).
      exists c2, qs2. split; [done|]. split; [done|]. split; [by rewrite Hf|done].
    + exists c1, qs. split; [done|]. split; [done|]. split; [done|]. by rewrite list_fmap_id.
  - exists c, qs. split; [done|]. split; [done|]. split; [done|].
    by rewrite list_insert_id, list_fmap_id.
Qed.

Lemma reparent_loop ex c qs cp ini l :
  cinv ex c qs → ex_awake ex (procs c) → NoDup l → Forall (λ p, p < Z.to_nat NPROC)%nat l →
  ∃ c' qs', for_each l (exit_reparent_one cp ini) c = Ok tt c' ∧ cinv ex c' qs' ∧
    core_rest c' = core_rest c ∧
    ∀ i, procs c' !! i =
      wake_if (existsb (λ p, from_option (dead_child cp) false (procs c !! p)) l) (proc_chan ini) <$>
        ((if decide (i ∈ l) then adopt cp ini else id) <$> procs c !! i).
Proof.
  revert c qs. induction l as [|p l IH]; intros c qs Hc Hex Hnd Hb.
  - exists c, qs. split; [done|]. split; [done|]. split; [done|]. intros i.
    rewrite decide_False by (by intros ?%elem_of_nil). by rewrite !option_fmap_id.
  - apply NoDup_cons in Hnd as [Hpl Hnd]. apply Forall_cons in Hb as [Hp Hb].
    destruct (lookup_lt_is_Some_2 (procs c) p) as [x Hx]; [pose proof (ci_len Hc); lia|].
    assert (p < length (procs c))%nat by (by eapply lookup_lt_Some).
    destruct (reparent_one_spec ex c qs cp ini p x) as (c1 & qs1 & Hr1 & Hc1 & Hf1 & Hp1); [done..|].
    destruct (IH c1 qs1) as (c2 & qs2 & Hr2 & Hc2 & Hf2 & Hp2); [done| |done..|].
    { rewrite Hp1. apply wake_if_awake. intros i y Hi [[<- <-]|[? ?]]%lookup_insert_Some_inv; [|by eapply Hex].
      rewrite (proj1 (same_sched_adopt cp ini x)). by eapply Hex. }
    exists c2, qs2. cbn [for_each]. run Hr1. split; [done|]. split; [done|]. split; [congruence|].
    assert (existsb (λ p, from_option (dead_child cp) false (procs c1 !! p)) l =
            existsb (λ p, from_option (dead_child cp) false (procs c !! p)) l) as Hw.
    { clear -Hp1 Hpl. induction l as [|q l IHl]; [done|]. simpl.
      rewrite IHl by (intros ?; apply Hpl, elem_of_cons; by right). f_equal.
      rewrite Hp1, list_lookup_fmap, list_lookup_insert_ne
        by (intros ->; apply Hpl, elem_of_cons; by left).
      destruct (procs c !! q); simpl; [apply dead_child_wake_if|done]. }
    cbn [existsb]. rewrite Hx. intros i. cbn [from_option]. rewrite Hp2, Hw, Hp1, list_lookup_fmap.
    destruct (decide (i = p)) as [->|Hip].
    + rewrite decide_False by done. rewrite decide_True by (apply elem_of_cons; by left).
      rewrite list_lookup_insert_eq, Hx by done. simpl. by rewrite wake_if_wake_if.
    + rewrite list_lookup_insert_ne by done. rewrite <- !option_fmap_compose.
      destruct (procs c !! i) as [y|]; [simpl; f_equal|done].
      destruct (decide (i ∈ l)); [rewrite decide_True by (apply elem_of_cons; by right)|
                                  rewrite decide_False by (rewrite elem_of_cons; naive_solver)].
      * rewrite adopt_wake_if. apply wake_if_wake_if.
      * apply wake_if_wake_if.
Qed.

(** Every child of the exiting process goes to init, which is woken when one of
    them is a zombie. *)
Lemma reparent_spec ex c qs cp ini :
  cinv ex c qs → ex_awake ex (procs c) →
  ∃ c' qs', exit_reparent cp ini c = Ok tt c' ∧ cinv ex c' qs' ∧ core_rest c' = core_rest c ∧
    procs c' = wake_if (existsb (dead_child cp) (procs c)) (proc_chan ini) <$>
                 (adopt cp ini <$> procs c).
Proof.
  intros Hc Hex. destruct (reparent_loop ex c qs cp ini all_procs Hc Hex all_procs_nodup all_procs_bound)
    as (c' & qs' & Hr & Hc' & Hf & Hp).
  exists c', qs'. split; [done|]. split; [done|]. split; [done|].
  assert (existsb (λ p, from_option (dead_child cp) false (procs c !! p)) all_procs =
          existsb (dead_child cp) (procs c)) as Hw.
  { apply eq_true_iff_eq. rewrite !existsb_exists. split.
    - intros (i & _ & Hi). destruct (procs c !! i) as [x|] eqn:Hx; [|done]. simpl in Hi.
      exists x. split; [|done]. apply list_elem_of_In. by eapply list_elem_of_lookup_2.
    - intros (x & Hx & Hd). apply list_elem_of_In, list_elem_of_lookup in Hx as [i Hi].
      exists i. rewrite Hi. split; [|done]. apply list_elem_of_In, all_procs_elem.
      pose proof (ci_len Hc). apply lookup_lt_Some in Hi. lia. }
  apply list_eq. intros i. rewrite Hp, Hw, !list_lookup_fmap. case_decide as Hi; [done|].
  rewrite all_procs_elem in Hi. pose proof (ci_len Hc).
  rewrite (lookup_ge_None_2 (procs c)); [done|]. lia.
Qed.
