(* ===== verification/Choice.v ===== *)
(** * Which process the scheduler runs (the queue branches of scheduler())

    Each queue branch computes a function of the queue's abstract list and of the
    states of its entries, whatever those are: round robin takes the entry at the
    counter or, if it is running, the first runnable one after it in cyclic order;
    LCFS the last entry or, if it is running, the last runnable one before it;
    both panic when that entry is neither.  The BJF branch finds the runnable entry
    of least rank among all but the last one, and then runs nothing. *)

From S2P Require Import Prelude Spinlock Queue CStr Proc ProcInv.
From Stdlib Require Import SpecFloat.

Definition runnable (c : core) (i : nat) : bool :=
  match procs c !! i with Some x => bool_decide (state x = RUNNABLE) | None => false end.

Lemma runnable_lookup c i x : procs c !! i = Some x → runnable c i = bool_decide (state x = RUNNABLE).
Proof. unfold runnable. by intros ->. Qed.

Definition state_of (c : core) (i : nat) : option procstate := state <$> procs c !! i.

(** Every entry points into the process table. *)
Definition entries (c : core) (l : list nat) : Prop := ∀ p, p ∈ l → is_Some (procs c !! p).
Lemma entries_lookup c l i p : entries c l → l !! i = Some p → ∃ x, procs c !! p = Some x.
Proof. intros Hv Hp. apply Hv. by eapply list_elem_of_lookup_2. Qed.

(** The members of a queue of a table that satisfies the invariant are runnable
    or run on some CPU. *)
Lemma member_state c qs t i :
  cinv ∅ c qs → i ∈ qs t →
  ∃ x, procs c !! i = Some x ∧ q_type x = t ∧ (state x = RUNNABLE ∨ state x = RUNNING).
Proof.
  intros Hc Hi. apply (ci_mem Hc) in Hi as (_ & x & Hx & Hq & Hin).
  rewrite inq_None in Hin by done. exists x. unfold queued in Hin. naive_solver.
Qed.
Lemma cinv_entries c qs t : cinv ∅ c qs → entries c (qs t).
Proof. intros Hc p Hp. destruct (member_state _ _ _ _ Hc Hp) as (x & Hx & _). by exists x. Qed.

(** Read an entry of a queue that represents [l]. *)
Lemma entry_run what q l (c : core) i p :
  repr q l → 0 ≤ i → l !! Z.to_nat i = Some p → array_get what (q_proc q) i c = Ok (Some p) c.
Proof. intros Hr Hi Hl. apply array_get_ok; [done|]. by eapply repr_lookup. Qed.

(** What a branch does after it looked at the entry [p]: run it, look for a runnable
    one among [others], or panic. *)
Definition branch_result (c : core) (p : nat) (others : option nat) : outcome core (option nat) :=
  match state_of c p with
  | Some RUNNABLE => Ok (Some p) c
  | Some RUNNING => Ok others c
  | _ => Panic "No runnable process"
  end.

Lemma runnable_state c p : runnable c p = bool_decide (state_of c p = Some RUNNABLE).
Proof.
  unfold runnable, state_of. destruct (procs c !! p) as [x|]; [|done]. simpl.
  apply bool_decide_ext. split; [by intros ->|by intros [= ->]].
Qed.
Lemma branch_result_live c p rest :
  state_of c p = Some RUNNABLE ∨ state_of c p = Some RUNNING →
  branch_result c p (head (filter (λ p, runnable c p = true) rest)) =
  Ok (head (filter (λ p, runnable c p = true) (p :: rest))) c.
Proof.
  unfold branch_result. pose proof (runnable_state c p) as Hp. intros [E|E]; rewrite E in *.
  - by rewrite filter_cons_True.
  - by rewrite filter_cons_False by (by rewrite Hp).
Qed.

(** The entries in the order in which the branch looks at them: from the one at the
    counter on, the index reduced modulo 2^32 and then modulo the length. *)
Definition rr_order (cnt : Z) (m : list nat) : list nat :=
  (λ k, m !!! Z.to_nat (u32 (cnt + Z.of_nat k) mod Z.of_nat (length m))) <$> seq 0 (length m).

Lemma rr_entry (l : list nat) (j : Z) :
  l ≠ [] → 0 ≤ j mod Z.of_nat (length l) ∧
  l !! Z.to_nat (j mod Z.of_nat (length l)) = Some (l !!! Z.to_nat (j mod Z.of_nat (length l))).
Proof.
  intros Hne. assert (0 < length l)%nat by (destruct l; [done|simpl; lia]).
  pose proof (Z.mod_pos_bound j (Z.of_nat (length l)) ltac:(lia)).
  split; [lia|]. apply list_lookup_lookup_total_lt. lia.
Qed.

(** As long as the counter does not wrap within one turn, the order is the cyclic one. *)
Lemma rr_order_rotate (l : list nat) cnt :
  0 ≤ cnt → cnt + Z.of_nat (length l) ≤ 2 ^ 32 → rr_order cnt l = rotate (Z.to_nat cnt) l.
Proof.
  intros H0 Hw. unfold rr_order. apply list_eq_same_length with (length l);
    [by rewrite length_rotate|by rewrite length_fmap, length_seq|].
  intros k x y Hk Hx Hy. rewrite list_lookup_fmap, lookup_seq_lt in Hx by done. injection Hx as <-.
  assert (l ≠ []) as Hne by (intros ->; simpl in Hk; lia).
  rewrite lookup_rotate_r in Hy by done. unfold rotate_nat_add in Hy. rewrite Z2Nat.id in Hy by done.
  rewrite u32_small by lia. by apply list_lookup_total_correct.
Qed.

Section rr.
Context (c : core) (q : queue) (l : list nat) (Hr : repr q l) (Hv : entries c l).

Lemma rr_scan_spec i n :
  l ≠ [] → 0 ≤ i →
  rr_scan q i n c =
  Ok (head (filter (λ p, runnable c p = true)
       ((λ k, l !!! Z.to_nat (u32 (rr_counter c + Z.of_nat k) mod Z.of_nat (length l))) <$>
          seq (Z.to_nat (i + 1)) n))) c.
Proof using Hr Hv.
  intros Hne. revert i. induction n as [|n IH]; intros i Hi; [done|].
  cbn [rr_scan seq fmap list_fmap]. rewrite bind_run with (a := rr_counter c) (s1 := c) by done.
  assert (q_pi q + 1 = Z.of_nat (length l)) as -> by (destruct Hr as (_ & -> & _); lia).
  replace (rr_counter c + Z.of_nat (Z.to_nat (i + 1))) with (rr_counter c + i + 1) by lia.
  destruct (rr_entry l (u32 (rr_counter c + i + 1)) Hne) as [Hm Hl].
  run (entry_run "rr_q.proc" _ _ c _ _ Hr Hm Hl).
  destruct (entries_lookup _ _ _ _ Hv Hl) as [x Hx]. run (get_proc_run _ _ _ Hx).
  pose proof (runnable_lookup _ _ _ Hx) as Hb. destruct (bool_decide (state x = RUNNABLE)).
  - by rewrite filter_cons_True.
  - rewrite filter_cons_False by (by rewrite Hb). rewrite IH by lia.
    by replace (Z.to_nat (i + 1 + 1)) with (S (Z.to_nat (i + 1))) by lia.
Qed.

Lemma choose_rr_run :
  l ≠ [] → 0 ≤ rr_counter c < 2 ^ 32 →
  ∃ p rest, rr_order (rr_counter c) l = p :: rest ∧
    choose_rr q c = branch_result c p (head (filter (λ p, runnable c p = true) rest)).
Proof using Hr Hv.
  intros Hne H0. unfold rr_order, choose_rr. rewrite bind_run with (a := rr_counter c) (s1 := c) by done.
  assert (∃ n, length l = S n) as [n Hn] by (destruct l as [|? l']; [done|by exists (length l')]).
  assert (q_pi q = Z.of_nat n) as Hpi by (destruct Hr as (_ & -> & _); lia).
  replace (seq 0 (length l)) with (seq 0 (S n)) by (by rewrite Hn). cbn [seq fmap list_fmap]. eexists _, _. split; [done|].
  rewrite Z.add_0_r, u32_small by done.
  replace (q_pi q + 1) with (Z.of_nat (length l)) by lia.
  destruct (rr_entry l (rr_counter c) Hne) as [Hm Hl].
  run (entry_run "rr_q.proc" _ _ c _ _ Hr Hm Hl).
  destruct (entries_lookup _ _ _ _ Hv Hl) as [x Hx]. run (get_proc_run _ _ _ Hx).
  unfold branch_result, state_of. rewrite Hx. simpl.
  destruct (state x); try done. rewrite rr_scan_spec by done. by rewrite Hpi, Nat2Z.id.
Qed.
End rr.

Section lcfs.
Context (c : core) (q : queue) (l : list nat) (Hr : repr q l) (Hv : entries c l).

Lemma lcfs_scan_spec i :
  (i ≤ length l)%nat →
  lcfs_scan q i c = Ok (last (filter (λ p, runnable c p = true) (take i l))) c.
Proof using Hr Hv.
  induction i as [|i IH]; intros Hi; [done|]. cbn [lcfs_scan].
  destruct (lookup_lt_is_Some_2 l i) as [p Hp]; [lia|].
  run (entry_run "lcfs_q.proc" _ _ c (Z.of_nat i) p Hr ltac:(lia) ltac:(by rewrite Nat2Z.id)).
  destruct (entries_lookup _ _ _ _ Hv Hp) as [x Hx].
  run (get_proc_run _ _ _ Hx). rewrite (take_S_r _ _ _ Hp), filter_app.
  pose proof (runnable_lookup _ _ _ Hx) as Hb. destruct (bool_decide (state x = RUNNABLE)).
  - rewrite filter_cons_True by done. cbn [filter list_filter]. by rewrite last_snoc.
  - rewrite filter_cons_False by (by rewrite Hb). cbn [filter list_filter]. rewrite app_nil_r. apply IH. lia.
Qed.

Lemma choose_lcfs_run m p :
  l = m ++ [p] →
  choose_lcfs q c = branch_result c p (last (filter (λ p, runnable c p = true) m)).
Proof using Hr Hv.
  intros El. unfold choose_lcfs.
  assert (q_pi q = Z.of_nat (length m)) as Hpi by (destruct Hr as (_ & -> & _); rewrite El, length_app; simpl; lia).
  assert (l !! length m = Some p) as Hp by (rewrite El; by apply list_lookup_middle).
  rewrite Hpi. run (entry_run "lcfs_q.proc" _ _ c (Z.of_nat (length m)) p Hr ltac:(lia) ltac:(by rewrite Nat2Z.id)).
  destruct (entries_lookup _ _ _ _ Hv Hp) as [x Hx]. run (get_proc_run _ _ _ Hx).
  unfold branch_result, state_of. rewrite Hx. simpl. destruct (state x); try done.
  rewrite Nat2Z.id, lcfs_scan_spec by (rewrite El, length_app; lia).
  by rewrite El, take_app_length.
Qed.
End lcfs.

(** ** The least rank *)

(** Less-than on floating-point numbers is transitive (a comparison with a NaN fails). *)
Lemma SFltb_trans x y z : SFltb x y = true → SFltb y z = true → SFltb x z = true.
Proof.
  unfold SFltb, SFcompare.
  destruct x as [[]|[]| |[] mx ex]; destruct y as [[]|[]| |[] my ey]; try done;
    destruct z as [[]|[]| |[] mz ez]; try done.
  all: change (Pos.compare_cont Eq) with Pos.compare.
  all: destruct (Z.compare_spec ex ey); try done; destruct (Z.compare_spec ey ez); try done;
    destruct (Z.compare_spec ex ez); try lia; try done.
  all: destruct (Pos.compare_spec mx my); try done; destruct (Pos.compare_spec my mz); try done;
    destruct (Pos.compare_spec mx mz); try lia; done.
Qed.
Lemma SFltb_irrefl x : SFltb x x ≠ true.
Proof.
  unfold SFltb, SFcompare. destruct x as [[]|[]| |[] m e]; try done.
  all: rewrite Z.compare_refl; change (Pos.compare_cont Eq) with Pos.compare; by rewrite Pos.compare_refl.
Qed.

Definition rank (c : core) (i : nat) : spec_float :=
  match procs c !! i with Some x => float_of_int (calculate_rank x) | None => S754_nan end.

(** [o] is a runnable process of least rank among those of [m] that rank below
    999999999, [None] if there are none. *)
Definition least_rank (c : core) (m : list nat) (o : option nat) : Prop :=
  match o with
  | None => ∀ p, p ∈ m → runnable c p = true → SFltb (rank c p) worst_rank_init = false
  | Some p =>
      p ∈ m ∧ runnable c p = true ∧ SFltb (rank c p) worst_rank_init = true ∧
      ∀ p', p' ∈ m → runnable c p' = true → SFltb (rank c p') (rank c p) = false
  end.

(** The loop's variables after it has seen the entries of [m]. *)
Definition bjf_seen (c : core) (m : list nat) (acc : bool * option nat * spec_float) : Prop :=
  let '(found, o, w) := acc in
  found = false ∧ w = from_option (rank c) worst_rank_init o ∧ least_rank c m o.

Lemma bjf_seen_skip c m p acc : runnable c p = false → bjf_seen c m acc → bjf_seen c (m ++ [p]) acc.
Proof.
  destruct acc as [[found o] w]. intros Hp (-> & -> & Hl). split; [done|]. split; [done|].
  destruct o as [p0|]; simpl in *.
  - destruct Hl as (H1 & H2 & H3 & H4). split_and!; [set_solver|done..|].
    intros p' [Hin| ->%list_elem_of_singleton]%elem_of_app; [by apply H4|congruence].
  - intros p' [Hin| ->%list_elem_of_singleton]%elem_of_app; [by apply Hl|congruence].
Qed.
Lemma bjf_seen_step c m p found o w :
  runnable c p = true → bjf_seen c m (found, o, w) →
  bjf_seen c (m ++ [p]) (if SFltb (rank c p) w then (found, Some p, rank c p) else (found, o, w)).
Proof.
  intros Hp (-> & -> & Hl). destruct (SFltb _ _) eqn:Hlt; (split; [done|]; split; [done|]).
  - assert (∀ p', p' ∈ m → runnable c p' = true →
      SFltb (rank c p') (from_option (rank c) worst_rank_init o) = false) as Hm
      by (destruct o; simpl in *; naive_solver).
    simpl. split_and!; [set_solver|done|..].
    + destruct o as [p0|]; [|done]. destruct Hl as (_ & _ & H3 & _). by eapply SFltb_trans.
    + intros p' [Hin| ->%list_elem_of_singleton]%elem_of_app Hr'.
      * destruct (SFltb (rank c p') (rank c p)) eqn:E; [|done].
        pose proof (SFltb_trans _ _ _ E Hlt) as E'. by rewrite (Hm p' Hin Hr') in E'.
      * destruct (SFltb (rank c p) (rank c p)) eqn:E; [|done]. by apply SFltb_irrefl in E.
  - destruct o as [p0|]; simpl in *.
    + destruct Hl as (H1 & H2 & H3 & H4). split_and!; [set_solver|done..|].
      intros p' [Hin| ->%list_elem_of_singleton]%elem_of_app; [by apply H4|done].
    + intros p' [Hin| ->%list_elem_of_singleton]%elem_of_app; [by apply Hl|done].
Qed.

Lemma bjf_scan_spec c q l n : ∀ k acc,
  repr q l → entries c l → (k + n ≤ length l)%nat → bjf_seen c (take k l) acc →
  ∃ acc', bjf_scan q (Z.of_nat k) n acc c = Ok acc' c ∧ bjf_seen c (take (k + n) l) acc'.
Proof.
  induction n as [|n IH]; intros k acc Hr Hv Hk Hs; [exists acc; by rewrite Nat.add_0_r|].
  cbn [bjf_scan]. destruct (lookup_lt_is_Some_2 l k) as [p Hp]; [lia|].
  run (entry_run "bjf_q.proc" _ _ c (Z.of_nat k) p Hr ltac:(lia) ltac:(by rewrite Nat2Z.id)).
  destruct (entries_lookup _ _ _ _ Hv Hp) as [x Hx]. run (get_proc_run _ _ _ Hx).
  replace (Z.of_nat k + 1) with (Z.of_nat (S k)) by lia. rewrite <- Nat.add_succ_comm.
  pose proof (runnable_lookup _ _ _ Hx) as Hb. destruct (bool_decide (state x = RUNNABLE)); simpl.
  - destruct acc as [[found o] w]. apply IH; [done|done|lia|]. rewrite (take_S_r _ _ _ Hp).
    replace (float_of_int (calculate_rank x)) with (rank c p) by (unfold rank; by rewrite Hx).
    by apply bjf_seen_step.
  - apply IH; [done|done|lia|]. rewrite (take_S_r _ _ _ Hp). by apply bjf_seen_skip.
Qed.

(** C4: The round-robin branch of the scheduler, for a non-empty queue whose
    entries may be in any state.  It looks at the entry at the counter (modulo the
    length): if that process is RUNNABLE, it is chosen; if it is RUNNING on another
    CPU, the first RUNNABLE entry after it is chosen, in the order of the indices
    [(rr_counter + i) % length] computed in 32 bits, or none; in any other state the
    kernel panics.  That order is the cyclic order of the queue unless the counter
    wraps around within the turn.  If all entries are RUNNABLE or RUNNING, the branch
    does not panic and chooses the first RUNNABLE one in that order. *)
Theorem rr_choice_correct c q l :
  repr q l → l ≠ [] → entries c l → 0 ≤ rr_counter c < 2 ^ 32 →
  (∃ p rest, rr_order (rr_counter c) l = p :: rest ∧
     choose_rr q c = branch_result c p (head (filter (λ p, runnable c p = true) rest))) ∧
  (rr_counter c + Z.of_nat (length l) ≤ 2 ^ 32 →
     rr_order (rr_counter c) l = rotate (Z.to_nat (rr_counter c)) l) ∧
  ((∀ p, p ∈ l → state_of c p = Some RUNNABLE ∨ state_of c p = Some RUNNING) →
     choose_rr q c = Ok (head (filter (λ p, runnable c p = true) (rr_order (rr_counter c) l))) c).
Proof.
  intros Hr Hne Hv H0. destruct (choose_rr_run c q l Hr Hv Hne H0) as (p & rest & Ho & Hc).
  split; [by exists p, rest|]. split; [intros Hw; apply rr_order_rotate; lia|].
  intros Hst. rewrite Hc, Ho. apply branch_result_live. apply Hst.
  assert (p ∈ rr_order (rr_counter c) l) as Hp by (rewrite Ho; apply elem_of_cons; by left).
  unfold rr_order in Hp. apply list_elem_of_fmap in Hp as (k & -> & _).
  destruct (rr_entry l (u32 (rr_counter c + Z.of_nat k)) Hne) as [_ Hl]. by eapply list_elem_of_lookup_2.
Qed.

(** C5: The LCFS branch of the scheduler, for a queue [m ++ [p]] whose entries may
    be in any state: the process [p] that entered last is chosen if it is RUNNABLE;
    if it is RUNNING on another CPU, the last RUNNABLE one of [m], or none, is
    chosen; in any other state of [p] the kernel panics.  If all entries are
    RUNNABLE or RUNNING, the branch does not panic and chooses the RUNNABLE process
    that entered last. *)
Theorem lcfs_choice_correct c q m p :
  repr q (m ++ [p]) → entries c (m ++ [p]) →
  choose_lcfs q c = branch_result c p (last (filter (λ p, runnable c p = true) m)) ∧
  ((∀ i, i ∈ m ++ [p] → state_of c i = Some RUNNABLE ∨ state_of c i = Some RUNNING) →
     choose_lcfs q c = Ok (last (filter (λ p, runnable c p = true) (m ++ [p]))) c).
Proof.
  intros Hr Hv. pose proof (choose_lcfs_run c q _ Hr Hv m p eq_refl) as Hc. split; [done|].
  intros Hst. rewrite Hc. destruct (Hst p) as [E|E]; [set_solver|..];
    unfold branch_result; rewrite E, filter_app; pose proof (runnable_state c p) as Hp; rewrite E in Hp.
  - rewrite filter_cons_True by done. cbn [filter list_filter]. by rewrite last_snoc.
  - rewrite filter_cons_False by (by rewrite Hp). cbn [filter list_filter]. by rewrite app_nil_r.
Qed.

(** C35: The BJF branch, for a non-empty queue whose entries may be in any state.
    Its loop ends with [p] at a runnable process of least rank (as calculate_rank()
    and the comparison of floats give it) among all entries of the queue but the
    last one that rank below 999999999, and with [p] unassigned if there are none;
    but it ends with found_runnable still 0, so that no process is ever run from
    this queue. *)
Theorem bjf_choice_starves c q l :
  repr q l → l ≠ [] → entries c l →
  (∃ o w, bjf_scan q 0 (Z.to_nat (q_pi q)) (false, None, worst_rank_init) c = Ok (false, o, w) c ∧
     least_rank c (Spec.drop_last l) o) ∧
  choose_bjf q c = Ok None c.
Proof.
  intros Hr Hne Hv. pose proof Hr as (_ & Hpi & _).
  assert (0 < length l)%nat by (destruct l; [done|simpl; lia]).
  assert (Z.to_nat (q_pi q) = (length l - 1)%nat) as Hn by lia.
  destruct (bjf_scan_spec c q l (length l - 1) 0 (false, None, worst_rank_init))
    as ([[found o] w] & Hs & -> & _ & Hl); [done|done|lia|by split_and!; [..|intros p ?%elem_of_nil]|].
  unfold choose_bjf. rewrite Hn. change (Z.of_nat 0) with 0 in Hs. split; [by exists o, w|by run Hs].
Qed.
