(* ===== verification/KStep.v ===== *)
(** * Stepping through the kernel code

    The code of proc.c runs on the whole kernel state, but the scheduling
    invariants speak only of the process table and queues, of whether ptable.lock
    is taken, and of which process each CPU runs.  [vw] is that abstraction, and
    [kwlp m Q v] says that a run of [m] that starts in a state seen as [v] and
    returns ends in a state seen as one that satisfies [Q].  One rule per
    primitive; [kstep] applies them. *)

From S2P Require Import Prelude Spinlock Queue CStr Proc ProcInv ProcOps.

(** The entry of the [cpus] array that mycpu() finds. *)
Definition me (m : mach) : option nat :=
  h ← hw m !! this m; find_index (λ c, apicid c =? hw_lapicid h) (cpus m).

Record vst := mkV { v_core : core; v_lock : bool; v_on : list (option nat); v_me : option nat }.
#[global] Instance set_v_core : Setter v_core := λ f v, mkV (f (v_core v)) (v_lock v) (v_on v) (v_me v).
#[global] Instance set_v_lock : Setter v_lock := λ f v, mkV (v_core v) (f (v_lock v)) (v_on v) (v_me v).
#[global] Instance set_v_on : Setter v_on := λ f v, mkV (v_core v) (v_lock v) (f (v_on v)) (v_me v).

Definition vmach (m : mach) : list (option nat) * option nat := (cpu_proc <$> cpus m, me m).
Definition vlocked (l : spinlock) : bool := negb (lk_locked l =? 0).
Definition vw {E} (s : kern E) : vst :=
  mkV (k_core s) (vlocked (k_ptable_lock s)) (fst (vmach (k_mach s))) (snd (vmach (k_mach s))).

(** ** The locking code does not change which process runs where *)
Section mach.
Context {S : Type} (mch : lens S mach) `{!LensOk mch}.
Abbreviation vm := (λ s, vmach (view mch s)).

Lemma me_if m h b :
  hw m !! this m = Some h →
  me (m <| hw := <[this m := mkHw (hw_lapicid h) b]> (hw m) |>) = me m.
Proof.
  intros Hh. unfold me; simpl. rewrite Hh. simpl.
  by rewrite list_lookup_insert_eq by (by eapply lookup_lt_Some).
Qed.
Lemma find_index_insert {A} (P : A → bool) (l : list A) i x y :
  l !! i = Some x → P y = P x → find_index P (<[i := y]> l) = find_index P l.
Proof.
  revert i. induction l as [|z l IH]; intros [|i] Hi HP; simplify_eq/=; [by rewrite HP|].
  by rewrite (IH i).
Qed.
Lemma vmach_put m i c c' :
  cpus m !! i = Some c → apicid c' = apicid c →
  vmach (m <| cpus := <[i := c']> (cpus m) |>) = (<[i := cpu_proc c']> (cpu_proc <$> cpus m), me m).
Proof.
  intros Hc Ha. unfold vmach; simpl. rewrite list_fmap_insert. f_equal. unfold me; simpl.
  destruct (hw m !! this m) as [h|]; [|done]. simpl. eapply find_index_insert; [done|]. by rewrite Ha.
Qed.
Lemma get_cpu_inv i c s s' : get_cpu mch i s = Ok c s' → cpus (view mch s) !! i = Some c ∧ s' = s.
Proof. unfold get_cpu, get_mach. intros Hg. inv_bind. by rewrite Nat2Z.id in *. Qed.
Lemma put_cpu_inv i c c' s s' u :
  cpus (view mch s) !! i = Some c → apicid c' = apicid c → put_cpu mch i c' s = Ok u s' →
  vmach (view mch s') =
  (<[i := cpu_proc c']> (fst (vmach (view mch s))), snd (vmach (view mch s))).
Proof.
  unfold put_cpu, get_mach, put_mach. intros Hc Ha Hp. inv_bind. rewrite view_upd.
  by erewrite vmach_put.
Qed.
Lemma put_cpu_same i c c' s s' u :
  cpus (view mch s) !! i = Some c → apicid c' = apicid c → cpu_proc c' = cpu_proc c →
  put_cpu mch i c' s = Ok u s' → vmach (view mch s') = vmach (view mch s).
Proof.
  intros Hc Ha Hpr Hp. rewrite (put_cpu_inv _ _ _ _ _ _ Hc Ha Hp), Hpr. unfold vmach; simpl.
  f_equal. rewrite list_insert_id; [done|]. by rewrite list_lookup_fmap, Hc.
Qed.

Lemma vm_readeflags : frames vm (readeflags mch).
Proof. unfold readeflags, get_mach. solve_frames. Qed.
Lemma vm_lapicid : frames vm (lapicid mch).
Proof. unfold lapicid, get_mach. solve_frames. Qed.
Lemma vm_set_if b : frames vm (set_if mch b).
Proof.
  unfold set_if, get_mach, put_mach. intros s a s' Hr; simpl. inv_bind.
  destruct (hw (view mch s0) !! this (view mch s0)) as [h|] eqn:Hh; [|done]. inv_bind.
  rewrite view_upd. unfold vmach. by rewrite me_if.
Qed.
Lemma vm_mycpu : frames vm (mycpu mch).
Proof. unfold mycpu, lapicid, readeflags, get_mach. solve_frames. Qed.
Lemma vm_get_cpu i : frames vm (get_cpu mch i).
Proof. unfold get_cpu, get_mach. solve_frames. Qed.
Lemma mycpu_inv s i s' : mycpu mch s = Ok i s' → me (view mch s) = Some i ∧ s' = s.
Proof.
  unfold mycpu, lapicid, readeflags, get_mach. intros Hr. inv_bind.
  destruct (hw (view mch s1) !! this (view mch s1)) as [h|] eqn:Hh; [|done]. inv_bind.
  destruct (hw_if h); [done|]. inv_bind. rewrite Hh in *. inv_bind.
  unfold me. rewrite Hh. simpl. destruct (find_index _ _) eqn:Hf; [|done]. by inv_bind.
Qed.
Lemma vm_pushcli : frames vm (pushcli mch).
Proof.
  unfold pushcli, cli. intros s a s' Hr; simpl. inv_bind.
  apply get_cpu_inv in H2 as [Hc ->]. apply mycpu_inv in H1 as [_ ->].
  etrans; [eapply put_cpu_same; [exact Hc| | |exact Hr]; by destruct (ncli _ =? 0)|].
  rewrite (vm_set_if _ _ _ _ H0). by apply vm_readeflags in H.
Qed.
Lemma vm_popcli : frames vm (popcli mch).
Proof.
  unfold popcli, sti. intros s a s' Hr; simpl. inv_bind. destruct a0; [done|]. inv_bind.
  apply get_cpu_inv in H1 as [Hc ->]. apply mycpu_inv in H0 as [_ ->].
  apply vm_readeflags in H. rewrite <- H.
  assert (vmach (view mch s3) = vmach (view mch s0)) as <-
    by (eapply put_cpu_same; [exact Hc| | |exact H2]; done).
  destruct (ncli _ - 1 <? 0); [done|]. unfold when in Hr.
  destruct (_ && _); [by apply vm_set_if in Hr|by inv_bind].
Qed.
Context (lk : lens S spinlock) `{!LensOk lk} `{!LensDisj mch lk}.
#[local] Hint Resolve vm_pushcli vm_popcli vm_mycpu vm_readeflags : frames.
Lemma vm_holding : frames vm (holding mch lk).
Proof. unfold holding. solve_frames. Qed.
#[local] Hint Resolve vm_holding : frames.
Lemma vm_upd_lock f : frames vm (modify (λ s, upd lk (f s) s)).
Proof. apply frames_modify. intros s; simpl. by rewrite view_upd_r. Qed.
#[local] Hint Resolve vm_upd_lock : frames.
Lemma vm_acquire : frames vm (acquire mch lk).
Proof.
  unfold acquire, xchg_locked, get_mach. solve_frames.
Qed.
Lemma vm_release : frames vm (release mch lk).
Proof. unfold release. solve_frames. Qed.

(** acquire returns only when it found the lock free, and leaves it taken;
    release leaves it free. *)
Abbreviation vl := (λ s, vlocked (view lk s)).
Lemma vl_mach m s : vlocked (view lk (upd mch m s)) = vlocked (view lk s).
Proof. by rewrite view_upd_l. Qed.
Lemma acquire_vl s u s' : acquire mch lk s = Ok u s' → vlocked (view lk s) = false ∧ vlocked (view lk s') = true.
Proof.
  unfold acquire, xchg_locked, get_mach. intros Hr. inv_bind.
  destruct a0; [done|]. inv_bind.
  pose proof (frames_pushcli mch vl vl_mach _ _ _ H) as E1.
  pose proof (frames_holding mch vl vl_mach lk _ _ _ H0) as E2. simpl in E1, E2.
  destruct (lk_locked (view lk s5) =? 0) eqn:Hl; [|done]. inv_bind.
  apply mycpu_inv in H2 as [_ ->]. rewrite !view_upd. simpl. split; [|done].
  rewrite <- E1, <- E2. unfold vlocked. by rewrite Hl.
Qed.
Lemma release_vl s u s' : release mch lk s = Ok u s' → vlocked (view lk s') = false.
Proof.
  unfold release. intros Hr. inv_bind. destruct (negb a); [done|]. inv_bind.
  rewrite (frames_popcli mch vl vl_mach _ _ _ Hr). simpl. by rewrite !view_upd.
Qed.
End mach.

(** ** The rules *)
Section kern.
Context {E : Type} `{KEnv E}.
Abbreviation K := (kern E).
Implicit Types (s : K) (p : nat) (v : vst).

Lemma frames_vw {A} (m : M K A) :
  frames k_core m → frames (λ s, vlocked (k_ptable_lock s)) m → frames (λ s, vmach (k_mach s)) m →
  frames vw m.
Proof.
  intros H1 H2 H3 s a s' Hr. unfold vw. rewrite (H1 _ _ _ Hr).
  pose proof (H2 _ _ _ Hr) as E2. pose proof (H3 _ _ _ Hr) as E3. simpl in E2, E3. by rewrite E2, E3.
Qed.
Lemma frames_vw_mach {A} (m : M K A) :
  frames k_core m → frames k_ptable_lock m → frames (λ s, vmach (k_mach s)) m → frames vw m.
Proof.
  intros H1 H2 H3. apply frames_vw; [done| |done]. intros s a s' Hr. by rewrite (H2 _ _ _ Hr).
Qed.
Lemma vw_pushcli : frames vw (pushcli (L_mach (E := E))).
Proof. apply frames_vw_mach; [apply frames_pushcli..|apply vm_pushcli, _]; done. Qed.
Lemma vw_popcli : frames vw (popcli (L_mach (E := E))).
Proof. apply frames_vw_mach; [apply frames_popcli..|apply vm_popcli, _]; done. Qed.
Lemma vw_mycpu : frames vw (mycpu (L_mach (E := E))).
Proof. apply frames_vw_mach; [apply frames_mycpu..|apply vm_mycpu]; done. Qed.
Lemma vw_readeflags : frames vw (readeflags (L_mach (E := E))).
Proof. apply frames_vw_mach; [apply frames_readeflags..|apply vm_readeflags]; done. Qed.
Lemma vw_sti : frames vw (sti (L_mach (E := E))).
Proof. apply frames_vw_mach; [apply frames_sti..|apply vm_set_if, _]; done. Qed.
Lemma vw_get_cpu i : frames vw (get_cpu (L_mach (E := E)) i).
Proof. apply frames_vw_mach; [apply frames_get_cpu..|apply vm_get_cpu]; done. Qed.
Lemma vw_holding lk : frames vw (holding_lk (E := E) lk).
Proof. apply frames_vw_mach; [apply frames_holding..|apply vm_holding, _]; done. Qed.
#[export] Instance L_ext_lock_disj n : LensDisj (L_mach (E := E)) (L_lock (ExtLock n)).
Proof. split; by intros; destruct s. Qed.
Lemma vw_acquire_other lk : lk ≠ PtableLock → frames vw (acquire_lk (E := E) lk).
Proof.
  intros Hl. apply frames_vw_mach; [apply frames_acquire; [done|by destruct lk]..|].
  destruct lk as [| |n]; [done|apply (vm_acquire L_mach L_tickslock)|apply (vm_acquire L_mach (L_lock (ExtLock n)))].
Qed.
Lemma vw_release_other lk : lk ≠ PtableLock → frames vw (release_lk (E := E) lk).
Proof.
  intros Hl. apply frames_vw_mach; [apply frames_release; [done|by destruct lk]..|].
  destruct lk as [| |n]; [done|apply (vm_release L_mach L_tickslock)|apply (vm_release L_mach (L_lock (ExtLock n)))].
Qed.
Lemma vw_ext {A} (m : M E A) : frames vw (ext m).
Proof. by intros s a s' (t & _ & ->)%zoom_ok. Qed.
Lemma vw_intena f : frames vw (modify (λ s : K, upd L_intena (f s) s)).
Proof. by apply frames_modify. Qed.
#[local] Hint Resolve vw_pushcli vw_popcli vw_mycpu vw_readeflags vw_sti vw_get_cpu vw_holding vw_ext
  vw_intena : frames.
#[local] Hint Extern 1 (frames vw (acquire_lk _)) => apply vw_acquire_other; discriminate : frames.
#[local] Hint Extern 1 (frames vw (release_lk _)) => apply vw_release_other; discriminate : frames.

Definition kwlp {A} (m : M K A) (Q : A → vst → Prop) (v : vst) : Prop :=
  ∀ s a s', vw s = v → m s = Ok a s' → Q a (vw s').

Lemma kwlp_bind {A B} (m : M K A) (f : A → M K B) Q v :
  kwlp m (λ a v', kwlp (f a) Q v') v → kwlp (m ≫= f) Q v.
Proof. intros Hm s b s' Hs (a & s1 & H1 & H2)%bind_ok. by eapply Hm. Qed.
Lemma kwlp_mono {A} (m : M K A) (Q Q' : A → vst → Prop) v :
  (∀ a v', Q a v' → Q' a v') → kwlp m Q v → kwlp m Q' v.
Proof. intros HQ Hm s a s' Hs Hr. by eapply HQ, Hm. Qed.
Lemma kwlp_ret {A} (a : A) Q v : Q a v → kwlp (mret a) Q v.
Proof. by intros HQ s b s' <- [= <- <-]. Qed.
Lemma kwlp_frame {A} (m : M K A) Q v : frames vw m → (∀ a, Q a v) → kwlp m Q v.
Proof. intros Hf HQ s a s' <- Hr. rewrite (Hf _ _ _ Hr). apply HQ. Qed.
Lemma kwlp_panic {A} e (Q : A → vst → Prop) v : kwlp (panic e) Q v.
Proof. by intros s a s' _. Qed.
Lemma kwlp_undef {A} e (Q : A → vst → Prop) v : kwlp (undef e) Q v.
Proof. by intros s a s' _. Qed.
Lemma kwlp_when b (m : M K unit) Q v :
  (b = true → kwlp m Q v) → (b = false → Q tt v) → kwlp (when b m) Q v.
Proof. destruct b; simpl; [by auto|]. intros _ HQ. by apply kwlp_ret, HQ. Qed.
Lemma vw_lock s s' :
  k_core s' = k_core s → vmach (k_mach s') = vmach (k_mach s) →
  vw s' = vw s <| v_lock := vlocked (k_ptable_lock s') |>.
Proof. intros H1 H2. unfold vw. by rewrite H1, H2. Qed.
Lemma kwlp_acquire Q v :
  (v_lock v = false → Q tt (v <| v_lock := true |>)) → kwlp (acquire_lk PtableLock) Q v.
Proof.
  intros HQ s [] s' <- Hr. pose proof (acquire_vl L_mach L_ptable_lock _ _ _ Hr) as [H1 H2].
  pose proof (vm_acquire L_mach L_ptable_lock _ _ _ Hr) as H3.
  pose proof (frames_core_acquire _ _ _ _ Hr) as H4.
  specialize (HQ H1). rewrite (vw_lock s s' H4 H3). simpl in H2. by rewrite H2.
Qed.
Lemma kwlp_release Q v : Q tt (v <| v_lock := false |>) → kwlp (release_lk PtableLock) Q v.
Proof.
  intros HQ s [] s' <- Hr. pose proof (release_vl L_mach L_ptable_lock _ _ _ Hr) as H2.
  pose proof (vm_release L_mach L_ptable_lock _ _ _ Hr) as H3.
  pose proof (frames_core_release _ _ _ _ Hr) as H4.
  rewrite (vw_lock s s' H4 H3). simpl in H2. by rewrite H2.
Qed.
Lemma kwlp_inc {A} (m : M core A) Q v :
  (∀ a c', m (v_core v) = Ok a c' → Q a (v <| v_core := c' |>)) → kwlp (inc m) Q v.
Proof. intros HQ s a s' <- (c' & Hm & ->)%zoom_ok. by apply HQ in Hm. Qed.
Lemma kwlp_inc_run {A} (m : M core A) a c' Q v :
  m (v_core v) = Ok a c' → Q a (v <| v_core := c' |>) → kwlp (inc m) Q v.
Proof. intros Hm HQ. apply kwlp_inc. intros b d Hb. rewrite Hm in Hb. by injection Hb as <- <-. Qed.
Lemma set_core_id v : v <| v_core := v_core v |> = v.
Proof. by destruct v. Qed.
Lemma kwlp_proc_at p Q v :
  (∀ x, procs (v_core v) !! p = Some x → Q x v) → kwlp (proc_at p) Q v.
Proof.
  intros HQ. apply kwlp_inc. intros x c' [Hp ->]%get_proc_inv. rewrite set_core_id. by apply HQ.
Qed.
Lemma kwlp_set_at p f Q v :
  (∀ x, procs (v_core v) !! p = Some x →
        Q tt (v <| v_core := v_core v <| procs := <[p := f x]> (procs (v_core v)) |> |>)) →
  kwlp (set_at p f) Q v.
Proof. intros HQ. apply kwlp_inc. intros [] c' (x & Hp & ->)%upd_proc_inv. by apply HQ. Qed.
Lemma kwlp_getc {A} (f : core → A) Q v : Q (f (v_core v)) v → kwlp (getc f) Q v.
Proof. intros HQ. eapply kwlp_inc_run; [done|]. by rewrite set_core_id. Qed.
Lemma kwlp_modc f Q v : Q tt (v <| v_core := f (v_core v) |>) → kwlp (modc f) Q v.
Proof. intros HQ. by eapply kwlp_inc_run. Qed.
Lemma kwlp_mycpu Q v : (∀ i, v_me v = Some i → Q i v) → kwlp (mycpu L_mach) Q v.
Proof. intros HQ s i s' <- [Hi ->]%mycpu_inv. by apply HQ. Qed.

(** The process of the executing CPU. *)
Definition v_cur v : option nat := i ← v_me v; mjoin (v_on v !! i).
Lemma kwlp_myproc Q v : Q (v_cur v) v → kwlp myproc Q v.
Proof.
  intros HQ s o s' <- Hr. unfold myproc in Hr. inv_bind.
  pose proof (vw_popcli _ _ _ H3) as E3. apply get_cpu_inv in H2 as [Hc ->].
  apply mycpu_inv in H1 as [Hi ->]. pose proof (vw_pushcli _ _ _ H0) as E0.
  rewrite E3, E0. rewrite <- E0 in HQ. rewrite <- E0. replace (cpu_proc a1) with (v_cur (vw s0)); [done|].
  unfold v_cur, vw; simpl. simpl in Hi, Hc. rewrite Hi. simpl. rewrite list_lookup_fmap, Hc. done.
Qed.
Lemma kwlp_curproc Q v : (∀ p, v_cur v = Some p → Q p v) → kwlp curproc Q v.
Proof.
  intros HQ. unfold curproc. apply kwlp_bind, kwlp_myproc.
  destruct (v_cur v) eqn:Hv; [apply kwlp_ret; by apply HQ|apply kwlp_undef].
Qed.
(** Read this CPU's entry, write it back with another process. *)
Lemma kwlp_set_cpu i (f : cpu → cpu) Q v :
  (∀ c, apicid (f c) = apicid c) →
  (∀ c, v_on v !! i = Some (cpu_proc c) → Q tt (v <| v_on := <[i := cpu_proc (f c)]> (v_on v) |>)) →
  kwlp (c ← get_cpu L_mach i; put_cpu L_mach i (f c)) Q v.
Proof.
  intros Hf HQ s [] s' <- (a & s0 & H0 & Hr)%bind_ok. apply get_cpu_inv in H0 as [Hc ->].
  pose proof (put_cpu_inv L_mach _ _ _ _ _ _ Hc (Hf _) Hr) as Hv.
  pose proof (frames_core_put_cpu _ _ _ _ _ Hr) as Hk.
  assert (k_ptable_lock s' = k_ptable_lock s) as Hl by (by eapply (frames_put_cpu L_mach k_ptable_lock) in Hr).
  assert (vw s' = vw s <| v_on := <[i := cpu_proc (f a)]> (v_on (vw s)) |>) as ->.
  { unfold vw at 1. cbn [view L_mach] in Hv. by rewrite Hk, Hl, Hv. }
  apply HQ. simpl. simpl in Hc. by rewrite list_lookup_fmap, Hc.
Qed.

Lemma vw_sched_begin : frames vw (sched_begin (E := E)).
Proof.
  intros s a s' Hr.
  assert (kwlp (sched_begin (E := E)) (λ _ v', v' = vw s) (vw s)) as Hk; [|by apply (Hk s a s')].
  unfold sched_begin.
  apply kwlp_bind, kwlp_curproc. intros p _.
  apply kwlp_bind, kwlp_frame; [auto with frames|]. intros [|]; simpl; [|apply kwlp_panic].
  apply kwlp_bind, kwlp_frame; [auto with frames|]. intros i.
  apply kwlp_bind, kwlp_frame; [auto with frames|]. intros c.
  destruct (negb _); [apply kwlp_panic|].
  apply kwlp_bind, kwlp_proc_at. intros x _. destruct (bool_decide _); [apply kwlp_panic|].
  apply kwlp_bind, kwlp_frame; [auto with frames|]. intros [|]; [apply kwlp_panic|].
  apply kwlp_frame; [|done]. by apply frames_modify.
Qed.
Lemma vw_sched_end p : frames vw (sched_end (E := E) p).
Proof.
  intros s a s' Hr.
  assert (kwlp (sched_end (E := E) p) (λ _ v', v' = vw s) (vw s)) as Hk; [|by apply (Hk s a s')].
  unfold sched_end. apply kwlp_bind, kwlp_frame; [auto with frames|]. intros sv.
  apply kwlp_bind, kwlp_frame; [auto with frames|]. intros b.
  apply kwlp_bind, kwlp_mycpu. intros i Hi. apply (kwlp_set_cpu _ (λ c, c <| intena := b |>)); [done|].
  intros c Hc. simpl. by rewrite list_insert_id.
Qed.
End kern.
#[export] Hint Resolve vw_pushcli vw_popcli vw_mycpu vw_readeflags vw_sti vw_get_cpu vw_holding vw_ext
  vw_intena vw_sched_begin vw_sched_end : frames.
#[export] Hint Extern 1 (frames vw (acquire_lk _)) => apply vw_acquire_other; discriminate : frames.
#[export] Hint Extern 1 (frames vw (release_lk _)) => apply vw_release_other; discriminate : frames.
