(* ===== verification/Keep.v ===== *)
(** * Preservation of the scheduling invariant by the operations of proc.c

    [J g ex R c]: [R] is the set of the processes in state RUNNING and, when [g] is
    set, the table and the queues satisfy [cinv ex].  Every lemma holds for both
    values of [g]; a premise of the form [g = true → ...] is what the agreement of
    table and queues needs and the set of running processes does not.  [keeps m]: [m] preserves every property that
    does not look beyond the scheduling fields of the processes, which is all of
    fork, exit and exec but a few writes.  The lemmas then take each operation of
    proc.c through the moves of ProcInv.v. *)

From S2P Require Import Prelude Spinlock Queue CStr Proc ProcInv ProcOps KStep.

Definition runs (c : core) (i : nat) : Prop := ∃ x, procs c !! i = Some x ∧ state x = RUNNING.
Definition J (g : bool) (ex : exc) (R : gset nat) (c : core) : Prop :=
  (g = true → ∃ qs, cinv ex c qs) ∧ ∀ i, i ∈ R ↔ runs c i.
Definition in_state (p : nat) (st : procstate) (c : core) : Prop :=
  ∃ x, procs c !! p = Some x ∧ state x = st.

(** The part of the view that is not the table. *)
Definition v_rest (v : vst) : bool * list (option nat) * option nat := (v_lock v, v_on v, v_me v).

(** ** Properties of the scheduling fields *)
Definition same_frame (c c' : core) : Prop :=
  procs c' = procs c ∧ nextpid c' = nextpid c ∧ ∀ t, t ≠ DEF → queue_at t c' = queue_at t c.
Class Stable (I : core → Prop) : Prop := {
  stable_write c p x x' : I c → procs c !! p = Some x → same_sched x x' →
    I (c <| procs := <[p := x']> (procs c) |>);
  stable_frame c c' : I c → same_frame c c' → I c' }.

Lemma runs_write c p x x' i :
  procs c !! p = Some x →
  runs (c <| procs := <[p := x']> (procs c) |>) i ↔
  if decide (i = p) then state x' = RUNNING else runs c i.
Proof.
  intros Hp. pose proof (lookup_lt_Some _ _ _ Hp). unfold runs; simpl. case_decide as Hi; [subst|].
  - rewrite list_lookup_insert_eq by done. naive_solver.
  - by rewrite list_lookup_insert_ne.
Qed.
Lemma runs_at c p x : procs c !! p = Some x → runs c p ↔ state x = RUNNING.
Proof. unfold runs. intros ->. naive_solver. Qed.
Lemma runs_procs c c' i : procs c' = procs c → runs c' i ↔ runs c i.
Proof. unfold runs. by intros ->. Qed.

#[global] Instance J_stable g ex R : Stable (J g ex R).
Proof.
  split.
  - intros c p x x' [Hqs HR] Hp Hs. split; [intros [qs Hc]%Hqs; exists qs; by eapply cinv_keep|].
    intros i. rewrite HR, (runs_write _ _ _ _ _ Hp). case_decide; [subst|done].
    rewrite (runs_at _ _ _ Hp). destruct Hs as [-> _]. done.
  - intros c c' [Hqs HR] (Hps & Hn & Hq). split; [intros [qs Hc]%Hqs; exists qs; by eapply cinv_ext|].
    intros i. by rewrite HR, (runs_procs c c').
Qed.
#[global] Instance in_state_stable p st : Stable (in_state p st).
Proof.
  split.
  - intros c q x x' (y & Hy & Hst) Hq [Hs _]. unfold in_state; simpl.
    pose proof (lookup_lt_Some _ _ _ Hq). destruct (decide (p = q)) as [->|Hne].
    + exists x'. rewrite list_lookup_insert_eq by done. simplify_eq. by rewrite Hs.
    + exists y. by rewrite list_lookup_insert_ne.
  - intros c c' (y & Hy & Hst) (Hps & _). exists y. by rewrite Hps.
Qed.
#[global] Instance and_stable I1 I2 : Stable I1 → Stable I2 → Stable (λ c, I1 c ∧ I2 c).
Proof.
  intros [H1 H1'] [H2 H2']. split.
  - intros c p x x' [? ?] Hp Hs. split; [by eapply H1|by eapply H2].
  - intros c c' [? ?] Hs. split; [by eapply H1'|by eapply H2'].
Qed.

Section keeps.
Context {E : Type} `{KEnv E}.
Abbreviation K := (kern E).

Definition keeps {A} (m : M K A) : Prop :=
  ∀ I, Stable I → ∀ v, I (v_core v) →
  kwlp m (λ _ v', I (v_core v') ∧ v_rest v' = v_rest v) v.

Lemma keeps_frame {A} (m : M K A) : frames vw m → keeps m.
Proof. intros Hm I HI v Hv. by apply kwlp_frame. Qed.
Lemma keeps_ret {A} (a : A) : keeps (mret a).
Proof. intros I HI v Hv. by apply kwlp_ret. Qed.
Lemma keeps_panic {A} e : keeps (panic e : M K A).
Proof. intros I HI v Hv. by apply kwlp_panic. Qed.
Lemma keeps_undef {A} e : keeps (undef e : M K A).
Proof. intros I HI v Hv. by apply kwlp_undef. Qed.
Lemma keeps_bind {A B} (m : M K A) (f : A → M K B) :
  keeps m → (∀ a, keeps (f a)) → keeps (m ≫= f).
Proof.
  intros Hm Hf I HI v Hv. apply kwlp_bind. eapply kwlp_mono; [|by apply (Hm I HI)].
  intros a v1 [H1 E1]. eapply kwlp_mono; [|by apply (Hf a I HI)].
  intros b v2 [H2 E2]. split; [done|congruence].
Qed.
Lemma keeps_for_each {I : Type} (l : list I) (body : I → M K unit) :
  (∀ i, keeps (body i)) → keeps (for_each l body).
Proof.
  intros Hb. induction l as [|i l IH]; simpl; [apply keeps_ret|]. by apply keeps_bind.
Qed.
Lemma keeps_proc_at p : keeps (proc_at p).
Proof. intros I HI v Hv. by apply kwlp_proc_at. Qed.
Lemma keeps_getc {A} (f : core → A) : keeps (getc f).
Proof. intros I HI v Hv. by apply kwlp_getc. Qed.
Lemma keeps_set_at p f : (∀ x, same_sched x (f x)) → keeps (set_at p f).
Proof.
  intros Hf I HI v Hv. apply kwlp_set_at. intros x Hx. split; [|done]. by eapply stable_write.
Qed.
Lemma keeps_modc f : (∀ c, same_frame c (f c)) → keeps (modc f).
Proof. intros Hf I HI v Hv. apply kwlp_modc. split; [|done]. by eapply stable_frame. Qed.
Lemma keeps_when b (m : M K unit) : keeps m → keeps (when b m).
Proof. destruct b; [done|]. intros _. apply keeps_ret. Qed.
Lemma keeps_curproc : keeps curproc.
Proof. intros I HI v Hv. by apply kwlp_curproc. Qed.
Lemma keeps_myproc : keeps myproc.
Proof. intros I HI v Hv. by apply kwlp_myproc. Qed.

(** Use: run [m], and forget everything about the table but a stable property. *)
Lemma kwlp_keeps {A} (m : M K A) I `{!Stable I} Q v :
  keeps m → I (v_core v) → (∀ a v', I (v_core v') → v_rest v' = v_rest v → Q a v') → kwlp m Q v.
Proof. intros Hm Hv HQ. eapply kwlp_mono; [|by apply (Hm I)]. intros a v' [? ?]. by apply HQ. Qed.
End keeps.
Create HintDb keeps.
#[export] Hint Resolve keeps_ret keeps_panic keeps_undef keeps_proc_at keeps_getc keeps_curproc
  keeps_myproc : keeps.
#[export] Hint Extern 5 (keeps _) => apply keeps_frame; solve [eauto with frames] : keeps.
Ltac solve_keeps :=
  repeat first
    [ progress intros
    | solve [eauto with keeps]
    | apply keeps_set_at; done
    | apply keeps_modc; done
    | apply keeps_bind | apply keeps_when | apply keeps_for_each
    | match goal with |- keeps (if ?x then _ else _) => destruct x end
    | match goal with |- keeps (match ?x with _ => _ end) => destruct x end ].

Section ops.
Context {E : Type} `{KEnv E}.
Abbreviation K := (kern E).

Lemma keeps_set_proc_name p t : keeps (set_proc_name (E := E) p t).
Proof. unfold set_proc_name. solve_keeps. Qed.
Lemma keeps_fork_dup_files np cp : keeps (fork_dup_files (E := E) np cp).
Proof. unfold fork_dup_files. solve_keeps. Qed.
Lemma keeps_exit_close_files cp : keeps (exit_close_files (E := E) cp).
Proof. unfold exit_close_files. solve_keeps. Qed.
Hint Resolve keeps_exit_close_files : keeps.
Lemma keeps_exit_release_files cp : keeps (exit_release_files (E := E) cp).
Proof. unfold exit_release_files. solve_keeps. Qed.
Lemma keeps_growproc n : keeps (growproc (E := E) n).
Proof. unfold growproc. solve_keeps. Qed.
End ops.
#[export] Hint Resolve keeps_set_proc_name keeps_fork_dup_files keeps_exit_release_files keeps_growproc : keeps.

(** ** Moves *)
Lemma J_open g ex R c p x b :
  J g ex R c → ex !! p = None → procs c !! p = Some x → live x →
  (g = true → queued x ↔ b = true) → J g (<[p := b]> ex) R c.
Proof. intros [Hqs HR] ? ? ? Hb. split; [intros Hg|done]. destruct (Hqs Hg) as [qs Hc]. exists qs. eapply cinv_open; eauto. Qed.
Lemma J_close g ex R c p x b :
  J g ex R c → ex !! p = Some b → procs c !! p = Some x →
  (g = true → q_type x ≠ DEF → queued x ↔ b = true) → J g (delete p ex) R c.
Proof. intros [Hqs HR] ? ? Hb. split; [intros Hg|done]. destruct (Hqs Hg) as [qs Hc]. exists qs. eapply cinv_close; eauto. Qed.
Lemma J_write_ex g ex R R' c p b x x' :
  J g ex R c → ex !! p = Some b → procs c !! p = Some x →
  (b = true → q_type x' = q_type x) →
  (g = true → change_running_queue x' ≠ 0 → state x' = RUNNING) →
  live x' → pid x' = pid x → (∀ i, i ∈ R' ↔ if decide (i = p) then state x' = RUNNING else i ∈ R) →
  J g ex R' (c <| procs := <[p := x']> (procs c) |>).
Proof.
  intros [Hqs HR] Hex Hp Hq Hf Hl Hpid HR'. split.
  - intros Hg. destruct (Hqs Hg) as [qs Hc]. exists qs. eapply cinv_write_ex; eauto.
  - intros i. rewrite HR', (runs_write _ _ _ _ _ Hp). case_decide; [done|apply HR].
Qed.
Lemma J_member g ex R c p x : J g ex R c → procs c !! p = Some x → p ∈ R ↔ state x = RUNNING.
Proof. intros [_ HR] Hp. rewrite HR. by apply runs_at. Qed.
Lemma J_flag g ex R c p x :
  J g ex R c → procs c !! p = Some x → g = true → change_running_queue x ≠ 0 → state x = RUNNING.
Proof. intros [Hqs _] Hp [qs Hc]%Hqs. by apply (ci_flag Hc p). Qed.
(** The excepted process keeps its state: only kind, queue flag and data change. *)
Lemma J_write_data g ex R c p b x x' :
  J g ex R c → ex !! p = Some b → procs c !! p = Some x →
  (b = true → q_type x' = q_type x) →
  (g = true → change_running_queue x' ≠ 0 → state x' = RUNNING) →
  live x' → pid x' = pid x → state x' = state x →
  J g ex R (c <| procs := <[p := x']> (procs c) |>).
Proof.
  intros HJ Hex Hp Hq Hf Hl Hpid Hst. eapply J_write_ex; [done..|].
  intros i. case_decide; [subst|done]. rewrite Hst. by eapply J_member.
Qed.
(** A process in no queue, before and after, and not running. *)
Lemma J_idle g ex R c c' p x x' :
  J g ex R c → ex !! p = None → procs c !! p = Some x →
  state x ≠ RUNNABLE → state x ≠ RUNNING → state x' ≠ RUNNABLE → state x' ≠ RUNNING →
  change_running_queue x' = change_running_queue x →
  procs c' = <[p := x']> (procs c) → nextpid c ≤ nextpid c' →
  (∀ t, t ≠ DEF → queue_at t c' = queue_at t c) →
  (g = true → live x' →
     0 < pid x' < nextpid c' ∧ ((live x ∧ pid x' = pid x) ∨ nextpid c ≤ pid x')) →
  J g ex R c'.
Proof.
  intros HJ Hex Hp Ha Hb Ha' Hb' Hfl Hps Hn Hq Hpid.
  pose proof HJ as [Hqs HR]. split.
  - intros Hg. destruct (Hqs Hg) as [qs Hc]. exists qs.
    eapply cinv_write_idle; [done|done|done|..|done|done|done| |by apply Hpid].
    + unfold queued. naive_solver.
    + unfold queued. naive_solver.
    + rewrite Hfl. intros Hne. by rewrite (J_flag _ _ _ _ _ _ HJ Hp Hg Hne) in Hb.
  - intros i. rewrite HR. unfold runs. rewrite Hps. destruct (decide (i = p)) as [->|Hip].
    + rewrite list_lookup_insert_eq by (by eapply lookup_lt_Some). naive_solver.
    + by rewrite list_lookup_insert_ne.
Qed.
(** A process that is neither runnable nor running gives up its slot. *)
Lemma J_free g ex R c p x x' :
  J g ex R c → ex !! p = None → procs c !! p = Some x →
  state x ≠ RUNNABLE → state x ≠ RUNNING → state x' = UNUSED →
  change_running_queue x' = change_running_queue x →
  J g ex R (c <| procs := <[p := x']> (procs c) |>).
Proof.
  intros HJ Hex Hp Ha Hb Hst Hfl. eapply J_idle; [done..| | |done|done| | |]; by rewrite ?Hst.
Qed.
Lemma J_next g ex R c : J g ex R c → g = true → 0 < nextpid c.
Proof. intros [Hqs _] [qs Hc]%Hqs. apply (ci_next Hc). Qed.
Lemma J_procs_rest g ex R c c' : J g ex R c → same_frame c c' → J g ex R c'.
Proof. intros HJ Hs. by eapply stable_frame. Qed.

(** ** What the loops over the table do to the states, whatever the table *)

(** Between [c] and [c'] some sleeping processes have become runnable. *)
Definition calm (c c' : core) : Prop :=
  ∀ i, match procs c !! i, procs c' !! i with
       | Some x, Some x' =>
           (state x' = state x ∨ state x = SLEEPING ∧ state x' = RUNNABLE) ∧
           change_running_queue x' = change_running_queue x
       | None, None => True
       | _, _ => False
       end.
#[global] Instance calm_preorder : PreOrder calm.
Proof.
  split.
  - intros c i. destruct (procs c !! i); auto.
  - intros c1 c2 c3 H1 H2 i. specialize (H1 i). specialize (H2 i).
    destruct (procs c1 !! i), (procs c2 !! i), (procs c3 !! i); try done.
    destruct H1 as [H1 E1], H2 as [H2 E2]. rewrite E2, E1. split; [|done].
    destruct H1 as [E|[? E]]; rewrite E in H2; naive_solver congruence.
Qed.
Lemma calm_procs c c' : procs c' = procs c → calm c c'.
Proof. intros E i. rewrite E. destruct (procs c !! i); auto. Qed.
Lemma calm_write c p x x' :
  procs c !! p = Some x → (state x' = state x ∨ state x = SLEEPING ∧ state x' = RUNNABLE) →
  change_running_queue x' = change_running_queue x → calm c (c <| procs := <[p := x']> (procs c) |>).
Proof.
  intros Hp Hs Hf i. simpl. destruct (decide (i = p)) as [->|Hne].
  - by rewrite Hp, list_lookup_insert_eq by (by eapply lookup_lt_Some).
  - rewrite list_lookup_insert_ne by done. destruct (procs c !! i); auto.
Qed.
Lemma calm_runs c c' i : calm c c' → runs c' i ↔ runs c i.
Proof.
  intros Hc. specialize (Hc i). unfold runs.
  destruct (procs c !! i) as [x|], (procs c' !! i) as [x'|]; try done.
  destruct Hc as [[E|[E1 E2]] _]; split; intros (y & [= <-] & Hy); eexists; (split; [done|]); congruence.
Qed.
Lemma calm_J c c' g ex R : J g ex R c → calm c c' → (g = true → ∃ qs, cinv ex c' qs) → J g ex R c'.
Proof. intros [_ HR] Hc Hqs. split; [done|]. intros i. by rewrite HR, (calm_runs _ _ _ Hc). Qed.

(** The queue operations do not touch the table. *)
Lemma enqueue_q_procs t p c c' : enqueue_q t p c = Ok tt c' → procs c' = procs c.
Proof. destruct t; cbn [enqueue_q]; [by intros [= <-]|..]; by intros (q & _ & ->)%zoom_ok. Qed.
Lemma shift_dec_procs t p c c' : (shift_q t p ;; dec_q t) c = Ok tt c' → procs c' = procs c.
Proof.
  intros ([] & c1 & H1 & H2)%bind_ok. unfold shift_q in H1. apply bind_ok in H1 as (c0 & ? & [= <- <-] & H1).
  destruct t; cbn [dec_q] in *; [by injection H1 as <-; injection H2 as <-|..]; apply zoom_ok in H1 as (q1 & _ & ->);
    by apply zoom_ok in H2 as (q2 & _ & ->).
Qed.
Lemma wakeup1_one_calm ch p c c' : wakeup1_one ch p c = Ok tt c' → calm c c'.
Proof.
  unfold wakeup1_one. intros (x & c1 & [Hx ->]%get_proc_inv & Hr)%bind_ok.
  destruct (_ && _) eqn:Hb; [|by injection Hr as ->].
  apply andb_true_iff in Hb as [Hb _]. apply bool_decide_eq_true in Hb.
  apply bind_ok in Hr as ([] & c2 & H1%enqueue_q_procs & (y & Hy & ->)%upd_proc_inv).
  rewrite H1 in Hy. assert (y = x) as -> by congruence.
  etrans; [by apply calm_procs|]. eapply calm_write; [by rewrite H1|by right|done].
Qed.
Lemma for_each_calm {I : Type} (l : list I) (body : I → M core unit) :
  (∀ i c c', body i c = Ok tt c' → calm c c') → ∀ c c', for_each l body c = Ok tt c' → calm c c'.
Proof.
  intros Hb. induction l as [|i l IH]; intros c c' Hr; cbn [for_each] in Hr; [by injection Hr as ->|].
  apply bind_ok in Hr as ([] & c1 & H1 & H2). etrans; [by eapply Hb|by eapply IH].
Qed.
Lemma wakeup1_calm ch c c' : wakeup1 ch c = Ok tt c' → calm c c'.
Proof. apply for_each_calm. intros p. apply wakeup1_one_calm. Qed.
Lemma reparent_calm cp ini c c' : exit_reparent cp ini c = Ok tt c' → calm c c'.
Proof.
  apply for_each_calm. clear. intros p c c'. unfold exit_reparent_one.
  intros (x & c1 & [Hx ->]%get_proc_inv & Hr)%bind_ok. case_bool_decide; [|by injection Hr as ->].
  apply bind_ok in Hr as ([] & c2 & (y & Hy & ->)%upd_proc_inv & Hr).
  assert (y = x) as -> by congruence. etrans; [eapply (calm_write _ p x (x <| parent := ini |>)); [done|by left|done]|].
  apply bind_ok in Hr as (z & c3 & [Hz ->]%get_proc_inv & Hr).
  unfold when in Hr. case_bool_decide; [by eapply wakeup1_calm|by injection Hr as ->].
Qed.

Section moves.
Context {E : Type} `{KEnv E} (g : bool).
Abbreviation K := (kern E).
Implicit Types (v : vst).

Lemma kwlp_enqueue ex R p t x Q v :
  J g ex R (v_core v) → ex !! p = Some false → procs (v_core v) !! p = Some x → q_type x = t →
  (∀ c', procs c' = procs (v_core v) → J g (<[p := true]> ex) R c' → Q tt (v <| v_core := c' |>)) →
  kwlp (E := E) (inc (enqueue_q t p)) Q v.
Proof.
  intros HJ Hex Hp <- HQ. apply kwlp_inc. intros [] c' Hrun. pose proof (enqueue_q_procs _ _ _ _ Hrun) as Hps.
  apply HQ; [done|]. destruct HJ as [Hqs HR]. split.
  - intros [qs Hc]%Hqs. destruct (enqueue_q_spec _ _ _ _ _ Hc Hex Hp) as (q' & Hr & Hc').
    rewrite Hr in Hrun. injection Hrun as <-. eauto.
  - intros i. by rewrite HR, (runs_procs (v_core v) c').
Qed.

(** shiftOutQueue(q, p); q.pi--; run under the lock is the removal on the table. *)
Lemma kwlp_shift_dec t p Q v :
  (∀ c', (shift_q t p ;; dec_q t) (v_core v) = Ok tt c' → Q tt (v <| v_core := c' |>)) →
  kwlp (E := E) (shiftOutQueue t p ;; inc (dec_q t)) Q v.
Proof.
  intros HQ. unfold shiftOutQueue. apply kwlp_bind, kwlp_bind, kwlp_frame; [auto with frames|].
  intros [|]; simpl; [|apply kwlp_panic]. apply kwlp_inc. intros [] c1 H1.
  apply kwlp_inc. intros [] c2 H2. apply HQ. run H1. done.
Qed.

Lemma kwlp_cleanup ex R p x Q v :
  J g ex R (v_core v) → ex !! p = Some true → procs (v_core v) !! p = Some x →
  (∀ c', procs c' = procs (v_core v) → J g (<[p := false]> ex) R c' → q_type x ≠ DEF →
         Q tt (v <| v_core := c' |>)) →
  kwlp (E := E) (cleanupCorresQueue p) Q v.
Proof.
  intros [Hqs HR] Hex Hp HQ. unfold cleanupCorresQueue. apply kwlp_bind, kwlp_proc_at.
  intros y Hy. simplify_eq.
  assert (∀ c', q_type x ≠ DEF → (shift_q (q_type x) p ;; dec_q (q_type x)) (v_core v) = Ok tt c' →
                Q tt (v <| v_core := c' |>)) as Hb.
  { intros c' Ht Hrun. pose proof (shift_dec_procs _ _ _ _ Hrun) as Hps. apply HQ; [done| |done]. split.
    - intros [qs Hc]%Hqs. destruct (remove_q_inv _ _ _ _ _ _ Hc Hex Hp Ht Hrun) as (_ & q' & -> & Hc'). eauto.
    - intros i. by rewrite HR, (runs_procs (v_core v) c'). }
  destruct (q_type x) eqn:Ht; [apply kwlp_panic|..].
  all: apply kwlp_bind, kwlp_getc; destruct (_ <=? -1); [apply kwlp_panic|].
  all: apply kwlp_shift_dec; intros c' Hrun; by apply Hb.
Qed.

Lemma kwlp_wakeup1 ex R ch Q v :
  J g ex R (v_core v) → (g = true → ex_awake ex (procs (v_core v))) →
  (∀ c', calm (v_core v) c' → J g ex R c' → Q tt (v <| v_core := c' |>)) →
  kwlp (E := E) (inc (wakeup1 ch)) Q v.
Proof.
  intros HJ Hex HQ. apply kwlp_inc. intros [] c' Hrun. pose proof (wakeup1_calm _ _ _ Hrun) as Hc.
  apply HQ; [done|]. eapply calm_J; [done|done|]. intros Hg. destruct (proj1 HJ Hg) as [qs Hcv].
  destruct (wakeup1_spec _ _ _ ch Hcv (Hex Hg)) as (c2 & qs' & Hr & Hc' & _).
  rewrite Hr in Hrun. injection Hrun as <-. eauto.
Qed.

Lemma kwlp_reparent ex R cp ini Q v :
  J g ex R (v_core v) → (g = true → ex_awake ex (procs (v_core v))) →
  (∀ c', calm (v_core v) c' → J g ex R c' → Q tt (v <| v_core := c' |>)) →
  kwlp (E := E) (inc (exit_reparent cp ini)) Q v.
Proof.
  intros HJ Hex HQ. apply kwlp_inc. intros [] c' Hrun. pose proof (reparent_calm _ _ _ _ Hrun) as Hc.
  apply HQ; [done|]. eapply calm_J; [done|done|]. intros Hg. destruct (proj1 HJ Hg) as [qs Hcv].
  destruct (reparent_spec _ _ _ cp ini Hcv (Hex Hg)) as (c2 & qs' & Hr & Hc' & _).
  rewrite Hr in Hrun. injection Hrun as <-. eauto.
Qed.
End moves.
