(* ===== verification/SchedInv.v ===== *)
(** * Every operation of proc.c preserves the scheduling invariant

    One lemma per operation, from its entry to its return or to its context
    switch: the table and the queues satisfy [J], with the set of running
    processes changed exactly by the process that starts or stops, and
    ptable.lock is free again except at a context switch.  The lemmas are for both
    meanings of [J g]: for the set of running processes alone ([g = false]) no
    operation needs a condition, and for the agreement of the queues ([g = true])
    those whose premises start with [g = true] do. *)

From S2P Require Import Prelude Spinlock Queue CStr Proc ProcInv ProcOps KStep Keep.

(** The state after an operation: [J] for [R], the lock as [l] says, the CPUs as
    before. *)
Definition settled (g : bool) (R : gset nat) (l : bool) (v v' : vst) : Prop :=
  J g ∅ R (v_core v') ∧ v_rest v' = (l, v_on v, v_me v).

(** Apply the rule for the next primitive. *)
Ltac kstep :=
  lazymatch goal with
  | |- kwlp (_ ≫= _) _ _ => apply kwlp_bind
  | |- kwlp (mret _) _ _ => apply kwlp_ret
  | |- kwlp (panic _) _ _ => apply kwlp_panic
  | |- kwlp (undef _) _ _ => apply kwlp_undef
  | |- kwlp (acquire_lk PtableLock) _ _ => apply kwlp_acquire; intros ?Hfree
  | |- kwlp (release_lk PtableLock) _ _ => apply kwlp_release
  | |- kwlp (proc_at _) _ _ => apply kwlp_proc_at; intros ?x ?Hx
  | |- kwlp (set_at _ _) _ _ => apply kwlp_set_at; intros ?x ?Hx
  | |- kwlp (getc _) _ _ => apply kwlp_getc
  | |- kwlp (modc _) _ _ => apply kwlp_modc
  | |- kwlp curproc _ _ => apply kwlp_curproc; intros ?p ?Hcur
  | |- kwlp (mycpu _) _ _ => apply kwlp_mycpu; intros ?i ?Hme
  | |- kwlp (when _ _) _ _ => apply kwlp_when; intros ?Hb
  | |- kwlp _ _ _ => apply kwlp_frame; [solve [auto with frames]|intros ?]
  end.
(** Run through the operations that keep the stable property [I] of the table,
    known as [HI]; [Hr] is what is known of the rest of the view. *)
Ltac kthru I HI Hr :=
  repeat (apply kwlp_bind; eapply (kwlp_keeps _ I); [solve [solve_keeps] | exact HI |];
    let a := fresh "a" in let v' := fresh "v" in let H1 := fresh "HI" in let H2 := fresh "Hr" in
    intros a v' H1 H2; rewrite Hr in H2; clear HI Hr; rename H1 into HI; rename H2 into Hr).

Lemma lookup_insert_here {A} (l : list A) p x y z :
  l !! p = Some x → <[p := y]> l !! p = Some z → z = y.
Proof. intros Hp. rewrite list_lookup_insert_eq by (by eapply lookup_lt_Some). congruence. Qed.

Section ops.
Context {E : Type} `{KEnv E} (g : bool).
Abbreviation K := (kern E).
Implicit Types (v : vst) (R : gset nat).

(** ** allocproc *)
Lemma allocproc_keeps_J R v :
  J g ∅ R (v_core v) →
  kwlp (E := E) allocproc (λ o v', settled g R false v v' ∧
    match o with Some p => in_state p EMBRYO (v_core v') | None => True end) v.
Proof.
  intros HJ. unfold allocproc. kstep. kstep. kstep. kstep.
  destruct (find_index _ _) as [p|] eqn:Hfi; [|kstep; kstep; by kstep].
  apply find_index_Some in Hfi as (x & Hx & Hst & _). apply bool_decide_eq_true in Hst. simpl in Hx.
  kstep. kstep. kstep. kstep. simpl in Hx0; simplify_eq.
  set (n := nextpid _). kstep. destruct (n =? 2 ^ 31 - 1); [apply kwlp_undef|]. kstep. kstep. kstep. simpl.
  set (x1 := x <| state := EMBRYO |> <| pid := n |>).
  match goal with |- kwlp _ _ ?w => set (v1 := w) end.
  assert (J g ∅ R (v_core v1) ∧ in_state p EMBRYO (v_core v1)) as HI.
  { split.
    - eapply (J_idle g ∅ R (v_core v) _ p x x1); try done; try by rewrite Hst.
      + unfold v1, n. simpl. lia.
      + intros Hg _. pose proof (J_next _ _ _ _ HJ Hg) as Hn. unfold v1, x1, n. simpl. lia.
    - exists x1. unfold v1; simpl. rewrite list_lookup_insert_eq by (by eapply lookup_lt_Some). done. }
  assert (v_rest v1 = (false, v_on v, v_me v)) as Hr by done. clearbody v1.
  kthru (λ c, J g ∅ R c ∧ in_state p EMBRYO c) HI Hr. destruct (a =? 0).
  - kstep. kstep. kstep. split; [|done]. split; [|done]. destruct HI as [HJ2 (y & Hy & Hsty)].
    simplify_eq. by eapply J_free; rewrite ?Hsty.
  - kthru (λ c, J g ∅ R c ∧ in_state p EMBRYO c) HI Hr. kstep. by destruct HI.
Qed.
(** ** fork *)

(** A fresh process becomes runnable: it gets its kind, enters the queue of that
    kind, and only then changes state. *)
Lemma embryo_enqueue {A} R p t v (k : M K A) (Q : A → vst → Prop) :
  J g ∅ R (v_core v) → in_state p EMBRYO (v_core v) →
  (∀ v', J g (<[p := true]> ∅) R (v_core v') ∧ in_state p EMBRYO (v_core v') →
         v_rest v' = v_rest v → kwlp k Q v') →
  kwlp (set_at p (λ y, y <| q_type := t |>) ;; inc (enqueue_q t p) ;; k) Q v.
Proof.
  intros HJ (y & Hy & Hst) HQ. kstep. kstep. simplify_eq. kstep.
  assert (J g (<[p := false]> ∅) R (v_core v)) as H1.
  { eapply J_open; [done|done|done|..]; unfold live, queued; rewrite Hst; naive_solver. }
  assert (J g (<[p := false]> ∅) R (v_core v <| procs := <[p := y <| q_type := t |>]> (procs (v_core v)) |>))
    as H2.
  { eapply J_write_data; [done|apply lookup_insert_eq|done|..]; unfold live; simpl; try done.
    - by eapply J_flag.
    - by rewrite Hst. }
  pose proof (lookup_lt_Some _ _ _ Hy) as Hlt.
  eapply (kwlp_enqueue g); [exact H2|apply lookup_insert_eq|simpl; by rewrite list_lookup_insert_eq|done|].
  intros c' Hps H3. rewrite insert_insert_eq in H3. apply HQ; [|done]. split; [done|].
  exists (y <| q_type := t |>). simpl. rewrite Hps. simpl. by rewrite list_lookup_insert_eq.
Qed.
Lemma embryo_runnable R p v (Q : unit → vst → Prop) :
  J g (<[p := true]> ∅) R (v_core v) ∧ in_state p EMBRYO (v_core v) →
  (∀ v', J g ∅ R (v_core v') → v_rest v' = v_rest v → Q tt v') →
  kwlp (E := E) (set_at p (λ y, y <| state := RUNNABLE |>)) Q v.
Proof.
  intros [H4 (z & Hz & Hzst)] HQ. kstep. simplify_eq. apply HQ; [|done].
  rewrite <- (delete_insert_id ∅ p true) by done. eapply J_close; [|apply lookup_insert_eq|..].
  - eapply J_write_ex; [exact H4|apply lookup_insert_eq|done|done|..|done|done|].
    + simpl. intros Hg Hf. pose proof (J_flag _ _ _ _ _ _ H4 Hz Hg Hf) as Hr'. congruence.
    + intros i. case_decide; [subst|done]. simpl. rewrite (J_member _ _ _ _ _ _ H4 Hz), Hzst. done.
  - simpl. rewrite list_lookup_insert_eq by (by eapply lookup_lt_Some). done.
  - intros _ _. unfold queued. simpl. naive_solver.
Qed.

Lemma fork_child_keeps_J R cp np v :
  J g ∅ R (v_core v) → v_lock v = false → in_state np EMBRYO (v_core v) →
  kwlp (E := E) (fork_child cp np) (λ _ v', settled g R false v v') v.
Proof.
  intros HJ Hl Hin. unfold fork_child.
  assert (J g ∅ R (v_core v) ∧ in_state np EMBRYO (v_core v)) as HI by done.
  assert (v_rest v = (false, v_on v, v_me v)) as Hr by (unfold v_rest; by rewrite Hl).
  kthru (λ c, J g ∅ R c ∧ in_state np EMBRYO c) HI Hr. destruct (_ =? 0).
  - kthru (λ c, J g ∅ R c ∧ in_state np EMBRYO c) HI Hr. kstep. kstep. kstep.
    destruct HI as [HJ2 (y & Hy & Hsty)]. simplify_eq. split; [|done].
    by eapply J_free; rewrite ?Hsty.
  - kthru (λ c, J g ∅ R c ∧ in_state np EMBRYO c) HI Hr. destruct (_ !! _); [|apply kwlp_undef].
    kthru (λ c, J g ∅ R c ∧ in_state np EMBRYO c) HI Hr. kstep. kstep. destruct HI as [HJ2 HE2].
    apply (embryo_enqueue R); [done|done|]. intros w HI Hr2.
    assert (v_rest w = (true, v_on v, v_me v)) as Hr'
      by (rewrite Hr2; unfold v_rest in *; simpl; congruence). clear Hr Hr2. rename Hr' into Hr.
    kthru (λ c, J g (<[np := true]> ∅) R c ∧ in_state np EMBRYO c) HI Hr.
    kstep. apply (embryo_runnable R); [done|]. intros w' HJ3 Hr3. kstep. kstep. kstep.
    split; [done|]. rewrite Hr in Hr3. unfold v_rest in *. simpl. congruence.
Qed.
Lemma userinit_keeps_J R v :
  J g ∅ R (v_core v) → kwlp (E := E) userinit (λ _ v', settled g R false v v') v.
Proof.
  intros HJ. unfold userinit. kstep. eapply kwlp_mono; [|by apply allocproc_keeps_J].
  intros [p|] w [[HJ1 Hr] Hin]; [|apply kwlp_panic].
  assert (J g ∅ R (v_core w) ∧ in_state p EMBRYO (v_core w)) as HI by done. clear HJ1 Hin.
  kthru (λ c, J g ∅ R c ∧ in_state p EMBRYO c) HI Hr. destruct (_ =? 0); [apply kwlp_panic|].
  kthru (λ c, J g ∅ R c ∧ in_state p EMBRYO c) HI Hr. kstep. kstep. destruct HI as [HJ2 HE2].
  apply (embryo_enqueue R); [done|done|]. intros w1 HI Hr2.
  kstep. apply (embryo_runnable R); [done|]. intros w2 HJ3 Hr3. kstep.
  split; [done|]. rewrite Hr2 in Hr3. unfold v_rest in *. simpl in *. congruence.
Qed.

(** ** wakeup and kill *)
Lemma wakeup_keeps_J R ch v :
  J g ∅ R (v_core v) → kwlp (E := E) (wakeup ch) (λ _ v', settled g R false v v') v.
Proof.
  intros HJ. unfold wakeup. kstep. kstep. kstep.
  eapply (kwlp_wakeup1 g); [done|intros _; apply ex_awake_empty|]. intros c' _ HJ'. by kstep.
Qed.

Lemma J_wake_one R p x Q v :
  J g ∅ R (v_core v) → procs (v_core v) !! p = Some x → state x = SLEEPING →
  (∀ v', J g ∅ R (v_core v') → v_rest v' = v_rest v → Q tt v') →
  kwlp (E := E) (inc (enqueue_q (q_type x) p) ;; set_at p (λ y, y <| state := RUNNABLE |>)) Q v.
Proof.
  intros HJ Hx Hst HQ.
  assert (J g (<[p := false]> ∅) R (v_core v)) as HJ1.
  { eapply J_open; [done|done|done|..]; unfold live, queued; rewrite Hst; naive_solver. }
  kstep. eapply (kwlp_enqueue g); [exact HJ1|apply lookup_insert_eq|done|done|].
  intros c' Hps HJ2. rewrite insert_insert_eq in HJ2. kstep. simpl in Hx0. rewrite Hps in Hx0. simplify_eq.
  apply HQ; [|done]. rewrite <- (delete_insert_id ∅ p true) by done.
  eapply J_close; [|apply lookup_insert_eq|..].
  - eapply (J_write_ex _ _ R); [exact HJ2|apply lookup_insert_eq|simpl; by rewrite Hps|done|..|done|done|].
    + simpl. intros Hg Hf. pose proof (J_flag _ _ _ _ _ _ HJ Hx Hg Hf). congruence.
    + intros i. simpl. case_decide; [subst|done]. by rewrite (J_member _ _ _ _ _ _ HJ Hx), Hst.
  - simpl. rewrite Hps, list_lookup_insert_eq by (by eapply lookup_lt_Some). done.
  - intros _ _. unfold queued. simpl. naive_solver.
Qed.

Lemma kill_keeps_J R pd v :
  J g ∅ R (v_core v) → kwlp (E := E) (kill pd) (λ _ v', settled g R false v v') v.
Proof.
  intros HI. unfold kill. kstep. kstep. kstep. kstep.
  destruct (find_index _ _) as [p|]; [|kstep; kstep; by kstep].
  assert (J g ∅ R (v_core (v <| v_lock := true |>))) as HI' by done. clear HI. rename HI' into HI.
  assert (v_rest (v <| v_lock := true |>) = (true, v_on v, v_me v)) as Hr by done.
  kstep. eapply (kwlp_keeps _ (J g ∅ R)); [solve_keeps|done|]. intros [] w HJ Hr1. rewrite Hr in Hr1.
  kstep. kstep. kstep. kstep.
  - apply bool_decide_eq_true in Hb. apply (J_wake_one R); [done..|]. intros w' HJ' Hr2.
    kstep. kstep. kstep. split; [done|]. unfold v_rest in *. simpl. congruence.
  - kstep. kstep. kstep. split; [done|]. unfold v_rest in *. simpl. congruence.
Qed.

(** ** The running process leaves the CPU *)

(** [p] runs and, for the agreement of the queues, has no change of queue pending. *)
Definition steady p (c : core) : Prop :=
  ∃ x, procs c !! p = Some x ∧ state x = RUNNING ∧ (g = true → change_running_queue x = 0).
#[global] Instance steady_stable p : Stable (steady p).
Proof.
  split.
  - intros c q x x' (y & Hy & Hst & Hf) Hq (Hs & _ & _ & Hfl). unfold steady; simpl.
    pose proof (lookup_lt_Some _ _ _ Hq). destruct (decide (p = q)) as [->|Hne].
    + exists x'. rewrite list_lookup_insert_eq by done. simplify_eq. by rewrite Hs, Hfl.
    + exists y. by rewrite list_lookup_insert_ne.
  - intros c c' (y & Hy & Hst & Hf) (Hps & _). exists y. by rewrite Hps.
Qed.

(** cleanupCorresQueue for the running process. *)
Lemma leave_queue R p Q v :
  J g ∅ R (v_core v) → steady p (v_core v) →
  (∀ c', procs c' = procs (v_core v) → J g (<[p := false]> ∅) R c' → Q tt (v <| v_core := c' |>)) →
  kwlp (E := E) (cleanupCorresQueue p) Q v.
Proof.
  intros HJ (x & Hx & Hst & Hf) HQ.
  assert (J g (<[p := true]> ∅) R (v_core v)) as HJ1.
  { eapply J_open; [done|done|done|..]; unfold live, queued; rewrite Hst; naive_solver. }
  eapply (kwlp_cleanup g); [exact HJ1|apply lookup_insert_eq|done|].
  intros c' Hps HJ2 _. rewrite insert_insert_eq in HJ2. by apply HQ.
Qed.
Lemma leave_state R p st Q v :
  st = SLEEPING ∨ st = ZOMBIE →
  J g (<[p := false]> ∅) R (v_core v) → steady p (v_core v) →
  (∀ v', J g ∅ (R ∖ {[p]}) (v_core v') → v_rest v' = v_rest v → Q tt v') →
  kwlp (E := E) (set_at p (λ y, y <| state := st |>)) Q v.
Proof.
  intros Hcase HJ (x & Hx & Hst & Hf) HQ. kstep. simplify_eq. apply HQ; [|done].
  assert (∀ i, i ∈ R ∖ {[p]} ↔ if decide (i = p) then st = RUNNING else i ∈ R) as HR.
  { intros i. rewrite elem_of_difference, elem_of_singleton. case_decide; naive_solver. }
  rewrite <- (delete_insert_id ∅ p false) by done. eapply J_close; [|apply lookup_insert_eq|..].
  - eapply J_write_ex; [exact HJ|apply lookup_insert_eq|done|done|..|done|done].
    + simpl. intros Hg. by rewrite (Hf Hg).
    + unfold live. simpl. naive_solver.
  - simpl. rewrite list_lookup_insert_eq by (by eapply lookup_lt_Some). done.
  - intros _ _. unfold queued. simpl. naive_solver.
Qed.

(** A process that runs keeps running while others are woken. *)
Lemma calm_steady p c c' : calm c c' → steady p c → steady p c'.
Proof.
  intros Hc (x & Hx & Hst & Hf). specialize (Hc p). rewrite Hx in Hc.
  destruct (procs c' !! p) as [x'|] eqn:Hx'; [|done]. exists x'. split; [done|].
  destruct Hc as [[Es|[Es _]] Efl]; [|congruence]. by rewrite Es, Efl.
Qed.
Lemma steady_awake p c : steady p c → ex_awake (<[p := false]> ∅) (procs c).
Proof.
  intros (y & Hy & Hst & _) i z Hi Hz. rewrite lookup_insert_is_Some, lookup_empty in Hi.
  destruct Hi as [<-|[_ [? ?]]]; [|done]. simplify_eq. by rewrite Hst.
Qed.

Lemma exit_zombie_keeps_J R p v :
  J g ∅ R (v_core v) → steady p (v_core v) →
  kwlp (E := E) (exit_zombie p) (λ _ v', settled g (R ∖ {[p]}) true v v') v.
Proof.
  intros HJ Hs. unfold exit_zombie. kstep. kstep. kstep. apply (leave_queue R); [done|done|].
  intros c1 Hps1 HJ1. kstep. kstep. kstep.
  assert (steady p c1) as Hs1 by (by eapply calm_steady; [by apply calm_procs|]).
  eapply (kwlp_wakeup1 g); [exact HJ1|intros _; by apply steady_awake|]. intros c2 Hc2 HJ2. kstep. kstep. kstep.
  pose proof (calm_steady _ _ _ Hc2 Hs1) as Hs2.
  eapply (kwlp_reparent g); [exact HJ2|intros _; by apply steady_awake|].
  intros c3 Hc3 HJ3. pose proof (calm_steady _ _ _ Hc3 Hs2) as Hs3.
  kstep. apply (leave_state R); [by right|done|done|].
  intros v' HJ4 Hr. kstep. split; [done|]. by rewrite Hr.
Qed.
Lemma sleep_begin_keeps_J R p ch l v :
  J g ∅ R (v_core v) → steady p (v_core v) → v_cur v = Some p →
  (l = PtableLock → v_lock v = true) →
  kwlp (E := E) (sleep_begin ch (Some l)) (λ _ v', settled g (R ∖ {[p]}) true v v') v.
Proof.
  intros HJ Hs Hcur Hl. unfold sleep_begin. kstep. apply kwlp_myproc. rewrite Hcur. kstep.
  assert (∀ w, v_core w = v_core v → v_rest w = (true, v_on v, v_me v) →
    kwlp (E := E) (cleanupCorresQueue p ;; set_at p (λ y, y <| chan := ch |>) ;;
       set_at p (λ y, y <| state := SLEEPING |>) ;; sched_begin)
      (λ _ v', settled g (R ∖ {[p]}) true v v') w) as Hrest.
  { intros w Hw Hr. kstep. apply (leave_queue R); [by rewrite Hw|by rewrite Hw|].
    intros c1 Hps HJ1. kstep.
    eapply (kwlp_keeps _ (λ c, J g (<[p := false]> ∅) R c ∧ steady p c)); [solve_keeps| |].
    { split; [done|]. destruct Hs as (y & Hy & ?). exists y. simpl. by rewrite Hps, Hw. }
    intros [] w1 [HJ2 Hs2] Hr1. kstep. apply (leave_state R); [by left|done|done|].
    intros w2 HJ3 Hr2. kstep. split; [done|]. rewrite Hr2, Hr1. done. }
  apply kwlp_when; intros Hb.
  - kstep. kstep. apply kwlp_frame.
    { apply vw_release_other. apply negb_true_iff, bool_decide_eq_false in Hb. done. }
    intros []. by apply Hrest.
  - apply Hrest; [done|]. apply negb_false_iff, bool_decide_eq_true in Hb. unfold v_rest. by rewrite Hl.
Qed.

(** The running process, in its queue, becomes runnable again. *)
Lemma requeue_state R p Q v :
  J g (<[p := true]> ∅) R (v_core v) → steady p (v_core v) →
  (∀ v', J g ∅ (R ∖ {[p]}) (v_core v') → v_rest v' = v_rest v → Q tt v') →
  kwlp (E := E) (set_at p (λ y, y <| state := RUNNABLE |>)) Q v.
Proof.
  intros HJ (x & Hx & Hst & Hf) HQ. kstep. simplify_eq. apply HQ; [|done].
  assert (∀ i, i ∈ R ∖ {[p]} ↔ if decide (i = p) then RUNNABLE = RUNNING else i ∈ R) as HR.
  { intros i. rewrite elem_of_difference, elem_of_singleton. case_decide; naive_solver. }
  rewrite <- (delete_insert_id ∅ p true) by done. eapply J_close; [|apply lookup_insert_eq|..].
  - eapply J_write_ex; [exact HJ|apply lookup_insert_eq|done|done|..|done|done|done].
    simpl. intros Hg. by rewrite (Hf Hg).
  - simpl. rewrite list_lookup_insert_eq by (by eapply lookup_lt_Some). done.
  - intros _ _. unfold queued. simpl. naive_solver.
Qed.

(** A pending change of queue is carried out. *)
Lemma flush_pending {A} R p x (k : M K A) Q v :
  J g ∅ R (v_core v) → procs (v_core v) !! p = Some x → state x = RUNNING →
  (∀ v', J g (<[p := true]> ∅) R (v_core v') → steady p (v_core v') → v_rest v' = v_rest v → kwlp k Q v') →
  kwlp (when (negb (change_running_queue x =? 0))
      (inc (enqueue_q (q_type x) p) ;; set_at p (λ y, y <| change_running_queue := 0 |>)) ;; k) Q v.
Proof.
  intros HJ Hx Hst HQ. pose proof (lookup_lt_Some _ _ _ Hx). kstep. kstep.
  - apply negb_true_iff, Z.eqb_neq in Hb.
    assert (J g (<[p := false]> ∅) R (v_core v)) as HJ1.
    { eapply J_open; [done|done|done|..]; unfold live, queued; rewrite Hst; naive_solver. }
    kstep. eapply (kwlp_enqueue g); [exact HJ1|apply lookup_insert_eq|done|done|].
    intros c' Hps HJ2. rewrite insert_insert_eq in HJ2. kstep. simpl in Hx0. rewrite Hps in Hx0. simplify_eq.
    apply HQ; [|exists (x <| change_running_queue := 0 |>)|done].
    + eapply J_write_data; [exact HJ2|apply lookup_insert_eq|simpl; by rewrite Hps|done..| |done|done].
      unfold live. simpl. by rewrite Hst.
    + simpl. by rewrite Hps, list_lookup_insert_eq.
  - apply negb_false_iff, Z.eqb_eq in Hb. apply HQ; [|by exists x|done].
    eapply J_open; [done|done|done|..]; unfold live, queued; rewrite Hst; naive_solver.
Qed.

Lemma yield_begin_keeps_J R p v :
  J g ∅ R (v_core v) → in_state p RUNNING (v_core v) → v_cur v = Some p →
  kwlp (E := E) yield_begin (λ _ v', settled g (R ∖ {[p]}) true v v') v.
Proof.
  intros HJ Hin Hcur. unfold yield_begin. kstep. kstep. kstep. kstep. simplify_eq.
  assert (p0 = p) as -> by (unfold v_cur in *; simpl in *; congruence).
  kstep. eapply (kwlp_keeps _ (λ c, J g ∅ R c ∧ in_state p RUNNING c)); [solve_keeps|done|].
  intros [] w [HJ1 Hin1] Hr. kstep. kstep. destruct Hin1 as (y & Hy & Hst). assert (x = y) as -> by congruence.
  assert (kwlp (E := E) (when (bool_decide (q_type y = RR))
      (modc (λ c, c <| rr_counter := u32 (rr_counter c + 1) |>)))
      (λ _ v', J g ∅ R (v_core v') ∧ procs (v_core v') !! p = Some y ∧ v_rest v' = v_rest w) w) as Hrr.
  { kstep; [kstep|done]. split; [|done]. by eapply J_procs_rest. }
  kstep. eapply kwlp_mono; [|exact Hrr]. intros [] w1 (HJ2 & Hy2 & Hr2).
  apply (flush_pending R); [done..|]. intros w2 HJ3 Hs3 Hr3.
  kstep. apply (requeue_state R); [done|done|]. intros w3 HJ4 Hr4. kstep.
  split; [done|]. rewrite Hr4, Hr3, Hr2, Hr. done.
Qed.
(** ** The scheduler gives the CPU to a process *)
Lemma kwlp_set_cpu_then {A} i (f : cpu → cpu) (k : M K A) Q v :
  (∀ c, apicid (f c) = apicid c) →
  (∀ c, v_on v !! i = Some (cpu_proc c) → kwlp k Q (v <| v_on := <[i := cpu_proc (f c)]> (v_on v) |>)) →
  kwlp (c ← get_cpu L_mach i; put_cpu L_mach i (f c) ;; k) Q v.
Proof.
  intros Hf HQ s a s' Hs Hr. rewrite <- (m_bind_assoc (get_cpu L_mach i) _ (λ _, k) s) in Hr.
  revert s a s' Hs Hr. change (kwlp ((get_cpu L_mach i ≫= (λ c, put_cpu L_mach i (f c))) ≫= (λ _, k)) Q v).
  kstep. by apply kwlp_set_cpu.
Qed.

(** [v'] is [v] after its CPU was given to the runnable process [p]. *)
Definition dispatched R v p v' : Prop :=
  (p ∉ R) ∧ J g ∅ ({[p]} ∪ R) (v_core v') ∧
  ∃ i, v_me v = Some i ∧ v_rest v' = (v_lock v, <[i := Some p]> (v_on v), v_me v).

Lemma dispatch_keeps_J R p v :
  J g ∅ R (v_core v) → in_state p RUNNABLE (v_core v) →
  kwlp (E := E) (dispatch p) (λ _ v', dispatched R v p v') v.
Proof.
  intros HJ Hin. unfold dispatch. kstep.
  eapply (kwlp_keeps _ (λ c, J g ∅ R c ∧ in_state p RUNNABLE c)); [solve_keeps|done|].
  intros [] w [HJ1 Hin1] Hr. kstep. kstep. apply (kwlp_set_cpu_then i (λ c, c <| cpu_proc := Some p |>)); [done|].
  intros c _. simpl. kstep. kstep. kstep. kstep. kstep. destruct Hin1 as (y & Hy & Hst).
  assert (x = y) as -> by (simpl in *; congruence). assert (x0 = y) as -> by (simpl in *; congruence).
  assert (p ∉ R) as Hn by (rewrite (J_member _ _ _ _ _ _ HJ1 Hy), Hst; done).
  assert (g = true → change_running_queue y = 0) as Hf.
  { intros Hg. destruct (decide (change_running_queue y = 0)) as [|Hne]; [done|].
    pose proof (J_flag _ _ _ _ _ _ HJ1 Hy Hg Hne). congruence. }
  split; [done|]. split.
  - rewrite <- (delete_insert_id ∅ p true) by done. eapply J_close; [|apply lookup_insert_eq|..].
    + eapply (J_write_ex _ _ R); [eapply J_open; [exact HJ1|done|exact Hy|..]|apply lookup_insert_eq|exact Hy|done..|].
      * unfold live. by rewrite Hst.
      * unfold queued. rewrite Hst. naive_solver.
      * intros j. simpl. rewrite elem_of_union, elem_of_singleton. case_decide; naive_solver.
    + simpl. by rewrite list_lookup_insert_eq by (by eapply lookup_lt_Some).
    + intros Hg _. unfold queued. simpl. rewrite (Hf Hg). naive_solver.
  - exists i. unfold v_rest in *. simpl. split; congruence.
Qed.

(** Choosing reads the table; what it returns is runnable. *)
Definition chosen (o : option nat) (c : core) : Prop :=
  match o with Some p => in_state p RUNNABLE c | None => True end.
Lemma rr_scan_inv q i n c o c' : rr_scan q i n c = Ok o c' → c' = c ∧ chosen o c.
Proof.
  revert i. induction n as [|n IH]; intros i Hr; cbn [rr_scan] in Hr; inv_bind; [done|].
  destruct (_ : option nat) as [j|] in Hr; [|done]. inv_bind. inv_get.
  destruct (bool_decide _) eqn:Hb; [|by apply IH in Hr]. inv_bind.
  apply bool_decide_eq_true in Hb. split; [done|]. by eexists.
Qed.
Lemma choose_rr_inv q c o c' : choose_rr q c = Ok o c' → c' = c ∧ chosen o c.
Proof.
  unfold choose_rr. intros Hr. inv_bind. destruct (_ : option nat) as [j|] in Hr; [|done]. inv_bind.
  inv_get. destruct (state _) eqn:Hst in Hr; try done.
  - inv_bind. split; [done|]. by eexists.
  - by eapply rr_scan_inv.
Qed.
Lemma lcfs_scan_inv q i c o c' : lcfs_scan q i c = Ok o c' → c' = c ∧ chosen o c.
Proof.
  induction i as [|i IH]; intros Hr; cbn [lcfs_scan] in Hr; inv_bind; [done|].
  destruct (_ : option nat) as [j|] in Hr; [|done]. inv_bind. inv_get.
  destruct (bool_decide _) eqn:Hb; [|by apply IH in Hr]. inv_bind.
  apply bool_decide_eq_true in Hb. split; [done|]. by eexists.
Qed.
Lemma choose_lcfs_inv q c o c' : choose_lcfs q c = Ok o c' → c' = c ∧ chosen o c.
Proof.
  unfold choose_lcfs. intros Hr. inv_bind. destruct (_ : option nat) as [j|] in Hr; [|done]. inv_bind.
  inv_get. destruct (state _) eqn:Hst in Hr; try done.
  - inv_bind. split; [done|]. by eexists.
  - by eapply lcfs_scan_inv.
Qed.
Lemma bjf_scan_inv q i n acc c r c' : bjf_scan q i n acc c = Ok r c' → c' = c ∧ fst (fst r) = fst (fst acc).
Proof.
  revert i acc. induction n as [|n IH]; intros i acc Hr; cbn [bjf_scan] in Hr; inv_bind; [done|].
  destruct (_ : option nat) as [j|] in Hr; [|done]. inv_bind. inv_get.
  destruct (negb _); [by apply IH in Hr|]. destruct acc as [[found o] w].
  apply IH in Hr as [-> ->]. by case_match.
Qed.
Lemma choose_bjf_inv q c o c' : choose_bjf q c = Ok o c' → c' = c ∧ chosen o c.
Proof.
  unfold choose_bjf. intros Hr. inv_bind. destruct a as [[found p] w].
  apply bjf_scan_inv in H0 as [-> Hf]. simpl in Hf. subst found. by inv_bind.
Qed.

(** What a pass leaves: the CPU idle, or given to a process. *)
Definition passed R v (r : pass_result) v' : Prop :=
  match r with
  | Switch p _ => dispatched R v p v'
  | PassDone => J g ∅ R (v_core v') ∧ v_rest v' = v_rest v
  end.

Lemma def_scan_keeps_J R l v :
  J g ∅ R (v_core v) → kwlp (E := E) (def_scan l) (passed R v) v.
Proof.
  intros HJ. induction l as [|p l IH]; cbn [def_scan]; [by kstep|].
  kstep. kstep. destruct (negb _) eqn:Hb; [done|].
  apply negb_false_iff, bool_decide_eq_true in Hb. kstep.
  eapply kwlp_mono; [|apply dispatch_keeps_J; [done|by exists x]]. intros [] w Hw. by kstep.
Qed.

Lemma scheduler_choose_keeps_J R v :
  J g ∅ R (v_core v) → kwlp (E := E) scheduler_choose (passed R v) v.
Proof.
  intros HJ. unfold scheduler_choose. do 6 kstep.
  assert (∀ m, (∀ o c', m (v_core v) = Ok o c' → c' = v_core v ∧ chosen o (v_core v)) →
    kwlp (E := E) (inc m ≫= λ o, match o with
       | Some p => dispatch p ≫= λ _, mret (Switch p None) | None => mret PassDone end) (passed R v) v) as Hm.
  { intros m Hm. kstep. apply kwlp_inc. intros o c' [-> Ho]%Hm. rewrite set_core_id.
    destruct o as [p|]; [|by kstep]. kstep.
    eapply kwlp_mono; [|by apply dispatch_keeps_J]. intros [] w Hw. by kstep. }
  destruct (0 <=? _); [|destruct (0 <=? _); [|destruct (0 <=? _)]].
  - apply Hm. intros o c'. apply choose_rr_inv.
  - apply Hm. intros o c'. apply choose_lcfs_inv.
  - apply Hm. intros o c'. apply choose_bjf_inv.
  - by apply def_scan_keeps_J.
Qed.
Lemma scheduler_begin_keeps_J R v :
  J g ∅ R (v_core v) →
  kwlp (E := E) scheduler_begin (λ r v', match r with
    | Switch p _ => dispatched R (v <| v_lock := true |>) p v'
    | PassDone => settled g R false v v' end) v.
Proof.
  intros HJ. unfold scheduler_begin. kstep. kstep. kstep. kstep. kstep.
  eapply kwlp_mono; [|by apply scheduler_choose_keeps_J]. intros [p res|] w Hw; [by kstep|].
  destruct Hw as [HJ' Hr]. kstep. kstep. kstep. split; [done|]. unfold v_rest in *; simpl in *. congruence.
Qed.

Lemma scheduler_end_keeps_J R i res v :
  J g ∅ R (v_core v) → v_lock v = true → v_me v = Some i →
  let v1 := v <| v_on := <[i := None]> (v_on v) |> in
  kwlp (E := E) (scheduler_end res) (λ r v', match r with
    | Switch p _ => dispatched R v1 p v'
    | PassDone => settled g R false v1 v' end) v.
Proof.
  intros HJ Hl Hi v1. unfold scheduler_end, undispatch. kstep. kstep. kstep. kstep. kstep. simplify_eq.
  apply (kwlp_set_cpu i (λ c, c <| cpu_proc := None |>)); [done|]. intros c _. fold v1.
  destruct res as [k|].
  - kstep. eapply kwlp_mono; [|by apply def_scan_keeps_J].
    intros [p res|] w Hw; [by kstep|]. destruct Hw as [HJ' Hr]. kstep. kstep. kstep.
    split; [done|]. unfold v_rest in *; simpl in *. congruence.
  - kstep. kstep. by kstep.
Qed.

(** ** The code after the context switch *)
Lemma yield_end_keeps_J R p v :
  J g ∅ R (v_core v) → kwlp (E := E) (yield_end p) (λ _ v', settled g R false v v') v.
Proof. intros HJ. unfold yield_end. kstep. kstep. by kstep. Qed.
Lemma sleep_end_keeps_J R p l v :
  J g ∅ R (v_core v) → v_lock v = true →
  kwlp (E := E) (sleep_end p l) (λ _ v', settled g R (bool_decide (l = PtableLock)) v v') v.
Proof.
  intros HJ Hl. unfold sleep_end. kstep. kstep. kstep.
  eapply (kwlp_keeps _ (J g ∅ R)); [solve_keeps|done|]. intros [] w HJ1 Hr.
  destruct (decide (l = PtableLock)) as [->|Hne].
  - rewrite bool_decide_eq_true_2 by done. kstep; [done|]. split; [done|]. rewrite Hr. unfold v_rest. by rewrite Hl.
  - rewrite bool_decide_eq_false_2 by done. kstep; [|done]. kstep. kstep.
    apply kwlp_frame; [by apply vw_acquire_other|]. intros []. split; [done|].
    unfold v_rest in *; simpl in *. congruence.
Qed.
Lemma forkret_keeps_J R v :
  J g ∅ R (v_core v) → kwlp (E := E) forkret (λ _ v', settled g R false v v') v.
Proof.
  intros HJ. unfold forkret. kstep. kstep. kstep. kstep.
  eapply (kwlp_keeps _ (J g ∅ R)); [solve_keeps|done|]. intros [] w HJ1 Hr. by split.
Qed.

(** ** wait *)
Lemma wait_scan_keeps_J R cp l hk v :
  J g ∅ R (v_core v) →
  kwlp (E := E) (wait_scan cp l hk) (λ r v', match r with
    | WNone _ => v' = v | WReaped _ => J g ∅ R (v_core v') ∧ v_rest v' = v_rest v end) v.
Proof.
  intros HJ. revert hk. induction l as [|p l IH]; intros hk; cbn [wait_scan]; [by kstep|].
  kstep. kstep. destruct (negb _); [done|]. destruct (bool_decide (state x = ZOMBIE)) eqn:Hb; [|done].
  apply bool_decide_eq_true in Hb. kstep. kstep.
  kstep. eapply (kwlp_keeps _ (λ c, J g ∅ R c ∧ in_state p ZOMBIE c)); [solve_keeps|by split; [|exists x]|].
  intros [] w [HJ1 (y & Hy & Hst)] Hr. kstep. kstep. kstep. kstep. kstep.
  assert (x0 = y) as -> by congruence.
  split; [|done]. by eapply J_free; rewrite ?Hst.
Qed.

Lemma wait_turn_keeps_J R cp v :
  J g ∅ R (v_core v) → v_lock v = true → v_cur v = Some cp → steady cp (v_core v) →
  kwlp (E := E) (wait_turn cp) (λ r v', match r with
    | WRet _ => settled g R false v v' | WSlept => settled g (R ∖ {[cp]}) true v v' end) v.
Proof.
  intros HJ Hl Hcur Hs. unfold wait_turn. kstep. eapply kwlp_mono; [|by apply wait_scan_keeps_J].
  intros [pd|hk] w Hw.
  - destruct Hw as [HJ1 Hr]. kstep. kstep. kstep. split; [done|]. unfold v_rest in *; simpl in *. congruence.
  - subst w. kstep. kstep. destruct (_ || _).
    + kstep. kstep. by kstep.
    + kstep. eapply kwlp_mono; [|by apply (sleep_begin_keeps_J R cp)]. intros [] w Hw. by kstep.
Qed.
Lemma wait_keeps_J R cp v :
  J g ∅ R (v_core v) → v_cur v = Some cp → steady cp (v_core v) →
  kwlp (E := E) wait (λ r v', match r with
    | WRet _ => settled g R false v v' | WSlept => settled g (R ∖ {[cp]}) true v v' end) v.
Proof.
  intros HJ Hcur Hs. unfold wait. kstep. kstep. simplify_eq. kstep. kstep.
  eapply kwlp_mono; [|by apply (wait_turn_keeps_J R cp (v <| v_lock := true |>))]. by intros [].
Qed.
Lemma rewait_keeps_J R cp v :
  J g ∅ R (v_core v) → v_lock v = true → v_cur v = Some cp → steady cp (v_core v) →
  kwlp (E := E) (sleep_end cp PtableLock ;; wait_turn cp) (λ r v', match r with
    | WRet _ => settled g R false v v' | WSlept => settled g (R ∖ {[cp]}) true v v' end) v.
Proof.
  intros HJ Hl Hcur Hs. kstep. unfold sleep_end. kstep. kstep. kstep.
  eapply (kwlp_keeps _ (λ c, J g ∅ R c ∧ steady cp c)); [solve_keeps|done|]. intros [] w [HJ1 Hs1] Hr.
  kstep; [done|]. assert (v_lock w = v_lock v ∧ v_on w = v_on v ∧ v_me w = v_me v) as (E1 & E2 & E3).
  { unfold v_rest in Hr. by simplify_eq. }
  eapply kwlp_mono; [|apply (wait_turn_keeps_J R cp w); [done|congruence| |done]].
  - intros [] w'; unfold settled; by rewrite E2, E3.
  - rewrite <- Hcur. unfold v_cur. by rewrite E2, E3.
Qed.

(** ** Aging *)

(** A process that is in its queue moves to the queue of kind [t], in three
    steps: out, change of kind, in. *)
Definition of_kind p t st (c : core) : Prop :=
  ∃ x, procs c !! p = Some x ∧ q_type x = t ∧ state x = st.
Lemma move_out R p st v :
  J g ∅ R (v_core v) → st = RUNNABLE ∧ in_state p st (v_core v) ∨ st = RUNNING ∧ steady p (v_core v) →
  kwlp (E := E) (cleanupCorresQueue p) (λ _ v',
    J g (<[p := false]> ∅) R (v_core v') ∧ in_state p st (v_core v') ∧ v_rest v' = v_rest v) v.
Proof.
  intros HJ Hst.
  assert (∃ x, procs (v_core v) !! p = Some x ∧ state x = st ∧ live x ∧ (g = true → queued x))
    as (x & Hx & Hsx & Hlv & Hq).
  { destruct Hst as [[-> (x & Hx & Hst)]|[-> (x & Hx & Hst & Hf)]]; exists x; unfold queued, live;
      rewrite Hst; split_and!; try done; auto. }
  eapply (kwlp_cleanup g); [|apply lookup_insert_eq|done|].
  - eapply J_open; [done|done|done|done|]. intros Hg. split; [done|by auto].
  - intros c' Hps HJ' _. rewrite insert_insert_eq in HJ'. split; [done|]. split; [|done].
    exists x. simpl. by rewrite Hps.
Qed.
Lemma move_kind R p t st v :
  J g (<[p := false]> ∅) R (v_core v) → in_state p st (v_core v) → st ≠ UNUSED →
  kwlp (E := E) (set_at p (λ y, y <| q_type := t |>)) (λ _ v',
    J g (<[p := false]> ∅) R (v_core v') ∧ of_kind p t st (v_core v') ∧ v_rest v' = v_rest v) v.
Proof.
  intros HJ (x & Hx & Hst) Hl. kstep. simplify_eq. split; [|split; [|done]].
  - eapply J_write_data; [exact HJ|apply lookup_insert_eq|done|..]; unfold live; try done.
    simpl. by eapply J_flag.
  - exists (x <| q_type := t |>). simpl. by rewrite list_lookup_insert_eq by (by eapply lookup_lt_Some).
Qed.
Lemma move_in R p t v :
  J g (<[p := false]> ∅) R (v_core v) → of_kind p t RUNNABLE (v_core v) →
  kwlp (E := E) (inc (enqueue_q t p)) (λ _ v', J g ∅ R (v_core v') ∧ v_rest v' = v_rest v) v.
Proof.
  intros HJ (x & Hx & Hq & Hst). eapply (kwlp_enqueue g); [exact HJ|apply lookup_insert_eq|done|done|].
  intros c' Hps HJ'. rewrite insert_insert_eq in HJ'. split; [|done].
  rewrite <- (delete_insert_id ∅ p true) by done.
  eapply (J_close _ _ _ _ p x); [exact HJ'|apply lookup_insert_eq|simpl; by rewrite Hps|].
  intros _ _. unfold queued. rewrite Hst. naive_solver.
Qed.

Lemma aging_one_keeps_J R p v :
  J g ∅ R (v_core v) →
  kwlp (E := E) (aging_one p) (λ _ v', J g ∅ R (v_core v') ∧ v_rest v' = v_rest v) v.
Proof.
  intros HJ. unfold aging_one. kstep. kstep. kstep; [|done]. apply bool_decide_eq_true in Hb.
  kstep. eapply (kwlp_keeps _ (λ c, J g ∅ R c ∧ in_state p RUNNABLE c)); [solve_keeps|by split; [|exists x]|].
  intros [] w [HJ1 Hin] Hr. kstep. kstep. kstep; [|done].
  kstep. eapply kwlp_mono; [|by apply (move_out R p RUNNABLE); [|left]]. intros [] w1 (HJ2 & Hin2 & Hr2).
  kstep. eapply kwlp_mono; [|by apply (move_kind R p RR RUNNABLE)]. intros [] w2 (HJ3 & Hk & Hr3).
  eapply kwlp_mono; [|by apply (move_in R)]. intros [] w3 [HJ4 Hr4]. split; [done|congruence].
Qed.
Lemma kwlp_for_each {I : Type} (l : list I) (body : I → M K unit) (P : vst → Prop) v :
  (∀ i w, P w → kwlp (body i) (λ _ w', P w') w) → P v → kwlp (for_each l body) (λ _ w', P w') v.
Proof.
  intros Hb. revert v. induction l as [|i l IH]; intros v Hv; simpl; [by kstep|].
  kstep. eapply kwlp_mono; [|by apply Hb]. intros [] w Hw. by apply IH.
Qed.
Lemma agingMechanism_keeps_J R v :
  J g ∅ R (v_core v) → kwlp (E := E) agingMechanism (λ _ v', settled g R false v v') v.
Proof.
  intros HJ. unfold agingMechanism. kstep. kstep.
  assert (∀ w, J g ∅ R (v_core w) → v_on w = v_on v → v_me w = v_me v →
    kwlp (E := E) (for_each all_procs aging_one ;; release_lk PtableLock)
      (λ _ v', settled g R false v v') w) as Hrest.
  { intros w HJ1 H1 H2. kstep. eapply kwlp_mono; [|apply (kwlp_for_each _ _
      (λ w', J g ∅ R (v_core w') ∧ v_rest w' = v_rest w)); [|done]].
    - intros [] w' [HJ2 Hr]. kstep. split; [done|]. unfold v_rest in *; simpl in *. congruence.
    - intros i w' [HJ2 Hr]. eapply kwlp_mono; [|by apply aging_one_keeps_J].
      intros [] w2 [? ?]. split; [done|congruence]. }
  kstep. kstep; [kstep|]; by apply Hrest.
Qed.

(** ** The system calls that move processes between queues *)
(** No running process with the pid has a change of queue pending. *)
Definition no_pending (pd : Z) (c : core) : Prop :=
  ∀ p x, procs c !! p = Some x → pid x = pd → state x = RUNNING → change_running_queue x = 0.

Lemma kwlp_find_pid pd Q v : (∀ p, Q p v) → kwlp (E := E) (inc (find_pid pd)) Q v.
Proof. intros HQ. apply kwlp_inc. intros p c' Hf. injection Hf as _ <-. rewrite set_core_id. apply HQ. Qed.
Lemma change_queue_known R pd qid t v :
  J g ∅ R (v_core v) → queue_of_id qid = Some t → (g = true → no_pending pd (v_core v)) →
  kwlp (E := E) (change_queue pd qid) (λ _ v', settled g R false v v') v.
Proof.
  intros HJ Ht Hnp. unfold change_queue. rewrite Ht. kstep. kstep. kstep. apply kwlp_find_pid. intros p. kstep. kstep.
  destruct (negb (pid x =? pd)) eqn:Hpd; [by kstep|]. apply negb_false_iff, Z.eqb_eq in Hpd.
  simpl in Hx. assert (g = true → state x = RUNNING → change_running_queue x = 0) as Hnp'
    by (intros Hg; exact (Hnp Hg p x Hx Hpd)). clear Hnp. pose proof (lookup_lt_Some _ _ _ Hx).
  set (w := v <| v_lock := true |>) in *. assert (v_rest w = (true, v_on v, v_me v)) as Hr by done.
  assert (J g ∅ R (v_core w)) as HJw by done. change (procs (v_core w) !! p = Some x) in Hx. clearbody w.
  destruct (decide (state x = RUNNABLE)) as [Hst|Hnr]; [|destruct (decide (state x = RUNNING)) as [Hst|Hnr']].
  - rewrite Hst. simpl. kstep.
    eapply kwlp_mono; [|apply (move_out R p RUNNABLE); [done|left; split; [done|by exists x]]].
    intros [] w1 (HJ1 & Hin1 & Hr1). kstep. kstep.
    eapply kwlp_mono; [|by apply (move_kind R p t RUNNABLE)]. intros [] w2 (HJ2 & Hk & Hr2).
    eapply kwlp_mono; [|by apply (move_in R)]. intros [] w3 [HJ3 Hr3]. kstep. kstep. kstep.
    split; [done|]. unfold v_rest in *; simpl in *. congruence.
  - rewrite Hst. simpl. kstep.
    eapply kwlp_mono; [|apply (move_out R p RUNNING); [done|right; split; [done|exists x; by auto]]].
    intros [] w1 (HJ1 & Hin1 & Hr1). kstep. kstep.
    eapply kwlp_mono; [|by apply (move_kind R p t RUNNING)]. intros [] w2 (HJ2 & (y & Hy & Hq & Hsy) & Hr2).
    kstep. kstep. kstep. kstep. split; [|unfold v_rest in *; simpl in *; congruence].
    assert (x0 = y) as -> by congruence. rewrite <- (delete_insert_id ∅ p false) by done.
    eapply J_close; [|apply lookup_insert_eq|..].
    + eapply J_write_data; [exact HJ2|apply lookup_insert_eq|exact Hy|done|done| |done|done].
      unfold live. simpl. by rewrite Hsy.
    + simpl. by rewrite list_lookup_insert_eq by (by eapply lookup_lt_Some).
    + intros _ _. unfold queued. simpl. rewrite Hsy. split; [intros [?|[_ ?]]|]; done.
  - rewrite (bool_decide_eq_false_2 (state x = RUNNABLE)), (bool_decide_eq_false_2 (state x = RUNNING)) by done.
    simpl. kstep. kstep. kstep. kstep. kstep. assert (x0 = x) as -> by congruence. kstep. kstep. kstep. kstep.
    split; [|unfold v_rest in *; simpl in *; congruence].
    eapply (J_idle g ∅ R (v_core w) _ p x (x <| q_type := t |>)); try done.
    unfold live. simpl. intros Hg Hl. destruct (proj1 HJw Hg) as [qs Hc]. split; [by eapply (ci_pid_range Hc)|by left].
Qed.

(** For an unknown queue the code still takes the process out of its queue and puts
    it into none: the queues no longer agree with the table. *)
Lemma J_false ex ex' R c : g = false → J g ex R c → J g ex' R c.
Proof. intros Hg [_ HR]. split; [|done]. by rewrite Hg. Qed.
Lemma change_queue_unknown R pd qid v :
  J g ∅ R (v_core v) → queue_of_id qid = None → g = false →
  kwlp (E := E) (change_queue pd qid) (λ _ v', settled g R false v v') v.
Proof.
  intros HJ Ht Hg. unfold change_queue. rewrite Ht. kstep. kstep. kstep. apply kwlp_find_pid. intros p. kstep. kstep.
  destruct (negb (pid x =? pd)) eqn:Hpd; [by kstep|].
  set (w := v <| v_lock := true |>) in *. assert (v_rest w = (true, v_on v, v_me v)) as Hr by done.
  assert (J g ∅ R (v_core w)) as HJw by done. change (procs (v_core w) !! p = Some x) in Hx. clearbody w.
  assert (∀ w', J g ∅ R (v_core w') → procs (v_core w') = procs (v_core w) → v_rest w' = v_rest w →
    kwlp (E := E) (when (bool_decide (state x = RUNNING)) (set_at p (λ y, y <| change_running_queue := 1 |>)) ;;
      release_lk PtableLock) (λ _ v', settled g R false v v') w') as Hk.
  { intros w' HJ' Hps Hr'. kstep. kstep; [kstep|]; kstep; (split; [|unfold v_rest in *; simpl in *; congruence]); [|done].
    apply (J_false (<[p := false]> ∅)); [done|]. eapply J_write_data; [by apply (J_false ∅)|apply lookup_insert_eq|done|done| | |done|done].
    - intros ?. congruence.
    - unfold live. simpl. apply bool_decide_eq_true in Hb. rewrite Hps in Hx0. simplify_eq. by rewrite Hb. }
  kstep. kstep; [|kstep; kstep; by apply Hk].
  eapply (kwlp_cleanup g (<[p := true]> ∅)); [by apply (J_false ∅)|apply lookup_insert_eq|done|].
  intros c' Hps HJ' _. kstep. kstep. apply Hk; [|done|done]. by eapply J_false.
Qed.
Lemma change_queue_keeps_J R pd qid v :
  J g ∅ R (v_core v) → (g = true → is_Some (queue_of_id qid) ∧ no_pending pd (v_core v)) →
  kwlp (E := E) (change_queue pd qid) (λ _ v', settled g R false v v') v.
Proof.
  intros HJ Hg. destruct (queue_of_id qid) as [t|] eqn:Ht.
  - eapply change_queue_known; [done|done|]. by intros [_ ?]%Hg.
  - eapply change_queue_unknown; [done|done|]. destruct g; [|done]. by destruct Hg as [[? ?] _].
Qed.

Lemma change_local_bjf_keeps_J R pd a b c d v :
  J g ∅ R (v_core v) →
  kwlp (E := E) (change_local_bjf pd a b c d) (λ _ v', settled g R false v v') v.
Proof.
  intros HJ. unfold change_local_bjf. kstep. kstep. kstep. apply kwlp_find_pid. intros p.
  kstep. eapply (kwlp_keeps _ (J g ∅ R)); [solve_keeps|done|]. intros [] w HJ1 Hr.
  kstep. kstep. kstep. split; [done|]. unfold v_rest in *; simpl in *. congruence.
Qed.
Lemma change_global_bjf_keeps_J R a b c d v :
  J g ∅ R (v_core v) →
  kwlp (E := E) (change_global_bjf a b c d) (λ _ v', settled g R false v v') v.
Proof.
  intros HJ. unfold change_global_bjf. kstep. kstep. kstep. apply kwlp_inc. intros [] c' Hrun.
  assert (J g ∅ R c') as HJ'.
  { clear -HJ Hrun. change (v_core (v <| v_lock := true |>)) with (v_core v) in Hrun.
    revert Hrun HJ. generalize (v_core v). generalize all_procs. intros l. induction l as [|p l IH]; intros c0 Hrun HJ; cbn [for_each] in Hrun.
    - by inv_bind.
    - apply bind_ok in Hrun as ([] & c1 & H1 & Hrun). apply upd_proc_inv in H1 as (x & Hx & ->).
      eapply IH; [exact Hrun|]. by eapply stable_write. }
  kstep. kstep. kstep. kstep. kstep. split; [|done]. by eapply stable_frame.
Qed.
End ops.
