(* ===== verification/System.v ===== *)
(** * The scheduler as a transition system

    Several CPUs run kernel threads over one process table.  A CPU is in one of
    four phases: its scheduler is between two passes ([Idle]), it runs the thread
    of a process ([Running]), the scheduler has switched to a process whose code
    has not yet gone on ([Arriving]), or a process has switched away and the
    scheduler has not yet gone on ([Leaving]); in the last two the CPU holds
    ptable.lock.  A step is one critical section of proc.c on the executing CPU,
    or a change elsewhere that leaves the scheduling fields alone.

    [step false] has all behaviours of the code.  [step true] leaves out those
    that break the agreement of the queues with the table: change_queue() for a
    queue that does not exist or on a running process whose last change of queue
    is still pending, and exit(), sleep() and wait() of a process whose change of
    queue is pending.  Nothing in the kernel prevents them. *)

From S2P Require Import Prelude Spinlock Queue CStr Proc ProcInv ProcOps KStep Keep SchedInv.

Inductive phase :=
| Idle
| Running (p : nat) (resume : option nat)
| Arriving (p : nat) (resume : option nat)
| Leaving (p : nat) (resume : option nat).

Definition owner (φ : phase) : option nat :=
  match φ with Idle => None | Running p _ | Arriving p _ | Leaving p _ => Some p end.
Definition executes (φ : phase) : option nat :=
  match φ with Running p _ | Arriving p _ => Some p | _ => None end.
Definition switching (φ : phase) : bool :=
  match φ with Arriving _ _ | Leaving _ _ => true | _ => false end.

(** Where a pass of the scheduler leaves its CPU. *)
Definition phase_of_pass (r : pass_result) : phase :=
  match r with Switch p res => Arriving p res | PassDone => Idle end.

Section system.
Context {E : Type} `{KEnv E}.
Abbreviation K := (kern E).
Implicit Types (s : K).
Record sys := mkSys { ker : K; phs : list phase }.

(** Critical sections that leave every CPU where it is. *)
Inductive shared : ∀ A, M K A → Prop :=
| shared_wakeup ch : shared _ (wakeup ch)
| shared_kill pd : shared _ (kill pd)
| shared_aging : shared _ agingMechanism
| shared_alloc : shared _ allocproc
| shared_userinit : shared _ userinit
| shared_local_bjf pd a b c d : shared _ (change_local_bjf pd a b c d)
| shared_global_bjf a b c d : shared _ (change_global_bjf a b c d).
Arguments shared {A} _.

(** What a process runs when it is switched to: the rest of yield or of sleep, or
    forkret for a new one. *)
Inductive resumption (p : nat) : M K unit → Prop :=
| resume_yield : resumption p (yield_end p)
| resume_sleep l : l ≠ PtableLock → resumption p (sleep_end p l)
| resume_fork : resumption p forkret.

(** No change of queue of process [p] is pending. *)
Definition unchanged (p : nat) (c : core) : Prop :=
  ∀ x, procs c !! p = Some x → change_running_queue x = 0.

(** CPU [i] executes, in phase [φ]. *)
Definition on_cpu (i : nat) (φ : phase) (σ : sys) : Prop :=
  phs σ !! i = Some φ ∧ v_me (vw (ker σ)) = Some i.
Definition lock_free (σ : sys) : Prop := v_lock (vw (ker σ)) = false.
Definition table (σ : sys) : core := k_core (ker σ).

(** The guards that depend on [g] are the ones that the code does not check.  The
    child that fork_child completes is the one that allocproc returned to the same
    fork(), still an EMBRYO. *)
Inductive step (g : bool) : sys → sys → Prop :=
| step_env s s' ps :
    v_core (vw s') = v_core (vw s) → v_lock (vw s') = v_lock (vw s) → v_on (vw s') = v_on (vw s) →
    step g (mkSys s ps) (mkSys s' ps)
| step_local A (m : M K A) a s s' ps :
    keeps m → m s = Ok a s' → step g (mkSys s ps) (mkSys s' ps)
| step_shared A (m : M K A) a s s' ps :
    shared m → lock_free (mkSys s ps) → m s = Ok a s' → step g (mkSys s ps) (mkSys s' ps)
| step_change_queue pd qid s s' ps :
    lock_free (mkSys s ps) →
    (g = true → is_Some (queue_of_id qid) ∧ no_pending pd (k_core s)) →
    change_queue pd qid s = Ok tt s' → step g (mkSys s ps) (mkSys s' ps)
| step_fork_child cp np r s s' ps :
    lock_free (mkSys s ps) → in_state np EMBRYO (k_core s) →
    fork_child cp np s = Ok r s' → step g (mkSys s ps) (mkSys s' ps)
| step_exit i p res s s' ps :
    on_cpu i (Running p res) (mkSys s ps) → lock_free (mkSys s ps) → (g = true → unchanged p (k_core s)) →
    exit_zombie p s = Ok tt s' → step g (mkSys s ps) (mkSys s' (<[i := Leaving p res]> ps))
| step_sleep i p res ch l s s' ps :
    on_cpu i (Running p res) (mkSys s ps) → lock_free (mkSys s ps) → (g = true → unchanged p (k_core s)) →
    l ≠ PtableLock → sleep_begin ch (Some l) s = Ok tt s' →
    step g (mkSys s ps) (mkSys s' (<[i := Leaving p res]> ps))
| step_wait i p res r s s' ps :
    on_cpu i (Running p res) (mkSys s ps) → lock_free (mkSys s ps) → (g = true → unchanged p (k_core s)) →
    wait s = Ok r s' →
    step g (mkSys s ps) (mkSys s' (match r with WRet _ => ps | WSlept => <[i := Leaving p res]> ps end))
| step_yield i p res s s' ps :
    on_cpu i (Running p res) (mkSys s ps) → lock_free (mkSys s ps) →
    yield_begin s = Ok tt s' → step g (mkSys s ps) (mkSys s' (<[i := Leaving p res]> ps))
| step_scheduler i r s s' ps :
    on_cpu i Idle (mkSys s ps) → lock_free (mkSys s ps) →
    scheduler_begin s = Ok r s' → step g (mkSys s ps) (mkSys s' (<[i := phase_of_pass r]> ps))
| step_back i p res r s s' ps :
    on_cpu i (Leaving p res) (mkSys s ps) →
    scheduler_end res s = Ok r s' → step g (mkSys s ps) (mkSys s' (<[i := phase_of_pass r]> ps))
| step_resume i p res m s s' ps :
    on_cpu i (Arriving p res) (mkSys s ps) → resumption p m →
    m s = Ok tt s' → step g (mkSys s ps) (mkSys s' (<[i := Running p res]> ps))
| step_rewait i p res r s s' ps :
    on_cpu i (Arriving p res) (mkSys s ps) → (g = true → unchanged p (k_core s)) →
    (sleep_end p PtableLock ;; wait_turn p) s = Ok r s' →
    step g (mkSys s ps)
      (mkSys s' (<[i := match r with WRet _ => Running p res | WSlept => Leaving p res end]> ps)).

(** Leaving out behaviours gives fewer. *)
Lemma step_any σ σ' : step true σ σ' → step false σ σ'.
Proof.
  intros Hs. destruct Hs;
    [eapply step_env|eapply step_local|eapply step_shared|eapply step_change_queue|eapply step_fork_child
    |eapply step_exit|eapply step_sleep|eapply step_wait|eapply step_yield|eapply step_scheduler
    |eapply step_back|eapply step_resume|eapply step_rewait];
    (eassumption || discriminate).
Qed.

(** ** The invariant *)
Section inv.
Context (g : bool).
Record sinv (R : gset nat) (v : vst) (ps : list phase) : Prop := {
  si_table : J g ∅ R (v_core v);
  si_running : ∀ p, p ∈ R ↔ ∃ j φ, ps !! j = Some φ ∧ executes φ = Some p;
  si_owner : ∀ j k φ ψ p, ps !! j = Some φ → ps !! k = Some ψ →
    owner φ = Some p → owner ψ = Some p → j = k;
  si_on : v_on v = owner <$> ps;
  si_lock : ∀ j φ, ps !! j = Some φ → switching φ = true →
    v_lock v = true ∧ ∀ k ψ, ps !! k = Some ψ → switching ψ = true → k = j }.
Definition sys_inv (σ : sys) : Prop := ∃ R, sinv R (vw (ker σ)) (phs σ).

Lemma executes_owner φ : switching φ = false → owner φ = executes φ.
Proof. by destruct φ. Qed.
Lemma executes_Some φ p : executes φ = Some p → owner φ = Some p.
Proof. by destruct φ. Qed.

(** Nothing moves: the table still satisfies [J] for the same set. *)
Lemma sinv_stay R v v' ps :
  sinv R v ps → J g ∅ R (v_core v') → v_on v' = v_on v → v_lock v' = v_lock v → sinv R v' ps.
Proof. intros [] HJ Hon Hl. split; rewrite ?Hon, ?Hl; done. Qed.

Lemma no_switching R v ps i φ j ψ :
  sinv R v ps → ps !! i = Some φ → v_lock v = false ∨ switching φ = true →
  j ≠ i → ps !! j = Some ψ → switching ψ = false.
Proof.
  intros Hs Hi Hor Hji Hj. destruct (switching ψ) eqn:Hψ; [|done]. exfalso.
  destruct (si_lock _ _ _ Hs j ψ Hj Hψ) as [Hl Huniq]. destruct Hor as [Hf|Hf]; [congruence|].
  by apply Hji, eq_sym, (Huniq i φ).
Qed.

(** CPU [i] goes from [φ] to [φ']. *)
Lemma sinv_move R R' v v' ps i φ φ' :
  sinv R v ps → ps !! i = Some φ → v_lock v = false ∨ switching φ = true →
  J g ∅ R' (v_core v') → v_on v' = <[i := owner φ']> (v_on v) →
  (∀ p, p ∈ R' ↔ executes φ' = Some p ∨ (p ∈ R ∧ executes φ ≠ Some p)) →
  (∀ p, owner φ' = Some p → owner φ = Some p ∨ p ∉ R) →
  (switching φ' = true → v_lock v' = true) →
  sinv R' v' (<[i := φ']> ps).
Proof.
  intros Hs Hi Hor HJ Hon HR Hown Hlk. pose proof (lookup_lt_Some _ _ _ Hi) as Hlt.
  pose proof (no_switching R v ps i φ) as Hns.
  assert (∀ j ψ p, j ≠ i → ps !! j = Some ψ → owner ψ = Some p → owner φ' = Some p → False) as Hsep.
  { intros j ψ p Hji Hj Ho Ho'. destruct (Hown p Ho') as [Hφ|Hn].
    - by apply Hji, (si_owner _ _ _ Hs _ _ _ _ _ Hj Hi Ho).
    - apply Hn, (si_running _ _ _ Hs). exists j, ψ. split; [done|].
      rewrite <- executes_owner; [done|]. by eapply Hns. }
  split; [done|..].
  - intros p. rewrite HR, (si_running _ _ _ Hs). split.
    + intros [Hp|[(j & ψ & Hj & Hψ) Hne]].
      * exists i, φ'. by rewrite list_lookup_insert_eq.
      * exists j, ψ. rewrite list_lookup_insert_ne; [done|]. congruence.
    + intros (j & ψ & [[<- <-]|[Hij Hj]]%lookup_insert_Some_inv & Hψ); [by left|].
      right. split; [by eauto|]. intros Hφ. apply Hij.
      by eapply (si_owner _ _ _ Hs _ _ _ _ p Hi Hj); apply executes_Some.
  - intros j k ψ χ p [[<- <-]|[? Hj]]%lookup_insert_Some_inv [[<- <-]|[? Hk]]%lookup_insert_Some_inv Ho1 Ho2;
      [done|exfalso; by eapply (Hsep k)|exfalso; by eapply (Hsep j)|].
    by eapply (si_owner _ _ _ Hs).
  - by rewrite Hon, (si_on _ _ _ Hs), list_fmap_insert.
  - assert (∀ k χ, <[i := φ']> ps !! k = Some χ → switching χ = true → k = i) as Huniq.
    { intros k χ [[<- <-]|[Hik Hk]]%lookup_insert_Some_inv Hχ; [done|].
      rewrite (Hns k χ) in Hχ; [done..|by apply not_eq_sym|done]. }
    intros j ψ Hj Hψ. rewrite (Huniq j ψ Hj Hψ). split; [|done]. apply Hlk.
    pose proof (Huniq j ψ Hj Hψ) as ->. rewrite list_lookup_insert_eq in Hj by done. congruence.
Qed.

Lemma sinv_cur R v ps i φ :
  sinv R v ps → ps !! i = Some φ → v_me v = Some i → v_cur v = owner φ.
Proof.
  intros Hs Hi Hme. unfold v_cur. rewrite Hme. simpl. by rewrite (si_on _ _ _ Hs), list_lookup_fmap, Hi.
Qed.
Lemma sinv_owner R v ps i φ p :
  sinv R v ps → ps !! i = Some φ → executes φ = Some p → in_state p RUNNING (v_core v).
Proof.
  intros Hs Hi Hp. assert (p ∈ R) as Hin by (apply (si_running _ _ _ Hs); eauto).
  destruct (si_table _ _ _ Hs) as [_ HR]. by apply HR in Hin.
Qed.
Lemma sinv_steady R v ps i φ p :
  sinv R v ps → ps !! i = Some φ → executes φ = Some p → (g = true → unchanged p (v_core v)) →
  steady g p (v_core v).
Proof.
  intros Hs Hi Hp Hu. destruct (sinv_owner _ _ _ _ _ _ Hs Hi Hp) as (x & Hx & Hst).
  exists x. split_and!; [done..|]. intros Hg. by apply Hu.
Qed.
Lemma sinv_not_queued R v ps i p res :
  sinv R v ps → ps !! i = Some (Leaving p res) → p ∉ R.
Proof.
  intros Hs Hi (j & ψ & Hj & Hψ)%(si_running _ _ _ Hs).
  assert (j = i) as -> by (by eapply (si_owner _ _ _ Hs _ _ _ _ p Hj Hi); [apply executes_Some|]).
  rewrite Hi in Hj. injection Hj as <-. done.
Qed.

(** ** Every step preserves it *)
Lemma rest_parts v l on m :
  v_rest v = (l, on, m) → v_lock v = l ∧ v_on v = on ∧ v_me v = m.
Proof. unfold v_rest. naive_solver. Qed.

Lemma shared_keeps_J {A} (m : M K A) R v :
  shared m → J g ∅ R (v_core v) → kwlp m (λ _ v', settled g R false v v') v.
Proof.
  intros [] HJ; eauto using wakeup_keeps_J, kill_keeps_J, agingMechanism_keeps_J, userinit_keeps_J,
    change_local_bjf_keeps_J, change_global_bjf_keeps_J.
  eapply kwlp_mono; [|by apply allocproc_keeps_J]. by intros o v' [? _].
Qed.

(** The three shapes of a step: nothing moves, a process leaves its CPU, the
    scheduler decides. *)
Lemma stay_step {A} (m : M K A) R a s s' ps :
  sinv R (vw s) ps → v_lock (vw s) = false → kwlp m (λ _ v', settled g R false (vw s) v') (vw s) →
  m s = Ok a s' → sys_inv (mkSys s' ps).
Proof.
  intros Hs Hf Hk Hrun. destruct (Hk s a s' eq_refl Hrun) as [HJ (Hl & Ho & _)%rest_parts].
  exists R. simpl. eapply sinv_stay; [done|done|done|congruence].
Qed.
Lemma leave_step R i p res s s' ps φ :
  sinv R (vw s) ps → ps !! i = Some φ → executes φ = Some p →
  v_lock (vw s) = false ∨ switching φ = true →
  settled g (R ∖ {[p]}) true (vw s) (vw s') → sys_inv (mkSys s' (<[i := Leaving p res]> ps)).
Proof.
  intros Hs Hi Hp Hor [HJ (Hl & Ho & _)%rest_parts]. exists (R ∖ {[p]}). simpl.
  eapply sinv_move; [exact Hs|exact Hi|done|done|..].
  - rewrite Ho, list_insert_id; [done|]. rewrite (si_on _ _ _ Hs), list_lookup_fmap, Hi. simpl.
    by rewrite (executes_Some _ _ Hp).
  - intros q. rewrite elem_of_difference, elem_of_singleton, Hp. simpl. naive_solver.
  - simpl. intros q [= <-]. left. by apply executes_Some.
  - done.
Qed.
Lemma pass_step R i r s s' ps φ v1 :
  sinv R (vw s) ps → ps !! i = Some φ → executes φ = None → v_me (vw s) = Some i →
  v_lock (vw s) = false ∨ switching φ = true →
  v_lock v1 = true → v_on v1 = <[i := None]> (v_on (vw s)) → v_me v1 = v_me (vw s) →
  match r with Switch p _ => dispatched g R v1 p (vw s') | PassDone => settled g R false v1 (vw s') end →
  sys_inv (mkSys s' (<[i := phase_of_pass r]> ps)).
Proof.
  intros Hs Hi Hex Hme Hor Hl1 Hon1 Hme1 Hr. destruct r as [p res|].
  - destruct Hr as (Hn & HJ & i' & Hi' & (Hl & Ho & _)%rest_parts). assert (i' = i) as -> by congruence.
    exists ({[p]} ∪ R). simpl. eapply sinv_move; [exact Hs|exact Hi|done|done|..].
    + by rewrite Ho, Hon1, list_insert_insert_eq.
    + intros q. rewrite elem_of_union, elem_of_singleton, Hex. simpl. naive_solver.
    + simpl. intros q [= <-]. by right.
    + intros _. congruence.
  - destruct Hr as [HJ (Hl & Ho & _)%rest_parts]. exists R. simpl.
    eapply sinv_move; [exact Hs|exact Hi|done|done|..].
    + by rewrite Ho, Hon1.
    + intros q. rewrite Hex. simpl. naive_solver.
    + done.
    + done.
Qed.

Lemma arrive_step R i p res s s' ps :
  sinv R (vw s) ps → ps !! i = Some (Arriving p res) → settled g R false (vw s) (vw s') →
  sys_inv (mkSys s' (<[i := Running p res]> ps)).
Proof.
  intros Hs Hi [HJ (Hl & Ho & _)%rest_parts]. exists R. simpl.
  eapply sinv_move; [exact Hs|exact Hi|by right|done|..].
  - rewrite Ho. symmetry. apply list_insert_id. by rewrite (si_on _ _ _ Hs), list_lookup_fmap, Hi.
  - intros q. simpl. split.
    2:{ intros [[= <-]|[? _]]; [|done]. apply (si_running _ _ _ Hs). by exists i, (Arriving p res). }
    intros Hq. destruct (decide (q = p)) as [->|]; [by left|].
    right. split; [done|]. congruence.
  - intros q Hq. by left.
  - done.
Qed.
Lemma resumption_keeps_J R p m v :
  resumption p m → J g ∅ R (v_core v) → v_lock v = true → kwlp m (λ _ v', settled g R false v v') v.
Proof.
  intros Hm HJ Hl. destruct Hm as [|l Hne|]; [by apply yield_end_keeps_J| |by apply forkret_keeps_J].
  pose proof (sleep_end_keeps_J g R p l v HJ Hl) as Hk. by rewrite bool_decide_eq_false_2 in Hk.
Qed.

Lemma sys_inv_step σ σ' : sys_inv σ → step g σ σ' → sys_inv σ'.
Proof.
  intros [R Hs] Hstep. pose proof (si_table _ _ _ Hs) as HJ. destruct Hstep; simpl in *.
  - exists R. simpl. eapply sinv_stay; [done| |done|done]. simpl. by rewrite H0.
  - destruct (H0 (J g ∅ R) _ (vw s) HJ s a s' eq_refl H1) as [HJ' (Hl & Ho & _)%rest_parts].
    exists R. simpl. by eapply sinv_stay.
  - by eapply stay_step; [done| |apply shared_keeps_J|].
  - by eapply stay_step; [done| |eapply change_queue_keeps_J|].
  - by eapply stay_step; [done| |eapply fork_child_keeps_J|].
  - destruct H0 as [Hi Hme]. simpl in *. pose proof (sinv_steady _ _ _ _ _ _ Hs Hi eq_refl H2).
    eapply leave_step; [exact Hs|exact Hi|done|by left|]. by eapply exit_zombie_keeps_J.
  - destruct H0 as [Hi Hme]. simpl in *. pose proof (sinv_steady _ _ _ _ _ _ Hs Hi eq_refl H2).
    eapply leave_step; [exact Hs|exact Hi|done|by left|].
    eapply (sleep_begin_keeps_J g R p ch l (vw s)); [done|done| |done|done|done].
    by rewrite (sinv_cur _ _ _ _ _ Hs Hi Hme).
  - destruct H0 as [Hi Hme]. simpl in *. pose proof (sinv_steady _ _ _ _ _ _ Hs Hi eq_refl H2) as Hst.
    pose proof (wait_keeps_J g R p (vw s) HJ ltac:(by rewrite (sinv_cur _ _ _ _ _ Hs Hi Hme)) Hst
                  s r s' eq_refl H3) as Hr. destruct r.
    + destruct Hr as [HJ' (Hl & Ho & _)%rest_parts]. exists R. simpl.
      eapply sinv_stay; [done|done|done|]. rewrite Hl. symmetry. exact H1.
    + eapply leave_step; [exact Hs|exact Hi|done|by left|done].
  - destruct H0 as [Hi Hme]. simpl in *. eapply leave_step; [exact Hs|exact Hi|done|by left|].
    eapply (yield_begin_keeps_J g R p (vw s)); [done| | |done|done].
    + by eapply sinv_owner.
    + by rewrite (sinv_cur _ _ _ _ _ Hs Hi Hme).
  - destruct H0 as [Hi Hme]. simpl in *.
    eapply (pass_step R i r s s' ps Idle (vw s <| v_lock := true |>)); try done; [by left|..].
    + symmetry. apply list_insert_id. change (v_on (vw s) !! i = Some None). by rewrite (si_on _ _ _ Hs), list_lookup_fmap, Hi.
    + pose proof (scheduler_begin_keeps_J g R (vw s) HJ s r s' eq_refl H2) as Hr. by destruct r.
  - destruct H0 as [Hi Hme]. simpl in *. destruct (si_lock _ _ _ Hs _ _ Hi eq_refl) as [Hl _].
    eapply (pass_step R i r s s' ps _ (vw s <| v_on := <[i := None]> (v_on (vw s)) |>)); try done; [by right|].
    by apply (scheduler_end_keeps_J g R i res (vw s) HJ Hl Hme s r s').
  - destruct H0 as [Hi Hme]. simpl in *. destruct (si_lock _ _ _ Hs _ _ Hi eq_refl) as [Hl _].
    eapply arrive_step; [exact Hs|exact Hi|]. eapply resumption_keeps_J; done.
  - destruct H0 as [Hi Hme]. simpl in *. destruct (si_lock _ _ _ Hs _ _ Hi eq_refl) as [Hl _].
    pose proof (sinv_steady _ _ _ _ _ _ Hs Hi eq_refl H1) as Hst.
    pose proof (rewait_keeps_J g R p (vw s) HJ Hl ltac:(by rewrite (sinv_cur _ _ _ _ _ Hs Hi Hme)) Hst
                  s r s' eq_refl H2) as Hr. destruct r.
    + by eapply arrive_step.
    + eapply leave_step; [exact Hs|exact Hi|done|by right|done].
Qed.

Lemma sys_inv_reachable σ σ' : sys_inv σ → rtc (step g) σ σ' → sys_inv σ'.
Proof. intros H0 Hr. induction Hr; eauto using sys_inv_step. Qed.
End inv.
End system.
