(* ===== verification/Boot.v ===== *)
(** * From boot: what holds in every reachable state

    [bss_core] is the memory of proc.c's globals before pinit runs.  The theorems
    of this file are about every state that the transition system of System.v
    reaches from there.  [demo_env] is a small instance of the services proc.c
    calls, on which the code is run for the examples. *)

From S2P Require Import Prelude Spinlock Queue CStr Proc ProcInv ProcOps Choice KStep Keep SchedInv System.

(** ** The globals at power on *)
Definition zero_proc : proc :=
  mkProc 0 0 0 UNUSED 0 None 0 0 CNull 0 (replicate NOFILE None) None (replicate 16 0) DEF 0
    float_zero float_zero float_zero 0 float_zero float_zero 0 0 0.
Definition bss_queue : queue := mkQueue (replicate (Z.to_nat NPROC) None) 0.
Definition bss_core : core :=
  mkCore (replicate (Z.to_nat NPROC) zero_proc) bss_queue bss_queue bss_queue 0 1 None 0 0 0 0 0 ∅ ∅ ∅ true.

Definition no_proc_on (m : mach) : Prop := Forall (λ c, cpu_proc c = None) (cpus m).

Lemma cinv_boot c :
  procs c = replicate (Z.to_nat NPROC) zero_proc → 0 < nextpid c →
  (∀ t, t ≠ DEF → queue_at t c = bss_queue <| q_pi := -1 |>) → cinv ∅ c (λ _, []).
Proof.
  intros Hps Hn Hq.
  assert (∀ i x, procs c !! i = Some x → x = zero_proc) as Hz.
  { intros i x. rewrite Hps. by intros [-> _]%lookup_replicate. }
  split; try done.
  - by rewrite Hps.
  - intros t Ht. rewrite Hq by done. done.
  - intros t. constructor.
  - intros t i. split; [by intros ?%elem_of_nil|]. intros (_ & x & ->%Hz & _ & Hin).
    rewrite inq_None in Hin by done. destruct Hin as [?|[? _]]; done.
  - by intros i x ->%Hz.
  - by intros i j x y ->%Hz.
  - by intros i x ->%Hz.
Qed.

Section boot.
Context {E : Type} `{KEnv E}.

Lemma pinit_boot g (s s1 : kern E) :
  k_core s = bss_core → pinit s = Ok tt s1 → J g ∅ ∅ (k_core s1) ∧ k_mach s1 = k_mach s ∧
  vlocked (k_ptable_lock s1) = false.
Proof.
  intros Hc Hp. unfold pinit, initlock, modc, inc, zoom, modify, mbind, M_bind in Hp. simpl in Hp.
  injection Hp as <-. simpl. split; [|done]. split.
  - intros _. exists (λ _, []). apply cinv_boot; rewrite ?Hc; try done. intros []; simpl; by rewrite ?Hc.
  - intros i. split; [by intros ?%elem_of_empty|]. intros (x & Hx & Hst). simpl in Hx.
    rewrite Hc in Hx. apply lookup_replicate in Hx as [-> _]. done.
Qed.

Lemma boot_sys_inv g (s s1 : kern E) :
  k_core s = bss_core → no_proc_on (k_mach s) → pinit s = Ok tt s1 →
  sys_inv g (mkSys s1 (replicate (length (cpus (k_mach s))) Idle)).
Proof.
  intros Hc Hno Hp. destruct (pinit_boot g s s1 Hc Hp) as (HJ & Hm & Hl). exists ∅. simpl.
  assert (∀ j φ, replicate (length (cpus (k_mach s))) Idle !! j = Some φ → φ = Idle) as Hidle.
  { by intros j φ [-> _]%lookup_replicate. }
  split; [done|..].
  - intros p. split; [by intros ?%elem_of_empty|]. by intros (j & φ & ->%Hidle & ?).
  - by intros j k φ ψ p ->%Hidle.
  - simpl. rewrite Hm. unfold no_proc_on in Hno. clear -Hno. induction Hno as [|c l Hcp _ IH]; [done|].
    simpl. rewrite Hcp. f_equal. exact IH.
  - by intros j φ ->%Hidle.
Qed.

(** C1: Whatever the kernel does from boot on, with any interleaving of its CPUs, a
    process is on at most one CPU and the processes in state RUNNING are exactly
    those some CPU executes.  As long as, besides, change_queue() is called only for
    queues that exist, and a process whose queue was changed while it ran yields
    before it sleeps, waits or exits and before its queue is changed again, there are
    lists of processes that the three queue arrays represent such that a process is
    in the list of its kind exactly while it is runnable, or runs with no change of
    queue pending, with live processes carrying distinct pids.  The kernel does not
    enforce that condition, and [pending_change_loses_process] is a run where the
    queues lose a process without it. *)
Theorem scheduler_safe (s s1 : kern E) :
  k_core s = bss_core → no_proc_on (k_mach s) → pinit s = Ok tt s1 →
  let boot := mkSys s1 (replicate (length (cpus (k_mach s))) Idle) in
  (∀ σ, rtc (step false) boot σ →
     (∀ i j φ ψ p, phs σ !! i = Some φ → phs σ !! j = Some ψ →
        owner φ = Some p → owner ψ = Some p → i = j) ∧
     (∀ p, runs (table σ) p ↔ ∃ i φ, phs σ !! i = Some φ ∧ executes φ = Some p)) ∧
  (∀ σ, rtc (step true) boot σ → ∃ qs, cinv ∅ (table σ) qs).
Proof.
  intros Hc Hno Hp boot. split; intros σ Hr;
    destruct (sys_inv_reachable _ _ _ (boot_sys_inv _ s s1 Hc Hno Hp) Hr) as [R Hs].
  - split; [apply (si_owner _ _ _ _ Hs)|].
    intros p. rewrite <- (si_running _ _ _ _ Hs). symmetry. apply (si_table _ _ _ _ Hs).
  - by apply (si_table _ _ _ _ Hs).
Qed.
End boot.

(** ** A concrete kernel *)

(** The allocator hands out consecutive pages; files and inodes are counted by
    nobody. *)
#[export] Instance demo_env : KEnv Z := {
  e_kalloc := (λ n, Ok n (n + 4096));
  e_kfree _ := mret tt;
  e_setupkvm := (λ n, Ok n (n + 4096));
  e_inituvm _ := mret tt;
  e_copyuvm _ _ := (λ n, Ok n (n + 4096));
  e_freevm _ := mret tt;
  e_allocuvm _ _ z := mret z;
  e_deallocuvm _ _ z := mret z;
  e_switchuvm _ _ := mret tt;
  e_switchkvm := mret tt;
  e_namei _ := mret (Some 0%nat);
  e_filedup f := mret f;
  e_fileclose _ := mret tt;
  e_idup i := mret i;
  e_iput _ := mret tt;
  e_begin_op := mret tt;
  e_end_op := mret tt;
  e_iinit := mret tt;
  e_initlog := mret tt;
  e_lock _ := Lens (λ _, mkLock 0 "" None []) (λ _ n, n);
  forkret_addr := 0x80103b00;
  trapret_addr := 0x80106000 }.

Definition demo_mach : mach :=
  mkMach 0 [mkHw 0 false; mkHw 1 false] [mkCpu 0 0 false None; mkCpu 1 0 false None] 0 (λ _, 0).
Definition demo_boot : kern Z :=
  mkKern demo_mach (mkLock 0 "" None (replicate 10 0)) (mkLock 0 "time" None (replicate 10 0)) bss_core
    (replicate (Z.to_nat NPROC) false) 0x80400000.

(** Run a computation that is known to return. *)
Definition exec {A} (m : M (kern Z) A) (s : kern Z) : kern Z :=
  match m s with Ok _ s' => s' | _ => s end.
Definition result {A} (m : M (kern Z) A) (s : kern Z) : option A :=
  match m s with Ok a _ => Some a | _ => None end.
Lemma exec_run {A} (m : M (kern Z) A) s a : result m s = Some a → m s = Ok a (exec m s).
Proof. unfold result, exec. destruct (m s); congruence. Qed.
Definition demo_init : kern Z := exec pinit demo_boot.
Definition demo_user : kern Z := exec userinit demo_init.
Definition demo_arriving : kern Z := exec scheduler_begin demo_user.
Definition demo_running : kern Z := exec forkret demo_arriving.
#[global] Strategy 1000 [exec demo_init demo_user demo_arriving demo_running].

Lemma demo_steps g :
  rtc (step g) (mkSys demo_init [Idle; Idle]) (mkSys demo_running [Running 0 None; Idle]).
Proof.
  assert (userinit demo_init = Ok tt demo_user ∧
          scheduler_begin demo_user = Ok (Switch 0 None) demo_arriving ∧
          forkret demo_arriving = Ok tt demo_running) as (H1 & H2 & H3).
  { split_and!; unfold demo_running, demo_arriving, demo_user; apply exec_run; vm_compute; reflexivity. }
  assert (v_lock (vw demo_init) = false) as L1 by (vm_compute; reflexivity).
  assert (v_lock (vw demo_user) = false) as L2 by (vm_compute; reflexivity).
  assert (v_me (vw demo_user) = Some 0%nat) as M2 by (vm_compute; reflexivity).
  assert (v_me (vw demo_arriving) = Some 0%nat) as M3 by (vm_compute; reflexivity).
  revert H1 H2 H3 L1 L2 M2 M3. generalize demo_init demo_user demo_arriving demo_running.
  intros s0 s1 s2 s3 H1 H2 H3 L1 L2 M2 M3.
  eapply rtc_l; [by eapply (step_shared g _ userinit); [constructor|..]|].
  eapply rtc_l; [by eapply (step_scheduler g 0)|].
  eapply rtc_l; [by eapply (step_resume g 0 0 None forkret); [|constructor|]|].
  apply rtc_refl.
Qed.
Lemma demo_boot_run : pinit demo_boot = Ok tt demo_init.
Proof. apply exec_run. vm_compute. reflexivity. Qed.
Lemma demo_no_proc : no_proc_on (k_mach demo_boot).
Proof. repeat constructor. Qed.

Lemma scheduler_safe_witness :
  (∃ i φ, phs (mkSys demo_running [Running 0 None; Idle]) !! i = Some φ ∧ executes φ = Some 0%nat) ∧
  ∃ qs, cinv ∅ (table (mkSys demo_running [Running 0 None; Idle])) qs.
Proof.
  destruct (scheduler_safe demo_boot demo_init eq_refl demo_no_proc demo_boot_run) as [H1 H2].
  split; [|exact (H2 _ (demo_steps true))].
  destruct (H1 _ (demo_steps false)) as [_ Hrun]. apply (Hrun 0%nat).
  assert ((state <$> procs (k_core demo_running) !! 0%nat) = Some RUNNING) as Hst by (vm_compute; reflexivity).
  unfold runs, table. cbn [ker]. destruct (procs (k_core demo_running) !! 0%nat) as [x|]; [|discriminate Hst].
  exists x. split; [reflexivity|]. by injection Hst.
Defined.

(** The running example satisfies the invariant. *)
Lemma demo_cinv : ∃ qs, cinv ∅ (k_core demo_running) qs.
Proof.
  destruct (sys_inv_reachable _ _ _ (boot_sys_inv true demo_boot demo_init eq_refl demo_no_proc demo_boot_run)
              (demo_steps true)) as [R Hs].
  destruct (proj1 (si_table _ _ _ _ Hs) eq_refl) as [qs Hc]. exists qs. exact Hc.
Qed.
Definition demo_cpu : cpu := mkCpu 0 0 true (Some 0%nat).
Lemma demo_outside : outside demo_running (mkHw 0 true) demo_cpu.
Proof. split; [|split; [split; [done|by intros ?]|vm_compute; reflexivity]]. split_and!; try (vm_compute; reflexivity). intros j c' Hj. vm_compute in Hj. lia. Qed.

(** ** A run that loses a process

    The first process forks, puts the child and then itself into the round-robin
    queue, and sleeps before it has yielded. *)
Definition demo_alloc : kern Z := exec allocproc demo_running.
Definition demo_child : kern Z := exec (fork_child 0 1) demo_alloc.
Definition demo_moved : kern Z := exec (change_queue 2 1) demo_child.
Definition demo_pending : kern Z := exec (change_queue 1 1) demo_moved.
Definition demo_ticks : kern Z := exec (acquire_lk TicksLock) demo_pending.
Definition demo_lost : kern Z := exec (sleep_begin CTicks (Some TicksLock)) demo_ticks.
#[global] Strategy 1000 [demo_alloc demo_child demo_moved demo_pending demo_ticks demo_lost].

Lemma demo_lost_steps :
  rtc (step false) (mkSys demo_init [Idle; Idle]) (mkSys demo_lost [Leaving 0 None; Idle]).
Proof.
  assert (allocproc demo_running = Ok (Some 1%nat) demo_alloc ∧ fork_child 0 1 demo_alloc = Ok 2 demo_child ∧
          change_queue 2 1 demo_child = Ok tt demo_moved ∧ change_queue 1 1 demo_moved = Ok tt demo_pending ∧
          acquire_lk TicksLock demo_pending = Ok tt demo_ticks ∧
          sleep_begin CTicks (Some TicksLock) demo_ticks = Ok tt demo_lost) as (H1 & H2 & H3 & H4 & H5 & H6).
  { split_and!; unfold demo_lost, demo_ticks, demo_pending, demo_moved, demo_child, demo_alloc;
      apply exec_run; vm_compute; reflexivity. }
  assert (in_state 1 EMBRYO (k_core demo_alloc)) as HE.
  { assert ((state <$> procs (k_core demo_alloc) !! 1%nat) = Some EMBRYO) as Hst by (vm_compute; reflexivity).
    unfold in_state. destruct (procs (k_core demo_alloc) !! 1%nat) as [x|]; [|discriminate Hst].
    exists x. split; [done|]. by injection Hst. }
  assert (v_lock <$> (vw <$> [demo_running; demo_alloc; demo_child; demo_moved; demo_ticks]) =
          replicate 5 false) as HL by (vm_compute; reflexivity).
  assert (v_me (vw demo_ticks) = Some 0%nat) as HM by (vm_compute; reflexivity).
  etrans; [apply demo_steps|].
  revert H1 H2 H3 H4 H5 H6 HE HL HM.
  generalize demo_running demo_alloc demo_child demo_moved demo_pending demo_ticks demo_lost.
  intros s0 s1 s2 s3 s4 s5 s6 H1 H2 H3 H4 H5 H6 HE HL HM. simpl in HL.
  injection HL as L0 L1 L2 L3 L5.
  eapply rtc_l; [by eapply (step_shared _ _ allocproc); [constructor|..]|].
  eapply rtc_l; [by eapply (step_fork_child _ 0 1)|].
  eapply rtc_l; [by eapply (step_change_queue _ 2 1)|].
  eapply rtc_l; [by eapply (step_change_queue _ 1 1)|].
  eapply rtc_l; [eapply (step_local _ _ (acquire_lk TicksLock)); [|exact H5]|].
  { by apply keeps_frame, vw_acquire_other. }
  eapply rtc_l; [by eapply (step_sleep _ 0 0 None CTicks TicksLock)|]. apply rtc_refl.
Qed.

(** In that run the sleeping process, which is in no queue, is "removed" from the
    round-robin queue, and the child is lost: it is runnable and of kind RR, the
    queue is empty, and no lists agree with the table. *)
Theorem pending_change_loses_process :
  rtc (step false) (mkSys demo_init [Idle; Idle]) (mkSys demo_lost [Leaving 0 None; Idle]) ∧
  (λ x, (state x, q_type x)) <$> procs (k_core demo_lost) !! 1%nat = Some (RUNNABLE, RR) ∧
  q_pi (rr_q (k_core demo_lost)) = -1 ∧ ∀ qs, ~ cinv ∅ (k_core demo_lost) qs.
Proof.
  split; [apply demo_lost_steps|].
  assert ((λ x, (state x, q_type x)) <$> procs (k_core demo_lost) !! 1%nat = Some (RUNNABLE, RR)) as Hx
    by (vm_compute; reflexivity).
  assert (q_pi (rr_q (k_core demo_lost)) = -1) as Hpi by (vm_compute; reflexivity).
  split; [exact Hx|]. split; [exact Hpi|]. revert Hx Hpi. generalize (k_core demo_lost).
  intros c Hx Hpi qs Hc. pose proof (ci_repr Hc RR ltac:(done)) as (_ & Hlen & _). simpl in Hlen.
  assert (qs RR = []) as Hnil by (apply length_zero_iff_nil; lia).
  destruct (procs c !! 1%nat) as [x|] eqn:Hp; [|done]. injection Hx as Hst Hq.
  assert (1%nat ∈ qs RR) as Hin.
  { apply (ci_mem Hc). split; [done|]. exists x. split; [done|]. split; [done|].
    rewrite inq_None by done. by left. }
  rewrite Hnil in Hin. by apply elem_of_nil in Hin.
Qed.
