(* ===== verification/ProcProps.v ===== *)
(** * What the operations of proc.c guarantee

    Total statements about whole operations, lock and interrupt state included,
    on a table that satisfies the scheduling invariant; and the behaviour of the
    operations where the code relies on conditions it does not check. *)

From S2P Require Import Prelude Spinlock Queue CStr Proc ProcInv ProcOps Choice KStep Keep SchedInv System Boot.

Section props.
Context {E : Type} `{KEnv E}.
Implicit Types (s : kern E).

(** C33: When the queues agree with the table, wakeup(chan) returns with ptable.lock
    free and interrupts as before;
    exactly the processes that sleep on [chan] have become runnable, and they
    stand, in table order, at the end of the queues of their kinds. *)
Theorem wakeup_wakes s h c qs ch :
  outside s h c → cinv ∅ (k_core s) qs →
  ∃ d qs', wakeup ch s = Ok tt (after s h c d) ∧ outside (after s h c d) h (peek_cpu h c) ∧
    cinv ∅ d qs' ∧ procs d = wake ch <$> procs (k_core s) ∧ core_rest d = core_rest (k_core s) ∧
    ∀ t, t ≠ DEF → qs' t = qs t ++ filter (λ i, woken (procs (k_core s)) ch t i = true) all_procs.
Proof.
  intros Hout Hc. destruct (wakeup1_spec ∅ _ qs ch Hc (ex_awake_empty _)) as (d & qs' & Hr & Hc' & Hf & Hp & Hq).
  exists d, qs'. split; [by apply critical_section_unit|]. split; [by apply after_outside|]. done.
Qed.

(** exit()'s loop over the table returns, hands every child of the exiting
    process to init, wakes init exactly when one of those children is a zombie,
    and leaves every other field of every process alone. *)
Theorem exit_children_adopted c qs cp ini :
  cinv ∅ c qs →
  ∃ c' qs', exit_reparent cp ini c = Ok tt c' ∧ cinv ∅ c' qs' ∧ core_rest c' = core_rest c ∧
    procs c' = wake_if (existsb (dead_child cp) (procs c)) (proc_chan ini) <$>
                 (adopt cp ini <$> procs c) ∧
    ∀ i x, procs c' !! i = Some x → parent x = Some cp → ini = Some cp.
Proof.
  intros Hc. destruct (reparent_spec ∅ c qs cp ini Hc (ex_awake_empty _)) as (c' & qs' & Hr & Hc' & Hf & Hp).
  exists c', qs'. split_and!; [done..|]. intros i x Hx Hpar. rewrite Hp, !list_lookup_fmap in Hx.
  destruct (procs c !! i) as [y|]; [|done]. injection Hx as <-.
  assert (∀ w ch z, parent (wake_if w ch z) = parent z) as Hw.
  { intros [] ch z; [|done]. unfold wake_if, wake. by destruct (woken_by ch z). }
  rewrite Hw in Hpar. unfold adopt in Hpar.
  destruct (bool_decide (parent y = Some cp)) eqn:Hb; [done|]. apply bool_decide_eq_false in Hb. done.
Qed.

(** The critical section around a computation that fails on the table. *)
Lemma critical_undef s h c {A} (body : M core A) msg (k : A → M (kern E) Z) :
  outside s h c → body (k_core s) = Undef msg →
  (acquire_lk PtableLock ;; inc body ≫= k) s = Undef msg.
Proof.
  intros Hout Hb. run (acquire_ptable s h c Hout). unfold mbind, M_bind, inc, zoom. simpl. by rewrite Hb.
Qed.

(** change_local_bjf() for a pid that no process has writes past the end of
    the process table: its test [p == 0] is never true, and [p] is then
    one past the last entry. *)
Theorem change_local_bjf_unknown s h c qs pd a1 a2 a3 a4 :
  outside s h c → cinv ∅ (k_core s) qs → (∀ p x, procs (k_core s) !! p = Some x → pid x ≠ pd) →
  change_local_bjf pd a1 a2 a3 a4 s = Undef "ptable.proc".
Proof.
  intros Hout Hc Hnone. unfold change_local_bjf. run (acquire_ptable s h c Hout).
  assert (find_index (λ x, pid x =? pd) (procs (k_core s)) = None) as Hf.
  { apply find_index_None. intros i x Hx. apply Z.eqb_neq. by apply (Hnone i). }
  rewrite bind_run with (a := Z.to_nat NPROC) (s1 := enter s h c).
  2:{ unfold inc, zoom, find_pid, gets, mbind, M_bind. simpl. by rewrite Hf. }
  unfold set_at, inc, zoom, upd_proc, mbind, M_bind, get, in_bounds. simpl.
  rewrite bool_decide_eq_false_2; [done|]. pose proof (ci_len Hc) as Hlen. rewrite Hlen. unfold NPROC. lia.
Qed.

(** A process of kind DEF cannot block: sleep() panics in
    cleanupCorresQueue.  change_queue(pid, 0) makes such processes. *)
Theorem sleep_def_panics s h c p x ch :
  inside s h c → cpu_proc c = Some p → procs (k_core s) !! p = Some x → q_type x = DEF →
  sleep_begin ch (Some PtableLock) s = Panic "defaut scheduling cleanup".
Proof.
  intros Hin Hcp Hx Hq. unfold sleep_begin.
  assert (∃ s1, myproc s = Ok (Some p) s1 ∧ k_core s1 = k_core s) as (s1 & Hmy & Hs1).
  { destruct Hin as (Hc & Hif & Hn & _). unfold myproc.
    run (pushcli_run L_mach s h c Hc). set (s1 := upd L_mach _ s).
    assert (cur (view L_mach s1) (if_off h) (push_cpu (hw_if h) c)) as Hc1 by (by apply cur_push).
    run (mycpu_run L_mach s1 _ _ Hc1 eq_refl). run (get_cpu_run L_mach s1 _ _ Hc1).
    run (popcli_run L_mach s1 _ _ Hc1 eq_refl ltac:(rewrite push_cpu_ncli; lia)).
    rewrite push_cpu_proc, Hcp. by eexists. }
  run Hmy. rewrite bind_run with (a := tt) (s1 := s1) by done.
  unfold cleanupCorresQueue, proc_at, inc, zoom, mbind, M_bind. simpl. rewrite Hs1, (get_proc_run _ _ _ Hx).
  by rewrite Hq.
Qed.
End props.

(** kill(0) on a table with a free slot that was never used reports success
    and marks that free slot as killed; allocproc() does not clear the mark, so
    the next process created there starts out killed. *)
Theorem kill_zero_marks_free_slot :
  result (kill 0) demo_running = Some 0 ∧
  (λ x, (state x, killed x)) <$> procs (k_core (exec (kill 0) demo_running)) !! 1%nat = Some (UNUSED, 1) ∧
  result fork (exec (kill 0) demo_running) = Some 2 ∧
  (λ x, (state x, pid x, killed x)) <$>
    procs (k_core (exec fork (exec (kill 0) demo_running))) !! 1%nat = Some (RUNNABLE, 2, 1).
Proof. by vm_compute. Qed.

(** ** Examples: the statements at states the code produces *)
Definition demo_forked : kern Z := exec fork (exec fork demo_running).
Definition demo_rr : kern Z := exec (change_queue 3 1) (exec (change_queue 2 1) demo_forked).
Definition demo_bjf : kern Z := exec (change_queue 2 3) demo_forked.
#[global] Strategy 1000 [demo_forked demo_rr demo_bjf].

Lemma wakeup_wakes_witness :
  ∃ d qs', wakeup CTicks demo_running = Ok tt (after demo_running (mkHw 0 true) demo_cpu d) ∧ cinv ∅ d qs'.
Proof.
  destruct demo_cinv as [qs Hc].
  destruct (wakeup_wakes demo_running _ _ qs CTicks demo_outside Hc) as (d & qs' & H1 & _ & H2 & _).
  exists d, qs'. split; [exact H1|exact H2].
Defined.
Lemma exit_children_adopted_witness :
  ∃ c', exit_reparent 0 (Some 0%nat) (k_core demo_forked) = Ok tt c'.
Proof.
  destruct (exit_children_adopted (k_core demo_forked) (qs_of [] [0; 1; 2]%nat []) 0 (Some 0%nat))
    as (c' & qs' & H1 & _); [apply cinv_check_sound; vm_compute; reflexivity|].
  exists c'. exact H1.
Defined.
Lemma no_such_pid ps pd :
  forallb (λ y, negb (pid y =? pd)) ps = true → ∀ p x, ps !! p = Some x → pid x ≠ pd.
Proof.
  intros Hf p x Hp. rewrite forallb_forall in Hf.
  assert (In x ps) as Hin by (apply list_elem_of_In; by eapply list_elem_of_lookup_2).
  specialize (Hf x Hin). apply negb_true_iff, Z.eqb_neq in Hf. done.
Qed.
Lemma change_local_bjf_unknown_witness :
  change_local_bjf 77 1 1 1 1 demo_running = Undef "ptable.proc".
Proof.
  destruct demo_cinv as [qs Hc].
  apply (change_local_bjf_unknown demo_running _ _ qs 77 1 1 1 1 demo_outside Hc).
  apply no_such_pid. vm_compute. reflexivity.
Defined.
(** The first process, made a DEF process while it runs and holds the lock. *)
Definition demo_def : kern Z :=
  exec (acquire_lk PtableLock ;; set_at 0 (λ x, x <| q_type := DEF |>)) demo_running.
#[global] Strategy 1000 [demo_def].
Lemma sleep_def_panics_witness :
  sleep_begin CTicks (Some PtableLock) demo_def = Panic "defaut scheduling cleanup".
Proof.
  destruct (procs (k_core demo_def) !! 0%nat) as [x|] eqn:Hx; [|vm_compute in Hx; discriminate Hx].
  apply (sleep_def_panics demo_def (mkHw 0 false) (mkCpu 0 1 true (Some 0%nat)) 0 x).
  - split; [|split; [reflexivity|split; [discriminate|vm_compute; reflexivity]]].
    split_and!; [vm_compute; reflexivity..|]. intros j c' Hj. vm_compute in Hj. lia.
  - reflexivity.
  - exact Hx.
  - assert ((q_type <$> procs (k_core demo_def) !! 0%nat) = Some DEF) as Hq by (vm_compute; reflexivity).
    rewrite Hx in Hq. by injection Hq.
Defined.
(** The invariant at a computed state: what it says of one of its queues. *)
Lemma demo_queue_at c qs t :
  cinv ∅ c qs → t ≠ DEF →
  repr (queue_at t c) (qs t) ∧ entries c (qs t) ∧
  ∀ p, p ∈ qs t → state_of c p = Some RUNNABLE ∨ state_of c p = Some RUNNING.
Proof.
  intros Hc Ht. split; [by apply (ci_repr Hc)|]. split; [by eapply cinv_entries|].
  intros p Hp. destruct (member_state _ _ _ _ Hc Hp) as (x & Hx & _ & Hs).
  unfold state_of. rewrite Hx. simpl. destruct Hs as [->| ->]; auto.
Qed.
Lemma rr_choice_correct_witness :
  choose_rr (rr_q (k_core demo_rr)) (k_core demo_rr) = Ok (Some 1%nat) (k_core demo_rr).
Proof.
  destruct (demo_queue_at (k_core demo_rr) (qs_of [1; 2]%nat [0]%nat []) RR) as (Hr & Hv & Hs);
    [apply cinv_check_sound; vm_compute; reflexivity|discriminate|].
  destruct (rr_choice_correct (k_core demo_rr) (rr_q (k_core demo_rr)) [1; 2]%nat Hr) as (_ & _ & Hc).
  - discriminate.
  - exact Hv.
  - vm_compute. split; [discriminate|reflexivity].
  - etransitivity; [exact (Hc Hs)|]. vm_compute (head _). reflexivity.
Defined.
Lemma lcfs_choice_correct_witness :
  choose_lcfs (lcfs_q (k_core demo_forked)) (k_core demo_forked) = Ok (Some 2%nat) (k_core demo_forked).
Proof.
  destruct (demo_queue_at (k_core demo_forked) (qs_of [] [0; 1; 2]%nat []) LCFS) as (Hr & Hv & _);
    [apply cinv_check_sound; vm_compute; reflexivity|discriminate|].
  destruct (lcfs_choice_correct (k_core demo_forked) _ [0; 1]%nat 2%nat Hr Hv) as [Hc _].
  etransitivity; [exact Hc|].
  unfold branch_result. vm_compute (state_of _ _). reflexivity.
Defined.
(** A BJF queue of two runnable processes: the scan stops before the last one. *)
Definition demo_bjf2 : kern Z := exec (change_queue 3 3) demo_bjf.
#[global] Strategy 1000 [demo_bjf2].
Lemma bjf_choice_starves_witness :
  runnable (k_core demo_bjf2) 1 = true ∧
  choose_bjf (bjf_q (k_core demo_bjf2)) (k_core demo_bjf2) = Ok None (k_core demo_bjf2).
Proof.
  split; [vm_compute; reflexivity|].
  destruct (demo_queue_at (k_core demo_bjf2) (qs_of [] [0]%nat [1; 2]%nat) BJF) as (Hr & Hv & _);
    [apply cinv_check_sound; vm_compute; reflexivity|discriminate|].
  apply (bjf_choice_starves (k_core demo_bjf2) _ [1; 2]%nat Hr); [discriminate|exact Hv].
Defined.
