(* ===== verification/Trap.v ===== *)
(** * Traps (trap.c), the process system calls (sysproc.c) and their dispatch

    A function that may give up the CPU is split there: [trap] ends in what it does
    next, and what it does after yield or after the system call is a definition of its
    own.  What other components do for an interrupt (acknowledging it, the disk, the keyboard, the
    serial line, the messages) is [irq], a parameter. *)

From S2P Require Import Prelude Spinlock Queue CStr Proc ProcInv ProcOps KStep Keep SchedInv System Boot.

Definition T_SYSCALL : Z := 64.
Definition T_IRQ0 : Z := 32.
Definition IRQ_TIMER : Z := 0.
Definition IRQ_KBD : Z := 1.
Definition IRQ_COM1 : Z := 4.
Definition IRQ_IDE : Z := 14.
Definition IRQ_SPURIOUS : Z := 31.
Definition DPL_USER : Z := 3.

(** How trap leaves: it returns to the interrupted code, calls exit, calls yield, or
    calls syscall. *)
Inductive trap_next := TReturn | TExit | TYield | TCall.

Section trap.
Context {E : Type} `{KEnv E} (irq : Z → M E unit).
Abbreviation K := (kern E).
Implicit Types (s : K).

Definition is_timer (f : trapframe) : bool := tf_trapno f =? T_IRQ0 + IRQ_TIMER.
Definition from_user (f : trapframe) : bool := Z.land (tf_cs f) 3 =? DPL_USER.
(** The cases of the switch that only call other components. *)
Definition other_irq (no : Z) : bool :=
  (no =? T_IRQ0 + IRQ_IDE) || (no =? T_IRQ0 + IRQ_IDE + 1) || (no =? T_IRQ0 + IRQ_KBD) ||
  (no =? T_IRQ0 + IRQ_COM1) || (no =? T_IRQ0 + 7) || (no =? T_IRQ0 + IRQ_SPURIOUS).
Definition clock_tick : M K unit :=
  acquire_lk TicksLock ;;
  modc (λ c, c <| ticks := u32 (ticks c + 1) |>) ;;
  agingMechanism ;;
  wakeup CTicks ;;
  release_lk TicksLock.
Definition trap_switch (f : trapframe) : M K unit :=
  if is_timer f then
    i ← cpuid L_mach;
    when (i =? 0)%nat clock_tick ;;
    ext (irq (tf_trapno f))
  else if other_irq (tf_trapno f) then ext (irq (tf_trapno f))
  else
    p ← myproc;
    if bool_decide (p = None) || (Z.land (tf_cs f) 3 =? 0) then panic "trap" else
    ext (irq (tf_trapno f)) ;;
    p ← curproc;
    set_at p (λ x, x <| killed := 1 |>).
(** [myproc() && myproc()->killed && (tf->cs&3) == DPL_USER] *)
Definition must_exit (f : trapframe) : M K bool :=
  p ← myproc;
  match p with
  | None => mret false
  | Some _ => p ← curproc; x ← proc_at p; mret (negb (killed x =? 0) && from_user f)
  end.
(** The tests on the kind of the process, after [running_ticks] was incremented. *)
Definition out_of_time (x : proc) : bool :=
  (bool_decide (q_type x = RR) && (TIME_SLOT <=? running_ticks x)) ||
  (bool_decide (q_type x = DEF) || bool_decide (q_type x = LCFS)) ||
  (bool_decide (q_type x = BJF) && (BJF_UPPER_BOUND <? running_ticks x)).
Definition preempts (f : trapframe) : M K bool :=
  p ← myproc;
  match p with
  | None => mret false
  | Some _ =>
      p ← curproc; x ← proc_at p;
      if bool_decide (state x = RUNNING) && is_timer f then
        p ← curproc;
        set_at p (λ x, x <| running_ticks := u32 (running_ticks x + 1) |>) ;;
        p ← curproc; x ← proc_at p;
        mret (out_of_time x)
      else mret false
  end.
(** After yield has returned. *)
Definition trap_last (f : trapframe) : M K trap_next :=
  e ← must_exit f; mret (if e : bool then TExit else TReturn).
Definition trap_end (f : trapframe) : M K trap_next :=
  e ← must_exit f;
  if (e : bool) then mret TExit else
  y ← preempts f;
  if (y : bool) then mret TYield else trap_last f.
(** trap for the frame [f] at address [a]. *)
Definition trap (a : Z) (f : trapframe) : M K trap_next :=
  if tf_trapno f =? T_SYSCALL then
    p ← curproc; x ← proc_at p;
    if negb (killed x =? 0) then mret TExit else
    p ← curproc; set_at p (λ x, x <| tf := a |>) ;; mret TCall
  else trap_switch f ;; trap_end f.
(** After syscall has returned. *)
Definition trap_syscall_end : M K trap_next :=
  p ← curproc; x ← proc_at p; mret (if negb (killed x =? 0) then TExit else TReturn).

(** ** System calls *)
Section calls.
(** The user memory of the current process: the word at an address. *)
Context (user_word : Z → M K Z).
Definition fetchint (addr : Z) : M K (option Z) :=
  p ← curproc; x ← proc_at p;
  if (sz x <=? addr) || (sz x <? u32 (addr + 4)) then mret None
  else v ← user_word addr; mret (Some (i32 v)).
Definition frame_of (p : nat) : M K trapframe :=
  x ← proc_at p; fs ← getc tframes;
  match fs !! tf x with Some f => mret f | None => undef "tf" end.
Definition argint (n : Z) : M K (option Z) :=
  p ← curproc; f ← frame_of p; fetchint (u32 (tf_esp f + 4 + 4 * n)).

Definition sys_fork : M K Z := fork.
Definition sys_exit : M K unit := exit.
Definition sys_wait : M K wait_turn_result := wait.
Definition sys_kill : M K Z :=
  pd ← argint 0; match pd with None => mret (-1) | Some pd => kill pd end.
Definition sys_getpid : M K Z := p ← curproc; x ← proc_at p; mret (pid x).
Definition sys_sbrk : M K Z :=
  n ← argint 0;
  match n with
  | None => mret (-1)
  | Some n =>
      p ← curproc; x ← proc_at p;
      let addr := i32 (sz x) in
      r ← growproc n;
      mret (if r <? 0 then -1 else addr)
  end.
Definition sys_uptime : M K Z :=
  acquire_lk TicksLock ;; t ← getc ticks; release_lk TicksLock ;; mret (i32 t).
Definition sys_change_queue : M K Z :=
  pd ← argint 0;
  match pd with
  | None => mret (-1)
  | Some pd =>
      q ← argint 1;
      match q with
      | None => mret (-1)
      | Some q => if bool_decide (queue_of_id q = None) then mret (-1) else change_queue pd q ;; mret 0
      end
  end.
(** [argint(i, &x) < 0 || ...] for consecutive arguments from [i]. *)
Fixpoint argints (i : Z) (n : nat) : M K (option (list Z)) :=
  match n with
  | O => mret (Some [])
  | S n' =>
      a ← argint i;
      match a with
      | None => mret None
      | Some a => l ← argints (i + 1) n'; mret (cons a <$> l)
      end
  end.
Definition sys_change_local_bjf : M K Z :=
  l ← argints 0 5;
  match l with Some [pd; a; b; c; d] => change_local_bjf pd a b c d | _ => mret (-1) end.
Definition sys_change_global_bjf : M K Z :=
  l ← argints 0 4;
  match l with Some [a; b; c; d] => change_global_bjf a b c d | _ => mret (-1) end.

(** syscall: [calls] is the table [syscalls], [unknown] the message. *)
Context (calls : gmap Z (M K Z)) (unknown : Z → M E unit).
Definition syscall : M K unit :=
  p ← curproc; f ← frame_of p;
  let num := i32 (tf_eax f) in
  let set_eax (v : Z) : M K unit :=
    x ← proc_at p; f ← frame_of p;
    modc (λ c, c <| tframes := <[tf x := f <| tf_eax := u32 v |>]> (tframes c) |>) in
  match (if 0 <? num then calls !! num else None) with
  | Some call => v ← call; set_eax v
  | None => ext (unknown num) ;; set_eax (-1)
  end.
End calls.

(** ** Traps keep the scheduling invariant *)
Lemma keeps_ext {A} (m : M E A) : keeps (ext m).
Proof. apply keeps_frame. intros s a s' (t & _ & ->)%zoom_ok. done. Qed.
Lemma keeps_ticks_lock : keeps (acquire_lk (E := E) TicksLock) ∧ keeps (release_lk (E := E) TicksLock).
Proof. split; apply keeps_frame; [apply vw_acquire_other|apply vw_release_other]; discriminate. Qed.
Lemma keeps_must_exit f : keeps (must_exit f).
Proof. unfold must_exit. solve_keeps. Qed.
Lemma keeps_trap_end f : keeps (trap_end f).
Proof. unfold trap_end, preempts, trap_last. pose proof (keeps_must_exit f). solve_keeps. Qed.

(** A run of pieces that keep the invariant, each with the lock free. *)
Definition safe {A} (m : M K A) : Prop := ∀ g R v,
  J g ∅ R (v_core v) → v_lock v = false → kwlp m (λ _ v', settled g R false v v') v.
Lemma safe_keeps {A} (m : M K A) : keeps m → safe m.
Proof.
  intros Hm g R v HJ Hl. eapply kwlp_mono; [|exact (Hm (J g ∅ R) _ v HJ)]. intros a v' [HJ' Hr]. split; [done|].
  rewrite Hr. unfold v_rest. by rewrite Hl.
Qed.
Lemma safe_bind {A B} (m : M K A) (k : A → M K B) : safe m → (∀ a, safe (k a)) → safe (m ≫= k).
Proof.
  intros Hm Hk g R v HJ Hl. apply kwlp_bind. eapply kwlp_mono; [|by apply Hm]. intros a v1 [HJ1 Hr1].
  assert (v_lock v1 = false) as Hl1 by (unfold v_rest in Hr1; congruence).
  eapply kwlp_mono; [|by apply Hk]. intros b v2 [HJ2 Hr2]. split; [done|]. unfold v_rest in *. congruence.
Qed.
Lemma safe_when b (m : M K unit) : safe m → safe (when b m).
Proof. intros Hm. destruct b; [done|]. apply safe_keeps, keeps_ret. Qed.
Lemma safe_trap a f : safe (trap a f).
Proof.
  unfold trap. destruct (_ =? T_SYSCALL); [apply safe_keeps; solve_keeps|].
  apply safe_bind; [|intros []; apply safe_keeps, keeps_trap_end]. unfold trap_switch. destruct (is_timer f).
  - apply safe_bind; [apply safe_keeps, keeps_frame; auto with frames|]. intros i. apply safe_bind; [|intros []; apply safe_keeps, keeps_ext].
    apply safe_when. unfold clock_tick.
    apply safe_bind; [apply safe_keeps, keeps_ticks_lock|]. intros [].
    apply safe_bind; [apply safe_keeps, keeps_modc; done|]. intros [].
    apply safe_bind; [by intros g R v HJ Hl; apply agingMechanism_keeps_J|]. intros [].
    apply safe_bind; [by intros g R v HJ Hl; apply wakeup_keeps_J|]. intros [].
    apply safe_keeps, keeps_ticks_lock.
  - destruct (other_irq _); [apply safe_keeps, keeps_ext|]. apply safe_keeps. pose proof (keeps_ext (irq (tf_trapno f))). solve_keeps.
Qed.
(** Whatever interrupt or exception it handles, trap leaves the process table, the queues and the CPUs in
    a state that satisfies the invariant of the scheduler, with or without the agreement of the queues. *)
Theorem trap_keeps_invariant g a f r s s' ps :
  sys_inv g (mkSys s ps) → lock_free (mkSys s ps) → trap a f s = Ok r s' → sys_inv g (mkSys s' ps) ∧ lock_free (mkSys s' ps).
Proof.
  intros [R Hs] Hl Hrun. pose proof (safe_trap a f g R (vw s) (si_table _ _ _ _ Hs) Hl s r s' eq_refl Hrun) as Hset.
  split; [|by destruct Hset as [_ (Hl' & _)%rest_parts]]. eapply stay_step; [exact Hs|exact Hl| |exact Hrun].
  by apply safe_trap, Hl; destruct Hs.
Qed.

(** ** The time slice *)
(** This CPU runs process [p]. *)
Definition on_proc s (h : hwcpu) (c : cpu) (p : nat) : Prop :=
  cur (k_mach s) h c ∧ cli_ok h c ∧ cpu_proc c = Some p.
Lemma myproc_at s h c p :
  on_proc s h c p → ∃ s1 c1, myproc s = Ok (Some p) s1 ∧ on_proc s1 h c1 p ∧ k_core s1 = k_core s.
Proof.
  intros (Hc & Hok & Hp). set (s1 := upd L_mach (m_push (k_mach s) h c) s).
  assert (cur (k_mach s1) (if_off h) (push_cpu (hw_if h) c)) as Hc1 by (by apply cur_push).
  set (s2 := upd L_mach (m_pop (k_mach s1) (if_off h) (push_cpu (hw_if h) c)) s1).
  exists s2, (peek_cpu h c). split.
  - unfold myproc. rewrite (bind_run _ _ _ _ _ (pushcli_run L_mach s h c Hc)). fold s1.
    rewrite (bind_run _ _ _ _ _ (mycpu_run L_mach s1 _ _ Hc1 eq_refl)), (bind_run _ _ _ _ _ (get_cpu_run L_mach s1 _ _ Hc1)).
    rewrite (bind_run _ _ _ _ _ (popcli_run L_mach s1 _ _ Hc1 eq_refl ltac:(rewrite push_cpu_ncli; destruct Hok; lia))).
    by rewrite push_cpu_proc, Hp.
  - split; [|done]. unfold s2, s1. cbn [view L_mach k_mach upd]. unfold on_proc. cbn. rewrite m_pop_push by done.
    split; [eapply cur_at_cpu; [done|done|]; unfold peek_cpu; by destruct (ncli c =? 0)|].
    split; [unfold cli_ok, peek_cpu; by destruct (ncli c =? 0)|]. unfold peek_cpu. by destruct (ncli c =? 0).
Qed.
Lemma curproc_at s h c p :
  on_proc s h c p → ∃ s1 c1, curproc s = Ok p s1 ∧ on_proc s1 h c1 p ∧ k_core s1 = k_core s.
Proof.
  intros (s1 & c1 & Hr & Ho & Hk)%myproc_at. exists s1, c1. split; [|done]. unfold curproc. by rewrite (bind_run _ _ _ _ _ Hr).
Qed.
Lemma proc_at_run s p x : procs (k_core s) !! p = Some x → proc_at p s = Ok x s.
Proof. intros Hx. unfold proc_at, inc. rewrite (zoom_run L_core _ _ _ _ (get_proc_run (k_core s) p x Hx)). by destruct s. Qed.
Lemma set_at_run s p x f :
  procs (k_core s) !! p = Some x →
  set_at p f s = Ok tt (upd L_core (k_core s <| procs := <[p := f x]> (procs (k_core s)) |>) s).
Proof. intros Hx. unfold set_at, inc. by rewrite (zoom_run L_core _ _ _ _ (upd_proc_run (k_core s) p x f Hx)). Qed.
Lemma on_proc_core s h c p d : on_proc s h c p → on_proc (upd L_core d s) h c p.
Proof. done. Qed.

Lemma must_exit_run f s h c p x :
  on_proc s h c p → procs (k_core s) !! p = Some x →
  ∃ s1 c1, must_exit f s = Ok (negb (killed x =? 0) && from_user f) s1 ∧ on_proc s1 h c1 p ∧ k_core s1 = k_core s.
Proof.
  intros Ho Hx. destruct (myproc_at _ _ _ _ Ho) as (s1 & c1 & Hr1 & Ho1 & Hk1). destruct (curproc_at _ _ _ _ Ho1) as (s2 & c2 & Hr2 & Ho2 & Hk2).
  exists s2, c2. split; [|split; [done|congruence]]. unfold must_exit. rewrite (bind_run _ _ _ _ _ Hr1), (bind_run _ _ _ _ _ Hr2).
  by rewrite (bind_run _ _ _ _ _ (proc_at_run s2 p x ltac:(rewrite Hk2, Hk1; exact Hx))).
Qed.
Definition ticked (x : proc) : proc := x <| running_ticks := u32 (running_ticks x + 1) |>.
Lemma preempts_run f s h c p x :
  on_proc s h c p → procs (k_core s) !! p = Some x → state x = RUNNING → is_timer f = true →
  ∃ s1 c1, preempts f s = Ok (out_of_time (ticked x)) s1 ∧ on_proc s1 h c1 p ∧
    k_core s1 = k_core s <| procs := <[p := ticked x]> (procs (k_core s)) |>.
Proof.
  intros Ho Hx Hst Hf. destruct (myproc_at _ _ _ _ Ho) as (s1 & c1 & Hr1 & Ho1 & Hk1). destruct (curproc_at _ _ _ _ Ho1) as (s2 & c2 & Hr2 & Ho2 & Hk2).
  destruct (curproc_at _ _ _ _ Ho2) as (s3 & c3 & Hr3 & Ho3 & Hk3).
  assert (procs (k_core s2) !! p = Some x) as Hx2 by (rewrite Hk2, Hk1; exact Hx).
  assert (procs (k_core s3) !! p = Some x) as Hx3 by (rewrite Hk3; exact Hx2).
  pose proof (set_at_run s3 p x (λ x, x <| running_ticks := u32 (running_ticks x + 1) |>) Hx3) as Hr4.
  set (s4 := upd L_core _ s3) in Hr4. assert (on_proc s4 h c3 p) as Ho4 by exact Ho3.
  destruct (curproc_at _ _ _ _ Ho4) as (s5 & c5 & Hr5 & Ho5 & Hk5). exists s5, c5. split; [|split; [done|]].
  - unfold preempts. rewrite (bind_run _ _ _ _ _ Hr1), (bind_run _ _ _ _ _ Hr2), (bind_run _ _ _ _ _ (proc_at_run s2 p x Hx2)).
    rewrite bool_decide_true by done. rewrite Hf. cbn [andb]. rewrite (bind_run _ _ _ _ _ Hr3), (bind_run _ _ _ _ _ Hr4), (bind_run _ _ _ _ _ Hr5).
    rewrite (bind_run _ _ _ _ _ (proc_at_run s5 p (ticked x) ltac:(rewrite Hk5; apply list_lookup_insert_eq; by eapply lookup_lt_Some))). done.
  - rewrite Hk5. unfold s4. cbn [upd L_core k_core]. by rewrite Hk3, Hk2, Hk1.
Qed.
(** The end of a timer interrupt for a process that is not killed. *)
Lemma trap_end_timer f s h c p x :
  on_proc s h c p → procs (k_core s) !! p = Some x → state x = RUNNING → killed x = 0 → is_timer f = true →
  ∃ s1 c1, trap_end f s = Ok (if out_of_time (ticked x) then TYield else TReturn) s1 ∧ on_proc s1 h c1 p ∧
    k_core s1 = k_core s <| procs := <[p := ticked x]> (procs (k_core s)) |>.
Proof.
  intros Ho Hx Hst Hkl Hf. destruct (must_exit_run f _ _ _ _ _ Ho Hx) as (s1 & c1 & Hr1 & Ho1 & Hk1). rewrite Hkl in Hr1. cbn in Hr1.
  destruct (preempts_run f s1 h c1 p x Ho1 ltac:(rewrite Hk1; exact Hx) Hst Hf) as (s2 & c2 & Hr2 & Ho2 & Hk2). rewrite Hk1 in Hk2.
  unfold trap_end. rewrite (bind_run _ _ _ _ _ Hr1), (bind_run _ _ _ _ _ Hr2). destruct (out_of_time (ticked x)); [by exists s2, c2|].
  destruct (must_exit_run f s2 h c2 p (ticked x) Ho2) as (s3 & c3 & Hr3 & Ho3 & Hk3).
  { rewrite Hk2. apply list_lookup_insert_eq. by eapply lookup_lt_Some. }
  exists s3, c3. change (killed (ticked x)) with (killed x) in Hr3. rewrite Hkl in Hr3. cbn in Hr3.
  unfold trap_last. rewrite (bind_run _ _ _ _ _ Hr3). split; [done|]. split; [done|congruence].
Qed.

(** Ticks a process may still run. *)
Definition slice (x : proc) : Z :=
  match q_type x with
  | RR => Z.max 1 (TIME_SLOT - running_ticks x)
  | BJF => Z.max 1 (BJF_UPPER_BOUND + 1 - running_ticks x)
  | _ => 1
  end.
Lemma out_of_time_kind x :
  out_of_time x = match q_type x with RR => TIME_SLOT <=? running_ticks x | BJF => BJF_UPPER_BOUND <? running_ticks x | _ => true end.
Proof. unfold out_of_time. destruct (q_type x); cbn -[Z.leb Z.ltb]; by rewrite ?orb_false_r. Qed.
(** Timer interrupts one after the other, until the process has to yield: the number of
    those that returned to it. *)
Fixpoint ticks_until_yield (n : nat) (f : trapframe) : M K (option Z) :=
  match n with
  | O => mret None
  | S n' =>
      r ← trap_end f;
      match r with
      | TReturn => k ← ticks_until_yield n' f; mret (Z.succ <$> k)
      | TYield => mret (Some 0)
      | _ => mret None
      end
  end.
(** C27: the timer gives a process of the round-robin queue TIME_SLOT ticks since it last yielded, one of
    the BJF queue BJF_UPPER_BOUND + 1, and any other process one; exactly then it has to yield. *)
Theorem timer_slice f s h c p x n :
  on_proc s h c p → procs (k_core s) !! p = Some x → state x = RUNNING → killed x = 0 → is_timer f = true →
  0 ≤ running_ticks x < 2 ^ 31 → slice x ≤ Z.of_nat n →
  ∃ s1, ticks_until_yield n f s = Ok (Some (slice x - 1)) s1.
Proof.
  revert s c x. induction n as [|n IH]; intros s c x Ho Hx Hst Hkl Hf Hr Hn; [unfold slice in Hn; destruct (q_type x); lia|].
  destruct (trap_end_timer f s h c p x Ho Hx Hst Hkl Hf) as (s1 & c1 & Hrun & Ho1 & Hk1). cbn [ticks_until_yield].
  assert (running_ticks (ticked x) = running_ticks x + 1) as Hrt by (cbn; apply u32_small; lia).
  rewrite (bind_run _ _ _ _ _ Hrun). destruct (out_of_time (ticked x)) eqn:Ho2.
  - exists s1. replace (slice x) with 1; [done|]. rewrite out_of_time_kind, Hrt in Ho2. change (q_type (ticked x)) with (q_type x) in Ho2.
    unfold slice, TIME_SLOT, BJF_UPPER_BOUND in *. destruct (q_type x); lia.
  - assert (slice (ticked x) = slice x - 1 ∧ running_ticks x < 501) as [Hsl Hlt].
    { rewrite out_of_time_kind, Hrt in Ho2. unfold slice. rewrite Hrt. change (q_type (ticked x)) with (q_type x) in *.
      unfold TIME_SLOT, BJF_UPPER_BOUND in *. destruct (q_type x); try done; lia. }
    destruct (IH s1 c1 (ticked x) Ho1) as (s2 & Hrun2); [|done|done|done|lia|lia|].
    + rewrite Hk1. apply list_lookup_insert_eq. by eapply lookup_lt_Some.
    + exists s2. rewrite (bind_run _ _ _ _ _ Hrun2), Hsl. unfold mret, M_ret. cbn. do 2 f_equal. lia.
Qed.
End trap.

(** The first process as a round-robin process: it has to yield at the fifth tick. *)
Definition demo_rr_proc : kern Z := exec (set_at 0 (λ x, x <| q_type := RR |>)) demo_running.
Definition demo_timer : trapframe := tf_zero <| tf_trapno := 32 |> <| tf_cs := 35 |>.
#[global] Strategy 1000 [demo_rr_proc].
Lemma timer_slice_witness :
  ∃ s1, ticks_until_yield 10 demo_timer demo_rr_proc = Ok (Some 4) s1.
Proof.
  destruct (procs (k_core demo_rr_proc) !! 0%nat) as [x|] eqn:Hx; [|vm_compute in Hx; discriminate Hx].
  assert (state x = RUNNING ∧ killed x = 0 ∧ running_ticks x = 0 ∧ slice x = 5) as (H1 & H2 & H3 & H4).
  { vm_compute in Hx. injection Hx as <-. split; [|split; [|split]]; reflexivity. }
  assert (on_proc demo_rr_proc (mkHw 0 true) demo_cpu 0) as Ho.
  { split; [|split; [split; [done|by intros ?]|reflexivity]]. split_and!; try (vm_compute; reflexivity). intros j c' Hj. vm_compute in Hj. lia. }
  destruct (timer_slice demo_timer demo_rr_proc _ _ 0 x 10 Ho Hx H1 H2 eq_refl ltac:(lia) ltac:(lia)) as [s1 Hs].
  exists s1. rewrite H4 in Hs. exact Hs.
Defined.
