(* ===== verification/Ps.v ===== *)
(** * The process listings (procdump, wrap_space, wrap_spacei and print_proc of proc.c)

    Text is a list of character codes.  A column is formatted into a [holder], an
    array on the stack of the column's width plus one; a write outside it is
    undefined, and so is overflow of the [int] that holds the reversed digits.
    What a listing prints is the list of the arguments of its cprintf calls. *)

From S2P Require Import Prelude Spinlock Queue CStr Proc.

(** [holder[i] = c] *)
Definition put_char (i : nat) (c : Z) (holder : list Z) : option (list Z) :=
  if decide (i < length holder)%nat then Some (<[i := c]> holder) else None.

(** memset(holder, ' ', len); holder[len] = 0; *)
Definition blank (len : nat) (holder : list Z) : option (list Z) :=
  if decide (len < length holder)%nat
  then Some (replicate len 32 ++ 0 :: drop (S len) holder) else None.

(** wrap_space: its loop copies at most [n] characters of [inp], from index [i]. *)
Fixpoint wrap_copy (inp : list Z) (holder : list Z) (i n : nat) : option (list Z) :=
  match n with
  | O => Some holder
  | S n' =>
      match inp with
      | [] => None
      | c :: inp' =>
          if c =? 0 then Some holder
          else holder' ← put_char i c holder; wrap_copy inp' holder' (S i) n'
      end
  end.
Definition wrap_space (inp holder : list Z) (len : nat) : option (list Z) :=
  h ← blank len holder; wrap_copy inp h 0 len.

(** wrap_spacei: the digits are collected in reverse into [rev], then taken off
    it again.  [fuel] bounds the loop; eleven turns cover every [int]. *)
Definition int_ok (z : Z) : bool := bool_decide (- 2 ^ 31 ≤ z < 2 ^ 31).
Fixpoint rev_digits (fuel : nat) (inp rev cnt : Z) : option (Z * Z) :=
  match fuel with
  | O => None
  | S f =>
      if negb (int_ok (rev * 10)) then None else
      if negb (int_ok (rev * 10 + inp mod 10)) then None else
      let rev' := rev * 10 + inp mod 10 in
      if 0 <? inp / 10 then rev_digits f (inp / 10) rev' (cnt + 1) else Some (rev', cnt + 1)
  end.
Fixpoint put_digits (rev : Z) (holder : list Z) (i n : nat) : option (list Z) :=
  match n with
  | O => Some holder
  | S n' => holder' ← put_char i (rev mod 10 + 48) holder; put_digits (rev / 10) holder' (S i) n'
  end.
Definition wrap_spacei (inp : Z) (holder : list Z) (len : nat) : outcome unit (list Z) :=
  if inp <? 0 then Panic "negative pid or arrive time" else
  match (h ← blank len holder; '(rev, cnt) ← rev_digits 11 inp 0 0; put_digits rev h 0 (Z.to_nat cnt)) with
  | Some h => Ok h tt
  | None => Undef "wrap_spacei"
  end.

(** ** procdump *)
Inductive arg := AStr (s : list Z) | AInt (z : Z).
Definition dump_state (st : procstate) : string :=
  match st with
  | UNUSED => "unused" | EMBRYO => "embryo" | SLEEPING => "sleep "
  | RUNNABLE => "runble" | RUNNING => "run   " | ZOMBIE => "zombie"
  end.
(** The return addresses printed for a sleeping process: up to the first zero. *)
Fixpoint nonzero_prefix (l : list Z) : list Z :=
  match l with [] => [] | x :: l' => if x =? 0 then [] else x :: nonzero_prefix l' end.
Definition dump_one (mem : Z → Z) (ctxs : gmap Z ctxt) (x : proc) : option (list arg) :=
  let row := [AInt (pid x); AStr (bytes_of_string (dump_state (state x))); AStr (cstr (name x))] in
  match state x with
  | SLEEPING =>
      k ← ctxs !! context x;
      Some (row ++ (AInt <$> nonzero_prefix (getcallerpcs mem (u32 (c_ebp k + 2 * 4)))))
  | _ => Some row
  end.
Fixpoint procdump_rows (mem : Z → Z) (ctxs : gmap Z ctxt) (ps : list proc) : option (list (list arg)) :=
  match ps with
  | [] => Some []
  | x :: ps' =>
      if bool_decide (state x = UNUSED) then procdump_rows mem ctxs ps'
      else row ← dump_one mem ctxs x; rows ← procdump_rows mem ctxs ps'; Some (row :: rows)
  end.

(** ** print_proc *)
Definition NAME_LEN : nat := 15.
Definition PID_LEN : nat := 3.
Definition AT_LEN : nat := 10.
Definition ATR_LEN : nat := 1.
Definition PR_LEN : nat := 13.
Definition PRR_LEN : nat := 1.
Definition EX_LEN : nat := 10.
Definition EXR_LEN : nat := 1.
Definition SIZE_LEN : nat := 7.
Definition SIZER_LEN : nat := 2.
Definition TICKS_LEN : nat := 6.
Definition print_state (st : procstate) : string :=
  match st with
  | UNUSED => "UNUSED  " | EMBRYO => "EMBRYO  " | SLEEPING => "SLEEPING"
  | RUNNABLE => "RUNNABLE" | RUNNING => "RUNNING " | ZOMBIE => "ZOMBIE  "
  end.
Definition q_number (t : schedQ) : Z := match t with DEF => 0 | RR => 1 | LCFS => 2 | BJF => 3 end.
Definition new_holder (len : nat) : list Z := replicate (S len) 0.

Section print.
Context {S : Type}.
Definition lift (o : outcome unit (list Z)) : M S (list Z) := λ s,
  match o with Ok h _ => Ok h s | Panic e => Panic e | Undef e => Undef e | Spin => Spin end.
Definition col (z : Z) (len : nat) : M S arg := h ← lift (wrap_spacei z (new_holder len) len); mret (AStr h).
(** One row.  C leaves open in which order the columns are formatted; they do
    not depend on each other. *)
Definition print_row (tk : Z) (x : proc) : M S (list arg) :=
  nm ← match wrap_space (name x) (new_holder NAME_LEN) NAME_LEN with
       | Some h => mret (AStr h) | None => undef "wrap_space" end;
  c1 ← col (pid x) PID_LEN;
  c2 ← col (i32 (arrivetime x)) AT_LEN;
  c3 ← col (priority x) PR_LEN;
  c4 ← col (ext_trunc (priority_ratio x)) PRR_LEN;
  c5 ← col (ext_trunc (arrivetime_ratio x)) ATR_LEN;
  c6 ← col (ext_trunc (executed_cycle_ratio x)) EXR_LEN;
  c7 ← col (ext_trunc (size_ratio x)) SIZER_LEN;
  c8 ← col (i32 (running_ticks x)) EX_LEN;
  c9 ← col (i32 (sz x)) SIZE_LEN;
  c10 ← col (i32 tk) TICKS_LEN;
  mret [nm; c1; AStr (bytes_of_string (print_state (state x))); AInt (q_number (q_type x));
        c2; c3; c4; c5; c6; c7; c8; c9; c10].
Fixpoint print_rows (tk : Z) (ps : list proc) : M S (list (list arg)) :=
  match ps with
  | [] => mret []
  | x :: ps' =>
      if bool_decide (state x = UNUSED) then print_rows tk ps'
      else row ← print_row tk x; rows ← print_rows tk ps'; mret (row :: rows)
  end.
End print.

Section kern.
Context {E : Type} `{KEnv E}.
Definition procdump : M (kern E) (list (list arg)) :=
  m ← gets k_mach; c ← gets k_core;
  match procdump_rows (stack m) (contexts c) (procs c) with
  | Some rows => mret rows | None => undef "p->context"
  end.
Definition print_proc : M (kern E) (list (list arg)) :=
  acquire_lk PtableLock ;;
  c ← gets k_core;
  rows ← print_rows (ticks c) (procs c);
  release_lk PtableLock ;;
  mret rows.
Definition sys_print_proc : M (kern E) (list (list arg)) := print_proc.
End kern.

(** ** Formatting numbers *)

(** The decimal digits of [z], most significant first, as character codes. *)
Fixpoint digits (fuel : nat) (z : Z) : list Z :=
  match fuel with
  | O => []
  | S f => if 0 <? z / 10 then digits f (z / 10) ++ [z mod 10 + 48] else [z mod 10 + 48]
  end.
Definition decimal (z : Z) : list Z := digits 11 z.
Definition rev_value (z : Z) : Z := foldr (λ d acc, d - 48 + 10 * acc) 0 (decimal z).

Lemma digits_range fuel z : 0 ≤ z → Forall (λ d, 48 ≤ d < 58) (digits fuel z).
Proof.
  revert z. induction fuel as [|f IH]; intros z Hz; [constructor|]. cbn [digits].
  pose proof (Z.mod_pos_bound z 10 ltac:(lia)).
  destruct (0 <? z / 10).
  - apply Forall_app. split; [apply IH, Z.div_pos; lia|]. repeat constructor; lia.
  - repeat constructor; lia.
Qed.
Lemma foldr_digits_bound l : Forall (λ d, 48 ≤ d < 58) l → 0 ≤ foldr (λ d acc, d - 48 + 10 * acc) 0 l.
Proof. induction 1; simpl; lia. Qed.


Definition dig_val (l : list Z) (base : Z) : Z := foldr (λ d acc, d - 48 + 10 * acc) base l.
Lemma dig_val_ge l b : Forall (λ d, 48 ≤ d < 58) l → 0 ≤ b → b ≤ dig_val l b.
Proof. induction 1; intros Hb; simpl; [lia|]. unfold dig_val in *. lia. Qed.
Lemma dig_val_snoc l d b : dig_val (l ++ [d]) b = dig_val l (d - 48 + 10 * b).
Proof. unfold dig_val. by rewrite foldr_app. Qed.
Lemma rev_value_dig z : rev_value z = dig_val (decimal z) 0.
Proof. done. Qed.

Lemma rev_digits_run fuel z rev cnt :
  0 ≤ z < 10 ^ Z.of_nat fuel → 0 ≤ rev → dig_val (digits fuel z) rev < 2 ^ 31 → (0 < fuel)%nat →
  rev_digits fuel z rev cnt = Some (dig_val (digits fuel z) rev, cnt + Z.of_nat (length (digits fuel z))).
Proof.
  revert z rev cnt. induction fuel as [|f IH]; intros z rev cnt Hz Hrev HV Hf; [lia|].
  cbn [rev_digits digits] in *. pose proof (Z.mod_pos_bound z 10 ltac:(lia)) as Hm.
  assert (0 ≤ z / 10) as Hq by (apply Z.div_pos; lia).
  set (rev' := rev * 10 + z mod 10).
  assert (int_ok (rev * 10) = true ∧ int_ok rev' = true) as [-> ->].
  { assert (rev' < 2 ^ 31) as Hlt.
    { destruct (0 <? z / 10).
      - rewrite dig_val_snoc in HV. pose proof (dig_val_ge _ (z mod 10 + 48 - 48 + 10 * rev) (digits_range f (z / 10) Hq)).
        unfold rev'. lia.
      - unfold dig_val in HV. simpl in HV. unfold rev'. lia. }
    unfold int_ok, rev' in *. rewrite !bool_decide_eq_true. lia. }
  cbn [negb]. destruct (Z.ltb_spec 0 (z / 10)) as [Hpos|Hle].
  - rewrite dig_val_snoc in *. rewrite IH.
    + f_equal. f_equal; [f_equal; unfold rev'; lia|]. rewrite length_app. simpl. lia.
    + split; [done|]. apply Z.div_lt_upper_bound; [lia|]. rewrite Nat2Z.inj_succ, Z.pow_succ_r in Hz by lia. lia.
    + unfold rev'. lia.
    + replace rev' with (z mod 10 + 48 - 48 + 10 * rev) by (unfold rev'; lia). done.
    + destruct f; [|lia]. simpl in Hz. assert (z / 10 = 0) by (apply Z.div_small; lia). lia.
  - f_equal. f_equal; unfold dig_val, rev'; simpl; lia.
Qed.

Lemma put_char_at i c a x b : length a = i → put_char i c (a ++ x :: b) = Some (a ++ c :: b).
Proof.
  intros <-. unfold put_char. rewrite decide_True by (rewrite length_app; simpl; lia).
  f_equal. rewrite insert_app_r_alt by lia. by rewrite Nat.sub_diag.
Qed.
Lemma put_digits_run l a b c :
  Forall (λ d, 48 ≤ d < 58) l → length b = length l →
  put_digits (dig_val l 0) (a ++ b ++ c) (length a) (length l) = Some (a ++ l ++ c).
Proof.
  intros Hl. revert a b. induction Hl as [|d l Hd Hl IH]; intros a b Hb.
  - by destruct b.
  - destruct b as [|x b]; [done|]. simpl in Hb. cbn [length put_digits]. injection Hb as Hb.
    assert (dig_val (d :: l) 0 mod 10 + 48 = d ∧ dig_val (d :: l) 0 / 10 = dig_val l 0) as [-> ->].
    { unfold dig_val. simpl. set (v := foldr _ 0 l). split.
      - rewrite (Z.mul_comm 10), Z.mod_add by lia. rewrite Z.mod_small; lia.
      - rewrite (Z.mul_comm 10), Z.div_add by lia. rewrite Z.div_small by lia. lia. }
    simpl. rewrite put_char_at by done. simpl.
    specialize (IH (a ++ [d]) b Hb). rewrite length_app in IH. simpl in IH.
    rewrite Nat.add_1_r in IH. rewrite <- !app_assoc in IH. simpl in IH. exact IH.
Qed.

Lemma decimal_value_aux fuel z :
  0 ≤ z < 10 ^ Z.of_nat fuel → foldl (λ a d, 10 * a + (d - 48)) 0 (digits fuel z) = z.
Proof.
  revert z. induction fuel as [|f IH]; intros z Hz; [simpl in *; lia|]. cbn [digits].
  pose proof (Z.div_mod z 10 ltac:(lia)). pose proof (Z.mod_pos_bound z 10 ltac:(lia)).
  assert (0 ≤ z / 10) by (apply Z.div_pos; lia).
  destruct (Z.ltb_spec 0 (z / 10)).
  - rewrite foldl_app, IH; [simpl; lia|]. split; [lia|]. apply Z.div_lt_upper_bound; [lia|].
    rewrite Nat2Z.inj_succ, Z.pow_succ_r in Hz by lia. lia.
  - simpl. lia.
Qed.

(** Wrap_spacei(n, holder, len), for a number whose digits fit the column and
    whose reversed digits fit an [int], fills the column with the decimal
    digits of [n], most significant first, pads it with blanks and terminates
    it; the digits denote [n]. *)
Theorem wrap_spacei_formats z holder len :
  0 ≤ z < 2 ^ 31 → rev_value z < 2 ^ 31 → (length (decimal z) ≤ len < length holder)%nat →
  wrap_spacei z holder len =
    Ok (decimal z ++ replicate (len - length (decimal z)) 32 ++ 0 :: drop (S len) holder) tt ∧
  foldl (λ a d, 10 * a + (d - 48)) 0 (decimal z) = z.
Proof.
  intros Hz Hrev Hlen. split; [|apply decimal_value_aux; lia].
  unfold wrap_spacei, blank. rewrite (proj2 (Z.ltb_ge z 0)) by lia. rewrite decide_True by lia. simpl option_bind.
  cbn [mbind option_bind].
  rewrite (rev_digits_run 11 z 0 0) by (try done; lia). cbn [mbind option_bind].
  fold (decimal z). rewrite Z.add_0_l, Nat2Z.id.
  replace len with (length (decimal z) + (len - length (decimal z)))%nat at 1 by lia.
  rewrite replicate_add, <- app_assoc.
  pose proof (put_digits_run (decimal z) [] (replicate (length (decimal z)) 32)
    (replicate (len - length (decimal z)) 32 ++ 0 :: drop (S len) holder)) as Hp.
  simpl in Hp. rewrite Hp; [done|apply digits_range; lia|apply length_replicate].
Qed.
Lemma wrap_spacei_formats_witness :
  wrap_spacei 1200 (new_holder 6) 6 = Ok [49; 50; 48; 48; 32; 32; 0] tt.
Proof.
  destruct (wrap_spacei_formats 1200 (new_holder 6) 6) as [Hw _];
    [lia|reflexivity|vm_compute; lia|exact Hw].
Defined.

(** A number with more digits than the holder has room for. *)
Lemma rev_digits_cnt fuel z rev cnt v c :
  rev_digits fuel z rev cnt = Some (v, c) → c = cnt + Z.of_nat (length (digits fuel z)).
Proof.
  revert z rev cnt. induction fuel as [|f IH]; intros z rev cnt Hr; [done|]. cbn [rev_digits digits] in *.
  destruct (negb _); [done|]. destruct (negb _); [done|].
  destruct (0 <? z / 10); [|injection Hr as _ <-; simpl; lia].
  apply IH in Hr as ->. rewrite length_app. simpl. lia.
Qed.
Lemma put_digits_room v h i n h' :
  put_digits v h i n = Some h' → n = 0%nat ∨ (i + n ≤ length h)%nat.
Proof.
  revert v h i. induction n as [|n IH]; intros v h i Hp; [by left|]. right. cbn [put_digits] in Hp.
  unfold put_char in Hp. case_decide as Hi; [|done]. cbn [mbind option_bind] in Hp.
  apply IH in Hp as [->|Hp]; [lia|]. rewrite length_insert in Hp. lia.
Qed.
Lemma digits_length fuel z k :
  10 ^ Z.of_nat k ≤ z < 10 ^ Z.of_nat fuel → (k < length (digits fuel z))%nat.
Proof.
  revert z k. induction fuel as [|f IH]; intros z k Hz.
  { assert (1 ≤ 10 ^ Z.of_nat k) by (apply (Z.pow_le_mono_r 10 0); lia). simpl in Hz. lia. }
  cbn [digits]. rewrite Nat2Z.inj_succ, Z.pow_succ_r in Hz by lia. destruct k as [|k].
  - destruct (0 <? z / 10); [rewrite length_app|]; simpl; lia.
  - rewrite Nat2Z.inj_succ, Z.pow_succ_r in Hz by lia.
    assert (10 ^ Z.of_nat k ≤ z / 10 < 10 ^ Z.of_nat f) as Hq.
    { split; [apply Z.div_le_lower_bound|apply Z.div_lt_upper_bound]; lia. }
    assert (0 < 10 ^ Z.of_nat k) by (apply Z.pow_pos_nonneg; lia).
    rewrite (proj2 (Z.ltb_lt 0 (z / 10))) by lia. rewrite length_app. simpl.
    specialize (IH _ _ Hq). lia.
Qed.
Lemma wrap_copy_total inp holder i n :
  (n ≤ length inp)%nat → (i + n ≤ length holder)%nat → is_Some (wrap_copy inp holder i n).
Proof.
  revert inp holder i. induction n as [|n IH]; intros [|c inp] holder i Hn Hi; simpl in *; try lia; [done..|].
  destruct (c =? 0); [done|]. unfold put_char. rewrite decide_True by lia. simpl.
  apply IH; [lia|]. rewrite length_insert. lia.
Qed.

(** The pid column of print_proc holds three digits and a terminator: formatting
    a process with a pid of 10000 or more writes outside its holder. *)
Theorem print_proc_pid_overflow {S} x tk (s : S) :
  10000 ≤ pid x < 2 ^ 31 → length (name x) = 16%nat → print_row tk x s = Undef "wrap_spacei".
Proof.
  intros Hp Hn. unfold print_row.
  destruct (wrap_copy_total (name x) (replicate 15 32 ++ [0]) 0 15) as [h Hh]; [rewrite Hn; lia|simpl; lia|].
  replace (wrap_space (name x) (new_holder NAME_LEN) NAME_LEN) with (Some h) by (by rewrite <- Hh).
  assert (wrap_spacei (pid x) (new_holder PID_LEN) PID_LEN = Undef "wrap_spacei") as Hw;
    [|unfold mbind, M_bind, col, lift; cbn beta iota; by rewrite Hw].
  unfold wrap_spacei. rewrite (proj2 (Z.ltb_ge _ 0)) by lia.
  cbn [mbind option_bind blank]. destruct (rev_digits 11 (pid x) 0 0) as [[v c]|] eqn:Hr; [|done].
  apply rev_digits_cnt in Hr as ->.
  assert (4 < length (digits 11 (pid x)))%nat as Hd.
  { apply digits_length. change (10 ^ Z.of_nat 4) with 10000. change (10 ^ Z.of_nat 11) with 100000000000. lia. }
  revert Hd. generalize (length (digits 11 (pid x))). intros n Hd. rewrite Z.add_0_l.
  cbn [mbind option_bind]. rewrite ?Nat2Z.id.
  change (blank PID_LEN (new_holder PID_LEN)) with (Some [32; 32; 32; 0]). cbn [mbind option_bind].
  destruct (put_digits v [32; 32; 32; 0] 0 n) as [h'|] eqn:Hput; [|done].
  apply put_digits_room in Hput. simpl in Hput. lia.
Qed.
Lemma print_proc_pid_overflow_witness :
  print_row 0 (mkProc 0 0 0 RUNNABLE 12345 None 0 0 CNull 0 [] None (replicate 16 0) LCFS 0
    float_zero float_zero float_zero 0 float_zero float_zero 0 0 0) tt = Undef "wrap_spacei".
Proof. apply print_proc_pid_overflow; [simpl; lia|reflexivity]. Defined.
