(* ===== verification/Grep.v ===== *)
(** * grep (grep.c)

    The matcher of Kernighan and Pike on NUL-terminated strings, here lists of
    the non-zero characters, proved against a declarative reading of patterns;
    and the loop that cuts the input into lines through a buffer of 1024 bytes. *)

From S2P Require Import Prelude.

Definition STAR : Z := 42.
Definition DOT : Z := 46.
Definition DOLLAR : Z := 36.
Definition CARET : Z := 94.
Definition NL : Z := 10.

(** ** The matcher *)

(** matchstar; [here] is matchhere on the rest of the pattern. *)
Fixpoint matchstar (c : Z) (here : list Z → bool) (text : list Z) : bool :=
  if here text then true
  else match text with
       | [] => false
       | t :: text' => if (t =? c) || (c =? DOT) then matchstar c here text' else false
       end.

Fixpoint matchhere (re : list Z) (text : list Z) {struct re} : bool :=
  match re with
  | [] => true
  | c :: re' =>
      let literal :=
        match text with
        | [] => false
        | t :: text' => if (c =? DOT) || (c =? t) then matchhere re' text' else false
        end in
      match re' with
      | d :: re'' => if d =? STAR then matchstar c (matchhere re'') text else literal
      | [] => if c =? DOLLAR then match text with [] => true | _ => false end else literal
      end
  end.

(** match's loop over the positions of the text, the empty suffix included. *)
Fixpoint match_from (re text : list Z) : bool :=
  if matchhere re text then true
  else match text with [] => false | _ :: text' => match_from re text' end.
Definition match_ (re text : list Z) : bool :=
  match re with
  | c :: re' => if c =? CARET then matchhere re' text else match_from re text
  | [] => match_from re text
  end.

(** ** What a pattern means

    [at_start re text]: the pattern matches at the beginning of the text. *)
Definition accepts (c t : Z) : Prop := c = DOT ∨ c = t.
Inductive at_start : list Z → list Z → Prop :=
| at_nil text : at_start [] text
| at_star c re pre text :
    Forall (accepts c) pre → at_start re text → at_start (c :: STAR :: re) (pre ++ text)
| at_end : at_start [DOLLAR] []
| at_char c re t text :
    head re ≠ Some STAR → ¬ (c = DOLLAR ∧ re = []) → accepts c t → at_start re text →
    at_start (c :: re) (t :: text).

Lemma matchstar_spec c here text :
  matchstar c here text = true ↔ ∃ pre post, text = pre ++ post ∧ Forall (accepts c) pre ∧ here post = true.
Proof.
  induction text as [|t text IH]; cbn [matchstar].
  - split.
    + destruct (here []) eqn:Hh; [|done]. intros _. exists [], []. auto.
    + intros (pre & post & [-> ->]%eq_sym%app_nil & _ & ->). done.
  - destruct (here (t :: text)) eqn:Hh.
    + split; [|done]. intros _. exists [], (t :: text). auto.
    + split.
      * destruct ((t =? c) || (c =? DOT)) eqn:Hc; [|done]. intros (pre & post & -> & Hpre & Hpost)%IH.
        exists (t :: pre), post. split; [done|]. split; [|done]. constructor; [|done].
        apply orb_true_iff in Hc as [->%Z.eqb_eq|Hc%Z.eqb_eq]; [by right|by left].
      * intros ([|x pre] & post & Heq & Hpre & Hpost); simplify_eq/=; [congruence|].
        apply Forall_cons in Hpre as [Hx Hpre].
        assert ((x =? c) || (c =? DOT) = true) as ->.
        { apply orb_true_iff. rewrite !Z.eqb_eq. destruct Hx; auto. }
        apply IH. eauto.
Qed.

(** One unfolding of matchhere for a pattern that does not begin with a starred
    character or consist of a dollar. *)
Lemma matchhere_char c re text :
  head re ≠ Some STAR → ¬ (c = DOLLAR ∧ re = []) →
  matchhere (c :: re) text =
  match text with
  | [] => false | t :: text' => if (c =? DOT) || (c =? t) then matchhere re text' else false
  end.
Proof.
  intros Hs Hd. cbn [matchhere]. destruct re as [|d re].
  - rewrite (proj2 (Z.eqb_neq c DOLLAR)); [done|]. intros ->. by apply Hd.
  - rewrite (proj2 (Z.eqb_neq d STAR)); [done|]. intros ->. by apply Hs.
Qed.
Lemma accepts_test c t : (c =? DOT) || (c =? t) = true ↔ accepts c t.
Proof. by rewrite orb_true_iff, !Z.eqb_eq. Qed.

Lemma matchhere_spec n re text :
  (length re ≤ n)%nat → matchhere re text = true ↔ at_start re text.
Proof.
  revert re text. induction n as [|n IH]; intros re text Hn.
  { destruct re; [|simpl in Hn; lia]. split; [constructor|done]. }
  destruct re as [|c re]; [split; [constructor|done]|]. simpl in Hn.
  destruct (decide (head re = Some STAR)) as [Hs|Hs].
  - destruct re as [|d re]; [done|]. injection Hs as ->. cbn [matchhere]. rewrite Z.eqb_refl, matchstar_spec.
    simpl in Hn. split.
    + intros (pre & post & -> & Hpre & Hpost). constructor; [done|]. apply IH; [lia|done].
    + inversion 1; subst; [|by simpl in *]. eexists _, _. split; [done|]. split; [done|]. apply IH; [lia|done].
  - destruct (decide (c = DOLLAR ∧ re = [])) as [[-> ->]|Hd].
    + cbn [matchhere]. rewrite Z.eqb_refl. destruct text as [|t text].
      * split; [constructor|done].
      * split; [done|]. inversion 1; subst. exfalso. eauto.
    + rewrite matchhere_char by done. split.
      * destruct text as [|t text]; [done|]. destruct ((c =? DOT) || (c =? t)) eqn:Hc; [|done].
        intros Hm. constructor; [done|done|by apply accepts_test|]. apply IH; [lia|done].
      * inversion 1; subst; [by simpl in *|by exfalso; apply Hd|].
        rewrite (proj2 (accepts_test c t)) by done. apply IH; [lia|done].
Qed.

Lemma match_from_spec re text :
  match_from re text = true ↔ ∃ pre post, text = pre ++ post ∧ at_start re post.
Proof.
  induction text as [|t text IH]; cbn [match_from].
  - destruct (matchhere re []) eqn:Hm; split; try done.
    + intros _. exists [], []. split; [done|]. by eapply matchhere_spec.
    + intros (pre & post & [-> ->]%eq_sym%app_nil & Hp). rewrite <- (matchhere_spec (length re)) in Hp by lia.
      congruence.
  - destruct (matchhere re (t :: text)) eqn:Hm.
    + split; [|done]. intros _. exists [], (t :: text). split; [done|]. by eapply matchhere_spec.
    + rewrite IH. split.
      * intros (pre & post & -> & Hp). by exists (t :: pre), post.
      * intros ([|x pre] & post & Heq & Hp); simplify_eq/=; [|by eauto].
        rewrite <- (matchhere_spec (length re)) in Hp by lia. congruence.
Qed.

(** C36: match() decides the language of patterns: a pattern that begins with ^
    matches when the rest matches at the beginning of the line, any other when
    it matches at the beginning of some suffix of the line; where a starred
    character stands for any run of it, a dot for any character and a final
    dollar for the end of the line. *)
Theorem match_correct re text :
  match_ re text = true ↔
  match re with
  | c :: re' => if decide (c = CARET) then at_start re' text
                else ∃ pre post, text = pre ++ post ∧ at_start re post
  | [] => True
  end.
Proof.
  unfold match_. destruct re as [|c re].
  - rewrite match_from_spec. split; [done|]. intros _. exists [], text. split; [done|constructor].
  - destruct (Z.eqb_spec c CARET) as [->|Hc].
    + rewrite decide_True by done. by eapply matchhere_spec.
    + rewrite decide_False by done. apply match_from_spec.
Qed.
Lemma match_correct_examples :
  match_ [97; STAR; 98] [120; 97; 97; 98] = true ∧ match_ [CARET; 98] [97; 98] = false ∧
  match_ [98; DOLLAR] [97; 98] = true.
Proof. by vm_compute. Qed.

(** ** The loop over the input

    The buffer holds [BUFLEN] bytes and a terminator.  [strchr(p, '\n')] stops
    at a NUL. *)
Definition BUFLEN : nat := 1023.
Fixpoint cut_line (p : list Z) : option (list Z * list Z) :=
  match p with
  | [] => None
  | c :: p' =>
      if c =? 0 then None
      else if c =? NL then Some ([], p')
      else '(line, rest) ← cut_line p'; Some (c :: line, rest)
  end.
(** The inner loop: what it writes, and the pointer it leaves in [p]; [n] bounds
    the number of lines in the buffer. *)
Fixpoint grep_lines (n : nat) (pattern p : list Z) : list Z * list Z :=
  match n with
  | O => ([], p)
  | S n' =>
      match cut_line p with
      | None => ([], p)
      | Some (line, rest) =>
          let '(out, p') := grep_lines n' pattern rest in
          ((if match_ pattern line then line ++ [NL] else []) ++ out, p')
      end
  end.
(** After one read: the buffer is [buf]; the rest of it is kept, unless it holds
    no newline at all. *)
Definition grep_read (pattern buf : list Z) : list Z * list Z :=
  let '(out, p) := grep_lines (length buf) pattern buf in
  (out, if bool_decide (length p = length buf) then [] else p).
(** The reads deliver the input in chunks; one that does not fit is delivered in
    parts. *)
Fixpoint grep_loop (fuel : nat) (pattern pend : list Z) (chunks : list (list Z)) : list Z :=
  match fuel with
  | O => []
  | S f =>
      match chunks with
      | [] => []
      | chunk :: cs =>
          let room := (BUFLEN - length pend)%nat in
          let n := Nat.min room (length chunk) in
          if (n =? 0)%nat then [] else
          let '(out, pend') := grep_read pattern (pend ++ take n chunk) in
          let left := drop n chunk in
          out ++ grep_loop f pattern pend' (if bool_decide (left = []) then cs else left :: cs)
      end
  end.
Definition grep (pattern : list Z) (chunks : list (list Z)) : list Z :=
  grep_loop (S (length (concat chunks))) pattern [] chunks.

(** The reference: the lines of the input that match. *)
Definition joined (lines : list (list Z)) : list Z := concat ((λ l, l ++ [NL]) <$> lines).
Definition plain (line : list Z) : Prop := Forall (λ c, c ≠ 0 ∧ c ≠ NL) line.

Lemma joined_cons l lines : joined (l :: lines) = (l ++ [NL]) ++ joined lines.
Proof. done. Qed.

Lemma cut_line_plain line rest : plain line → cut_line (line ++ NL :: rest) = Some (line, rest).
Proof.
  induction 1 as [|c line [H0 Hn] _ IH]; [done|]. simpl.
  rewrite (proj2 (Z.eqb_neq c 0) H0), (proj2 (Z.eqb_neq c NL) Hn). by rewrite IH.
Qed.
Lemma grep_lines_joined n pattern lines :
  Forall plain lines → (length lines ≤ n)%nat →
  grep_lines n pattern (joined lines) = (joined (filter (λ l, match_ pattern l = true) lines), []).
Proof.
  intros Hl. revert n. induction Hl as [|line lines Hp _ IH]; intros n Hn.
  { by destruct n. }
  destruct n as [|n]; simpl in Hn; [lia|]. cbn [grep_lines].
  change (joined (line :: lines)) with ((line ++ [NL]) ++ joined lines). rewrite <- app_assoc. simpl.
  rewrite cut_line_plain by done. rewrite IH by lia.
  destruct (match_ pattern line) eqn:Hm.
  - by rewrite filter_cons_True.
  - by rewrite filter_cons_False by (by rewrite Hm).
Qed.
Lemma joined_length lines : (length lines ≤ length (joined lines))%nat.
Proof.
  induction lines as [|l lines IH]; [done|]. rewrite joined_cons, !length_app. simpl. lia.
Qed.
Lemma grep_read_joined pattern lines :
  lines ≠ [] → Forall plain lines →
  grep_read pattern (joined lines) = (joined (filter (λ l, match_ pattern l = true) lines), []).
Proof.
  intros Hne Hp. unfold grep_read. rewrite grep_lines_joined; [|done|apply joined_length].
  rewrite bool_decide_eq_false_2; [done|]. destruct lines as [|l lines]; [done|].
  rewrite joined_cons, !length_app. simpl. lia.
Qed.
Lemma joined_app l1 l2 : joined (l1 ++ l2) = joined l1 ++ joined l2.
Proof. unfold joined. by rewrite fmap_app, concat_app. Qed.

Lemma grep_loop_joined fuel pattern (groups : list (list (list Z))) :
  Forall (λ g, g ≠ [] ∧ Forall plain g ∧ (length (joined g) ≤ BUFLEN)%nat) groups →
  (length groups < fuel)%nat →
  grep_loop fuel pattern [] (joined <$> groups) =
  joined (filter (λ l, match_ pattern l = true) (concat groups)).
Proof.
  intros Hg. revert fuel. induction Hg as [|g groups (Hne & Hp & Hb) _ IH]; intros fuel Hf.
  { by destruct fuel. }
  destruct fuel as [|f]; simpl in Hf; [lia|]. cbn [grep_loop fmap list_fmap].
  assert (0 < length (joined g))%nat as Hpos.
  { destruct g as [|l g]; [done|]. pose proof (joined_length (l :: g)). cbn [length] in *. lia. }
  change (BUFLEN - length [])%nat with BUFLEN.
  rewrite Nat.min_r by lia. rewrite (proj2 (Nat.eqb_neq _ 0)) by lia.
  rewrite take_ge, drop_ge by lia. simpl app. rewrite grep_read_joined by done.
  rewrite IH by lia. simpl. by rewrite filter_app, joined_app.
Qed.

(** When every read delivers whole lines that fit the buffer, grep() writes
    exactly the lines of the input that match the pattern, in order. *)
Theorem grep_prints_matching_lines pattern (groups : list (list (list Z))) :
  Forall (λ g, g ≠ [] ∧ Forall plain g ∧ (length (joined g) ≤ BUFLEN)%nat) groups →
  grep pattern (joined <$> groups) = joined (filter (λ l, match_ pattern l = true) (concat groups)).
Proof.
  intros Hg. apply grep_loop_joined; [done|]. apply le_n_S.
  induction Hg as [|g groups (Hne & _ & _) _ IH]; [done|].
  rewrite fmap_cons. cbn [concat length]. rewrite length_app. pose proof (joined_length g). destruct g as [|l g]; [done|]. cbn [length] in *. lia.
Qed.
Lemma grep_prints_matching_lines_witness :
  grep [98] [[97; NL; 98; NL]; [99; 98; NL]] = [98; NL; 99; 98; NL].
Proof.
  apply (grep_prints_matching_lines [98] [[[97]; [98]]; [[99; 98]]]).
  repeat constructor; try discriminate; vm_compute; lia.
Defined.

(** A read that ends in the middle of its first line loses what it
    delivered: the same matching line is printed when it comes in one read and
    lost when it comes in two. *)
Theorem grep_loses_split_line :
  grep [97] [[97; 98; NL]] = [97; 98; NL] ∧ grep [97] [[97]; [98; NL]] = [].
Proof. by vm_compute. Qed.
