(* ===== verification/Printf.v ===== *)
(** * Formatted output (printf.c)

    [printint] and the format loop of [printf].  An argument is the 32-bit word
    on the stack; [str_at] gives the NUL-terminated string at an address.  Output
    is the list of bytes passed to putc, in order. *)

From S2P Require Import Prelude.

(** ** printint *)
Definition hexdigit (d : Z) : Z := if d <? 10 then 48 + d else 55 + d.

(** The do-while loop: digits, least significant first, into [buf[16]] from
    index [i]; [None] when the buffer is full. *)
Fixpoint int_loop (fuel : nat) (x base : Z) (i : nat) : option (list Z) :=
  match fuel with
  | O => None
  | S f =>
      if (i <? 16)%nat then
        let d := hexdigit (x mod base) in
        if x / base =? 0 then Some [d] else cons d <$> int_loop f (x / base) base (S i)
      else None
  end.
Definition printint (xx base : Z) (sgn : bool) : option (list Z) :=
  let neg := sgn && (xx <? 0) in
  let x := if neg then u32 (- xx) else u32 xx in
  ds ← int_loop 17 x base 0;
  let buf := if neg : bool then ds ++ [45] else ds in
  if (length buf <=? 16)%nat then Some (rev buf) else None.

(** ** printf *)
Definition PERCENT : Z := 37.
Definition null_text : list Z := [40; 110; 117; 108; 108; 41].

Section printf.
Context (str_at : Z → option (list Z)).

(** One character after a percent sign: its output and the arguments left. *)
Definition directive (c : Z) (args : list Z) : option (list Z * list Z) :=
  if c =? 100 then
    match args with a :: args' => out ← printint (i32 a) 10 true; Some (out, args') | [] => None end
  else if (c =? 120) || (c =? 112) then
    match args with a :: args' => out ← printint (i32 a) 16 false; Some (out, args') | [] => None end
  else if c =? 115 then
    match args with
    | a :: args' => out ← (if a =? 0 then Some null_text else str_at a); Some (out, args')
    | [] => None
    end
  else if c =? 99 then
    match args with a :: args' => Some ([u8 a], args') | [] => None end
  else if c =? PERCENT then Some ([c], args)
  else Some ([PERCENT; c], args).

(** The loop over the format, with its two states. *)
Fixpoint printf_loop (fmt : list Z) (percent : bool) (args : list Z) : option (list Z) :=
  match fmt with
  | [] => Some []
  | c :: fmt' =>
      if percent then
        '(out, args') ← directive c args; rest ← printf_loop fmt' false args'; Some (out ++ rest)
      else if c =? PERCENT then printf_loop fmt' true args
      else rest ← printf_loop fmt' false args; Some (c :: rest)
  end.
Definition printf (fmt args : list Z) : option (list Z) := printf_loop fmt false args.
End printf.

(** ** The digits denote the number *)

Definition digit_value (c : Z) : Z := if c <? 58 then c - 48 else c - 55.
(** The number a string of digits denotes, most significant digit first. *)
Definition num_value (base : Z) (s : list Z) : Z := foldl (λ a c, base * a + digit_value c) 0 s.

Lemma hexdigit_value d : 0 ≤ d < 16 → digit_value (hexdigit d) = d.
Proof.
  intros Hd. unfold digit_value, hexdigit. destruct (Z.ltb_spec d 10).
  - rewrite (proj2 (Z.ltb_lt _ _)) by lia. lia.
  - rewrite (proj2 (Z.ltb_ge _ _)) by lia. lia.
Qed.
(** The characters that stand for digits. *)
Definition is_digit (base c : Z) : Prop := ∃ d, 0 ≤ d < base ∧ c = hexdigit d.

Lemma int_loop_spec fuel x base i n :
  2 ≤ base ≤ 16 → 0 ≤ x < base ^ Z.of_nat n → (0 < n ≤ fuel)%nat → (i + n ≤ 16)%nat →
  ∃ ds, int_loop fuel x base i = Some ds ∧ num_value base (rev ds) = x ∧ (0 < length ds ≤ n)%nat ∧
        Forall (is_digit base) ds.
Proof.
  intros Hb. revert x i n. induction fuel as [|f IH]; intros x i n Hx Hn Hi; [lia|].
  cbn [int_loop]. rewrite (proj2 (Nat.ltb_lt i 16)) by lia.
  pose proof (Z.mod_pos_bound x base ltac:(lia)) as Hm. pose proof (Z.div_mod x base ltac:(lia)) as Hdm.
  assert (is_digit base (hexdigit (x mod base))) as Hdig by (by exists (x mod base)).
  destruct (Z.eqb_spec (x / base) 0) as [H0|H0].
  - eexists. split; [done|]. split; [|split; [simpl; lia|by repeat constructor]].
    simpl. unfold num_value. simpl. rewrite hexdigit_value by lia. rewrite Hdm at 2. rewrite H0. lia.
  - assert (0 ≤ x / base) by (apply Z.div_pos; lia).
    destruct n as [|n]; [lia|]. rewrite Nat2Z.inj_succ, Z.pow_succ_r in Hx by lia.
    assert (x / base < base ^ Z.of_nat n) as Hlt by (apply Z.div_lt_upper_bound; lia).
    assert (0 < n)%nat as Hn0 by (destruct n; [simpl in Hlt; lia|lia]).
    destruct (IH (x / base) (S i) n) as (ds & -> & Hv & Hlen & Hd); [lia|lia|lia|].
    eexists. split; [done|]. split; [|split; [simpl; lia|by constructor]].
    simpl. unfold num_value in *. rewrite foldl_app. simpl. rewrite Hv, hexdigit_value by lia. lia.
Qed.

Definition signed_value (s : list Z) : Z :=
  match s with c :: s' => if c =? 45 then - num_value 10 s' else num_value 10 s | [] => 0 end.

Lemma is_digit_not_minus base c : base ≤ 16 → is_digit base c → c ≠ 45.
Proof. intros Hb (d & Hd & ->). unfold hexdigit. destruct (d <? 10) eqn:E; lia. Qed.

(** printint in base 10 writes, for every [int], an optional minus sign and
    decimal digits that denote it, and in base 16 the hexadecimal digits of the
    word; the 16-byte buffer is never overrun. *)
Theorem printint_correct xx :
  - 2 ^ 31 ≤ xx < 2 ^ 31 →
  (∃ s, printint xx 10 true = Some s ∧ signed_value s = xx) ∧
  (∃ s, printint xx 16 false = Some s ∧ num_value 16 s = u32 xx).
Proof.
  intros Hxx. split.
  - unfold printint. cbn [andb]. destruct (Z.ltb_spec xx 0) as [Hneg|Hpos]; cbn [andb].
    + assert (u32 (- xx) = - xx) as -> by (apply u32_small; lia).
      destruct (int_loop_spec 17 (- xx) 10 0 10) as (ds & -> & Hv & Hlen & Hd); [lia|lia|lia|lia|].
      cbn [mbind option_bind]. rewrite (proj2 (Nat.leb_le _ _)) by (rewrite length_app; simpl; lia).
      eexists. split; [done|]. rewrite rev_app_distr. simpl. rewrite Hv. lia.
    + assert (u32 xx = xx) as -> by (apply u32_small; lia).
      destruct (int_loop_spec 17 xx 10 0 10) as (ds & -> & Hv & Hlen & Hd); [lia|lia|lia|lia|].
      cbn [mbind option_bind]. rewrite (proj2 (Nat.leb_le _ _)) by lia.
      eexists. split; [done|]. unfold signed_value. destruct (rev ds) as [|c s] eqn:Hr; [done|].
      assert (is_digit 10 c) as Hc.
      { rewrite Forall_forall in Hd. apply Hd. apply list_elem_of_In, in_rev. rewrite Hr. by left. }
      by rewrite (proj2 (Z.eqb_neq c 45)) by (by eapply is_digit_not_minus; [|exact Hc]).
  - unfold printint. cbn [andb]. pose proof (u32_range xx).
    destruct (int_loop_spec 17 (u32 xx) 16 0 8) as (ds & -> & Hv & Hlen & Hd); [lia|lia|lia|lia|].
    cbn [mbind option_bind]. rewrite (proj2 (Nat.leb_le _ _)) by lia. by eexists.
Qed.
Lemma printint_correct_witness :
  printint (-1205) 10 true = Some [45; 49; 50; 48; 53] ∧
  ∃ s, printint (-1205) 10 true = Some s ∧ signed_value s = -1205.
Proof. split; [reflexivity|]. apply (printint_correct (-1205)). lia. Defined.

(** ** Formats *)

(** What a format stands for: plain characters and directives. *)
Inductive piece := Plain (c : Z) | Directive (c : Z).
Fixpoint pieces (fmt : list Z) : list piece :=
  match fmt with
  | [] => []
  | c :: fmt' =>
      if c =? PERCENT then match fmt' with d :: fmt'' => Directive d :: pieces fmt'' | [] => [] end
      else Plain c :: pieces fmt'
  end.
Fixpoint render (str_at : Z → option (list Z)) (ps : list piece) (args : list Z) : option (list Z) :=
  match ps with
  | [] => Some []
  | Plain c :: ps' => rest ← render str_at ps' args; Some (c :: rest)
  | Directive c :: ps' =>
      '(out, args') ← directive str_at c args; rest ← render str_at ps' args'; Some (out ++ rest)
  end.

(** printf reads its format left to right as plain characters and two-character
    directives, takes the arguments in order, and ends without output at a lone
    percent sign: its two-state loop computes the rendering of the pieces of
    the format. *)
Theorem printf_renders str_at fmt args : printf str_at fmt args = render str_at (pieces fmt) args.
Proof.
  unfold printf. remember (length fmt) as n eqn:Hn. revert fmt args Hn.
  induction n as [n IH] using lt_wf_ind. intros fmt args Hn. destruct fmt as [|c fmt]; [done|].
  cbn [printf_loop pieces]. destruct (c =? PERCENT).
  - destruct fmt as [|d fmt]; [done|]. cbn [printf_loop render].
    destruct (directive str_at d args) as [[out args']|]; [|done]. cbn [mbind option_bind].
    rewrite (IH (length fmt)) by (subst; simpl; auto). done.
  - cbn [render]. rewrite (IH (length fmt)) by (subst; simpl; auto). done.
Qed.
