(* ===== verification/Mem.v ===== *)
(** * Copying and filling memory (memmove and memset of string.c and ulib.c)

    Memory is a function from addresses to bytes, addresses are 32-bit and wrap. *)

From S2P Require Import Prelude.

Definition mem := Z → Z.
Definition store (a v : Z) (m : mem) : mem := λ x, if x =? a then v else m x.

(** [while(n-- > 0) *d++ = *s++;] *)
Fixpoint copy_up (d s : Z) (n : nat) (m : mem) : mem :=
  match n with O => m | S n' => copy_up (u32 (d + 1)) (u32 (s + 1)) n' (store d (m s) m) end.
(** [while(n-- > 0) *--d = *--s;] *)
Fixpoint copy_down (d s : Z) (n : nat) (m : mem) : mem :=
  match n with
  | O => m
  | S n' => let d' := u32 (d - 1) in let s' := u32 (s - 1) in copy_down d' s' n' (store d' (m s') m)
  end.
(** memmove of string.c *)
Definition memmove (dst src : Z) (n : nat) (m : mem) : mem :=
  if (src <? dst) && (dst <? u32 (src + Z.of_nat n))
  then copy_down (u32 (dst + Z.of_nat n)) (u32 (src + Z.of_nat n)) n m
  else copy_up dst src n m.
Definition memcpy : Z → Z → nat → mem → mem := memmove.
(** memmove of ulib.c: its [int] count, and no case for overlap *)
Definition ulib_memmove (dst src n : Z) (m : mem) : mem := copy_up dst src (Z.to_nat n) m.

(** The string instructions: [n] bytes, or [n] little-endian words. *)
Fixpoint stosb (d c : Z) (n : nat) (m : mem) : mem :=
  match n with O => m | S n' => stosb (u32 (d + 1)) c n' (store d (u8 c) m) end.
Definition store_word (a w : Z) (m : mem) : mem :=
  store (u32 (a + 3)) (u8 (w / 2 ^ 24)) (store (u32 (a + 2)) (u8 (w / 2 ^ 16))
    (store (u32 (a + 1)) (u8 (w / 2 ^ 8)) (store a (u8 w) m))).
Fixpoint stosl (d w : Z) (n : nat) (m : mem) : mem :=
  match n with O => m | S n' => stosl (u32 (d + 4)) w n' (store_word d w m) end.
(** memset of string.c and of ulib.c *)
Definition memset (dst c : Z) (n : nat) (m : mem) : mem :=
  if (Z.rem (i32 dst) 4 =? 0) && (Z.of_nat n mod 4 =? 0) then
    let c := Z.land c 0xFF in
    stosl dst (Z.lor (Z.lor (Z.lor (Z.shiftl c 24) (Z.shiftl c 16)) (Z.shiftl c 8)) c) (n / 4) m
  else stosb dst c n m.
Definition ulib_memset (dst c : Z) (n : nat) (m : mem) : mem := stosb dst c n m.

(** What a copy and a fill should do. *)
Definition copied (dst src : Z) (n : nat) (m m' : mem) : Prop :=
  ∀ a, m' a = if decide (dst ≤ a < dst + Z.of_nat n) then m (src + (a - dst)) else m a.
Definition filled (dst c : Z) (n : nat) (m m' : mem) : Prop :=
  ∀ a, m' a = if decide (dst ≤ a < dst + Z.of_nat n) then u8 c else m a.

Lemma copy_up_copied d s n m :
  0 ≤ d → 0 ≤ s → d + Z.of_nat n < 2 ^ 32 → s + Z.of_nat n < 2 ^ 32 →
  d ≤ s ∨ s + Z.of_nat n ≤ d → copied d s n m (copy_up d s n m).
Proof.
  revert d s m. induction n as [|n IH]; intros d s m Hd Hs Hdn Hsn Hor a.
  - simpl. by rewrite decide_False by lia.
  - cbn [copy_up]. rewrite !u32_small by lia. rewrite IH by lia. unfold store.
    destruct (decide (d + 1 ≤ a < d + 1 + Z.of_nat n)).
    + rewrite decide_True by lia. rewrite (proj2 (Z.eqb_neq _ d)) by lia. f_equal. lia.
    + destruct (Z.eqb_spec a d) as [->|Hne].
      * rewrite decide_True by lia. f_equal. lia.
      * by rewrite decide_False by lia.
Qed.
Lemma copy_down_copied d s n m :
  0 ≤ d → s < d → 0 ≤ s → d + Z.of_nat n < 2 ^ 32 →
  copied d s n m (copy_down (d + Z.of_nat n) (s + Z.of_nat n) n m).
Proof.
  revert m. induction n as [|n IH]; intros m Hd Hsd Hs Hdn a.
  - simpl. by rewrite decide_False by lia.
  - cbn [copy_down]. rewrite !u32_small by lia.
    replace (d + Z.of_nat (S n) - 1) with (d + Z.of_nat n) by lia.
    replace (s + Z.of_nat (S n) - 1) with (s + Z.of_nat n) by lia.
    rewrite IH by lia. unfold store. destruct (decide (d ≤ a < d + Z.of_nat n)).
    + rewrite decide_True by lia. by rewrite (proj2 (Z.eqb_neq _ _)) by lia.
    + destruct (Z.eqb_spec a (d + Z.of_nat n)) as [->|Hne].
      * rewrite decide_True by lia. f_equal. lia.
      * by rewrite decide_False by lia.
Qed.

Lemma memmove_copied dst src n m :
  0 ≤ dst → 0 ≤ src → dst + Z.of_nat n < 2 ^ 32 → src + Z.of_nat n < 2 ^ 32 →
  copied dst src n m (memmove dst src n m).
Proof.
  intros Hd Hs Hdn Hsn. unfold memmove. rewrite !u32_small by lia.
  destruct (Z.ltb_spec src dst), (Z.ltb_spec dst (src + Z.of_nat n)); simpl.
  - apply copy_down_copied; lia.
  - apply copy_up_copied; lia.
  - apply copy_up_copied; lia.
  - apply copy_up_copied; lia.
Qed.
(** memmove() of the kernel copies correctly however source and destination
    overlap: afterwards the destination holds what the source held before, and
    no other byte has changed. *)
Theorem memmove_correct dst src n m :
  0 ≤ dst → 0 ≤ src → dst + Z.of_nat n < 2 ^ 32 → src + Z.of_nat n < 2 ^ 32 →
  copied dst src n m (memmove dst src n m).
Proof. apply memmove_copied. Qed.
Lemma memmove_correct_witness : copied 102 100 5 (λ a, a) (memmove 102 100 5 (λ a, a)).
Proof. apply memmove_correct; lia. Defined.

(** memmove() of the user library copies correctly when the destination does
    not start inside the source, and not otherwise: moving three bytes up by one
    repeats the first. *)
Lemma ulib_memmove_copied dst src n m :
  0 ≤ dst → 0 ≤ src → dst + n < 2 ^ 32 → src + n < 2 ^ 32 → 0 ≤ n → dst ≤ src ∨ src + n ≤ dst →
  copied dst src (Z.to_nat n) m (ulib_memmove dst src n m).
Proof. intros. apply copy_up_copied; lia. Qed.
Lemma ulib_memmove_overlap :
  ulib_memmove 11 10 3 (λ a, a) 12 = 10 ∧ ulib_memmove 11 10 3 (λ a, a) 13 = 10.
Proof. by vm_compute. Qed.

(** ** memset *)
Lemma stosb_filled d c n m :
  0 ≤ d → d + Z.of_nat n < 2 ^ 32 → filled d c n m (stosb d c n m).
Proof.
  revert d m. induction n as [|n IH]; intros d m Hd Hdn a.
  - simpl. by rewrite decide_False by lia.
  - cbn [stosb]. rewrite !u32_small by lia. rewrite IH by lia. unfold store.
    destruct (decide (d + 1 ≤ a < d + 1 + Z.of_nat n)).
    + by rewrite decide_True by lia.
    + destruct (Z.eqb_spec a d); [by rewrite decide_True by lia|by rewrite decide_False by lia].
Qed.
(** The word with [c] in each byte. *)
Definition rep4 (c : Z) : Z := c * (2 ^ 24 + 2 ^ 16 + 2 ^ 8 + 1).
Lemma rep4_bits c :
  0 ≤ c < 256 →
  Z.lor (Z.lor (Z.lor (Z.shiftl c 24) (Z.shiftl c 16)) (Z.shiftl c 8)) c = rep4 c.
Proof.
  intros Hc.
  assert (Forall (λ c, Z.lor (Z.lor (Z.lor (Z.shiftl c 24) (Z.shiftl c 16)) (Z.shiftl c 8)) c = rep4 c)
            (Z.of_nat <$> seq 0 256)) as Hall.
  { vm_compute. repeat constructor. }
  rewrite Forall_forall in Hall. apply Hall. apply list_elem_of_fmap. exists (Z.to_nat c).
  rewrite elem_of_seq. lia.
Qed.
Lemma rep4_bytes c : 0 ≤ c < 256 →
  u8 (rep4 c) = c ∧ u8 (rep4 c / 2 ^ 8) = c ∧ u8 (rep4 c / 2 ^ 16) = c ∧ u8 (rep4 c / 2 ^ 24) = c.
Proof. intros Hc. unfold u8, rep4. repeat split; Z.div_mod_to_equations; lia. Qed.
Lemma store_word_filled d c m :
  0 ≤ d → d + 4 < 2 ^ 32 → 0 ≤ c < 256 → filled d c 4 m (store_word d (rep4 c) m).
Proof.
  intros Hd Hdn Hc a. unfold store_word, store. rewrite !u32_small by lia.
  destruct (rep4_bytes c Hc) as (-> & -> & -> & ->).
  assert (u8 c = c) as -> by (apply Z.mod_small; lia). simpl (Z.of_nat 4).
  destruct (Z.eqb_spec a (d + 3)); [by rewrite decide_True by lia|].
  destruct (Z.eqb_spec a (d + 2)); [by rewrite decide_True by lia|].
  destruct (Z.eqb_spec a (d + 1)); [by rewrite decide_True by lia|].
  destruct (Z.eqb_spec a d); [by rewrite decide_True by lia|by rewrite decide_False by lia].
Qed.
Lemma stosl_filled d c k m :
  0 ≤ d → d + 4 * Z.of_nat k < 2 ^ 32 → 0 ≤ c < 256 → filled d c (4 * k) m (stosl d (rep4 c) k m).
Proof.
  intros Hd Hdn Hc. revert d m Hd Hdn. induction k as [|k IH]; intros d m Hd Hdn a.
  - simpl. by rewrite decide_False by lia.
  - cbn [stosl]. rewrite u32_small by lia. rewrite IH by lia. rewrite store_word_filled by lia.
    repeat case_decide; done || lia.
Qed.

Lemma memset_filled dst c n m :
  0 ≤ dst → dst + Z.of_nat n < 2 ^ 32 → filled dst c n m (memset dst c n m).
Proof.
  intros Hd Hdn. unfold memset. destruct (_ && _) eqn:Hcase; [|by apply stosb_filled].
  apply andb_true_iff in Hcase as [_ Hn%Z.eqb_eq].
  assert (Z.land c 0xFF = u8 c) as Hland by (apply (Z.land_ones c 8); lia). rewrite Hland.
  assert (0 ≤ u8 c < 256) as Hc by (apply Z.mod_pos_bound; lia).
  rewrite rep4_bits by done. assert (n = 4 * (n / 4))%nat as Hn4.
  { pose proof (Nat.div_mod n 4 ltac:(lia)) as Hdm.
    assert (n mod 4 = 0)%nat as H0; [|lia]. apply Nat2Z.inj. rewrite Nat2Z.inj_mod. exact Hn. }
  intros a. rewrite (stosl_filled dst (u8 c) (n / 4) m) by lia. rewrite <- Hn4.
  assert (u8 (u8 c) = u8 c) as -> by (apply Z.mod_small; lia). done.
Qed.

(** memset() of the kernel fills with the low byte of its argument whether
    it stores bytes or, for an aligned area, words; so it does the same as the
    byte loop of the user library. *)
Theorem memset_correct dst c n m :
  0 ≤ dst → dst + Z.of_nat n < 2 ^ 32 →
  filled dst c n m (memset dst c n m) ∧ ∀ a, memset dst c n m a = ulib_memset dst c n m a.
Proof.
  intros Hd Hdn. pose proof (memset_filled dst c n m Hd Hdn) as Hf.
  split; [done|]. intros a. rewrite (Hf a). symmetry. by apply stosb_filled.
Qed.
Lemma memset_correct_witness : filled 4096 1 8 (λ a, 0) (memset 4096 1 8 (λ a, 0)).
Proof. apply (memset_correct 4096 1 8 (λ a, 0)); lia. Defined.
