(* ===== verification/Kalloc.v ===== *)
(** * The page allocator (kalloc.c)

    Free pages form a list whose links are stored in the pages themselves.  The
    state is [kmem] and memory; [kend] is the linker's symbol [end], the first
    address after the kernel.  [km_locked] says that the running CPU is inside
    kmem.lock. *)

From S2P Require Import Prelude Mem.

Definition KPGSIZE : Z := 4096.
Definition VBASE : Z := 0x80000000.
Definition PHYSTOP : Z := 0xE000000.
(** The V2P and PGROUNDUP macros, on 32-bit addresses. *)
Definition V2P (a : Z) : Z := u32 (a - VBASE).
Definition PGROUNDUP (a : Z) : Z := Z.land (u32 (a + KPGSIZE - 1)) (Z.lnot (KPGSIZE - 1)).

Record kmem := mkKmem {
  km_locked : bool;
  km_use_lock : Z;
  km_freelist : Z;
  km_mem : mem }.
Abbreviation KM := (M kmem).

Section code.
Context (kend : Z).
Definition acquire_kmem : KM unit :=
  k ← get;
  if km_locked k then panic "acquire"
  else modify (λ k, mkKmem true (km_use_lock k) (km_freelist k) (km_mem k)).
Definition release_kmem : KM unit :=
  k ← get;
  if km_locked k then modify (λ k, mkKmem false (km_use_lock k) (km_freelist k) (km_mem k))
  else panic "release".
(** [r->next], a 32-bit word at the start of the page. *)
Definition load_word (a : Z) (m : mem) : Z :=
  m a + 256 * (m (u32 (a + 1)) + 256 * (m (u32 (a + 2)) + 256 * m (u32 (a + 3)))).

Definition kfree (v : Z) : KM unit :=
  if negb (v mod KPGSIZE =? 0) || (v <? kend) || (PHYSTOP <=? V2P v) then panic "kfree" else
  modify (λ k, mkKmem (km_locked k) (km_use_lock k) (km_freelist k) (memset v 1 (Z.to_nat KPGSIZE) (km_mem k))) ;;
  k ← get;
  when (negb (km_use_lock k =? 0)) acquire_kmem ;;
  modify (λ k, mkKmem (km_locked k) (km_use_lock k) (km_freelist k) (store_word v (km_freelist k) (km_mem k))) ;;
  modify (λ k, mkKmem (km_locked k) (km_use_lock k) v (km_mem k)) ;;
  k ← get;
  when (negb (km_use_lock k =? 0)) release_kmem.

Definition kalloc : KM Z :=
  k ← get;
  when (negb (km_use_lock k =? 0)) acquire_kmem ;;
  k ← get;
  let r := km_freelist k in
  when (negb (r =? 0)) (modify (λ k, mkKmem (km_locked k) (km_use_lock k) (load_word r (km_mem k)) (km_mem k))) ;;
  when (negb (km_use_lock k =? 0)) release_kmem ;;
  mret r.

(** freerange's loop; [n] bounds the number of pages. *)
Fixpoint freerange_loop (n : nat) (p vend : Z) : KM unit :=
  if u32 (p + KPGSIZE) <=? vend then
    match n with
    | O => spin
    | S n' => kfree p ;; freerange_loop n' (u32 (p + KPGSIZE)) vend
    end
  else mret tt.
Definition freerange (vstart vend : Z) : KM unit :=
  freerange_loop (Z.to_nat (2 ^ 32 / KPGSIZE)) (PGROUNDUP vstart) vend.
Definition kinit1 (vstart vend : Z) : KM unit :=
  modify (λ k, mkKmem false 0 (km_freelist k) (km_mem k)) ;;
  freerange vstart vend.
Definition kinit2 (vstart vend : Z) : KM unit :=
  freerange vstart vend ;;
  modify (λ k, mkKmem (km_locked k) 1 (km_freelist k) (km_mem k)).
End code.

(** ** The free list *)
Section list.
Context (kend : Z).
(** What kfree accepts: a page of physical memory behind the kernel. *)
Definition page_ok (a : Z) : Prop := a mod KPGSIZE = 0 ∧ kend ≤ a ∧ VBASE ≤ a ∧ a < VBASE + PHYSTOP.
Fixpoint free_list (m : mem) (p : Z) (l : list Z) : Prop :=
  match l with
  | [] => p = 0
  | a :: l' => p = a ∧ page_ok a ∧ free_list m (load_word a m) l'
  end.
Definition in_page (p a : Z) : Prop := p ≤ a < p + KPGSIZE.
Record kinv (k : kmem) (l : list Z) : Prop := {
  ki_free : km_locked k = false;
  ki_list : free_list (km_mem k) (km_freelist k) l;
  ki_nodup : NoDup l }.

Lemma page_bounds a : page_ok a → 0 < a ∧ a + KPGSIZE ≤ VBASE + PHYSTOP ∧ VBASE + PHYSTOP < 2 ^ 32.
Proof.
  unfold page_ok, KPGSIZE, VBASE, PHYSTOP. intros (Hm & _ & Hb & Ht).
  apply Z.mod_divide in Hm as [q ->]; [|done]. lia.
Qed.
Lemma page_check v :
  0 ≤ v < 2 ^ 32 →
  negb (v mod KPGSIZE =? 0) || (v <? kend) || (PHYSTOP <=? V2P v) = false ↔ page_ok v.
Proof.
  intros Hv. rewrite !orb_false_iff, negb_false_iff, Z.eqb_eq, Z.ltb_ge, Z.leb_gt. unfold page_ok, V2P, u32.
  destruct (decide (VBASE ≤ v)) as [Hb|Hb].
  - rewrite (Z.mod_small (v - VBASE)) by (unfold VBASE in *; lia). unfold VBASE, PHYSTOP in *. lia.
  - rewrite <- (Z_mod_plus_full (v - VBASE) 1), (Z.mod_small (_ + _)) by (unfold VBASE in *; lia). unfold VBASE, PHYSTOP in *. lia.
Qed.
Lemma pages_disjoint a b x : page_ok a → page_ok b → in_page a x → in_page b x → a = b.
Proof.
  unfold page_ok, in_page, KPGSIZE. intros (Ha & _) (Hb & _) H1 H2.
  apply Z.mod_divide in Ha as [p ->]; [|done]. apply Z.mod_divide in Hb as [q ->]; [|done]. lia.
Qed.

Lemma load_word_same m m' a :
  page_ok a → (∀ x, in_page a x → m' x = m x) → load_word a m' = load_word a m.
Proof.
  intros Ha Hm. pose proof (page_bounds a Ha). unfold load_word, in_page, KPGSIZE in *.
  rewrite !u32_small by lia. rewrite !Hm by lia. done.
Qed.
Lemma free_list_same m m' p l :
  free_list m p l → (∀ a x, a ∈ l → in_page a x → m' x = m x) → free_list m' p l.
Proof.
  revert p. induction l as [|a l IH]; intros p Hl Hm; simpl in *; [done|].
  destruct Hl as (-> & Ha & Hl). split_and!; [done..|].
  rewrite (load_word_same m) by (done || (intros x Hx; apply (Hm a); [apply elem_of_cons; by left|done])).
  apply IH; [done|]. intros b x Hb. apply Hm. apply elem_of_cons. by right.
Qed.
Lemma free_list_pages m p l a : free_list m p l → a ∈ l → page_ok a.
Proof.
  revert p. induction l as [|b l IH]; intros p Hl Ha; simpl in *; [by apply elem_of_nil in Ha|].
  destruct Hl as (_ & ? & Hl). apply elem_of_cons in Ha as [->|Ha]; [done|by eapply IH].
Qed.
Lemma load_store_word a w m : 0 ≤ a → a + 4 < 2 ^ 32 → 0 ≤ w < 2 ^ 32 → load_word a (store_word a w m) = w.
Proof.
  intros Ha Hb Hw. unfold load_word, store_word, store. rewrite !u32_small by lia.
  rewrite !Z.eqb_refl.
  repeat match goal with |- context[?x =? ?y] => rewrite (proj2 (Z.eqb_neq x y)) by lia end.
  unfold u8. replace (2 ^ 24) with (256 * 256 * 256) by done. replace (2 ^ 16) with (256 * 256) by done.
  change (2 ^ 8) with 256. rewrite <- !Z.div_div by lia.
  pose proof (Z.div_mod w 256). pose proof (Z.div_mod (w / 256) 256). pose proof (Z.div_mod (w / 256 / 256) 256).
  assert (0 ≤ w / 256 / 256 / 256 < 256) as Hq.
  { rewrite !Z.div_div by lia. split; [apply Z.div_pos; lia|]. apply Z.div_lt_upper_bound; lia. }
  rewrite (Z.mod_small (w / 256 / 256 / 256)) by lia. lia.
Qed.
Lemma store_word_other a w m x : 0 ≤ a → a + 4 < 2 ^ 32 → x < a ∨ a + 4 ≤ x → store_word a w m x = m x.
Proof.
  intros Ha Hb Hx. unfold store_word, store. rewrite !u32_small by lia.
  repeat match goal with |- context[?p =? ?y] => rewrite (proj2 (Z.eqb_neq p y)) by lia end. done.
Qed.
Lemma freelist_range k l : kinv k l → 0 ≤ km_freelist k < 2 ^ 32.
Proof.
  intros [_ Hl _]. destruct l as [|a l]; simpl in Hl; [rewrite Hl; lia|].
  destruct Hl as (-> & Ha & _). pose proof (page_bounds a Ha). unfold KPGSIZE in *. lia.
Qed.

(** *** The operations *)
Lemma kfree_spec k l v :
  kinv k l → page_ok v → v ∉ l →
  ∃ k', kfree kend v k = Ok tt k' ∧ kinv k' (v :: l) ∧ km_use_lock k' = km_use_lock k ∧
    (∀ a, ¬ in_page v a → km_mem k' a = km_mem k a) ∧ (∀ a, v + 4 ≤ a < v + KPGSIZE → km_mem k' a = 1).
Proof.
  intros K Hv Hn. pose proof (page_bounds v Hv) as Hb. pose proof (freelist_range k l K) as Hfl.
  set (m1 := memset v 1 (Z.to_nat KPGSIZE) (km_mem k)).
  assert (filled v 1 (Z.to_nat KPGSIZE) (km_mem k) m1) as Hm1.
  { apply memset_filled; unfold KPGSIZE in *; lia. }
  set (m2 := store_word v (km_freelist k) m1).
  assert (∀ a, ¬ in_page v a → m2 a = km_mem k a) as Hout.
  { intros a Ha. unfold m2, in_page in *. rewrite store_word_other by (unfold KPGSIZE in *; lia).
    rewrite (Hm1 a), decide_False; [done|]. rewrite Z2Nat.id by (unfold KPGSIZE; lia). done. }
  assert (∀ a, v + 4 ≤ a < v + KPGSIZE → m2 a = 1) as Hin.
  { intros a Ha. unfold m2. rewrite store_word_other by (unfold KPGSIZE in *; lia).
    rewrite (Hm1 a), decide_True; [done|]. rewrite Z2Nat.id by (unfold KPGSIZE; lia). lia. }
  exists (mkKmem false (km_use_lock k) v m2). split_and!; [|constructor; simpl|done|done|done].
  - unfold kfree. rewrite (proj2 (page_check v ltac:(unfold KPGSIZE in *; lia)) Hv).
    unfold modify, get, when, acquire_kmem, release_kmem, mbind, M_bind, mret, M_ret. simpl. fold m1 m2.
    rewrite (ki_free _ _ K). destruct (km_use_lock k =? 0) eqn:E; simpl; rewrite ?E; simpl; done.
  - done.
  - split_and!; [done..|]. unfold m2. rewrite load_store_word by (unfold KPGSIZE in *; lia).
    eapply free_list_same; [apply (ki_list _ _ K)|]. intros a x Ha Hx. apply Hout. intros Hvx.
    assert (a = v) as ->; [|done]. eapply pages_disjoint; [|done..]. eapply free_list_pages; [apply K|done].
  - apply NoDup_cons. split; [done|apply K].
Qed.
Lemma kfree_rejects k v : 0 ≤ v < 2 ^ 32 → ¬ page_ok v → kfree kend v k = Panic "kfree".
Proof.
  intros Hv Hn. unfold kfree. destruct (_ || _) eqn:E; [done|]. by apply page_check in E.
Qed.
Lemma kalloc_spec k l :
  kinv k l →
  ∃ k', kalloc k = Ok (match l with [] => 0 | a :: _ => a end) k' ∧ kinv k' (tail l) ∧ km_mem k' = km_mem k ∧
        km_use_lock k' = km_use_lock k.
Proof.
  intros K. destruct K as [Hl Hf Hn].
  exists (mkKmem false (km_use_lock k) (match l with [] => 0 | a :: _ => load_word a (km_mem k) end) (km_mem k)).
  split_and!; [|constructor; simpl|done|done].
  - destruct k as [lk ul fl m]. simpl in *. subst lk.
    unfold kalloc, modify, get, when, acquire_kmem, release_kmem, mbind, M_bind, mret, M_ret. simpl.
    destruct (ul =? 0) eqn:E; simpl; (destruct l as [|a l]; simpl in Hf; [subst fl|destruct Hf as (-> & Ha & _)]); simpl;
      rewrite ?E; simpl; try done;
      pose proof (page_bounds a Ha); rewrite (proj2 (Z.eqb_neq a 0)) by lia; simpl; rewrite ?E; done.
  - done.
  - destruct l as [|a l]; simpl in *; [done|]. apply Hf.
  - destruct l as [|a l]; simpl in *; [done|]. by apply NoDup_cons in Hn as [? ?].
Qed.

(** freerange: the pages it frees, in order. *)
Lemma freerange_loop_spec n p vend k l m :
  kinv k l → (∀ i, (i < m)%nat → page_ok (p + Z.of_nat i * KPGSIZE) ∧ (p + Z.of_nat i * KPGSIZE) ∉ l) →
  0 ≤ p → p + Z.of_nat m * KPGSIZE ≤ vend → vend < p + Z.of_nat m * KPGSIZE + KPGSIZE → vend < 2 ^ 32 - KPGSIZE → (m ≤ n)%nat →
  ∃ k', freerange_loop kend n p vend k = Ok tt k' ∧ km_use_lock k' = km_use_lock k ∧
        kinv k' (reverse ((λ i, p + Z.of_nat i * KPGSIZE) <$> seq 0 m) ++ l).
Proof.
  revert p k l m. induction n as [|n IH]; intros p k l m K Hp H0 H1 H2 H3 Hm.
  - assert (m = 0)%nat as -> by lia. exists k. simpl. rewrite u32_small by (unfold KPGSIZE in *; lia).
    rewrite (proj2 (Z.leb_gt _ _)) by lia. done.
  - destruct m as [|m].
    + exists k. simpl. rewrite u32_small by (unfold KPGSIZE in *; lia). rewrite (proj2 (Z.leb_gt _ _)) by lia. done.
    + destruct (Hp 0%nat) as [Hpok Hpn]; [lia|]. rewrite Z.mul_0_l, Z.add_0_r in Hpok, Hpn.
      destruct (kfree_spec k l p K Hpok Hpn) as (k1 & Hk1 & K1 & Hu1 & _).
      destruct (IH (p + KPGSIZE) k1 (p :: l) m K1) as (k2 & Hk2 & Hu2 & K2).
      * intros i Hi. destruct (Hp (S i)) as [Hok Hni]; [lia|].
        replace (p + KPGSIZE + Z.of_nat i * KPGSIZE) with (p + Z.of_nat (S i) * KPGSIZE) by lia. split; [done|].
        apply not_elem_of_cons. split; [unfold KPGSIZE; lia|done].
      * unfold KPGSIZE in *; lia.
      * lia.
      * lia.
      * done.
      * lia.
      * exists k2. cbn [freerange_loop]. rewrite u32_small by (unfold KPGSIZE in *; lia).
        rewrite (proj2 (Z.leb_le _ _)) by (unfold KPGSIZE in *; lia). rewrite (bind_run _ _ _ _ _ Hk1). split_and!; [exact Hk2|congruence|].
        replace (reverse _ ++ l) with (reverse ((λ i, p + KPGSIZE + Z.of_nat i * KPGSIZE) <$> seq 0 m) ++ p :: l); [exact K2|].
        simpl. rewrite reverse_cons, <- app_assoc. simpl. rewrite <- fmap_S_seq, <- list_fmap_compose, Z.add_0_r. f_equal.
        f_equal. apply list_fmap_ext. intros i j _. simpl. lia.
Qed.

(** ** Clients

    The allocator with the pages it has handed out.  The owner of a page may
    write anything into it; a page is freed by its owner. *)
Inductive kop : kmem * list Z → kmem * list Z → Prop :=
| kop_alloc k A p k' : kalloc k = Ok p k' → p ≠ 0 → kop (k, A) (k', p :: A)
| kop_fail k A k' : kalloc k = Ok 0 k' → kop (k, A) (k', A)
| kop_free k A1 p A2 k' : kfree kend p k = Ok tt k' → kop (k, A1 ++ p :: A2) (k', A1 ++ A2)
| kop_write k A p a x : p ∈ A → in_page p a →
    kop (k, A) (mkKmem (km_locked k) (km_use_lock k) (km_freelist k) (store a x (km_mem k)), A).
Definition balanced (pool : list Z) (s : kmem * list Z) : Prop :=
  ∃ l, kinv s.1 l ∧ s.2 ++ l ≡ₚ pool ∧ NoDup (s.2 ++ l) ∧ Forall page_ok s.2.
Lemma balanced_step pool s s' : balanced pool s → kop s s' → balanced pool s'.
Proof.
  intros (l & K & Hp & Hn & Hok) Hs. destruct Hs as [k A p k' Hk Hp0|k A k' Hk|k A1 p A2 k' Hk|k A p a x HpA Ha]; simpl in *.
  - destruct (kalloc_spec k l K) as (k2 & Hk2 & K2 & _). rewrite Hk in Hk2. injection Hk2 as -> ->.
    destruct l as [|b l]; [done|]. exists l. simpl in *. split_and!; [done|..].
    + by rewrite Permutation_middle.
    + by rewrite Permutation_middle.
    + constructor; [|done]. eapply free_list_pages; [apply K|]. apply elem_of_cons. by left.
  - destruct (kalloc_spec k l K) as (k2 & Hk2 & K2 & _). rewrite Hk in Hk2. injection Hk2 as Hz ->.
    destruct l as [|b l]; [by exists []|]. exfalso.
    assert (page_ok b) as Hb by (eapply free_list_pages; [apply K|]; apply elem_of_cons; by left).
    pose proof (page_bounds b Hb). lia.
  - apply Forall_app in Hok as [Hok1 Hok2]. apply Forall_cons in Hok2 as [Hpok Hok2].
    rewrite <- app_assoc in Hn. simpl in Hn. rewrite <- Permutation_middle in Hn. apply NoDup_cons in Hn as [Hpn Hn].
    destruct (kfree_spec k l p K Hpok) as (k2 & Hk2 & K2 & _); [set_solver|]. rewrite Hk in Hk2. injection Hk2 as ->.
    exists (p :: l). split_and!; [done|..].
    + simpl. rewrite <- Hp, <- !app_assoc. simpl. by rewrite <- (Permutation_middle A2 l p).
    + simpl. rewrite <- app_assoc, <- (Permutation_middle A2 l p), <- (Permutation_middle A1 (A2 ++ l) p). by apply NoDup_cons.
    + by apply Forall_app.
  - exists l. split_and!; [|done..]. destruct K as [K1 K2 K3]. constructor; simpl; [done| |done].
    eapply free_list_same; [done|]. intros b y Hb Hy. unfold store. destruct (Z.eqb_spec y a) as [->|]; [|done].
    exfalso. apply NoDup_app in Hn as (_ & Hd & _). apply (Hd p HpA).
    assert (p = b) as ->; [|done]. eapply pages_disjoint; [|by eapply free_list_pages|done..].
    by eapply (Forall_forall page_ok).
Qed.
Lemma balanced_reachable pool k s : kinv k pool → rtc kop (k, []) s → balanced pool s.
Proof.
  intros K Hr. assert (balanced pool (k, [])) as Hb.
  { exists pool. simpl. split_and!; [done..|apply K|constructor]. }
  revert Hb. induction Hr as [|s1 s2 s3 Hs _ IH]; [done|]. intros Hb. apply IH. by eapply balanced_step.
Qed.

(** C11: however calls of kalloc and kfree and writes to allocated pages follow
    each other, the allocator neither loses a page nor hands out a page that is
    in use: allocated and free pages together are the pages it was given, kalloc
    never panics, returns a page that nobody has, and returns 0 only when every
    page is allocated. *)
Theorem kalloc_exclusive pool k s A :
  kinv k pool → rtc kop (k, []) (s, A) →
  ∃ l, A ++ l ≡ₚ pool ∧ NoDup (A ++ l) ∧
    ∃ p s', kalloc s = Ok p s' ∧ (p = 0 ∧ A ≡ₚ pool ∨ p ∈ pool ∧ p ∉ A).
Proof.
  intros K Hr. destruct (balanced_reachable pool k (s, A) K Hr) as (l & K' & Hp & Hn & _). simpl in *.
  exists l. split_and!; [done..|]. destruct (kalloc_spec s l K') as (s' & Hs & _). eexists _, s'. split; [exact Hs|].
  destruct l as [|a l]; [left; by rewrite app_nil_r in Hp|right]. split; [rewrite <- Hp; set_solver|].
  apply NoDup_app in Hn as (_ & Hd & _). intros Ha. apply (Hd a Ha). apply elem_of_cons. by left.
Qed.
End list.

(** The boot allocator with two pages. *)
Definition demo_kend : Z := 0x80100000.
Definition demo_kmem : kmem := mkKmem false 0 0 (λ _, 0).
Lemma kalloc_exclusive_witness :
  ∃ k s, freerange demo_kend 0x80100001 0x80103000 demo_kmem = Ok tt k ∧
    rtc (kop demo_kend) (k, []) (s, [0x80102000]) ∧
    ∃ p s', kalloc s = Ok p s' ∧ (p = 0 ∧ [0x80102000] ≡ₚ [0x80102000; 0x80101000] ∨ p ∈ [0x80102000; 0x80101000] ∧ p ∉ [0x80102000]).
Proof.
  destruct (freerange_loop_spec demo_kend (Z.to_nat (2 ^ 32 / KPGSIZE)) 0x80101000 0x80103000 demo_kmem [] 2)
    as (k & Hk & _ & K).
  - constructor; [reflexivity|reflexivity|constructor].
  - intros i Hi. split; [|by intros ?%elem_of_nil]. unfold page_ok, KPGSIZE, demo_kend, VBASE, PHYSTOP.
    destruct i as [|[|i]]; [vm_compute; repeat split; discriminate..|lia].
  - lia.
  - unfold KPGSIZE. lia.
  - unfold KPGSIZE. lia.
  - unfold KPGSIZE. lia.
  - apply Nat2Z.inj_le. rewrite Z2Nat.id; vm_compute; discriminate.
  - change (kinv demo_kend k [0x80102000; 0x80101000]) in K.
    destruct (kalloc_spec demo_kend k _ K) as (s & Hs & Ks & _).
    assert (rtc (kop demo_kend) (k, []) (s, [0x80102000])) as Hr.
    { apply rtc_once, kop_alloc; [exact Hs|discriminate]. }
    exists k, s. split; [exact Hk|]. split; [exact Hr|].
    destruct (kalloc_exclusive demo_kend _ k s [0x80102000] K Hr) as (_ & _ & _ & H). exact H.
Defined.
