(* ===== verification/Vm.v ===== *)
(** * Page tables (vm.c): data and operations

    A page directory is a page of 1024 words, each of which may lead to a page
    table, a page of 1024 entries.  All of them live in the memory of the page
    allocator; an entry holds the physical address of a page and, in its low twelve
    bits, flags.  [kend] and [kdata] are the linker's symbols [end] and [data].
    The messages that allocuvm prints before it fails are left out; the functions that load
    processor registers (seginit, switchkvm, switchuvm, kvmalloc) are in Segment.v. *)

From S2P Require Import Prelude Mem Kalloc.

Definition KERNBASE : Z := 0x80000000.
Definition EXTMEM : Z := 0x100000.
Definition KERNLINK : Z := KERNBASE + EXTMEM.
Definition DEVSPACE : Z := 0xFE000000.
Definition PTE_P : Z := 1.
Definition PTE_W : Z := 2.
Definition PTE_U : Z := 4.
Definition NPDENTRIES : nat := 1024.
(** Pages of the 32-bit address space, a bound for loops over pages. *)
Definition NPAGES : nat := Z.to_nat (2 ^ 32 / KPGSIZE).

Definition PDX (va : Z) : Z := Z.land (Z.shiftr va 22) 0x3FF.
Definition PTX (va : Z) : Z := Z.land (Z.shiftr va 12) 0x3FF.
Definition PGADDR (d t o : Z) : Z := u32 (Z.lor (Z.lor (Z.shiftl d 22) (Z.shiftl t 12)) o).
Definition PGROUNDDOWN (a : Z) : Z := Z.land a (Z.lnot (KPGSIZE - 1)).
Definition PTE_ADDR (pte : Z) : Z := Z.land pte (Z.lnot 0xFFF).
Definition PTE_FLAGS (pte : Z) : Z := Z.land pte 0xFFF.
Definition P2V (a : Z) : Z := u32 (a + KERNBASE).
Definition present (e : Z) : bool := negb (Z.land e PTE_P =? 0).

Section code.
Context (kend kdata : Z).
Definition set_mem (g : mem → mem) : KM unit :=
  modify (λ k, mkKmem (km_locked k) (km_use_lock k) (km_freelist k) (g (km_mem k))).
Definition read_word (a : Z) : KM Z := gets (λ k, load_word a (km_mem k)).
Definition write_word (a w : Z) : KM unit := set_mem (store_word a w).

(** The address of the entry for [va], 0 if there is none. *)
Definition walkpgdir (pgdir va : Z) (alloc : bool) : KM Z :=
  let pde := u32 (pgdir + 4 * PDX va) in
  e ← read_word pde;
  if present e then mret (u32 (P2V (PTE_ADDR e) + 4 * PTX va))
  else if negb alloc then mret 0
  else
    pgtab ← kalloc;
    if pgtab =? 0 then mret 0 else
    set_mem (memset pgtab 0 (Z.to_nat KPGSIZE)) ;;
    write_word pde (Z.lor (Z.lor (Z.lor (V2P pgtab) PTE_P) PTE_W) PTE_U) ;;
    mret (u32 (pgtab + 4 * PTX va)).

Fixpoint mappages_loop (fuel : nat) (pgdir a last pa perm : Z) : KM Z :=
  match fuel with
  | O => spin
  | S fuel' =>
      pte ← walkpgdir pgdir a true;
      if pte =? 0 then mret (-1) else
      e ← read_word pte;
      if present e then panic "remap" else
      write_word pte (Z.lor (Z.lor pa perm) PTE_P) ;;
      if a =? last then mret 0
      else mappages_loop fuel' pgdir (u32 (a + KPGSIZE)) last (u32 (pa + KPGSIZE)) perm
  end.
Definition mappages (pgdir va size pa perm : Z) : KM Z :=
  mappages_loop NPAGES pgdir (PGROUNDDOWN va) (PGROUNDDOWN (u32 (va + size - 1))) pa perm.

(** [oldsz] is where the loop stops, [a] where it is. *)
Fixpoint deallocuvm_loop (fuel : nat) (pgdir a oldsz : Z) : KM unit :=
  match fuel with
  | O => spin
  | S fuel' =>
      if a <? oldsz then
        pte ← walkpgdir pgdir a false;
        if pte =? 0 then deallocuvm_loop fuel' pgdir (u32 (u32 (PGADDR (PDX a + 1) 0 0 - KPGSIZE) + KPGSIZE)) oldsz
        else
          e ← read_word pte;
          (if present e then
             let pa := PTE_ADDR e in
             if pa =? 0 then panic "kfree" else
             kfree kend (P2V pa) ;;
             write_word pte 0
           else mret tt) ;;
          deallocuvm_loop fuel' pgdir (u32 (a + KPGSIZE)) oldsz
      else mret tt
  end.
Definition deallocuvm (pgdir oldsz newsz : Z) : KM Z :=
  if oldsz <=? newsz then mret oldsz else
  deallocuvm_loop (S NPAGES) pgdir (PGROUNDUP newsz) oldsz ;;
  mret newsz.

Definition freevm (pgdir : Z) : KM unit :=
  if pgdir =? 0 then panic "freevm: no pgdir" else
  deallocuvm pgdir KERNBASE 0 ;;
  for_each (seq 0 NPDENTRIES) (λ i,
    e ← read_word (u32 (pgdir + 4 * Z.of_nat i));
    when (present e) (kfree kend (P2V (PTE_ADDR e)))) ;;
  kfree kend pgdir.

(** [struct kmap]: virtual address, physical start and end, permissions *)
Definition kmap : list (Z * Z * Z * Z) :=
  [ (KERNBASE, 0, EXTMEM, PTE_W);
    (KERNLINK, V2P KERNLINK, V2P kdata, 0);
    (kdata, V2P kdata, PHYSTOP, PTE_W);
    (DEVSPACE, DEVSPACE, 0, PTE_W) ].
Fixpoint map_kernel (pgdir : Z) (l : list (Z * Z * Z * Z)) : KM bool :=
  match l with
  | [] => mret true
  | (virt, phys_start, phys_end, perm) :: l' =>
      r ← mappages pgdir virt (u32 (phys_end - phys_start)) phys_start perm;
      if r <? 0 then mret false else map_kernel pgdir l'
  end.
Definition setupkvm : KM Z :=
  pgdir ← kalloc;
  if pgdir =? 0 then mret 0 else
  set_mem (memset pgdir 0 (Z.to_nat KPGSIZE)) ;;
  if DEVSPACE <? P2V PHYSTOP then panic "PHYSTOP too high" else
  ok ← map_kernel pgdir kmap;
  if (ok : bool) then mret pgdir else freevm pgdir ;; mret 0.

Definition inituvm (pgdir init sz : Z) : KM unit :=
  if KPGSIZE <=? sz then panic "inituvm: more than a page" else
  mem ← kalloc;
  set_mem (memset mem 0 (Z.to_nat KPGSIZE)) ;;
  mappages pgdir 0 KPGSIZE (V2P mem) (Z.lor PTE_W PTE_U) ;;
  set_mem (memmove mem init (Z.to_nat sz)).

Fixpoint allocuvm_loop (fuel : nat) (pgdir a oldsz newsz : Z) : KM Z :=
  match fuel with
  | O => spin
  | S fuel' =>
      if a <? newsz then
        mem ← kalloc;
        if mem =? 0 then deallocuvm pgdir newsz oldsz ;; mret 0 else
        set_mem (memset mem 0 (Z.to_nat KPGSIZE)) ;;
        r ← mappages pgdir a KPGSIZE (V2P mem) (Z.lor PTE_W PTE_U);
        if r <? 0 then
          deallocuvm pgdir newsz oldsz ;;
          kfree kend mem ;;
          mret 0
        else allocuvm_loop fuel' pgdir (u32 (a + KPGSIZE)) oldsz newsz
      else mret newsz
  end.
Definition allocuvm (pgdir oldsz newsz : Z) : KM Z :=
  if KERNBASE <=? newsz then mret 0 else
  if newsz <? oldsz then mret oldsz else
  allocuvm_loop (S NPAGES) pgdir (PGROUNDUP oldsz) oldsz newsz.

Definition clearpteu (pgdir uva : Z) : KM unit :=
  pte ← walkpgdir pgdir uva false;
  if pte =? 0 then panic "clearpteu" else
  e ← read_word pte;
  write_word pte (Z.land e (u32 (Z.lnot PTE_U))).

(** The loop of copyuvm; [false] is the jump to [bad]. *)
Fixpoint copyuvm_loop (fuel : nat) (pgdir d i sz : Z) : KM bool :=
  match fuel with
  | O => spin
  | S fuel' =>
      if i <? sz then
        pte ← walkpgdir pgdir i false;
        if pte =? 0 then panic "copyuvm: pte should exist" else
        e ← read_word pte;
        if negb (present e) then panic "copyuvm: page not present" else
        let pa := PTE_ADDR e in
        let flags := PTE_FLAGS e in
        mem ← kalloc;
        if mem =? 0 then mret false else
        set_mem (memmove mem (P2V pa) (Z.to_nat KPGSIZE)) ;;
        r ← mappages d i KPGSIZE (V2P mem) flags;
        if r <? 0 then kfree kend mem ;; mret false
        else copyuvm_loop fuel' pgdir d (u32 (i + KPGSIZE)) sz
      else mret true
  end.
Definition copyuvm (pgdir sz : Z) : KM Z :=
  d ← setupkvm;
  if d =? 0 then mret 0 else
  ok ← copyuvm_loop (S NPAGES) pgdir d 0 sz;
  if (ok : bool) then mret d else freevm d ;; mret 0.

(** The entry is read without a test that there is one. *)
Definition uva2ka (pgdir uva : Z) : KM Z :=
  pte ← walkpgdir pgdir uva false;
  if pte =? 0 then undef "uva2ka: pte" else
  e ← read_word pte;
  if negb (present e) then mret 0
  else if Z.land e PTE_U =? 0 then mret 0
  else mret (P2V (PTE_ADDR e)).

Fixpoint copyout_loop (fuel : nat) (pgdir va buf len : Z) : KM Z :=
  match fuel with
  | O => spin
  | S fuel' =>
      if 0 <? len then
        let va0 := PGROUNDDOWN va in
        pa0 ← uva2ka pgdir va0;
        if pa0 =? 0 then mret (-1) else
        let n := Z.min (KPGSIZE - (va - va0)) len in
        set_mem (memmove (u32 (pa0 + (va - va0))) buf (Z.to_nat n)) ;;
        copyout_loop fuel' pgdir (u32 (va0 + KPGSIZE)) (u32 (buf + n)) (len - n)
      else mret 0
  end.
Definition copyout (pgdir va p len : Z) : KM Z := copyout_loop (S (Z.to_nat len)) pgdir va p len.
End code.

(** loaduvm reads the file through readi, here [rd offset n]: its result and the
    bytes it puts at its destination, in a state that contains memory. *)
Section load.
Context {T : Type} (K : lens T kmem) (rd : Z → Z → M T (Z * list Z)).
Definition store_bytes (a : Z) (l : list Z) (m : mem) : mem :=
  λ x, default (m x) (if (a <=? x) then l !! Z.to_nat (x - a) else None).
Fixpoint loaduvm_loop (fuel : nat) (pgdir addr offset i sz : Z) : M T Z :=
  match fuel with
  | O => spin
  | S fuel' =>
      if i <? sz then
        pte ← zoom K (walkpgdir pgdir (u32 (addr + i)) false);
        if pte =? 0 then panic "loaduvm: address should exist" else
        e ← zoom K (read_word pte);
        let pa := PTE_ADDR e in
        let n := if u32 (sz - i) <? KPGSIZE then u32 (sz - i) else KPGSIZE in
        '(r, l) ← rd (u32 (offset + i)) n;
        zoom K (set_mem (store_bytes (P2V pa) l)) ;;
        if negb (u32 r =? n) then mret (-1)
        else loaduvm_loop fuel' pgdir addr offset (u32 (i + KPGSIZE)) sz
      else mret 0
  end.
Definition loaduvm (pgdir addr offset sz : Z) : M T Z :=
  if negb (addr mod KPGSIZE =? 0) then panic "loaduvm: addr must be page aligned" else
  loaduvm_loop (S NPAGES) pgdir addr offset 0 sz.
End load.
