(* ===== verification/VmRep.v ===== *)
(** * Page tables as functions (vm.c)

    [pt m d T]: in memory [m] the page directory [d] leads to the page tables [T],
    by directory index.  [ent m T n] is the entry for virtual page [n], 0 if its
    table is missing.  [vm k l d T] adds the page allocator with its free list [l],
    apart from the pages of the directory and the tables. *)

From S2P Require Import Prelude Mem Kalloc Vm.

(** ** Bits *)
Lemma land_ones10 x : Z.land x 0x3FF = x mod 1024.
Proof. exact (Z.land_ones x 10 ltac:(lia)). Qed.
Lemma PDX_div va : 0 ≤ va < 2 ^ 32 → PDX va = va / 4096 / 1024.
Proof.
  intros H. unfold PDX. rewrite land_ones10, Z.shiftr_div_pow2 by lia. change (2 ^ 22) with (4096 * 1024).
  rewrite <- Z.div_div by lia. apply Z.mod_small. split; [apply Z.div_pos; [apply Z.div_pos|]; lia|].
  do 2 (apply Z.div_lt_upper_bound; [lia|]). lia.
Qed.
Lemma PTX_div va : PTX va = (va / 4096) mod 1024.
Proof. unfold PTX. rewrite land_ones10, Z.shiftr_div_pow2 by lia. done. Qed.
Lemma round_down x : Z.land x (Z.lnot 0xFFF) = x / 4096 * 4096.
Proof.
  change (Z.lnot 0xFFF) with (Z.lnot (Z.ones 12)). rewrite <- Z.ldiff_land, Z.ldiff_ones_r by lia.
  by rewrite Z.shiftl_mul_pow2, Z.shiftr_div_pow2 by lia.
Qed.
Lemma PGROUNDDOWN_div a : PGROUNDDOWN a = a / 4096 * 4096.
Proof. exact (round_down a). Qed.
Lemma PTE_ADDR_div e : PTE_ADDR e = e / 4096 * 4096.
Proof. exact (round_down e). Qed.
Lemma PTE_FLAGS_mod e : PTE_FLAGS e = e mod 4096.
Proof. exact (Z.land_ones e 12 ltac:(lia)). Qed.
Lemma present_odd e : present e = Z.odd e.
Proof.
  unfold present, PTE_P. change 1 with (Z.ones 1) at 1. rewrite Z.land_ones by lia. change (2 ^ 1) with 2.
  rewrite Zmod_odd. by destruct (Z.odd e).
Qed.
Lemma PGROUNDUP_div a : 0 ≤ a → a + 4095 < 2 ^ 32 → PGROUNDUP a = (a + 4095) / 4096 * 4096.
Proof. intros H1 H2. unfold PGROUNDUP, KPGSIZE. rewrite u32_small by lia. replace (a + 4096 - 1) with (a + 4095) by lia. apply round_down. Qed.
(** An entry from its address and flags. *)
Lemma lor_add pa f : pa mod 4096 = 0 → 0 ≤ f < 4096 → Z.lor pa f = pa + f.
Proof. intros Hp Hf. by apply (lor_low 12). Qed.
Lemma lor1_range f : 0 ≤ f < 4096 → 0 ≤ Z.lor f 1 < 4096.
Proof.
  intros Hf. assert (0 ≤ Z.lor f 1) by (apply Z.lor_nonneg; lia). split; [done|].
  destruct (decide (Z.lor f 1 = 0)); [lia|]. apply (Z.log2_lt_pow2 _ 12); [lia|].
  rewrite Z.log2_lor by lia. apply Z.max_lub_lt; [|done]. destruct (decide (f = 0)) as [->|]; [done|].
  apply Z.log2_lt_pow2; [lia|]. change (2 ^ 12) with 4096. lia.
Qed.
Definition mk_pte (pa flags : Z) : Z := Z.lor (Z.lor pa flags) PTE_P.
Lemma mk_pte_add pa f : pa mod 4096 = 0 → 0 ≤ f < 4096 → mk_pte pa f = pa + Z.lor f 1.
Proof. intros Hp Hf. unfold mk_pte, PTE_P. rewrite <- Z.lor_assoc. apply lor_add; [done|]. by apply lor1_range. Qed.
Lemma mk_pte_spec pa f :
  pa mod 4096 = 0 → 0 ≤ pa < 2 ^ 32 → 0 ≤ f < 4096 →
  0 ≤ mk_pte pa f < 2 ^ 32 ∧ present (mk_pte pa f) = true ∧ PTE_ADDR (mk_pte pa f) = pa ∧ PTE_FLAGS (mk_pte pa f) = Z.lor f 1.
Proof.
  intros Hp Hr Hf. pose proof (lor1_range f Hf) as Hl. rewrite mk_pte_add by done.
  assert (pa = pa / 4096 * 4096) as E by (rewrite (Z.div_mod pa 4096) at 1 by lia; lia).
  split_and!.
  - lia.
  - lia.
  - rewrite <- mk_pte_add by done. rewrite present_odd. unfold mk_pte, PTE_P. rewrite <- Z.bit0_odd, Z.lor_spec. apply orb_true_r.
  - rewrite PTE_ADDR_div, E. rewrite Z.div_add_l by lia. rewrite (Z.div_small (Z.lor f 1)) by lia. lia.
  - rewrite PTE_FLAGS_mod, E. rewrite Z.add_comm, Z.mod_add by lia. by apply Z.mod_small.
Qed.

(** ** Words of a page *)
Section rep.
Context (kend : Z).
Abbreviation page_ok := (page_ok kend).
Implicit Types (m : mem) (d t p : Z) (T : gmap Z Z) (k : kmem) (l : list Z).

Lemma page_V2P p : page_ok p → V2P p mod 4096 = 0 ∧ 0 ≤ V2P p < 2 ^ 32 ∧ P2V (V2P p) = p ∧ 0 < p ∧ p + 4096 < 2 ^ 32.
Proof.
  intros Hp. pose proof (page_bounds kend p Hp) as Hb. destruct Hp as (Hm & _ & Hv & Ht). unfold V2P, P2V, KPGSIZE, KERNBASE, VBASE, PHYSTOP in *.
  rewrite (u32_small (p - 2147483648)) by lia. rewrite u32_small by lia. split_and!; try lia.
  replace (p - 2147483648) with (p + (-524288) * 4096) by lia. by rewrite Z.mod_add.
Qed.
Lemma word_in_page t i x : 0 ≤ i < 1024 → t + 4 * i ≤ x < t + 4 * i + 4 → in_page t x.
Proof. unfold in_page, KPGSIZE. lia. Qed.
Lemma load_word_frame m m' t i :
  page_ok t → 0 ≤ i < 1024 → (∀ x, in_page t x → m' x = m x) → load_word (t + 4 * i) m' = load_word (t + 4 * i) m.
Proof.
  intros Ht Hi Hm. destruct (page_V2P t Ht) as (_ & _ & _ & ? & ?). unfold load_word. rewrite !u32_small by lia.
  rewrite !Hm by (apply (word_in_page t i); lia). done.
Qed.
Lemma load_store_same m t i w : page_ok t → 0 ≤ i < 1024 → 0 ≤ w < 2 ^ 32 → load_word (t + 4 * i) (store_word (t + 4 * i) w m) = w.
Proof. intros Ht Hi Hw. destruct (page_V2P t Ht) as (_ & _ & _ & ? & ?). apply load_store_word; lia. Qed.
Lemma store_word_frame m t i w x : page_ok t → 0 ≤ i < 1024 → x < t + 4 * i ∨ t + 4 * i + 4 ≤ x → store_word (t + 4 * i) w m x = m x.
Proof. intros Ht Hi Hx. destruct (page_V2P t Ht) as (_ & _ & _ & ? & ?). apply store_word_other; lia. Qed.
Lemma load_store_other m t i j w :
  page_ok t → 0 ≤ i < 1024 → 0 ≤ j < 1024 → i ≠ j → load_word (t + 4 * j) (store_word (t + 4 * i) w m) = load_word (t + 4 * j) m.
Proof.
  intros Ht Hi Hj Hne. destruct (page_V2P t Ht) as (_ & _ & _ & ? & ?). unfold load_word. rewrite !u32_small by lia.
  rewrite !store_word_frame by (done || lia). done.
Qed.
Lemma load_zero m m' t i : page_ok t → 0 ≤ i < 1024 → filled t 0 (Z.to_nat KPGSIZE) m m' → load_word (t + 4 * i) m' = 0.
Proof.
  intros Ht Hi Hf. destruct (page_V2P t Ht) as (_ & _ & _ & ? & ?). unfold load_word. rewrite !u32_small by lia.
  assert (∀ x, in_page t x → m' x = 0) as Hx by (intros x Hx; rewrite (Hf x), decide_True; [done|by rewrite Z2Nat.id]).
  rewrite !Hx by (apply (word_in_page t i); lia). done.
Qed.
Lemma clear_page p m : page_ok p → filled p 0 (Z.to_nat KPGSIZE) m (memset p 0 (Z.to_nat KPGSIZE) m).
Proof. intros Hp. destruct (page_V2P p Hp) as (_ & _ & _ & ? & ?). apply memset_filled; unfold KPGSIZE; lia. Qed.
Lemma filled_out p c m m' x : filled p c (Z.to_nat KPGSIZE) m m' → ¬ in_page p x → m' x = m x.
Proof. intros Hf Hx. rewrite (Hf x), decide_False; [done|]. by rewrite Z2Nat.id. Qed.
Lemma other_page p q x : page_ok p → page_ok q → p ≠ q → in_page p x → ¬ in_page q x.
Proof. intros Hp Hq Hne H1 H2. apply Hne. by eapply pages_disjoint. Qed.

(** ** Page tables *)
Record pt m d T : Prop := {
  pt_dir : page_ok d;
  pt_tab i t : T !! i = Some t → 0 ≤ i < 1024 ∧ page_ok t ∧ t ≠ d ∧ load_word (d + 4 * i) m = V2P t + 7;
  pt_none i : 0 ≤ i < 1024 → T !! i = None → present (load_word (d + 4 * i) m) = false;
  pt_inj i j t : T !! i = Some t → T !! j = Some t → i = j }.
Definition ent m T (n : Z) : Z :=
  match T !! (n / 1024) with Some t => load_word (t + 4 * (n mod 1024)) m | None => 0 end.
(** The pages that hold them. *)
Definition pt_pages d T : list Z := d :: (map_to_list T).*2.
Lemma pt_pages_spec d T p : p ∈ pt_pages d T ↔ p = d ∨ ∃ i, T !! i = Some p.
Proof.
  unfold pt_pages. rewrite elem_of_cons, list_elem_of_fmap. apply ZifyClasses.or_morph; [done|]. split.
  - intros ([i t] & -> & H%elem_of_map_to_list). by exists i.
  - intros [i H]. exists (i, p). split; [done|]. by apply elem_of_map_to_list.
Qed.
Lemma pt_pages_insert d T i p : T !! i = None → pt_pages d (<[i := p]> T) ≡ₚ p :: pt_pages d T.
Proof. intros Hi. unfold pt_pages. rewrite map_to_list_insert by done. simpl. apply Permutation_swap. Qed.
Lemma pt_pages_ok m d T p : pt m d T → p ∈ pt_pages d T → page_ok p.
Proof. intros P [->|[i Hi]]%pt_pages_spec; [apply P|]. by apply (pt_tab _ _ _ P) in Hi as (_ & ? & _). Qed.
Lemma pt_pages_nodup m d T : pt m d T → NoDup (pt_pages d T).
Proof.
  intros P. unfold pt_pages. apply NoDup_cons. split.
  - rewrite list_elem_of_fmap. intros ([i t] & -> & H%elem_of_map_to_list). apply (pt_tab _ _ _ P) in H as (_ & _ & ? & _). done.
  - apply NoDup_fmap_2_strong; [|apply NoDup_map_to_list]. intros [i t] [j t'] H1%elem_of_map_to_list H2%elem_of_map_to_list.
    simpl. intros ->. by rewrite (pt_inj _ _ _ P i j t').
Qed.
Lemma pt_frame m m' d T : pt m d T → (∀ x, in_page d x → m' x = m x) → pt m' d T.
Proof.
  intros [] Hm. constructor; try done.
  - intros i t Hi. destruct (pt_tab0 i t Hi) as (H1 & H2 & H3 & H4). by rewrite (load_word_frame m m') by done.
  - intros i Hi Hn. rewrite (load_word_frame m m') by done. auto.
Qed.
Lemma ent_frame m m' d T n : pt m d T → (∀ p x, p ∈ pt_pages d T → in_page p x → m' x = m x) → ent m' T n = ent m T n.
Proof.
  intros P Hm. unfold ent. destruct (T !! (n / 1024)) as [t|] eqn:E; [|done]. pose proof (pt_tab _ _ _ P _ _ E) as (_ & Ht & _).
  apply load_word_frame; [done|apply Z.mod_pos_bound; lia|]. intros x. apply Hm. apply pt_pages_spec. right. by eexists.
Qed.

(** Memory is the same outside the pages [Y]. *)
Definition outside (Y : list Z) m m' : Prop := ∀ x, (∀ p, p ∈ Y → ¬ in_page p x) → m' x = m x.
Lemma outside_refl Y m : outside Y m m.
Proof. by intros x _. Qed.
Lemma outside_trans Y m m1 m2 : outside Y m m1 → outside Y m1 m2 → outside Y m m2.
Proof. intros H1 H2 x Hx. rewrite H2, H1 by done. done. Qed.
Lemma outside_mono Y Y' m m' : Y ⊆ Y' → outside Y m m' → outside Y' m m'.
Proof. intros HY H x Hx. apply H. intros p Hp. apply Hx. by apply HY. Qed.
(** A page that is not among them keeps its bytes. *)
Lemma outside_page Y m m' p x : outside Y m m' → page_ok p → Forall page_ok Y → p ∉ Y → in_page p x → m' x = m x.
Proof. intros H Hp HY Hn Hx. apply H. intros q Hq. rewrite Forall_forall in HY. eapply other_page; [done|by apply HY| |done]. by intros ->. Qed.

Lemma kinv_mem k l m' :
  kinv kend k l → (∀ a x, a ∈ l → in_page a x → m' x = km_mem k x) → kinv kend (mkKmem (km_locked k) (km_use_lock k) (km_freelist k) m') l.
Proof. intros [] Hm. constructor; simpl; try done. by eapply free_list_same. Qed.
Lemma kinv_pages k l : kinv kend k l → Forall page_ok l.
Proof. intros K. apply Forall_forall. intros a Ha. eapply free_list_pages; [apply K|done]. Qed.

Record vm k l d T : Prop := {
  vm_kinv : kinv kend k l;
  vm_pt : pt (km_mem k) d T;
  vm_sep p : p ∈ pt_pages d T → p ∉ l }.
Definition with_mem (m : mem) k : kmem := mkKmem (km_locked k) (km_use_lock k) (km_freelist k) m.

(** Writing an entry. *)
Lemma write_ent k l d T n t w :
  vm k l d T → T !! (n / 1024) = Some t → 0 ≤ w < 2 ^ 32 →
  let m' := store_word (t + 4 * (n mod 1024)) w (km_mem k) in
  vm (with_mem m' k) l d T ∧ (∀ j, ent m' T j = if decide (j = n) then w else ent (km_mem k) T j) ∧ outside [t] (km_mem k) m'.
Proof.
  intros [K P Hs] Ht Hw m'. pose proof (pt_tab _ _ _ P _ _ Ht) as (_ & Hok & Hd & _).
  assert (0 ≤ n mod 1024 < 1024) as Hn by (apply Z.mod_pos_bound; lia).
  assert (outside [t] (km_mem k) m') as Ho.
  { intros x Hx. apply store_word_frame; [done|done|]. specialize (Hx t ltac:(by apply list_elem_of_singleton)).
    destruct (decide (x < t + 4 * (n mod 1024))); [by left|right]. destruct (decide (t + 4 * (n mod 1024) + 4 ≤ x)); [done|].
    exfalso. apply Hx. apply (word_in_page t (n mod 1024)); lia. }
  assert (∀ p x, page_ok p → p ≠ t → in_page p x → m' x = km_mem k x) as Hout.
  { intros p x Hp Hne Hx. eapply outside_page; [exact Ho|done|by apply Forall_singleton| |done]. by rewrite list_elem_of_singleton. }
  split_and!; [constructor; [apply kinv_mem; [done|]|eapply pt_frame; [done|]|done]| |done].
  - intros a x Ha. apply Hout; [by eapply (Forall_forall page_ok), Ha; apply kinv_pages with k|]. intros ->.
    apply (Hs t); [|done]. apply pt_pages_spec. right. by eexists.
  - intros x. apply Hout; [apply P|done].
  - intros j. unfold ent. case_decide as E.
    + subst j. rewrite Ht. by apply load_store_same.
    + destruct (decide (j / 1024 = n / 1024)) as [Ej|Ej].
      * rewrite Ej, Ht. apply load_store_other; [done|done|apply Z.mod_pos_bound; lia|]. intros Em. apply E.
        rewrite (Z.div_mod j 1024), (Z.div_mod n 1024) by lia. by rewrite Ej, Em.
      * destruct (T !! (j / 1024)) as [t'|] eqn:Et; [|done]. pose proof (pt_tab _ _ _ P _ _ Et) as (_ & Hok' & _).
        apply load_word_frame; [done|apply Z.mod_pos_bound; lia|]. intros x. apply Hout; [done|]. intros ->. apply Ej.
        by apply (pt_inj _ _ _ P _ _ t).
Qed.

(** walkpgdir *)
Lemma pde_addr d va : page_ok d → 0 ≤ va < 2 ^ 32 → u32 (d + 4 * PDX va) = d + 4 * (va / 4096 / 1024) ∧ 0 ≤ va / 4096 / 1024 < 1024.
Proof.
  intros Hd Hva. destruct (page_V2P d Hd) as (_ & _ & _ & ? & ?). rewrite PDX_div by done.
  assert (0 ≤ va / 4096 / 1024 < 1024) as H1.
  { split; [apply Z.div_pos; [apply Z.div_pos|]; lia|]. do 2 (apply Z.div_lt_upper_bound; [lia|]). lia. }
  split; [apply u32_small; lia|done].
Qed.
Lemma pte_addr t va : page_ok t → u32 (t + 4 * PTX va) = t + 4 * (va / 4096 mod 1024) ∧ t + 4 * (va / 4096 mod 1024) ≠ 0.
Proof.
  intros Ht. destruct (page_V2P t Ht) as (_ & _ & _ & ? & ?). rewrite PTX_div.
  pose proof (Z.mod_pos_bound (va / 4096) 1024). split; [apply u32_small|]; lia.
Qed.
Lemma pde_decode t : page_ok t → present (V2P t + 7) = true ∧ P2V (PTE_ADDR (V2P t + 7)) = t.
Proof.
  intros Ht. destruct (page_V2P t Ht) as (H1 & H2 & H3 & _). destruct (mk_pte_spec (V2P t) 7 H1 H2 ltac:(lia)) as (_ & Hp & Ha & _).
  rewrite mk_pte_add in Hp, Ha by (done || lia). change (Z.lor 7 1) with 7 in Hp, Ha. rewrite Ha. done.
Qed.
Lemma walk_hit k l d T va t b :
  vm k l d T → 0 ≤ va < 2 ^ 32 → T !! (va / 4096 / 1024) = Some t →
  walkpgdir d va b k = Ok (t + 4 * (va / 4096 mod 1024)) k.
Proof.
  intros [K P Hs] Hva Ht. pose proof (pt_tab _ _ _ P _ _ Ht) as (_ & Hok & _ & He).
  unfold walkpgdir. destruct (pde_addr d va (pt_dir _ _ _ P) Hva) as [-> _]. unfold read_word.
  rewrite (bind_run _ _ (load_word (d + 4 * (va / 4096 / 1024)) (km_mem k)) k k) by done. rewrite He.
  destruct (pde_decode t Hok) as [-> ->]. by destruct (pte_addr t va Hok) as [-> _].
Qed.
Lemma walk_miss k l d T va :
  vm k l d T → 0 ≤ va < 2 ^ 32 → T !! (va / 4096 / 1024) = None → walkpgdir d va false k = Ok 0 k.
Proof.
  intros [K P Hs] Hva Ht. unfold walkpgdir. destruct (pde_addr d va (pt_dir _ _ _ P) Hva) as [-> Hi]. unfold read_word.
  rewrite (bind_run _ _ (load_word (d + 4 * (va / 4096 / 1024)) (km_mem k)) k k) by done. by rewrite (pt_none _ _ _ P).
Qed.
End rep.
