(* ===== verification/VmMap.v ===== *)
(** * Mapping pages (walkpgdir and mappages of vm.c)

    walkpgdir with allocation leaves every entry as it is; mappages sets the
    entries of its range and no other.  Both take pages only from the free list
    and write only to the directory, its tables and pages from the free list. *)

From S2P Require Import Prelude Mem Kalloc Vm VmRep.

Section map.
Context (kend : Z).
Abbreviation page_ok := (page_ok kend).
Abbreviation vm := (vm kend).
Implicit Types (m : mem) (d t p : Z) (T : gmap Z Z) (k : kmem) (l : list Z).

(** Pages of the allocator and of the page table change hands, nothing else
    changes. *)
Record vstep d k l T k' l' T' : Prop := {
  vs_vm : vm k' l' d T';
  vs_out : outside (pt_pages d T ++ l) (km_mem k) (km_mem k');
  vs_perm : pt_pages d T' ++ l' ≡ₚ pt_pages d T ++ l }.
Lemma vstep_refl d k l T : vm k l d T → vstep d k l T k l T.
Proof. intros V. constructor; [done|apply outside_refl|done]. Qed.
Lemma vstep_trans d k l T k1 l1 T1 k2 l2 T2 : vstep d k l T k1 l1 T1 → vstep d k1 l1 T1 k2 l2 T2 → vstep d k l T k2 l2 T2.
Proof.
  intros [] []. constructor; [done| |by rewrite vs_perm1].
  eapply outside_trans; [done|]. eapply outside_mono; [|done]. intros p. by rewrite vs_perm0.
Qed.
Lemma vm_pages_ok k l d T : vm k l d T → Forall page_ok (pt_pages d T ++ l).
Proof.
  intros [K P _]. apply Forall_app. split; [|by eapply kinv_pages]. apply Forall_forall. intros p. by eapply pt_pages_ok.
Qed.
(** A page that belongs to neither keeps its bytes. *)
Lemma vstep_page d k l T k' l' T' p x :
  vm k l d T → vstep d k l T k' l' T' → page_ok p → p ∉ pt_pages d T ++ l → in_page p x → km_mem k' x = km_mem k x.
Proof. intros V [] Hp Hn. eapply outside_page; [done|done|by eapply vm_pages_ok|done]. Qed.

(** A new table. *)
Section new.
Context (k : kmem) (p : Z) (l : list Z) (d : Z) (T : gmap Z Z) (i : Z).
Hypothesis V : vm k (p :: l) d T.
Hypothesis Hi : 0 ≤ i < 1024.
Hypothesis HT : T !! i = None.
Definition m_clear : mem := memset p 0 (Z.to_nat KPGSIZE) (km_mem k).
Definition m_new : mem := store_word (d + 4 * i) (V2P p + 7) m_clear.
Lemma new_ok : page_ok p.
Proof. apply vm_pages_ok in V. rewrite Forall_forall in V. apply V. set_solver. Qed.
Lemma new_fresh q : q ∈ pt_pages d T → q ≠ p.
Proof. intros Hq ->. apply (vm_sep _ _ _ _ _ V p Hq). set_solver. Qed.
Lemma new_out x : ¬ in_page p x → ¬ in_page d x → m_new x = km_mem k x.
Proof.
  intros Hp Hd. pose proof (pt_dir _ _ _ _ (vm_pt _ _ _ _ _ V)) as Hdok. unfold m_new. rewrite (store_word_frame kend); [|done|done|].
  - eapply filled_out; [apply (clear_page kend), new_ok|done].
  - destruct (decide (x < d + 4 * i)); [by left|right]. destruct (decide (d + 4 * i + 4 ≤ x)); [done|].
    exfalso. apply Hd. apply (word_in_page d i); lia.
Qed.
Lemma new_pde j : 0 ≤ j < 1024 → load_word (d + 4 * j) m_new = if decide (i = j) then V2P p + 7 else load_word (d + 4 * j) (km_mem k).
Proof.
  intros Hj. pose proof (pt_dir _ _ _ _ (vm_pt _ _ _ _ _ V)) as Hdok. destruct (page_V2P kend p new_ok) as (Hm & Hr & _).
  unfold m_new. case_decide as E.
  - subst j. apply (load_store_same kend); [done|done|]. split; [lia|]. pose proof (Z.div_mod (V2P p) 4096). lia.
  - rewrite (load_store_other kend) by done. apply (load_word_frame kend); [done|done|]. intros x Hx.
    eapply filled_out; [apply (clear_page kend), new_ok|]. eapply other_page; [exact Hdok|apply new_ok| |done].
    apply new_fresh. apply pt_pages_spec. by left.
Qed.
Lemma new_table_zero n : 0 ≤ n < 1024 → load_word (p + 4 * n) m_new = 0.
Proof.
  intros Hn. pose proof (pt_dir _ _ _ _ (vm_pt _ _ _ _ _ V)) as Hdok.
  rewrite <- (load_zero kend (km_mem k) m_clear p n new_ok Hn (clear_page kend p _ new_ok)).
  apply (load_word_frame kend); [apply new_ok|done|]. intros x Hx. unfold m_new. apply (store_word_frame kend); [done|done|].
  destruct (decide (x < d + 4 * i)); [by left|right]. destruct (decide (d + 4 * i + 4 ≤ x)); [done|]. exfalso.
  eapply (other_page kend p d x); [apply new_ok|done| |done|apply (word_in_page d i); lia].
  apply not_eq_sym, new_fresh. apply pt_pages_spec. by left.
Qed.
Lemma new_vm k1 : kinv kend k1 l → km_mem k1 = km_mem k → vm (with_mem m_new k1) l d (<[i := p]> T).
Proof.
  intros K1 Hmem. pose proof V as [K P Hs]. pose proof new_ok as Hok. pose proof (ki_nodup _ _ _ K) as [Hpl _]%NoDup_cons.
  assert (d ∈ pt_pages d T) as Hdin by (apply pt_pages_spec; by left). constructor.
  - apply kinv_mem; [done|]. intros a x Ha Hx. rewrite Hmem.
    assert (page_ok a) as Haok by (eapply (Forall_forall page_ok), Ha; by eapply kinv_pages).
    apply new_out; [eapply other_page; [exact Haok|done| |done]; by intros ->|].
    eapply other_page; [exact Haok|apply P| |done]. intros ->. apply (Hs d Hdin). set_solver.
  - constructor.
    + apply P.
    + intros j t. rewrite lookup_insert_Some. intros [[<- <-]|[Hne Ht]].
      * split_and!; [lia|lia|done|apply not_eq_sym, new_fresh; done|]. simpl. by rewrite new_pde, decide_True by done.
      * destruct (pt_tab _ _ _ _ P _ _ Ht) as (H1 & H2 & H3 & H4). split_and!; [lia|lia|done|done|]. simpl. by rewrite new_pde, decide_False by done.
    + intros j Hj. rewrite lookup_insert_None. intros [Ht Hne]. simpl. rewrite new_pde, decide_False by done. by apply P.
    + intros j1 j2 t. rewrite !lookup_insert_Some.
      assert (∀ j, T !! j ≠ Some p) as Hnp by (intros j Hj; apply (new_fresh p); [apply pt_pages_spec; right; by eexists|done]).
      intros [[<- <-]|[? H1]] [[<- ?]|[? H2]]; subst; try done; [by apply Hnp in H2|by apply Hnp in H1|by apply (pt_inj _ _ _ _ P _ _ t)].
  - intros q. rewrite pt_pages_insert by done. rewrite elem_of_cons. intros [->|Hq]; [done|]. specialize (Hs q Hq). set_solver.
Qed.
Lemma new_ent n : ent m_new (<[i := p]> T) n = ent (km_mem k) T n.
Proof.
  pose proof V as [K P Hs]. unfold ent. destruct (decide (n / 1024 = i)) as [->|Hne].
  - rewrite lookup_insert_eq, HT. apply new_table_zero, Z.mod_pos_bound. lia.
  - rewrite lookup_insert_ne by done. destruct (T !! (n / 1024)) as [t|] eqn:E; [|done].
    pose proof (pt_tab _ _ _ _ P _ _ E) as (_ & Ht & Htd & _). apply (load_word_frame kend); [done|apply Z.mod_pos_bound; lia|].
    intros x Hx. apply new_out; (eapply other_page; [exact Ht| | |exact Hx]); [apply new_ok| |apply P|done].
    apply new_fresh. apply pt_pages_spec. right. by eexists.
Qed.
End new.

(** The entry for page [n] is at [r]. *)
Definition ent_at T (n r : Z) : Prop := ∃ t, T !! (n / 1024) = Some t ∧ r = t + 4 * (n mod 1024) ∧ r ≠ 0.
Lemma ent_at_intro k l d T n t : vm k l d T → T !! (n / 1024) = Some t → ent_at T n (t + 4 * (n mod 1024)).
Proof.
  intros [_ P _] Ht. exists t. split_and!; [done..|]. pose proof (pt_tab _ _ _ _ P _ _ Ht) as (_ & Hok & _).
  destruct (page_V2P kend t Hok) as (_ & _ & _ & ? & ?). pose proof (Z.mod_pos_bound n 1024). lia.
Qed.
Lemma lor7 p : page_ok p → Z.lor (Z.lor (Z.lor (V2P p) PTE_P) PTE_W) PTE_U = V2P p + 7.
Proof. intros Hp. destruct (page_V2P kend p Hp) as (Hm & _). rewrite <- !Z.lor_assoc. apply lor_add; [done|]. done. Qed.
Lemma walk_alloc k l d T va :
  vm k l d T → 0 ≤ va < 2 ^ 32 →
  ∃ r k' l' T', walkpgdir d va true k = Ok r k' ∧ vstep d k l T k' l' T' ∧
    (∀ n, ent (km_mem k') T' n = ent (km_mem k) T n) ∧ ((r = 0 ∧ l = [] ∧ T' = T) ∨ ent_at T' (va / 4096) r).
Proof.
  intros V Hva. destruct (T !! (va / 4096 / 1024)) as [t|] eqn:E.
  { exists (t + 4 * (va / 4096 mod 1024)), k, l, T. split_and!; [by eapply walk_hit|by apply vstep_refl|done|right; by eapply ent_at_intro]. }
  pose proof V as [K P Hs]. destruct (pde_addr kend d va (pt_dir _ _ _ _ P) Hva) as [Ed Hi].
  unfold walkpgdir. rewrite Ed. unfold read_word. rewrite (bind_run _ _ (load_word (d + 4 * (va / 4096 / 1024)) (km_mem k)) k k) by done.
  rewrite (pt_none _ _ _ _ P) by done. cbn [negb].
  destruct (kalloc_spec kend k l K) as (k1 & Hk1 & K1 & Hm1 & _). rewrite (bind_run _ _ _ _ _ Hk1).
  destruct l as [|p l]; simpl in *.
  - exists 0, k1, [], T. split_and!; [done| |by rewrite Hm1|by left]. constructor; [|by rewrite Hm1|done].
    constructor; [done|by rewrite Hm1|done].
  - assert (page_ok p) as Hok by (eapply new_ok; eassumption). destruct (page_V2P kend p Hok) as (_ & _ & _ & Hp0 & _).
    rewrite (proj2 (Z.eqb_neq p 0)) by lia. rewrite lor7 by done. destruct (pte_addr kend p va Hok) as [-> Hne].
    pose proof (new_vm k p l d T _ V Hi E k1 K1 Hm1) as V'. set (i := va / 4096 / 1024) in *.
    exists (p + 4 * (va / 4096 mod 1024)), (with_mem (m_new k p d i) k1), l, (<[i := p]> T). split_and!.
    + unfold set_mem, write_word, modify, mbind, M_bind, mret, M_ret. simpl. unfold m_new, m_clear, with_mem. by rewrite <- Hm1.
    + constructor; [done| |].
      * intros x Hx. simpl. eapply new_out; [done|done|done|apply Hx; set_solver|apply Hx]. apply elem_of_app. left. apply pt_pages_spec. by left.
      * rewrite pt_pages_insert by done. apply (Permutation_middle (pt_pages d T)).
    + intros n. simpl. by eapply new_ent.
    + right. eapply ent_at_intro; [done|]. apply lookup_insert_eq.
Qed.

(** Setting the entry that walkpgdir found. *)
Lemma set_ent k l d T n r w :
  vm k l d T → ent_at T n r → 0 ≤ w < 2 ^ 32 →
  read_word r k = Ok (ent (km_mem k) T n) k ∧
  ∃ k', write_word r w k = Ok tt k' ∧ vstep d k l T k' l T ∧ ∀ j, ent (km_mem k') T j = if decide (j = n) then w else ent (km_mem k) T j.
Proof.
  intros V (t & Ht & -> & _) Hw. split; [unfold read_word, gets, ent; by rewrite Ht|].
  destruct (write_ent kend k l d T n t w V Ht Hw) as (V' & He & Ho). eexists. split; [done|]. split; [|exact He].
  constructor; [done| |done]. eapply outside_mono; [|exact Ho]. intros q ->%list_elem_of_singleton.
  apply elem_of_app. left. apply pt_pages_spec. right. by eexists.
Qed.

(** *** mappages *)
(** Pages [n0] to [n0 + c - 1] are mapped to consecutive pages from [pa]. *)
Definition mapped_to (n0 c pa perm : Z) (e e' : Z → Z) : Prop :=
  ∀ n, e' n = if decide (n0 ≤ n < n0 + c) then mk_pte (pa + (n - n0) * 4096) perm else e n.
Lemma mappages_loop_spec fuel c k l d T n0 pa perm :
  vm k l d T → (0 < c)%nat → (c ≤ fuel)%nat → 0 ≤ n0 → n0 + Z.of_nat c ≤ 2 ^ 20 →
  pa mod 4096 = 0 → 0 ≤ pa → pa + Z.of_nat c * 4096 ≤ 2 ^ 32 → 0 ≤ perm < 4096 →
  (∀ n, n0 ≤ n < n0 + Z.of_nat c → present (ent (km_mem k) T n) = false) →
  ∃ r k' l' T' c', mappages_loop fuel d (n0 * 4096) ((n0 + Z.of_nat c - 1) * 4096) pa perm k = Ok r k' ∧ vstep d k l T k' l' T' ∧
    mapped_to n0 c' pa perm (ent (km_mem k) T) (ent (km_mem k') T') ∧
    ((r = 0 ∧ c' = Z.of_nat c) ∨ (r = -1 ∧ 0 ≤ c' < Z.of_nat c ∧ l' = [])).
Proof.
  revert c k l T n0 pa. induction fuel as [|fuel IH]; intros c k l T n0 pa V Hc Hf H0 Hn Hpa Hpa0 Hpa1 Hperm Habs; [lia|].
  cbn [mappages_loop]. assert (n0 * 4096 / 4096 = n0) as En by (apply Z.div_mul; lia).
  destruct (walk_alloc k l d T (n0 * 4096) V ltac:(lia)) as (r & k1 & l1 & T1 & H1 & S1 & He1 & Hr). rewrite En in Hr.
  rewrite (bind_run _ _ _ _ _ H1). destruct Hr as [(-> & -> & ->)|Hat].
  { exists (-1), k1, l1, T, 0. split_and!; [done|done| |right; split_and!; [done|lia|lia|]].
    - intros n. rewrite decide_False by lia. done.
    - pose proof (vs_perm _ _ _ _ _ _ _ S1) as Hp. rewrite app_nil_r in Hp. apply Permutation_length in Hp. rewrite length_app in Hp.
      destruct l1; [done|]. simpl in Hp. lia. }
  assert (r ≠ 0) as Hr0 by (by destruct Hat as (? & _ & _ & ?)). rewrite (proj2 (Z.eqb_neq r 0)) by done.
  destruct (mk_pte_spec pa perm Hpa ltac:(lia) Hperm) as (Hw & _).
  destruct (set_ent k1 l1 d T1 n0 r (mk_pte pa perm) (vs_vm _ _ _ _ _ _ _ S1) Hat Hw) as (Hrd & k2 & H2 & S2 & He2).
  rewrite (bind_run _ _ _ _ _ Hrd), He1, Habs by lia. fold (mk_pte pa perm). rewrite (bind_run _ _ _ _ _ H2).
  pose proof (vstep_trans _ _ _ _ _ _ _ _ _ _ S1 S2) as S12. destruct (decide (c = 1)%nat) as [->|Hc1].
  - replace (n0 + Z.of_nat 1 - 1) with n0 by lia. rewrite Z.eqb_refl. exists 0, k2, l1, T1, 1. split_and!; [done|done| |by left].
    intros n. rewrite He2, He1. destruct (decide (n = n0)) as [->|]; [rewrite decide_True by lia; f_equal; lia|by rewrite decide_False by lia].
  - rewrite (proj2 (Z.eqb_neq _ _)) by lia. unfold KPGSIZE. rewrite !u32_small by lia.
    replace (n0 * 4096 + 4096) with ((n0 + 1) * 4096) by lia. replace (n0 + Z.of_nat c - 1) with (n0 + 1 + Z.of_nat (c - 1) - 1) by lia.
    destruct (IH (c - 1)%nat k2 l1 T1 (n0 + 1) (pa + 4096)) as (r' & k3 & l3 & T3 & c' & H3 & S3 & He3 & Hr3);
      [apply S12|lia|lia|lia|lia|rewrite <- Z.add_mod_idemp_r by lia; by rewrite Z.add_0_r|lia|lia|done| |].
    + intros n Hn'. rewrite He2, He1, decide_False by lia. apply Habs. lia.
    + exists r', k3, l3, T3, (1 + c'). split_and!; [exact H3|by eapply vstep_trans| |destruct Hr3; [left|right]; intuition lia].
      assert (0 ≤ c') by (destruct Hr3; lia). intros n. rewrite He3, He2, He1. repeat case_decide; try lia; try done; f_equal; lia.
Qed.
Lemma mappages_spec k l d T n0 c pa perm :
  vm k l d T → 0 < c → 0 ≤ n0 → n0 + c ≤ 2 ^ 20 → pa mod 4096 = 0 → 0 ≤ pa → pa + c * 4096 ≤ 2 ^ 32 → 0 ≤ perm < 4096 →
  (∀ n, n0 ≤ n < n0 + c → present (ent (km_mem k) T n) = false) →
  ∃ r k' l' T' c', mappages d (n0 * 4096) (c * 4096) pa perm k = Ok r k' ∧ vstep d k l T k' l' T' ∧
    mapped_to n0 c' pa perm (ent (km_mem k) T) (ent (km_mem k') T') ∧
    ((r = 0 ∧ c' = c) ∨ (r = -1 ∧ 0 ≤ c' < c ∧ l' = [])).
Proof.
  intros V Hc H0 Hn Hpa Hpa0 Hpa1 Hperm Habs. unfold mappages. rewrite !PGROUNDDOWN_div, Z.div_mul by lia. rewrite u32_small by lia.
  replace ((n0 * 4096 + c * 4096 - 1) / 4096) with (n0 + Z.of_nat (Z.to_nat c) - 1).
  2: { apply (Z.div_unique _ _ _ 4095); lia. }
  destruct (mappages_loop_spec NPAGES (Z.to_nat c) k l d T n0 pa perm) as (r & k' & l' & T' & c' & H & S & He & Hr);
    [done|lia|unfold NPAGES; change (2 ^ 32 / KPGSIZE) with (2 ^ 20); lia|lia|lia|done|lia|lia|done|intros n Hn'; apply Habs; lia|].
  exists r, k', l', T', c'. split_and!; try done. destruct Hr; [left|right]; intuition lia.
Qed.
End map.
