(* ===== verification/VmUser.v ===== *)
(** * User memory (deallocuvm, freevm, allocuvm of vm.c)

    The pages of an address space are those its user entries map, the directory
    and the tables.  [us k l d T]: no page is two of these or free as well.  The
    operations move pages between the address space and the free list and lose
    none. *)

From stdpp Require Import list_numbers.
From S2P Require Import Prelude Mem Kalloc Vm VmRep VmMap.

(** ** The pages mapped by user entries *)
Definition upage (e : Z) : Z := P2V (PTE_ADDR e).
(** Virtual pages below KERNBASE. *)
Definition UPAGES : Z := 2 ^ 19.
Definition upage_of (e : Z → Z) (n : Z) : option Z := if present (e n) then Some (upage (e n)) else None.
Definition upages (e : Z → Z) : list Z := omap (upage_of e) (seqZ 0 UPAGES).

Lemma omap_ext_in {A B} (f g : A → option B) (L : list A) : (∀ x, x ∈ L → f x = g x) → omap f L = omap g L.
Proof.
  induction L as [|x L IH]; intros H; [done|]. csimpl. rewrite (H x) by set_solver. rewrite IH by set_solver. done.
Qed.
Lemma omap_add {A B} (f g : A → option B) (L : list A) x p :
  NoDup L → x ∈ L → f x = None → g x = Some p → (∀ y, y ∈ L → y ≠ x → f y = g y) → omap g L ≡ₚ p :: omap f L.
Proof.
  intros Hnd (L1 & L2 & ->)%list_elem_of_split Hf Hg Hext. rewrite !omap_app. csimpl. rewrite Hf, Hg.
  apply NoDup_app in Hnd as (_ & Hd & [Hx _]%NoDup_cons).
  rewrite (omap_ext_in f g L1), (omap_ext_in f g L2).
  - by rewrite <- Permutation_middle.
  - intros y Hy. apply Hext; [set_solver|]. by intros ->.
  - intros y Hy. apply Hext; [set_solver|]. intros ->. apply (Hd x Hy). set_solver.
Qed.
Section pages.
Implicit Types e : Z → Z.
Lemma upages_spec e p : p ∈ upages e ↔ ∃ n, 0 ≤ n < UPAGES ∧ present (e n) = true ∧ p = upage (e n).
Proof.
  unfold upages. rewrite list_elem_of_omap. setoid_rewrite elem_of_seqZ. unfold upage_of. split.
  - intros (n & Hn & Hp). exists n. destruct (present (e n)); [|done]. injection Hp as <-. split_and!; [lia|lia|done|done].
  - intros (n & Hn & Hp & ->). exists n. rewrite Hp. split; [lia|done].
Qed.
Lemma upages_ext e e' : (∀ n, 0 ≤ n < UPAGES → upage_of e' n = upage_of e n) → upages e' = upages e.
Proof. intros H. apply omap_ext_in. intros n Hn%elem_of_seqZ. apply H. lia. Qed.
Lemma upages_add e e' n :
  0 ≤ n < UPAGES → present (e n) = false → present (e' n) = true → (∀ j, 0 ≤ j < UPAGES → j ≠ n → upage_of e' j = upage_of e j) →
  upages e' ≡ₚ upage (e' n) :: upages e.
Proof.
  intros Hn H0 H1 Hext. unfold upages. apply omap_add with n; [apply NoDup_seqZ|apply elem_of_seqZ; lia|..].
  - unfold upage_of. by rewrite H0.
  - unfold upage_of. by rewrite H1.
  - intros j Hj%elem_of_seqZ Hne. symmetry. apply Hext; [lia|done].
Qed.
Lemma upages_none e : (∀ n, 0 ≤ n < UPAGES → present (e n) = false) → upages e = [].
Proof.
  intros H. unfold upages. rewrite (omap_ext_in _ (λ _, None)).
  - by induction (seqZ 0 UPAGES).
  - intros n Hn%elem_of_seqZ. unfold upage_of. by rewrite H by lia.
Qed.
End pages.
#[global] Opaque upages.

Section user.
Context (kend : Z).
Hypothesis Hkend : KERNBASE < kend.
Abbreviation page_ok := (page_ok kend).
Abbreviation vm := (vm kend).
Implicit Types (m : mem) (d t p : Z) (T : gmap Z Z) (k : kmem) (l : list Z).

Definition pool k l d T : list Z := upages (ent (km_mem k) T) ++ pt_pages d T ++ l.
Record us k l d T : Prop := {
  us_vm : vm k l d T;
  us_nodup : NoDup (pool k l d T);
  us_ok : Forall page_ok (upages (ent (km_mem k) T)) }.
Lemma us_page k l d T n :
  us k l d T → 0 ≤ n < UPAGES → present (ent (km_mem k) T n) = true →
  let p := upage (ent (km_mem k) T n) in
  page_ok p ∧ p ∉ l ∧ p ∉ pt_pages d T ∧ PTE_ADDR (ent (km_mem k) T n) ≠ 0.
Proof.
  intros [V N O] Hn Hp p. assert (p ∈ upages (ent (km_mem k) T)) as Hin by (apply upages_spec; eauto).
  apply NoDup_app in N as (_ & Hd & _). specialize (Hd p Hin). rewrite Forall_forall in O. specialize (O p Hin).
  split_and!; [done|set_solver|set_solver|]. intros E. destruct O as (_ & Hk & _). unfold p, upage in Hk. rewrite E in Hk.
  unfold P2V, KERNBASE in Hk, Hkend. rewrite u32_small in Hk by lia. lia.
Qed.

(** *** Freeing one page *)
Lemma unmap_page k l d T n t :
  us k l d T → 0 ≤ n < UPAGES → T !! (n / 1024) = Some t → present (ent (km_mem k) T n) = true →
  let p := upage (ent (km_mem k) T n) in
  ∃ k', (kfree kend p ;; write_word (t + 4 * (n mod 1024)) 0) k = Ok tt k' ∧ us k' (p :: l) d T ∧
    pool k' (p :: l) d T ≡ₚ pool k l d T ∧ (∀ j, ent (km_mem k') T j = if decide (j = n) then 0 else ent (km_mem k) T j) ∧
    outside (p :: pt_pages d T) (km_mem k) (km_mem k').
Proof.
  intros U Hn Ht Hp p. destruct (us_page _ _ _ _ _ U Hn Hp) as (Hok & Hl & Hpt & _). fold p in Hok, Hl, Hpt.
  pose proof U as [[K P Hs] N O]. destruct (kfree_spec kend k l p K Hok Hl) as (k1 & H1 & K1 & _ & Hout & _).
  assert (∀ q x, q ∈ pt_pages d T → in_page q x → km_mem k1 x = km_mem k x) as Hq.
  { intros q x Hq Hx. apply Hout. eapply other_page; [by eapply pt_pages_ok|exact Hok| |done]. by intros ->. }
  assert (vm k1 (p :: l) d T) as V1.
  { constructor; [done|eapply pt_frame; [done|]; intros x; apply Hq, pt_pages_spec; by left|]. intros q Hq'.
    apply not_elem_of_cons. split; [by intros ->|by apply Hs]. }
  assert (∀ j, ent (km_mem k1) T j = ent (km_mem k) T j) as He1 by (intros j; by eapply ent_frame).
  destruct (write_ent kend k1 (p :: l) d T n t 0 V1 Ht ltac:(lia)) as (V2 & He2 & Ho2).
  set (m2 := store_word _ _ _) in *. assert (∀ j, ent m2 T j = if decide (j = n) then 0 else ent (km_mem k) T j) as He.
  { intros j. rewrite He2. case_decide; [done|apply He1]. }
  assert (upages (ent (km_mem k) T) ≡ₚ p :: upages (ent m2 T)) as Hu.
  { apply (upages_add (ent m2 T) (ent (km_mem k) T) n Hn); [by rewrite He, decide_True|done|]. intros j _ Hne. unfold upage_of. by rewrite He, decide_False. }
  assert (pool (with_mem m2 k1) (p :: l) d T ≡ₚ pool k l d T) as Hpool.
  { unfold pool. cbn [km_mem with_mem]. rewrite Hu. cbn [app]. rewrite <- !Permutation_middle. done. }
  exists (with_mem m2 k1). split_and!; [by rewrite (bind_run _ _ _ _ _ H1)| |done|done|].
  - constructor; [done|by rewrite Hpool|]. cbn [km_mem with_mem]. rewrite Hu in O. by apply Forall_cons in O as [_ O].
  - intros x Hx. simpl. rewrite Ho2; [apply Hout, Hx; set_solver|]. intros q ->%list_elem_of_singleton. apply Hx.
    apply elem_of_cons. right. apply pt_pages_spec. right. by eexists.
Qed.

(** *** deallocuvm *)
(** The entries after [n0 .. n1) was unmapped, and what memory may have changed. *)
Record unmapped (n0 n1 : Z) d T k l k' l' : Prop := {
  un_us : us k' l' d T;
  un_pool : pool k' l' d T ≡ₚ pool k l d T;
  un_in n : n0 ≤ n < n1 → present (ent (km_mem k') T n) = false;
  un_out n : ¬ (n0 ≤ n < n1) → ent (km_mem k') T n = ent (km_mem k) T n;
  un_mem x : (∀ p, p ∈ pt_pages d T → ¬ in_page p x) →
    (∀ n, n0 ≤ n < n1 → present (ent (km_mem k) T n) = true → ¬ in_page (upage (ent (km_mem k) T n)) x) →
    km_mem k' x = km_mem k x }.
Lemma unmapped_refl n0 n1 d T k l :
  us k l d T → (∀ n, n0 ≤ n < n1 → present (ent (km_mem k) T n) = false) → unmapped n0 n1 d T k l k l.
Proof. by constructor. Qed.
Lemma unmapped_trans n0 n1 n2 d T k l k1 l1 k2 l2 :
  n0 ≤ n1 → unmapped n0 n1 d T k l k1 l1 → unmapped n1 n2 d T k1 l1 k2 l2 → unmapped n0 (Z.max n1 n2) d T k l k2 l2.
Proof.
  intros Hle [] []. constructor; [done|by rewrite un_pool1|..].
  - intros n Hn. destruct (decide (n1 ≤ n < n2)); [by apply un_in1|]. rewrite un_out1 by done. apply un_in0. lia.
  - intros n Hn. rewrite un_out1 by lia. apply un_out0. lia.
  - intros x Hx Hu. rewrite un_mem1; [apply un_mem0; [done|]; intros n Hn; apply Hu; lia|done|].
    intros n Hn. rewrite un_out0 by lia. apply Hu. lia.
Qed.

(** A page that is not mapped, or whose table is missing, is passed over. *)
Lemma PGADDR_next n : 0 ≤ n < UPAGES → PGADDR (n / 1024 + 1) 0 0 = (n / 1024 + 1) * 1024 * 4096 ∧ (n / 1024 + 1) * 1024 ≤ UPAGES.
Proof.
  intros Hn. unfold PGADDR, UPAGES in *. rewrite Z.shiftl_0_l, !Z.lor_0_r, Z.shiftl_mul_pow2 by lia.
  assert (0 ≤ n / 1024 < 512) by (split; [apply Z.div_pos; lia|apply Z.div_lt_upper_bound; lia]).
  rewrite u32_small by lia. lia.
Qed.
Lemma missing_table m T n j : T !! (n / 1024) = None → n ≤ j < (n / 1024 + 1) * 1024 → present (ent m T j) = false.
Proof.
  intros Ht Hj. unfold ent. assert (j / 1024 = n / 1024) as ->; [|by rewrite Ht].
  pose proof (Z.div_mod n 1024). pose proof (Z.mod_pos_bound n 1024). symmetry. apply (Z.div_unique _ _ _ (j - n / 1024 * 1024)); lia.
Qed.
Lemma unmapped_none n1 n2 n d T k l k' l' : n2 ≤ n1 → unmapped n1 n2 d T k l k' l' → unmapped n n d T k l k' l'.
Proof. intros Hle []. constructor; [done|done|lia|intros j _; apply un_out0; lia|]. intros x Hx _. apply un_mem0; [done|lia]. Qed.
Lemma pages_up sz n : n * 4096 < sz ↔ n < (sz + 4095) / 4096.
Proof. pose proof (Z.div_mod (sz + 4095) 4096). pose proof (Z.mod_pos_bound (sz + 4095) 4096). lia. Qed.
Lemma dealloc_loop fuel n0 oldsz d T k l :
  us k l d T → 0 ≤ n0 ≤ UPAGES → 0 ≤ oldsz ≤ KERNBASE → (0 < fuel)%nat → (oldsz + 4095) / 4096 - n0 < Z.of_nat fuel →
  ∃ k' l', deallocuvm_loop kend fuel d (n0 * 4096) oldsz k = Ok tt k' ∧ unmapped n0 ((oldsz + 4095) / 4096) d T k l k' l'.
Proof.
  revert n0 k l. induction fuel as [|fuel IH]; intros n0 k l U Hn0 Hold Hf0 Hf; [lia|]. cbn [deallocuvm_loop].
  pose proof (pages_up oldsz n0) as Hup. set (hi := (oldsz + 4095) / 4096) in *.
  destruct (Z.ltb_spec (n0 * 4096) oldsz) as [Hlt|Hge]; [|exists k, l; split; [done|]; apply unmapped_refl; [done|lia]].
  assert (n0 < UPAGES) as Hn1 by (unfold UPAGES, KERNBASE in *; lia). assert (0 ≤ n0 * 4096 < 2 ^ 32) as Ha by (unfold UPAGES in *; lia).
  assert (n0 * 4096 / 4096 = n0) as En by (apply Z.div_mul; lia). pose proof (us_vm _ _ _ _ U) as V.
  destruct (T !! (n0 / 1024)) as [t|] eqn:Et.
  - pose proof (walk_hit kend k l d T (n0 * 4096) t false V Ha ltac:(by rewrite En)) as Hw. rewrite En in Hw.
    rewrite (bind_run _ _ _ _ _ Hw). destruct (ent_at_intro kend _ _ _ _ _ _ V Et) as (_ & _ & _ & Hne).
    rewrite (proj2 (Z.eqb_neq _ 0)) by done.
    assert (read_word (t + 4 * (n0 mod 1024)) k = Ok (ent (km_mem k) T n0) k) as Hr by (unfold read_word, gets, ent; by rewrite Et).
    rewrite (bind_run _ _ _ _ _ Hr). unfold KPGSIZE. rewrite u32_small by (unfold UPAGES in *; lia). replace (n0 * 4096 + 4096) with ((n0 + 1) * 4096) by lia.
    destruct (present (ent (km_mem k) T n0)) eqn:Hp.
    + destruct (us_page k l d T n0 U ltac:(lia) Hp) as (_ & _ & _ & Hpa). rewrite (proj2 (Z.eqb_neq _ 0)) by done.
      destruct (unmap_page k l d T n0 t U ltac:(lia) Et Hp) as (k1 & H1 & U1 & P1 & E1 & O1). fold (upage (ent (km_mem k) T n0)).
      rewrite (bind_run _ _ _ _ _ H1). destruct (IH (n0 + 1) k1 _ U1 ltac:(lia) Hold ltac:(lia) ltac:(lia)) as (k2 & l2 & H2 & Un2).
      exists k2, l2. split; [exact H2|]. replace hi with (Z.max (n0 + 1) hi) by lia. eapply unmapped_trans; [lia| |exact Un2].
      constructor; [done|done|..].
      * intros n Hn. assert (n = n0) as -> by lia. by rewrite E1, decide_True.
      * intros n Hn. rewrite E1, decide_False by lia. done.
      * intros x Hx Hu. apply O1. intros q [->|Hq]%elem_of_cons; [|by apply Hx]. apply Hu; [lia|done].
    + rewrite (bind_run _ _ tt k k) by done. destruct (IH (n0 + 1) k l U ltac:(lia) Hold ltac:(lia) ltac:(lia)) as (k2 & l2 & H2 & Un2).
      exists k2, l2. split; [exact H2|]. replace hi with (Z.max (n0 + 1) hi) by lia. eapply unmapped_trans; [lia| |exact Un2].
      apply unmapped_refl; [done|]. intros n Hn. by assert (n = n0) as -> by lia.
  - pose proof (walk_miss kend k l d T (n0 * 4096) V Ha ltac:(by rewrite En)) as Hw.
    rewrite (bind_run _ _ _ _ _ Hw). rewrite PDX_div, En by done. destruct (PGADDR_next n0 ltac:(lia)) as [-> Hn1']. rewrite Z.eqb_refl.
    set (n1 := (n0 / 1024 + 1) * 1024) in *. assert (n0 < n1) as Hgt by (unfold n1; pose proof (Z.div_mod n0 1024); pose proof (Z.mod_pos_bound n0 1024); lia).
    unfold KPGSIZE. rewrite (u32_small (n1 * 4096 - 4096)) by (unfold UPAGES in *; lia). rewrite u32_small by (unfold UPAGES in *; lia).
    replace (n1 * 4096 - 4096 + 4096) with (n1 * 4096) by lia.
    destruct (IH n1 k l U ltac:(lia) Hold ltac:(lia) ltac:(lia)) as (k2 & l2 & H2 & Un2). exists k2, l2. split; [exact H2|].
    assert (∀ n, n0 ≤ n < n1 → present (ent (km_mem k) T n) = false) as Habs by (intros n Hn; by apply (missing_table _ _ n0)).
    destruct (Z.le_gt_cases n1 hi).
    + replace hi with (Z.max n1 hi) by lia. eapply unmapped_trans; [lia| |exact Un2]. by apply unmapped_refl.
    + replace hi with (Z.max hi hi) by lia. eapply (unmapped_trans n0 hi hi); [lia| |eapply (unmapped_none n1); [|exact Un2]; lia].
      apply unmapped_refl; [done|]. intros n Hn. apply Habs. lia.
Qed.
Lemma dealloc_spec k l d T oldsz newsz :
  us k l d T → 0 ≤ newsz < oldsz → oldsz ≤ KERNBASE →
  ∃ k' l', deallocuvm kend d oldsz newsz k = Ok newsz k' ∧ unmapped ((newsz + 4095) / 4096) ((oldsz + 4095) / 4096) d T k l k' l'.
Proof.
  intros U Hn Ho. unfold deallocuvm. rewrite (proj2 (Z.leb_gt _ _)) by lia. rewrite PGROUNDUP_div by (unfold KERNBASE in *; lia).
  assert (0 ≤ (newsz + 4095) / 4096 ≤ UPAGES) as Hr.
  { split; [apply Z.div_pos; lia|]. unfold UPAGES, KERNBASE in *. apply Z.lt_succ_r. apply Z.div_lt_upper_bound; lia. }
  assert ((oldsz + 4095) / 4096 ≤ UPAGES) as Hr'.
  { unfold UPAGES, KERNBASE in *. apply Z.lt_succ_r. apply Z.div_lt_upper_bound; lia. }
  destruct (dealloc_loop (S NPAGES) ((newsz + 4095) / 4096) oldsz d T k l U Hr ltac:(lia) ltac:(lia)) as (k' & l' & H & Un).
  { unfold NPAGES, UPAGES in *. change (2 ^ 32 / KPGSIZE) with (2 ^ 20). lia. }
  exists k', l'. by rewrite (bind_run _ _ _ _ _ H).
Qed.

(** *** freevm *)
Definition free_table d (i : nat) : KM unit :=
  e ← read_word (u32 (d + 4 * Z.of_nat i)); when (present e) (kfree kend (P2V (PTE_ADDR e))).
Lemma free_tables L k l d T :
  kinv kend k l → pt kend (km_mem k) d T → d ∉ l → NoDup L → (∀ i, i ∈ L → (i < 1024)%nat) →
  (∀ i t, i ∈ L → T !! Z.of_nat i = Some t → t ∉ l) →
  ∃ k' l', for_each L (free_table d) k = Ok tt k' ∧ kinv kend k' l' ∧ l' ≡ₚ omap (λ i, T !! Z.of_nat i) L ++ l ∧
    outside (pt_pages d T) (km_mem k) (km_mem k').
Proof.
  revert k l. induction L as [|i L IH]; intros k l K P Hd Hnd Hlt Hn; [exists k, l; split_and!; [done..|apply outside_refl]|].
  apply NoDup_cons in Hnd as [HiL Hnd]. assert (i < 1024)%nat as Hi by (apply Hlt, elem_of_cons; by left).
  pose proof (pt_dir _ _ _ _ P) as Hdok. destruct (page_V2P kend d Hdok) as (_ & _ & _ & ? & ?).
  cbn [for_each]. assert (free_table d i k = when (present (load_word (d + 4 * Z.of_nat i) (km_mem k))) (kfree kend (P2V (PTE_ADDR (load_word (d + 4 * Z.of_nat i) (km_mem k))))) k) as E.
  { unfold free_table, read_word, gets, mbind, M_bind. by rewrite u32_small by lia. }
  destruct (T !! Z.of_nat i) as [t|] eqn:Et.
  - destruct (pt_tab _ _ _ _ P _ _ Et) as (_ & Htok & Htd & He). destruct (pde_decode kend t Htok) as [Hp Ha].
    rewrite He, Hp, Ha in E. cbn [when] in E. assert (t ∉ l) as Htl by (apply (Hn i t); [apply elem_of_cons; by left|done]).
    destruct (kfree_spec kend k l t K Htok Htl) as (k1 & H1 & K1 & _ & Hout & _). rewrite H1 in E.
    destruct (IH k1 (t :: l)) as (k2 & l2 & H2 & K2 & Hl2 & Ho2); [done| |apply not_elem_of_cons; by split; [apply not_eq_sym|]|done|intros j Hj; apply Hlt, elem_of_cons; by right| |].
    + eapply pt_frame; [done|]. intros x Hx. apply Hout. eapply other_page; [exact Hdok|exact Htok|done|done].
    + intros j t' Hj Ht'. apply not_elem_of_cons. split; [|apply (Hn j t'); [apply elem_of_cons; by right|done]]. intros ->.
      assert (Z.of_nat i = Z.of_nat j) as Eij by (by apply (pt_inj _ _ _ _ P _ _ t)). apply HiL. by replace i with j by lia.
    + exists k2, l2. rewrite (bind_run _ _ _ _ _ E). split_and!; [done|done|csimpl; rewrite Et, Hl2; by rewrite <- Permutation_middle|].
      intros x Hx. rewrite Ho2 by done. apply Hout, Hx, pt_pages_spec. right. by eexists.
  - rewrite (pt_none _ _ _ _ P (Z.of_nat i) ltac:(lia) Et) in E. cbn [when] in E.
    destruct (IH k l K P Hd Hnd) as (k2 & l2 & H2 & K2 & Hl2 & Ho2); [intros j Hj; apply Hlt, elem_of_cons; by right|intros j t' Hj; apply Hn, elem_of_cons; by right|].
    exists k2, l2. rewrite (bind_run _ _ _ _ _ E). split_and!; [done|done| |done]. csimpl. by rewrite Et.
Qed.
Lemma tables_perm m d T : pt kend m d T → omap (λ i, T !! Z.of_nat i) (seq 0 NPDENTRIES) ≡ₚ (map_to_list T).*2.
Proof.
  intros P. pose proof (pt_pages_nodup kend _ _ _ P) as [_ Hnd]%NoDup_cons. apply NoDup_Permutation; [|done|].
  - assert (∀ L, NoDup L → NoDup (omap (λ i : nat, T !! Z.of_nat i) L)) as H; [|apply H, NoDup_seq].
    induction L as [|i L IH]; intros Hn; [constructor|]. apply NoDup_cons in Hn as [Hi Hn]. csimpl.
    destruct (T !! Z.of_nat i) as [t|] eqn:Et; [|by apply IH]. apply NoDup_cons. split; [|by apply IH].
    rewrite list_elem_of_omap. intros (j & Hj & Htj). apply Hi. assert (Z.of_nat i = Z.of_nat j) as Eij by (by apply (pt_inj _ _ _ _ P _ _ t)).
    by replace i with j by lia.
  - intros t. rewrite list_elem_of_omap, list_elem_of_fmap. split.
    + intros (i & _ & Hi). exists (Z.of_nat i, t). split; [done|]. by apply elem_of_map_to_list.
    + intros ([i t'] & -> & Hi%elem_of_map_to_list). destruct (pt_tab _ _ _ _ P _ _ Hi) as (Hr & _).
      exists (Z.to_nat i). rewrite elem_of_seq, Z2Nat.id by lia. split; [unfold NPDENTRIES; lia|done].
Qed.
Lemma freevm_spec k l d T :
  us k l d T → ∃ k' l', freevm kend d k = Ok tt k' ∧ kinv kend k' l' ∧ l' ≡ₚ pool k l d T ∧
    outside (pool k l d T) (km_mem k) (km_mem k').
Proof.
  intros U. destruct (dealloc_spec k l d T KERNBASE 0 U) as (k1 & l1 & H1 & Un); [done..|]. destruct Un.
  pose proof un_us0 as [[K1 P1 Hs1] N1 _]. destruct (page_V2P kend d (pt_dir _ _ _ _ P1)) as (_ & _ & _ & Hd0 & _).
  assert (upages (ent (km_mem k1) T) = []) as Eu.
  { apply upages_none. intros n Hn. apply un_in0. change ((0 + 4095) / 4096) with 0. change ((KERNBASE + 4095) / 4096) with UPAGES. lia. }
  destruct (free_tables (seq 0 NPDENTRIES) k1 l1 d T K1 P1) as (k2 & l2 & H2 & K2 & Hl2 & Ho2).
  { apply Hs1, pt_pages_spec. by left. }
  { apply NoDup_seq. }
  { intros i Hi%elem_of_seq. unfold NPDENTRIES in Hi. lia. }
  { intros i t _ Ht. apply Hs1, pt_pages_spec. right. by eexists. }
  rewrite (tables_perm _ _ _ P1) in Hl2. assert (pt_pages d T ++ l1 ≡ₚ d :: l2) as Hp by (unfold pt_pages; simpl; by rewrite Hl2).
  assert (d ∉ l2) as Hdl.
  { unfold pool in N1. rewrite Eu in N1. simpl in N1. rewrite <- Hl2 in N1. apply NoDup_cons in N1 as [? _]. done. }
  destruct (kfree_spec kend k2 l2 d K2 (pt_dir _ _ _ _ P1) Hdl) as (k3 & H3 & K3 & _ & Ho3 & _).
  exists k3, (d :: l2). split_and!; [|done| |].
  - unfold freevm. rewrite (proj2 (Z.eqb_neq d 0)) by lia. rewrite (bind_run _ _ _ _ _ H1), (bind_run _ _ _ _ _ H2). exact H3.
  - rewrite <- un_pool0. unfold pool. rewrite Eu. simpl. by rewrite <- Hp.
  - assert (∀ p, p ∈ pt_pages d T → p ∈ pool k l d T) as Hin by (intros p Hp'; unfold pool; rewrite !elem_of_app; tauto).
    intros x Hx. rewrite Ho3 by (apply Hx, Hin, pt_pages_spec; by left). rewrite Ho2 by (intros p Hp'; by apply Hx, Hin).
    apply un_mem0; [intros p Hp'; by apply Hx, Hin|]. intros n Hn Hpr. apply Hx. unfold pool. apply elem_of_app. left. apply upages_spec. exists n.
    change ((0 + 4095) / 4096) with 0 in Hn. change ((KERNBASE + 4095) / 4096) with UPAGES in Hn. split_and!; [lia|lia|done|done].
Qed.
End user.
