(* ===== verification/VmAlloc.v ===== *)
(** * Growing and copying user memory (allocuvm, copyuvm, setupkvm of vm.c)

    A page taken from the free list is held until it is mapped or freed; on every
    path of allocuvm and copyuvm all pages are accounted for. *)

From S2P Require Import Prelude Mem Kalloc Vm VmRep VmMap VmUser.

Section alloc.
Context (kend : Z).
Hypothesis Hkend : KERNBASE < kend.
Abbreviation page_ok := (page_ok kend).
Abbreviation vm := (vm kend).
Abbreviation us := (us kend).
Abbreviation vstep := (vstep kend).
Implicit Types (m : mem) (d t p : Z) (T : gmap Z Z) (k : kmem) (l : list Z).

Lemma us_same k l d T k' l' T' :
  us k l d T → vm k' l' d T' → (∀ n, ent (km_mem k') T' n = ent (km_mem k) T n) → pt_pages d T' ++ l' ≡ₚ pt_pages d T ++ l →
  us k' l' d T' ∧ pool k' l' d T' ≡ₚ pool k l d T.
Proof.
  intros [V N O] V' He Hp. assert (upages (ent (km_mem k') T') = upages (ent (km_mem k) T)) as Eu.
  { apply upages_ext. intros n _. unfold upage_of. by rewrite He. }
  assert (pool k' l' d T' ≡ₚ pool k l d T) as Hpool by (unfold pool; by rewrite Eu, Hp).
  split; [|done]. constructor; [done|by rewrite Hpool|by rewrite Eu].
Qed.
Lemma us_vstep k l d T k' l' T' :
  us k l d T → vstep d k l T k' l' T' → (∀ n, ent (km_mem k') T' n = ent (km_mem k) T n) → us k' l' d T' ∧ pool k' l' d T' ≡ₚ pool k l d T.
Proof. intros U [] He. by eapply us_same. Qed.
Lemma not_in_pool k l d T p : p ∉ pool k l d T ↔ p ∉ upages (ent (km_mem k) T) ∧ p ∉ pt_pages d T ++ l.
Proof. unfold pool. rewrite elem_of_app. tauto. Qed.

(** A page is taken from the free list and filled. *)
Lemma kalloc_none k d T : us k [] d T → ∃ k', kalloc k = Ok 0 k' ∧ us k' [] d T ∧ pool k' [] d T ≡ₚ pool k [] d T ∧ km_mem k' = km_mem k.
Proof.
  intros U. pose proof U as [[K P Hs] _ _]. destruct (kalloc_spec kend k [] K) as (k1 & H1 & K1 & Hm & _). exists k1.
  destruct (us_same k [] d T k1 [] T U) as [U1 Hp]; [constructor; [done|by rewrite Hm|done]|by rewrite Hm|done|]. done.
Qed.
Lemma grab_page k p l d T (g : mem → mem) :
  us k (p :: l) d T → outside [p] (km_mem k) (g (km_mem k)) →
  page_ok p ∧ p ≠ 0 ∧ ∃ k1 k2, kalloc k = Ok p k1 ∧ set_mem g k1 = Ok tt k2 ∧ km_mem k2 = g (km_mem k) ∧ us k2 l d T ∧
    (∀ n, ent (km_mem k2) T n = ent (km_mem k) T n) ∧ pool k (p :: l) d T ≡ₚ p :: pool k2 l d T.
Proof.
  intros U Ho. pose proof U as [[K P Hs] N O]. destruct (kalloc_spec kend k (p :: l) K) as (k1 & H1 & K1 & Hm & _). simpl in H1, K1.
  assert (page_ok p) as Hok by (eapply (free_list_pages kend); [apply K|apply elem_of_cons; by left]).
  destruct (page_V2P kend p Hok) as (_ & _ & _ & Hp0 & _).
  assert (∀ q, q ∈ pt_pages d T ++ l → page_ok q ∧ q ≠ p) as Hq.
  { intros q [Hq|Hq]%elem_of_app.
    - split; [by eapply pt_pages_ok|]. intros ->. apply (Hs p Hq). apply elem_of_cons. by left.
    - split; [eapply (free_list_pages kend); [apply K|apply elem_of_cons; by right]|]. intros ->.
      apply (ki_nodup _ _ _) in K. by apply NoDup_cons in K as [? _]. }
  assert (∀ q x, q ∈ pt_pages d T ++ l → in_page q x → g (km_mem k) x = km_mem k x) as Hg.
  { intros q x Hin Hx. destruct (Hq q Hin). eapply outside_page; [exact Ho|done|by apply Forall_singleton| |done]. by rewrite list_elem_of_singleton. }
  assert (vm (with_mem (g (km_mem k)) k1) l d T) as V2.
  { constructor.
    - apply kinv_mem; [done|]. intros a x Ha. rewrite Hm. apply Hg. apply elem_of_app. by right.
    - eapply pt_frame; [done|]. intros x. apply Hg. apply elem_of_app. left. apply pt_pages_spec. by left.
    - intros q Hin Hl. apply (Hs q Hin). apply elem_of_cons. by right. }
  assert (∀ n, ent (g (km_mem k)) T n = ent (km_mem k) T n) as He.
  { intros n. eapply ent_frame; [done|]. intros q x Hin. apply Hg. apply elem_of_app. by left. }
  assert (upages (ent (g (km_mem k)) T) = upages (ent (km_mem k) T)) as Eu by (apply upages_ext; intros n _; unfold upage_of; by rewrite He).
  assert (pool k (p :: l) d T ≡ₚ p :: pool (with_mem (g (km_mem k)) k1) l d T) as Hp.
  { unfold pool. cbn [km_mem with_mem]. rewrite Eu. by rewrite <- !Permutation_middle. }
  split_and!; [done|lia|]. exists k1, (with_mem (g (km_mem k)) k1). split_and!; [done|unfold set_mem, modify, with_mem; by rewrite Hm|done| |done|done].
  constructor; [done| |by rewrite <- Eu in O]. rewrite Hp in N. by apply NoDup_cons in N as [_ N].
Qed.

(** The held page is mapped. *)
Lemma upage_mk p f : page_ok p → 0 ≤ f < 4096 → upage (mk_pte (V2P p) f) = p ∧ present (mk_pte (V2P p) f) = true.
Proof.
  intros Hp Hf. destruct (page_V2P kend p Hp) as (H1 & H2 & H3 & _). destruct (mk_pte_spec (V2P p) f H1 H2 Hf) as (_ & Hpr & Ha & _).
  split; [|done]. unfold upage. by rewrite Ha.
Qed.
Lemma map_page k l d T n p perm :
  us k l d T → page_ok p → p ∉ pool k l d T → 0 ≤ n < UPAGES → present (ent (km_mem k) T n) = false → 0 ≤ perm < 4096 →
  ∃ r k' l' T', mappages d (n * 4096) KPGSIZE (V2P p) perm k = Ok r k' ∧ vstep d k l T k' l' T' ∧ us k' l' d T' ∧
    ((r = 0 ∧ pool k' l' d T' ≡ₚ p :: pool k l d T ∧ ∀ j, ent (km_mem k') T' j = if decide (j = n) then mk_pte (V2P p) perm else ent (km_mem k) T j) ∨
     (r = -1 ∧ pool k' l' d T' ≡ₚ pool k l d T ∧ (∀ j, ent (km_mem k') T' j = ent (km_mem k) T j) ∧ l' = [])).
Proof.
  intros U Hok Hp Hn Habs Hperm. destruct (page_V2P kend p Hok) as (H1 & H2 & _). pose proof U as [V N O].
  destruct (mappages_spec kend k l d T n 1 (V2P p) perm V) as (r & k' & l' & T' & c' & H & S & He & Hr);
    [lia|lia|unfold UPAGES in *; lia|done|lia| |done|intros j Hj; by assert (j = n) as -> by lia|].
  { pose proof (Z.div_mod (V2P p) 4096). lia. }
  exists r, k', l', T'. split; [exact H|]. split; [done|].
  destruct Hr as [[-> ->]|(-> & Hc & ->)].
  - assert (∀ j, ent (km_mem k') T' j = if decide (j = n) then mk_pte (V2P p) perm else ent (km_mem k) T j) as He'.
    { intros j. rewrite He. destruct (decide (j = n)) as [->|]; [rewrite decide_True by lia; f_equal; lia|by rewrite decide_False by lia]. }
    destruct (upage_mk p perm Hok Hperm) as [Hu Hpr].
    assert (upages (ent (km_mem k') T') ≡ₚ p :: upages (ent (km_mem k) T)) as Eu.
    { rewrite <- Hu at 1. replace (mk_pte (V2P p) perm) with (ent (km_mem k') T' n) by (by rewrite He', decide_True).
      apply upages_add; [done|done|by rewrite He', decide_True|]. intros j _ Hne. unfold upage_of. by rewrite He', decide_False. }
    assert (pool k' l' d T' ≡ₚ p :: pool k l d T) as Hpool by (unfold pool; by rewrite Eu, (vs_perm _ _ _ _ _ _ _ _ S)).
    split; [|by left]. constructor; [apply S|rewrite Hpool; by apply NoDup_cons|rewrite Eu; by apply Forall_cons].
  - assert (∀ j, ent (km_mem k') T' j = ent (km_mem k) T j) as He' by (intros j; by rewrite He, decide_False by lia).
    destruct (us_vstep _ _ _ _ _ _ _ U S He') as [U' Hp']. split; [done|]. by right.
Qed.
(** The held page is freed. *)
Lemma free_page k l d T p :
  us k l d T → page_ok p → p ∉ pool k l d T →
  ∃ k', kfree kend p k = Ok tt k' ∧ us k' (p :: l) d T ∧ pool k' (p :: l) d T ≡ₚ p :: pool k l d T ∧
    (∀ j, ent (km_mem k') T j = ent (km_mem k) T j) ∧ outside [p] (km_mem k) (km_mem k').
Proof.
  intros U Hok [Hn1 Hn2]%not_in_pool. pose proof U as [[K P Hs] N O]. rewrite elem_of_app in Hn2.
  destruct (kfree_spec kend k l p K Hok ltac:(tauto)) as (k1 & H1 & K1 & _ & Hout & _).
  assert (∀ q x, q ∈ pt_pages d T → in_page q x → km_mem k1 x = km_mem k x) as Hq.
  { intros q x Hq Hx. apply Hout. eapply other_page; [by eapply pt_pages_ok|exact Hok| |done]. intros ->. tauto. }
  assert (∀ j, ent (km_mem k1) T j = ent (km_mem k) T j) as He1 by (intros j; by eapply ent_frame).
  assert (upages (ent (km_mem k1) T) = upages (ent (km_mem k) T)) as Eu by (apply upages_ext; intros n _; unfold upage_of; by rewrite He1).
  assert (pool k1 (p :: l) d T ≡ₚ p :: pool k l d T) as Hp by (unfold pool; rewrite Eu; by rewrite <- !Permutation_middle).
  exists k1. split_and!; [done| |done|done|].
  - constructor; [constructor; [done|eapply pt_frame; [done|]; intros x; apply Hq, pt_pages_spec; by left|]| |by rewrite Eu].
    + intros q Hq'. apply not_elem_of_cons. split; [intros ->; tauto|by apply Hs].
    + rewrite Hp. apply NoDup_cons. split; [|done]. rewrite not_in_pool, elem_of_app. tauto.
  - intros x Hx. apply Hout. apply Hx. by apply list_elem_of_singleton.
Qed.

(** Page [p] was taken from the free list, filled by [g], and mapped at page [n], or a page for a table was missing. *)
Record installed (g : mem → mem) (n perm p r : Z) k l d T k3 l3 T3 : Prop := {
  it_us : us k3 l3 d T3;
  it_sub : pt_pages d T3 ++ l3 ⊆ pt_pages d T ++ p :: l;
  it_out : outside (pt_pages d T ++ p :: l) (km_mem k) (km_mem k3);
  it_fill x : in_page p x → km_mem k3 x = g (km_mem k) x;
  it_res :
    (r = 0 ∧ pool k3 l3 d T3 ≡ₚ pool k (p :: l) d T ∧ (p ∉ pt_pages d T3 ++ l3) ∧
     ∀ j, ent (km_mem k3) T3 j = if decide (j = n) then mk_pte (V2P p) perm else ent (km_mem k) T j) ∨
    (r = -1 ∧ p :: pool k3 l3 d T3 ≡ₚ pool k (p :: l) d T ∧ (p ∉ pool k3 l3 d T3) ∧ l3 = [] ∧
     ∀ j, ent (km_mem k3) T3 j = ent (km_mem k) T j) }.
Lemma install_page k p l d T n (g : mem → mem) perm :
  us k (p :: l) d T → outside [p] (km_mem k) (g (km_mem k)) → 0 ≤ n < UPAGES → present (ent (km_mem k) T n) = false → 0 ≤ perm < 4096 →
  page_ok p ∧ p ≠ 0 ∧ ∃ k1 k2 r k3 l3 T3, kalloc k = Ok p k1 ∧ set_mem g k1 = Ok tt k2 ∧
    mappages d (n * 4096) KPGSIZE (V2P p) perm k2 = Ok r k3 ∧ installed g n perm p r k l d T k3 l3 T3.
Proof.
  intros U Hg Hn Habs Hperm. destruct (grab_page k p l d T g U Hg) as (Hok & Hp0 & k1 & k2 & H1 & H2 & Hm2 & U2 & He2 & P2).
  assert (p ∉ pool k2 l d T) as Hnp.
  { pose proof (us_nodup _ _ _ _ _ U) as N. rewrite P2 in N. by apply NoDup_cons in N as [? _]. }
  destruct (map_page k2 l d T n p perm U2 Hok Hnp Hn ltac:(by rewrite He2) Hperm) as (r & k3 & l3 & T3 & H3 & S3 & U3 & Hr).
  split; [done|]. split; [done|]. exists k1, k2, r, k3, l3, T3. split; [done|]. split; [done|]. split; [done|].
  assert (∀ q, q ∈ pt_pages d T ++ l → q ∈ pt_pages d T ++ p :: l) as Hmore by (intros q; rewrite !elem_of_app, elem_of_cons; tauto).
  constructor; [done|intros q; rewrite (vs_perm _ _ _ _ _ _ _ _ S3); apply Hmore| | |].
  - rewrite <- Hm2 in Hg. eapply outside_trans; [eapply outside_mono; [|exact Hg]|eapply outside_mono; [exact Hmore|apply S3]].
    intros q ->%list_elem_of_singleton. apply elem_of_app. right. apply elem_of_cons. by left.
  - intros x Hx. rewrite <- Hm2. eapply (vstep_page kend d k2 l T k3 l3 T3 p); [apply U2|done|done|by apply not_in_pool in Hnp as [_ ?]|done].
  - destruct Hr as [(-> & P3 & E3)|(-> & P3 & E3 & ->)]; [left|right].
    + assert (∀ j, ent (km_mem k3) T3 j = if decide (j = n) then mk_pte (V2P p) perm else ent (km_mem k) T j) as E.
      { intros j. rewrite E3. case_decide; [done|apply He2]. }
      split; [done|]. split; [by rewrite P3, P2|]. split; [|done].
      pose proof (us_nodup _ _ _ _ _ U3) as N. unfold pool in N. apply NoDup_app in N as (_ & N & _). apply N.
      apply upages_spec. exists n. rewrite E, decide_True by done. destruct (upage_mk p perm Hok Hperm) as [-> ->]. split_and!; [lia|lia|done|done].
    + split; [done|]. split; [by rewrite P3, P2|]. split; [by rewrite P3|]. split; [done|]. intros j. by rewrite E3.
Qed.
Lemma installed_mem g n perm p r k l d T k3 l3 T3 q x :
  us k (p :: l) d T → installed g n perm p r k l d T k3 l3 T3 → page_ok q → q ∉ pt_pages d T ++ p :: l → in_page q x → km_mem k3 x = km_mem k x.
Proof.
  intros U I Hq Hn Hx. eapply (outside_page kend); [apply (it_out _ _ _ _ _ _ _ _ _ _ _ _ I)|exact Hq|eapply (vm_pages_ok kend); apply U|exact Hn|exact Hx].
Qed.
Lemma outside_tables_pool k l d T m m' : outside (pt_pages d T ++ l) m m' → outside (pool k l d T) m m'.
Proof. apply outside_mono. intros q Hq. unfold pool. apply elem_of_app. by right. Qed.

(** *** allocuvm *)
(** Page [n] is mapped, writable and for users, to a page of zeros. *)
Definition zero_page k T (n : Z) : Prop :=
  ∃ p, page_ok p ∧ ent (km_mem k) T n = mk_pte (V2P p) 6 ∧ ∀ x, in_page p x → km_mem k x = 0.
(** Pages that belong to nobody here, nor are mapped in [n0 .. n1), keep their bytes. *)
Definition untouched n0 n1 k l d T k' : Prop :=
  ∀ q x, page_ok q → q ∉ pt_pages d T ++ l →
    (∀ n, n0 ≤ n < n1 → present (ent (km_mem k) T n) = true → upage (ent (km_mem k) T n) ≠ q) → in_page q x → km_mem k' x = km_mem k x.
Record grew n0 n1 k l d T k' T' : Prop := {
  gr_out n : ¬ (n0 ≤ n < n1) → ent (km_mem k') T' n = ent (km_mem k) T n;
  gr_in n : n0 ≤ n < n1 → zero_page k' T' n;
  gr_mem : untouched 0 0 k l d T k' }.
Record failed n0 n1 nm k l d T k' T' : Prop := {
  fa_out n : ¬ (n0 ≤ n < n1) → ent (km_mem k') T' n = ent (km_mem k) T n;
  fa_in n : n0 ≤ n < n1 → present (ent (km_mem k') T' n) = false;
  fa_mem : untouched n0 nm k l d T k' }.
(** Memory was exhausted: all pages are tables, or user pages below [n1]. *)
Definition exhausted n1 k l d T : Prop :=
  (∀ n, n1 ≤ n < UPAGES → present (ent (km_mem k) T n) = false) → Z.of_nat (length (pool k l d T)) ≤ n1 + 1026.
Lemma pool_full n1 k d T :
  us k [] d T → 0 ≤ n1 → (∀ n, n1 ≤ n < UPAGES → present (ent (km_mem k) T n) = false) → Z.of_nat (length (pool k [] d T)) ≤ n1 + 1025.
Proof.
  intros [V N _] Hn Habs. unfold pool in *. rewrite app_nil_r in *. apply NoDup_app in N as (N1 & _ & _). rewrite length_app. unfold pt_pages. cbn [length].
  assert (length (upages (ent (km_mem k) T)) ≤ length ((λ n, upage (ent (km_mem k) T n)) <$> seqZ 0 n1))%nat as H1.
  { apply submseteq_length, NoDup_submseteq; [done|]. intros p (n & Hr & Hp & ->)%upages_spec. apply list_elem_of_fmap. exists n. split; [done|]. apply elem_of_seqZ.
    destruct (decide (n < n1)); [lia|]. by rewrite Habs in Hp by lia. }
  assert (length (map_to_list T) ≤ length (seqZ 0 1024))%nat as H2.
  { rewrite <- (length_fmap fst). apply submseteq_length, NoDup_submseteq; [apply NoDup_fst_map_to_list|].
    intros i ([j t] & -> & Hj%elem_of_map_to_list)%list_elem_of_fmap. apply elem_of_seqZ. destruct (pt_tab _ _ _ _ (vm_pt _ _ _ _ _ V) _ _ Hj). cbn. lia. }
  rewrite length_fmap, length_seqZ in H1. rewrite length_seqZ in H2. rewrite length_fmap. lia.
Qed.

(** The clean-up when there is no page. *)
Lemma alloc_undo k l d T n0 oldsz newsz k1 l1 T1 :
  us k l d T → us k1 l1 d T1 →
  (∀ n, ent (km_mem k1) T1 n = ent (km_mem k) T n) →
  (∀ q x, page_ok q → q ∉ pt_pages d T ++ l → in_page q x → km_mem k1 x = km_mem k x) →
  pt_pages d T1 ⊆ pt_pages d T ++ l → 0 ≤ oldsz < newsz → newsz ≤ KERNBASE → (oldsz + 4095) / 4096 ≤ n0 →
  (∀ n, n0 ≤ n < (newsz + 4095) / 4096 → present (ent (km_mem k) T n) = false) →
  ∃ k2 l2, deallocuvm kend d newsz oldsz k1 = Ok oldsz k2 ∧ us k2 l2 d T1 ∧ pool k2 l2 d T1 ≡ₚ pool k1 l1 d T1 ∧
    outside (pool k1 l1 d T1) (km_mem k1) (km_mem k2) ∧ failed ((oldsz + 4095) / 4096) ((newsz + 4095) / 4096) n0 k l d T k2 T1.
Proof.
  intros U U1 He Hm Hsub Ho Hnew Hn0 Habs. destruct (dealloc_spec kend Hkend k1 l1 d T1 newsz oldsz U1 Ho Hnew) as (k2 & l2 & H2 & []).
  assert (∀ n, (oldsz + 4095) / 4096 ≤ n < (newsz + 4095) / 4096 → 0 ≤ n < UPAGES) as Hrange.
  { intros n Hn. unfold UPAGES, KERNBASE in *. assert (0 ≤ (oldsz + 4095) / 4096) by (apply Z.div_pos; lia).
    assert ((newsz + 4095) / 4096 < 2 ^ 19 + 1) by (apply Z.div_lt_upper_bound; lia). lia. }
  exists k2, l2. split; [done|]. split; [done|]. split; [done|]. split.
  { intros x Hx. apply un_mem; [intros p Hp; apply Hx; unfold pool; rewrite !elem_of_app; tauto|].
    intros n Hn Hpr. apply Hx, elem_of_app. left. apply upages_spec. exists n. split; [by apply Hrange|done]. }
  constructor; [intros n Hn; by rewrite un_out, He|done|].
  intros q x Hq Hn Hup Hx. rewrite un_mem; [by apply (Hm q)| |].
  - intros p' Hp'. eapply (other_page kend q p'); [done|eapply pt_pages_ok; [apply U1|done]| |done]. intros <-. by apply Hn, Hsub.
  - intros n Hn' Hpr. rewrite He in Hpr |- *. destruct (decide (n0 ≤ n)); [by rewrite Habs in Hpr by lia|].
    assert (present (ent (km_mem k1) T1 n) = true) as Hpr1 by (by rewrite He).
    destruct (us_page kend Hkend k1 l1 d T1 n U1 (Hrange n Hn') Hpr1) as (Hok & _). rewrite He in Hok.
    eapply (other_page kend q); [done|done| |done]. apply not_eq_sym, Hup; [lia|done].
Qed.
(** Page [n0] was mapped to a page of zeros, and the loop went on. *)
Section mapped.
Context (n0 p r : Z) k l d T k3 l3 T3.
Context (U : us k (p :: l) d T) (Hok : page_ok p) (I : installed (memset p 0 (Z.to_nat KPGSIZE)) n0 6 p r k l d T k3 l3 T3).
Context (Hp3 : p ∉ pt_pages d T3 ++ l3).
Context (E : ∀ j, ent (km_mem k3) T3 j = if decide (j = n0) then mk_pte (V2P p) 6 else ent (km_mem k) T j).
Lemma grew_step hi k4 T4 : n0 < hi → grew (n0 + 1) hi k3 l3 d T3 k4 T4 → grew n0 hi k (p :: l) d T k4 T4.
Proof using All.
  intros Hhi [Go Gi Gm]. constructor.
  - intros n Hn. rewrite Go, E, decide_False by lia. done.
  - intros n Hn. destruct (decide (n = n0)) as [->|]; [|apply Gi; lia]. exists p. split_and!; [done| |].
    + rewrite Go, E, decide_True by (done || lia). done.
    + intros x Hx. rewrite (Gm p x Hok Hp3 ltac:(lia) Hx), (it_fill _ _ _ _ _ _ _ _ _ _ _ _ I x Hx).
      rewrite (clear_page kend p (km_mem k) Hok x), decide_True; [done|by rewrite Z2Nat.id].
  - intros q x Hq Hn _ Hx. rewrite (Gm q x Hq ltac:(intros Hi; by apply Hn, (it_sub _ _ _ _ _ _ _ _ _ _ _ _ I)) ltac:(lia) Hx). by eapply installed_mem.
Qed.
Lemma failed_step lo hi k4 T4 : lo ≤ n0 < hi → failed lo hi (n0 + 1) k3 l3 d T3 k4 T4 → failed lo hi n0 k (p :: l) d T k4 T4.
Proof using All.
  intros Hhi [Fo Fi Fm]. constructor; [|done|].
  - intros n Hn. rewrite Fo, E, decide_False by lia. done.
  - intros q x Hq Hn Hup' Hx. rewrite (Fm q x Hq); [by eapply installed_mem|intros Hi; by apply Hn, (it_sub _ _ _ _ _ _ _ _ _ _ _ _ I)| |done].
    intros n Hn'. rewrite E. case_decide.
    + destruct (upage_mk p 6 Hok ltac:(lia)) as [-> _]. intros _ <-. apply Hn. apply elem_of_app. right. apply elem_of_cons. by left.
    + apply Hup'. lia.
Qed.
End mapped.
(** What a run of the loop from page [n0] leaves. *)
Definition alloc_post n0 oldsz newsz k l d T (o : outcome kmem Z) : Prop :=
  ∃ r k' l' T', o = Ok r k' ∧ us k' l' d T' ∧ pool k' l' d T' ≡ₚ pool k l d T ∧ outside (pool k l d T) (km_mem k) (km_mem k') ∧
    ((r = newsz ∧ grew n0 ((newsz + 4095) / 4096) k l d T k' T') ∨
     (r = 0 ∧ failed ((oldsz + 4095) / 4096) ((newsz + 4095) / 4096) n0 k l d T k' T' ∧ exhausted ((newsz + 4095) / 4096) k l d T)).
(** No page for the memory itself, or none for its table: everything is undone. *)
Lemma alloc_none n0 oldsz newsz k d T :
  us k [] d T → 0 ≤ oldsz < newsz → newsz ≤ KERNBASE → (oldsz + 4095) / 4096 ≤ n0 < (newsz + 4095) / 4096 →
  (∀ n, n0 ≤ n < (newsz + 4095) / 4096 → present (ent (km_mem k) T n) = false) →
  ∃ k1, kalloc k = Ok 0 k1 ∧ alloc_post n0 oldsz newsz k [] d T ((deallocuvm kend d newsz oldsz ;; mret 0) k1).
Proof using Hkend.
  intros U Hon Hnew Hn0 Habs. assert (0 ≤ (oldsz + 4095) / 4096) by (apply Z.div_pos; lia).
  destruct (kalloc_none k d T U) as (k1 & H1 & U1 & P1 & Hm1). exists k1. split; [done|].
  destruct (alloc_undo k [] d T n0 oldsz newsz k1 [] T U U1) as (k2 & l2 & H2 & U2 & P2 & O2 & F2);
    [by rewrite Hm1|by intros; rewrite Hm1|rewrite app_nil_r; done|done|lia|lia|done|].
  exists 0, k2, l2, T. rewrite (bind_run _ _ _ _ _ H2). split; [reflexivity|]. split; [exact U2|]. split; [rewrite P2, P1; reflexivity|].
  split; [rewrite Hm1 in O2; eapply outside_mono; [|exact O2]; intros q; by rewrite P1|]. right. split; [reflexivity|]. split; [exact F2|].
  intros Ha. pose proof (pool_full ((newsz + 4095) / 4096) k d T U ltac:(lia) Ha). lia.
Qed.
Lemma alloc_no_table n0 oldsz newsz p g k l d T k3 T3 :
  us k (p :: l) d T → page_ok p → installed g n0 6 p (-1) k l d T k3 [] T3 → 0 ≤ oldsz < newsz → newsz ≤ KERNBASE →
  (oldsz + 4095) / 4096 ≤ n0 < (newsz + 4095) / 4096 → (∀ n, n0 ≤ n < (newsz + 4095) / 4096 → present (ent (km_mem k) T n) = false) →
  alloc_post n0 oldsz newsz k (p :: l) d T ((deallocuvm kend d newsz oldsz ;; kfree kend p ;; mret 0) k3).
Proof using Hkend.
  intros U Hok I Hon Hnew Hn0 Habs. assert (0 ≤ (oldsz + 4095) / 4096) by (apply Z.div_pos; lia).
  pose proof I as [U3 Hsub O3 _ [(? & _)|(_ & P3 & Hnp & _ & E3)]]; [done|].
  destruct (alloc_undo k (p :: l) d T n0 oldsz newsz k3 [] T3 U U3) as (k4 & l4 & H4 & U4 & P4 & O4 & F4);
    [done|intros q x Hq Hn Hx; by eapply (installed_mem g n0 6 p)|intros q Hq; apply Hsub, elem_of_app; by left|done|lia|lia|done|].
  rewrite (bind_run _ _ _ _ _ H4). assert (p ∉ pool k4 l4 d T3) as Hnp4 by (by rewrite P4).
  destruct (free_page k4 l4 d T3 p U4 Hok Hnp4) as (k5 & H5 & U5 & P5 & E5 & O5). rewrite (bind_run _ _ _ _ _ H5).
  exists 0, k5, (p :: l4), T3. split; [done|]. split; [done|]. split; [by rewrite P5, P4, P3|]. split.
  { eapply outside_trans; [apply outside_tables_pool, O3|]. eapply outside_trans; [eapply outside_mono; [|exact O4]|eapply outside_mono; [|exact O5]]; intros q.
    - rewrite <- P3, elem_of_cons. tauto.
    - intros ->%list_elem_of_singleton. rewrite <- P3. apply elem_of_cons. by left. }
  right. split; [done|]. destruct F4 as [Fo Fi Fm]. split.
  2: { intros Ha. pose proof (pool_full ((newsz + 4095) / 4096) k3 d T3 U3 ltac:(lia) ltac:(intros n Hn; rewrite E3; by apply Ha)) as Hl.
       rewrite <- P3. cbn [length]. lia. }
  constructor; [intros n Hn; rewrite E5; by apply Fo|intros n Hn; rewrite E5; by apply Fi|].
  intros q x Hq Hn Hup' Hx. rewrite O5; [by apply (Fm q)|]. intros q' ->%list_elem_of_singleton. eapply (other_page kend q p); [done|done| |done].
  intros ->. apply Hn. apply elem_of_app. right. apply elem_of_cons. by left.
Qed.
Lemma alloc_loop fuel n0 oldsz newsz k l d T :
  us k l d T → (oldsz + 4095) / 4096 ≤ n0 → 0 ≤ oldsz → newsz < KERNBASE → (0 < fuel)%nat → (newsz + 4095) / 4096 - n0 < Z.of_nat fuel →
  (∀ n, n0 ≤ n < (newsz + 4095) / 4096 → present (ent (km_mem k) T n) = false) → n0 ≤ UPAGES →
  alloc_post n0 oldsz newsz k l d T (allocuvm_loop kend fuel d (n0 * 4096) oldsz newsz k).
Proof using Hkend.
  revert n0 k l T. induction fuel as [|fuel IH]; intros n0 k l T U Hlo Hold Hnew Hf0 Hf Habs Hn0; [lia|]. cbn [allocuvm_loop].
  pose proof (pages_up newsz n0) as Hup. pose proof (pages_up oldsz n0) as Hupo.
  assert (0 ≤ (oldsz + 4095) / 4096) as Hlo0 by (apply Z.div_pos; lia).
  destruct (Z.ltb_spec (n0 * 4096) newsz) as [Hlt|Hge].
  2: { exists newsz, k, l, T. split; [done|]. split; [done|]. split; [done|]. split; [apply outside_refl|]. left. split; [done|]. constructor; [done|lia|by intros q x _ _ _]. }
  assert (0 ≤ n0 < UPAGES) as Hnr by (unfold UPAGES, KERNBASE in *; lia).
  destruct l as [|p l].
  { destruct (alloc_none n0 oldsz newsz k d T U) as (k1 & H1 & Hpost); [lia|lia|lia|done|]. rewrite (bind_run _ _ _ _ _ H1). by rewrite Z.eqb_refl. }
  destruct (install_page k p l d T n0 (memset p 0 (Z.to_nat KPGSIZE)) 6 U) as (Hok & Hp0 & k1 & k2 & r & k3 & l3 & T3 & H1 & H2 & H3 & I);
    [|done|apply Habs; lia|lia|].
  { intros x Hx. eapply filled_out; [apply (clear_page kend)|apply Hx; by apply list_elem_of_singleton].
    eapply (free_list_pages kend); [apply (vm_kinv _ _ _ _ _ (us_vm _ _ _ _ _ U))|apply elem_of_cons; by left]. }
  rewrite (bind_run _ _ _ _ _ H1), (proj2 (Z.eqb_neq p 0) Hp0), (bind_run _ _ _ _ _ H2).
  change (Z.lor PTE_W PTE_U) with 6. rewrite (bind_run _ _ _ _ _ H3). clear H1 H2 H3.
  pose proof I as [U3 _ O3 _ [(-> & P3 & Hp3 & E)|(-> & _ & _ & -> & _)]]; cbn [Z.ltb Z.compare]; [|by apply (alloc_no_table n0 oldsz newsz p _ k l d T k3 T3 U Hok I); lia || done].
  unfold KPGSIZE. rewrite u32_small by (unfold UPAGES in *; lia). replace (n0 * 4096 + 4096) with ((n0 + 1) * 4096) by lia.
  destruct (IH (n0 + 1) k3 l3 T3 U3 ltac:(lia) Hold Hnew ltac:(lia) ltac:(lia)) as (r & k4 & l4 & T4 & H4 & U4 & P4 & O4 & Hr).
  { intros n Hn. rewrite E, decide_False by lia. apply Habs. lia. }
  { lia. }
  exists r, k4, l4, T4. split; [exact H4|]. split; [done|]. split; [by rewrite P4, P3|].
  split; [eapply outside_trans; [apply outside_tables_pool, O3|]; eapply outside_mono; [|exact O4]; intros q; by rewrite P3|].
  destruct Hr as [[-> G]|(-> & F & Hfull)]; [left|right]; (split; [done|]).
  - eapply grew_step; [exact U|exact Hok|exact I|exact Hp3|exact E|lia|exact G].
  - split; [eapply failed_step; [exact U|exact Hok|exact I|exact Hp3|exact E|lia|exact F]|].
    intros Ha. rewrite <- P3. apply Hfull. intros n Hn. rewrite E, decide_False by lia. by apply Ha.
Qed.
(** allocuvm from [oldsz] to [newsz]. *)
Lemma allocuvm_spec k l d T oldsz newsz :
  us k l d T → 0 ≤ oldsz < 2 ^ 32 - 4096 → oldsz ≤ newsz < KERNBASE →
  (∀ n, (oldsz + 4095) / 4096 ≤ n < (newsz + 4095) / 4096 → present (ent (km_mem k) T n) = false) →
  let n0 := (oldsz + 4095) / 4096 in let n1 := (newsz + 4095) / 4096 in
  ∃ r k' l' T', allocuvm kend d oldsz newsz k = Ok r k' ∧ us k' l' d T' ∧ pool k' l' d T' ≡ₚ pool k l d T ∧
    outside (pool k l d T) (km_mem k) (km_mem k') ∧ ((r = newsz ∧ grew n0 n1 k l d T k' T') ∨ (r = 0 ∧ failed n0 n1 n0 k l d T k' T' ∧ exhausted n1 k l d T)).
Proof.
  intros U Ho Hn Habs. unfold allocuvm. rewrite (proj2 (Z.leb_gt _ _)), (proj2 (Z.ltb_ge _ _)) by lia. rewrite PGROUNDUP_div by lia.
  assert ((newsz + 4095) / 4096 ≤ UPAGES) as Hhi by (unfold UPAGES, KERNBASE in *; apply Z.lt_succ_r; apply Z.div_lt_upper_bound; lia).
  assert (0 ≤ (oldsz + 4095) / 4096 ≤ (newsz + 4095) / 4096) as Hlo by (split; [apply Z.div_pos; lia|apply Z.div_le_mono; lia]).
  apply alloc_loop; [done|lia|lia|lia|lia|unfold NPAGES; change (2 ^ 32 / KPGSIZE) with (2 ^ 20); unfold UPAGES in Hhi; lia|exact Habs|lia].
Qed.
End alloc.
