(* ===== verification/VmCopy.v ===== *)
(** * The kernel's mappings and copies of address spaces (setupkvm, copyuvm of vm.c) *)

From S2P Require Import Prelude Mem Kalloc Vm VmRep VmMap VmUser VmAlloc.

(** The entries that a table of mappings asks for. *)
Fixpoint kent (L : list (Z * Z * Z * Z)) (e : Z → Z) (n : Z) : Z :=
  match L with
  | [] => e n
  | (virt, ps, pe, perm) :: L' =>
      if decide (virt / 4096 ≤ n < virt / 4096 + u32 (pe - ps) / 4096) then mk_pte (ps + (n - virt / 4096) * 4096) perm
      else kent L' e n
  end.
(** Mappings of whole pages, in ascending order from page [lo]. *)
Fixpoint kmap_ok (lo : Z) (L : list (Z * Z * Z * Z)) : Prop :=
  match L with
  | [] => True
  | (virt, ps, pe, perm) :: L' =>
      let c := u32 (pe - ps) / 4096 in
      lo ≤ virt / 4096 ∧ virt mod 4096 = 0 ∧ ps mod 4096 = 0 ∧ u32 (pe - ps) mod 4096 = 0 ∧ 0 < c ∧
      0 ≤ ps ∧ ps + c * 4096 ≤ 2 ^ 32 ∧ virt / 4096 + c ≤ 2 ^ 20 ∧ 0 ≤ perm < 4096 ∧ kmap_ok (virt / 4096 + c) L'
  end.
Lemma kent_below lo L e n : kmap_ok lo L → n < lo → kent L e n = e n.
Proof.
  revert lo. induction L as [|[[[virt ps] pe] perm] L IH]; intros lo H Hn; [done|].
  cbn [kent kmap_ok] in *. destruct H as (? & _ & _ & _ & ? & _ & _ & _ & _ & H). rewrite decide_False by lia. eapply IH; [exact H|lia].
Qed.
Lemma kent_ext L e e' n : e n = e' n → kent L e n = kent L e' n.
Proof. intros He. induction L as [|[[[virt ps] pe] perm] L IH]; cbn [kent]; [done|]. by rewrite IH. Qed.

Section copy.
Context (kend kdata : Z).
Hypothesis Hkend : KERNBASE < kend.
(** The linker script puts [data] at the start of a page of the kernel. *)
Hypothesis Hdata : kdata mod 4096 = 0 ∧ KERNLINK < kdata < KERNBASE + PHYSTOP.
Abbreviation page_ok := (page_ok kend).
Abbreviation vm := (vm kend).
Abbreviation us := (us kend).
Abbreviation vstep := (vstep kend).
Implicit Types (m : mem) (d t p : Z) (T : gmap Z Z) (k : kmem) (l : list Z).

Lemma map_kernel_spec L lo k l d T :
  vm k l d T → kmap_ok lo L → 0 ≤ lo → (∀ n, lo ≤ n → present (ent (km_mem k) T n) = false) →
  ∃ ok k' l' T', map_kernel d L k = Ok ok k' ∧ vstep d k l T k' l' T' ∧
    (∀ n, n < lo → ent (km_mem k') T' n = ent (km_mem k) T n) ∧
    (ok = true → ∀ n, ent (km_mem k') T' n = kent L (ent (km_mem k) T) n) ∧ (ok = false → l' = []).
Proof.
  revert lo k l T. induction L as [|[[[virt ps] pe] perm] L IH]; intros lo k l T V HL Hlo Habs.
  { exists true, k, l, T. split_and!; [done|by apply vstep_refl|done|done|done]. }
  cbn [kmap_ok map_kernel kent] in *. destruct HL as (H1 & H2 & H3 & H4 & H5 & H6 & H7 & H8 & H9 & HL).
  set (c := u32 (pe - ps) / 4096) in *. set (n0 := virt / 4096) in *.
  assert (virt = n0 * 4096) as Ev by (pose proof (Z.div_mod virt 4096); lia).
  assert (u32 (pe - ps) = c * 4096) as Ec by (pose proof (Z.div_mod (u32 (pe - ps)) 4096); lia).
  destruct (mappages_spec kend k l d T n0 c ps perm V) as (r & k1 & l1 & T1 & c' & Hm & S1 & He1 & Hr);
    [done|lia|lia|done|done|done|done|intros n Hn; apply Habs; lia|].
  rewrite Ev, Ec. rewrite (bind_run _ _ _ _ _ Hm). destruct Hr as [[-> ->]|(-> & Hc & ->)]; simpl.
  - destruct (IH (n0 + c) k1 l1 T1 (vs_vm _ _ _ _ _ _ _ _ S1) HL ltac:(lia)) as (ok & k2 & l2 & T2 & H & S2 & Hb & Ho & Hl).
    { intros n Hn. rewrite He1, decide_False by lia. apply Habs. lia. }
    exists ok, k2, l2, T2. split_and!; [exact H|by eapply vstep_trans| | |exact Hl].
    + intros n Hn. rewrite Hb, He1, decide_False by lia. done.
    + intros Hok n. rewrite (Ho Hok n). case_decide as E.
      * rewrite (kent_below (n0 + c)) by (done || lia). rewrite He1, decide_True by lia. done.
      * apply kent_ext. by rewrite He1, decide_False.
  - exists false, k1, [], T1. split_and!; [done|done| |done|done]. intros n Hn. rewrite He1, decide_False by lia. done.
Qed.
Lemma kernel_map_ok : kmap_ok UPAGES (kmap kdata).
Proof.
  destruct Hdata as [Hm Hr]. unfold kmap, KERNLINK, KERNBASE, EXTMEM, PHYSTOP, DEVSPACE, UPAGES, PTE_W in *.
  assert (kdata = kdata / 4096 * 4096) as Ek by (pose proof (Z.div_mod kdata 4096); lia). set (q := kdata / 4096) in *.
  assert (V2P kdata = (q - 2 ^ 19) * 4096) as Ev by (unfold V2P, VBASE; rewrite u32_small by lia; lia).
  change (V2P (2147483648 + 1048576)) with 1048576.
  assert (u32 (V2P kdata - 1048576) = (q - 2 ^ 19 - 256) * 4096) as E1 by (rewrite Ev, u32_small by lia; lia).
  assert (u32 (234881024 - V2P kdata) = (2 ^ 19 + 57344 - q) * 4096) as E2 by (rewrite Ev, u32_small by lia; lia).
  cbn [kmap_ok]. rewrite E1, E2, !Z.div_mul, !Z.mod_mul, Ev, Z.mod_mul by lia. fold q.
  change (u32 (1048576 - 0) / 4096) with 256. change (u32 (1048576 - 0) mod 4096) with 0.
  change (u32 (0 - 4261412864) / 4096) with 8192. change (u32 (0 - 4261412864) mod 4096) with 0.
  change (2147483648 / 4096) with (2 ^ 19). change ((2147483648 + 1048576) / 4096) with (2 ^ 19 + 256). change (4261412864 / 4096) with (2 ^ 20 - 8192).
  change (1048576 mod 4096) with 0. change (0 mod 4096) with 0. change (2147483648 mod 4096) with 0. change ((2147483648 + 1048576) mod 4096) with 0.
  change (4261412864 mod 4096) with 0. rewrite Hm. lia.
Qed.

(** The new directory, empty. *)
Lemma fresh_dir k p l :
  kinv kend k (p :: l) →
  page_ok p ∧ p ≠ 0 ∧ ∃ k1 k2, kalloc k = Ok p k1 ∧ set_mem (memset p 0 (Z.to_nat KPGSIZE)) k1 = Ok tt k2 ∧ us k2 l p ∅ ∧
    (∀ n, ent (km_mem k2) ∅ n = 0) ∧ outside [p] (km_mem k) (km_mem k2).
Proof.
  intros K. destruct (kalloc_spec kend k (p :: l) K) as (k1 & H1 & K1 & Hm & _). simpl in H1, K1.
  assert (page_ok p) as Hok by (eapply (free_list_pages kend); [apply K|apply elem_of_cons; by left]).
  destruct (page_V2P kend p Hok) as (_ & _ & _ & Hp0 & _). pose proof (ki_nodup _ _ _ K) as [Hpl Hnd]%NoDup_cons.
  pose proof (clear_page kend p (km_mem k) Hok) as Hf. split_and!; [done|lia|]. set (m := memset p 0 (Z.to_nat KPGSIZE) (km_mem k)) in *.
  exists k1, (with_mem m k1). split; [done|]. split; [unfold set_mem, modify, with_mem; by rewrite Hm|]. clearbody m.
  assert (∀ n, ent m ∅ n = 0) as He by (intros n; unfold ent; by rewrite lookup_empty).
  assert (upages (ent m ∅) = []) as Eu by (apply upages_none; intros n _; by rewrite He).
  split_and!; [|done|].
  - constructor; [constructor|unfold pool; cbn [km_mem with_mem]; rewrite Eu|cbn [km_mem with_mem]; rewrite Eu; constructor].
    + apply kinv_mem; [done|]. intros a x Ha Hx. rewrite Hm. eapply filled_out; [exact Hf|].
      eapply (other_page kend a p); [eapply (Forall_forall page_ok), Ha; by eapply kinv_pages|done| |done]. intros ->. exact (Hpl Ha).
    + constructor; [done|by intros i t; rewrite lookup_empty| |by intros i j t; rewrite lookup_empty].
      intros i Hi _. cbn [km_mem with_mem]. by rewrite (load_zero kend (km_mem k) _ p i Hok Hi Hf).
    + intros q [->|[i Hi]]%pt_pages_spec; [done|]. by rewrite lookup_empty in Hi.
    + cbn [app]. unfold pt_pages. rewrite map_to_list_empty. apply NoDup_cons. split; [exact Hpl|exact Hnd].
  - intros x Hx. eapply filled_out; [exact Hf|]. apply Hx. by apply list_elem_of_singleton.
Qed.
(** A new address space with the kernel's mappings, or none and nothing lost. *)
Definition kernel_space k d T : Prop := ∀ n, ent (km_mem k) T n = kent (kmap kdata) (λ _, 0) n.
Lemma setupkvm_spec k l :
  kinv kend k l →
  ∃ r k' l', setupkvm kend kdata k = Ok r k' ∧ outside l (km_mem k) (km_mem k') ∧
    ((r = 0 ∧ kinv kend k' l' ∧ l' ≡ₚ l ∧ Z.of_nat (length l) ≤ 1025) ∨ (r ≠ 0 ∧ ∃ T, us k' l' r T ∧ pool k' l' r T ≡ₚ l ∧ kernel_space k' r T)).
Proof.
  intros K. unfold setupkvm. destruct l as [|p l].
  { destruct (kalloc_spec kend k [] K) as (k1 & H1 & K1 & Hm & _). exists 0, k1, []. rewrite (bind_run _ _ _ _ _ H1). rewrite Z.eqb_refl.
    split_and!; [done|by intros x _; rewrite Hm|]. left. split_and!; [done|done|done|cbn; lia]. }
  destruct (fresh_dir k p l K) as (Hok & Hp0 & k1 & k2 & H1 & H2 & U2 & He2 & Ho2).
  rewrite (bind_run _ _ _ _ _ H1), (proj2 (Z.eqb_neq p 0) Hp0), (bind_run _ _ _ _ _ H2). change (DEVSPACE <? P2V PHYSTOP) with false. cbv iota.
  destruct (map_kernel_spec (kmap kdata) UPAGES k2 l p ∅ (us_vm _ _ _ _ _ U2) kernel_map_ok) as (ok & k3 & l3 & T3 & H3 & S3 & Hb3 & Hk3 & Hl3);
    [done|intros n _; by rewrite He2|].
  rewrite (bind_run _ _ _ _ _ H3).
  assert (upages (ent (km_mem k3) T3) = []) as Eu by (apply upages_none; intros n Hn; rewrite Hb3 by lia; by rewrite He2).
  assert (pool k3 l3 p T3 ≡ₚ p :: l) as Hpool.
  { unfold pool. rewrite Eu. cbn [app]. rewrite (vs_perm _ _ _ _ _ _ _ _ S3). unfold pt_pages. by rewrite map_to_list_empty. }
  assert (us k3 l3 p T3) as U3.
  { constructor; [apply S3|rewrite Hpool; apply (ki_nodup _ _ _ K)|rewrite Eu; constructor]. }
  assert (outside (p :: l) (km_mem k) (km_mem k3)) as Ho3.
  { eapply outside_trans; [eapply outside_mono; [|exact Ho2]; intros q ->%list_elem_of_singleton; apply elem_of_cons; by left|].
    eapply outside_mono; [|apply S3]. unfold pt_pages. by rewrite map_to_list_empty. }
  destruct ok.
  - exists p, k3, l3. split_and!; [done|done|]. right. split; [done|]. exists T3. split_and!; [done|done|].
    intros n. rewrite Hk3 by done. apply kent_ext. apply He2.
  - destruct (freevm_spec kend Hkend k3 l3 p T3 U3) as (k4 & l4 & H4 & K4 & Hl4 & Ho4). exists 0, k4, l4.
    rewrite (bind_run _ _ _ _ _ H4). split_and!; [done| |left; split_and!; [done|done|by rewrite Hl4|]]; last first.
    { rewrite <- Hpool, (Hl3 eq_refl) in *. pose proof (pool_full kend 0 k3 p T3 U3 ltac:(lia)) as Hf. apply Hf. intros n Hn. rewrite Hb3 by lia. by rewrite He2. }
    eapply outside_trans; [exact Ho3|]. eapply outside_mono; [|exact Ho4]. intros q. by rewrite Hpool.
Qed.
End copy.

(** ** copyuvm *)
Section child.
Context (kend : Z).
Abbreviation page_ok := (page_ok kend).
Abbreviation vm := (vm kend).
Abbreviation us := (us kend).
Implicit Types (m : mem) (d t p : Z) (T : gmap Z Z) (k : kmem) (l : list Z).
(** Page [n] of the space [T] in [k] is a copy of page [n] of [T0] in [k0]: the same
    flags, the same bytes, another page. *)
Definition copy_of k0 T0 k T (n : Z) : Prop :=
  let e0 := ent (km_mem k0) T0 n in
  ∃ p, page_ok p ∧ ent (km_mem k) T n = mk_pte (V2P p) (PTE_FLAGS e0) ∧
    ∀ i, 0 ≤ i < 4096 → km_mem k (p + i) = km_mem k0 (upage e0 + i).
(** The parent in [k0] is apart from the child's pages and unchanged in [k]. *)
Record parent k0 d0 T0 k l d T : Prop := {
  pa_pt : pt kend (km_mem k0) d0 T0;
  pa_ok q : q ∈ upages (ent (km_mem k0) T0) ++ pt_pages d0 T0 → page_ok q ∧ q ∉ pool k l d T;
  pa_mem q x : q ∈ upages (ent (km_mem k0) T0) ++ pt_pages d0 T0 → in_page q x → km_mem k x = km_mem k0 x }.
Lemma parent_vm k0 d0 T0 k l d T : us k l d T → parent k0 d0 T0 k l d T → vm k l d0 T0 ∧ ∀ n, ent (km_mem k) T0 n = ent (km_mem k0) T0 n.
Proof.
  intros U []. assert (∀ q, q ∈ pt_pages d0 T0 → q ∈ upages (ent (km_mem k0) T0) ++ pt_pages d0 T0) as Hin by (intros q Hq; apply elem_of_app; by right).
  split.
  - constructor; [apply U|eapply pt_frame; [exact pa_pt0|]; intros x; apply pa_mem0, Hin, pt_pages_spec; by left|].
    intros q Hq Hl. destruct (pa_ok0 q (Hin q Hq)) as [_ Hn]. apply Hn. unfold pool. rewrite !elem_of_app. tauto.
  - intros n. eapply ent_frame; [exact pa_pt0|]. intros q x Hq. by apply pa_mem0, Hin.
Qed.
Lemma parent_step k0 d0 T0 k l d T k' l' T' :
  parent k0 d0 T0 k l d T → Forall page_ok (pt_pages d T ++ l) → outside (pt_pages d T ++ l) (km_mem k) (km_mem k') →
  pool k' l' d T' ≡ₚ pool k l d T → parent k0 d0 T0 k' l' d T'.
Proof.
  intros [] Hok Ho Hp. constructor; [done| |].
  - intros q Hq. destruct (pa_ok0 q Hq) as [? Hn]. split; [done|]. by rewrite Hp.
  - intros q x Hq Hx. rewrite <- (pa_mem0 q x Hq Hx). destruct (pa_ok0 q Hq) as [Hqok Hn].
    eapply (outside_page kend); [exact Ho|exact Hqok|exact Hok| |exact Hx]. intros Hi. apply Hn. unfold pool. apply elem_of_app. by right.
Qed.
Lemma copy_page_bytes p src m : page_ok p → page_ok src → copied p src (Z.to_nat KPGSIZE) m (memmove p src (Z.to_nat KPGSIZE) m).
Proof.
  intros Hp Hs. destruct (page_V2P kend p Hp) as (_ & _ & _ & ? & ?). destruct (page_V2P kend src Hs) as (_ & _ & _ & ? & ?).
  apply memmove_copied; unfold KPGSIZE; lia.
Qed.
Lemma copied_outside p src m m' : copied p src (Z.to_nat KPGSIZE) m m' → outside [p] m m'.
Proof.
  intros Hc x Hx. rewrite (Hc x), decide_False; [done|]. rewrite Z2Nat.id by done. apply (Hx p). by apply list_elem_of_singleton.
Qed.
(** The parent's entry for page [n0], as the loop reads it. *)
Lemma parent_entry n0 k0 d0 T0 k l d T :
  us k l d T → parent k0 d0 T0 k l d T → 0 ≤ n0 < UPAGES → present (ent (km_mem k0) T0 n0) = true →
  ∃ a, walkpgdir d0 (n0 * 4096) false k = Ok a k ∧ a ≠ 0 ∧ read_word a k = Ok (ent (km_mem k0) T0 n0) k ∧
    (upage (ent (km_mem k0) T0 n0) ∈ upages (ent (km_mem k0) T0) ++ pt_pages d0 T0) ∧ page_ok (upage (ent (km_mem k0) T0 n0)).
Proof.
  intros U Pa Hn Hpr. assert (n0 * 4096 / 4096 = n0) as En by (apply Z.div_mul; lia).
  destruct (parent_vm _ _ _ _ _ _ _ U Pa) as [V0 He0]. set (e0 := ent (km_mem k0) T0 n0) in *.
  destruct (T0 !! (n0 / 1024)) as [t|] eqn:Et.
  2: { exfalso. unfold e0, ent in Hpr. rewrite Et in Hpr. done. }
  pose proof (walk_hit kend k l d0 T0 (n0 * 4096) t false V0 ltac:(unfold UPAGES in *; lia) ltac:(by rewrite En)) as Hw. rewrite En in Hw.
  destruct (ent_at_intro kend _ _ _ _ _ _ V0 Et) as (_ & _ & _ & Hne).
  assert (upage e0 ∈ upages (ent (km_mem k0) T0) ++ pt_pages d0 T0) as Hup0.
  { apply elem_of_app. left. apply upages_spec. exists n0. split_and!; [lia|lia|exact Hpr|reflexivity]. }
  destruct (pa_ok _ _ _ _ _ _ _ Pa _ Hup0) as [Hsok _].
  exists (t + 4 * (n0 mod 1024)). split; [exact Hw|]. split; [exact Hne|]. split; [|done].
  unfold e0. rewrite <- He0. unfold read_word, gets, ent. by rewrite Et.
Qed.
Definition copy_post n0 sz k0 T0 k l d T (o : outcome kmem bool) : Prop :=
  ∃ ok k' l' T', o = Ok ok k' ∧ us k' l' d T' ∧ pool k' l' d T' ≡ₚ pool k l d T ∧
    outside (pt_pages d T ++ l) (km_mem k) (km_mem k') ∧
    (∀ n, ¬ (n0 ≤ n < (sz + 4095) / 4096) → ent (km_mem k') T' n = ent (km_mem k) T n) ∧
    (ok = true → ∀ n, n0 ≤ n < (sz + 4095) / 4096 → copy_of k0 T0 k' T' n).
(** A page without a table is given back. *)
Lemma copy_no_table n0 sz p g perm k0 T0 k l d T k3 T3 :
  page_ok p → installed kend g n0 perm p (-1) k l d T k3 [] T3 → n0 < (sz + 4095) / 4096 →
  copy_post n0 sz k0 T0 k (p :: l) d T ((kfree kend p ;; mret false) k3).
Proof.
  intros Hok [U3 _ O3 _ [(? & _)|(_ & P3 & Hnp & _ & E3)]] Hn; [done|].
  destruct (free_page kend k3 [] d T3 p U3 Hok Hnp) as (k4 & H4 & U4 & P4 & E4 & O4). rewrite (bind_run _ _ _ _ _ H4).
  exists false, k4, [p], T3. split; [done|]. split; [exact U4|]. split; [by rewrite P4, P3|]. split; [|split; [|done]].
  - eapply outside_trans; [exact O3|]. eapply outside_mono; [|exact O4]. intros q ->%list_elem_of_singleton. apply elem_of_app. right. apply elem_of_cons. by left.
  - intros n _. by rewrite E4, E3.
Qed.
(** The page mapped at [n0] stays a copy of the parent's while the loop goes on. *)
Lemma copied_page n0 p r k0 d0 T0 k l d T k3 l3 T3 k4 T4 :
  let e0 := ent (km_mem k0) T0 n0 in
  us k (p :: l) d T → parent k0 d0 T0 k (p :: l) d T → page_ok p → page_ok (upage e0) →
  upage e0 ∈ upages (ent (km_mem k0) T0) ++ pt_pages d0 T0 →
  installed kend (memmove p (upage e0) (Z.to_nat KPGSIZE)) n0 (PTE_FLAGS e0) p r k l d T k3 l3 T3 → p ∉ pt_pages d T3 ++ l3 →
  ent (km_mem k3) T3 n0 = mk_pte (V2P p) (PTE_FLAGS e0) → ent (km_mem k4) T4 n0 = ent (km_mem k3) T3 n0 →
  outside (pt_pages d T3 ++ l3) (km_mem k3) (km_mem k4) → copy_of k0 T0 k4 T4 n0.
Proof.
  intros e0 U Pa Hok Hsok Hup0 I Hp3 E3 E4 O4. pose proof (it_us _ _ _ _ _ _ _ _ _ _ _ _ _ I) as U3.
  exists p. split; [exact Hok|]. split; [by rewrite E4|]. intros i Hi. assert (in_page p (p + i)) as Hx by (unfold in_page, KPGSIZE; lia).
  rewrite (outside_page kend _ _ _ p (p + i) O4 Hok (vm_pages_ok kend _ _ _ _ (us_vm _ _ _ _ _ U3)) Hp3 Hx).
  rewrite (it_fill _ _ _ _ _ _ _ _ _ _ _ _ _ I _ Hx), (copy_page_bytes p (upage e0) (km_mem k) Hok Hsok (p + i)).
  rewrite decide_True by (rewrite Z2Nat.id by done; exact Hx). replace (upage e0 + (p + i - p)) with (upage e0 + i) by lia.
  fold e0. apply (pa_mem _ _ _ _ _ _ _ Pa (upage e0)); [exact Hup0|unfold in_page, KPGSIZE; lia].
Qed.
Lemma copy_loop fuel n0 sz k0 d0 T0 k l d T :
  us k l d T → parent k0 d0 T0 k l d T → 0 ≤ n0 ≤ UPAGES → 0 ≤ sz ≤ KERNBASE → (0 < fuel)%nat → (sz + 4095) / 4096 - n0 < Z.of_nat fuel →
  (∀ n, n0 ≤ n < (sz + 4095) / 4096 → present (ent (km_mem k0) T0 n) = true ∧ present (ent (km_mem k) T n) = false) →
  copy_post n0 sz k0 T0 k l d T (copyuvm_loop kend fuel d0 d (n0 * 4096) sz k).
Proof.
  revert n0 k l T. induction fuel as [|fuel IH]; intros n0 k l T U Pa Hn0 Hsz Hf0 Hf Hpre; [lia|]. cbn [copyuvm_loop].
  pose proof (pages_up sz n0) as Hup.
  destruct (Z.ltb_spec (n0 * 4096) sz) as [Hlt|Hge].
  2: { exists true, k, l, T. split; [done|]. split; [exact U|]. split; [done|]. split; [apply outside_refl|]. split; [done|lia]. }
  assert (n0 < UPAGES) as Hnr by (unfold UPAGES, KERNBASE in *; lia). destruct (Hpre n0 ltac:(lia)) as [Hpr Hab].
  destruct (parent_entry n0 k0 d0 T0 k l d T U Pa ltac:(lia) Hpr) as (a & Hw & Hne & Hr & Hup0 & Hsok).
  set (e0 := ent (km_mem k0) T0 n0) in *.
  rewrite (bind_run _ _ _ _ _ Hw), (proj2 (Z.eqb_neq _ 0) Hne), (bind_run _ _ _ _ _ Hr), Hpr. cbn [negb]. fold (upage e0).
  assert (0 ≤ PTE_FLAGS e0 < 4096) as Hfl by (rewrite PTE_FLAGS_mod; apply Z.mod_pos_bound; lia).
  destruct l as [|p l].
  { destruct (kalloc_none kend k d T U) as (k1 & H1 & U1 & P1 & Hm1). rewrite (bind_run _ _ _ _ _ H1), Z.eqb_refl.
    exists false, k1, [], T. split; [done|]. split; [exact U1|]. split; [exact P1|]. rewrite Hm1. split; [apply outside_refl|]. done. }
  assert (page_ok p) as Hokp.
  { eapply (free_list_pages kend); [apply (vm_kinv _ _ _ _ _ (us_vm _ _ _ _ _ U))|apply elem_of_cons; by left]. }
  destruct (install_page kend k p l d T n0 (memmove p (upage e0) (Z.to_nat KPGSIZE)) (PTE_FLAGS e0) U
    (copied_outside _ _ _ _ (copy_page_bytes p (upage e0) (km_mem k) Hokp Hsok)) ltac:(lia) Hab Hfl)
    as (Hok & Hp0 & k1 & k2 & r & k3 & l3 & T3 & H1 & H2 & H3 & I).
  rewrite (bind_run _ _ _ _ _ H1), (proj2 (Z.eqb_neq p 0) Hp0), (bind_run _ _ _ _ _ H2), (bind_run _ _ _ _ _ H3). clear H1 H2 H3.
  pose proof I as [U3 Hsub O3 _ [(-> & P3 & Hp3 & E3)|(-> & _ & _ & -> & _)]]; cbn [Z.ltb Z.compare];
    [|apply (copy_no_table n0 sz p _ _ k0 T0 k l d T k3 T3 Hok I); lia].
  unfold KPGSIZE at 1. rewrite u32_small by (unfold UPAGES in *; lia). replace (n0 * 4096 + 4096) with ((n0 + 1) * 4096) by lia.
  destruct (IH (n0 + 1) k3 l3 T3 U3) as (ok & k4 & l4 & T4 & H4 & U4 & P4 & O4 & E4 & C4); [|lia|lia|lia|lia| |].
  { eapply parent_step; [exact Pa|eapply (vm_pages_ok kend); apply U|exact O3|exact P3]. }
  { intros n Hn. destruct (Hpre n ltac:(lia)) as [? ?]. split; [done|]. by rewrite E3, decide_False by lia. }
  exists ok, k4, l4, T4. split; [exact H4|]. split; [exact U4|]. split; [by rewrite P4|]. split; [eapply outside_trans; [exact O3|]; by eapply outside_mono|]. split.
  - intros n Hn. rewrite E4, E3, decide_False by lia. done.
  - intros Hokt n Hn. destruct (decide (n = n0)) as [->|]; [|apply C4; [done|lia]].
    eapply copied_page; [exact U|exact Pa|exact Hok|exact Hsok|exact Hup0|exact I|exact Hp3|by rewrite E3, decide_True|apply E4; lia|exact O4].
Qed.
End child.
