(* ===== verification/VmOut.v ===== *)
(** * Copying into user memory (uva2ka and copyout of vm.c)

    Virtual address [a] of the space [T] is byte [trans m T a] of memory. *)

From S2P Require Import Prelude Mem Kalloc Vm VmRep VmMap VmUser VmAlloc.

Definition trans (m : mem) (T : gmap Z Z) (a : Z) : Z := upage (ent m T (a / 4096)) + a mod 4096.
(** The page of [a] is present and open to users. *)
Definition user_ok (m : mem) (T : gmap Z Z) (a : Z) : Prop :=
  present (ent m T (a / 4096)) = true ∧ Z.land (ent m T (a / 4096)) PTE_U ≠ 0.

Lemma upages_inj e n j :
  NoDup (upages e) → 0 ≤ n < UPAGES → 0 ≤ j < UPAGES → present (e n) = true → present (e j) = true → upage (e n) = upage (e j) → n = j.
Proof.
  intros N Hn Hj Hpn Hpj E. destruct (decide (n = j)) as [|Hne]; [done|]. exfalso.
  set (e' := λ i, if decide (i = n) then 0 else e i).
  assert (upages e ≡ₚ upage (e n) :: upages e') as Hu.
  { apply (upages_add e' e n Hn); [unfold e'; by rewrite decide_True|done|]. intros i _ Hi. unfold upage_of, e'. by rewrite decide_False. }
  rewrite Hu in N. apply NoDup_cons in N as [N _]. apply N. apply upages_spec. exists j. unfold e'. rewrite decide_False by done. done.
Qed.

Section out.
Context (kend : Z).
Hypothesis Hkend : KERNBASE < kend.
Abbreviation page_ok := (page_ok kend).
Abbreviation us := (us kend).
Implicit Types (m : mem) (d t p : Z) (T : gmap Z Z) (k : kmem) (l : list Z).

(** Writing into a user page. *)
Lemma us_write k l d T n m' :
  us k l d T → 0 ≤ n < UPAGES → present (ent (km_mem k) T n) = true → outside [upage (ent (km_mem k) T n)] (km_mem k) m' →
  us (with_mem m' k) l d T ∧ ∀ j, ent m' T j = ent (km_mem k) T j.
Proof.
  intros U Hn Hp Ho. destruct (us_page kend Hkend k l d T n U Hn Hp) as (Hok & Hl & Hpt & _). pose proof U as [[K P Hs] N O].
  assert (∀ q x, page_ok q → q ≠ upage (ent (km_mem k) T n) → in_page q x → m' x = km_mem k x) as Hq.
  { intros q x Hq Hne. eapply (outside_page kend); [exact Ho|done|by apply Forall_singleton|by rewrite list_elem_of_singleton]. }
  assert (∀ j, ent m' T j = ent (km_mem k) T j) as He.
  { intros j. eapply (ent_frame kend); [exact P|]. intros q x Hin. apply Hq; [by eapply pt_pages_ok|]. by intros ->. }
  split; [|done]. eapply (us_same kend k l d T (with_mem m' k) l T U); [|exact He|reflexivity]. constructor; [|eapply pt_frame; [exact P|]|done].
  - apply kinv_mem; [done|]. intros a x Ha. apply Hq; [eapply (Forall_forall page_ok), Ha; by eapply kinv_pages|]. by intros ->.
  - intros x. apply Hq; [apply P|]. intros ->. apply Hpt, pt_pages_spec. by left.
Qed.

Lemma uva2ka_spec k l d T n t :
  us k l d T → 0 ≤ n < UPAGES → T !! (n / 1024) = Some t →
  uva2ka d (n * 4096) k = Ok (if decide (user_ok (km_mem k) T (n * 4096)) then upage (ent (km_mem k) T n) else 0) k.
Proof.
  intros U Hn Et. pose proof (us_vm _ _ _ _ _ U) as V. assert (n * 4096 / 4096 = n) as En by (apply Z.div_mul; lia).
  pose proof (walk_hit kend k l d T (n * 4096) t false V ltac:(unfold UPAGES in *; lia) ltac:(by rewrite En)) as Hw. rewrite En in Hw.
  unfold uva2ka. rewrite (bind_run _ _ _ _ _ Hw). destruct (ent_at_intro kend _ _ _ _ _ _ V Et) as (_ & _ & _ & Hne).
  rewrite (proj2 (Z.eqb_neq _ 0)) by exact Hne.
  assert (read_word (t + 4 * (n mod 1024)) k = Ok (ent (km_mem k) T n) k) as Hr by (unfold read_word, gets, ent; by rewrite Et).
  rewrite (bind_run _ _ _ _ _ Hr). unfold user_ok. rewrite En. destruct (present (ent (km_mem k) T n)); cbn [negb].
  - destruct (Z.eqb_spec (Z.land (ent (km_mem k) T n) PTE_U) 0) as [E|E]; [by rewrite decide_False by (by intros [_ ?])|by rewrite decide_True].
  - by rewrite decide_False by (by intros [? _]).
Qed.

(** [len] bytes from [buf] are at [va]; all other bytes are as before. *)
Definition copied_out (k k' : kmem) T (va buf len : Z) : Prop :=
  (∀ i, 0 ≤ i < len → km_mem k' (trans (km_mem k) T (va + i)) = km_mem k (buf + i)) ∧
  (∀ x, (∀ i, 0 ≤ i < len → x ≠ trans (km_mem k) T (va + i)) → km_mem k' x = km_mem k x).
(** The source is outside user memory. *)
Definition kernel_src k T (buf len : Z) : Prop :=
  0 ≤ buf ∧ buf + len < 2 ^ 32 ∧ ∀ i p, 0 ≤ i < len → p ∈ upages (ent (km_mem k) T) → ¬ in_page p (buf + i).
Lemma trans_inj k l d T a b :
  us k l d T → 0 ≤ a < KERNBASE → 0 ≤ b < KERNBASE → present (ent (km_mem k) T (a / 4096)) = true → present (ent (km_mem k) T (b / 4096)) = true →
  trans (km_mem k) T a = trans (km_mem k) T b → a = b.
Proof.
  intros U Ha Hb Hpa Hpb E. assert (∀ c, 0 ≤ c < KERNBASE → 0 ≤ c / 4096 < UPAGES) as Hr.
  { intros c Hc. unfold UPAGES, KERNBASE in *. split; [apply Z.div_pos; lia|apply Z.div_lt_upper_bound; lia]. }
  unfold trans in E. pose proof (Z.mod_pos_bound a 4096). pose proof (Z.mod_pos_bound b 4096).
  destruct (us_page kend Hkend k l d T _ U (Hr a Ha) Hpa) as (Ha1 & _). destruct (us_page kend Hkend k l d T _ U (Hr b Hb) Hpb) as (Hb1 & _).
  assert (upage (ent (km_mem k) T (a / 4096)) = upage (ent (km_mem k) T (b / 4096))) as Ep.
  { eapply (pages_disjoint kend _ _ (upage (ent (km_mem k) T (a / 4096)) + a mod 4096)); [done|done|..]; unfold in_page, KPGSIZE; lia. }
  assert (a / 4096 = b / 4096) as Ed.
  { eapply upages_inj; [|by apply Hr|by apply Hr|done|done|done]. pose proof (us_nodup _ _ _ _ _ U) as N. unfold pool in N. by apply NoDup_app in N as [? _]. }
  rewrite (Z.div_mod a 4096), (Z.div_mod b 4096) by lia. lia.
Qed.
(** The bytes of a page from [va] on. *)
Lemma page_bytes va :
  0 ≤ va → let n := va / 4096 in let off := va - n * 4096 in
  0 ≤ off < 4096 ∧ ∀ i, 0 ≤ i → off + i < 4096 → (va + i) / 4096 = n ∧ (va + i) mod 4096 = off + i.
Proof.
  intros Hva n off. assert (off = va mod 4096) as Eoff by (unfold off, n; pose proof (Z.div_mod va 4096); lia).
  split; [rewrite Eoff; apply Z.mod_pos_bound; lia|]. intros i Hi1 Hi2. assert (va + i = 4096 * n + (off + i)) as E by (unfold off; lia).
  assert (0 ≤ off) by (rewrite Eoff; apply Z.mod_pos_bound; lia).
  split; [symmetry; apply (Z.div_unique _ _ _ (off + i)); lia|symmetry; apply (Z.mod_unique _ _ n); lia].
Qed.
(** [c] bytes copied to [a], where the user sees [va], and the rest behind them. *)
Lemma copied_out_join k l d T m1 k' va va' buf len c a :
  us k l d T → 0 ≤ va → va + len ≤ KERNBASE → (∀ i, 0 ≤ i < len → user_ok (km_mem k) T (va + i)) → 0 < c ≤ len →
  copied a buf (Z.to_nat c) (km_mem k) m1 → (∀ x, trans m1 T x = trans (km_mem k) T x) →
  (∀ i, 0 ≤ i < c → trans (km_mem k) T (va + i) = a + i) → (∀ i, 0 ≤ i < len → m1 (buf + i) = km_mem k (buf + i)) →
  (∀ i, 0 ≤ i < len - c → va' + i = va + (c + i)) →
  copied_out (with_mem m1 k) k' T va' (buf + c) (len - c) → copied_out k k' T va buf len.
Proof.
  intros U Hva Hmax Hok Hc Hcp Htr Htc Hbuf Hva' [C1 C2]. cbn [km_mem with_mem] in *. split.
  - intros i Hi. destruct (decide (i < c)) as [Hic|Hic].
    + rewrite C2.
      * rewrite Htc by lia. rewrite (Hcp (a + i)), decide_True by lia. f_equal. lia.
      * intros j Hj E. rewrite Htr, Hva' in E by lia. apply (trans_inj k l d T) in E; [lia|done|lia|lia|apply Hok; lia|apply Hok; lia].
    + replace (va + i) with (va' + (i - c)) by (rewrite Hva' by lia; lia). rewrite <- Htr, C1 by lia.
      rewrite <- Hbuf by lia. f_equal. lia.
  - intros x Hx. rewrite C2.
    + rewrite (Hcp x), decide_False; [done|]. intros Hr. apply (Hx (x - a)); [lia|]. rewrite Htc by lia. lia.
    + intros i Hi. rewrite Htr, Hva' by lia. apply Hx. lia.
Qed.
Lemma copyout_loop_spec fuel k l d T va buf len :
  us k l d T → 0 ≤ va → 0 ≤ len → va + len ≤ KERNBASE → (Z.to_nat len < fuel)%nat → kernel_src k T buf len →
  (∀ i, 0 ≤ i < len → user_ok (km_mem k) T (va + i)) →
  ∃ k', copyout_loop fuel d va buf len k = Ok 0 k' ∧ us k' l d T ∧ copied_out k k' T va buf len ∧ ∀ n, ent (km_mem k') T n = ent (km_mem k) T n.
Proof.
  revert k va buf len. induction fuel as [|fuel IH]; intros k va buf len U Hva Hlen Hmax Hf (Hb0 & Hb1 & Hsrc) Hok; [lia|]. cbn [copyout_loop].
  destruct (Z.ltb_spec 0 len) as [Hpos|Hz].
  2: { exists k. split; [done|]. split; [exact U|]. split; [|done]. split; [lia|done]. }
  rewrite PGROUNDDOWN_div. set (n := va / 4096). set (off := va - n * 4096).
  destruct (page_bytes va Hva) as [Hmod Hdm]. fold n off in Hmod, Hdm.
  assert (0 ≤ n < UPAGES) as Hn by (unfold n, UPAGES, KERNBASE in *; split; [apply Z.div_pos; lia|apply Z.div_lt_upper_bound; lia]).
  pose proof (Hok 0 ltac:(lia)) as Hok0. rewrite Z.add_0_r in Hok0. fold n in Hok0.
  destruct (T !! (n / 1024)) as [t|] eqn:Et.
  2: { exfalso. destruct Hok0 as [Hp _]. fold n in Hp. unfold ent in Hp. by rewrite Et in Hp. }
  pose proof (uva2ka_spec k l d T n t U Hn Et) as Hu. assert (user_ok (km_mem k) T (n * 4096)) as Hok1.
  { unfold user_ok in *. rewrite Z.div_mul by lia. exact Hok0. }
  rewrite decide_True in Hu by exact Hok1. rewrite (bind_run _ _ _ _ _ Hu). destruct Hok0 as [Hp0 _]. fold n in Hp0.
  destruct (us_page kend Hkend k l d T n U Hn Hp0) as (Hpok & _). destruct (page_V2P kend _ Hpok) as (_ & _ & _ & Hp1 & Hp2).
  set (p := upage (ent (km_mem k) T n)) in *. rewrite (proj2 (Z.eqb_neq p 0)) by lia. change KPGSIZE with 4096.
  fold off. set (c := Z.min (4096 - off) len). assert (0 < c ≤ len ∧ off + c ≤ 4096) as [Hc1 Hc2] by lia.
  rewrite !u32_small by (unfold UPAGES, KERNBASE in *; lia).
  set (m1 := memmove (p + off) buf (Z.to_nat c) (km_mem k)).
  assert (copied (p + off) buf (Z.to_nat c) (km_mem k) m1) as Hcp by (apply memmove_copied; lia).
  assert (outside [p] (km_mem k) m1) as Ho1.
  { intros x Hx. rewrite (Hcp x), decide_False; [done|]. specialize (Hx p ltac:(by apply list_elem_of_singleton)). unfold in_page, KPGSIZE in Hx. lia. }
  destruct (us_write k l d T n m1 U Hn Hp0 Ho1) as [U1 He1].
  rewrite (bind_run _ _ tt k (with_mem m1 k)) by done.
  assert (∀ a, trans m1 T a = trans (km_mem k) T a) as Htr by (intros a; unfold trans; by rewrite He1).
  assert (∀ i, 0 ≤ i < c → trans (km_mem k) T (va + i) = p + off + i) as Htc.
  { intros i Hi. destruct (Hdm i ltac:(lia) ltac:(lia)) as [E1 E2]. unfold trans. rewrite E1, E2. fold p. lia. }
  assert (p ∈ upages (ent (km_mem k) T)) as Hpin by (apply upages_spec; exists n; split_and!; [lia|lia|done|done]).
  assert (∀ i, 0 ≤ i < len → m1 (buf + i) = km_mem k (buf + i)) as Hbuf.
  { intros i Hi. apply Ho1. intros q ->%list_elem_of_singleton. by apply Hsrc. }
  destruct (IH (with_mem m1 k) ((n + 1) * 4096) (buf + c) (len - c) U1 ltac:(lia) ltac:(lia)) as (k' & H' & U' & C & E'); [|lia| | |].
  { destruct (decide (c = len)); [unfold UPAGES, KERNBASE in *; lia|]. assert (c = 4096 - off) by lia. unfold off in *. lia. }
  { split_and!; [lia|lia|]. cbn [km_mem with_mem]. intros i q Hi Hq. rewrite <- Z.add_assoc. apply Hsrc; [lia|].
    erewrite <- upages_ext; [exact Hq|]. intros j _. unfold upage_of. by rewrite He1. }
  { intros i Hi. assert (c = 4096 - off) by lia. specialize (Hok (c + i) ltac:(lia)). unfold user_ok in *. cbn [km_mem with_mem]. rewrite !He1.
    replace ((n + 1) * 4096 + i) with (va + (c + i)) by (unfold off in *; lia). exact Hok. }
  cbn [km_mem with_mem] in E'. exists k'. replace (n * 4096 + 4096) with ((n + 1) * 4096) by lia. split; [exact H'|]. split; [exact U'|].
  split; [|intros j; by rewrite E', He1].
  apply (copied_out_join k l d T m1 k' va ((n + 1) * 4096) buf len c (p + off)); [done|lia|lia|done|lia|done|done|done|done| |exact C].
  intros i Hi. assert (c = 4096 - off) by lia. unfold off in *. lia.
Qed.
End out.
