(* ===== verification/VmProps.v ===== *)
(** * What vm.c guarantees

    Growing, copying, writing to and freeing an address space; instances. *)

From S2P Require Import Prelude Mem Kalloc Vm VmRep VmMap VmUser VmAlloc VmCopy VmOut.

Section props.
Context (kend kdata : Z).
Hypothesis Hkend : KERNBASE < kend.
Abbreviation page_ok := (page_ok kend).
Abbreviation us := (us kend).
Implicit Types (m : mem) (d t p : Z) (T : gmap Z Z) (k : kmem) (l : list Z).

(** An address space whose pages did not change while the free list lost pages. *)
Lemma parent_us k l d T k' l' :
  us k l d T → kinv kend k' l' → l' ⊆ l →
  (∀ q x, q ∈ upages (ent (km_mem k) T) ++ pt_pages d T → in_page q x → km_mem k' x = km_mem k x) → us k' l' d T.
Proof.
  intros [[K P Hs] N O] K' Hl Hm. assert (∀ n, ent (km_mem k') T n = ent (km_mem k) T n) as He.
  { intros n. eapply (ent_frame kend); [exact P|]. intros q x Hq. apply Hm. apply elem_of_app. by right. }
  assert (upages (ent (km_mem k') T) = upages (ent (km_mem k) T)) as Eu by (apply upages_ext; intros n _; unfold upage_of; by rewrite He).
  constructor; [constructor; [done|eapply pt_frame; [exact P|]|]| |by rewrite Eu].
  - intros x. apply Hm. apply elem_of_app. right. apply pt_pages_spec. by left.
  - intros p Hp Hl'. apply (Hs p Hp). by apply Hl.
  - unfold pool in *. rewrite Eu. rewrite app_assoc in N |- *. apply NoDup_app in N as (N1 & N2 & _). apply NoDup_app.
    split; [exact N1|]. split; [|apply (ki_nodup _ _ _ K')]. intros q Hq Hl'. apply (N2 q Hq). by apply Hl.
Qed.

(** C13: copyuvm, the copy that fork makes.  If every page of the parent below [sz]
    is present, copyuvm returns without a panic, and the parent's tables and memory
    are as they were.  Either it returns 0, and every page it took is free again; or
    it returns a new directory, all of whose pages were free, in which each page
    below [sz] has the parent's flags and the parent's bytes in a page of its own,
    no other user page is mapped, and the kernel part is the kernel's map. *)
Theorem copyuvm_copies k l d0 T0 sz :
  kdata mod 4096 = 0 → KERNLINK < kdata < KERNBASE + PHYSTOP →
  us k l d0 T0 → 0 ≤ sz ≤ KERNBASE → (∀ n, 0 ≤ n < (sz + 4095) / 4096 → present (ent (km_mem k) T0 n) = true) →
  ∃ r k' l', copyuvm kend kdata d0 sz k = Ok r k' ∧ us k' l' d0 T0 ∧
    (∀ q x, q ∈ upages (ent (km_mem k) T0) ++ pt_pages d0 T0 → in_page q x → km_mem k' x = km_mem k x) ∧
    ((r = 0 ∧ l' ≡ₚ l) ∨
     (r ≠ 0 ∧ ∃ T, us k' l' r T ∧ pool k' l' r T ≡ₚ l ∧ (∀ n, 0 ≤ n < (sz + 4095) / 4096 → copy_of kend k T0 k' T n) ∧
        (∀ n, (sz + 4095) / 4096 ≤ n < UPAGES → present (ent (km_mem k') T n) = false) ∧
        (∀ n, UPAGES ≤ n → ent (km_mem k') T n = kent (kmap kdata) (λ _, 0) n))).
Proof.
  intros Hd1 Hd2 U Hsz Hpre. pose proof U as [[K P Hs] N O]. unfold copyuvm.
  destruct (setupkvm_spec kend kdata Hkend (conj Hd1 Hd2) k l K) as (d & k1 & l1 & H1 & O1 & Hr). rewrite (bind_run _ _ _ _ _ H1).
  set (XP := upages (ent (km_mem k) T0) ++ pt_pages d0 T0) in *.
  assert (∀ q, q ∈ XP → page_ok q ∧ q ∉ l) as HXP.
  { intros q Hq. unfold pool in N. rewrite app_assoc in N. apply NoDup_app in N as (_ & N & _). split; [|by apply N].
    unfold XP in Hq. apply elem_of_app in Hq as [Hq|Hq]; [by eapply (Forall_forall page_ok), Hq|by eapply pt_pages_ok]. }
  pose proof (kinv_pages kend k l K) as Hlok.
  assert (∀ m', outside l (km_mem k) m' → ∀ q x, q ∈ XP → in_page q x → m' x = km_mem k x) as Hkeep.
  { intros m' Ho q x Hq Hx. destruct (HXP q Hq). by eapply (outside_page kend). }
  destruct Hr as [(-> & K1 & Hl1 & _)|(Hne & T1 & U1 & P1 & Ks)].
  { exists 0, k1, l1. rewrite Z.eqb_refl. split; [done|]. split; [|split; [by apply Hkeep|by left]].
    eapply parent_us; [exact U|exact K1|by rewrite Hl1|by apply Hkeep]. }
  rewrite (proj2 (Z.eqb_neq d 0) Hne). set (hi := (sz + 4095) / 4096) in *.
  assert (hi ≤ UPAGES) as Hhi by (unfold hi, UPAGES, KERNBASE in *; apply Z.lt_succ_r; apply Z.div_lt_upper_bound; lia).
  assert (parent kend k d0 T0 k1 l1 d T1) as Pa.
  { constructor; [exact P| |by apply Hkeep]. intros q Hq. destruct (HXP q Hq). split; [done|]. by rewrite P1. }
  assert (∀ n, n < UPAGES → ent (km_mem k1) T1 n = 0) as Hz.
  { intros n Hn. rewrite Ks. apply (kent_below UPAGES); [by apply kernel_map_ok|done]. }
  destruct (copy_loop kend (S NPAGES) 0 sz k d0 T0 k1 l1 d T1 U1 Pa) as (ok & k2 & l2 & T2 & H2 & U2 & P2 & O2 & E2 & C2).
  { unfold UPAGES. lia. }
  { exact Hsz. }
  { lia. }
  { fold hi. unfold NPAGES. change (2 ^ 32 / KPGSIZE) with (2 ^ 20). unfold UPAGES in Hhi. lia. }
  { intros n Hn. split; [by apply Hpre|]. by rewrite Hz by (fold hi in Hn; lia). }
  rewrite (bind_run _ _ _ _ _ H2).
  assert (outside l (km_mem k) (km_mem k2)) as Ho2.
  { eapply outside_trans; [exact O1|]. eapply outside_mono; [|exact O2]. intros q Hq. rewrite <- P1. unfold pool. apply elem_of_app. by right. }
  destruct ok.
  - exists d, k2, l2. split; [done|]. assert (l2 ⊆ l) as Hsub by (intros q Hq; rewrite <- P1, <- P2; unfold pool; rewrite !elem_of_app; tauto).
    split; [eapply parent_us; [exact U|apply U2|exact Hsub|by apply Hkeep]|]. split; [by apply Hkeep|]. right. split; [done|].
    exists T2. split; [exact U2|]. split; [by rewrite P2|]. split; [by apply C2|]. split.
    + intros n Hn. rewrite E2 by (fold hi; lia). by rewrite Hz by lia.
    + intros n Hn. rewrite E2 by (fold hi; lia). apply Ks.
  - destruct (freevm_spec kend Hkend k2 l2 d T2 U2) as (k3 & l3 & H3 & K3 & Hl3 & O3). rewrite (bind_run _ _ _ _ _ H3).
    assert (l3 ≡ₚ l) as Hl by (by rewrite Hl3, P2). exists 0, k3, l3. split; [done|].
    assert (outside l (km_mem k) (km_mem k3)) as Ho3.
    { eapply outside_trans; [exact Ho2|]. eapply outside_mono; [|exact O3]. intros q. by rewrite P2, P1. }
    split; [eapply parent_us; [exact U|exact K3|by rewrite Hl|by apply Hkeep]|]. split; [by apply Hkeep|]. by left.
Qed.

(** C24: allocuvm.  Above KERNBASE it returns 0 and below the old size the old size,
    and does nothing.  Otherwise, if the pages it should add are not mapped yet, it
    never panics and loses no page: either it returns the new size, every added page
    is mapped to a page of zeros and every other entry is as it was, or memory is
    exhausted (every page of the pool is a table, or a user page below the new size, or
    the one that could not be mapped), it returns 0 and none of those pages is mapped.  Pages in use outside
    the address space and its pages below the old size keep their bytes. *)
Theorem allocuvm_grows k l d T oldsz newsz :
  us k l d T → 0 ≤ oldsz < 2 ^ 32 - 4096 →
  (KERNBASE ≤ newsz → allocuvm kend d oldsz newsz k = Ok 0 k) ∧
  (newsz < KERNBASE → newsz < oldsz → allocuvm kend d oldsz newsz k = Ok oldsz k) ∧
  (oldsz ≤ newsz < KERNBASE →
   (∀ n, (oldsz + 4095) / 4096 ≤ n < (newsz + 4095) / 4096 → present (ent (km_mem k) T n) = false) →
   ∃ r k' l' T', allocuvm kend d oldsz newsz k = Ok r k' ∧ us k' l' d T' ∧ pool k' l' d T' ≡ₚ pool k l d T ∧
     let n0 := (oldsz + 4095) / 4096 in
     let n1 := (newsz + 4095) / 4096 in
     (∀ n, ¬ (n0 ≤ n < n1) → ent (km_mem k') T' n = ent (km_mem k) T n) ∧
     (∀ q x, page_ok q → q ∉ pt_pages d T ++ l → in_page q x → km_mem k' x = km_mem k x) ∧
     ((r = newsz ∧ ∀ n, n0 ≤ n < n1 → zero_page kend k' T' n) ∨
      (r = 0 ∧ (∀ n, n0 ≤ n < n1 → present (ent (km_mem k') T' n) = false) ∧ exhausted n1 k l d T))).
Proof.
  intros U Ho. split; [|split].
  - intros H. unfold allocuvm. by rewrite (proj2 (Z.leb_le _ _)).
  - intros H1 H2. unfold allocuvm. rewrite (proj2 (Z.leb_gt _ _)) by lia. by rewrite (proj2 (Z.ltb_lt _ _)).
  - intros Hn Habs. destruct (allocuvm_spec kend Hkend k l d T oldsz newsz U Ho Hn Habs) as (r & k' & l' & T' & H & U' & P' & _ & Hr).
    exists r, k', l', T'. split; [exact H|]. split; [exact U'|]. split; [exact P'|]. cbv zeta.
    destruct Hr as [[-> [Go Gi Gm]]|(-> & [Fo Fi Fm] & Hf)]; (split; [assumption|split; [|by (left + right)]]).
    + intros q x Hq Hn'. apply Gm; [done|done|lia].
    + intros q x Hq Hn'. apply Fm; [done|done|lia].
Qed.

(** C25: freevm gives everything back.  It never panics on a well-formed address
    space, and afterwards the free list holds, besides the pages that were free, the
    directory, every page table and every page that a user entry mapped, each once;
    no other memory is written. *)
Theorem freevm_frees_all k l d T :
  us k l d T →
  ∃ k' l', freevm kend d k = Ok tt k' ∧ kinv kend k' l' ∧ l' ≡ₚ upages (ent (km_mem k) T) ++ pt_pages d T ++ l ∧
    outside (pool k l d T) (km_mem k) (km_mem k').
Proof. intros U. exact (freevm_spec kend Hkend k l d T U). Qed.

(** copyout.  If every page of the range is present and open to users and the
    source is kernel memory, copyout returns 0, the bytes at the range are those of
    the source, and no other byte of memory changes, so that the tables are as they
    were.  If the first page is not, it returns -1 and writes nothing. *)
Theorem copyout_writes k l d T va p len :
  us k l d T → 0 ≤ va → 0 ≤ len → va + len ≤ KERNBASE →
  (kernel_src k T p len → (∀ i, 0 ≤ i < len → user_ok (km_mem k) T (va + i)) →
   ∃ k', copyout d va p len k = Ok 0 k' ∧ us k' l d T ∧ copied_out k k' T va p len ∧ ∀ n, ent (km_mem k') T n = ent (km_mem k) T n) ∧
  (0 < len → ¬ user_ok (km_mem k) T va → (∃ t, T !! (va / 4096 / 1024) = Some t) → copyout d va p len k = Ok (-1) k).
Proof.
  intros U Hva Hlen Hmax. unfold copyout. split.
  - intros Hsrc Hok. apply (copyout_loop_spec kend Hkend); done || lia.
  - intros Hpos Hno [t Ht]. cbn [copyout_loop]. rewrite (proj2 (Z.ltb_lt _ _)) by done. rewrite PGROUNDDOWN_div.
    assert (0 ≤ va / 4096 < UPAGES) as Hn by (unfold UPAGES, KERNBASE in *; split; [apply Z.div_pos; lia|apply Z.div_lt_upper_bound; lia]).
    pose proof (uva2ka_spec kend k l d T _ t U Hn Ht) as Hu. rewrite decide_False in Hu.
    + by rewrite (bind_run _ _ _ _ _ Hu).
    + unfold user_ok in *. by rewrite Z.div_mul by lia.
Qed.
End props.

(** ** Instances

    A directory with one table and one user page, page 0, and one free page. *)
Definition vd_dir : Z := 0x80101000.
Definition vd_tab : Z := 0x80102000.
Definition vd_usr : Z := 0x80103000.
Definition vd_free : Z := 0x80104000.
Definition vd_mem : mem := store_word vd_dir (V2P vd_tab + 7) (store_word vd_tab (mk_pte (V2P vd_usr) 6) (λ _, 0)).
Definition vd_k : kmem := mkKmem false 1 vd_free vd_mem.
Definition vd_T : gmap Z Z := {[ 0 := vd_tab ]}.
Lemma vd_pages : Forall (page_ok demo_kend) [vd_dir; vd_tab; vd_usr; vd_free].
Proof. repeat constructor; vm_compute; discriminate. Qed.
Lemma vd_ok p : p ∈ [vd_dir; vd_tab; vd_usr; vd_free] → page_ok demo_kend p.
Proof. apply (Forall_forall (page_ok demo_kend)), vd_pages. Qed.
Lemma vd_zero p i : page_ok demo_kend p → 0 ≤ i < 1024 → (p = vd_dir ∨ p = vd_tab → i ≠ 0) → load_word (p + 4 * i) vd_mem = 0.
Proof.
  intros Hp Hi Hne. unfold vd_mem, vd_dir, vd_tab. destruct (page_V2P demo_kend p Hp) as (_ & _ & _ & ? & ?).
  assert (∀ x, p + 4 * i ≤ x < p + 4 * i + 4 → x < vd_dir ∨ vd_dir + 4 ≤ x) as H1.
  { intros x Hx. destruct Hp as (Hm & _). unfold KPGSIZE in Hm. apply Z.mod_divide in Hm as [q ->]; [|done]. unfold vd_dir, vd_tab in *. lia. }
  assert (∀ x, p + 4 * i ≤ x < p + 4 * i + 4 → x < vd_tab ∨ vd_tab + 4 ≤ x) as H2.
  { intros x Hx. destruct Hp as (Hm & _). unfold KPGSIZE in Hm. apply Z.mod_divide in Hm as [q ->]; [|done]. unfold vd_dir, vd_tab in *. lia. }
  unfold load_word. rewrite !u32_small by lia. unfold vd_dir, vd_tab in *.
  rewrite !(store_word_other 2148536320) by (first [lia|apply H1; lia]). rewrite !(store_word_other 2148540416) by (first [lia|apply H2; lia]). done.
Qed.
Lemma vd_ent n : ent vd_mem vd_T n = if decide (n = 0) then mk_pte (V2P vd_usr) 6 else 0.
Proof.
  unfold ent, vd_T. destruct (decide (n / 1024 = 0)) as [E|E].
  - rewrite E, lookup_singleton_eq. case_decide as E0; [subst n; by vm_compute|]. apply vd_zero.
    + apply vd_ok. rewrite !elem_of_cons. tauto.
    + apply Z.mod_pos_bound. lia.
    + intros _ Em. apply E0. rewrite (Z.div_mod n 1024) by lia. rewrite E, Em. lia.
  - rewrite lookup_singleton_ne by done. rewrite decide_False; [done|]. intros ->. by apply E.
Qed.
Lemma vd_upages : upages (ent vd_mem vd_T) ≡ₚ [vd_usr].
Proof.
  rewrite (upages_add (λ _, 0) (ent vd_mem vd_T) 0).
  - rewrite vd_ent, decide_True by done. rewrite (upages_none (λ _, 0)) by done.
    destruct (upage_mk demo_kend vd_usr 6) as [-> _]; [apply vd_ok; rewrite !elem_of_cons; tauto|lia|done].
  - unfold UPAGES. lia.
  - done.
  - rewrite vd_ent, decide_True by done. vm_compute. reflexivity.
  - intros j _ Hj. unfold upage_of. by rewrite vd_ent, decide_False.
Qed.
Lemma vd_us : us demo_kend vd_k [vd_free] vd_dir vd_T.
Proof.
  assert (∀ p, p ∈ [vd_dir; vd_tab; vd_usr; vd_free] → page_ok demo_kend p) as Hok by apply vd_ok.
  assert (pt_pages vd_dir vd_T = [vd_dir; vd_tab]) as Ep by (unfold pt_pages, vd_T; by rewrite map_to_list_singleton).
  constructor; [constructor|..].
  - constructor; [done| |apply NoDup_singleton]. cbn [free_list km_mem km_freelist vd_k]. split_and!; [done|apply Hok; rewrite !elem_of_cons; tauto|].
    rewrite <- (Z.add_0_r vd_free). change 0 with (4 * 0). apply vd_zero; [apply Hok; rewrite !elem_of_cons; tauto|lia|by intros [?|?]].
  - constructor.
    + apply Hok. rewrite !elem_of_cons. tauto.
    + unfold vd_T. intros i t [<- <-]%lookup_singleton_Some. split_and!; [lia|lia|apply Hok; rewrite !elem_of_cons; tauto|done|by vm_compute].
    + intros i Hi Hn. cbn [km_mem vd_k]. rewrite vd_zero; [done|apply Hok; rewrite !elem_of_cons; tauto|done|].
      intros _ ->. unfold vd_T in Hn. by rewrite lookup_singleton_eq in Hn.
    + unfold vd_T. intros i j t [<- _]%lookup_singleton_Some [<- _]%lookup_singleton_Some. done.
  - rewrite Ep. intros p Hp. rewrite list_elem_of_singleton. intros ->. rewrite !elem_of_cons, elem_of_nil in Hp. destruct Hp as [?|[?|?]]; done.
  - unfold pool. cbn [km_mem vd_k]. rewrite vd_upages, Ep. by apply (bool_decide_unpack _); vm_compute.
  - cbn [km_mem vd_k]. rewrite vd_upages. apply Forall_singleton, Hok. rewrite !elem_of_cons. tauto.
Qed.
Lemma copyuvm_copies_witness :
  ∃ r k' l', copyuvm demo_kend 0x80110000 vd_dir 4096 vd_k = Ok r k' ∧ us demo_kend k' l' vd_dir vd_T ∧
    ∀ x, in_page vd_usr x → km_mem k' x = km_mem vd_k x.
Proof.
  destruct (copyuvm_copies demo_kend 0x80110000 ltac:(vm_compute; reflexivity) vd_k [vd_free] vd_dir vd_T 4096)
    as (r & k' & l' & H & U & Hm & _).
  - reflexivity.
  - vm_compute. split; reflexivity.
  - exact vd_us.
  - vm_compute. split; discriminate.
  - intros n Hn. change ((4096 + 4095) / 4096) with 1 in Hn. assert (n = 0) as -> by lia.
    cbn [km_mem vd_k]. rewrite vd_ent, decide_True by done. vm_compute. reflexivity.
  - exists r, k', l'. split; [exact H|]. split; [exact U|]. intros x. apply (Hm vd_usr). apply elem_of_app. left.
    cbn [km_mem vd_k]. rewrite vd_upages. by apply list_elem_of_singleton.
Defined.
Lemma allocuvm_grows_witness :
  ∃ r k' l' T', allocuvm demo_kend vd_dir 4096 8000 vd_k = Ok r k' ∧ us demo_kend k' l' vd_dir T' ∧
    pool k' l' vd_dir T' ≡ₚ pool vd_k [vd_free] vd_dir vd_T ∧ ent (km_mem k') T' 0 = ent vd_mem vd_T 0.
Proof.
  destruct (allocuvm_grows demo_kend ltac:(vm_compute; reflexivity) vd_k [vd_free] vd_dir vd_T 4096 8000 vd_us ltac:(lia)) as (_ & _ & H).
  destruct H as (r & k' & l' & T' & H & U & P & He & _).
  - vm_compute. split; [discriminate|reflexivity].
  - intros n Hn. change ((4096 + 4095) / 4096) with 1 in Hn. cbn [km_mem vd_k]. rewrite vd_ent, decide_False by lia. reflexivity.
  - exists r, k', l', T'. split; [exact H|]. split; [exact U|]. split; [exact P|]. apply (He 0). change ((4096 + 4095) / 4096) with 1. lia.
Defined.
Lemma freevm_frees_all_witness :
  ∃ k' l', freevm demo_kend vd_dir vd_k = Ok tt k' ∧ kinv demo_kend k' l' ∧ l' ≡ₚ [vd_usr; vd_dir; vd_tab; vd_free].
Proof.
  destruct (freevm_frees_all demo_kend ltac:(vm_compute; reflexivity) vd_k [vd_free] vd_dir vd_T vd_us) as (k' & l' & H & K & Hl & _).
  exists k', l'. split; [exact H|]. split; [exact K|]. rewrite Hl. cbn [km_mem vd_k]. rewrite vd_upages.
  unfold pt_pages, vd_T. rewrite map_to_list_singleton. reflexivity.
Defined.
Lemma copyout_writes_witness :
  ∃ k', copyout vd_dir 10 0x80100000 3 vd_k = Ok 0 k' ∧ km_mem k' (vd_usr + 10) = vd_mem 0x80100000 ∧ copyout vd_dir 5000 0x80100000 3 vd_k = Ok (-1) vd_k.
Proof.
  destruct (copyout_writes demo_kend ltac:(vm_compute; reflexivity) vd_k [vd_free] vd_dir vd_T 10 0x80100000 3 vd_us ltac:(lia) ltac:(lia) ltac:(vm_compute; discriminate)) as [H1 _].
  destruct (copyout_writes demo_kend ltac:(vm_compute; reflexivity) vd_k [vd_free] vd_dir vd_T 5000 0x80100000 3 vd_us ltac:(lia) ltac:(lia) ltac:(vm_compute; discriminate)) as [_ H2].
  destruct H1 as (k' & H & _ & [C _] & _).
  - split; [lia|]. split; [lia|]. intros i p Hi. cbn [km_mem vd_k]. rewrite vd_upages, list_elem_of_singleton. intros ->. unfold in_page, vd_usr. lia.
  - intros i Hi. unfold user_ok. cbn [km_mem vd_k]. rewrite vd_ent, decide_True by (apply Z.div_small; lia). vm_compute. split; [reflexivity|discriminate].
  - exists k'. split; [exact H|]. split.
    + specialize (C 0 ltac:(lia)). cbn [km_mem vd_k] in C. unfold trans in C. rewrite vd_ent, decide_True in C by reflexivity.
      change (upage (mk_pte (V2P vd_usr) 6) + (10 + 0) mod 4096) with (vd_usr + 10) in C. exact C.
    + apply H2; [lia| |exists vd_tab; reflexivity]. unfold user_ok. cbn [km_mem vd_k]. rewrite vd_ent, decide_False by discriminate.
      intros [Hp _]. discriminate Hp.
Defined.
