(* ===== verification/Mp.v ===== *)
(** * The processors of the machine (mp.c)

    mpinit finds the MP structures that the BIOS left in memory and takes from them the
    processors, the I/O APIC and the address of the local APIC.  Memory is read at the kernel's
    addresses; [inb23] is what the IMCR port answers. *)

From S2P Require Import Prelude CStr Mem Kalloc Vm.

Definition NCPU : Z := 8.
Definition MP_SIZE : Z := 16.
Definition MPCONF_SIZE : Z := 44.
Definition MPPROC : Z := 0.
Definition MPBUS : Z := 1.
Definition MPIOAPIC : Z := 2.
Definition MPIOINTR : Z := 3.
Definition MPLINTR : Z := 4.
Definition MP_SIG : list Z := [95; 77; 80; 95].
Definition PCMP_SIG : list Z := [80; 67; 77; 80].

(** [cpus[i].apicid], ncpu, ioapicid, lapic, and the port writes. *)
Record mpst := mkMp { apicid : list Z; ncpu : Z; ioapicid : Z; lapic : Z; mp_out : list (Z * Z) }.

Section mp.
Context (m : mem) (inb23 : Z) (fuel : nat).
Abbreviation MP := (M mpst).

Definition mbyte (a : Z) : Z := m (u32 a).
Definition bytes_at (a : Z) (n : nat) : list Z := (λ i, mbyte (a + Z.of_nat i)) <$> seq 0 n.
Definition half (a : Z) : Z := mbyte a + 256 * mbyte (a + 1).
Definition word (a : Z) : Z := load_word (u32 a) m.

Definition sum (addr len : Z) : Z := u8 (foldl (λ s i, i32 (s + mbyte (addr + i))) 0 (seqZ 0 len)).
Definition same_bytes (a : Z) (s : list Z) (n : nat) : bool :=
  match memcmp (bytes_at a n) s n with Some r => r =? 0 | None => false end.

(** The loop of mpsearch1; the null pointer is [None]. *)
Fixpoint mpsearch_loop (n : nat) (p e : Z) : MP (option Z) :=
  match n with
  | O => spin
  | S n' =>
      if p <? e then
        if same_bytes p MP_SIG 4 && (sum p MP_SIZE =? 0) then mret (Some p) else mpsearch_loop n' (u32 (p + MP_SIZE)) e
      else mret None
  end.
Definition mpsearch1 (a len : Z) : MP (option Z) :=
  let addr := P2V a in mpsearch_loop fuel addr (u32 (addr + len)).
Definition mpsearch : MP (option Z) :=
  let bda := P2V 0x400 in
  let p := Z.shiftl (Z.lor (Z.shiftl (mbyte (bda + 0x0F)) 8) (mbyte (bda + 0x0E))) 4 in
  r ← (if negb (p =? 0) then mpsearch1 p 1024
       else let p := Z.lor (Z.shiftl (mbyte (bda + 0x14)) 8) (mbyte (bda + 0x13)) * 1024 in mpsearch1 (u32 (p - 1024)) 1024);
  match r with Some mp => mret (Some mp) | None => mpsearch1 0xF0000 0x10000 end.

(** The structure and the configuration table it points to. *)
Definition mpconfig : MP (option (Z * Z)) :=
  r ← mpsearch;
  match r with
  | None => mret None
  | Some mp =>
      if word (mp + 4) =? 0 then mret None else
      let conf := P2V (word (mp + 4)) in
      if negb (same_bytes conf PCMP_SIG 4) then mret None else
      if negb (mbyte (conf + 6) =? 1) && negb (mbyte (conf + 6) =? 4) then mret None else
      if negb (sum conf (half (conf + 4)) =? 0) then mret None else mret (Some (mp, conf))
  end.

Definition add_cpu (id : Z) : MP unit :=
  s ← get;
  when (ncpu s <? NCPU)
    (if in_bounds (apicid s) (ncpu s)
     then modify (λ s, mkMp (<[Z.to_nat (ncpu s) := id]> (apicid s)) (ncpu s + 1) (ioapicid s) (lapic s) (mp_out s))
     else undef "cpus").
(** The loop over the entries: the [break] of an unknown type leaves the switch, not the loop. *)
Fixpoint mp_loop (n : nat) (ismp : bool) (p e : Z) : MP bool :=
  match n with
  | O => spin
  | S n' =>
      if p <? e then
        let ty := mbyte p in
        if ty =? MPPROC then add_cpu (mbyte (p + 1)) ;; mp_loop n' ismp (u32 (p + 20)) e
        else if ty =? MPIOAPIC then
          modify (λ s, mkMp (apicid s) (ncpu s) (mbyte (p + 1)) (lapic s) (mp_out s)) ;; mp_loop n' ismp (u32 (p + 8)) e
        else if (ty =? MPBUS) || (ty =? MPIOINTR) || (ty =? MPLINTR) then mp_loop n' ismp (u32 (p + 8)) e
        else mp_loop n' false p e
      else mret ismp
  end.
Definition mp_outb (port v : Z) : MP unit :=
  modify (λ s, mkMp (apicid s) (ncpu s) (ioapicid s) (lapic s) (mp_out s ++ [(port, v)])).
Definition mpinit : MP unit :=
  r ← mpconfig;
  match r with
  | None => panic "Expect to run on an SMP"
  | Some (mp, conf) =>
      modify (λ s, mkMp (apicid s) (ncpu s) (ioapicid s) (word (conf + 36)) (mp_out s)) ;;
      ismp ← mp_loop fuel true (u32 (conf + MPCONF_SIZE)) (u32 (conf + half (conf + 4)));
      if negb ismp then panic "Didn't find a suitable machine" else
      when (negb (mbyte (mp + 12) =? 0)) (mp_outb 0x22 0x70 ;; mp_outb 0x23 (Z.lor inb23 1))
  end.
End mp.

(** * What mpinit finds

    [mp_config m]: the structures that the MultiProcessor Specification describes, at the first of the
    places where the code looks for them; [table m e p es]: from address [p] to [e] lie the entries [es]. *)

Section spec.
Context (m : mem).

(** ** The specification *)
Definition total (l : list Z) : Z := foldr Z.add 0 l.
(** A floating pointer structure. *)
Definition mp_at (p : Z) : Prop := bytes_at m p 4 = MP_SIG ∧ total (bytes_at m p 16) mod 256 = 0.
#[global] Instance mp_at_dec p : Decision (mp_at p).
Proof. unfold mp_at. apply _. Defined.
Definition region (p : Z) (k : nat) : list Z := (λ i, p + 16 * Z.of_nat i) <$> seq 0 k.
(** The places that mpsearch() looks at: the first kilobyte of the extended BIOS data area, or, if the
    BIOS names none, the last kilobyte of base memory; then the BIOS ROM from 0xF0000 to 0xFFFFF (the
    comment above mpsearch() says from 0xE0000; see [mpinit_misses_rom]). *)
Definition mp_places : list Z :=
  let ebda := half m (P2V 0x400 + 0x0E) * 16 in
  let base := half m (P2V 0x400 + 0x13) * 1024 in
  (if decide (ebda = 0) then region (P2V (base - 1024)) 64 else region (P2V ebda) 64) ++ region (P2V 0xF0000) 4096.
Definition conf_at (conf : Z) : Prop :=
  bytes_at m conf 4 = PCMP_SIG ∧ (mbyte m (conf + 6) = 1 ∨ mbyte m (conf + 6) = 4) ∧
  total (bytes_at m conf (Z.to_nat (half m (conf + 4)))) mod 256 = 0.
#[global] Instance conf_at_dec p : Decision (conf_at p).
Proof. unfold conf_at. apply _. Defined.
Definition mp_config : option (Z * Z) :=
  match head (filter mp_at mp_places) with
  | None => None
  | Some mp =>
      let conf := P2V (word m (mp + 4)) in
      if decide (word m (mp + 4) ≠ 0 ∧ conf_at conf) then Some (mp, conf) else None
  end.

Inductive entry := Processor (id : Z) | IoApic (id : Z) | OtherEntry.
Definition entry_size (x : entry) : Z := match x with Processor _ => 20 | _ => 8 end.
Definition entry_at (p : Z) (x : entry) : Prop :=
  match x with
  | Processor id => mbyte m p = 0 ∧ mbyte m (p + 1) = id
  | IoApic id => mbyte m p = 2 ∧ mbyte m (p + 1) = id
  | OtherEntry => mbyte m p = 1 ∨ mbyte m p = 3 ∨ mbyte m p = 4
  end.
(** The entries from [p] on, up to [e], or up to one of no known type. *)
Inductive table (e : Z) : Z → list entry → Prop :=
| table_end p : e ≤ p → table e p []
| table_entry p x es : p < e → entry_at p x → table e (p + entry_size x) es → table e p (x :: es).
Inductive broken (e : Z) : Z → list entry → Prop :=
| broken_here p : p < e → 4 < mbyte m p → broken e p []
| broken_later p x es : p < e → entry_at p x → broken e (p + entry_size x) es → broken e p (x :: es).

Definition processors (es : list entry) : list Z := omap (λ x, match x with Processor id => Some id | _ => None end) es.
Definition ioapics (es : list entry) : list Z := omap (λ x, match x with IoApic id => Some id | _ => None end) es.
(** The first [NCPU] processors, the last I/O APIC. *)
Definition configured (inb23 mp conf : Z) (es : list entry) (s : mpst) : mpst :=
  let ids := take 8 (processors es) in
  mkMp (ids ++ drop (length ids) (apicid s)) (Z.of_nat (length ids)) (default (ioapicid s) (last (ioapics es)))
    (word m (conf + 36)) (mp_out s ++ if decide (mbyte m (mp + 12) = 0) then [] else [(0x22, 0x70); (0x23, Z.lor inb23 1)]).
End spec.

(** ** Sums and signatures *)
Section proof.
Context (m : mem) (fuel : nat).
Lemma sum_loop (f : Z → Z) l a : u8 (foldl (λ s i, i32 (s + f i)) a l) = u8 (a + total (f <$> l)).
Proof.
  revert a. induction l as [|i l IH]; intros a; cbn; [by rewrite Z.add_0_r|]. rewrite IH. unfold u8.
  rewrite <- Zplus_mod_idemp_l. fold (u8 (i32 (a + f i))). rewrite u8_i32. unfold u8. rewrite Zplus_mod_idemp_l. f_equal. unfold total. lia.
Qed.
Lemma sum_total a len : sum m a len = total (bytes_at m a (Z.to_nat len)) mod 256.
Proof.
  unfold sum. rewrite sum_loop, Z.add_0_l. unfold u8, bytes_at, seqZ. rewrite <- list_fmap_compose. do 2 f_equal.
  apply list_fmap_ext. intros n i _. cbn. f_equal. lia.
Qed.
Lemma same_bytes_iff a s n : length s = n → same_bytes m a s n = bool_decide (bytes_at m a n = s).
Proof.
  intros Hs. assert (length (bytes_at m a n) = n) as Hl by (unfold bytes_at; by rewrite length_fmap, length_seq).
  pose proof (memcmp_zero (bytes_at m a n) s n ltac:(lia) ltac:(lia)) as Hz. rewrite !take_ge in Hz by lia. unfold same_bytes.
  case_bool_decide as Hd.
  - apply Hz in Hd. by rewrite Hd.
  - destruct (memcmp _ _ _) as [r|]; [|done]. apply Z.eqb_neq. intros ->. by apply Hd, Hz.
Qed.

(** ** The search *)
Lemma mp_test p : same_bytes m p MP_SIG 4 && (sum m p MP_SIZE =? 0) = bool_decide (mp_at m p).
Proof.
  rewrite same_bytes_iff, sum_total by done. unfold mp_at. change (Z.to_nat MP_SIZE) with 16%nat.
  apply eq_true_iff_eq. by rewrite andb_true_iff, !bool_decide_eq_true, Z.eqb_eq.
Qed.
Lemma region_S p k : region p (S k) = p :: region (p + 16) k.
Proof.
  unfold region. cbn [seq fmap list_fmap]. f_equal; [lia|]. rewrite <- fmap_S_seq, <- list_fmap_compose.
  apply list_fmap_ext. intros n i _. cbn. lia.
Qed.
Lemma search_loop k : ∀ n p (s : mpst), (k < n)%nat → 0 ≤ p → p + 16 * Z.of_nat k < 2 ^ 32 →
  mpsearch_loop m n p (p + 16 * Z.of_nat k) s = Ok (head (filter (mp_at m) (region p k))) s.
Proof.
  induction k as [|k IH]; intros n p s Hn Hp He; (destruct n as [|n]; [lia|]); cbn [mpsearch_loop].
  { by rewrite (proj2 (Z.ltb_ge _ _)) by lia. }
  rewrite (proj2 (Z.ltb_lt _ _)), mp_test, region_S by lia. rewrite filter_cons. case_bool_decide as Hd.
  - by rewrite decide_True.
  - rewrite decide_False by done. unfold MP_SIZE. rewrite u32_small by lia.
    replace (p + 16 * Z.of_nat (S k)) with (p + 16 + 16 * Z.of_nat k) by lia. apply IH; lia.
Qed.
Hypothesis Hbyte : ∀ a, 0 ≤ m a < 256.
Hypothesis Hfuel : 65536 < Z.of_nat fuel.
Lemma search1 a len k s :
  len = 16 * Z.of_nat k → Z.of_nat k ≤ 4096 → P2V a + len < 2 ^ 32 → mpsearch1 m fuel a len s = Ok (head (filter (mp_at m) (region (P2V a) k))) s.
Proof using Hfuel.
  intros -> Hk Hb. unfold mpsearch1. pose proof (u32_range (a + KERNBASE)) as Hr. fold (P2V a) in Hr. rewrite u32_small by lia. apply search_loop; lia.
Qed.
Lemma half_lor a : Z.lor (Z.shiftl (mbyte m (a + 1)) 8) (mbyte m a) = half m a.
Proof using Hbyte.
  clear Hfuel. unfold half. rewrite (lor_low 8); [|lia| |apply Hbyte].
  - rewrite Z.shiftl_mul_pow2 by lia. lia.
  - rewrite Z.shiftl_mul_pow2 by lia. apply Z.mod_mul. lia.
Qed.
Lemma half_range a : 0 ≤ half m a < 2 ^ 16.
Proof using Hbyte. clear Hfuel. unfold half. pose proof (Hbyte (u32 a)). pose proof (Hbyte (u32 (a + 1))). unfold mbyte. lia. Qed.
Lemma mpsearch_spec s : mpsearch m fuel s = Ok (head (filter (mp_at m) (mp_places m))) s.
Proof using All.
  unfold mpsearch, mp_places. set (bda := P2V 0x400).
  replace (bda + 0x0F) with (bda + 0x0E + 1) by lia. replace (bda + 0x14) with (bda + 0x13 + 1) by lia. rewrite !half_lor.
  pose proof (half_range (bda + 0x0E)) as H1. pose proof (half_range (bda + 0x13)) as H2. rewrite Z.shiftl_mul_pow2 by lia.
  change (2 ^ 4) with 16. set (ebda := half m (bda + 0x0E) * 16). set (base := half m (bda + 0x13) * 1024).
  assert (∀ a, mpsearch1 m fuel a 1024 s = Ok (head (filter (mp_at m) (region (P2V a) 64))) s →
    (r ← mpsearch1 m fuel a 1024; match r with Some mp => mret (Some mp) | None => mpsearch1 m fuel 0xF0000 0x10000 end) s =
    Ok (head (filter (mp_at m) (region (P2V a) 64 ++ region (P2V 0xF0000) 4096))) s) as Hgo.
  { intros a Ha. rewrite (bind_run _ _ _ _ _ Ha), filter_app. destruct (filter (mp_at m) (region (P2V a) 64)); [|done].
    by apply (search1 0xF0000 0x10000 4096). }
  assert (∀ a, P2V (u32 a) = P2V a) as Hp2v by (intros a; unfold P2V, u32; by rewrite Zplus_mod_idemp_l).
  case_decide as E.
  - rewrite E. cbn [negb Z.eqb]. rewrite <- Hp2v. apply Hgo, search1; [done|lia|]. rewrite Hp2v. unfold P2V, KERNBASE, u32, base.
    rewrite Z.mod_small; lia.
  - rewrite (proj2 (Z.eqb_neq _ _) E). cbn [negb]. apply Hgo, search1; [done|lia|]. unfold P2V, KERNBASE, u32, ebda. rewrite Z.mod_small; lia.
Qed.
Lemma mpconfig_spec s : mpconfig m fuel s = Ok (mp_config m) s.
Proof using All.
  unfold mpconfig. rewrite (bind_run _ _ _ _ _ (mpsearch_spec s)). unfold mp_config. destruct (head _) as [mp|]; [|done].
  destruct (Z.eqb_spec (word m (mp + 4)) 0) as [E0|E0]; [by rewrite decide_False by tauto|]. set (conf := P2V _).
  rewrite same_bytes_iff, sum_total by done. unfold conf_at. case_bool_decide as Hs; cbn [negb]; [|by rewrite decide_False by tauto].
  destruct (Z.eqb_spec (mbyte m (conf + 6)) 1) as [E1|E1], (Z.eqb_spec (mbyte m (conf + 6)) 4) as [E4|E4]; cbn [negb andb];
    [|..|by rewrite decide_False by tauto].
  all: destruct (Z.eqb_spec (total (bytes_at m conf (Z.to_nat (half m (conf + 4)))) mod 256) 0); cbn [negb];
    [by rewrite decide_True by tauto|by rewrite decide_False by tauto].
Qed.

(** ** The entries *)
(** The state after processors [ids] and I/O APICs [ios]. *)
Definition found (ids ios : list Z) (s : mpst) : mpst :=
  mkMp (take 8 ids ++ drop (length (take 8 ids)) (apicid s)) (Z.of_nat (length (take 8 ids))) (default (ioapicid s) (last ios)) (lapic s) (mp_out s).
Lemma found_cpu ids ios s id :
  length (apicid s) = 8%nat → add_cpu id (found ids ios s) = Ok tt (found (ids ++ [id]) ios s).
Proof.
  clear Hfuel Hbyte. intros Hl. unfold add_cpu, get, mbind, M_bind, when, NCPU, found. cbn [ncpu apicid]. rewrite length_take.
  destruct (Z.ltb_spec (Z.of_nat (8 `min` length ids)) 8) as [Hlt|Hge].
  - unfold in_bounds. rewrite bool_decide_eq_true_2 by (rewrite length_app, length_take, length_drop; lia). unfold modify.
    cbn [ncpu apicid ioapicid lapic mp_out]. f_equal. rewrite Nat.min_r in * by lia. rewrite Nat2Z.id. rewrite !take_ge by (rewrite ?length_app; cbn; lia).
    rewrite length_app. cbn [length]. f_equal; [|lia]. rewrite insert_app_r_alt, Nat.sub_diag by lia. rewrite <- app_assoc. f_equal.
    destruct (drop (length ids) (apicid s)) as [|y l] eqn:E; [apply (f_equal length) in E; rewrite length_drop in E; cbn in E; lia|].
    cbn. f_equal. by rewrite <- drop_drop, E.
  - unfold mret, M_ret. f_equal. rewrite length_take, length_app. cbn [length]. rewrite !Nat.min_l by lia. by rewrite take_app_le by lia.
Qed.
Lemma loop_entry n ismp p e x ids ios s :
  length (apicid s) = 8%nat → 0 ≤ p → e < 2 ^ 32 - 32 → p < e → entry_at m p x →
  mp_loop m (S n) ismp p e (found ids ios s) =
  mp_loop m n ismp (p + entry_size x) e (found (ids ++ processors [x]) (ios ++ ioapics [x]) s).
Proof.
  clear Hfuel Hbyte. intros Hl Hp He Hlt Hx. cbn [mp_loop]. rewrite (proj2 (Z.ltb_lt _ _) Hlt). destruct x as [id|id|]; cbn in Hx |- *.
  - destruct Hx as [-> ->]. cbn [Z.eqb MPPROC]. rewrite (bind_run _ _ _ _ _ (found_cpu ids ios s id Hl)). rewrite app_nil_r, u32_small by lia. done.
  - destruct Hx as [-> ->]. cbn. rewrite app_nil_r, u32_small by lia. unfold mbind, M_bind, modify, found. cbn. by rewrite last_snoc.
  - rewrite !app_nil_r. destruct Hx as [->|[->| ->]]; cbn; by rewrite u32_small by lia.
Qed.
Lemma loop_table e p es : table m e p es → ∀ n ismp ids ios s, length (apicid s) = 8%nat → 0 ≤ p → e < 2 ^ 32 - 32 → (length es < n)%nat →
  mp_loop m n ismp p e (found ids ios s) = Ok ismp (found (ids ++ processors es) (ios ++ ioapics es) s).
Proof.
  clear Hfuel Hbyte. intros Ht. induction Ht as [p Hp|p x es Hlt Hx Ht IH]; intros n ismp ids ios s Hl H0 He Hn; (destruct n as [|n]; [cbn in Hn; lia|]).
  - cbn [mp_loop]. rewrite (proj2 (Z.ltb_ge _ _) Hp). cbn. by rewrite !app_nil_r.
  - rewrite (loop_entry n ismp p e x ids ios s) by done. rewrite IH; [|done|destruct x; cbn; lia|done|cbn in Hn; lia].
    rewrite <- !app_assoc. by destruct x.
Qed.
Lemma loop_broken e p es : broken m e p es → ∀ n ismp ids ios s, length (apicid s) = 8%nat → 0 ≤ p → e < 2 ^ 32 - 32 →
  mp_loop m n ismp p e (found ids ios s) = Spin.
Proof.
  clear Hfuel Hbyte. intros Ht. induction Ht as [p Hlt Hty|p x es Hlt Hx Ht IH]; intros n ismp ids ios s Hl H0 He.
  - revert ismp. induction n as [|n IH]; intros ismp; [done|]. cbn [mp_loop]. rewrite (proj2 (Z.ltb_lt _ _) Hlt).
    unfold MPPROC, MPIOAPIC, MPBUS, MPIOINTR, MPLINTR. rewrite !(proj2 (Z.eqb_neq (mbyte m p) _)) by lia. apply IH.
  - destruct n as [|n]; [done|]. rewrite (loop_entry n ismp p e x ids ios s) by done. apply IH; [done|destruct x; cbn; lia|done].
Qed.
Lemma table_length e p es : table m e p es → 8 * Z.of_nat (length es) < Z.max 0 (e - p) + 8.
Proof. clear Hfuel Hbyte. induction 1 as [|p x es Hlt Hx Ht IH]; cbn [length]; [lia|]. destruct x; cbn [entry_size] in IH; lia. Qed.
(** Every table ends or has an entry of no known type. *)
Lemma table_or_broken e p : (∃ es, table m e p es) ∨ (∃ es, broken m e p es).
Proof using Hbyte.
  clear Hfuel. remember (Z.to_nat (e - p)) as n eqn:Hn. revert p Hn. induction (lt_wf n) as [n _ IH]. intros p ->.
  destruct (decide (e ≤ p)) as [Hle|Hlt]; [left; exists []; by constructor|]. pose proof (Hbyte (u32 p)) as Hb. fold (mbyte m p) in Hb.
  destruct (decide (4 < mbyte m p)) as [H4|H4]; [right; exists []; constructor; [lia|done]|].
  assert (∃ x, entry_at m p x) as (x & Hx).
  { destruct (decide (mbyte m p = 0)); [by exists (Processor (mbyte m (p + 1)))|]. destruct (decide (mbyte m p = 2)); [by exists (IoApic (mbyte m (p + 1)))|].
    exists OtherEntry. cbn. lia. }
  destruct (IH (Z.to_nat (e - (p + entry_size x))) ltac:(destruct x; cbn; lia) (p + entry_size x) eq_refl) as [[es Ht]|[es Ht]]; [left|right];
    exists (x :: es); constructor; (done || lia).
Qed.
End proof.

(** C20: mpinit on any memory.  It panics if none of the places that the code searches (the first kilobyte of the
    EBDA or else the last one of base memory, and the ROM from 0xF0000 to 0xFFFFF) holds a structure, or the first
    one there has no valid configuration table; otherwise, for a table at an address below 2^32 - 2^17 (so that it
    does not run over the end of the address space), it records the first [NCPU] processors of the table in order,
    its last I/O APIC and the address of the local APIC, and switches off the PIC where there is an IMCR; or it
    meets an entry of unknown type, where it loops for ever. *)
Theorem mpinit_correct m inb23 fuel s :
  (∀ a, 0 ≤ m a < 256) → 65536 < Z.of_nat fuel → length (apicid s) = 8%nat → ncpu s = 0 →
  match mp_config m with
  | None => mpinit m inb23 fuel s = Panic "Expect to run on an SMP"
  | Some (mp, conf) =>
      0 ≤ conf < 2 ^ 32 - 2 ^ 17 →
      let e := conf + half m (conf + 4) in
      (∃ es, table m e (conf + MPCONF_SIZE) es ∧ mpinit m inb23 fuel s = Ok tt (configured m inb23 mp conf es s)) ∨
      (∃ es, broken m e (conf + MPCONF_SIZE) es ∧ mpinit m inb23 fuel s = Spin)
  end.
Proof.
  intros Hb Hf Hl Hn. unfold mpinit. rewrite (bind_run _ _ _ _ _ (mpconfig_spec m fuel Hb Hf s)).
  destruct (mp_config m) as [[mp conf]|]; [|done]. intros Hc. set (e := conf + half m (conf + 4)). pose proof (half_range m Hb (conf + 4)) as Hh. unfold MPCONF_SIZE.
  rewrite !u32_small by lia. fold e. set (s1 := mkMp (apicid s) 0 (ioapicid s) (word m (conf + 36)) (mp_out s)).
  rewrite (bind_run (modify _) _ tt s s1) by (unfold modify, s1; by rewrite Hn).
  assert (s1 = found [] [] s1) as E1 by (unfold found, s1; by rewrite take_nil).
  destruct (table_or_broken m Hb e (conf + 44)) as [[es Ht]|[es Ht]]; [left|right]; exists es; (split; [done|]).
  - pose proof (table_length _ _ _ _ Ht) as Hlen.
    pose proof (loop_table m e _ es Ht fuel true [] [] s1 Hl ltac:(lia) ltac:(lia) ltac:(lia)) as Hrun. rewrite <- E1 in Hrun.
    rewrite (bind_run _ _ _ _ _ Hrun). cbn [negb app]. unfold when, configured, found. cbn [apicid ncpu ioapicid lapic mp_out s1].
    destruct (Z.eqb_spec (mbyte m (mp + 12)) 0) as [Ei|Ei]; cbn [negb].
    + rewrite decide_True, app_nil_r by done. done.
    + rewrite decide_False by done. unfold mp_outb, mbind, M_bind, modify. cbn [apicid ncpu ioapicid lapic mp_out]. by rewrite <- app_assoc.
  - pose proof (loop_broken m e _ es Ht fuel true [] [] s1 Hl ltac:(lia) ltac:(lia)) as Hrun. rewrite <- E1 in Hrun.
    unfold mbind, M_bind. by rewrite Hrun.
Qed.

(** ** A machine with two processors *)
Definition place (a : Z) (l : list Z) (m : mem) : mem :=
  λ x, if decide (a ≤ x < a + Z.of_nat (length l)) then default 0 (l !! Z.to_nat (x - a)) else m x.
Definition demo_mp : list Z := MP_SIG ++ [0; 1; 15; 0; 1; 4; 144; 0; 0; 0; 0; 0].
Definition demo_mpconf : list Z :=
  PCMP_SIG ++ [92; 0; 4; 142] ++ replicate 20 0 ++ [0; 0; 0; 0; 0; 0; 3; 0; 0; 0; 0xE0; 0xFE; 0; 0; 0; 0] ++
  [0; 0; 20; 3] ++ replicate 16 0 ++ [0; 1; 20; 1] ++ replicate 16 0 ++ [2; 2; 17; 1; 0; 0; 0xC0; 0xFE].
Definition demo_bios : mem := place 0x8000040E [0xC0; 0x9F] (place 0x8009FC00 demo_mp (place 0x800F0100 demo_mpconf (λ _, 0))).
Definition demo_mpst : mpst := mkMp (replicate 8 0) 0 0 0 [].
Lemma place_byte a l m : Forall (λ x, 0 ≤ x < 256) l → (∀ x, 0 ≤ m x < 256) → ∀ x, 0 ≤ place a l m x < 256.
Proof.
  intros Hl Hm x. unfold place. case_decide; [|apply Hm]. destruct (l !! Z.to_nat (x - a)) as [y|] eqn:E; cbn; [|lia].
  rewrite Forall_forall in Hl. by apply (Hl y), (list_elem_of_lookup_2 _ (Z.to_nat (x - a))).
Qed.
Lemma demo_config : mp_config demo_bios = Some (0x8009FC00, 0x800F0100).
Proof.
  assert (∃ l, mp_places demo_bios = 0x8009FC00 :: l) as (l & Hl).
  { unfold mp_places. replace (half demo_bios (P2V 0x400 + 0x0E)) with 0x9FC0 by (vm_compute; reflexivity).
    rewrite decide_False by lia. change (region (P2V (0x9FC0 * 16)) 64) with (region 0x8009FC00 (S 63)). rewrite region_S. by eexists. }
  unfold mp_config. rewrite Hl, filter_cons, decide_True by (apply (bool_decide_eq_true_1 _); vm_compute; reflexivity).
  vm_compute. reflexivity.
Qed.
Lemma mpinit_correct_witness :
  mp_config demo_bios = Some (0x8009FC00, 0x800F0100) ∧
  ∃ es, table demo_bios 0x800F015C 0x800F012C es ∧
    mpinit demo_bios 0 (Z.to_nat 65537) demo_mpst = Ok tt (configured demo_bios 0 0x8009FC00 0x800F0100 es demo_mpst).
Proof.
  split; [exact demo_config|]. assert (∀ a, 0 ≤ demo_bios a < 256) as Hb.
  { repeat (apply place_byte; [apply (bool_decide_eq_true_1 _); vm_compute; reflexivity|]). intros; lia. }
  pose proof (mpinit_correct demo_bios 0 (Z.to_nat 65537) demo_mpst Hb ltac:(lia) eq_refl eq_refl) as H. rewrite demo_config in H.
  specialize (H ltac:(lia)). replace (half demo_bios (0x800F0100 + 4)) with 92 in H by (vm_compute; reflexivity).
  destruct H as [H|(es & _ & H)]; [exact H|]. vm_compute in H. discriminate H.
Defined.

(** A structure in the ROM below 0xF0000, where the comment above mpsearch() has it, is not found. *)
Definition demo_rom : mem := place 0x800E0000 demo_mp (place 0x800F0100 demo_mpconf (λ _, 0)).
Theorem mpinit_misses_rom :
  mp_at demo_rom 0x800E0000 ∧ conf_at demo_rom (P2V (word demo_rom (0x800E0000 + 4))) ∧
  mpinit demo_rom 0 (Z.to_nat 65537) demo_mpst = Panic "Expect to run on an SMP".
Proof.
  split; [apply (bool_decide_eq_true_1 _); vm_compute; reflexivity|].
  split; [apply (bool_decide_eq_true_1 _); vm_compute; reflexivity|].
  assert (∀ a, 0 ≤ demo_rom a < 256) as Hb.
  { repeat (apply place_byte; [apply (bool_decide_eq_true_1 _); vm_compute; reflexivity|]). intros; lia. }
  assert (mp_config demo_rom = None) as Hc by (vm_compute; reflexivity).
  unfold mpinit. rewrite (bind_run _ _ _ _ _ (mpconfig_spec demo_rom (Z.to_nat 65537) Hb ltac:(lia) demo_mpst)).
  by rewrite Hc.
Qed.
