(* ===== verification/Apic.v ===== *)
(** * Interrupt controllers, serial port and clock chip (lapic.c, ioapic.c, picirq.c, uart.c)

    The local APIC is its registers as an array of words: the state records the writes in order and counts the reads, and
    [answer] is what a register reads after the writes so far, at the n-th read.  The I/O APIC is an index register and the
    registers behind it. *)

From stdpp Require Import functions.
From S2P Require Import Prelude Trap Mem Kalloc Vm.

Definition IRQ_ERROR : Z := 19.
(** ** The local APIC *)
Definition ID : Z := 0x0020 / 4.
Definition VER : Z := 0x0030 / 4.
Definition TPR : Z := 0x0080 / 4.
Definition EOI : Z := 0x00B0 / 4.
Definition SVR : Z := 0x00F0 / 4.
Definition ENABLE : Z := 0x00000100.
Definition ESR : Z := 0x0280 / 4.
Definition ICRLO : Z := 0x0300 / 4.
Definition INIT : Z := 0x00000500.
Definition STARTUP : Z := 0x00000600.
Definition DELIVS : Z := 0x00001000.
Definition ASSERT : Z := 0x00004000.
Definition LEVEL : Z := 0x00008000.
Definition BCAST : Z := 0x00080000.
Definition ICRHI : Z := 0x0310 / 4.
Definition TIMER : Z := 0x0320 / 4.
Definition X1 : Z := 0x0000000B.
Definition PERIODIC : Z := 0x00020000.
Definition PCINT : Z := 0x0340 / 4.
Definition LINT0 : Z := 0x0350 / 4.
Definition LINT1 : Z := 0x0360 / 4.
Definition ERROR : Z := 0x0370 / 4.
Definition MASKED : Z := 0x00010000.
Definition TICR : Z := 0x0380 / 4.
Definition TDCR : Z := 0x03E0 / 4.
Definition CMOS_PORT : Z := 0x70.

(** Register writes, reads so far, port writes and memory. *)
Record apic := mkApic { lw : list (Z * Z); lr : nat; l_ports : list (Z * Z); l_mem : mem }.

Section lapic.
(** whether there is a local APIC, and its answers *)
Context (lapic : bool) (answer : list (Z * Z) → nat → Z → Z).
Abbreviation LA := (M apic).

Definition lapic_read (i : Z) : LA Z := λ s, Ok (answer (lw s) (lr s) i) (mkApic (lw s) (S (lr s)) (l_ports s) (l_mem s)).
Definition lapicw (i v : Z) : LA unit :=
  modify (λ s, mkApic (lw s ++ [(i, u32 v)]) (lr s) (l_ports s) (l_mem s)) ;;
  lapic_read ID ;; mret tt.
Fixpoint wait_delivery (n : nat) : LA unit :=
  match n with
  | O => spin
  | S n' => v ← lapic_read ICRLO; if negb (Z.land v DELIVS =? 0) then wait_delivery n' else mret tt
  end.
Definition lapicinit (fuel : nat) : LA unit :=
  if negb lapic then mret tt else
  lapicw SVR (Z.lor ENABLE (T_IRQ0 + IRQ_SPURIOUS)) ;;
  lapicw TDCR X1 ;;
  lapicw TIMER (Z.lor PERIODIC (T_IRQ0 + IRQ_TIMER)) ;;
  lapicw TICR 10000000 ;;
  lapicw LINT0 MASKED ;;
  lapicw LINT1 MASKED ;;
  v ← lapic_read VER;
  when (4 <=? Z.land (Z.shiftr v 16) 0xFF) (lapicw PCINT MASKED) ;;
  lapicw ERROR (T_IRQ0 + IRQ_ERROR) ;;
  lapicw ESR 0 ;;
  lapicw ESR 0 ;;
  lapicw EOI 0 ;;
  lapicw ICRHI 0 ;;
  lapicw ICRLO (Z.lor (Z.lor BCAST INIT) LEVEL) ;;
  wait_delivery fuel ;;
  lapicw TPR 0.
Definition lapicid : LA Z := if negb lapic then mret 0 else v ← lapic_read ID; mret (Z.shiftr v 24).
Definition lapiceoi : LA unit := when lapic (lapicw EOI 0).
Definition microdelay (us : Z) : LA unit := mret tt.
Definition l_outb (port v : Z) : LA unit := modify (λ s, mkApic (lw s) (lr s) (l_ports s ++ [(port, u8 v)]) (l_mem s)).
(** A store of 16 bits. *)
Definition l_store16 (a v : Z) : LA unit :=
  modify (λ s, mkApic (lw s) (lr s) (l_ports s) (store (a + 1) (u8 (Z.shiftr v 8)) (store a (u8 v) (l_mem s)))).
Definition lapicstartap (apicid addr : Z) : LA unit :=
  l_outb CMOS_PORT 0xF ;;
  l_outb (CMOS_PORT + 1) 0x0A ;;
  let wrv := P2V (Z.lor (Z.shiftl 0x40 4) 0x67) in
  l_store16 wrv 0 ;;
  l_store16 (wrv + 2) (u16 (Z.shiftr addr 4)) ;;
  lapicw ICRHI (Z.shiftl apicid 24) ;;
  lapicw ICRLO (Z.lor (Z.lor INIT LEVEL) ASSERT) ;;
  microdelay 200 ;;
  lapicw ICRLO (Z.lor INIT LEVEL) ;;
  microdelay 100 ;;
  for_each (seqZ 0 2) (λ i,
    lapicw ICRHI (Z.shiftl apicid 24) ;;
    lapicw ICRLO (Z.lor STARTUP (Z.shiftr addr 12)) ;;
    microdelay 200).
End lapic.

(** ** What the writes do to the processors *)
(** A processor that was not started, waits for a startup message, or runs from an address.  A message goes to the
    processor that ICRHI names, or to all; INIT resets a processor when it is asserted, and STARTUP wakes one that waits. *)
Inductive ap := Halted | Waiting | Started (pc : Z).
Definition receive (v : Z) (a : ap) : ap :=
  let mode := Z.land (Z.shiftr v 8) 7 in
  if mode =? 5 then (if Z.testbit v 14 then Waiting else a)
  else if mode =? 6 then (match a with Waiting => Started (Z.shiftl (Z.land v 0xff) 12) | _ => a end)
  else a.
Definition send (dest v : Z) (aps : Z → ap) : Z → ap := λ i,
  if (Z.land (Z.shiftr v 18) 3 =? 2) || (i =? dest) then receive v (aps i) else aps i.
Definition icr_step (w : Z * Z) (st : Z * (Z → ap)) : Z * (Z → ap) :=
  if w.1 =? ICRHI then (Z.shiftr w.2 24, st.2) else if w.1 =? ICRLO then (st.1, send st.1 w.2 st.2) else st.
Definition icr (ws : list (Z * Z)) (st : Z * (Z → ap)) : Z * (Z → ap) := foldl (λ st w, icr_step w st) st ws.

Create HintDb emits.
Section lapic_proof.
Context (answer : list (Z * Z) → nat → Z → Z).
(** [m] returns and writes the registers [ws] in order. *)
Definition emits {A} (m : M apic A) (ws : list (Z * Z)) : Prop := ∀ s, ∃ a s', m s = Ok a s' ∧ lw s' = lw s ++ ws.
Lemma emits_bind {A B} (m : M apic A) (f : A → M apic B) w1 w2 :
  emits m w1 → (∀ a, emits (f a) w2) → emits (m ≫= f) (w1 ++ w2).
Proof.
  intros H1 H2 s. destruct (H1 s) as (a & s1 & R1 & E1). destruct (H2 a s1) as (b & s2 & R2 & E2). exists b, s2.
  rewrite (bind_run _ _ _ _ _ R1). split; [done|]. by rewrite E2, E1, app_assoc.
Qed.
Lemma emits_ret {A} (a : A) : emits (mret a) [].
Proof. intros s. exists a, s. split; [done|by rewrite app_nil_r]. Qed.
Lemma emits_modify f : (∀ s, lw (f s) = lw s) → emits (modify f) [].
Proof. intros Hf s. exists tt, (f s). split; [done|]. by rewrite Hf, app_nil_r. Qed.
Lemma emits_read i : emits (lapic_read answer i) [].
Proof. intros s. eexists _, _. split; [reflexivity|]. by rewrite app_nil_r. Qed.
Lemma emits_lapicw i v : emits (lapicw answer i v) [(i, u32 v)].
Proof. intros s. eexists _, _. split; [reflexivity|done]. Qed.
Lemma emits_for_each {I} (l : list I) (body : I → M apic unit) ws :
  (∀ x, emits (body x) ws) → emits (for_each l body) (concat (replicate (length l) ws)).
Proof. intros Hb. induction l as [|x l IH]; [apply emits_ret|]. cbn. apply emits_bind; [apply Hb|done]. Qed.
Lemma emits_eq {A} (m : M apic A) ws ws' : emits m ws → ws = ws' → emits m ws'.
Proof. by intros H ->. Qed.
Hint Resolve emits_bind emits_ret emits_read emits_lapicw emits_modify emits_for_each : emits.

(** ** Starting a processor *)
Definition start_writes (id addr : Z) : list (Z * Z) :=
  let hi := (ICRHI, u32 (Z.shiftl id 24)) in let st := (ICRLO, u32 (Z.lor STARTUP (Z.shiftr addr 12))) in
  [hi; (ICRLO, u32 (Z.lor (Z.lor INIT LEVEL) ASSERT)); (ICRLO, u32 (Z.lor INIT LEVEL)); hi; st; hi; st].
Lemma lapicstartap_writes id addr : emits (lapicstartap answer id addr) (start_writes id addr).
Proof. eapply emits_eq; [unfold lapicstartap, l_outb, l_store16, microdelay; eauto 30 with emits|reflexivity]. Qed.
(** ** Initialization *)
Lemma emits_wait fuel :
  (∀ ws n, ∃ d, (d < fuel)%nat ∧ Z.land (answer ws (n + d) ICRLO) DELIVS = 0) → emits (wait_delivery answer fuel) [].
Proof.
  intros Ha s. destruct (Ha (lw s) (lr s)) as (d & Hd & Hz). clear Ha. revert s d Hd Hz. induction fuel as [|f IH]; intros s d Hd Hz; [lia|].
  cbn [wait_delivery]. unfold lapic_read at 1, mbind, M_bind. destruct d as [|d].
  - rewrite Nat.add_0_r in Hz. rewrite Hz. cbn [Z.eqb negb]. eexists _, _. split; [reflexivity|by rewrite app_nil_r].
  - destruct (negb _); [|eexists _, _; split; [reflexivity|by rewrite app_nil_r]].
    apply (IH (mkApic (lw s) (S (lr s)) (l_ports s) (l_mem s)) d); cbn [lw lr]; [lia|]. by replace (S (lr s) + d)%nat with (lr s + S d)%nat by lia.
Qed.
Lemma lapicw_run i v s : lapicw answer i v s = Ok tt (mkApic (lw s ++ [(i, u32 v)]) (S (lr s)) (l_ports s) (l_mem s)).
Proof. done. Qed.
Definition init_writes (pc : bool) : list (Z * Z) :=
  [(SVR, 0x13f); (TDCR, 0xb); (TIMER, 0x20020); (TICR, 10000000); (LINT0, 0x10000); (LINT1, 0x10000)] ++
  (if pc then [(PCINT, 0x10000)] else []) ++
  [(ERROR, 51); (ESR, 0); (ESR, 0); (EOI, 0); (ICRHI, 0); (ICRLO, 0x88500); (TPR, 0)].
Lemma lapicinit_writes fuel :
  (∀ ws n, ∃ d, (d < fuel)%nat ∧ Z.land (answer ws (n + d) ICRLO) DELIVS = 0) →
  ∀ s, ∃ s' pc, lapicinit true answer fuel s = Ok tt s' ∧ lw s' = lw s ++ init_writes pc.
Proof.
  intros Ha s. pose proof (emits_wait fuel Ha) as Hwait. unfold lapicinit. cbn [negb].
  do 6 (rewrite (bind_run _ _ _ _ _ (lapicw_run _ _ _)); cbn [lw lr l_ports l_mem]). erewrite bind_run by reflexivity. cbn [lw lr l_ports l_mem].
  set (pc := _ <=? _). match goal with |- context [?m ?s1 = Ok tt _] => assert (emits m (drop 6 (init_writes pc))) as He; [|destruct (He s1) as ([] & s' & Hr & Hw)] end.
  { eapply emits_eq; [eapply (emits_bind _ _ (if pc then [(PCINT, u32 MASKED)] else [])); [by destruct pc; cbn [when]; auto with emits|intros []]|].
    - eauto 30 with emits.
    - by destruct pc. }
  exists s', pc. split; [done|]. rewrite Hw. cbn [lw]. rewrite <- !app_assoc. by destruct pc.
Qed.
End lapic_proof.

(** ** The messages *)
Lemma shift_id id : 0 ≤ id < 256 → Z.shiftr (u32 (Z.shiftl id 24)) 24 = id.
Proof. intros Hi. rewrite Z.shiftl_mul_pow2, u32_small, Z.shiftr_div_pow2, Z.div_mul by lia. done. Qed.
Lemma startup_message v : 0 ≤ v < 256 → u32 (Z.lor STARTUP v) = 0x600 + v.
Proof. intros Hv. rewrite (lor_low 8) by (done || lia). unfold STARTUP. rewrite u32_small; lia. Qed.
Lemma send_startup dest v aps i : 0 ≤ v < 256 →
  send dest (0x600 + v) aps i = if i =? dest then match aps i with Waiting => Started (Z.shiftl v 12) | x => x end else aps i.
Proof.
  intros Hv. unfold send, receive. rewrite !Z.shiftr_div_pow2 by lia. rewrite (Z.div_small _ (2 ^ 18)) by lia.
  replace ((0x600 + v) / 2 ^ 8) with 6 by (apply (Z.div_unique _ _ _ v); lia). change 0xff with (Z.ones 8). rewrite Z.land_ones by lia.
  replace ((0x600 + v) mod 2 ^ 8) with v by (apply (Z.mod_unique _ _ 6); lia). cbn [Z.land Z.eqb orb]. change (Z.land 6 7) with 6. cbn [Z.eqb Pos.eqb]. by destruct (i =? dest), (aps i).
Qed.
Lemma icr_hi v st : icr_step (ICRHI, v) st = (Z.shiftr v 24, st.2).
Proof. done. Qed.
Lemma icr_lo v st : icr_step (ICRLO, v) st = (st.1, send st.1 v st.2).
Proof. done. Qed.

(** lapicstartap starts the processor it names at the address it is given, whatever that processor did before, and
    disturbs no other one: the second startup message is ignored. *)
Theorem lapicstartap_starts answer id addr s d aps :
  0 ≤ id < 256 → 0 ≤ addr < 2 ^ 20 → addr mod 4096 = 0 →
  ∃ s' ws, lapicstartap answer id addr s = Ok tt s' ∧ lw s' = lw s ++ ws ∧
  ∀ i, (icr ws (d, aps)).2 i = if i =? id then Started addr else aps i.
Proof.
  intros Hid Ha Hal. destruct (lapicstartap_writes answer id addr s) as ([] & s' & Hr & Hw). exists s', (start_writes id addr). do 2 (split; [done|]).
  intros i. pose proof (Z.div_mod addr 4096 ltac:(lia)) as Hdm. assert (0 ≤ Z.shiftr addr 12 < 256) as Hv by (rewrite Z.shiftr_div_pow2 by lia; change (2 ^ 12) with 4096; lia).
  assert (Z.shiftl (Z.shiftr addr 12) 12 = addr) as Hpc by (rewrite Z.shiftr_div_pow2, Z.shiftl_mul_pow2 by lia; change (2 ^ 12) with 4096; lia).
  unfold start_writes, icr. cbn [foldl]. rewrite !icr_hi, startup_message by done. rewrite !icr_lo. cbn [fst snd]. rewrite !shift_id by done.
  rewrite !send_startup by done.
  change (u32 (Z.lor (Z.lor INIT LEVEL) ASSERT)) with 0xc500. change (u32 (Z.lor INIT LEVEL)) with 0x8500. unfold send, receive.
  destruct (i =? id); cbn; by rewrite ?Hpc.
Qed.
(** lapicinit programs the timer, masks the other local sources and resets no processor: its message to all is a
    de-assertion, which only synchronizes arbitration. *)
Theorem lapicinit_quiet answer fuel s d aps :
  (∀ ws n, ∃ d, (d < fuel)%nat ∧ Z.land (answer ws (n + d)%nat ICRLO) DELIVS = 0) →
  ∃ s' pc, lapicinit true answer fuel s = Ok tt s' ∧ lw s' = lw s ++ init_writes pc ∧ ∀ i, (icr (init_writes pc) (d, aps)).2 i = aps i.
Proof.
  intros Ha. destruct (lapicinit_writes answer fuel Ha s) as (s' & pc & Hr & Hw). exists s', pc. do 2 (split; [done|]). intros i. by destruct pc.
Qed.

(** ** The I/O APIC *)
Definition REG_ID : Z := 0x00.
Definition REG_VER : Z := 0x01.
Definition REG_TABLE : Z := 0x10.
Definition INT_DISABLED : Z := 0x00010000.
(** The index register, the registers behind it, and whether the message about the id was printed. *)
Record ioapic := mkIo { io_reg : Z; io_regs : Z → Z; io_message : bool }.
Section ioapic.
Context (ioapicid : Z).
Abbreviation IO := (M ioapic).
Definition io_select (r : Z) : IO unit := modify (λ s, mkIo (u32 r) (io_regs s) (io_message s)).
Definition ioapicread (r : Z) : IO Z := io_select r ;; gets (λ s, io_regs s (io_reg s)).
Definition ioapicwrite (r data : Z) : IO unit :=
  io_select r ;; modify (λ s, mkIo (io_reg s) (<[io_reg s := u32 data]> (io_regs s)) (io_message s)).
Definition ioapicinit : IO unit :=
  v ← ioapicread REG_VER;
  let maxintr := Z.land (Z.shiftr v 16) 0xFF in
  w ← ioapicread REG_ID;
  let id := Z.shiftr w 24 in
  when (negb (id =? ioapicid)) (modify (λ s, mkIo (io_reg s) (io_regs s) true)) ;;
  for_each (seqZ 0 (maxintr + 1)) (λ i,
    ioapicwrite (REG_TABLE + 2 * i) (Z.lor INT_DISABLED (T_IRQ0 + i)) ;;
    ioapicwrite (REG_TABLE + 2 * i + 1) 0).
Definition ioapicenable (irq cpunum : Z) : IO unit :=
  ioapicwrite (REG_TABLE + 2 * irq) (T_IRQ0 + irq) ;;
  ioapicwrite (REG_TABLE + 2 * irq + 1) (Z.shiftl cpunum 24).

(** The redirection of interrupt [i]: not masked, and then its vector and its destination, edge-triggered and active high. *)
Definition routed (i : Z) (f : Z → Z) : option (Z * Z) :=
  let lo := f (REG_TABLE + 2 * i) in
  if Z.testbit lo 16 then None else Some (Z.land lo 0xffff, Z.shiftr (f (REG_TABLE + 2 * i + 1)) 24).
(** One entry of the table. *)
Definition set_entry (i lo hi : Z) (f : Z → Z) : Z → Z := <[REG_TABLE + 2 * i + 1 := hi]> (<[REG_TABLE + 2 * i := lo]> f).
Lemma redir_run i lo hi s :
  0 ≤ i < 256 →
  (ioapicwrite (REG_TABLE + 2 * i) lo ;; ioapicwrite (REG_TABLE + 2 * i + 1) hi) s =
  Ok tt (mkIo (REG_TABLE + 2 * i + 1) (set_entry i (u32 lo) (u32 hi) (io_regs s)) (io_message s)).
Proof.
  intros Hi. unfold ioapicwrite, io_select, modify, mbind, M_bind. cbn [io_reg io_regs io_message]. unfold REG_TABLE.
  by rewrite !(u32_small (16 + 2 * i)), !(u32_small (16 + 2 * i + 1)) by lia.
Qed.
Lemma routed_set i j lo hi f :
  0 ≤ hi < 2 ^ 32 →
  routed j (set_entry i lo hi f) = if i =? j then if Z.testbit lo 16 then None else Some (Z.land lo 0xffff, Z.shiftr hi 24) else routed j f.
Proof.
  intros Hh. unfold routed, set_entry. destruct (Z.eqb_spec i j) as [->|Hne].
  - by rewrite fn_lookup_insert, (fn_lookup_insert_ne _ (REG_TABLE + 2 * j + 1) (REG_TABLE + 2 * j)), fn_lookup_insert by lia.
  - by rewrite !fn_lookup_insert_ne by lia.
Qed.
Lemma init_loop_run n s :
  (n ≤ 256)%nat →
  ∃ s', for_each (seqZ 0 (Z.of_nat n)) (λ i, ioapicwrite (REG_TABLE + 2 * i) (Z.lor INT_DISABLED (T_IRQ0 + i)) ;;
                                             ioapicwrite (REG_TABLE + 2 * i + 1) 0) s = Ok tt s' ∧
        (∀ j, 0 ≤ j < Z.of_nat n → routed j (io_regs s') = None) ∧ (∀ r, r < REG_TABLE → io_regs s' r = io_regs s r).
Proof.
  induction n as [|n IH]; intros Hn.
  { exists s. split; [done|]. split; [lia|done]. }
  destruct (IH ltac:(lia)) as (s1 & H1 & Hr & Hk). rewrite seqZ_S, for_each_app. rewrite (bind_run _ _ _ _ _ H1). cbn [for_each].
  rewrite Z.add_0_l. rewrite (bind_run _ _ _ _ _ (redir_run (Z.of_nat n) _ _ s1 ltac:(lia))). eexists. split; [reflexivity|]. cbn [io_regs]. split.
  - intros j Hj. rewrite routed_set by apply u32_range. destruct (Z.eqb_spec (Z.of_nat n) j) as [<-|]; [|apply Hr; lia].
    assert (Z.testbit (u32 (Z.lor INT_DISABLED (T_IRQ0 + Z.of_nat n))) 16 = true) as ->; [|done].
    unfold u32. rewrite Z.mod_pow2_bits_low, Z.lor_spec by lia. done.
  - intros r Hlt. unfold set_entry. rewrite !fn_lookup_insert_ne by (unfold REG_TABLE in *; lia). by apply Hk.
Qed.

(** ioapicinit masks every interrupt of the controller, and ioapicenable then routes exactly the one it is given: to the vector that
    trap() expects and to the processor it names. *)
Theorem ioapicinit_masks s (v := io_regs s REG_VER) :
  ∃ s', ioapicinit s = Ok tt s' ∧ ∀ j, 0 ≤ j ≤ Z.land (Z.shiftr v 16) 0xFF → routed j (io_regs s') = None.
Proof.
  unfold ioapicinit. erewrite bind_run by reflexivity. erewrite bind_run by reflexivity. cbn [io_regs io_reg].
  change (u32 REG_VER) with REG_VER. fold v. assert (0 ≤ Z.land (Z.shiftr v 16) 0xFF < 256) as Hm.
  { change 0xFF with (Z.ones 8). rewrite Z.land_ones by lia. by apply Z.mod_pos_bound. }
  set (mx := Z.land (Z.shiftr v 16) 0xFF) in *. set (b := negb _). set (s1 := mkIo _ _ _).
  replace (mx + 1) with (Z.of_nat (Z.to_nat (mx + 1))) by lia.
  destruct b; cbn [when].
  - rewrite (bind_run (modify _) _ tt s1 (mkIo (io_reg s1) (io_regs s1) true) eq_refl).
    destruct (init_loop_run (Z.to_nat (mx + 1)) (mkIo (io_reg s1) (io_regs s1) true) ltac:(lia)) as (s' & Hrun & Hr & _). exists s'. split; [exact Hrun|]. intros j Hj. apply Hr. lia.
  - rewrite (bind_run (mret tt) _ tt s1 s1 eq_refl).
    destruct (init_loop_run (Z.to_nat (mx + 1)) s1 ltac:(lia)) as (s' & Hrun & Hr & _). exists s'. split; [exact Hrun|]. intros j Hj. apply Hr. lia.
Qed.
Theorem ioapicenable_routes irq cpunum s :
  0 ≤ irq < 128 → 0 ≤ cpunum < 256 →
  ∃ s', ioapicenable irq cpunum s = Ok tt s' ∧
  ∀ j, routed j (io_regs s') = if irq =? j then Some (T_IRQ0 + irq, cpunum) else routed j (io_regs s).
Proof.
  intros Hi Hc. eexists. split; [by apply redir_run; lia|]. intros j. cbn [io_regs]. rewrite routed_set by apply u32_range. unfold T_IRQ0.
  rewrite shift_id, u32_small by lia. assert (Z.testbit (32 + irq) 16 = false) as -> by (apply Z.testbit_false; [lia|]; by rewrite Z.div_small by lia).
  change 0xffff with (Z.ones 16). by rewrite Z.land_ones, Z.mod_small by lia.
Qed.
End ioapic.

(** ** The PIC: all interrupts masked *)
Definition IO_PIC1 : Z := 0x20.
Definition IO_PIC2 : Z := 0xA0.
Definition picinit : M (list (Z * Z)) unit :=
  modify (λ o, o ++ [(IO_PIC1 + 1, 0xFF)]) ;; modify (λ o, o ++ [(IO_PIC2 + 1, 0xFF)]).

(** * The serial port (uart.c)

    The state records the writes to ports in order and counts the reads; [answer] is what a port reads after the writes so
    far, at the n-th read.  Routing the interrupt is ioapicenable of ioapic.c. *)

Definition COM1 : Z := 0x3f8.
Record uart_st := mkUart { uart : bool; u_out : list (Z * Z); u_reads : nat; u_io : ioapic }.
Definition io_of : lens uart_st ioapic := {| view := u_io; upd := λ i s, mkUart (uart s) (u_out s) (u_reads s) i |}.
(** "xv6..." and a newline *)
Definition greeting : list Z := [120; 118; 54; 46; 46; 46; 10].

Section uart.
Context (answer : list (Z * Z) → nat → Z → Z).
Abbreviation UA := (M uart_st).
Definition u_outb (port v : Z) : UA unit := modify (λ s, mkUart (uart s) (u_out s ++ [(port, u8 v)]) (u_reads s) (u_io s)).
Definition u_inb (port : Z) : UA Z := λ s, Ok (u8 (answer (u_out s) (u_reads s) port)) (mkUart (uart s) (u_out s) (S (u_reads s)) (u_io s)).

(** The loop that waits for the transmitter, at most [n] times. *)
Fixpoint putc_wait (n : nat) : UA unit :=
  match n with
  | O => mret tt
  | S n' => r ← u_inb (COM1 + 5); if Z.land r 0x20 =? 0 then putc_wait n' else mret tt
  end.
Definition uartputc (c : Z) : UA unit :=
  u ← gets uart;
  if negb u then mret tt else putc_wait 128 ;; u_outb (COM1 + 0) c.
Definition uartinit : UA unit :=
  u_outb (COM1 + 2) 0 ;;
  u_outb (COM1 + 3) 0x80 ;;
  u_outb (COM1 + 0) (115200 / 9600) ;;
  u_outb (COM1 + 1) 0 ;;
  u_outb (COM1 + 3) 0x03 ;;
  u_outb (COM1 + 4) 0 ;;
  u_outb (COM1 + 1) 0x01 ;;
  r ← u_inb (COM1 + 5);
  if r =? 0xFF then mret tt else
  modify (λ s, mkUart true (u_out s) (u_reads s) (u_io s)) ;;
  u_inb (COM1 + 2) ;;
  u_inb (COM1 + 0) ;;
  zoom io_of (ioapicenable IRQ_COM1 0) ;;
  for_each greeting uartputc.
Definition uartgetc : UA Z :=
  u ← gets uart;
  if negb u then mret (-1) else
  r ← u_inb (COM1 + 5);
  if Z.land r 0x01 =? 0 then mret (-1) else u_inb (COM1 + 0).

(** ** What the port does *)
(** The divisor latch, whether it is selected, the interrupts enabled, and the characters sent. *)
Record line := mkLine { dlab : bool; divisor : Z; ier : Z; sent : list Z }.
Definition port_step (l : line) (w : Z * Z) : line :=
  if w.1 =? COM1 + 3 then mkLine (Z.testbit w.2 7) (divisor l) (ier l) (sent l)
  else if w.1 =? COM1 + 0 then
    if dlab l then mkLine true (divisor l / 256 * 256 + w.2) (ier l) (sent l) else mkLine false (divisor l) (ier l) (sent l ++ [w.2])
  else if w.1 =? COM1 + 1 then
    if dlab l then mkLine true (w.2 * 256 + divisor l mod 256) (ier l) (sent l) else mkLine false (divisor l) w.2 (sent l)
  else l.
Definition line_after (l : line) (ws : list (Z * Z)) : line := foldl port_step l ws.
Lemma line_app l w1 w2 : line_after l (w1 ++ w2) = line_after (line_after l w1) w2.
Proof. apply foldl_app. Qed.

Lemma putc_wait_run n s : ∃ k, putc_wait n s = Ok tt (mkUart (uart s) (u_out s) k (u_io s)) ∧ (k ≤ u_reads s + n)%nat.
Proof.
  revert s. induction n as [|n IH]; intros s; cbn [putc_wait].
  { exists (u_reads s). split; [by destruct s|lia]. }
  erewrite bind_run by reflexivity. destruct (_ =? 0).
  - destruct (IH (mkUart (uart s) (u_out s) (S (u_reads s)) (u_io s))) as (k & Hk & Hb). exists k. split; [exact Hk|]. cbn in Hb. lia.
  - exists (S (u_reads s)). split; [done|lia].
Qed.
(** uartputc waits for the transmitter at most 128 times and then sends the character; without a port it does nothing. *)
Lemma uartputc_sent c s l :
  dlab (line_after l (u_out s)) = false →
  ∃ s', uartputc c s = Ok tt s' ∧ uart s' = uart s ∧ u_io s' = u_io s ∧ (u_reads s' ≤ u_reads s + 128)%nat ∧
  line_after l (u_out s') =
    mkLine false (divisor (line_after l (u_out s))) (ier (line_after l (u_out s))) (sent (line_after l (u_out s)) ++ if uart s then [u8 c] else []).
Proof.
  intros Hd. unfold uartputc. rewrite (bind_run (gets uart) _ (uart s) s s eq_refl). destruct (uart s) eqn:E; cbn [negb].
  - destruct (putc_wait_run 128 s) as (k & Hk & Hb). rewrite (bind_run _ _ _ _ _ Hk). eexists. split; [reflexivity|]. cbn [uart u_io u_reads u_out].
    do 2 (split; [done|]). split; [lia|]. rewrite line_app. set (l1 := line_after l (u_out s)) in *. clearbody l1. unfold line_after, port_step. cbn. by rewrite Hd.
  - exists s. do 3 (split; [done|]). split; [lia|]. rewrite app_nil_r. rewrite <- Hd. by destruct (line_after l (u_out s)).
Qed.
Lemma announce_run text s l :
  dlab (line_after l (u_out s)) = false → uart s = true →
  ∃ s', for_each text uartputc s = Ok tt s' ∧ uart s' = true ∧ u_io s' = u_io s ∧
  line_after l (u_out s') =
    mkLine false (divisor (line_after l (u_out s))) (ier (line_after l (u_out s))) (sent (line_after l (u_out s)) ++ (u8 <$> text)).
Proof.
  revert s. induction text as [|c text IH]; intros s Hd Hu; cbn [for_each].
  { exists s. do 3 (split; [done|]). cbn. rewrite app_nil_r, <- Hd. by destruct (line_after l (u_out s)). }
  destruct (uartputc_sent c s l Hd) as (s1 & H1 & U1 & I1 & _ & L1). rewrite (bind_run _ _ _ _ _ H1). rewrite Hu in *.
  destruct (IH s1) as (s' & H2 & U2 & I2 & L2); [by rewrite L1|done|]. exists s'. split; [done|]. split; [done|]. split; [by rewrite I2|].
  rewrite L2, L1. cbn. by rewrite <- app_assoc.
Qed.
Definition setup_writes : list (Z * Z) :=
  [(COM1 + 2, 0); (COM1 + 3, 0x80); (COM1, 12); (COM1 + 1, 0); (COM1 + 3, 3); (COM1 + 4, 0); (COM1 + 1, 1)].
(** The line status reads 0xFF after the port was set up. *)
Definition absent (s : uart_st) : Prop := u8 (answer (u_out s ++ setup_writes) (u_reads s) (COM1 + 5)) = 0xFF.
Lemma setup_line l ws : line_after l (ws ++ setup_writes) = mkLine false 12 1 (sent (line_after l ws)).
Proof.
  assert (∀ l v, port_step l (COM1 + 3, v) = mkLine (Z.testbit v 7) (divisor l) (ier l) (sent l)) as H3 by done.
  assert (∀ d i t v, port_step (mkLine true d i t) (COM1, v) = mkLine true (d / 256 * 256 + v) i t) as H0 by done.
  assert (∀ d i t v, port_step (mkLine true d i t) (COM1 + 1, v) = mkLine true (v * 256 + d mod 256) i t) as H1 by done.
  assert (∀ d i t v, port_step (mkLine false d i t) (COM1 + 1, v) = mkLine false d v t) as H1' by done.
  assert (∀ l v, port_step l (COM1 + 2, v) = l ∧ port_step l (COM1 + 4, v) = l) as H24 by done.
  rewrite line_app. unfold line_after at 1, setup_writes. cbn [foldl]. rewrite (proj1 (H24 _ _)), (H3 _ 0x80). change (Z.testbit 0x80 7) with true. rewrite H0, H1.
  rewrite H3. change (Z.testbit 3 7) with false. rewrite (proj2 (H24 _ _)), H1'. cbn [divisor sent]. f_equal.
  rewrite Z.mul_0_l, Z.add_0_l, Z.add_comm, Z.mod_add by lia. done.
Qed.
(** uartinit sets the line to 9600 baud with receive interrupts, whatever its state; if there is a port it routes the interrupt of the port
    to processor 0 and announces the system, and without a port later output is dropped. *)
Theorem uartinit_announces s l :
  uart s = false →
  ∃ s', uartinit s = Ok tt s' ∧
  line_after l (u_out s') = mkLine false 12 1 (sent (line_after l (u_out s)) ++ if uart s' then greeting else []) ∧
  (uart s' = false ↔ absent s) ∧
  ∀ j, routed j (io_regs (u_io s')) = if uart s' && (IRQ_COM1 =? j) then Some (T_IRQ0 + IRQ_COM1, 0) else routed j (io_regs (u_io s)).
Proof.
  intros Hu. unfold uartinit.
  do 7 (erewrite bind_run by reflexivity; cbn [uart u_out u_reads u_io]). erewrite bind_run by reflexivity. cbn [uart u_out u_reads u_io].
  rewrite <- !app_assoc. cbn [app]. fold setup_writes.
  change (_ :: _) with setup_writes. destruct (Z.eqb_spec (u8 (answer (u_out s ++ setup_writes) (u_reads s) (COM1 + 5))) 0xFF) as [E|E].
  { eexists. split; [reflexivity|]. cbn [uart u_out u_io]. rewrite Hu. rewrite app_nil_r. split; [apply setup_line|]. split; [by split|done]. }
  do 3 (erewrite bind_run by reflexivity; cbn [uart u_out u_reads u_io]).
  destruct (ioapicenable_routes IRQ_COM1 0 (u_io s) ltac:(done) ltac:(done)) as (io & Hio & Hroute).
  rewrite (bind_run _ _ _ _ _ (zoom_run io_of _ tt (mkUart true (u_out s ++ setup_writes) (S (S (S (u_reads s)))) (u_io s)) _ Hio)). cbn [upd io_of uart u_out u_reads u_io].
  destruct (announce_run greeting (mkUart true (u_out s ++ setup_writes) (S (S (S (u_reads s)))) io) l) as (s' & H & U & I & L);
    [cbn [u_out]; by rewrite setup_line|done|]. exists s'. split; [exact H|]. rewrite L, U, I. cbn [u_out u_io]. rewrite setup_line. split; [done|]. split; [by split|exact Hroute].
Qed.
End uart.

(** * The time of day (lapic.c: cmos_read, fill_rtcdate, cmostime)

    The clock chip goes on while it is read through its two ports.  [reg n r] is the value that register [r] has at the
    [n]-th access to the ports; the state is the number of accesses so far and the register that port 0x70 selected. *)

Definition CMOS_STATA : Z := 0x0a.
Definition CMOS_STATB : Z := 0x0b.
Definition CMOS_UIP : Z := Z.shiftl 1 7.
Definition SECS : Z := 0x00.
Definition MINS : Z := 0x02.
Definition HOURS : Z := 0x04.
Definition DAY : Z := 0x07.
Definition MONTH : Z := 0x08.
Definition YEAR : Z := 0x09.

Record rtcdate := mkDate { second : Z; minute : Z; hour : Z; day : Z; month : Z; year : Z }.
#[export] Instance rtcdate_eq_dec : EqDecision rtcdate.
Proof. solve_decision. Defined.
Record cmos := mkCmos { accesses : nat; selected : Z }.

Section cmos.
Context (reg : nat → Z → Z).
Abbreviation CM := (M cmos).

Definition cmos_outb (v : Z) : CM unit := modify (λ c, mkCmos (S (accesses c)) (u8 v)).
Definition cmos_inb : CM Z := λ c, Ok (reg (accesses c) (selected c)) (mkCmos (S (accesses c)) (selected c)).
Definition cmos_read (r : Z) : CM Z := cmos_outb r ;; cmos_inb.
Definition fill_rtcdate : CM rtcdate :=
  s ← cmos_read SECS; mi ← cmos_read MINS; h ← cmos_read HOURS; d ← cmos_read DAY; mo ← cmos_read MONTH; y ← cmos_read YEAR;
  mret (mkDate s mi h d mo y).
(** The loop that reads until two dates agree. *)
Fixpoint cmos_loop (n : nat) : CM rtcdate :=
  match n with
  | O => spin
  | S n' =>
      t1 ← fill_rtcdate;
      a ← cmos_read CMOS_STATA;
      if negb (Z.land a CMOS_UIP =? 0) then cmos_loop n' else
      t2 ← fill_rtcdate;
      if bool_decide (t1 = t2) then mret t1 else cmos_loop n'
  end.
Definition conv (x : Z) : Z := u32 (Z.shiftr x 4 * 10 + Z.land x 0xf).
Definition conv_date (t : rtcdate) : rtcdate :=
  mkDate (conv (second t)) (conv (minute t)) (conv (hour t)) (conv (day t)) (conv (month t)) (conv (year t)).
Definition cmostime (fuel : nat) : CM rtcdate :=
  sb ← cmos_read CMOS_STATB;
  let bcd := Z.land sb (Z.shiftl 1 2) =? 0 in
  t1 ← cmos_loop fuel;
  let t := if bcd then conv_date t1 else t1 in
  mret (mkDate (second t) (minute t) (hour t) (day t) (month t) (u32 (year t + 2000))).

(** ** A running clock *)
(** How the chip holds a number of two digits, in binary or in BCD. *)
Definition enc (bcd : bool) (v : Z) : Z := if bcd then v / 10 * 16 + v mod 10 else v.
Definition two_digits (v : Z) : Prop := 0 ≤ v < 100.
(** The chip as its data sheet describes it.  [time n] is the second it is at when the [n]-th access happens, [date]
    the date of a second with the year in two digits.  While the chip advances its registers ([updating n]) nothing is
    known of what they read; the bit UIP of register A is then set, and it is set early enough (244 microseconds before)
    that, after an access at which it reads clear, no update begins within the next twelve accesses to the ports. *)
Definition uip (n : nat) : bool := negb (Z.land (reg n CMOS_STATA) CMOS_UIP =? 0).
Record clock_ok (time : nat → Z) (date : Z → rtcdate) (updating : nat → Prop) (bcd : bool) : Prop := {
  clock_regs n : ¬ updating n →
    reg n SECS = enc bcd (second (date (time n))) ∧ reg n MINS = enc bcd (minute (date (time n))) ∧
    reg n HOURS = enc bcd (hour (date (time n))) ∧ reg n DAY = enc bcd (day (date (time n))) ∧
    reg n MONTH = enc bcd (month (date (time n))) ∧ reg n YEAR = enc bcd (year (date (time n)));
  clock_uip n : uip n = false → ∀ d, (d ≤ 12)%nat → ¬ updating (n + d)%nat ∧ time (n + d)%nat = time n;
  clock_mode n : (Z.land (reg n CMOS_STATB) 4 =? 0) = bcd;
  clock_digits t : two_digits (second (date t)) ∧ two_digits (minute (date t)) ∧ two_digits (hour (date t)) ∧
    two_digits (day (date t)) ∧ two_digits (month (date t)) ∧ two_digits (year (date t)) }.

Lemma conv_enc v : two_digits v → conv (enc true v) = v.
Proof.
  intros Hv. unfold conv, enc, two_digits in *. pose proof (Z.div_mod v 10 ltac:(lia)) as Hd. pose proof (Z.mod_pos_bound v 10 ltac:(lia)) as Hm.
  assert (0 ≤ v / 10 < 10) by lia. rewrite Z.shiftr_div_pow2 by lia. change 0xf with (Z.ones 4). rewrite Z.land_ones by lia. change (2 ^ 4) with 16.
  rewrite (Z.add_comm (v / 10 * 16)), Z.div_add, Z.mod_add, Z.div_small, Z.mod_small by lia. rewrite u32_small; lia.
Qed.

(** ** What one pass of the loop reads *)
Lemma read_run r c : 0 ≤ r < 256 → cmos_read r c = Ok (reg (S (accesses c)) r) (mkCmos (2 + accesses c) r).
Proof. intros Hr. unfold cmos_read, cmos_outb, cmos_inb, modify, mbind, M_bind. cbn. unfold u8. by rewrite Z.mod_small. Qed.
(** The date that reading from the [k]-th access on gives. *)
Definition sampled (k : nat) : rtcdate :=
  mkDate (reg (k + 1) SECS) (reg (k + 3) MINS) (reg (k + 5) HOURS) (reg (k + 7) DAY) (reg (k + 9) MONTH) (reg (k + 11) YEAR).
Lemma fill_run c : fill_rtcdate c = Ok (sampled (accesses c)) (mkCmos (accesses c + 12) YEAR).
Proof.
  assert (∀ r, r ∈ [SECS; MINS; HOURS; DAY; MONTH; YEAR] → 0 ≤ r < 256) as Hr by (apply Forall_forall; repeat (apply Forall_cons_2; [done|]); apply Forall_nil_2).
  unfold fill_rtcdate. do 6 (erewrite bind_run by (apply read_run, Hr; set_solver); cbn [accesses]).
  unfold mret, M_ret, sampled. repeat (lia || f_equal).
Qed.
Lemma pass_run n c (k := accesses c) :
  cmos_loop (S n) c =
  if uip (k + 13) then cmos_loop n (mkCmos (k + 14) CMOS_STATA)
  else if bool_decide (sampled k = sampled (k + 14)) then Ok (sampled k) (mkCmos (k + 26) YEAR)
  else cmos_loop n (mkCmos (k + 26) YEAR).
Proof.
  unfold k. cbn [cmos_loop]. rewrite (bind_run _ _ _ _ _ (fill_run c)), (bind_run _ _ _ _ _ (read_run CMOS_STATA _ ltac:(done))). cbn [accesses].
  replace (S (accesses c + 12)) with (accesses c + 13)%nat by lia. replace (2 + (accesses c + 12))%nat with (accesses c + 14)%nat by lia.
  fold (uip (accesses c + 13)). destruct (uip _); [done|]. rewrite (bind_run _ _ _ _ _ (fill_run _)). cbn [accesses]. rewrite <- Nat.add_assoc. by case_bool_decide.
Qed.

Section running.
Context (time : nat → Z) (date : Z → rtcdate) (updating : nat → Prop) (bcd : bool) (Hclk : clock_ok time date updating bcd).
Definition raw (t : Z) : rtcdate :=
  mkDate (enc bcd (second (date t))) (enc bcd (minute (date t))) (enc bcd (hour (date t))) (enc bcd (day (date t)))
    (enc bcd (month (date t))) (enc bcd (year (date t))).
(** A date read while the clock stands. *)
Lemma sampled_still k t :
  (∀ d, (d ≤ 10)%nat → ¬ updating (k + 1 + d)%nat ∧ time (k + 1 + d)%nat = t) → sampled k = raw t.
Proof using Hclk.
  intros Hs. assert (∀ d, (d ≤ 10)%nat → let n := (k + (1 + d))%nat in reg n SECS = enc bcd (second (date t)) ∧
    reg n MINS = enc bcd (minute (date t)) ∧ reg n HOURS = enc bcd (hour (date t)) ∧ reg n DAY = enc bcd (day (date t)) ∧
    reg n MONTH = enc bcd (month (date t)) ∧ reg n YEAR = enc bcd (year (date t))) as Hreg.
  { intros d Hd n. destruct (Hs d Hd) as [Hu Ht]. rewrite <- Nat.add_assoc in Hu, Ht. fold n in Hu, Ht.
    pose proof (clock_regs _ _ _ _ Hclk n Hu) as H. by rewrite Ht in H. }
  unfold sampled, raw. cbn in Hreg.
  destruct (Hreg 0%nat ltac:(lia)) as (-> & _). destruct (Hreg 2%nat ltac:(lia)) as (_ & -> & _).
  destruct (Hreg 4%nat ltac:(lia)) as (_ & _ & -> & _). destruct (Hreg 6%nat ltac:(lia)) as (_ & _ & _ & -> & _).
  destruct (Hreg 8%nat ltac:(lia)) as (_ & _ & _ & _ & -> & _). by destruct (Hreg 10%nat ltac:(lia)) as (_ & _ & _ & _ & _ & ->).
Qed.
(** After a clear UIP the second date is one that the clock showed. *)
Lemma sampled_second k : uip (k + 13) = false → sampled (k + 14) = raw (time (k + 13)).
Proof using Hclk.
  intros Hu. apply sampled_still. intros d Hd. replace (k + 14 + 1 + d)%nat with (k + 13 + (2 + d))%nat by lia.
  apply (clock_uip _ _ _ _ Hclk (k + 13) Hu). lia.
Qed.
(** The chip is quiet: UIP reads clear for two passes of the loop. *)
Definition quiet (n0 : nat) : Prop := ∀ d, (d ≤ 52)%nat → uip (n0 + d) = false.
Lemma quiet_still n0 d : quiet n0 → (d ≤ 52)%nat → ¬ updating (n0 + d)%nat ∧ time (n0 + d)%nat = time n0.
Proof using Hclk.
  intros Hq Hd. split; [pose proof (clock_uip _ _ _ _ Hclk _ (Hq d Hd) 0%nat ltac:(lia)) as [Hu _]; by rewrite Nat.add_0_r in Hu|].
  induction d as [|d IH]; [by rewrite Nat.add_0_r|]. rewrite <- IH by lia.
  pose proof (clock_uip _ _ _ _ Hclk _ (Hq d ltac:(lia)) 1%nat ltac:(lia)) as [_ Ht]. by rewrite Nat.add_1_r, <- Nat.add_succ_r in Ht.
Qed.
Lemma cmos_loop_run n0 f c :
  quiet n0 → (accesses c ≤ n0 + 26)%nat → (n0 - accesses c < f)%nat →
  ∃ n c', (accesses c ≤ n ≤ n0 + 52)%nat ∧ ¬ updating n ∧ cmos_loop f c = Ok (raw (time n)) c'.
Proof using Hclk.
  intros Hq. revert c. induction f as [|f IH]; intros c Hk Hf; [lia|]. rewrite pass_run. destruct (uip (accesses c + 13)) eqn:Hu.
  { destruct (decide (n0 ≤ accesses c)%nat) as [Hin|Hin].
    { pose proof (Hq (accesses c - n0 + 13)%nat ltac:(lia)) as Hq13. replace (n0 + (accesses c - n0 + 13))%nat with (accesses c + 13)%nat in Hq13 by lia. congruence. }
    destruct (IH (mkCmos (accesses c + 14) CMOS_STATA)) as (n & c' & Hn & Hnu & Hr); cbn [accesses] in *; [lia|lia|]. exists n, c'. split; [lia|done]. }
  rewrite (sampled_second _ Hu). case_bool_decide as E.
  { exists (accesses c + 13)%nat. eexists. split; [lia|]. split; [|by rewrite E].
    pose proof (clock_uip _ _ _ _ Hclk _ Hu 0%nat ltac:(lia)) as [Hn _]. by rewrite Nat.add_0_r in Hn. }
  destruct (decide (n0 ≤ accesses c)%nat) as [Hin|Hin].
  { exfalso. apply E. apply sampled_still. intros d Hd.
    destruct (quiet_still n0 (accesses c - n0 + (1 + d)) Hq ltac:(lia)) as [H1 H2].
    destruct (quiet_still n0 (accesses c - n0 + 13) Hq ltac:(lia)) as [_ H3].
    replace (n0 + (accesses c - n0 + (1 + d)))%nat with (accesses c + 1 + d)%nat in H1, H2 by lia.
    replace (n0 + (accesses c - n0 + 13))%nat with (accesses c + 13)%nat in H3 by lia. split; [done|congruence]. }
  destruct (IH (mkCmos (accesses c + 26) YEAR)) as (n & c' & Hn & Hnu & Hr); cbn [accesses] in *; [lia|lia|]. exists n, c'. split; [lia|done].
Qed.
(** The date with the whole year. *)
Definition full_date (t : rtcdate) : rtcdate := mkDate (second t) (minute t) (hour t) (day t) (month t) (2000 + year t).
Lemma convert_raw t :
  let t' := if bcd then conv_date (raw t) else raw t in
  mkDate (second t') (minute t') (hour t') (day t') (month t') (u32 (year t' + 2000)) = full_date (date t).
Proof using Hclk.
  destruct (clock_digits _ _ _ _ Hclk t) as (Hs & Hm & Hh & Hd & Hmo & Hy). unfold full_date, raw, conv_date.
  destruct bcd; cbn [second minute hour day month year].
  - rewrite !conv_enc by done. f_equal. unfold two_digits in Hy. rewrite u32_small; lia.
  - unfold enc. f_equal. unfold two_digits in Hy. rewrite u32_small; lia.
Qed.
End running.
End cmos.

(** C29: cmostime returns a date that the clock showed at one moment while it was read, outside of any update, although the
    clock may go on between any two accesses to its ports, its registers may hold anything during an update, and it holds
    numbers in binary or in BCD.  This rests on what the data sheet says of the bit UIP (with twelve accesses to the ports
    taking less than its 244 microseconds, which they do as microdelay() is empty); for cmostime to return, UIP must at
    some point read clear for two passes of the loop. *)
Theorem cmostime_consistent reg time date updating bcd fuel n0 c :
  clock_ok reg time date updating bcd → quiet reg n0 → (accesses c ≤ n0)%nat → (n0 < fuel)%nat →
  ∃ n c', (accesses c ≤ n ≤ n0 + 52)%nat ∧ ¬ updating n ∧ cmostime reg fuel c = Ok (full_date (date (time n))) c'.
Proof.
  intros Hclk Hq Hc Hf. unfold cmostime. rewrite (bind_run _ _ _ _ _ (read_run reg CMOS_STATB c ltac:(done))).
  change (Z.shiftl 1 2) with 4. rewrite (clock_mode _ _ _ _ _ Hclk).
  destruct (cmos_loop_run reg time date updating bcd Hclk n0 fuel (mkCmos (2 + accesses c) CMOS_STATB) Hq) as (n & c' & Hn & Hnu & Hr); cbn [accesses] in *; [lia|lia|].
  exists n, c'. split; [lia|]. split; [done|]. rewrite (bind_run _ _ _ _ _ Hr). unfold mret, M_ret. f_equal.
  by apply (convert_raw reg time date updating bcd Hclk).
Qed.
(** A clock that goes from 58 to 59 seconds in an update from access 8 to access 20, announced by UIP from the start; its
    registers read 255 meanwhile. *)
Definition demo_time (n : nat) : Z := if (n <? 20)%nat then 58 else 59.
Definition demo_date (t : Z) : rtcdate := mkDate (t mod 60) 59 23 31 12 23.
Definition demo_updating (n : nat) : Prop := (8 ≤ n < 20)%nat.
Definition demo_reg (n : nat) (r : Z) : Z :=
  let t := demo_date (demo_time n) in
  if r =? CMOS_STATB then 2 else if r =? CMOS_STATA then if (n <? 20)%nat then 0xa6 else 0x26
  else if (8 <=? n)%nat && (n <? 20)%nat then 255
  else if r =? SECS then enc true (second t) else if r =? MINS then enc true (minute t) else if r =? HOURS then enc true (hour t)
  else if r =? DAY then enc true (day t) else if r =? MONTH then enc true (month t) else enc true (year t).
Lemma demo_clock_ok : clock_ok demo_reg demo_time demo_date demo_updating true.
Proof.
  split.
  - intros n Hn. unfold demo_reg. cbn [Z.eqb SECS MINS HOURS DAY MONTH YEAR CMOS_STATA CMOS_STATB Pos.eqb].
    replace ((8 <=? n)%nat && (n <? 20)%nat) with false; [by repeat split|].
    unfold demo_updating in Hn. destruct (Nat.leb_spec 8 n), (Nat.ltb_spec n 20); try done. lia.
  - intros n Hu d _. unfold uip, demo_reg in Hu. cbn [Z.eqb CMOS_STATA CMOS_STATB Pos.eqb] in Hu.
    unfold demo_updating, demo_time. destruct (Nat.ltb_spec n 20) as [|Hge]; [done|].
    rewrite (proj2 (Nat.ltb_ge (n + d) 20)) by lia. split; [lia|done].
  - intros n. reflexivity.
  - intros t. cbn. unfold two_digits. pose proof (Z.mod_pos_bound t 60). lia.
Qed.
Lemma cmostime_consistent_witness :
  ∃ n c', (0 ≤ n ≤ 72)%nat ∧ ~ demo_updating n ∧
    cmostime demo_reg 21 (mkCmos 0 0) = Ok (full_date (demo_date (demo_time n))) c'.
Proof.
  apply (cmostime_consistent demo_reg demo_time demo_date demo_updating true 21 20 (mkCmos 0 0)); [|  |cbn; lia|lia].
  - exact demo_clock_ok.
  - intros d _. unfold uip, demo_reg. cbn [Z.eqb CMOS_STATA CMOS_STATB Pos.eqb].
    by rewrite (proj2 (Nat.ltb_ge (20 + d) 20)) by lia.
Defined.
(** What reading the registers gives during that update. *)
Example demo_update_seen : sampled demo_reg 8 = mkDate 255 255 255 255 255 255.
Proof. reflexivity. Qed.
