(* ===== verification/Segment.v ===== *)
(** * Segments, gates and the protection of the kernel (mmu.h; vm.c: seginit, kvmalloc, switchkvm, switchuvm; trap.c: tvinit, idtinit)

    Descriptors are the structures of mmu.h; [pack] lays their bit fields out as the compiler does.  The processor reads the
    packed descriptors ([deliver], [io_reachable]): this half is the architecture, not the program.  Each processor has its
    table and task state in its entry of [cpus], and its registers. *)

From S2P Require Import Prelude Spinlock CStr Proc Trap Mem Kalloc Vm.

Definition SEG_KCODE : Z := 1.
Definition SEG_KDATA : Z := 2.
Definition SEG_TSS : Z := 5.
Definition NSEGS : Z := 6.
Definition STA_X : Z := 0x8.
Definition STA_W : Z := 0x2.
Definition STA_R : Z := 0x2.
Definition STS_T32A : Z := 0x9.
Definition STS_IG32 : Z := 0xE.
Definition STS_TG32 : Z := 0xF.
Definition sizeof_ts : Z := 104.

Record segdesc := mkSegDesc {
  lim_15_0 : Z; base_15_0 : Z; base_23_16 : Z; sd_type : Z; sd_s : Z; sd_dpl : Z; sd_p : Z; lim_19_16 : Z;
  sd_avl : Z; sd_rsv1 : Z; sd_db : Z; sd_g : Z; base_31_24 : Z }.
Definition SEG (type base lim dpl : Z) : segdesc :=
  mkSegDesc (Z.land (Z.shiftr lim 12) 0xffff) (Z.land (u32 base) 0xffff) (Z.land (Z.shiftr (u32 base) 16) 0xff) type 1 dpl 1
    (Z.shiftr (u32 lim) 28) 0 0 1 1 (Z.shiftr (u32 base) 24).
Definition SEG16 (type base lim dpl : Z) : segdesc :=
  mkSegDesc (Z.land lim 0xffff) (Z.land (u32 base) 0xffff) (Z.land (Z.shiftr (u32 base) 16) 0xff) type 1 dpl 1
    (Z.shiftr (u32 lim) 16) 0 0 1 0 (Z.shiftr (u32 base) 24).
Definition set_s (v : Z) (d : segdesc) : segdesc :=
  mkSegDesc (lim_15_0 d) (base_15_0 d) (base_23_16 d) (sd_type d) v (sd_dpl d) (sd_p d) (lim_19_16 d) (sd_avl d) (sd_rsv1 d) (sd_db d) (sd_g d) (base_31_24 d).
Record gatedesc := mkGate {
  off_15_0 : Z; gd_cs : Z; gd_args : Z; gd_rsv1 : Z; gd_type : Z; gd_s : Z; gd_dpl : Z; gd_p : Z; off_31_16 : Z }.
Definition SETGATE (istrap : bool) (sel off d : Z) : gatedesc :=
  mkGate (Z.land (u32 off) 0xffff) sel 0 0 (if istrap then STS_TG32 else STS_IG32) 0 d 1 (Z.shiftr (u32 off) 16).

(** The fields of the task state that the code sets. *)
Record taskstate := mkTs { ts_esp0 : Z; ts_ss0 : Z; ts_iomb : Z }.
Record pcpu := mkPc { pc_gdt : list segdesc; pc_ts : taskstate }.
(** Table registers are base and limit. *)
Record regs := mkRegs { r_gdtr : Z * Z; r_idtr : Z * Z; r_tr : Z; r_cr3 : Z }.
Record psys := mkPs {
  p_mach : mach; p_cpus : list pcpu; p_regs : list regs; p_idt : list gatedesc; p_tickslock : spinlock; p_kpgdir : Z }.
#[global] Instance set_p_mach : Setter p_mach := λ f s, mkPs (f (p_mach s)) (p_cpus s) (p_regs s) (p_idt s) (p_tickslock s) (p_kpgdir s).
#[global] Instance set_p_cpus : Setter p_cpus := λ f s, mkPs (p_mach s) (f (p_cpus s)) (p_regs s) (p_idt s) (p_tickslock s) (p_kpgdir s).
#[global] Instance set_p_regs : Setter p_regs := λ f s, mkPs (p_mach s) (p_cpus s) (f (p_regs s)) (p_idt s) (p_tickslock s) (p_kpgdir s).
#[global] Instance set_p_idt : Setter p_idt := λ f s, mkPs (p_mach s) (p_cpus s) (p_regs s) (f (p_idt s)) (p_tickslock s) (p_kpgdir s).
#[global] Instance set_p_tickslock : Setter p_tickslock := λ f s, mkPs (p_mach s) (p_cpus s) (p_regs s) (p_idt s) (f (p_tickslock s)) (p_kpgdir s).
#[global] Instance set_p_kpgdir : Setter p_kpgdir := λ f s, mkPs (p_mach s) (p_cpus s) (p_regs s) (p_idt s) (p_tickslock s) (f (p_kpgdir s)).
Definition pmach : lens psys mach := {| view := p_mach; upd := λ m s, s <| p_mach := m |> |}.
Definition ptick : lens psys spinlock := {| view := p_tickslock; upd := λ l s, s <| p_tickslock := l |> |}.
#[global] Instance pmach_ok : LensOk pmach.
Proof. split; [done|by intros []|done]. Qed.

Section code.
(** The addresses of [cpus[i].gdt], [cpus[i].ts] and [idt], and the entry points of vectors.S. *)
Context (gdt_addr ts_addr : nat → Z) (idt_addr : Z) (vectors : list Z).
Abbreviation PS := (M psys).

(** *** The instructions *)
Definition set_regs (f : regs → regs) : PS unit := modify (λ s, s <| p_regs := alter f (this (p_mach s)) (p_regs s) |>).
(** The operand of lgdt and lidt: three half words. *)
Definition table_operand (p size : Z) : Z * Z := (u16 p + 2 ^ 16 * u16 (Z.shiftr (u32 p) 16), u16 (size - 1)).
Definition lgdt (p size : Z) : PS unit := set_regs (λ r, mkRegs (table_operand p size) (r_idtr r) (r_tr r) (r_cr3 r)).
Definition lidt (p size : Z) : PS unit := set_regs (λ r, mkRegs (r_gdtr r) (table_operand p size) (r_tr r) (r_cr3 r)).
Definition lcr3 (v : Z) : PS unit := set_regs (λ r, mkRegs (r_gdtr r) (r_idtr r) (r_tr r) v).
Definition set_type (v : Z) (d : segdesc) : segdesc :=
  mkSegDesc (lim_15_0 d) (base_15_0 d) (base_23_16 d) v (sd_s d) (sd_dpl d) (sd_p d) (lim_19_16 d) (sd_avl d) (sd_rsv1 d) (sd_db d) (sd_g d) (base_31_24 d).
Definition alter_gdt (f : list segdesc → list segdesc) (c : pcpu) : pcpu := mkPc (f (pc_gdt c)) (pc_ts c).
(** ltr wants an available task state and marks it as busy. *)
Definition ltr (sel : Z) : PS unit :=
  s ← get;
  let i := this (p_mach s) in
  match p_regs s !! i, p_cpus s !! i ≫= (λ c, pc_gdt c !! Z.to_nat (sel / 8)) with
  | Some r, Some d =>
      if (fst (r_gdtr r) =? gdt_addr i) && (sel + 7 <=? snd (r_gdtr r)) && (sd_p d =? 1) && (sd_s d =? 0) && (sd_type d =? STS_T32A) then
        modify (λ s, s <| p_cpus := alter (alter_gdt (alter (set_type 11) (Z.to_nat (sel / 8)))) i (p_cpus s) |>) ;;
        set_regs (λ r, mkRegs (r_gdtr r) (r_idtr r) sel (r_cr3 r))
      else undef "general protection"
  | _, _ => undef "general protection"
  end.

(** *** The code *)
(** An assignment to a field of [*mycpu()]. *)
Definition my_cpu_set (f : nat → pcpu → pcpu) : PS unit :=
  i ← mycpu pmach; modify (λ s, s <| p_cpus := alter (f i) i (p_cpus s) |>).
Definition seginit : PS unit :=
  c ← cpuid pmach;
  let set i d := modify (λ s, s <| p_cpus := alter (alter_gdt <[Z.to_nat i := d]>) c (p_cpus s) |>) in
  set SEG_KCODE (SEG (Z.lor STA_X STA_R) 0 0xffffffff 0) ;;
  set SEG_KDATA (SEG STA_W 0 0xffffffff 0) ;;
  set SEG_UCODE (SEG (Z.lor STA_X STA_R) 0 0xffffffff DPL_USER) ;;
  set SEG_UDATA (SEG STA_W 0 0xffffffff DPL_USER) ;;
  lgdt (gdt_addr c) (8 * NSEGS).
Definition switchkvm : PS unit := p ← gets p_kpgdir; lcr3 (V2P p).
(** With the page allocator and memory beside the tables. *)
Definition kvmalloc (kend kdata : Z) : M (kmem * psys) unit :=
  d ← zoom (Lens fst (λ k s, (k, snd s))) (setupkvm kend kdata);
  zoom (Lens snd (λ p s, (fst s, p))) (modify (λ s, s <| p_kpgdir := d |>) ;; switchkvm).
(** [p] is the null pointer or a process with its kstack and pgdir. *)
Definition switchuvm (p : option (Z * Z)) : PS unit :=
  match p with
  | None => panic "switchuvm: no process"
  | Some (kstack, pgdir) =>
      if kstack =? 0 then panic "switchuvm: no kstack" else
      if pgdir =? 0 then panic "switchuvm: no pgdir" else
      pushcli pmach ;;
      my_cpu_set (λ i, alter_gdt <[Z.to_nat SEG_TSS := SEG16 STS_T32A (ts_addr i) (sizeof_ts - 1) 0]>) ;;
      my_cpu_set (λ _, alter_gdt (alter (set_s 0) (Z.to_nat SEG_TSS))) ;;
      my_cpu_set (λ _ c, mkPc (pc_gdt c) (mkTs (ts_esp0 (pc_ts c)) (Z.shiftl SEG_KDATA 3) (ts_iomb (pc_ts c)))) ;;
      my_cpu_set (λ _ c, mkPc (pc_gdt c) (mkTs (u32 (kstack + KSTACKSIZE)) (ts_ss0 (pc_ts c)) (ts_iomb (pc_ts c)))) ;;
      my_cpu_set (λ _ c, mkPc (pc_gdt c) (mkTs (ts_esp0 (pc_ts c)) (ts_ss0 (pc_ts c)) 0xFFFF)) ;;
      ltr (Z.shiftl SEG_TSS 3) ;;
      lcr3 (V2P pgdir) ;;
      popcli pmach
  end.
Definition set_gate (istrap : bool) (d i : Z) : PS unit :=
  v ← array_get "vectors" vectors i;
  s ← get;
  if in_bounds (p_idt s) i then modify (λ s, s <| p_idt := <[Z.to_nat i := SETGATE istrap (Z.shiftl SEG_KCODE 3) v d]> (p_idt s) |>)
  else undef "idt".
Definition tvinit : PS unit :=
  for_each (seqZ 0 256) (set_gate false 0) ;;
  set_gate true DPL_USER T_SYSCALL ;;
  initlock ptick "time".
Definition idtinit : PS unit := lidt idt_addr (8 * 256).
End code.

(** * The tables protect the kernel (mmu.h, seginit, switchuvm, tvinit, idtinit)

    How the processor reads descriptors and enters the kernel, and what the tables of the kernel then allow a user program. *)

(** ** Bit fields *)
(** The fields of a structure with their widths, from the lowest bit on. *)
Fixpoint pack (l : list (Z * Z)) : Z := match l with [] => 0 | (v, w) :: l' => v mod 2 ^ w + 2 ^ w * pack l' end.
Definition seg_fields (d : segdesc) : list (Z * Z) :=
  [(lim_15_0 d, 16); (base_15_0 d, 16); (base_23_16 d, 8); (sd_type d, 4); (sd_s d, 1); (sd_dpl d, 2); (sd_p d, 1); (lim_19_16 d, 4);
   (sd_avl d, 1); (sd_rsv1 d, 1); (sd_db d, 1); (sd_g d, 1); (base_31_24 d, 8)].
Definition gate_fields (d : gatedesc) : list (Z * Z) :=
  [(off_15_0 d, 16); (gd_cs d, 16); (gd_args d, 5); (gd_rsv1 d, 3); (gd_type d, 4); (gd_s d, 1); (gd_dpl d, 2); (gd_p d, 1); (off_31_16 d, 16)].
Definition bits (x pos w : Z) : Z := (x / 2 ^ pos) mod 2 ^ w.
Definition width (l : list (Z * Z)) : Z := foldr (λ f a, f.2 + a) 0 l.

Lemma pack_field l1 v w l2 x pos :
  x = pack (l1 ++ (v, w) :: l2) → Forall (λ f, 0 ≤ f.2) l1 → 0 ≤ w → pos = width l1 → bits x pos w = v mod 2 ^ w.
Proof.
  intros -> Hl Hw ->. unfold bits. induction Hl as [|[u k] l1 Hk Hl IH]; cbn [pack app width foldr fst snd] in *.
  - pose proof (Z.pow_pos_nonneg 2 w ltac:(lia) Hw). change (2 ^ 0) with 1. rewrite Z.div_1_r, (Z.mul_comm (2 ^ w)), Z.mod_add, Z.mod_mod by lia. done.
  - fold (width l1). assert (0 ≤ width l1) as Hw1 by (clear -Hl; unfold width; induction Hl as [|f l Hf Hl IHl]; cbn [foldr]; lia).
    pose proof (Z.pow_pos_nonneg 2 k ltac:(lia) Hk). pose proof (Z.pow_pos_nonneg 2 (width l1) ltac:(lia) Hw1).
    rewrite Z.pow_add_r, <- Z.div_div by lia.
    replace ((u mod 2 ^ k + 2 ^ k * pack (l1 ++ (v, w) :: l2)) / 2 ^ k) with (pack (l1 ++ (v, w) :: l2)); [exact IH|].
    apply (Z.div_unique _ _ _ (u mod 2 ^ k)); [left; apply Z.mod_pos_bound, Z.pow_pos_nonneg; lia|lia].
Qed.

(** ** The processor *)
Definition seg_base (x : Z) : Z := bits x 16 16 + 2 ^ 16 * bits x 32 8 + 2 ^ 24 * bits x 56 8.
Definition seg_limit (x : Z) : Z := let l := bits x 0 16 + 2 ^ 16 * bits x 48 4 in if bits x 55 1 =? 1 then l * 4096 + 4095 else l.
Definition gate_offset (x : Z) : Z := bits x 0 16 + 2 ^ 16 * bits x 48 16.

Record entry := mkEntry { e_cpl : Z; e_eip : Z; e_stack : option (Z * Z); e_clears_if : bool }.
Section hardware.
Context (gdt_addr ts_addr : nat → Z) (idt_addr : Z).
(** Descriptor [i] of a table that a table register names. *)
Definition gdt_entry (i : nat) (s : psys) (n : Z) : option Z :=
  r ← p_regs s !! i; c ← p_cpus s !! i;
  if (fst (r_gdtr r) =? gdt_addr i) && (8 * n + 7 <=? snd (r_gdtr r)) then (pack ∘ seg_fields) <$> pc_gdt c !! Z.to_nat n else None.
Definition idt_entry (i : nat) (s : psys) (n : Z) : option Z :=
  r ← p_regs s !! i;
  if (fst (r_idtr r) =? idt_addr) && (8 * n + 7 <=? snd (r_idtr r)) then (pack ∘ gate_fields) <$> p_idt s !! Z.to_nat n else None.
(** The task state that the task register names, if it is the one of this processor, and its limit. *)
Definition task (i : nat) (s : psys) : option (taskstate * Z) :=
  r ← p_regs s !! i; c ← p_cpus s !! i; d ← gdt_entry i s (r_tr r / 8);
  if (bits d 47 1 =? 1) && (bits d 44 1 =? 0) && (bits d 40 4 =? 11) && (seg_base d =? ts_addr i) then Some (pc_ts c, seg_limit d) else None.
(** Interrupt or exception [n] on processor [i] at privilege level [cpl]; [soft] for the instruction int.  [None] is a fault. *)
Definition deliver (i : nat) (s : psys) (soft : bool) (cpl n : Z) : option entry :=
  g ← idt_entry i s n;
  if negb ((bits g 47 1 =? 1) && (bits g 44 1 =? 0) && ((bits g 40 4 =? 14) || (bits g 40 4 =? 15))) then None else
  if soft && (bits g 45 2 <? cpl) then None else
  c ← gdt_entry i s (bits g 16 16 / 8);
  if negb ((bits c 47 1 =? 1) && (bits c 44 1 =? 1) && Z.testbit (bits c 40 4) 3) then None else
  let dpl := bits c 45 2 in
  let e stack := mkEntry dpl (seg_base c + gate_offset g) stack (bits g 40 4 =? 14) in
  if cpl <? dpl then None else
  if dpl <? cpl then '(ts, _) ← task i s; Some (e (Some (ts_ss0 ts, ts_esp0 ts))) else Some (e None).
(** Ports: level 0, or the bit map of the task state. *)
Definition io_reachable (i : nat) (s : psys) (cpl port : Z) : bool :=
  (cpl =? 0) || match task i s with Some (ts, lim) => ts_iomb ts + port / 8 + 1 <=? lim | None => false end.
End hardware.

(** ** Reading back what the macros build *)
Ltac field l1 := eapply (pack_field l1); [reflexivity|repeat constructor; done|done|reflexivity].
Lemma seg_bits d (x := pack (seg_fields d)) :
  bits x 0 16 = lim_15_0 d mod 2 ^ 16 ∧ bits x 40 4 = sd_type d mod 2 ^ 4 ∧ bits x 44 1 = sd_s d mod 2 ^ 1 ∧
  bits x 45 2 = sd_dpl d mod 2 ^ 2 ∧ bits x 47 1 = sd_p d mod 2 ^ 1 ∧ bits x 48 4 = lim_19_16 d mod 2 ^ 4 ∧ bits x 55 1 = sd_g d mod 2 ^ 1 ∧
  bits x 56 8 = base_31_24 d mod 2 ^ 8 ∧ bits x 16 16 = base_15_0 d mod 2 ^ 16 ∧ bits x 32 8 = base_23_16 d mod 2 ^ 8.
Proof.
  unfold x. repeat split.
  - field (take 0 (seg_fields d)).
  - field (take 3 (seg_fields d)).
  - field (take 4 (seg_fields d)).
  - field (take 5 (seg_fields d)).
  - field (take 6 (seg_fields d)).
  - field (take 7 (seg_fields d)).
  - field (take 11 (seg_fields d)).
  - field (take 12 (seg_fields d)).
  - field (take 1 (seg_fields d)).
  - field (take 2 (seg_fields d)).
Qed.
Lemma gate_bits d (x := pack (gate_fields d)) :
  bits x 0 16 = off_15_0 d mod 2 ^ 16 ∧ bits x 16 16 = gd_cs d mod 2 ^ 16 ∧ bits x 40 4 = gd_type d mod 2 ^ 4 ∧ bits x 44 1 = gd_s d mod 2 ^ 1 ∧
  bits x 45 2 = gd_dpl d mod 2 ^ 2 ∧ bits x 47 1 = gd_p d mod 2 ^ 1 ∧ bits x 48 16 = off_31_16 d mod 2 ^ 16.
Proof.
  unfold x. repeat split.
  - field (take 0 (gate_fields d)).
  - field (take 1 (gate_fields d)).
  - field (take 4 (gate_fields d)).
  - field (take 5 (gate_fields d)).
  - field (take 6 (gate_fields d)).
  - field (take 7 (gate_fields d)).
  - field (take 8 (gate_fields d)).
Qed.

Lemma base_back b : 0 ≤ b < 2 ^ 32 →
  Z.land b 0xffff mod 2 ^ 16 + 2 ^ 16 * (Z.land (Z.shiftr b 16) 0xff mod 2 ^ 8) + 2 ^ 24 * (Z.shiftr b 24 mod 2 ^ 8) = b.
Proof.
  intros Hb. change 0xffff with (Z.ones 16). change 0xff with (Z.ones 8). rewrite !Z.land_ones, !Z.shiftr_div_pow2, !Z.mod_mod by lia.
  change (2 ^ 24) with (2 ^ 16 * 2 ^ 8). rewrite <- Z.div_div by lia. set (q := b / 2 ^ 16).
  pose proof (Z.div_mod b (2 ^ 16) ltac:(lia)) as H1. fold q in H1. pose proof (Z.div_mod q (2 ^ 8) ltac:(lia)) as H2.
  assert (0 ≤ q < 2 ^ 16) by (unfold q; split; [apply Z.div_pos; lia|apply Z.div_lt_upper_bound; lia]).
  rewrite (Z.mod_small (q / 2 ^ 8)) by (split; [apply Z.div_pos; lia|apply Z.div_lt_upper_bound; lia]). lia.
Qed.
Lemma offset_back v : 0 ≤ v < 2 ^ 32 → gate_offset (pack (gate_fields (SETGATE true 8 v 0))) = v.
Proof.
  intros Hv. unfold gate_offset. destruct (gate_bits (SETGATE true 8 v 0)) as (-> & _ & _ & _ & _ & _ & ->). cbn [SETGATE off_15_0 off_31_16].
  rewrite u32_small by lia. change 0xffff with (Z.ones 16). rewrite Z.land_ones, Z.shiftr_div_pow2, Z.mod_mod by lia.
  rewrite (Z.mod_small (v / 2 ^ 16)) by (split; [apply Z.div_pos; lia|apply Z.div_lt_upper_bound; lia]). pose proof (Z.div_mod v (2 ^ 16) ltac:(lia)). lia.
Qed.
Lemma operand_back p size : 0 ≤ p < 2 ^ 32 → 0 < size ≤ 2 ^ 16 → table_operand p size = (p, size - 1).
Proof.
  intros Hp Hs. unfold table_operand, u16. rewrite u32_small, Z.shiftr_div_pow2 by lia. rewrite (Z.mod_small (size - 1)) by lia.
  rewrite (Z.mod_small (p / 2 ^ 16)) by (split; [apply Z.div_pos; lia|apply Z.div_lt_upper_bound; lia]). pose proof (Z.div_mod p (2 ^ 16) ltac:(lia)). f_equal. lia.
Qed.

Section proof.
Context (gdt_addr ts_addr : nat → Z) (idt_addr : Z) (vectors : list Z).
(** ** The runs *)
Lemma set_gate_run istrap d n v s :
  vectors !! n = Some v → (n < length (p_idt s))%nat →
  set_gate vectors istrap d (Z.of_nat n) s = Ok tt (s <| p_idt := <[n := SETGATE istrap 8 v d]> (p_idt s) |>).
Proof.
  intros Hv Hn. unfold set_gate. erewrite bind_run by (apply array_get_ok; [lia|by rewrite Nat2Z.id]). rewrite (bind_run get _ s s s eq_refl).
  unfold in_bounds. rewrite bool_decide_eq_true_2 by lia. unfold modify. by rewrite Nat2Z.id.
Qed.
Definition gate_of (n : nat) (v : Z) : gatedesc := if (n =? 64)%nat then SETGATE true 8 v 3 else SETGATE false 8 v 0.
Lemma gates_run k s :
  length vectors = 256%nat → length (p_idt s) = 256%nat → (k ≤ 256)%nat →
  ∃ idt, for_each (seqZ 0 (Z.of_nat k)) (set_gate vectors false 0) s = Ok tt (s <| p_idt := idt |>) ∧ length idt = 256%nat ∧
         ∀ n v, (n < k)%nat → vectors !! n = Some v → idt !! n = Some (SETGATE false 8 v 0).
Proof.
  intros Hv Hi. induction k as [|k IH]; intros Hk.
  { exists (p_idt s). split; [by destruct s|]. split; [done|lia]. }
  destruct (IH ltac:(lia)) as (idt & H1 & Hl & Hg). rewrite seqZ_S, for_each_app, (bind_run _ _ _ _ _ H1). cbn [for_each].
  assert (length (p_idt (s <| p_idt := idt |>)) = 256%nat) as Hl' by done.
  destruct (lookup_lt_is_Some_2 vectors k ltac:(lia)) as [v Hvk]. rewrite Z.add_0_l.
  rewrite (bind_run _ _ _ _ _ (set_gate_run false 0 k v (s <| p_idt := idt |>) Hvk ltac:(lia))). eexists. split; [reflexivity|].
  split; [by rewrite length_insert|]. intros n w Hn Hw. cbn. destruct (decide (n = k)) as [->|Hne].
  - rewrite list_lookup_insert_eq by lia. congruence.
  - rewrite list_lookup_insert_ne by done. apply Hg; [lia|done].
Qed.
Lemma tvinit_run s :
  length vectors = 256%nat → length (p_idt s) = 256%nat →
  ∃ idt lk, tvinit vectors s = Ok tt (s <| p_idt := idt |> <| p_tickslock := lk |>) ∧ ∀ n v, vectors !! n = Some v → idt !! n = Some (gate_of n v).
Proof.
  intros Hv Hi. destruct (gates_run 256 s Hv Hi ltac:(lia)) as (idt & H1 & Hl & Hg). unfold tvinit. change 256 with (Z.of_nat 256).
  assert (length (p_idt (s <| p_idt := idt |>)) = 256%nat) as Hl' by done.
  rewrite (bind_run _ _ _ _ _ H1). destruct (lookup_lt_is_Some_2 vectors 64 ltac:(lia)) as [v Hv64]. change T_SYSCALL with (Z.of_nat 64).
  rewrite (bind_run _ _ _ _ _ (set_gate_run true DPL_USER 64 v (s <| p_idt := idt |>) Hv64 ltac:(lia))). eexists _, _. split; [reflexivity|].
  intros n w Hw. cbn. unfold gate_of. destruct (Nat.eqb_spec n 64) as [->|Hne].
  - rewrite list_lookup_insert_eq by lia. by replace w with v by congruence.
  - rewrite list_lookup_insert_ne by done. apply Hg; [|done]. apply lookup_lt_Some in Hw. lia.
Qed.
Definition ring_gdt (g : list segdesc) : list segdesc :=
  <[4%nat := SEG 2 0 0xffffffff 3]> (<[3%nat := SEG 10 0 0xffffffff 3]> (<[2%nat := SEG 2 0 0xffffffff 0]> (<[1%nat := SEG 10 0 0xffffffff 0]> g))).
Lemma seginit_run s h c pc r (i := this (p_mach s)) :
  cur (p_mach s) h c → hw_if h = false → p_cpus s !! i = Some pc → p_regs s !! i = Some r → 0 ≤ gdt_addr i < 2 ^ 32 →
  seginit gdt_addr s = Ok tt (s <| p_cpus := <[i := mkPc (ring_gdt (pc_gdt pc)) (pc_ts pc)]> (p_cpus s) |>
                                <| p_regs := <[i := mkRegs (gdt_addr i, 47) (r_idtr r) (r_tr r) (r_cr3 r)]> (p_regs s) |>).
Proof.
  intros Hcur Hif Hpc Hr Ha. unfold seginit, cpuid. rewrite (bind_run _ _ _ _ _ (mycpu_run pmach s h c Hcur Hif)).
  unfold lgdt, set_regs, modify, mbind, M_bind, set, set_p_cpus, set_p_regs. cbn [p_cpus p_regs p_mach p_idt p_tickslock p_kpgdir view pmach]. fold i.
  rewrite operand_back by (done || lia). rewrite !list_alter_alter_eq, (alter_lookup_insert _ _ _ _ Hpc), (alter_lookup_insert _ _ _ _ Hr). done.
Qed.
Definition task_desc (ts : Z) : segdesc := set_type 11 (set_s 0 (SEG16 STS_T32A ts 103 0)).
Definition with_task (ts kstack : Z) (pc : pcpu) : pcpu :=
  mkPc (<[5%nat := task_desc ts]> (pc_gdt pc)) (mkTs (u32 (kstack + 4096)) 16 0xFFFF).
Lemma my_cpu_set_run f s h c :
  cur (p_mach s) h c → hw_if h = false → my_cpu_set f s = Ok tt (s <| p_cpus := alter (f (this (p_mach s))) (this (p_mach s)) (p_cpus s) |>).
Proof. intros Hcur Hif. unfold my_cpu_set. by rewrite (bind_run _ _ _ _ _ (mycpu_run pmach s h c Hcur Hif)). Qed.
Lemma ltr_run s pc r d (i := this (p_mach s)) :
  p_cpus s !! i = Some pc → p_regs s !! i = Some r → r_gdtr r = (gdt_addr i, 47) → pc_gdt pc !! 5%nat = Some d →
  sd_p d = 1 → sd_s d = 0 → sd_type d = STS_T32A →
  ltr gdt_addr 40 s = Ok tt (s <| p_cpus := <[i := mkPc (<[5%nat := set_type 11 d]> (pc_gdt pc)) (pc_ts pc)]> (p_cpus s) |>
                               <| p_regs := <[i := mkRegs (r_gdtr r) (r_idtr r) 40 (r_cr3 r)]> (p_regs s) |>).
Proof.
  intros Hpc Hr Hg Hd Hp Hs Ht. unfold ltr. rewrite (bind_run get _ s s s eq_refl). fold i. rewrite Hr, Hpc. change (Z.to_nat (40 / 8)) with 5%nat. cbn [mbind option_bind].
  rewrite Hd, Hg. cbn [fst snd]. rewrite Z.eqb_refl, Hp, Hs, Ht. change ((40 + 7 <=? 47)) with true. cbn [andb Z.eqb Pos.eqb STS_T32A].
  unfold set_regs, modify, mbind, M_bind, set, set_p_cpus, set_p_regs. cbn [p_cpus p_regs p_mach p_idt p_tickslock p_kpgdir]. fold i.
  rewrite (alter_lookup_insert _ _ _ _ Hpc), (alter_lookup_insert _ _ _ _ Hr), Hg. unfold alter_gdt. rewrite (alter_lookup_insert _ _ _ _ Hd). done.
Qed.
Lemma switchuvm_run s h c pc r kstack pgdir (i := this (p_mach s)) :
  cur (p_mach s) h c → cli_ok h c → p_cpus s !! i = Some pc → length (pc_gdt pc) = 6%nat → p_regs s !! i = Some r → r_gdtr r = (gdt_addr i, 47) →
  kstack ≠ 0 → pgdir ≠ 0 →
  switchuvm gdt_addr ts_addr (Some (kstack, pgdir)) s =
  Ok tt (mkPs (at_cpu (p_mach s) h (peek_cpu h c)) (<[i := with_task (ts_addr i) kstack pc]> (p_cpus s))
           (<[i := mkRegs (r_gdtr r) (r_idtr r) 40 (V2P pgdir)]> (p_regs s)) (p_idt s) (p_tickslock s) (p_kpgdir s)).
Proof.
  intros Hcur Hok Hpc Hlen Hr Hg Hk Hp. unfold switchuvm. rewrite (proj2 (Z.eqb_neq _ _) Hk), (proj2 (Z.eqb_neq _ _) Hp).
  run (pushcli_run pmach s h c Hcur). cbn [upd view pmach]. set (m1 := m_push (p_mach s) h c).
  assert (cur m1 (if_off h) (push_cpu (hw_if h) c)) as Hc1 by (by apply cur_push). set (at_ l := mkPs m1 l (p_regs s) (p_idt s) (p_tickslock s) (p_kpgdir s)).
  assert (∀ f l, my_cpu_set f (at_ l) = Ok tt (at_ (alter (f i) i l))) as Hset.
  { intros f l. exact (my_cpu_set_run f (at_ l) (if_off h) _ Hc1 eq_refl). }
  change (s <| p_mach := m1 |>) with (at_ (p_cpus s)). do 5 rewrite (bind_run _ _ _ _ _ (Hset _ _)).
  rewrite !list_alter_alter_eq, (alter_lookup_insert _ _ _ _ Hpc). change (Z.shiftl SEG_TSS 3) with 40.
  set (d := set_s 0 (SEG16 STS_T32A (ts_addr i) 103 0)). set (pc1 := mkPc (<[5%nat := d]> (pc_gdt pc)) (mkTs (u32 (kstack + 4096)) 16 0xFFFF)).
  match goal with |- context [<[i := ?x]> (p_cpus s)] => replace x with pc1 end.
  2: { unfold pc1, compose, alter_gdt. cbn [pc_gdt pc_ts ts_esp0 ts_ss0 ts_iomb]. f_equal. change (Z.to_nat SEG_TSS) with 5%nat.
       rewrite (alter_lookup_insert _ _ 5%nat (SEG16 STS_T32A (ts_addr i) 103 0)); [by rewrite list_insert_insert_eq|]. apply list_lookup_insert_eq. lia. }
  pose proof (lookup_lt_Some _ _ _ Hpc) as Hi.
  assert (pc_gdt pc1 !! 5%nat = Some d) as Hd by (apply list_lookup_insert_eq; lia).
  rewrite (bind_run _ _ _ _ _ (ltr_run (at_ _) pc1 r d (list_lookup_insert_eq _ _ _ Hi) Hr Hg Hd eq_refl eq_refl eq_refl)).
  set (s2 := mkPs m1 (<[i := with_task (ts_addr i) kstack pc]> (p_cpus s)) (<[i := mkRegs (r_gdtr r) (r_idtr r) 40 (V2P pgdir)]> (p_regs s)) (p_idt s) (p_tickslock s) (p_kpgdir s)).
  erewrite (bind_run (lcr3 _) _ tt _ s2).
  2: { unfold lcr3, set_regs, modify, s2, at_, set, set_p_regs, set_p_cpus. cbn [p_mach p_cpus p_regs p_idt p_tickslock p_kpgdir].
       change (this m1) with i. rewrite list_insert_insert_eq, (alter_lookup_insert _ _ _ (mkRegs (r_gdtr r) (r_idtr r) 40 (r_cr3 r))), list_insert_insert_eq.
       - cbn [r_gdtr r_idtr r_tr]. unfold with_task, pc1. cbn [pc_gdt pc_ts]. by rewrite list_insert_insert_eq.
       - apply list_lookup_insert_eq. by apply lookup_lt_Some in Hr. }
  destruct Hok as [Hn Hif]. rewrite (popcli_run pmach s2 (if_off h) (push_cpu (hw_if h) c) Hc1 eq_refl ltac:(rewrite push_cpu_ncli; lia)).
  cbn [upd view pmach s2 p_mach]. unfold m1. by rewrite m_pop_push.
Qed.
(** ** What the processor makes of the tables *)
Record ready (i : nat) (kstack : Z) (s : psys) (pc : pcpu) (r : regs) : Prop := {
  rd_cpu : p_cpus s !! i = Some pc;
  rd_regs : p_regs s !! i = Some r;
  rd_gdtr : r_gdtr r = (gdt_addr i, 47);
  rd_idtr : r_idtr r = (idt_addr, 2047);
  rd_tr : r_tr r = 40;
  rd_code : pc_gdt pc !! 1%nat = Some (SEG 10 0 0xffffffff 0);
  rd_task : pc_gdt pc !! 5%nat = Some (task_desc (ts_addr i));
  rd_ts : pc_ts pc = mkTs (u32 (kstack + 4096)) 16 0xFFFF;
  rd_idt n v : vectors !! n = Some v → p_idt s !! n = Some (gate_of n v) }.
Lemma task_desc_bits ts (x := pack (seg_fields (task_desc ts))) :
  0 ≤ ts < 2 ^ 32 → bits x 47 1 = 1 ∧ bits x 44 1 = 0 ∧ bits x 40 4 = 11 ∧ seg_base x = ts ∧ seg_limit x = 103.
Proof.
  intros Hts. unfold seg_base, seg_limit, x. destruct (seg_bits (task_desc ts)) as (-> & -> & -> & _ & -> & -> & -> & -> & -> & ->).
  cbn [task_desc set_type set_s SEG16 lim_15_0 base_15_0 base_23_16 sd_type sd_s sd_dpl sd_p lim_19_16 sd_g base_31_24]. rewrite (u32_small ts) by lia.
  do 3 (split; [done|]). split; [by apply base_back|done].
Qed.
Lemma task_ready i kstack s pc r :
  ready i kstack s pc r → 0 ≤ ts_addr i < 2 ^ 32 → task gdt_addr ts_addr i s = Some (mkTs (u32 (kstack + 4096)) 16 0xFFFF, 103).
Proof.
  intros [] Hts. unfold task, gdt_entry. rewrite rd_cpu0, rd_regs0. cbn [mbind option_bind]. rewrite rd_tr0, rd_gdtr0, rd_ts0. cbn [fst snd]. rewrite Z.eqb_refl.
  change (40 / 8) with 5. change (8 * 5 + 7 <=? 47) with true. change (Z.to_nat 5) with 5%nat. rewrite rd_task0. cbn [andb fmap option_fmap option_map compose].
  destruct (task_desc_bits (ts_addr i) Hts) as (E1 & E2 & E3 & E4 & E5). unfold mbind, option_bind.
  by rewrite E1, E2, E3, E4, E5, !Z.eqb_refl.
Qed.
Lemma gate_of_bits n v (x := pack (gate_fields (gate_of n v))) :
  0 ≤ v < 2 ^ 32 → bits x 47 1 = 1 ∧ bits x 44 1 = 0 ∧ bits x 40 4 = (if (n =? 64)%nat then 15 else 14) ∧ bits x 45 2 = (if (n =? 64)%nat then 3 else 0) ∧
  bits x 16 16 = 8 ∧ gate_offset x = v.
Proof.
  intros Hv. assert (gate_offset x = gate_offset (pack (gate_fields (SETGATE true 8 v 0)))) as ->.
  { unfold gate_offset, x. destruct (gate_bits (gate_of n v)) as (-> & _ & _ & _ & _ & _ & ->).
    destruct (gate_bits (SETGATE true 8 v 0)) as (-> & _ & _ & _ & _ & _ & ->). unfold gate_of. by destruct (n =? 64)%nat. }
  rewrite offset_back by done. unfold x. destruct (gate_bits (gate_of n v)) as (_ & -> & -> & -> & -> & -> & _). unfold gate_of. by destruct (n =? 64)%nat.
Qed.
Definition code_desc : Z := pack (seg_fields (SEG 10 0 0xffffffff 0)).
Lemma code_desc_bits :
  bits code_desc 47 1 = 1 ∧ bits code_desc 44 1 = 1 ∧ Z.testbit (bits code_desc 40 4) 3 = true ∧ bits code_desc 45 2 = 0 ∧ seg_base code_desc = 0.
Proof. by vm_compute. Qed.
Definition kernel_entry (n : nat) (v : Z) (stack : option (Z * Z)) : entry := mkEntry 0 v stack (negb (n =? 64)%nat).
Lemma deliver_ready i kstack s pc r n v soft cpl :
  ready i kstack s pc r → 0 ≤ ts_addr i < 2 ^ 32 → (n < 256)%nat → vectors !! n = Some v → 0 ≤ v < 2 ^ 32 → cpl = 0 ∨ cpl = 3 →
  deliver gdt_addr ts_addr idt_addr i s soft cpl (Z.of_nat n) =
  if soft && (cpl =? 3) && negb (n =? 64)%nat then None
  else Some (kernel_entry n v (if cpl =? 3 then Some (16, u32 (kstack + 4096)) else None)).
Proof.
  intros Hr Hts Hn Hv Hv32 Hcpl. pose proof (task_ready _ _ _ _ _ Hr Hts) as Ht. destruct Hr. unfold deliver, idt_entry. rewrite rd_regs0. cbn [mbind option_bind].
  rewrite rd_idtr0. cbn [fst snd]. rewrite Z.eqb_refl, (proj2 (Z.leb_le _ _)), Nat2Z.id, (rd_idt0 n v Hv) by lia. cbn [andb fmap option_fmap option_map]. unfold mbind at 1, option_bind at 1.
  change ((pack ∘ gate_fields) (gate_of n v)) with (pack (gate_fields (gate_of n v))).
  destruct (gate_of_bits n v Hv32) as (E1 & E2 & E3 & E4 & E5 & E6). rewrite E1, E2, E3, E4, E5, E6.
  unfold gdt_entry. rewrite rd_regs0, rd_cpu0. cbn [mbind option_bind]. rewrite rd_gdtr0. cbn [fst snd]. rewrite (Z.eqb_refl (gdt_addr i)).
  change (8 / 8) with 1. change (8 * 1 + 7 <=? 47) with true. change (Z.to_nat 1) with 1%nat. rewrite rd_code0, Ht. cbn [andb].
  cbn [fmap option_fmap option_map]. change ((pack ∘ seg_fields) (SEG 10 0 0xffffffff 0)) with code_desc. unfold mbind, option_bind.
  destruct code_desc_bits as (C1 & C2 & C3 & C4 & C5). rewrite C1, C2, C3, C4, C5, Z.add_0_l. unfold kernel_entry.
  destruct (n =? 64)%nat, soft, Hcpl as [-> | ->]; reflexivity.
Qed.
(** ** From boot to a running process *)
(** The tables of processor [i] before the first process. *)
Record booted (i : nat) (s : psys) (h : hwcpu) (c : cpu) (pc : pcpu) (r : regs) : Prop := {
  bo_this : this (p_mach s) = i;
  bo_cur : cur (p_mach s) h c;
  bo_cli : cli_ok h c;
  bo_cpu : p_cpus s !! i = Some pc;
  bo_regs : p_regs s !! i = Some r;
  bo_gdtr : r_gdtr r = (gdt_addr i, 47);
  bo_idtr : r_idtr r = (idt_addr, 2047);
  bo_len : length (pc_gdt pc) = 6%nat;
  bo_code : pc_gdt pc !! 1%nat = Some (SEG 10 0 0xffffffff 0);
  bo_idt n v : vectors !! n = Some v → p_idt s !! n = Some (gate_of n v) }.
Lemma tables_run s h c pc r (i := this (p_mach s)) :
  cur (p_mach s) h c → cli_ok h c → hw_if h = false → p_cpus s !! i = Some pc → length (pc_gdt pc) = 6%nat → p_regs s !! i = Some r →
  length vectors = 256%nat → length (p_idt s) = 256%nat → 0 ≤ gdt_addr i < 2 ^ 32 → 0 ≤ idt_addr < 2 ^ 32 →
  ∃ s' pc' r', (tvinit vectors ;; seginit gdt_addr ;; idtinit idt_addr) s = Ok tt s' ∧ booted i s' h c pc' r'.
Proof.
  intros Hcur Hcli Hif Hpc Hlen Hr Hv Hi Hg Hid. destruct (tvinit_run s Hv Hi) as (idt & lk & H1 & Hidt). rewrite (bind_run _ _ _ _ _ H1).
  set (s1 := s <| p_idt := idt |> <| p_tickslock := lk |>). rewrite (bind_run _ _ _ _ _ (seginit_run s1 h c pc r Hcur Hif Hpc Hr Hg)). change (this (p_mach s1)) with i.
  unfold idtinit, lidt, set_regs, modify. eexists _, (mkPc (ring_gdt (pc_gdt pc)) (pc_ts pc)), (mkRegs (gdt_addr i, 47) (idt_addr, 2047) (r_tr r) (r_cr3 r)).
  split; [reflexivity|]. pose proof (lookup_lt_Some _ _ _ Hpc) as Hil. pose proof (lookup_lt_Some _ _ _ Hr) as Hrl.
  unfold set, set_p_regs, set_p_cpus, s1. split; cbn [p_mach p_cpus p_regs p_idt r_gdtr r_idtr pc_gdt]; try done.
  - by apply list_lookup_insert_eq.
  - change (this (p_mach _)) with i. rewrite list_lookup_alter_eq, list_lookup_insert_eq by done. cbn [fmap option_fmap option_map r_gdtr r_tr r_cr3]. by rewrite operand_back.
  - unfold ring_gdt. by rewrite !length_insert.
  - unfold ring_gdt. rewrite !list_lookup_insert_ne by lia. apply list_lookup_insert_eq. lia.
Qed.
Lemma peek_ok m h c : cur m h c → cli_ok h c → cur (at_cpu m h (peek_cpu h c)) h (peek_cpu h c) ∧ cli_ok h (peek_cpu h c).
Proof.
  intros Hc [H1 H2]. unfold peek_cpu. destruct (ncli c =? 0).
  - split; [by apply (cur_at_cpu m h c)|by split].
  - split; [by apply (cur_at_cpu m h c)|by split].
Qed.
(** A switch to a process; the task state descriptor is made anew, so that it is not busy. *)
Lemma switch_ready i s h c pc r p :
  booted i s h c pc r → p.1 ≠ 0 → p.2 ≠ 0 →
  ∃ s' c' pc' r', switchuvm gdt_addr ts_addr (Some p) s = Ok tt s' ∧ booted i s' h c' pc' r' ∧ ready i p.1 s' pc' r' ∧ r_cr3 r' = V2P p.2.
Proof.
  intros [] Hk Hp. destruct p as [kstack pgdir]. cbn [fst snd] in *. subst i. rewrite (switchuvm_run s h c pc r) by done.
  pose proof (lookup_lt_Some _ _ _ bo_cpu0) as Hil. pose proof (lookup_lt_Some _ _ _ bo_regs0) as Hrl. destruct (peek_ok _ _ _ bo_cur0 bo_cli0) as [Hc' Hcli'].
  eexists _, (peek_cpu h c), (with_task (ts_addr (this (p_mach s))) kstack pc), (mkRegs (r_gdtr r) (r_idtr r) 40 (V2P pgdir)).
  split; [reflexivity|]. split; [|split; [|reflexivity]].
  - split; cbn [p_mach p_cpus p_regs p_idt]; try done; try (by apply list_lookup_insert_eq); cbn [r_gdtr r_idtr with_task pc_gdt]; try done.
    + by rewrite length_insert.
    + by rewrite list_lookup_insert_ne.
  - split; cbn [p_mach p_cpus p_regs p_idt]; try done; try (by apply list_lookup_insert_eq); cbn [r_gdtr r_idtr with_task pc_gdt]; try done.
    + by rewrite list_lookup_insert_ne.
    + apply list_lookup_insert_eq. lia.
Qed.
Lemma switches_run i ps s h c pc r :
  booted i s h c pc r → Forall (λ p, p.1 ≠ 0 ∧ p.2 ≠ 0) ps →
  ∃ s' c' pc' r', for_each ps (λ p, switchuvm gdt_addr ts_addr (Some p)) s = Ok tt s' ∧ booted i s' h c' pc' r' ∧
  ∀ p, last ps = Some p → ready i p.1 s' pc' r' ∧ r_cr3 r' = V2P p.2.
Proof.
  intros Hb HF. revert s c pc r Hb. induction HF as [|p ps [Hk Hp] HF IH]; intros s c pc r Hb.
  { exists s, c, pc, r. split; [done|]. split; [done|]. intros p [=]. }
  destruct (switch_ready i s h c pc r p Hb Hk Hp) as (s1 & c1 & pc1 & r1 & H1 & Hb1 & Hr1 & E1). cbn [for_each]. rewrite (bind_run _ _ _ _ _ H1).
  destruct ps as [|q ps]; [exists s1, c1, pc1, r1; split; [done|]; split; [done|]; by intros ? [= <-]|].
  destruct (IH s1 c1 pc1 r1 Hb1) as (s' & c' & pc' & r' & H2 & Hb2 & Hlast). exists s', c', pc', r'. done.
Qed.
End proof.

(** C14: the tables that tvinit, seginit, idtinit and switchuvm set up protect the kernel, after any sequence of switches between processes.
    A user program enters the kernel by int only for system calls, and faults for every other number; an interrupt or
    exception enters its own vector at privilege level 0 on the kernel stack of the running process, with interrupts off except for system
    calls; a user program reaches no port; and the page register is that of the process. *)
Theorem kernel_protected gdt_addr ts_addr idt_addr vectors s h c pc r ps kstack pgdir (i := this (p_mach s)) :
  cur (p_mach s) h c → cli_ok h c → hw_if h = false → p_cpus s !! i = Some pc → length (pc_gdt pc) = 6%nat → p_regs s !! i = Some r →
  length vectors = 256%nat → Forall (λ v, 0 ≤ v < 2 ^ 32) vectors → length (p_idt s) = 256%nat →
  0 ≤ gdt_addr i < 2 ^ 32 → 0 ≤ ts_addr i < 2 ^ 32 → 0 ≤ idt_addr < 2 ^ 32 → Forall (λ p, p.1 ≠ 0 ∧ p.2 ≠ 0) (ps ++ [(kstack, pgdir)]) →
  ∃ s' r',
    ((tvinit vectors ;; seginit gdt_addr ;; idtinit idt_addr) ;; for_each (ps ++ [(kstack, pgdir)]) (λ p, switchuvm gdt_addr ts_addr (Some p))) s = Ok tt s' ∧
    p_regs s' !! i = Some r' ∧ r_cr3 r' = V2P pgdir ∧
    let enter soft cpl n := deliver gdt_addr ts_addr idt_addr i s' soft cpl (Z.of_nat n) in
    let kstack_top := (Z.shiftl SEG_KDATA 3, u32 (kstack + KSTACKSIZE)) in
    (∀ n v, vectors !! n = Some v →
       enter false 3 n = Some (mkEntry 0 v (Some kstack_top) (negb (n =? 64)%nat)) ∧
       enter true 3 n = (if (n =? 64)%nat then Some (mkEntry 0 v (Some kstack_top) false) else None) ∧
       enter false 0 n = Some (mkEntry 0 v None (negb (n =? 64)%nat))) ∧
    ∀ port, 0 ≤ port → io_reachable gdt_addr ts_addr i s' 3 port = false.
Proof.
  intros Hcur Hcli Hif Hpc Hlen Hr Hv Hv32 Hi Hg Hts Hid HF.
  destruct (tables_run gdt_addr idt_addr vectors s h c pc r Hcur Hcli Hif Hpc Hlen Hr Hv Hi Hg Hid) as (s1 & pc1 & r1 & H1 & Hb). rewrite (bind_run _ _ _ _ _ H1).
  destruct (switches_run gdt_addr ts_addr idt_addr vectors i _ s1 h c pc1 r1 Hb HF) as (s' & c' & pc' & r' & H2 & _ & Hl).
  destruct (Hl (kstack, pgdir) (last_snoc _ _)) as [Hrd Hcr3]. exists s', r'. split; [done|]. split; [apply Hrd|]. split; [done|]. cbv zeta.
  split.
  - intros n v Hn. pose proof (lookup_lt_Some _ _ _ Hn) as Hlt. rewrite Hv in Hlt. pose proof (proj1 (Forall_lookup _ _) Hv32 n v Hn) as Hvn.
    split; [|split]; rewrite (deliver_ready _ _ _ vectors i kstack s' pc' r' n v) by (done || by auto); unfold kernel_entry; by destruct (n =? 64)%nat.
  - intros port Hport. unfold io_reachable. rewrite (task_ready _ _ _ _ _ _ _ _ _ Hrd Hts). cbn [ts_iomb]. apply Z.leb_gt.
    pose proof (Z.div_pos port 8 Hport ltac:(lia)). lia.
Qed.
(** One processor before its tables are set up. *)
Definition demo_vectors : list Z := (λ n, 0x80106000 + 11 * n) <$> seqZ 0 256.
Definition demo_psys : psys :=
  mkPs (mkMach 0 [mkHw 0 false] [mkCpu 0 0 false None] 0 (λ _, 0)) [mkPc (replicate 6 (mkSegDesc 0 0 0 0 0 0 0 0 0 0 0 0 0)) (mkTs 0 0 0)]
    [mkRegs (0, 0) (0, 0) 0 0] (replicate 256 (mkGate 0 0 0 0 0 0 0 0 0)) (mkLock 0 "" None []) 0x803ff000.
Lemma kernel_protected_witness :
  ∃ s', ((tvinit demo_vectors ;; seginit (λ _, 0x80112000) ;; idtinit 0x80114000) ;;
         for_each [(0x8dffe000, 0x8dfff000); (0x8dffa000, 0x8dffb000)] (λ p, switchuvm (λ _, 0x80112000) (λ _, 0x80112080) (Some p))) demo_psys = Ok tt s' ∧
        deliver (λ _, 0x80112000) (λ _, 0x80112080) 0x80114000 0 s' true 3 64 = Some (mkEntry 0 0x801062c0 (Some (16, 0x8dffb000)) false).
Proof.
  destruct (kernel_protected (λ _, 0x80112000) (λ _, 0x80112080) 0x80114000 demo_vectors demo_psys (mkHw 0 false) (mkCpu 0 0 false None)
    (mkPc (replicate 6 (mkSegDesc 0 0 0 0 0 0 0 0 0 0 0 0 0)) (mkTs 0 0 0)) (mkRegs (0, 0) (0, 0) 0 0) [(0x8dffe000, 0x8dfff000)] 0x8dffa000 0x8dffb000)
    as (s' & r' & Hs & _ & _ & Hin & _).
  - split; [reflexivity|]. split; [reflexivity|]. split; [reflexivity|]. intros j c' Hj. cbn in Hj. lia.
  - split; cbn; [lia|done].
  - reflexivity.
  - reflexivity.
  - reflexivity.
  - reflexivity.
  - reflexivity.
  - apply (bool_decide_unpack _). vm_compute. exact I.
  - reflexivity.
  - split; [vm_compute; discriminate|reflexivity].
  - split; [vm_compute; discriminate|reflexivity].
  - split; [vm_compute; discriminate|reflexivity].
  - apply (bool_decide_unpack _). vm_compute. exact I.
  - exists s'. split; [exact Hs|]. exact (proj1 (proj2 (Hin 64%nat 0x801062c0 eq_refl))).
Defined.
