(* ===== verification/Umalloc.v ===== *)
(** * The user memory allocator (umalloc.c)

    Free blocks form a circular list in ascending order of address, through
    headers of eight bytes at their starts; [base] is the address of the empty
    block that closes the circle.  Headers are the two fields [ptr] and [size] (in
    units of a header) by address.  sbrk is the system call, here an interface:
    [brk] is the end of the process's memory. *)

From S2P Require Import Prelude.

(** What malloc relies on of sbrk(n), [n] not negative: it fails, or the memory
    from the old break on becomes the process's. *)
Class Sbrk (E : Type) := {
  brk : E → Z;
  sbrk : Z → E → Z * E;
  sbrk_spec n e : 0 ≤ n → (sbrk n e).1 ≠ 2 ^ 32 - 1 →
    (sbrk n e).1 = brk e ∧ brk (sbrk n e).2 = brk e + n ∧ brk e + n ≤ 2 ^ 31;
  sbrk_fail n e : 0 ≤ n → (sbrk n e).1 = 2 ^ 32 - 1 → brk (sbrk n e).2 = brk e }.

Record umem (E : Type) := mkU { u_ptr : Z → Z; u_size : Z → Z; u_freep : Z; u_env : E }.
Arguments mkU {E} _ _ _ _.
Arguments u_ptr {E} _ _. Arguments u_size {E} _ _. Arguments u_freep {E} _. Arguments u_env {E} _.
Definition put (a v : Z) (f : Z → Z) : Z → Z := λ x, if x =? a then v else f x.

Section code.
Context {E : Type} `{!Sbrk E} (base : Z).
Abbreviation UM := (M (umem E)).
Implicit Types s : umem E.
Definition ptr_of (p : Z) : UM Z := gets (λ s, u_ptr s p).
Definition size_of (p : Z) : UM Z := gets (λ s, u_size s p).
Definition set_ptr (p v : Z) : UM unit := modify (λ s, mkU (put p v (u_ptr s)) (u_size s) (u_freep s) (u_env s)).
Definition set_size (p v : Z) : UM unit := modify (λ s, mkU (u_ptr s) (put p v (u_size s)) (u_freep s) (u_env s)).
Definition set_freep (p : Z) : UM unit := modify (λ s, mkU (u_ptr s) (u_size s) p (u_env s)).
(** [p + n] on a [Header*]. *)
Definition hdr (p n : Z) : Z := u32 (p + 8 * n).

(** The test of free's loop: [bp] belongs between [p] and [nxt]. *)
Definition between (bp p nxt : Z) : bool :=
  ((p <? bp) && (bp <? nxt)) || ((nxt <=? p) && ((p <? bp) || (bp <? nxt))).
Fixpoint free_find (fuel : nat) (bp p : Z) : UM Z :=
  match fuel with
  | O => spin
  | S fuel' =>
      nxt ← ptr_of p;
      if between bp p nxt then mret p else free_find fuel' bp nxt
  end.
Definition free (fuel : nat) (ap : Z) : UM unit :=
  let bp := u32 (ap - 8) in
  s ← get;
  p ← free_find fuel bp (u_freep s);
  nxt ← ptr_of p;
  bsize ← size_of bp;
  (if hdr bp bsize =? nxt then
     nsize ← size_of nxt;
     set_size bp (u32 (bsize + nsize)) ;;
     nn ← ptr_of nxt;
     set_ptr bp nn
   else set_ptr bp nxt) ;;
  psize ← size_of p;
  (if hdr p psize =? bp then
     bsize ← size_of bp;
     set_size p (u32 (psize + bsize)) ;;
     bnxt ← ptr_of bp;
     set_ptr p bnxt
   else set_ptr p bp) ;;
  set_freep p.

(** [None] is the null pointer. *)
Definition morecore (fuel : nat) (nu : Z) : UM (option Z) :=
  let nu := if nu <? 4096 then 4096 else nu in
  s ← get;
  let '(p, e) := sbrk (i32 (nu * 8)) (u_env s) in
  modify (λ s, mkU (u_ptr s) (u_size s) (u_freep s) e) ;;
  if p =? 2 ^ 32 - 1 then mret None else
  set_size p nu ;;
  free fuel (hdr p 1) ;;
  s ← get;
  mret (Some (u_freep s)).

Fixpoint malloc_loop (fuel : nat) (nunits prevp p : Z) : UM (option Z) :=
  match fuel with
  | O => spin
  | S fuel' =>
      psize ← size_of p;
      if nunits <=? psize then
        (if psize =? nunits then
           nxt ← ptr_of p;
           set_ptr prevp nxt ;;
           set_freep prevp ;;
           mret (Some (hdr p 1))
         else
           set_size p (psize - nunits) ;;
           let q := hdr p (psize - nunits) in
           set_size q nunits ;;
           set_freep prevp ;;
           mret (Some (hdr q 1)))
      else
        s ← get;
        if p =? u_freep s then
          r ← morecore fuel nunits;
          match r with
          | None => mret None
          | Some p => nxt ← ptr_of p; malloc_loop fuel' nunits p nxt
          end
        else nxt ← ptr_of p; malloc_loop fuel' nunits p nxt
  end.
Definition malloc (fuel : nat) (nbytes : Z) : UM (option Z) :=
  let nunits := u32 (u32 (nbytes + 8 - 1) / 8 + 1) in
  s ← get;
  when (u_freep s =? 0)
    (set_freep base ;; set_ptr base base ;; set_size base 0) ;;
  s ← get;
  p ← ptr_of (u_freep s);
  malloc_loop fuel nunits (u_freep s) p.
End code.

(** ** The free list *)
Abbreviation blk := (Z * Z)%type.
Implicit Types (L : list blk) (f g : Z → Z).
(** The pointers from [a] lead through the blocks of [L]. *)
Fixpoint seg f g (a : Z) L : Prop :=
  match L with [] => True | (b, n) :: L' => f a = b ∧ g b = n ∧ seg f g b L' end.
Definition last_addr (a : Z) L : Z := default a (fst <$> last L).
Lemma last_addr_snoc a L b n : last_addr a (L ++ [(b, n)]) = b.
Proof. unfold last_addr. by rewrite last_snoc. Qed.
Lemma last_addr_cons a b n L : last_addr a ((b, n) :: L) = last_addr b L.
Proof. unfold last_addr. rewrite last_cons. by destruct (last L). Qed.
Lemma last_addr_app a L1 L2 : last_addr a (L1 ++ L2) = last_addr (last_addr a L1) L2.
Proof. revert a. induction L1 as [|[b n] L1 IH]; intros a; [done|]. simpl app. by rewrite !last_addr_cons, IH. Qed.
Lemma seg_app f g a L1 L2 : seg f g a (L1 ++ L2) ↔ seg f g a L1 ∧ seg f g (last_addr a L1) L2.
Proof.
  revert a. induction L1 as [|[b n] L1 IH]; intros a; simpl; [by unfold last_addr; simpl; tauto|].
  rewrite IH, last_addr_cons. tauto.
Qed.
Lemma seg_agree f g f' g' a L :
  seg f g a L → (∀ x, x = a ∨ x ∈ L.*1 → f' x = f x) → (∀ x, x ∈ L.*1 → g' x = g x) → seg f' g' a L.
Proof.
  revert a. induction L as [|[b n] L IH]; intros a; simpl; [done|]. intros (H1 & H2 & H3) Hf Hg. split_and!.
  - rewrite Hf; [done|by left].
  - rewrite Hg; [done|apply elem_of_cons; by left].
  - apply IH; [done| |].
    + intros x Hx. apply Hf. right. apply elem_of_cons. tauto.
    + intros x Hx. apply Hg. apply elem_of_cons. by right.
Qed.
Lemma last_addr_in a L : last_addr a L = a ∨ last_addr a L ∈ L.*1.
Proof.
  unfold last_addr. destruct (last L) as [[c m]|] eqn:E; [|by left]. right. apply list_elem_of_fmap. exists (c, m). split; [done|].
  by apply last_Some_elem_of.
Qed.
Lemma put_ne a v f x : x ≠ a → put a v f x = f x.
Proof. intros H. unfold put. by rewrite (proj2 (Z.eqb_neq x a) H). Qed.
Lemma put_eq a v f : put a v f a = v.
Proof. unfold put. by rewrite Z.eqb_refl. Qed.

Section circle.
Context (base : Z).
(** From [a] through [L] and back to [base]. *)
Definition tail f g a L : Prop := seg f g a L ∧ f (last_addr a L) = base.
Lemma tail_app f g a L1 L2 : tail f g a (L1 ++ L2) ↔ seg f g a L1 ∧ tail f g (last_addr a L1) L2.
Proof. unfold tail. rewrite seg_app, last_addr_app. tauto. Qed.
(** The same blocks reached from another one. *)
Lemma tail_move f g f' g' a c L :
  tail f g a L → f' c = f a → (∀ x, x ∈ L.*1 → f' x = f x) → (∀ x, x ∈ L.*1 → g' x = g x) → tail f' g' c L.
Proof.
  intros [Hs Hc] Hca Hf Hg. destruct L as [|[b n] L]; [split; [done|]; unfold last_addr in *; simpl in *; congruence|].
  rewrite last_addr_cons in Hc. simpl in Hs. destruct Hs as (H1 & H2 & H3). simpl in Hf, Hg. split.
  - simpl. split_and!; [congruence|rewrite Hg; [done|apply elem_of_cons; by left]|].
    eapply seg_agree; [exact H3| |]; intros x Hx; [apply Hf, elem_of_cons; tauto|apply Hg, elem_of_cons; by right].
  - rewrite last_addr_cons, Hf; [done|]. apply elem_of_cons. apply last_addr_in.
Qed.
(** The pointer of a block of the circle. *)
Definition next_addr L : Z := match L with (r, _) :: _ => r | [] => base end.
Lemma tail_next f g a L : tail f g a L → f a = next_addr L.
Proof. intros [Hs Hc]. destruct L as [|[b n] L]; simpl in *; [done|]. by destruct Hs. Qed.

Definition gap (x y : blk) : Prop := x.1 + 8 * x.2 < y.1.
Lemma gap_mid X z Y :
  StronglySorted gap (X ++ Y) → (∀ x, x ∈ X → gap x z) → (∀ y, y ∈ Y → gap z y) → StronglySorted gap (X ++ z :: Y).
Proof.
  intros HS HX HY. apply StronglySorted_app in HS as (Hxy & HSX & HSY). apply StronglySorted_app. split_and!; [|done|].
  - intros x y Hx [->|Hy]%elem_of_cons; [by apply HX|by apply Hxy].
  - constructor; [done|]. by apply Forall_forall.
Qed.
(** Blocks before and after an address range that meets none of them. *)
Lemma split_blocks L b n :
  StronglySorted gap L → Forall (λ x, 1 ≤ x.2) L → 1 ≤ n → (∀ x, x ∈ L → x.1 + 8 * x.2 ≤ b ∨ b + 8 * n ≤ x.1) →
  ∃ L1 L2, L = L1 ++ L2 ∧ (∀ x, x ∈ L1 → x.1 + 8 * x.2 ≤ b) ∧ (∀ x, x ∈ L2 → b + 8 * n ≤ x.1).
Proof.
  induction L as [|x L IH]; intros HS HP Hn Hd; [exists [], []; split_and!; [done|by intros ? ?%elem_of_nil..]|].
  apply StronglySorted_inv in HS as [HS Hx]. apply Forall_cons in HP as [Hx1 HP]. rewrite Forall_forall in Hx.
  destruct (IH HS HP Hn) as (L1 & L2 & -> & H1 & H2); [intros y Hy; apply Hd, elem_of_cons; by right|].
  destruct (Hd x ltac:(apply elem_of_cons; by left)) as [Hle|Hge].
  - exists (x :: L1), L2. split_and!; [done| |done]. intros y [->|Hy]%elem_of_cons; [done|by apply H1].
  - exists [], (x :: L1 ++ L2). split_and!; [done|by intros ? ?%elem_of_nil|]. intros y [->|Hy]%elem_of_cons; [done|].
    specialize (Hx y Hy). unfold gap in Hx. lia.
Qed.
(** The bytes of a list of blocks. *)
Definition cov L (x : Z) : Prop := ∃ y, y ∈ L ∧ y.1 ≤ x < y.1 + 8 * y.2.
Lemma cov_app L1 L2 x : cov (L1 ++ L2) x ↔ cov L1 x ∨ cov L2 x.
Proof. unfold cov. setoid_rewrite elem_of_app. naive_solver. Qed.
Lemma cov_cons y L x : cov (y :: L) x ↔ (y.1 ≤ x < y.1 + 8 * y.2) ∨ cov L x.
Proof. unfold cov. setoid_rewrite elem_of_cons. naive_solver. Qed.
Lemma cov_nil x : ¬ cov [] x.
Proof. intros (y & H%elem_of_nil & _). done. Qed.
End circle.
