(* ===== verification/Uheap.v ===== *)
(** * free and malloc on the circular list of free blocks

    [rep s L]: the state [s] of umalloc.c holds the free blocks [L], in ascending
    order with a gap between any two, on the circle closed by [base].  free and malloc are
    described by the bytes that the blocks cover. *)

From S2P Require Import Prelude Umalloc.

(** ** Positions on the circle *)
Section position.
Context (base : Z).
Implicit Types (L : list blk) (f g : Z → Z) (x y : blk).
Lemma sorted_lookup L i j x y :
  StronglySorted gap L → L !! i = Some x → L !! j = Some y → (i < j)%nat → gap x y.
Proof.
  intros HS. revert i j. induction HS as [|z L HS IH Hz]; intros i j Hi Hj Hij; [by rewrite lookup_nil in Hi|].
  destruct j as [|j]; [lia|]. simpl in Hj. destruct i as [|i]; simpl in Hi.
  - injection Hi as <-. rewrite Forall_forall in Hz. eapply Hz, list_elem_of_lookup_2, Hj.
  - eapply IH; [done|done|lia].
Qed.
Lemma ptr_idx f g a m L i x :
  tail base f g a L → ((a, m) :: L) !! i = Some x →
  f x.1 = match ((a, m) :: L) !! Datatypes.S i with Some y => y.1 | None => base end.
Proof.
  revert a m i. induction L as [|[b n] L IH]; intros a m i Ht Hi.
  - destruct i as [|i]; [|by rewrite lookup_cons, lookup_nil in Hi]. injection Hi as <-. exact (tail_next _ _ _ _ _ Ht).
  - destruct i as [|i].
    + injection Hi as <-. exact (tail_next _ _ _ _ _ Ht).
    + apply (tail_app base f g a [(b, n)] L) in Ht as [_ Ht]. change (last_addr a [(b, n)]) with b in Ht.
      exact (IH b n i Ht Hi).
Qed.
Lemma seg_put f g a A v :
  seg f g a A → NoDup (a :: A.*1) → seg (put (last_addr a A) v f) g a A.
Proof.
  revert a. induction A as [|[b n] A IH]; intros a; [done|]. simpl. intros (H1 & H2 & H3) [Ha HN]%NoDup_cons.
  rewrite last_addr_cons. split; [|split; [done|]].
  - rewrite put_ne; [done|]. intros ->. apply Ha. apply elem_of_cons.
    destruct (last_addr_in b A) as [->|H]; [by left|by right].
  - by apply IH.
Qed.
Lemma seg_putg f g a A q v : seg f g a A → q ∉ A.*1 → seg f (put q v g) a A.
Proof. intros H Hq. eapply seg_agree; [exact H|done|]. intros x Hx. apply put_ne. by intros ->. Qed.
Lemma lookup_last a m A B i x :
  i = length A → ((a, m) :: A ++ B) !! i = Some x → x.1 = last_addr a A.
Proof.
  intros ->. revert a m. induction A as [|[b n] A IH]; intros a m.
  - simpl. by intros [= <-].
  - simpl. rewrite last_addr_cons. apply IH.
Qed.
Lemma tail_cons f g a b n L : tail base f g a ((b, n) :: L) ↔ f a = b ∧ g b = n ∧ tail base f g b L.
Proof. unfold tail. simpl. rewrite last_addr_cons. tauto. Qed.
Lemma snoc_cases L : L = [] ∨ ∃ A x, L = A ++ [x].
Proof. induction L as [|x A _] using rev_ind; [by left|]. right. by exists A, x. Qed.
Lemma sorted_drop_mid A D R : StronglySorted gap (A ++ D ++ R) → StronglySorted gap (A ++ R).
Proof.
  intros (H1 & H2 & H3)%StronglySorted_app. apply StronglySorted_app in H3 as (_ & _ & H3). apply StronglySorted_app.
  split; [|done]. intros x y Hx Hy. apply H1; [done|]. apply elem_of_app. by right.
Qed.
End position.

Section heap.
Context {E : Type} `{!Sbrk E} (base : Z).
Implicit Types (s : umem E) (L A B : list blk) (x y : blk).
Definition circle L : list blk := (base, 0) :: L.
Definition addrs L : list Z := base :: L.*1.

Record rep s L : Prop := {
  rep_tail : tail base (u_ptr s) (u_size s) base L;
  rep_base : u_size s base = 0;
  rep_sorted : StronglySorted gap (circle L);
  rep_sizes : Forall (λ x, 1 ≤ x.2 ∧ base + 8 ≤ x.1 ∧ x.1 + 8 * x.2 ≤ brk (u_env s)) L;
  rep_freep : u_freep s ∈ addrs L;
  rep_range : 0 < base ∧ base + 8 ≤ brk (u_env s) ≤ 2 ^ 31 }.

(** ** Consequences *)
Lemma ptr_of_run s a : ptr_of a s = Ok (u_ptr s a) s.
Proof. done. Qed.
Lemma size_of_run s a : size_of a s = Ok (u_size s a) s.
Proof. done. Qed.
Lemma rep_sizes_in s L x : rep s L → x ∈ L → 1 ≤ x.2 ∧ base + 8 ≤ x.1 ∧ x.1 + 8 * x.2 ≤ brk (u_env s).
Proof. intros H. pose proof (rep_sizes _ _ H) as HF. rewrite Forall_forall in HF. apply HF. Qed.
Lemma circle_nonneg s L i x : rep s L → circle L !! i = Some x → 0 ≤ x.2 ∧ base ≤ x.1.
Proof.
  intros H Hi. destruct i as [|i]; simpl in Hi; [injection Hi as <-; simpl; lia|].
  apply list_elem_of_lookup_2 in Hi. pose proof (rep_sizes_in _ _ _ H Hi). lia.
Qed.
Lemma circle_lt s L i j x y :
  rep s L → circle L !! i = Some x → circle L !! j = Some y → (i < j)%nat → x.1 < y.1 ∧ x.1 + 8 * x.2 < y.1.
Proof.
  intros H Hi Hj Hij. pose proof (sorted_lookup _ _ _ _ _ (rep_sorted _ _ H) Hi Hj Hij) as Hg.
  pose proof (circle_nonneg _ _ _ _ H Hi). unfold gap in Hg. lia.
Qed.
Lemma addrs_circle L : addrs L = (circle L).*1.
Proof. done. Qed.
Lemma addrs_nodup s L : rep s L → NoDup (addrs L).
Proof.
  intros H. rewrite addrs_circle. apply NoDup_alt. intros i j z Hi Hj.
  apply list_lookup_fmap_Some in Hi as (x & Hx & Hi). apply list_lookup_fmap_Some in Hj as (y & Hy & Hj).
  destruct (Nat.lt_trichotomy i j) as [Hl|[He|Hl]]; [|done|].
  - pose proof (circle_lt _ _ _ _ _ _ H Hi Hj Hl). lia.
  - pose proof (circle_lt _ _ _ _ _ _ H Hj Hi Hl). lia.
Qed.
Lemma next_idx s L i x :
  rep s L → circle L !! i = Some x →
  ∃ y, circle L !! (Datatypes.S i mod length (circle L))%nat = Some y ∧ u_ptr s x.1 = y.1.
Proof.
  intros H Hi. pose proof (lookup_lt_Some _ _ _ Hi) as Hlt.
  pose proof (ptr_idx base _ _ base 0 L i x (rep_tail _ _ H) Hi) as Hp. fold (circle L) in Hp.
  destruct (decide (Datatypes.S i < length (circle L))%nat) as [Hs|Hs].
  - rewrite Nat.mod_small by done. destruct (lookup_lt_is_Some_2 _ _ Hs) as [y Hy].
    exists y. split; [done|]. by rewrite Hp, Hy.
  - replace (Datatypes.S i) with (length (circle L)) in * by lia. rewrite Nat.Div0.mod_same.
    exists (base, 0). split; [done|]. rewrite Hp. by rewrite lookup_ge_None_2.
Qed.

(** ** The place of a block: between the free blocks below and above it *)
Section place.
Context s L1 L2 (b n : Z).
Hypotheses (HR : rep s (L1 ++ L2)) (Hn : 1 ≤ n) (Hb : base + 8 ≤ b).
Hypotheses (H1 : ∀ x, x ∈ L1 → x.1 + 8 * x.2 ≤ b) (H2 : ∀ x, x ∈ L2 → b + 8 * n ≤ x.1).
Local Abbreviation L := (L1 ++ L2).

Lemma place_below i x : circle L !! i = Some x → (i ≤ length L1)%nat → x.1 < b.
Proof.
  intros Hi Hle. destruct i as [|i]; simpl in Hi; [injection Hi as <-; simpl; lia|].
  rewrite lookup_app_l in Hi by lia. apply list_elem_of_lookup_2 in Hi.
  pose proof (H1 x Hi). pose proof (rep_sizes_in _ _ x HR ltac:(apply elem_of_app; by left)). lia.
Qed.
Lemma place_above i x : circle L !! i = Some x → (length L1 < i)%nat → b < x.1.
Proof.
  intros Hi Hle. destruct i as [|i]; simpl in Hi; [lia|].
  rewrite lookup_app_r in Hi by lia. apply list_elem_of_lookup_2 in Hi. pose proof (H2 x Hi). lia.
Qed.
Lemma between_iff i x : circle L !! i = Some x → between b x.1 (u_ptr s x.1) = true ↔ i = length L1.
Proof.
  intros Hi. pose proof (ptr_idx base _ _ base 0 L i x (rep_tail _ _ HR) Hi) as Hp. fold (circle L) in Hp.
  pose proof (circle_nonneg _ _ _ _ HR Hi) as [_ Hx]. rewrite Hp.
  unfold between. destruct (circle L !! Datatypes.S i) as [y|] eqn:Hy.
  - pose proof (circle_lt _ _ _ _ _ _ HR Hi Hy ltac:(lia)) as [Hxy _].
    destruct (Nat.lt_trichotomy i (length L1)) as [Hl|[He|Hl]].
    + pose proof (place_below _ _ Hy ltac:(lia)). split; [|lia]. intros ?. lia.
    + pose proof (place_below _ _ Hi ltac:(lia)). pose proof (place_above _ _ Hy ltac:(lia)). split; [done|lia].
    + pose proof (place_above _ _ Hi ltac:(lia)). split; lia.
  - apply lookup_ge_None in Hy. pose proof (lookup_lt_Some _ _ _ Hi) as Hlt. simpl in Hy, Hlt. rewrite length_app in *.
    destruct (Nat.lt_trichotomy i (length L1)) as [Hl|[He|Hl]]; [lia| |].
    + pose proof (place_below _ _ Hi ltac:(lia)). split; [done|lia].
    + pose proof (place_above _ _ Hi ltac:(lia)). split; lia.
Qed.
(** The search of free stops at the block below. *)
Lemma free_find_walk k fuel i x :
  circle L !! i = Some x → ((i + k) mod length (circle L))%nat = length L1 → (k < fuel)%nat →
  free_find fuel b x.1 s = Ok (last_addr base L1) s.
Proof.
  revert fuel i x. induction k as [|k IH]; intros [|fuel] i x Hi Hk Hf; [lia| |lia|].
  - rewrite Nat.add_0_r, Nat.mod_small in Hk by (apply lookup_lt_Some in Hi; done).
    cbn [free_find]. unfold mbind, M_bind, ptr_of, gets. rewrite (proj2 (between_iff _ _ Hi) Hk).
    by rewrite (lookup_last base 0 L1 L2 i x Hk Hi).
  - cbn [free_find]. unfold mbind, M_bind, ptr_of, gets. destruct (between b x.1 (u_ptr s x.1)) eqn:Hbt.
    + apply (between_iff _ _ Hi) in Hbt. by rewrite (lookup_last base 0 L1 L2 i x Hbt Hi).
    + destruct (next_idx _ _ _ _ HR Hi) as (y & Hy & ->). apply (IH fuel _ y Hy); [|lia].
      rewrite Nat.Div0.add_mod_idemp_l. by rewrite <- Hk, Nat.add_succ_r.
Qed.
Lemma free_find_ok fuel :
  (length (circle L) ≤ fuel)%nat → free_find fuel b (u_freep s) s = Ok (last_addr base L1) s.
Proof.
  intros Hf. pose proof (rep_freep _ _ HR) as Hp. rewrite addrs_circle in Hp.
  apply list_elem_of_lookup in Hp as [i Hi]. apply list_lookup_fmap_Some in Hi as (x & -> & Hi).
  pose proof (lookup_lt_Some _ _ _ Hi) as Hlt.
  pose proof (Nat.mod_upper_bound (length L1 + length (circle L) - i) (length (circle L)) ltac:(simpl; lia)) as Hk.
  apply (free_find_walk ((length L1 + length (circle L) - i) mod length (circle L)) fuel i x Hi); [|lia].
  rewrite Nat.Div0.add_mod_idemp_r.
  replace (i + (length L1 + length (circle L) - i))%nat with (length L1 + 1 * length (circle L))%nat by lia.
  rewrite Nat.Div0.mod_add, Nat.mod_small; [done|]. simpl. rewrite length_app. lia.
Qed.
(** ** Joining the freed block to its neighbours *)
Hypotheses (Hbrk : b + 8 * n ≤ brk (u_env s)) (Hbs : u_size s b = n).
Local Abbreviation p := (last_addr base L1).

Definition same_off (a : Z) s s' : Prop :=
  (∀ z, z ≠ a → u_ptr s' z = u_ptr s z) ∧ (∀ z, z ≠ a → u_size s' z = u_size s z) ∧
  u_freep s' = u_freep s ∧ u_env s' = u_env s.
Lemma place_ptr : u_ptr s p = next_addr base L2.
Proof. pose proof (rep_tail _ _ HR) as Ht. apply tail_app in Ht as [_ Ht]. exact (tail_next _ _ _ _ _ Ht). Qed.
Lemma place_p : base ≤ p < b.
Proof.
  destruct (last_addr_in base L1) as [->|Hi]; [lia|]. apply list_elem_of_fmap in Hi as ([q k] & Hq & Hi). simpl in Hq.
  rewrite Hq. pose proof (H1 _ Hi) as Hq1. pose proof (rep_sizes_in _ _ _ HR ltac:(apply elem_of_app; left; exact Hi)) as Hq2.
  simpl in *. lia.
Qed.

Definition join_right (bp nxt bsize : Z) : M (umem E) unit :=
  if hdr bp bsize =? nxt then
    nsize ← size_of nxt;
    set_size bp (u32 (bsize + nsize)) ;;
    nn ← ptr_of nxt;
    set_ptr bp nn
  else set_ptr bp nxt.
Record joined s1 n' R : Prop := {
  j_tail : tail base (u_ptr s1) (u_size s1) b R;
  j_size : u_size s1 b = n';
  j_ge : n ≤ n';
  j_same : same_off b s s1;
  j_rest : ∃ D, L2 = D ++ R;
  j_gap : ∀ y, y ∈ R → b + 8 * n' < y.1;
  j_brk : b + 8 * n' ≤ brk (u_env s);
  j_cov : ∀ z, (b ≤ z < b + 8 * n' ∨ cov R z) ↔ (b ≤ z < b + 8 * n ∨ cov L2 z) }.

Lemma b_fresh y : y ∈ L2 → y.1 ≠ b.
Proof. intros Hy. pose proof (H2 y Hy). lia. Qed.
Lemma tail_b (f : Z → Z) (g : Z → Z) R :
  tail base (u_ptr s) (u_size s) (last_addr base L1) L2 → (∃ D, L2 = D ++ R) →
  f b = next_addr base R → (∀ z, z ≠ b → f z = u_ptr s z) → (∀ z, z ≠ b → g z = u_size s z) → tail base f g b R.
Proof.
  intros Ht [D HD] Hfb Hf Hg. rewrite HD in Ht. apply tail_app in Ht as [_ Ht].
  assert (∀ z, z ∈ R.*1 → z ≠ b) as Hz.
  { intros z (y & -> & Hy)%list_elem_of_fmap. apply b_fresh. rewrite HD. apply elem_of_app. by right. }
  eapply tail_move; [exact Ht| | |]; intros.
  - rewrite Hfb. symmetry. exact (tail_next _ _ _ _ _ Ht).
  - by apply Hf, Hz.
  - by apply Hg, Hz.
Qed.
Lemma join_right_ok : ∃ s1 n' R, join_right b (next_addr base L2) n s = Ok tt s1 ∧ joined s1 n' R.
Proof.
  pose proof (rep_range _ _ HR) as Hrg. pose proof (rep_tail _ _ HR) as Ht. apply tail_app in Ht as [_ Ht].
  pose proof (rep_sorted _ _ HR) as HS. unfold circle in HS. rewrite app_comm_cons in HS.
  apply StronglySorted_app in HS as (_ & _ & HS2).
  unfold join_right, hdr. rewrite u32_small by lia. destruct (Z.eqb_spec (b + 8 * n) (next_addr base L2)) as [Hadj|Hna].
  - assert (∃ m R, L2 = (b + 8 * n, m) :: R) as (m & R & EL).
    { destruct L2 as [|[r m] R]; simpl in Hadj; [lia|]. exists m, R. by rewrite Hadj. }
    pose proof (rep_sizes_in _ _ (b + 8 * n, m) HR ltac:(rewrite EL; set_solver)) as Hm. simpl in Hm.
    pose proof Ht as Ht'. rewrite EL in Ht', HS2. apply tail_cons in Ht' as (Hpr & Hgr & Ht').
    eexists _, (n + m), R. unfold mbind, M_bind, size_of, set_size, ptr_of, set_ptr, gets, modify. cbn.
    split; [reflexivity|]. rewrite <- Hadj, Hgr, u32_small by lia.
    apply StronglySorted_inv in HS2 as [_ HS2]. rewrite Forall_forall in HS2. split; cbn.
    + apply tail_b; [done|by exists [(b + 8 * n, m)]| | |].
      * rewrite put_eq. exact (tail_next _ _ _ _ _ Ht').
      * intros z Hz. by apply put_ne.
      * intros z Hz. by apply put_ne.
    + apply put_eq.
    + lia.
    + unfold same_off; cbn. split; [|split; [|done]]; intros z Hz; by apply put_ne.
    + by exists [(b + 8 * n, m)].
    + intros y Hy. specialize (HS2 y Hy). unfold gap in HS2. simpl in HS2. lia.
    + lia.
    + intros z. rewrite EL, cov_cons. simpl.
      assert (b ≤ z < b + 8 * (n + m) ↔ b ≤ z < b + 8 * n ∨ b + 8 * n ≤ z < b + 8 * n + 8 * m) as -> by lia. tauto.
  - eexists _, n, L2. split; [reflexivity|]. split; cbn; [|done|lia| |by exists []| |done|done].
    + apply tail_b; [done|by exists []|apply put_eq|by intros; apply put_ne|done].
    + unfold same_off; cbn. split; [|done]. intros z Hz; by apply put_ne.
    + intros y Hy. pose proof (H2 y Hy). destruct L2 as [|z R]; [by apply elem_of_nil in Hy|].
      destruct z as [r m]. simpl in Hna. apply elem_of_cons in Hy as [->|Hy]; [simpl in *; lia|].
      apply StronglySorted_inv in HS2 as [_ HS2]. rewrite Forall_forall in HS2. specialize (HS2 y Hy). unfold gap in HS2.
      pose proof (rep_sizes_in _ _ (r, m) HR ltac:(set_solver)). pose proof (H2 (r, m) ltac:(set_solver)). simpl in *. lia.
Qed.

Definition join_left (bp p psize : Z) : M (umem E) unit :=
  if hdr p psize =? bp then
    bsize ← size_of bp;
    set_size p (u32 (psize + bsize)) ;;
    bnxt ← ptr_of bp;
    set_ptr p bnxt
  else set_ptr p bp.
(** What free leaves: the bytes of the block are free, the rest is as it was. *)
Record freed s' L' : Prop := {
  f_tail : tail base (u_ptr s') (u_size s') base L';
  f_sorted : StronglySorted gap (circle L');
  f_sizes : Forall (λ x, 1 ≤ x.2 ∧ base + 8 ≤ x.1 ∧ x.1 + 8 * x.2 ≤ brk (u_env s)) L';
  f_p : p ∈ addrs L';
  f_env : u_env s' = u_env s;
  f_cov : ∀ z, cov L' z ↔ cov L z ∨ b ≤ z < b + 8 * n;
  f_ptr : ∀ z, z ≠ b → z ∉ addrs L → u_ptr s' z = u_ptr s z;
  f_size : ∀ z, z ≠ b → z ∉ addrs L ∨ z = base → u_size s' z = u_size s z;
  f_len : (length L' ≤ Datatypes.S (length L))%nat }.

Section left.
Context s1 n' R (HJ : joined s1 n' R).
Lemma R_above y : y ∈ R → p < y.1 ∧ b < y.1 ∧ y ∈ L2.
Proof.
  intros Hy. pose proof (j_gap _ _ _ HJ y Hy). pose proof (j_ge _ _ _ HJ). pose proof place_p.
  destruct (j_rest _ _ _ HJ) as [D ->]. split; [lia|]. split; [lia|]. apply elem_of_app. by right.
Qed.
Lemma R_not_p z : z ∈ R.*1 → z ≠ p.
Proof. intros (y & -> & Hy)%list_elem_of_fmap. pose proof (R_above y Hy). lia. Qed.
Lemma L1_not_b z : z ∈ addrs L1 → z ≠ b.
Proof.
  intros [->|(y & -> & Hy)%list_elem_of_fmap]%elem_of_cons; [lia|]. pose proof (H1 y Hy).
  pose proof (rep_sizes_in _ _ y HR ltac:(apply elem_of_app; by left)). lia.
Qed.
Lemma p_in : p ∈ addrs L1.
Proof. apply elem_of_cons. exact (last_addr_in base L1). Qed.
Lemma seg_L1 : seg (u_ptr s1) (u_size s1) base L1.
Proof.
  pose proof (rep_tail _ _ HR) as Ht. apply tail_app in Ht as [Ht _]. destruct (j_same _ _ _ HJ) as (Hp & Hs & _).
  eapply seg_agree; [exact Ht| |]; intros z Hz.
  - apply Hp, L1_not_b. by apply elem_of_cons.
  - apply Hs, L1_not_b. apply elem_of_cons. by right.
Qed.
Lemma rest_sorted X : StronglySorted gap (X ++ L2) → StronglySorted gap (X ++ R).
Proof. destruct (j_rest _ _ _ HJ) as [D ->]. apply sorted_drop_mid. Qed.
Lemma sizes_R : Forall (λ x, 1 ≤ x.2 ∧ base + 8 ≤ x.1 ∧ x.1 + 8 * x.2 ≤ brk (u_env s)) R.
Proof. apply Forall_forall. intros y Hy. apply (rep_sizes_in _ _ _ HR), elem_of_app. right. by apply R_above. Qed.
Lemma sizes_L1 : Forall (λ x, 1 ≤ x.2 ∧ base + 8 ≤ x.1 ∧ x.1 + 8 * x.2 ≤ brk (u_env s)) L1.
Proof. apply Forall_forall. intros y Hy. apply (rep_sizes_in _ _ _ HR), elem_of_app. by left. Qed.
Lemma len_R : (length R ≤ length L2)%nat.
Proof. destruct (j_rest _ _ _ HJ) as [D ->]. rewrite length_app. lia. Qed.

(** No neighbour below: the block stays of its own. *)
Lemma left_apart :
  (∀ x, x ∈ circle L1 → gap x (b, n')) → freed (mkU (put p b (u_ptr s1)) (u_size s1) p (u_env s1)) (L1 ++ (b, n') :: R).
Proof.
  intros Hgap. destruct (j_same _ _ _ HJ) as (Hsp & Hss & _ & He). pose proof (j_ge _ _ _ HJ). pose proof (j_brk _ _ _ HJ). pose proof place_p.
  split; cbn.
  - apply tail_app. split.
    + apply seg_put; [exact seg_L1|]. pose proof (addrs_nodup _ _ HR) as HN. unfold addrs in HN. rewrite fmap_app, app_comm_cons in HN.
      by apply NoDup_app in HN as [HN _].
    + apply tail_cons. split; [apply put_eq|]. split; [exact (j_size _ _ _ HJ)|].
      eapply tail_move; [exact (j_tail _ _ _ HJ)|apply put_ne; lia| |done]. intros z Hz. by apply put_ne, R_not_p.
  - unfold circle. rewrite app_comm_cons. apply gap_mid; [|exact Hgap|exact (j_gap _ _ _ HJ)].
    apply rest_sorted. exact (rep_sorted _ _ HR).
  - apply Forall_app. split; [exact sizes_L1|]. apply Forall_cons. split; [simpl; lia|exact sizes_R].
  - unfold addrs. rewrite fmap_app, app_comm_cons. apply elem_of_app. left. exact p_in.
  - done.
  - intros z. rewrite !cov_app, cov_cons. pose proof (j_cov _ _ _ HJ z). simpl. tauto.
  - intros z Hz Hn2. rewrite put_ne; [by apply Hsp|]. intros ->. apply Hn2. unfold addrs. rewrite fmap_app, app_comm_cons.
    apply elem_of_app. left. exact p_in.
  - intros z Hz _. by apply Hss.
  - rewrite !length_app. simpl. pose proof len_R. lia.
Qed.
(** A neighbour below takes the block in. *)
Lemma left_join A q k :
  L1 = A ++ [(q, k)] → q + 8 * k = b →
  freed (mkU (put q (u_ptr s1 b) (u_ptr s1)) (put q (k + n') (u_size s1)) q (u_env s1)) (A ++ (q, k + n') :: R).
Proof.
  intros HL Hk. destruct (j_same _ _ _ HJ) as (Hsp & Hss & _ & He). pose proof (j_ge _ _ _ HJ). pose proof (j_brk _ _ _ HJ).
  assert (p = q) as Hpq by (rewrite HL; apply last_addr_snoc). pose proof place_p as Hp. pose proof p_in as Hin. rewrite Hpq in Hp, Hin.
  pose proof R_not_p as HRq. rewrite Hpq in HRq. pose proof (rep_sizes_in _ _ (q, k) HR ltac:(rewrite HL; set_solver)) as Hpk. simpl in Hpk.
  pose proof (addrs_nodup _ _ HR) as HN. pose proof seg_L1 as Hseg.
  assert (q ∈ addrs L) as HqL by (unfold addrs; rewrite fmap_app, app_comm_cons; apply elem_of_app; by left).
  assert (q ∉ addrs A) as HpA.
  { unfold addrs in *. rewrite HL, !fmap_app, <- app_assoc in HN. rewrite app_comm_cons in HN.
    apply NoDup_app in HN as (_ & HN & _). intros Hq. apply (HN _ Hq). cbn. by left. }
  rewrite HL in Hseg. apply seg_app in Hseg as [HsA HsP]. simpl in HsP. destruct HsP as (HpA2 & HgP & _).
  split; cbn.
  - apply tail_app. split; [|apply tail_cons; split; [|split; [apply put_eq|]]].
    + eapply seg_agree; [exact HsA| |]; intros z Hz; apply put_ne; intros ->; apply HpA; [by apply elem_of_cons|by right].
    + rewrite put_ne; [done|]. intros Heq. apply HpA. rewrite <- Heq. apply elem_of_cons. exact (last_addr_in base A).
    + eapply tail_move; [exact (j_tail _ _ _ HJ)|apply put_eq| |]; intros z Hz; by apply put_ne, HRq.
  - pose proof (rep_sorted _ _ HR) as HS. unfold circle in *. rewrite HL, <- app_assoc, app_comm_cons in HS.
    rewrite app_comm_cons. pose proof HS as HS'. apply StronglySorted_app in HS' as (Hlt & _ & _). apply gap_mid.
    + apply rest_sorted. by apply sorted_drop_mid in HS.
    + intros x Hx. exact (Hlt x (q, k) Hx ltac:(apply elem_of_cons; by left)).
    + intros y Hy. pose proof (j_gap _ _ _ HJ y Hy). unfold gap. simpl. lia.
  - pose proof sizes_L1 as HF. rewrite HL in HF. apply Forall_app in HF as [HF _]. apply Forall_app. split; [exact HF|].
    apply Forall_cons. split; [simpl; lia|exact sizes_R].
  - rewrite Hpq. unfold addrs. rewrite fmap_app. simpl. set_solver.
  - done.
  - intros z. rewrite HL, !cov_app, !cov_cons. pose proof (j_cov _ _ _ HJ z) as Hc. pose proof (cov_nil z). simpl.
    assert (q ≤ z < q + 8 * (k + n') ↔ q ≤ z < q + 8 * k ∨ b ≤ z < b + 8 * n') as -> by lia. tauto.
  - intros z Hz Hn2. rewrite put_ne; [by apply Hsp|]. by intros ->.
  - intros z Hz Hn2. rewrite put_ne; [by apply Hss|]. intros ->. destruct Hn2 as [Hn2|Hn2]; [done|lia].
  - assert (length L1 = Datatypes.S (length A)) as Hlen by (rewrite HL, length_app; simpl; lia).
    rewrite !length_app. simpl. pose proof len_R. lia.
Qed.
Lemma join_left_ok :
  ∃ s2 L', join_left b p (u_size s1 p) s1 = Ok tt s2 ∧ freed (mkU (u_ptr s2) (u_size s2) p (u_env s2)) L'.
Proof.
  pose proof place_p as Hp. pose proof (rep_range _ _ HR) as Hrg. destruct (j_same _ _ _ HJ) as (Hsp & Hss & _ & He).
  pose proof (j_brk _ _ _ HJ) as Hjb. pose proof (j_ge _ _ _ HJ) as Hge.
  assert (u_size s1 p = u_size s p) as -> by (apply Hss; lia).
  unfold join_left, hdr. destruct (snoc_cases L1) as [HL|(A & [q k] & HL)].
  - assert (p = base) as Hpb by (by rewrite HL). rewrite Hpb, (rep_base _ _ HR), u32_small by lia.
    rewrite (proj2 (Z.eqb_neq (base + 8 * 0) b)) by lia. eexists _, _. split; [reflexivity|]. cbn. rewrite <- Hpb.
    apply left_apart. intros x Hx. rewrite HL in Hx. apply elem_of_cons in Hx as [->|Hx]; [|by apply elem_of_nil in Hx].
    unfold gap. simpl. lia.
  - assert (p = q) as Hpq by (rewrite HL; apply last_addr_snoc). pose proof (H1 (q, k) ltac:(rewrite HL; set_solver)) as Hqk. simpl in Hqk.
    pose proof (rep_sizes_in _ _ (q, k) HR ltac:(rewrite HL; set_solver)) as Hqs. simpl in Hqs.
    pose proof (rep_tail _ _ HR) as Ht. apply tail_app in Ht as [Ht _]. rewrite HL in Ht. apply seg_app in Ht as [_ (_ & Hgq & _)].
    rewrite Hpq in *. rewrite Hgq, u32_small by lia. destruct (Z.eqb_spec (q + 8 * k) b) as [Hj|Hj].
    + eexists _, _. unfold mbind, M_bind, size_of, set_size, ptr_of, set_ptr, gets, modify. cbn. split; [reflexivity|]. cbn.
      rewrite (j_size _ _ _ HJ), u32_small by lia. by apply left_join.
    + eexists _, _. split; [reflexivity|]. cbn. rewrite <- Hpq. apply left_apart. intros x Hx.
      rewrite HL in Hx. unfold gap. simpl. apply elem_of_cons in Hx as [->|[Hx|Hx]%elem_of_app]; [simpl; lia| |].
      * pose proof (rep_sorted _ _ HR) as HS. unfold circle in HS. rewrite HL, <- app_assoc, app_comm_cons in HS.
        apply StronglySorted_app in HS as (HS & _ & _). specialize (HS x (q, k) ltac:(set_solver) ltac:(set_solver)).
        unfold gap in HS. simpl in HS. lia.
      * apply list_elem_of_singleton in Hx as ->. simpl. lia.
Qed.
End left.
Lemma free_ok fuel :
  (length (circle L) ≤ fuel)%nat → ∃ s' L', free fuel (b + 8) s = Ok tt s' ∧ u_freep s' = p ∧ rep s' L' ∧ freed s' L'.
Proof.
  intros Hf. pose proof (rep_range _ _ HR) as Hrg. destruct join_right_ok as (s1 & n' & R & Hj & HJ).
  destruct (join_left_ok _ _ _ HJ) as (s2 & L' & Hl & HF).
  exists (mkU (u_ptr s2) (u_size s2) p (u_env s2)), L'. split; [|split; [done|split; [|done]]].
  - unfold free. rewrite u32_small by lia. replace (b + 8 - 8) with b by lia. unfold mbind at 1, M_bind at 1, get.
    rewrite (bind_run _ _ _ _ _ (free_find_ok fuel Hf)), (bind_run _ _ _ _ _ (ptr_of_run s p)), (bind_run _ _ _ _ _ (size_of_run s b)).
    rewrite place_ptr, Hbs. fold (join_right b (next_addr base L2) n). rewrite (bind_run _ _ _ _ _ Hj).
    rewrite (bind_run _ _ _ _ _ (size_of_run s1 p)). fold (join_left b p (u_size s1 p)).
    by rewrite (bind_run _ _ _ _ _ Hl).
  - destruct HF. split; try done.
    + rewrite f_size0; [exact (rep_base _ _ HR)|lia|by right].
    + by rewrite f_env0.
    + by rewrite f_env0.
Qed.
End place.

(** ** free *)
Definition disjoint_from L (b n : Z) : Prop := ∀ x, x ∈ L → x.1 + 8 * x.2 ≤ b ∨ b + 8 * n ≤ x.1.
Lemma free_spec s L b n fuel :
  rep s L → disjoint_from L b n → 1 ≤ n → base + 8 ≤ b → b + 8 * n ≤ brk (u_env s) → u_size s b = n →
  (length L < fuel)%nat →
  ∃ s' L', free fuel (b + 8) s = Ok tt s' ∧ rep s' L' ∧ u_env s' = u_env s ∧
    (∀ z, cov L' z ↔ cov L z ∨ b ≤ z < b + 8 * n) ∧
    (∀ z, z ≠ b → z ∉ addrs L → u_ptr s' z = u_ptr s z ∧ u_size s' z = u_size s z) ∧
    (length L' ≤ Datatypes.S (length L))%nat.
Proof.
  intros HR Hd Hn Hb Hbrk Hs Hf. pose proof (rep_sorted _ _ HR) as HS. apply StronglySorted_inv in HS as [HS _].
  destruct (split_blocks L b n HS) as (L1 & L2 & -> & H1 & H2); [|done|exact Hd|].
  { eapply Forall_impl; [exact (rep_sizes _ _ HR)|]. intros x Hx. simpl in Hx. tauto. }
  destruct (free_ok s L1 L2 b n HR Hn Hb H1 H2 Hbrk Hs fuel) as (s' & L' & Hrun & _ & HR' & HF); [simpl; lia|].
  exists s', L'. destruct HF. split; [done|]. split; [done|]. split; [done|]. split; [done|]. split; [|done].
  intros z Hz Hz2. split; [by apply f_ptr0|apply f_size0; [done|by left]].
Qed.
End heap.
