(* ===== verification/Ualloc.v ===== *)
(** * malloc: taking a block from the circle, and growing it

    malloc walks once around the circle of free blocks; when no block is large
    enough it asks sbrk for memory, frees it into the circle and walks again. *)

From S2P Require Import Prelude Umalloc Uheap.

Section take.
Context {E : Type} `{!Sbrk E} (base nu : Z) (Hnu : 1 ≤ nu).
Implicit Types (s : umem E) (L A B : list blk) (x y : blk).

(** A block of [nu] units at [a] moves from the free blocks [L] to the caller. *)
Record granted s L (a : Z) s' L' : Prop := {
  g_rep : rep base s' L';
  g_env : u_env s' = u_env s;
  g_hdr : u_size s' a = nu;
  g_low : base + 8 ≤ a;
  g_high : a + 8 * nu ≤ brk (u_env s);
  g_cov : ∀ z, cov L z ↔ cov L' z ∨ a ≤ z < a + 8 * nu;
  g_disj : disjoint_from L' a nu;
  g_frame : ∀ z, z ≠ a → z ∉ addrs base L → u_ptr s' z = u_ptr s z ∧ u_size s' z = u_size s z;
  g_len : (length L' ≤ length L)%nat }.

Definition take (prevp p psize : Z) : M (umem E) (option Z) :=
  if psize =? nu then
    nxt ← ptr_of p;
    set_ptr prevp nxt ;;
    set_freep prevp ;;
    mret (Some (hdr p 1))
  else
    set_size p (psize - nu) ;;
    let q := hdr p (psize - nu) in
    set_size q nu ;;
    set_freep prevp ;;
    mret (Some (hdr q 1)).

(** The block at [p] of the circle, with the ones below and above it. *)
Section at_block.
Context s A B (p m : Z) (HR : rep base s (A ++ (p, m) :: B)) (Hm : nu ≤ m).
Local Abbreviation prevp := (last_addr base A).
Local Abbreviation L := (A ++ (p, m) :: B).

Lemma at_bounds : 1 ≤ m ∧ base + 8 ≤ p ∧ p + 8 * m ≤ brk (u_env s).
Proof. apply (rep_sizes_in base s L (p, m) HR). set_solver. Qed.
Lemma at_below x : x ∈ circle base A → x.1 < p ∧ x.1 + 8 * x.2 < p.
Proof.
  intros Hx. pose proof (rep_sorted _ _ _ HR) as HS. unfold circle in *. rewrite app_comm_cons in HS.
  apply StronglySorted_app in HS as (HS & _ & _). specialize (HS x (p, m) Hx ltac:(set_solver)). unfold gap in HS. simpl in HS.
  apply elem_of_cons in Hx as [->|Hx]; [simpl in *; lia|].
  pose proof (rep_sizes_in base s L x HR ltac:(set_solver)). lia.
Qed.
Lemma at_above y : y ∈ B → p + 8 * m < y.1.
Proof.
  intros Hy. pose proof (rep_sorted _ _ _ HR) as HS. unfold circle in *. rewrite app_comm_cons in HS.
  apply StronglySorted_app in HS as (_ & _ & HS). apply StronglySorted_inv in HS as [_ HS]. rewrite Forall_forall in HS.
  exact (HS y Hy).
Qed.
Lemma at_below_addr z : z ∈ addrs base A → z < p.
Proof. rewrite addrs_circle. intros (x & -> & Hx)%list_elem_of_fmap. by apply at_below. Qed.
Lemma at_above_addr z : z ∈ B.*1 → p + 8 * m < z.
Proof. intros (x & -> & Hx)%list_elem_of_fmap. by apply at_above. Qed.
Lemma at_prev : prevp ∈ addrs base A.
Proof. apply elem_of_cons. exact (last_addr_in base A). Qed.
Lemma at_sizes : Forall (λ x, 1 ≤ x.2 ∧ base + 8 ≤ x.1 ∧ x.1 + 8 * x.2 ≤ brk (u_env s)) (A ++ B).
Proof. pose proof (rep_sizes _ _ _ HR) as HF. rewrite Forall_app, Forall_cons in HF. apply Forall_app. tauto. Qed.
Lemma at_disjoint a n : p ≤ a → a + 8 * n ≤ p + 8 * m → disjoint_from (A ++ B) a n.
Proof.
  intros Ha Hn x [Hx|Hx]%elem_of_app.
  - left. pose proof (at_below x ltac:(apply elem_of_cons; by right)). lia.
  - right. pose proof (at_above x Hx). lia.
Qed.
Lemma in_L_A z : z ∈ addrs base A → z ∈ addrs base L.
Proof. unfold addrs. rewrite fmap_app, app_comm_cons. intros H. apply elem_of_app. by left. Qed.
Lemma in_L_p : p ∈ addrs base L.
Proof. unfold addrs. rewrite fmap_app, app_comm_cons. apply elem_of_app. right. cbn. by left. Qed.

Lemma take_exact :
  m = nu → granted s L p (mkU (put prevp (u_ptr s p) (u_ptr s)) (u_size s) prevp (u_env s)) (A ++ B).
Proof.
  intros Hmn. pose proof at_bounds as Hb. pose proof (rep_tail _ _ _ HR) as Ht. apply tail_app in Ht as [HsA Ht].
  apply tail_cons in Ht as (Hp & Hgp & Ht). pose proof (addrs_nodup _ _ _ HR) as HN.
  assert (prevp < p) as Hprev by (apply at_below_addr, at_prev).
  split; cbn; [|done|by rewrite Hgp|lia|lia| | | |rewrite !length_app; simpl; lia].
  - split; cbn.
    + apply tail_app. split.
      * apply seg_put; [done|]. unfold addrs in HN. rewrite fmap_app, app_comm_cons in HN. by apply NoDup_app in HN as [HN _].
      * eapply tail_move; [exact Ht|apply put_eq| |done]. intros z Hz. apply put_ne. pose proof (at_above_addr z Hz). lia.
    + exact (rep_base _ _ _ HR).
    + pose proof (rep_sorted _ _ _ HR) as HS. unfold circle in *. rewrite app_comm_cons in *. by apply (sorted_drop_mid _ [(p, m)]).
    + exact at_sizes.
    + unfold addrs. rewrite fmap_app, app_comm_cons. apply elem_of_app. left. exact at_prev.
    + exact (rep_range _ _ _ HR).
  - intros z. rewrite !cov_app, cov_cons. simpl. rewrite <- Hmn. tauto.
  - apply at_disjoint; lia.
  - intros z _ Hz. split; [|done]. apply put_ne. intros ->. apply Hz, in_L_A, at_prev.
Qed.
Lemma take_split :
  nu < m → granted s L (p + 8 * (m - nu))
    (mkU (u_ptr s) (put (p + 8 * (m - nu)) nu (put p (m - nu) (u_size s))) prevp (u_env s)) (A ++ (p, m - nu) :: B).
Proof.
  intros Hlt. pose proof at_bounds as Hb. pose proof (rep_tail _ _ _ HR) as Ht. apply tail_app in Ht as [HsA Ht].
  apply tail_cons in Ht as (Hp & Hgp & Ht).
  set (g := put (p + 8 * (m - nu)) nu (put p (m - nu) (u_size s))).
  assert (∀ z, z < p ∨ p + 8 * m < z → g z = u_size s z) as Hg by (intros z Hz; unfold g; rewrite !put_ne; [done|lia|lia]).
  split; cbn; [|done|apply put_eq|lia|lia| | | |rewrite !length_app; simpl; lia].
  - split; cbn.
    + apply tail_app. split; [|apply tail_cons; split; [done|split]].
      * eapply seg_agree; [exact HsA|done|]. intros z Hz. apply Hg. left. apply at_below_addr. by right.
      * unfold g. rewrite put_ne by lia. apply put_eq.
      * eapply tail_move; [exact Ht|done|done|]. intros z Hz. apply Hg. right. by apply at_above_addr.
    + rewrite Hg by (left; lia). exact (rep_base _ _ _ HR).
    + pose proof (rep_sorted _ _ _ HR) as HS. unfold circle in *. rewrite app_comm_cons in *. apply gap_mid.
      * by apply (sorted_drop_mid _ [(p, m)]).
      * intros x Hx. pose proof (at_below x Hx). unfold gap. simpl. lia.
      * intros y Hy. pose proof (at_above y Hy). unfold gap. simpl. lia.
    + pose proof at_sizes as HF. rewrite Forall_app in HF. rewrite Forall_app, Forall_cons. simpl. split; [tauto|]. split; [lia|tauto].
    + unfold addrs. rewrite fmap_app, app_comm_cons. apply elem_of_app. left. exact at_prev.
    + exact (rep_range _ _ _ HR).
  - intros z. rewrite !cov_app, !cov_cons. simpl.
    assert (p ≤ z < p + 8 * m ↔ p ≤ z < p + 8 * (m - nu) ∨ p + 8 * (m - nu) ≤ z < p + 8 * (m - nu) + 8 * nu) as -> by lia. tauto.
  - intros x [Hx|[->|Hx]%elem_of_cons]%elem_of_app; [| |].
    + apply at_disjoint; [lia|lia|set_solver].
    + left. simpl. lia.
    + apply at_disjoint; [lia|lia|set_solver].
  - intros z Hz Hz2. split; [done|]. unfold g. rewrite !put_ne; [done| |done]. intros ->. apply Hz2, in_L_p.
Qed.
Lemma take_ok :
  ∃ a s' L', take prevp p m s = Ok (Some (a + 8)) s' ∧ granted s L a s' L'.
Proof.
  pose proof at_bounds as Hb. pose proof (rep_range _ _ _ HR) as Hrg. unfold take.
  destruct (Z.eqb_spec m nu) as [He|He].
  - eexists p, _, _. split; [|by apply take_exact].
    unfold mbind, M_bind, ptr_of, set_ptr, set_freep, gets, modify, hdr. cbn. by rewrite u32_small by lia.
  - eexists _, _, _. split; [|apply take_split; lia].
    unfold mbind, M_bind, set_size, set_freep, modify, hdr. cbn. by rewrite !u32_small by (rewrite ?u32_small; lia).
Qed.
End at_block.

(** ** The walk *)
Lemma size_idx s L i x : rep base s L → circle base L !! i = Some x → u_size s x.1 = x.2.
Proof.
  intros HR Hi. destruct i as [|i]; [injection Hi as <-; exact (rep_base _ _ _ HR)|]. simpl in Hi.
  apply list_elem_of_lookup_2, list_elem_of_split in Hi as (A & B & ->). pose proof (rep_tail _ _ _ HR) as Ht.
  destruct x as [b n]. apply tail_app in Ht as [_ Ht]. by apply tail_cons in Ht as (_ & ? & _).
Qed.
Lemma idx_unique s L i j x y :
  rep base s L → circle base L !! i = Some x → circle base L !! j = Some y → x.1 = y.1 → i = j.
Proof.
  intros HR Hi Hj He. destruct (Nat.lt_trichotomy i j) as [Hl|[?|Hl]]; [|done|].
  - pose proof (circle_lt _ _ _ _ _ _ _ HR Hi Hj Hl). lia.
  - pose proof (circle_lt _ _ _ _ _ _ _ HR Hj Hi Hl). lia.
Qed.
Lemma take_idx s L j i pv x :
  rep base s L → circle base L !! j = Some pv → (Datatypes.S j mod length (circle base L))%nat = i →
  circle base L !! i = Some x → nu ≤ x.2 →
  ∃ a s' L', take pv.1 x.1 x.2 s = Ok (Some (a + 8)) s' ∧ granted s L a s' L'.
Proof.
  intros HR Hj Hji Hi Hx. destruct i as [|i]; [injection Hi as <-; simpl in Hx; lia|].
  pose proof (lookup_lt_Some _ _ _ Hj) as Hlt.
  assert (j = i) as ->.
  { destruct (decide (Datatypes.S j < length (circle base L))%nat); [rewrite Nat.mod_small in Hji by done; lia|].
    replace (Datatypes.S j) with (length (circle base L)) in Hji by lia. by rewrite Nat.Div0.mod_same in Hji. }
  simpl in Hi. apply list_elem_of_split_length in Hi as (A & B & -> & HA). destruct x as [p m].
  rewrite (lookup_last base 0 A ((p, m) :: B) i pv ltac:(lia) Hj). by apply take_ok.
Qed.
End take.

(** ** malloc's loop *)
Lemma mod_shift i k n : (i < n)%nat → (Datatypes.S k < n)%nat → ((i + Datatypes.S k) mod n)%nat = i → False.
Proof.
  intros Hi Hk. destruct (decide (i + Datatypes.S k < n)%nat); [rewrite Nat.mod_small by done; lia|].
  replace (i + Datatypes.S k)%nat with (i + Datatypes.S k - n + 1 * n)%nat by lia. rewrite Nat.Div0.mod_add, Nat.mod_small; lia.
Qed.
Lemma round_reach n i j : (i < n)%nat → (j < n)%nat → ∃ d, (d < n)%nat ∧ ((i + d) mod n)%nat = j.
Proof.
  intros Hi Hj. exists ((j + n - i) mod n)%nat. split; [apply Nat.mod_upper_bound; lia|].
  rewrite Nat.Div0.add_mod_idemp_r. replace (i + (j + n - i))%nat with (j + 1 * n)%nat by lia.
  by rewrite Nat.Div0.mod_add, Nat.mod_small.
Qed.
Section walk.
Context {E : Type} `{!Sbrk E} (base nu : Z) (Hnu : 1 ≤ nu < 2 ^ 28).
Implicit Types (s : umem E) (L : list blk) (x y : blk).

Lemma malloc_loop_S fuel prevp p s :
  malloc_loop (Datatypes.S fuel) nu prevp p s =
  (if nu <=? u_size s p then take nu prevp p (u_size s p) s
   else if p =? u_freep s then
     (r ← morecore (Datatypes.S fuel) nu;
      match r with
      | None => mret None
      | Some p => nxt ← ptr_of p; malloc_loop fuel nu p nxt
      end) s
   else malloc_loop fuel nu p (u_ptr s p) s).
Proof.
  cbn [malloc_loop]. rewrite (bind_run _ _ _ _ _ (size_of_run s p)). unfold take.
  destruct (nu <=? u_size s p); [done|]. unfold mbind at 1, M_bind at 1, get.
  destruct (p =? u_freep s); [done|]. by rewrite (bind_run _ _ _ _ _ (ptr_of_run s p)).
Qed.

(** From position [i], [k] steps before [freep]: a block is granted on the way, or
    none is large enough. *)
Lemma malloc_walk s L fi fb :
  rep base s L → circle base L !! fi = Some fb → u_freep s = fb.1 → ∀ k fuel j i pv x,
  circle base L !! j = Some pv → (Datatypes.S j mod length (circle base L))%nat = i → circle base L !! i = Some x →
  ((i + k) mod length (circle base L))%nat = fi → (k < fuel)%nat → (k < length (circle base L))%nat →
  (∃ a s' L', malloc_loop fuel nu pv.1 x.1 s = Ok (Some (a + 8)) s' ∧ granted base nu s L a s' L') ∨
  ((∀ d y, (d ≤ k)%nat → circle base L !! ((i + d) mod length (circle base L))%nat = Some y → y.2 < nu) ∧
   ∃ pv', malloc_loop fuel nu pv.1 x.1 s = malloc_loop (fuel - k) nu pv' (u_freep s) s).
Proof.
  intros HR Hfi Hfp k. induction k as [|k IH]; intros [|fuel] j i pv x Hj Hji Hi Hk Hf Hc; [lia| |lia|].
  - pose proof (lookup_lt_Some _ _ _ Hi) as Hlt. rewrite Nat.add_0_r, Nat.mod_small in Hk by done. subst fi.
    rewrite Hi in Hfi. injection Hfi as ->.
    destruct (decide (nu ≤ fb.2)) as [Hle|Hgt].
    + left. rewrite malloc_loop_S, (size_idx _ _ _ _ _ HR Hi), (proj2 (Z.leb_le _ _) Hle).
      eapply take_idx; [lia|done|exact Hj|exact Hji|done|done].
    + right. split; [|exists pv.1; by rewrite Hfp, Nat.sub_0_r].
      intros d y Hd. replace d with 0%nat by lia. rewrite Nat.add_0_r, Nat.mod_small by done. rewrite Hi. intros [= <-]. lia.
  - pose proof (lookup_lt_Some _ _ _ Hi) as Hlt. destruct (decide (nu ≤ x.2)) as [Hle|Hgt].
    + left. rewrite malloc_loop_S, (size_idx _ _ _ _ _ HR Hi), (proj2 (Z.leb_le _ _) Hle).
      eapply take_idx; [lia|done|exact Hj|exact Hji|done|done].
    + destruct (decide (x.1 = u_freep s)) as [He|He].
      * pose proof (idx_unique _ _ _ _ _ _ _ HR Hi Hfi ltac:(congruence)) as ->.
        exfalso. exact (mod_shift _ _ _ Hlt Hc Hk).
      * rewrite malloc_loop_S, (size_idx _ _ _ _ _ HR Hi), (proj2 (Z.leb_gt _ _)), (proj2 (Z.eqb_neq _ _) He) by lia.
        destruct (next_idx _ _ _ _ _ HR Hi) as (y & Hy & ->).
        destruct (IH fuel i _ x y Hi eq_refl Hy) as [Hl|[Hr [pv' Hpv]]]; [rewrite Nat.Div0.add_mod_idemp_l, <- Hk; f_equal; lia|lia|lia|by left|].
        right. split.
        -- intros [|d] z Hd; [rewrite Nat.add_0_r, Nat.mod_small by done; rewrite Hi; intros [= <-]; lia|].
           intros Hz. apply (Hr d z); [lia|]. rewrite Nat.Div0.add_mod_idemp_l. rewrite <- Hz. do 2 f_equal. lia.
        -- exists pv'. by rewrite Hpv.
Qed.
(** A whole round from the block after [freep]. *)
Lemma malloc_round s L fuel :
  rep base s L → (length L < fuel)%nat →
  (∃ a s' L', malloc_loop fuel nu (u_freep s) (u_ptr s (u_freep s)) s = Ok (Some (a + 8)) s' ∧ granted base nu s L a s' L') ∨
  ((∀ y, y ∈ L → y.2 < nu) ∧ ∃ pv', malloc_loop fuel nu (u_freep s) (u_ptr s (u_freep s)) s =
    malloc_loop (fuel - length L) nu pv' (u_freep s) s).
Proof.
  intros HR Hf. pose proof (rep_freep _ _ _ HR) as Hp. rewrite addrs_circle in Hp.
  apply list_elem_of_lookup in Hp as [fi Hi]. apply list_lookup_fmap_Some in Hi as (fb & Hfb & Hi).
  pose proof (lookup_lt_Some _ _ _ Hi) as Hlt. destruct (next_idx _ _ _ _ _ HR Hi) as (y & Hy & Hpy).
  assert (length (circle base L) = Datatypes.S (length L)) as Hlen by done.
  destruct (malloc_walk s L fi fb HR Hi Hfb (length L) fuel fi _ fb y Hi eq_refl Hy) as [Hl|[Hr Hpv]]; [|lia|lia| |].
  - rewrite Nat.Div0.add_mod_idemp_l, Hlen.
    replace (Datatypes.S fi + length L)%nat with (fi + 1 * Datatypes.S (length L))%nat by lia.
    by rewrite Nat.Div0.mod_add, Nat.mod_small by lia.
  - left. by rewrite Hfb, Hpy.
  - right. rewrite Hfb, Hpy. split; [|by rewrite Hfb in Hpv].
    intros z [i Hz]%list_elem_of_lookup. pose proof (lookup_lt_Some _ _ _ Hz) as Hzl.
    destruct (round_reach (Datatypes.S (length L)) (Datatypes.S fi mod Datatypes.S (length L)) (Datatypes.S i)) as (d & Hd & Hdi);
      [apply Nat.mod_upper_bound; lia|lia|].
    apply (Hr d z); [lia|]. rewrite Hlen, Hdi. done.
Qed.

(** ** Growing the heap *)
Definition kept s L s' : Prop :=
  ∀ z, z < brk (u_env s) → z ≠ base → ¬ cov L z → u_ptr s' z = u_ptr s z ∧ u_size s' z = u_size s z.
Lemma addr_cov s L z : rep base s L → z ∈ addrs base L → z = base ∨ cov L z.
Proof.
  intros HR [->|(y & -> & Hy)%list_elem_of_fmap]%elem_of_cons; [by left|]. right. exists y. split; [done|].
  pose proof (rep_sizes_in _ _ _ _ HR Hy). lia.
Qed.
Lemma cov_below s L z : rep base s L → cov L z → base + 8 ≤ z < brk (u_env s).
Proof. intros HR (y & Hy & Hz). pose proof (rep_sizes_in _ _ _ _ HR Hy). lia. Qed.
Lemma rep_grow s L e v :
  rep base s L → brk (u_env s) ≤ brk e ≤ 2 ^ 31 →
  rep base (mkU (u_ptr s) (put (brk (u_env s)) v (u_size s)) (u_freep s) e) L.
Proof.
  intros HR He. pose proof (rep_range _ _ _ HR) as Hrg. pose proof (rep_tail _ _ _ HR) as [Hs Hl]. destruct HR. split; cbn; try done.
  - split; [|done]. apply seg_putg; [done|]. intros (y & Hy1 & Hy)%list_elem_of_fmap.
    rewrite Forall_forall in rep_sizes. pose proof (rep_sizes y Hy) as Hy2. simpl in Hy2. lia.
  - rewrite put_ne; [done|lia].
  - eapply Forall_impl; [exact rep_sizes|]. intros x Hx. simpl in *. lia.
  - lia.
Qed.
Lemma rep_env s L e :
  rep base s L → brk e = brk (u_env s) → rep base (mkU (u_ptr s) (u_size s) (u_freep s) e) L.
Proof. intros HR He. destruct HR. split; cbn; try done; by rewrite He. Qed.

Lemma morecore_eq s fuel c e :
  sbrk (i32 ((if nu <? 4096 then 4096 else nu) * 8)) (u_env s) = (c, e) →
  morecore fuel nu s =
  if c =? 2 ^ 32 - 1 then Ok None (mkU (u_ptr s) (u_size s) (u_freep s) e)
  else (free fuel (hdr c 1) ;; s ← get; mret (Some (u_freep s)))
    (mkU (u_ptr s) (put c (if nu <? 4096 then 4096 else nu) (u_size s)) (u_freep s) e).
Proof. intros H. unfold morecore, mbind, M_bind, get, modify. rewrite H. by destruct (c =? 2 ^ 32 - 1). Qed.
Lemma morecore_spec s L fuel :
  rep base s L → (length L < fuel)%nat →
  (∃ e, morecore fuel nu s = Ok None (mkU (u_ptr s) (u_size s) (u_freep s) e) ∧ brk e = brk (u_env s)) ∨
  (∃ s' L' n, morecore fuel nu s = Ok (Some (u_freep s')) s' ∧ rep base s' L' ∧ nu ≤ n ∧
    brk (u_env s') = brk (u_env s) + 8 * n ∧
    (∀ z, cov L' z ↔ cov L z ∨ brk (u_env s) ≤ z < brk (u_env s')) ∧ kept s L s' ∧
    (length L' ≤ Datatypes.S (length L))%nat).
Proof.
  intros HR Hf. pose proof (rep_range _ _ _ HR) as Hrg.
  destruct (sbrk (i32 ((if nu <? 4096 then 4096 else nu) * 8)) (u_env s)) as [c e] eqn:Esb.
  rewrite (morecore_eq _ fuel _ _ Esb). revert Esb. set (n := if nu <? 4096 then 4096 else nu). intros Esb.
  assert (nu ≤ n ∧ 1 ≤ n < 2 ^ 28) as [Hn Hn2] by (unfold n; destruct (Z.ltb_spec nu 4096); lia).
  rewrite i32_small in Esb by lia. destruct (Z.eqb_spec c (2 ^ 32 - 1)) as [Hc|Hc].
  - left. exists e. split; [done|]. pose proof (sbrk_fail (n * 8) (u_env s)) as Hsf. rewrite Esb in Hsf. apply Hsf; [lia|done].
  - right. pose proof (sbrk_spec (n * 8) (u_env s)) as Hsp. rewrite Esb in Hsp. simpl in Hsp.
    destruct (Hsp ltac:(lia) Hc) as (-> & He & Hmax). clear Hsp.
    pose proof (rep_grow s L e n HR ltac:(lia)) as HR'.
    destruct (free_spec base _ L (brk (u_env s)) n fuel HR') as (s' & L' & Hrun & Hrep & Henv & Hcov & Hfr & Hlen).
    + intros x Hx. left. by pose proof (rep_sizes_in _ _ _ _ HR Hx) as (_ & _ & ?).
    + lia.
    + lia.
    + cbn. lia.
    + cbn. apply put_eq.
    + done.
    + exists s', L', n. unfold hdr. rewrite u32_small by lia. rewrite (bind_run _ _ _ _ _ Hrun). cbn in Henv. rewrite Henv.
      split; [done|]. split; [done|]. split; [done|]. split; [lia|]. split; [intros z; rewrite Hcov; rewrite He; do 2 f_equiv; lia|].
      split; [|done]. intros z Hz Hzb Hzc. destruct (Hfr z ltac:(lia)) as [-> ->]; [|cbn; split; [done|apply put_ne; lia]].
      intros [?|?]%(addr_cov _ _ _ HR'); done.
Qed.
(** A covered range lies in one block. *)
Lemma cov_block L b n :
  StronglySorted gap L → 1 ≤ n → (∀ z, b ≤ z < b + 8 * n → cov L z) → ∃ x, x ∈ L ∧ x.1 ≤ b ∧ b + 8 * n ≤ x.1 + 8 * x.2.
Proof.
  intros HS Hn Hc. destruct (Hc b ltac:(lia)) as (x & Hx & Hxb). exists x. split; [done|]. split; [lia|].
  destruct (decide (b + 8 * n ≤ x.1 + 8 * x.2)) as [|Hlt]; [done|]. exfalso.
  destruct (Hc (x.1 + 8 * x.2) ltac:(lia)) as (y & Hy & Hyb).
  apply list_elem_of_lookup in Hx as [i Hi], Hy as [j Hj].
  destruct (Nat.lt_trichotomy i j) as [Hl|[He|Hl]].
  - pose proof (sorted_lookup _ _ _ _ _ HS Hi Hj Hl) as Hg. unfold gap in Hg. lia.
  - subst j. rewrite Hi in Hj. injection Hj as <-. lia.
  - pose proof (sorted_lookup _ _ _ _ _ HS Hj Hi Hl) as Hg. unfold gap in Hg. lia.
Qed.
End walk.
