(* ===== verification/Umprops.v ===== *)
(** * What a program can rely on of malloc and free *)

From S2P Require Import Prelude Umalloc Uheap Ualloc.

(** Header units for a request of [nbytes]. *)
Definition units (nbytes : Z) : Z := (nbytes + 7) / 8 + 1.

Section spec.
Context {E : Type} `{!Sbrk E} (base : Z).
Implicit Types (s : umem E) (L : list blk).

Lemma granted_kept nu s L a s' L' :
  1 ≤ nu → rep base s L → granted base nu s L a s' L' → kept base s L s'.
Proof.
  intros Hnu HR HG z Hz Hb Hc. apply (g_frame _ _ _ _ _ _ _ HG).
  - intros ->. apply Hc, (g_cov _ _ _ _ _ _ _ HG). right. lia.
  - intros Hin. destruct (addr_cov _ _ _ _ HR Hin); done.
Qed.
Lemma kept_grow s L s1 L1 s2 :
  kept base s L s1 → brk (u_env s) ≤ brk (u_env s1) → (∀ z, cov L1 z → cov L z ∨ brk (u_env s) ≤ z) →
  kept base s1 L1 s2 → kept base s L s2.
Proof.
  intros H1 Hb Hc H2 z Hz Hzb Hzc. destruct (H1 z Hz Hzb Hzc) as [Ep Es].
  destruct (H2 z) as [-> ->]; [lia|done|intros H%Hc; destruct H; [done|lia]|done].
Qed.

(** What a call of malloc for [nu] units gives. *)
Definition malloc_post nu s L (r : option Z) s' L' : Prop :=
  match r with
  | None => brk (u_env s') = brk (u_env s) ∧ ∀ z, cov L' z ↔ cov L z
  | Some q => ∃ a, q = a + 8 ∧ u_size s' a = nu ∧ base + 8 ≤ a ∧ a + 8 * nu ≤ brk (u_env s') ∧
      (∀ z, (cov L' z ∨ a ≤ z < a + 8 * nu) ↔ (cov L z ∨ brk (u_env s) ≤ z < brk (u_env s'))) ∧
      disjoint_from L' a nu
  end.
Lemma granted_post nu s0 L0 s L a s' L' :
  granted base nu s L a s' L' → (∀ z, cov L z ↔ cov L0 z ∨ brk (u_env s0) ≤ z < brk (u_env s)) →
  malloc_post nu s0 L0 (Some (a + 8)) s' L'.
Proof.
  intros HG Hc. pose proof (g_env _ _ _ _ _ _ _ HG) as He. exists a. rewrite He. split; [done|]. split; [exact (g_hdr _ _ _ _ _ _ _ HG)|].
  split; [exact (g_low _ _ _ _ _ _ _ HG)|]. split; [exact (g_high _ _ _ _ _ _ _ HG)|]. split; [|exact (g_disj _ _ _ _ _ _ _ HG)].
  intros z. rewrite <- Hc. symmetry. apply (g_cov _ _ _ _ _ _ _ HG).
Qed.
Lemma malloc_loop_spec nu s L fuel :
  1 ≤ nu < 2 ^ 28 → rep base s L → (2 * length L + 4 ≤ fuel)%nat →
  ∃ r s' L', malloc_loop fuel nu (u_freep s) (u_ptr s (u_freep s)) s = Ok r s' ∧ rep base s' L' ∧
    brk (u_env s) ≤ brk (u_env s') ∧ kept base s L s' ∧ malloc_post nu s L r s' L'.
Proof.
  intros Hnu HR Hf. destruct (malloc_round base nu Hnu s L fuel HR ltac:(lia)) as [(a & s' & L' & Hrun & HG)|[Hsmall (pv & ->)]].
  - exists (Some (a + 8)), s', L'. split; [done|]. split; [exact (g_rep _ _ _ _ _ _ _ HG)|]. rewrite (g_env _ _ _ _ _ _ _ HG).
    split; [lia|]. split; [eapply granted_kept; [|done|done]; lia|]. eapply granted_post; [done|]. intros z. split; [tauto|].
    intros [?|?]; [done|lia].
  - assert (∃ k, (fuel - length L = Datatypes.S k ∧ length L + 2 < k + 1)%nat) as (k & -> & Hk) by (exists (fuel - length L - 1)%nat; lia).
    rewrite malloc_loop_S. assert (u_size s (u_freep s) < nu) as Hlt.
    { pose proof (rep_freep _ _ _ HR) as Hp. rewrite addrs_circle in Hp. apply list_elem_of_lookup in Hp as [i Hi].
      apply list_lookup_fmap_Some in Hi as (x & -> & Hi). rewrite (size_idx _ _ _ _ _ HR Hi).
      destruct i as [|i]; [injection Hi as <-; simpl; lia|]. apply Hsmall. exact (list_elem_of_lookup_2 L i x Hi). }
    rewrite (proj2 (Z.leb_gt _ _) Hlt), Z.eqb_refl.
    destruct (morecore_spec base nu Hnu s L (Datatypes.S k) HR ltac:(lia)) as [(e & Hm & He)|(s1 & L1 & n & Hm & HR1 & Hn & Hb & Hc & Hkp & Hlen)];
      rewrite (bind_run _ _ _ _ _ Hm).
    + eexists None, _, L. split; [reflexivity|]. split; [by apply rep_env|]. cbn. rewrite He. split; [lia|]. split; [by intros z|done].
    + rewrite (bind_run _ _ _ _ _ (ptr_of_run s1 (u_freep s1))).
      destruct (malloc_round base nu Hnu s1 L1 k HR1 ltac:(lia)) as [(a & s' & L' & Hrun & HG)|[Hsm _]].
      * exists (Some (a + 8)), s', L'. split; [done|]. split; [exact (g_rep _ _ _ _ _ _ _ HG)|]. rewrite (g_env _ _ _ _ _ _ _ HG).
        split; [lia|]. split; [|by eapply granted_post]. eapply kept_grow; [exact Hkp|lia| |eapply granted_kept; [|done|done]; lia].
        intros z Hz%Hc. destruct Hz; [by left|right; lia].
      * exfalso. pose proof (rep_sorted _ _ _ HR1) as HS. apply StronglySorted_inv in HS as [HS _].
        destruct (cov_block L1 (brk (u_env s)) n HS) as (x & Hx & Hx1 & Hx2); [lia|intros z Hz; apply Hc; right; lia|].
        pose proof (Hsm x Hx). lia.
Qed.

(** Before the first call [freep] is null. *)
Definition ready s L : Prop :=
  rep base s L ∨ (u_freep s = 0 ∧ L = [] ∧ 0 < base ∧ base + 8 ≤ brk (u_env s) ≤ 2 ^ 31).
Lemma units_bound n : 0 ≤ n < 2 ^ 31 - 16 → 1 ≤ units n < 2 ^ 28 ∧ n + 8 ≤ 8 * units n.
Proof. intros Hn. unfold units. pose proof (Z.div_mod (n + 7) 8). pose proof (Z.mod_pos_bound (n + 7) 8). lia. Qed.
Lemma malloc_spec nbytes s L fuel :
  0 ≤ nbytes < 2 ^ 31 - 16 → ready s L → (2 * length L + 4 ≤ fuel)%nat →
  ∃ r s' L', malloc base fuel nbytes s = Ok r s' ∧ rep base s' L' ∧
    brk (u_env s) ≤ brk (u_env s') ∧ kept base s L s' ∧ malloc_post (units nbytes) s L r s' L'.
Proof.
  intros Hn Hrd Hf. pose proof (units_bound nbytes Hn) as [Hu _]. unfold malloc.
  replace (u32 (u32 (nbytes + 8 - 1) / 8 + 1)) with (units nbytes).
  2:{ rewrite (u32_small (nbytes + 8 - 1)) by lia. unfold units in *. replace (nbytes + 8 - 1) with (nbytes + 7) by lia.
      by rewrite u32_small by lia. }
  unfold mbind at 1, M_bind at 1, get. destruct Hrd as [HR|(H0 & -> & Hb & Hbrk)].
  - pose proof (rep_freep _ _ _ HR) as Hp. pose proof (rep_range _ _ _ HR) as Hrg.
    rewrite (proj2 (Z.eqb_neq (u_freep s) 0)).
    2:{ destruct (addr_cov _ _ _ _ HR Hp) as [->|Hc]; [lia|]. pose proof (cov_below _ _ _ _ HR Hc). lia. }
    exact (malloc_loop_spec _ _ _ _ Hu HR Hf).
  - rewrite H0. set (s0 := mkU (put base base (u_ptr s)) (put base 0 (u_size s)) base (u_env s)).
    assert (rep base s0 []) as HR0.
    { split; cbn; [split; [done|apply put_eq]|apply put_eq|repeat constructor|constructor|by left|lia]. }
    destruct (malloc_loop_spec (units nbytes) s0 [] fuel Hu HR0 Hf) as (r & s' & L' & Hrun & HR' & Hle & Hk & Hpost).
    exists r, s', L'. split; [exact Hrun|]. split; [done|]. split; [done|]. split; [|exact Hpost].
    intros z Hz Hzb Hzc. destruct (Hk z Hz Hzb Hzc) as [-> ->]. cbn. by rewrite !put_ne.
Qed.
End spec.

(** ** More fuel does not change a result *)
Section fuel.
Context {E : Type} `{!Sbrk E} (base : Z).
Implicit Types (s : umem E).
Lemma free_find_fuel n m b p s r s' : free_find n b p s = Ok r s' → (n ≤ m)%nat → free_find m b p s = Ok r s'.
Proof.
  revert m p. induction n as [|n IH]; intros m p Hrun Hle; [done|]. destruct m as [|m]; [lia|].
  cbn [free_find] in *. rewrite (bind_run _ _ _ _ _ (ptr_of_run s p)) in Hrun. rewrite (bind_run _ _ _ _ _ (ptr_of_run s p)).
  destruct (between b p (u_ptr s p)); [exact Hrun|]. apply IH; [done|lia].
Qed.
Lemma free_fuel n m ap s s' : free n ap s = Ok tt s' → (n ≤ m)%nat → free m ap s = Ok tt s'.
Proof.
  intros (s0 & s1 & Hg & (p & s2 & Hff & Hrest)%bind_ok)%bind_ok Hle. unfold free. rewrite (bind_run _ _ _ _ _ Hg).
  by rewrite (bind_run _ _ _ _ _ (free_find_fuel _ _ _ _ _ _ _ Hff Hle)).
Qed.
Lemma morecore_fuel n m nu s r s' : morecore n nu s = Ok r s' → (n ≤ m)%nat → morecore m nu s = Ok r s'.
Proof.
  intros Hrun Hle. destruct (sbrk (i32 ((if nu <? 4096 then 4096 else nu) * 8)) (u_env s)) as [c e] eqn:Esb.
  rewrite (morecore_eq nu s n _ _ Esb) in Hrun. rewrite (morecore_eq nu s m _ _ Esb). destruct (c =? 2 ^ 32 - 1); [done|].
  apply bind_ok in Hrun as ([] & s1 & Hfree & Hrest). by rewrite (bind_run _ _ _ _ _ (free_fuel _ _ _ _ _ Hfree Hle)).
Qed.
Lemma malloc_loop_fuel n m nu pv p s r s' :
  malloc_loop n nu pv p s = Ok r s' → (n ≤ m)%nat → malloc_loop m nu pv p s = Ok r s'.
Proof.
  revert m pv p s. induction n as [|n IH]; intros m pv p s Hrun Hle; [done|]. destruct m as [|m]; [lia|].
  rewrite malloc_loop_S in Hrun. rewrite malloc_loop_S. destruct (nu <=? u_size s p); [done|]. destruct (p =? u_freep s); [|apply IH; [done|lia]].
  apply bind_ok in Hrun as (o & s1 & Hm & Hrest). rewrite (bind_run _ _ _ _ _ (morecore_fuel _ _ _ _ _ _ Hm Hle)).
  destruct o as [q|]; [|done]. rewrite (bind_run _ _ _ _ _ (ptr_of_run s1 q)) in Hrest. rewrite (bind_run _ _ _ _ _ (ptr_of_run s1 q)). apply IH; [done|lia].
Qed.
Lemma malloc_fuel n m nbytes s r s' : malloc base n nbytes s = Ok r s' → (n ≤ m)%nat → malloc base m nbytes s = Ok r s'.
Proof.
  unfold malloc. intros Hrun Hle. revert Hrun. set (nu := u32 _). unfold mbind, M_bind, get, ptr_of, gets.
  destruct (when _ _ s) as [[] s1| | |]; [|done..]. intros Hrun. by eapply malloc_loop_fuel.
Qed.
End fuel.

(** ** A program and its blocks

    [ustep]: one action of a program that holds the blocks [A], pairs of the pointer malloc
    returned and the size asked for. It may write anywhere inside its blocks. The steps
    are those of a program that asks malloc for less than 2 GB at a time (2^31 - 16 bytes:
    with the header and the rounding the size in bytes stays a positive int) and calls
    sbrk only to grow; [malloc_wraps] and [malloc_shrinks] below show what malloc does
    with other sizes, which it does not refuse. *)
Section program.
Context {E : Type} `{!Sbrk E} (base : Z).
Implicit Types (s : umem E) (L A B : list blk).

Inductive ustep : umem E * list blk → umem E * list blk → Prop :=
| u_malloc fuel nbytes p s s' A :
    0 ≤ nbytes < 2 ^ 31 - 16 → malloc base fuel nbytes s = Ok (Some p) s' → ustep (s, A) (s', (p, nbytes) :: A)
| u_refused fuel nbytes s s' A :
    0 ≤ nbytes < 2 ^ 31 - 16 → malloc base fuel nbytes s = Ok None s' → ustep (s, A) (s', A)
| u_free fuel p n s s' A B :
    free fuel p s = Ok tt s' → ustep (s, A ++ (p, n) :: B) (s', A ++ B)
| u_write f g s A :
    (∀ z, (∀ p n, (p, n) ∈ A → z + 8 ≤ p ∨ p + n ≤ z) → f z = u_ptr s z ∧ g z = u_size s z) →
    ustep (s, A) (mkU f g (u_freep s) (u_env s), A)
| u_sbrk n r e s A :
    0 ≤ n → sbrk n (u_env s) = (r, e) → ustep (s, A) (mkU (u_ptr s) (u_size s) (u_freep s) e, A).

(** The bytes of a block do not meet those of another one, headers included. *)
Definition apart (x y : blk) : Prop :=
  x.1 - 8 + 8 * units x.2 ≤ y.1 - 8 ∨ y.1 - 8 + 8 * units y.2 ≤ x.1 - 8.
Definition live s L (x : blk) : Prop :=
  0 ≤ x.2 < 2 ^ 31 - 16 ∧ u_size s (x.1 - 8) = units x.2 ∧ base + 8 ≤ x.1 - 8 ∧
  x.1 - 8 + 8 * units x.2 ≤ brk (u_env s) ∧ disjoint_from L (x.1 - 8) (units x.2).
Definition uinv (c : umem E * list blk) : Prop :=
  ∃ L, ready base c.1 L ∧ (rep base c.1 L ∨ c.2 = []) ∧ Forall (live c.1 L) c.2 ∧ StronglySorted apart c.2.

Lemma ready_brk s L : ready base s L → 0 < base ∧ base + 8 ≤ brk (u_env s) ≤ 2 ^ 31.
Proof. intros [HR|(_ & _ & ?)]; [exact (rep_range _ _ _ HR)|lia]. Qed.
Lemma disjoint_cov L b n : Forall (λ x, 1 ≤ x.2) L → 1 ≤ n → disjoint_from L b n ↔ ∀ z, b ≤ z < b + 8 * n → ¬ cov L z.
Proof.
  intros HF Hn. rewrite Forall_forall in HF. split.
  - intros H z Hz (y & Hy & Hyz). pose proof (H y Hy). lia.
  - intros H x Hx. pose proof (HF x Hx) as Hx1. simpl in Hx1.
    destruct (decide (x.1 + 8 * x.2 ≤ b)); [by left|]. destruct (decide (b + 8 * n ≤ x.1)); [by right|]. exfalso.
    apply (H (Z.max b x.1) ltac:(lia)). exists x. split; [done|]. lia.
Qed.
Lemma ready_sizes s L : ready base s L → Forall (λ x, 1 ≤ x.2) L.
Proof.
  intros [HR|(_ & -> & _)]; [|constructor]. eapply Forall_impl; [exact (rep_sizes _ _ _ HR)|]. intros x Hx. simpl in Hx. tauto.
Qed.
Lemma live_cov s L x : ready base s L → live s L x →
  ∀ z, x.1 - 8 ≤ z < x.1 - 8 + 8 * units x.2 → ¬ cov L z ∧ base < z < brk (u_env s).
Proof.
  intros HR (Hn & _ & Hlo & Hhi & Hd) z Hz. pose proof (units_bound _ Hn) as [Hu _].
  split; [|lia]. revert z Hz. apply disjoint_cov; [by eapply ready_sizes|lia|done].
Qed.
(** Other blocks stay live when their headers and the bytes of theirs that are free do not change. *)
Lemma live_keep s L s' L' x :
  ready base s L → ready base s' L' → u_size s' (x.1 - 8) = u_size s (x.1 - 8) → brk (u_env s) ≤ brk (u_env s') →
  (∀ z, x.1 - 8 ≤ z < x.1 - 8 + 8 * units x.2 → cov L' z → cov L z) → live s L x → live s' L' x.
Proof.
  intros HR HR' Hk Hb Hc Hl. pose proof Hl as (Hn & Hs & Hlo & Hhi & Hd). pose proof (units_bound _ Hn) as [Hu _].
  split; [done|]. split; [congruence|]. split; [done|]. split; [lia|].
  apply disjoint_cov; [by eapply ready_sizes|lia|]. intros z Hz HL'. by apply (proj1 (live_cov _ _ _ HR Hl z Hz)), Hc.
Qed.
Lemma kept_header s L s' x : ready base s L → live s L x → kept base s L s' → u_size s' (x.1 - 8) = u_size s (x.1 - 8).
Proof.
  intros HR Hl Hk. pose proof Hl as (Hn & _). pose proof (units_bound _ Hn) as [Hu _].
  destruct (live_cov _ _ _ HR Hl (x.1 - 8) ltac:(lia)) as [Hnc Hr]. by destruct (Hk (x.1 - 8) ltac:(lia) ltac:(lia) Hnc).
Qed.
Lemma sorted_apart_drop A B (x : blk) : StronglySorted apart (A ++ x :: B) → StronglySorted apart (A ++ B).
Proof.
  intros (H1 & H2 & H3)%StronglySorted_app. apply StronglySorted_inv in H3 as [H3 _]. apply StronglySorted_app. split; [|done].
  intros y z Hy Hz. apply H1; [done|]. apply elem_of_cons. by right.
Qed.
Lemma sorted_apart_mid A B (x y : blk) : StronglySorted apart (A ++ x :: B) → y ∈ A ++ B → apart x y.
Proof.
  intros (H1 & H2 & H3)%StronglySorted_app. apply StronglySorted_inv in H3 as [_ H3]. rewrite Forall_forall in H3.
  intros [Hy|Hy]%elem_of_app; [|by apply H3]. pose proof (H1 y x Hy ltac:(apply elem_of_cons; by left)) as [?|?]; [by right|by left].
Qed.

Lemma uinv_malloc fuel nbytes s L :
  ready base s L → 0 ≤ nbytes < 2 ^ 31 - 16 → (2 * length L + 4 ≤ fuel)%nat → ∀ r s' A,
  malloc base fuel nbytes s = Ok r s' → Forall (live s L) A → StronglySorted apart A →
  uinv (s', match r with Some p => (p, nbytes) :: A | None => A end).
Proof.
  intros HR Hn Hf r s' A Hrun HF HS. pose proof (units_bound _ Hn) as [Hu _].
  destruct (malloc_spec base nbytes s L fuel Hn HR Hf) as (r' & s2 & L' & Hrun' & HR' & Hb & Hk & Hpost).
  rewrite Hrun in Hrun'. injection Hrun' as <- <-. exists L'. simpl. split; [by left|]. split; [by left|].
  assert (ready base s' L') as HRd by (by left). destruct r as [p|].
  - destruct Hpost as (a & -> & Hsz & Hlo & Hhi & Hcov & Hdis). split.
    + apply Forall_cons. split.
      * unfold live. cbn [fst snd]. replace (a + 8 - 8) with a by lia. split; [done|]. split; [done|]. split; [done|]. split; done.
      * eapply Forall_impl; [exact HF|]. intros x Hx. eapply live_keep; [exact HR|done|by eapply kept_header|done| |done].
        intros z Hz HL'. pose proof (live_cov _ _ _ HR Hx z Hz) as [_ Hr]. destruct (proj1 (Hcov z) (or_introl HL')); [done|lia].
    + constructor; [done|]. rewrite Forall_forall in HF |- *. intros x Hx. pose proof (HF x Hx) as Hl. unfold apart. cbn [fst snd].
      pose proof Hl as (Hxn & _). pose proof (units_bound _ Hxn) as [Hxu _].
      destruct (decide (a + 8 - 8 + 8 * units nbytes ≤ x.1 - 8)); [by left|].
      destruct (decide (x.1 - 8 + 8 * units x.2 ≤ a + 8 - 8)); [by right|]. exfalso.
      pose proof (live_cov _ _ _ HR Hl (Z.max (x.1 - 8) a) ltac:(lia)) as [Hnc Hr].
      destruct (proj1 (Hcov (Z.max (x.1 - 8) a)) ltac:(right; lia)); [done|lia].
  - destruct Hpost as [Hbe Hcov]. split; [|done]. eapply Forall_impl; [exact HF|]. intros x Hx.
    eapply live_keep; [exact HR|done|by eapply kept_header|done| |done]. intros z _. apply Hcov.
Qed.
Lemma live_rep s L A : rep base s L ∨ A = [] → ∀ x, x ∈ A → rep base s L.
Proof. intros [HR| ->] x Hx; [done|by apply elem_of_nil in Hx]. Qed.
Lemma free_live s L A B x fuel :
  rep base s L → Forall (live s L) (A ++ x :: B) → StronglySorted apart (A ++ x :: B) → (length L < fuel)%nat →
  ∃ s', free fuel x.1 s = Ok tt s' ∧ uinv (s', A ++ B).
Proof.
  intros HR HF HS Hf. assert (live s L x) as Hl by (rewrite Forall_app, Forall_cons in HF; tauto).
  pose proof Hl as (Hn & Hsz & Hlo & Hhi & Hd). pose proof (units_bound _ Hn) as [Hu _].
  destruct (free_spec base s L (x.1 - 8) (units x.2) fuel HR Hd ltac:(lia) Hlo Hhi Hsz Hf) as (s' & L' & Hrun & HR' & He & Hc & Hfr & _).
  replace (x.1 - 8 + 8) with x.1 in Hrun by lia. exists s'. split; [done|]. exists L'. simpl.
  assert (ready base s L) as HRd by (by left). assert (ready base s' L') as HRd' by (by left).
  split; [done|]. split; [by left|]. split; [|by eapply sorted_apart_drop]. apply Forall_forall. intros y Hy.
  assert (live s L y) as Hly. { rewrite Forall_forall in HF. apply HF. rewrite elem_of_app, elem_of_cons. apply elem_of_app in Hy. tauto. }
  pose proof (sorted_apart_mid _ _ _ _ HS Hy) as Hap. unfold apart in Hap. pose proof Hly as (Hny & _). pose proof (units_bound _ Hny) as [Huy _].
  eapply live_keep; [exact HRd|done| |rewrite He; lia| |done].
  - apply Hfr; [lia|]. intros Hin. destruct (live_cov _ _ _ HRd Hly (y.1 - 8) ltac:(lia)) as [Hnc Hr].
    destruct (addr_cov _ _ _ _ HR Hin); [lia|done].
  - intros z Hz. rewrite Hc. intros [?|?]; [done|lia].
Qed.
Lemma rep_write s L f g :
  rep base s L → (∀ z, z ∈ addrs base L → f z = u_ptr s z ∧ g z = u_size s z) → rep base (mkU f g (u_freep s) (u_env s)) L.
Proof.
  intros HR Hfg. assert (∀ z, z = base ∨ z ∈ L.*1 → f z = u_ptr s z ∧ g z = u_size s z) as H by (intros z Hz; by apply Hfg, elem_of_cons).
  destruct HR as [[Ht1 Ht2] Hb HS HF Hp Hr]. split; cbn; try done.
  - split; [eapply seg_agree; [exact Ht1| |]; intros z Hz; apply H; tauto|].
    destruct (H (last_addr base L) (last_addr_in base L)) as [-> _]. done.
  - destruct (H base ltac:(by left)) as [_ ->]. done.
Qed.
Lemma uinv_write f g s A :
  (∀ z, (∀ p n, (p, n) ∈ A → z + 8 ≤ p ∨ p + n ≤ z) → f z = u_ptr s z ∧ g z = u_size s z) →
  uinv (s, A) → uinv (mkU f g (u_freep s) (u_env s), A).
Proof.
  intros Hfg (L & HRd & HRA & HF & HS). cbn [fst snd] in *. exists L. cbn [fst snd].
  destruct HRA as [HR| ->]; [|split; [|split; [by right|split; [constructor|constructor]]]].
  2:{ destruct HRd as [HR|HRd]; [left|by right]. apply rep_write; [done|]. intros z _. apply Hfg. by intros p n ?%elem_of_nil. }
  rewrite Forall_forall in HF.
  assert (rep base (mkU f g (u_freep s) (u_env s)) L) as HR'.
  { apply rep_write; [done|]. intros z Hz. apply Hfg. intros p n Hpn. pose proof (HF _ Hpn) as (Hn & _ & Hlo & _ & Hd).
    pose proof (units_bound _ Hn) as [Hu Hu2]. cbn [fst snd] in *. apply elem_of_cons in Hz as [->|(y & -> & Hy)%list_elem_of_fmap]; [lia|].
    pose proof (rep_sizes_in _ _ _ _ HR Hy). destruct (Hd y Hy); lia. }
  split; [by left|]. split; [by left|]. split; [|done]. apply Forall_forall. intros x Hx. pose proof (HF x Hx) as Hl.
  pose proof Hl as (Hn & _). pose proof (units_bound _ Hn) as [Hu Hu2].
  eapply live_keep; [exact HRd|by left| |cbn; lia|done|done]. cbn. apply Hfg. intros p n Hpn.
  apply list_elem_of_split in Hx as (A1 & A2 & ->). pose proof (HF _ Hpn) as (Hpn2 & _). cbn [fst snd] in *.
  pose proof (units_bound _ Hpn2) as [Hpu Hpu2]. rewrite elem_of_app, elem_of_cons in Hpn.
  destruct (decide ((p, n) = x)) as [<-|Hne]; [cbn; lia|].
  pose proof (sorted_apart_mid _ _ _ (p, n) HS ltac:(apply elem_of_app; tauto)) as Hap. unfold apart in Hap. cbn [fst snd] in Hap. lia.
Qed.
Lemma uinv_sbrk n r e s A :
  0 ≤ n → sbrk n (u_env s) = (r, e) → uinv (s, A) → uinv (mkU (u_ptr s) (u_size s) (u_freep s) e, A).
Proof.
  intros Hn Hsb (L & HRd & HRA & HF & HS). cbn [fst snd] in *. pose proof (ready_brk _ _ HRd) as Hrb.
  assert (brk (u_env s) ≤ brk e ≤ 2 ^ 31) as He.
  { pose proof (sbrk_spec n (u_env s)) as H1. pose proof (sbrk_fail n (u_env s)) as H2. rewrite Hsb in *. cbn in *.
    destruct (decide (r = 2 ^ 32 - 1)) as [H|H]; [rewrite (H2 Hn H); lia|destruct (H1 Hn H); lia]. }
  assert (∀ s L, rep base s L → brk (u_env s) ≤ brk e ≤ 2 ^ 31 → rep base (mkU (u_ptr s) (u_size s) (u_freep s) e) L) as Hrep.
  { clear. intros s L HR He. destruct HR. split; cbn; try done; [|lia]. eapply Forall_impl; [exact rep_sizes|].
    intros x Hx. simpl in *. lia. }
  assert (ready base (mkU (u_ptr s) (u_size s) (u_freep s) e) L) as HRd'.
  { destruct HRd as [HR|(H1 & H2 & H3 & H4)]; [left; by apply Hrep|right; cbn; split; [done|split; [done|lia]]]. }
  exists L. cbn [fst snd]. split; [done|]. split; [destruct HRA as [HR| ->]; [left; by apply Hrep|by right]|]. split; [|done].
  eapply Forall_impl; [exact HF|]. intros x Hx. eapply live_keep; [exact HRd|done|done|cbn; lia|done|done].
Qed.
Lemma uinv_step c c' : uinv c → ustep c c' → uinv c'.
Proof.
  intros Hinv Hst. destruct Hst as [fuel nb p s s' A Hn Hr|fuel nb s s' A Hn Hr|fuel p n s s' A B Hr|f g s A Hfg|n r e s A Hn Hsb];
    [| | |by apply uinv_write|by eapply uinv_sbrk].
  - destruct Hinv as (L & HRd & _ & HF & HS). cbn [fst snd] in *. apply (malloc_fuel _ _ (fuel + (2 * length L + 4))) in Hr; [|lia].
    exact (uinv_malloc (fuel + (2 * length L + 4)) nb s L HRd Hn ltac:(lia) _ _ _ Hr HF HS).
  - destruct Hinv as (L & HRd & _ & HF & HS). cbn [fst snd] in *. apply (malloc_fuel _ _ (fuel + (2 * length L + 4))) in Hr; [|lia].
    exact (uinv_malloc (fuel + (2 * length L + 4)) nb s L HRd Hn ltac:(lia) _ _ _ Hr HF HS).
  - destruct Hinv as (L & HRd & HRA & HF & HS). cbn [fst snd] in *.
    assert (rep base s L) as HR by (destruct HRA as [?|HA]; [done|by destruct A]).
    apply (free_fuel _ (fuel + Datatypes.S (length L))) in Hr; [|lia].
    destruct (free_live s L A B (p, n) (fuel + Datatypes.S (length L)) HR HF HS ltac:(lia)) as (s2 & Hr2 & Hinv2).
    cbn [fst] in Hr2. rewrite Hr in Hr2. injection Hr2 as <-. exact Hinv2.
Qed.
Lemma uinv_reachable s0 c :
  u_freep s0 = 0 → 0 < base → base + 8 ≤ brk (u_env s0) ≤ 2 ^ 31 → rtc ustep (s0, []) c → uinv c.
Proof.
  intros H0 Hb Hbrk Hr. assert (uinv (s0, [])) as Hi.
  { exists []. cbn. split; [right; done|]. split; [by right|]. split; constructor. }
  clear H0 Hb Hbrk. revert Hi. remember (s0, []) as c0 eqn:Hc0. clear Hc0. induction Hr as [|c1 c2 c3 Hst _ IH]; [done|].
  intros Hi. by eapply IH, uinv_step.
Qed.
End program.

(** C12: a program that starts with an empty allocator and a break of at most 2 GB, asks
    malloc for less than 2^31 - 16 bytes at a time, frees only blocks it holds, calls
    sbrk only with arguments that are not negative and writes only inside its blocks
    (any number of such actions in any order): the blocks it holds are disjoint, lie between [base] and the break, and their headers stay
    intact, so that every later malloc of such a size and every free of a held block
    returns: the circle of free blocks is never broken. *)
Theorem malloc_exclusive {E : Type} `{!Sbrk E} (base : Z) (s0 s : umem E) (A : list blk) :
  u_freep s0 = 0 → 0 < base → base + 8 ≤ brk (u_env s0) ≤ 2 ^ 31 → rtc (ustep base) (s0, []) (s, A) →
  (∀ i j x y, A !! i = Some x → A !! j = Some y → i ≠ j → x.1 ≠ y.1 ∧ (x.1 + x.2 ≤ y.1 ∨ y.1 + y.2 ≤ x.1)) ∧
  (∀ x, x ∈ A → base + 16 ≤ x.1 ∧ x.1 + x.2 ≤ brk (u_env s)) ∧
  ∃ fuel, (∀ nbytes, 0 ≤ nbytes < 2 ^ 31 - 16 → ∃ r s', malloc base fuel nbytes s = Ok r s') ∧
          (∀ x, x ∈ A → ∃ s', free fuel x.1 s = Ok tt s').
Proof.
  intros H0 Hb Hbrk Hr. destruct (uinv_reachable base s0 _ H0 Hb Hbrk Hr) as (L & HRd & HRA & HF & HS). cbn [fst snd] in *.
  assert (∀ x, x ∈ A → live base s L x ∧ 1 ≤ units x.2 ∧ x.2 + 8 ≤ 8 * units x.2) as Hlive.
  { intros x Hx. rewrite Forall_forall in HF. pose proof (HF x Hx) as Hl. pose proof Hl as (Hn & _).
    pose proof (units_bound _ Hn) as [Hu Hu2]. split; [done|]. lia. }
  split; [|split].
  - intros i j x y Hi Hj Hne. assert (apart x y) as Hap.
    { apply list_elem_of_split_length in Hi as (A1 & A2 & -> & ->). eapply sorted_apart_mid; [exact HS|]. apply elem_of_app.
      destruct (decide (j < length A1)%nat); [rewrite lookup_app_l in Hj by done; left; by eapply list_elem_of_lookup_2|].
      rewrite lookup_app_r in Hj by lia. destruct (j - length A1)%nat eqn:Hd; [lia|]. right. by eapply list_elem_of_lookup_2. }
    destruct (Hlive x ltac:(by eapply list_elem_of_lookup_2)) as (_ & ? & ?). destruct (Hlive y ltac:(by eapply list_elem_of_lookup_2)) as (_ & ? & ?).
    unfold apart in Hap. lia.
  - intros x Hx. destruct (Hlive x Hx) as ((_ & _ & Hlo & Hhi & _) & ? & ?). lia.
  - exists (2 * length L + 4)%nat. split.
    + intros nb Hn. destruct (malloc_spec base nb s L _ Hn HRd (le_n _)) as (r & s' & L' & Hrun & _). by exists r, s'.
    + intros x Hx. pose proof (live_rep _ _ _ _ HRA x Hx) as HR. apply list_elem_of_split in Hx as (A1 & A2 & ->).
      destruct (free_live base s L A1 A2 x (2 * length L + 4) HR HF HS ltac:(lia)) as (s' & Hrun & _). by exists s'.
Qed.

(** A process of up to 2 GB. *)
#[export] Instance demo_sbrk : Sbrk Z.
Proof.
  refine {| brk := λ e, e; sbrk := λ n e, if 2 ^ 31 <? e + n then (2 ^ 32 - 1, e) else (e, e + n) |}.
  - intros n e Hn. destruct (Z.ltb_spec (2 ^ 31) (e + n)); simpl; [done|]. intros _. split; [done|]. split; [done|lia].
  - intros n e Hn. destruct (Z.ltb_spec (2 ^ 31) (e + n)); simpl; [done|]. lia.
Defined.
Definition demo_s0 : umem Z := mkU (λ _, 0) (λ _, 0) 0 0x4000.
Definition run_u {A} (m : M (umem Z) A) (s : umem Z) : umem Z := match m s with Ok _ s' => s' | _ => s end.
Definition demo_s1 : umem Z := run_u (malloc 0x1000 4 10) demo_s0.
Definition demo_s2 : umem Z := run_u (malloc 0x1000 4 100) demo_s1.
Definition demo_s3 : umem Z := run_u (free 4 0xbff0) demo_s2.
Lemma malloc_exclusive_witness :
  malloc 0x1000 4 10 demo_s0 = Ok (Some 0xbff0) demo_s1 ∧ malloc 0x1000 4 100 demo_s1 = Ok (Some 0xbf80) demo_s2 ∧
  free 4 0xbff0 demo_s2 = Ok tt demo_s3 ∧
  ∀ x, x ∈ [(0xbf80, 100)] → 0x1000 + 16 ≤ x.1 ∧ x.1 + x.2 ≤ 0xc000.
Proof.
  assert (malloc 0x1000 4 10 demo_s0 = Ok (Some 0xbff0) demo_s1) as H1 by (vm_compute; reflexivity).
  assert (malloc 0x1000 4 100 demo_s1 = Ok (Some 0xbf80) demo_s2) as H2 by (vm_compute; reflexivity).
  assert (free 4 0xbff0 demo_s2 = Ok tt demo_s3) as H3 by (vm_compute; reflexivity).
  split; [exact H1|]. split; [exact H2|]. split; [exact H3|].
  destruct (malloc_exclusive 0x1000 demo_s0 demo_s3 [(0xbf80, 100)]) as (_ & Hrange & _).
  - reflexivity.
  - reflexivity.
  - vm_compute; split; discriminate.
  - eapply rtc_l; [eapply u_malloc; [|exact H1]; vm_compute; split; [discriminate|reflexivity]|].
    eapply rtc_l; [eapply u_malloc; [|exact H2]; vm_compute; split; [discriminate|reflexivity]|].
    eapply rtc_l; [|apply rtc_refl]. exact (u_free 0x1000 4 0xbff0 10 demo_s2 demo_s3 [(0xbf80, 100)] [] H3).
  - intros x Hx. exact (Hrange x Hx).
Defined.

(** A size whose rounding wraps around is served as a block without room. *)
Theorem malloc_wraps {E : Type} `{!Sbrk E} (base : Z) fuel (s : umem E) n :
  2 ^ 32 - 7 ≤ n < 2 ^ 32 → malloc base fuel n s = malloc base fuel 0 s.
Proof.
  intros Hn. unfold malloc. replace (u32 (u32 (n + 8 - 1) / 8 + 1)) with 1; [done|].
  unfold u32 at 2. replace ((n + 8 - 1) mod 2 ^ 32) with (n + 7 - 2 ^ 32) by (apply Z.mod_unique with 1; lia).
  by rewrite Z.div_small by lia.
Qed.
(** A size above 2 GB makes sbrk's argument negative: the process shrinks. *)
Example malloc_shrinks : brk (u_env (run_u (malloc 0x1000 4 (2 ^ 32 - 4096)) demo_s0)) = 0x4000 - 4088.
Proof. vm_compute. reflexivity. Qed.
