(* ===== verification/Ulib.v ===== *)
(** * The user library (ulib.c)

    Strings are lists of bytes; a read beyond the list is outside the object. *)

From S2P Require Import Prelude CStr Printf.

(** strcpy: the bytes it stores, the terminator included. *)
Fixpoint strcpy_out (t : list Z) : option (list Z) :=
  match t with [] => None | c :: t' => if c =? 0 then Some [0] else cons c <$> strcpy_out t' end.
Definition strcpy (s t : list Z) : option (list Z) :=
  w ← strcpy_out t; if (length w <=? length s)%nat then Some (w ++ drop (length w) s) else None.

(** strcmp *)
Fixpoint strcmp (p q : list Z) : option Z :=
  match p, q with
  | c :: p', d :: q' => if negb (c =? 0) && (c =? d) then strcmp p' q' else Some (c - d)
  | _, _ => None
  end.

(** strchr: the index of the first [c] before the terminator; [Some None] is the
    null pointer. *)
Fixpoint strchr (s : list Z) (c : Z) : option (option nat) :=
  match s with
  | [] => None
  | x :: s' => if x =? 0 then Some None else if x =? c then Some (Some 0%nat)
               else option_map (option_map S) (strchr s' c)
  end.

(** gets: the bytes left in [buf] and the input left; [input] is what read()
    will deliver, one byte a call, until it fails. *)
Fixpoint gets_loop (room : nat) (input : list Z) : list Z * list Z :=
  match room with
  | O => ([], input)
  | S room' =>
      match input with
      | [] => ([], [])
      | c :: input' =>
          if (c =? 10) || (c =? 13) then ([c], input')
          else let '(l, rest) := gets_loop room' input' in (c :: l, rest)
      end
  end.
Definition gets (max : Z) (input : list Z) : list Z * list Z :=
  let '(l, rest) := gets_loop (Z.to_nat (max - 1)) input in (l ++ [0], rest).

(** stat, over the system calls it makes. *)
Section stat.
Context {S ST : Type} (open : list Z → M S Z) (fstat : Z → M S (Z * ST)) (close : Z → M S unit).
Definition stat (n : list Z) : M S (Z * option ST) :=
  fd ← open n;
  if fd <? 0 then mret (-1, None) else
  '(r, st) ← fstat fd;
  close fd ;;
  mret (r, Some st).
End stat.

(** atoi; [None] is overflow of the [int] [n]. *)
Fixpoint atoi_loop (s : list Z) (n : Z) : option Z :=
  match s with
  | [] => None
  | c :: s' =>
      if (48 <=? c) && (c <=? 57) then
        let n' := n * 10 + c - 48 in
        if bool_decide (n * 10 + c < 2 ^ 31) then atoi_loop s' n' else None
      else Some n
  end.
Definition atoi (s : list Z) : option Z := atoi_loop s 0.

(** calc: three nested loops; the innermost advances [j] instead of [k]. *)
Fixpoint calc_k (fuel : nat) (num j c : Z) : option (Z * Z) :=
  match fuel with
  | O => None
  | S f => if 0 <? u32 num then calc_k f num (u32 (j + 1)) (Z.shiftl (Z.shiftr c 10) 10) else Some (j, c)
  end.
Fixpoint calc_j (fuel : nat) (num j c : Z) : option Z :=
  match fuel with
  | O => None
  | S f =>
      if j <? u32 num then '(j', c') ← calc_k f num j c; calc_j f num (u32 (j' + 1)) c'
      else Some c
  end.
Fixpoint calc_i (fuel : nat) (num i c : Z) : option Z :=
  match fuel with
  | O => None
  | S f => if i <? u32 num then c' ← calc_j f num 0 c; calc_i f num (u32 (i + 1)) c' else Some 0
  end.
Definition calc (fuel : nat) (num : Z) : option Z := calc_i fuel num 0 0.

(** ** Behaviour *)
Lemma strcpy_out_spec t : terminated t → strcpy_out t = Some (cstr t ++ [0]).
Proof.
  induction t as [|c t IH]; intros Ht; [by apply elem_of_nil in Ht|]. simpl.
  destruct (Z.eqb_spec c 0); [done|]. by rewrite IH by (by eapply terminated_cons).
Qed.

Lemma strcmp_zero p q :
  terminated p → terminated q → strcmp p q = Some 0 ↔ cstr p = cstr q.
Proof.
  revert q. induction p as [|c p IH]; intros q Hp Hq; [by apply elem_of_nil in Hp|].
  destruct q as [|d q]; [by apply elem_of_nil in Hq|]. simpl.
  destruct (Z.eqb_spec c 0) as [->|Hc]; simpl.
  - destruct (Z.eqb_spec d 0) as [->|Hd]; [done|]. split; [|done]. intros [= ?]. lia.
  - destruct (Z.eqb_spec c d) as [->|Hcd].
    + rewrite (proj2 (Z.eqb_neq d 0) Hc). rewrite IH by (by eapply terminated_cons).
      split; [by intros ->|by intros [= ?]].
    + split; [intros [= ?]; lia|]. destruct (Z.eqb_spec d 0); [done|]. by intros [= ? _].
Qed.
Lemma strchr_spec s c i :
  terminated s → c ≠ 0 → strchr s c = Some (Some i) ↔
  cstr s !! i = Some c ∧ ∀ j, (j < i)%nat → cstr s !! j ≠ Some c.
Proof.
  intros Ht Hc. revert i. induction s as [|x s IH]; intros i; [by apply elem_of_nil in Ht|]. simpl.
  destruct (Z.eqb_spec x 0) as [->|Hx]; [naive_solver|].
  assert (terminated s) as Ht' by (by eapply terminated_cons).
  destruct (Z.eqb_spec x c) as [->|Hxc].
  - split.
    + intros [= <-]. split; [done|]. lia.
    + intros [_ Hm]. destruct i as [|i]; [done|]. by destruct (Hm 0%nat ltac:(lia)).
  - destruct i as [|i].
    + split; [|by intros [[= ->] _]]. destruct (strchr s c) as [[j|]|]; done.
    + transitivity (strchr s c = Some (Some i)).
      * destruct (strchr s c) as [[j|]|]; simpl; split; congruence.
      * rewrite IH by done. simpl. split.
        -- intros [Hi Hm]. split; [done|]. intros [|j] Hj; simpl; [congruence|]. apply Hm. lia.
        -- intros [Hi Hm]. split; [done|]. intros j Hj. apply (Hm (S j)). lia.
Qed.

(** The string functions of the user library agree with the mathematical
    strings: strcpy stores the string and its terminator, strcmp is 0 exactly on
    equal strings, and strchr finds the first occurrence. *)
Theorem ulib_strings s t :
  terminated s → terminated t →
  strcpy_out t = Some (cstr t ++ [0]) ∧ (strcmp s t = Some 0 ↔ cstr s = cstr t) ∧
  (∀ c i, c ≠ 0 → strchr s c = Some (Some i) ↔
     cstr s !! i = Some c ∧ ∀ j, (j < i)%nat → cstr s !! j ≠ Some c).
Proof.
  intros Hs Ht. split; [by apply strcpy_out_spec|]. split; [by apply strcmp_zero|].
  intros c i Hc. by apply strchr_spec.
Qed.
Lemma ulib_strings_witness : strcpy_out [104; 105; 0; 7] = Some [104; 105; 0].
Proof.
  apply (ulib_strings [0] [104; 105; 0; 7]); repeat (apply elem_of_cons; first [by left|right]).
Defined.

Lemma gets_loop_spec room input l rest :
  gets_loop room input = (l, rest) → input = l ++ rest ∧ (length l ≤ room)%nat ∧
  (∀ i c, l !! i = Some c → c = 10 ∨ c = 13 → i = (length l - 1)%nat).
Proof.
  revert input l rest. induction room as [|room IH]; intros input l rest Hg; cbn [gets_loop] in Hg.
  { injection Hg as <- <-. split; [done|]. split; [simpl; lia|done]. }
  destruct input as [|c input].
  { injection Hg as <- <-. split; [done|]. split; [simpl; lia|done]. }
  destruct ((c =? 10) || (c =? 13)) eqn:Hc.
  - injection Hg as <- <-. split; [done|]. split; [simpl; lia|]. intros [|i] d; simpl; [lia|done].
  - destruct (gets_loop room input) as [l' rest'] eqn:Hg'. injection Hg as <- <-.
    destruct (IH _ _ _ Hg') as (-> & Hlen & Hnl). split; [done|]. split; [simpl; lia|].
    intros [|i] d Hi Hd; simpl in *.
    + injection Hi as ->. apply orb_false_iff in Hc as [?%Z.eqb_neq ?%Z.eqb_neq]. lia.
    + rewrite (Hnl i d Hi Hd). destruct l' as [|x l']; [done|]. simpl. lia.
Qed.

(** gets(buf, max) with [max] at least 1 stores at most [max] bytes, ends
    them with a NUL, takes from the input exactly the bytes it stores, and stops
    after the first end of line. *)
Theorem gets_reads_line max input l rest :
  1 ≤ max → gets max input = (l, rest) →
  ∃ line, l = line ++ [0] ∧ input = line ++ rest ∧ Z.of_nat (length l) ≤ max ∧
    ∀ i c, line !! i = Some c → c = 10 ∨ c = 13 → i = (length line - 1)%nat.
Proof.
  intros Hmax Hg. unfold gets in Hg. destruct (gets_loop _ input) as [line rest'] eqn:Hl.
  injection Hg as <- <-. destruct (gets_loop_spec _ _ _ _ Hl) as (Hin & Hlen & Hnl).
  exists line. split; [done|]. split; [done|]. split; [rewrite length_app; simpl; lia|done].
Qed.
Lemma gets_reads_line_witness :
  ∃ line, [104; 105; 10; 0] = line ++ [0] ∧ [104; 105; 10; 120] = line ++ [120].
Proof.
  destruct (gets_reads_line 80 [104; 105; 10; 120] [104; 105; 10; 0] [120]) as (line & H1 & H2 & _);
    [lia|reflexivity|]. exists line. split; [exact H1|exact H2].
Defined.

(** ** atoi reads what printf writes *)
Lemma atoi_loop_digits s c n :
  Forall (is_digit 10) s → ¬ 48 ≤ c ≤ 57 → 0 ≤ n →
  foldl (λ a d, 10 * a + digit_value d) n s + 48 < 2 ^ 31 →
  atoi_loop (s ++ [c]) n = Some (foldl (λ a d, 10 * a + digit_value d) n s).
Proof.
  intros Hs Hc. revert n. induction Hs as [|d s (v & Hv & ->) Hs IH]; intros n Hn Hb; cbn [app atoi_loop foldl].
  - destruct (Z.leb_spec 48 c), (Z.leb_spec c 57); simpl; [lia|done..].
  - assert (hexdigit v = 48 + v) as Hh by (unfold hexdigit; by rewrite (proj2 (Z.ltb_lt v 10)) by lia).
    rewrite Hh. rewrite (proj2 (Z.leb_le 48 _)), (proj2 (Z.leb_le _ 57)) by lia. simpl andb. cbn iota.
    assert (digit_value (48 + v) = v) as Hdv by (rewrite <- Hh; apply hexdigit_value; lia).
    cbn [foldl] in Hb. rewrite Hh, Hdv in Hb.
    assert (∀ l m, 0 ≤ m → Forall (is_digit 10) l → m ≤ foldl (λ a d, 10 * a + digit_value d) m l) as Hmono.
    { intros l m Hm Hl. revert m Hm. induction Hl as [|e l (w & Hw & ->) _ IHl]; intros m Hm; [done|]. simpl.
      rewrite hexdigit_value by lia. etrans; [|apply IHl; lia]. lia. }
    pose proof (Hmono s (10 * n + v) ltac:(lia) Hs). rewrite bool_decide_eq_true_2 by lia.
    rewrite IH.
    + f_equal. f_equal. rewrite Hdv. lia.
    + lia.
    + replace (n * 10 + (48 + v) - 48) with (10 * n + v) by lia. done.
Qed.

(** Atoi reads back what printf's %d wrote: for 0 <= n < 2^31 - 48, the
    digits of [n] followed by any character that is not a digit. *)
Theorem atoi_printint n s c :
  0 ≤ n < 2 ^ 31 - 48 → ¬ 48 ≤ c ≤ 57 → printint n 10 true = Some s → atoi (s ++ [c]) = Some n.
Proof.
  intros Hn Hc Hp. unfold printint in Hp. rewrite (proj2 (Z.ltb_ge n 0)) in Hp by lia. simpl andb in Hp.
  cbn iota in Hp. rewrite u32_small in Hp by lia.
  destruct (int_loop_spec 17 n 10 0 10) as (ds & Hds & Hv & Hlen & Hd); [lia..|].
  rewrite Hds in Hp. cbn [mbind option_bind] in Hp. rewrite (proj2 (Nat.leb_le _ _)) in Hp by lia.
  injection Hp as <-. unfold atoi.
  assert (foldl (λ a d, 10 * a + digit_value d) 0 (rev ds) = n) as Hf by exact Hv.
  rewrite atoi_loop_digits; [by rewrite Hf|by apply Forall_rev|done|lia|rewrite Hf; lia].
Qed.
Lemma atoi_printint_witness : atoi [52; 50; 0] = Some 42.
Proof. apply (atoi_printint 42 [52; 50] 0); [lia|lia|reflexivity]. Defined.

(** ** calc never returns *)
Lemma calc_k_diverges fuel num j c : u32 num ≠ 0 → calc_k fuel num j c = None.
Proof.
  intros Hn. pose proof (u32_range num). revert j c. induction fuel as [|f IH]; intros j c; [done|]. cbn [calc_k].
  rewrite (proj2 (Z.ltb_lt 0 (u32 num))) by lia. apply IH.
Qed.

(** C38: calc(num) runs forever for every [num] except 0: its innermost loop
    advances the wrong counter. *)
Theorem calc_diverges num : (∀ fuel, u32 num ≠ 0 → calc fuel num = None) ∧ calc 1 0 = Some 0.
Proof.
  split; [|done]. intros fuel Hn. pose proof (u32_range num). unfold calc. destruct fuel as [|f]; [done|].
  cbn [calc_i]. rewrite (proj2 (Z.ltb_lt 0 (u32 num))) by lia.
  destruct f as [|f]; [done|]. cbn [calc_j]. rewrite (proj2 (Z.ltb_lt 0 (u32 num))) by lia.
  by rewrite calc_k_diverges.
Qed.
