(* ===== verification/Uprog.v ===== *)
(** * Small user programs (wc.c, cat.c, echo.c, ls.c, main of grep.c)

    The state is the output on descriptor 1.  What the kernel answers is given: a [stream] is the results of the calls
    of read() on a descriptor, [open] the stream of a file, [can_write] whether a write() of so many bytes succeeds after
    the output so far.  A function returns [false] when it has called exit(). *)

From S2P Require Import Prelude CStr Grep Printf Ulib.

Definition text (s : string) : list Z := (λ a, Z.of_nat (Ascii.nat_of_ascii a)) <$> String.list_ascii_of_string s.
Definition NL : list Z := [10].
(** The data of successive reads, and whether the last read fails or meets the end. *)
Record stream := mkStream { chunks : list (list Z); broken_read : bool }.
Abbreviation UP := (M (list Z)).

Section programs.
Context (open : list Z → option stream) (can_write : list Z → list Z → bool).

Definition emit (l : list Z) : UP unit := modify (λ o, o ++ l).
(** [printf(1, fmt, ...)]; the strings among the arguments are given by their place in [strs], from 1 on. *)
Definition printf1 (fmt : list Z) (args : list Z) (strs : list (list Z)) : UP unit :=
  match printf (λ a, strs !! Z.to_nat (a - 1)) fmt args with Some l => emit l | None => undef "printf" end.

(** ** wc *)
Definition blanks : list Z := [32; 13; 9; 10; 11; 0].
Definition is_blank (x : Z) : bool := match strchr blanks x with Some (Some _) => true | _ => false end.
Record counts := mkCounts { wc_l : Z; wc_w : Z; wc_c : Z; inword : bool }.
Definition wc_byte (s : counts) (x : Z) : counts :=
  let c := i32 (wc_c s + 1) in
  let l := if x =? 10 then i32 (wc_l s + 1) else wc_l s in
  if is_blank x then mkCounts l (wc_w s) c false
  else if negb (inword s) then mkCounts l (i32 (wc_w s + 1)) c true
  else mkCounts l (wc_w s) c (inword s).
Definition wc_count (r : stream) : counts := foldl (λ s chunk, foldl wc_byte s chunk) (mkCounts 0 0 0 false) (chunks r).
Definition wc (r : stream) (name : list Z) : UP bool :=
  let s := wc_count r in
  if broken_read r then printf1 (text "wc: read error" ++ NL) [] [] ;; mret false else
  printf1 (text "%d %d %d %s" ++ NL) [u32 (wc_l s); u32 (wc_w s); u32 (wc_c s); 1] [name] ;;
  mret true.
Fixpoint wc_files (args : list (list Z)) : UP bool :=
  match args with
  | [] => mret false
  | a :: args' =>
      match open a with
      | None => printf1 (text "wc: cannot open %s" ++ NL) [1] [a] ;; mret false
      | Some r => b ← wc r a; if (b : bool) then wc_files args' else mret false
      end
  end.
Definition wc_main (stdin : stream) (args : list (list Z)) : UP bool :=
  match args with [] => wc stdin [] ;; mret false | _ => wc_files args end.

(** ** cat *)
Fixpoint cat_loop (l : list (list Z)) : UP bool :=
  match l with
  | [] => mret true
  | d :: l' =>
      o ← get;
      if can_write o d then emit d ;; cat_loop l'
      else printf1 (text "cat: write error" ++ NL) [] [] ;; mret false
  end.
Definition cat (r : stream) : UP bool :=
  b ← cat_loop (chunks r);
  if (b : bool) then (if broken_read r then printf1 (text "cat: read error" ++ NL) [] [] ;; mret false else mret true) else mret false.
Fixpoint cat_files (args : list (list Z)) : UP bool :=
  match args with
  | [] => mret false
  | a :: args' =>
      match open a with
      | None => printf1 (text "cat: cannot open %s" ++ NL) [1] [a] ;; mret false
      | Some r => b ← cat r; if (b : bool) then cat_files args' else mret false
      end
  end.
Definition cat_main (stdin : stream) (args : list (list Z)) : UP bool :=
  match args with [] => cat stdin ;; mret false | _ => cat_files args end.

(** ** echo *)
Fixpoint echo (args : list (list Z)) : UP unit :=
  match args with
  | [] => mret tt
  | a :: args' => printf1 (text "%s%s") [1; 2] [a; match args' with [] => NL | _ => [32] end] ;; echo args'
  end.
(** ** main of grep; the message about its usage goes to descriptor 2 *)
Fixpoint grep_files (pattern : list Z) (args : list (list Z)) : UP unit :=
  match args with
  | [] => mret tt
  | a :: args' =>
      match open a with
      | None => printf1 (text "grep: cannot open %s" ++ NL) [1] [a]
      | Some r => emit (Grep.grep pattern (chunks r)) ;; grep_files pattern args'
      end
  end.
Definition grep_main (stdin : stream) (args : list (list Z)) : UP unit :=
  match args with
  | [] => mret tt
  | [pattern] => emit (Grep.grep pattern (chunks stdin))
  | pattern :: files => grep_files pattern files
  end.
End programs.

(** ** ls *)
Definition DIRSIZ : nat := 14.
Definition T_DIR : Z := 1.
Definition T_FILE : Z := 2.
(** The loop that looks for the last slash, from index [n] down: the index behind it. *)
Fixpoint slash_loop (path : list Z) (n : nat) : nat :=
  if bool_decide (path !! n = Some 47) then S n else match n with O => 0%nat | S n' => slash_loop path n' end.
(** Strings without their terminator; the last byte of the static buffer is always 0. *)
Definition fmtname (path : list Z) : list Z :=
  let p := drop (slash_loop path (length path)) path in
  if (DIRSIZ <=? length p)%nat then p else p ++ replicate (DIRSIZ - length p) 32.

(** [struct stat], as ls uses it; what fstat and read give for an open file. *)
Record lstat := mkStat { st_type : Z; st_ino : Z; st_size : Z }.
Record lsfile := mkLs { ls_stat : option lstat; ls_entries : list (Z * list Z) }.
Section ls.
Context (open : list Z → option lsfile) (stat : list Z → option lstat).

Definition ls_line (path : list Z) (st : lstat) : UP unit :=
  printf1 (text "%s %d %d %d" ++ NL) [1; u32 (st_type st); u32 (st_ino st); u32 (st_size st)] [fmtname path].
Fixpoint ls_loop (path : list Z) (l : list (Z * list Z)) : UP unit :=
  match l with
  | [] => mret tt
  | (inum, name) :: l' =>
      (if inum =? 0 then mret tt else
       let buf := path ++ [47] ++ cstr (take DIRSIZ name) in
       match stat buf with
       | None => printf1 (text "ls: cannot stat %s" ++ NL) [1] [buf]
       | Some st => ls_line buf st
       end) ;;
      ls_loop path l'
  end.
(** The messages to descriptor 2 are left out. *)
Definition ls (path : list Z) : UP unit :=
  match open path with
  | None => mret tt
  | Some f =>
      match ls_stat f with
      | None => mret tt
      | Some st =>
          if st_type st =? T_FILE then ls_line path st else
          if st_type st =? T_DIR then
            if (512 <? length path + 1 + DIRSIZ + 1)%nat then printf1 (text "ls: path too long" ++ NL) [] []
            else ls_loop path (ls_entries f)
          else mret tt
      end
  end.
Definition ls_main (args : list (list Z)) : UP unit :=
  match args with [] => ls (text ".") | _ => for_each args ls end.
End ls.

(** ** The specification of wc *)
(** The words of a text: its maximal sequences of characters that are not blank. *)
Fixpoint words (s : list Z) : list (list Z) :=
  match s with
  | [] => []
  | x :: s' =>
      if is_blank x then words s' else
      match s' with
      | y :: _ => if is_blank y then [x] :: words s' else match words s' with w :: ws => (x :: w) :: ws | [] => [[x]] end
      | [] => [[x]]
      end
  end.
Definition lines (s : list Z) : nat := length (filter (λ x, x = 10) s).
Definition starts_word (s : list Z) : bool := match s with x :: _ => negb (is_blank x) | [] => false end.

Lemma words_count x s :
  length (words (x :: s)) = if is_blank x then length (words s) else if starts_word s then length (words s) else S (length (words s)).
Proof.
  cbn [words]. destruct (is_blank x); [done|]. destruct s as [|y s]; [done|]. cbn [starts_word]. destruct (is_blank y) eqn:E; [done|]. cbn [negb].
  destruct (words (y :: s)) as [|w ws] eqn:Ew; [|done]. exfalso. cbn [words] in Ew. rewrite E in Ew.
  destruct s as [|z s]; [done|]. destruct (is_blank z); [done|]. by destruct (words (z :: s)).
Qed.
(** wc over bytes counts words as they begin. *)
Lemma wc_bytes s : ∀ st, 0 ≤ wc_l st → 0 ≤ wc_w st → 0 ≤ wc_c st →
  wc_l st + Z.of_nat (length s) < 2 ^ 31 → wc_w st + Z.of_nat (length s) < 2 ^ 31 → wc_c st + Z.of_nat (length s) < 2 ^ 31 →
  foldl wc_byte st s =
  mkCounts (wc_l st + Z.of_nat (lines s)) (wc_w st + Z.of_nat (length (words s)) - (if inword st && starts_word s then 1 else 0))
    (wc_c st + Z.of_nat (length s)) (match last s with Some x => negb (is_blank x) | None => inword st end).
Proof.
  induction s as [|x s IH]; intros st Hl Hw Hc Hl' Hw' Hc'; cbn [foldl length] in *.
  { rewrite andb_false_r. destruct st. cbn. f_equal; lia. }
  assert (lines (x :: s) = if x =? 10 then S (lines s) else lines s) as El.
  { unfold lines. rewrite filter_cons. destruct (Z.eqb_spec x 10); [by rewrite decide_True|by rewrite decide_False]. }
  assert (∀ y, match last (x :: s) with Some x => negb (is_blank x) | None => y end =
               match last s with Some x => negb (is_blank x) | None => negb (is_blank x) end) as Elast.
  { intros y. destruct s as [|z s]; [done|]. change (last (x :: z :: s)) with (last (z :: s)). destruct (last (z :: s)) eqn:E; [done|].
    by apply last_None in E. }
  rewrite words_count, El. cbn [starts_word]. unfold wc_byte at 2. rewrite !i32_small by lia.
  destruct (is_blank x) eqn:Eb; cbn [negb]; rewrite ?andb_false_r, ?andb_true_r.
  - rewrite IH; cbn [wc_l wc_w wc_c inword andb]; [|destruct (x =? 10); lia..]. rewrite Elast.
    f_equal; destruct (x =? 10); lia.
  - destruct (inword st) eqn:Ei; cbn [negb andb].
    + rewrite IH; cbn [wc_l wc_w wc_c inword]; [|destruct (x =? 10); lia..]. rewrite Elast, ?Ei. cbn [andb].
      f_equal; destruct (x =? 10), (starts_word s); lia.
    + rewrite IH; cbn [wc_l wc_w wc_c inword andb]; [|destruct (x =? 10); lia..]. rewrite Elast.
      f_equal; destruct (x =? 10), (starts_word s); lia.
Qed.
Definition dec (n : nat) : list Z := default [] (printint (Z.of_nat n) 10 true).
(** The line that wc should print for the contents [s] of a file. *)
Definition wc_line (s name : list Z) : list Z :=
  dec (lines s) ++ [32] ++ dec (length (words s)) ++ [32] ++ dec (length s) ++ [32] ++ name ++ NL.
Definition readable (r : stream) : Prop := broken_read r = false ∧ Z.of_nat (length (concat (chunks r))) < 2 ^ 31.
Lemma foldl_chunks (f : counts → Z → counts) l s : foldl (λ s chunk, foldl f s chunk) s l = foldl f s (concat l).
Proof. revert s. induction l as [|d l IH]; intros s; cbn; [done|]. by rewrite foldl_app, IH. Qed.
Lemma words_le s : (length (words s) ≤ length s)%nat.
Proof. induction s as [|x s IH]; [done|]. rewrite words_count. cbn [length]. destruct (is_blank x); [|destruct (starts_word s)]; lia. Qed.
Lemma lines_le s : (lines s ≤ length s)%nat.
Proof. apply length_filter. Qed.
Lemma dec_run n : Z.of_nat n < 2 ^ 31 → printint (i32 (u32 (Z.of_nat n))) 10 true = Some (dec n).
Proof.
  intros Hn. rewrite i32_u32, i32_small by lia. destruct (printint_correct (Z.of_nat n) ltac:(lia)) as [(s & Hs & _) _]. unfold dec. by rewrite Hs.
Qed.
Lemma render_dec st ps n args :
  Z.of_nat n < 2 ^ 31 → render st (Directive 100 :: ps) (u32 (Z.of_nat n) :: args) = app (dec n) <$> render st ps args.
Proof.
  intros Hn. cbn [render]. assert (directive st 100 (u32 (Z.of_nat n) :: args) = Some (dec n, args)) as ->.
  { unfold directive. change (100 =? 100) with true. cbv iota. by rewrite dec_run. }
  cbn. by destruct (render st ps args).
Qed.
Lemma render_plain st c ps args : render st (Plain c :: ps) args = cons c <$> render st ps args.
Proof. cbn. by destruct (render st ps args). Qed.
Lemma wc_run r name o : readable r → wc r name o = Ok true (o ++ wc_line (concat (chunks r)) name).
Proof.
  intros [Hb Hn]. unfold wc. rewrite Hb. unfold wc_count. rewrite foldl_chunks, wc_bytes; cbn [wc_l wc_w wc_c inword andb]; [|lia..].
  set (s := concat (chunks r)) in *. pose proof (words_le s). pose proof (lines_le s). rewrite !Z.add_0_l, Z.sub_0_r.
  unfold printf1. rewrite printf_renders.
  change (pieces (text "%d %d %d %s" ++ NL)) with
    [Directive 100; Plain 32; Directive 100; Plain 32; Directive 100; Plain 32; Directive 115; Plain 10].
  rewrite render_dec, render_plain, render_dec, render_plain, render_dec, render_plain by lia.
  cbn -[dec wc_line]. unfold mbind, M_bind, emit, modify, mret, M_ret. f_equal.
Qed.

Section theorems.
Context (open : list Z → option stream) (can_write : list Z → list Z → bool).
Definition opens (a : list Z) (r : stream) : Prop := open a = Some r ∧ readable r.
Lemma wc_files_run args rs o :
  Forall2 opens args rs → wc_files open args o = Ok false (o ++ concat (zip_with (λ a r, wc_line (concat (chunks r)) a) args rs)).
Proof.
  intros HF. revert o. induction HF as [|a r args rs [Ho Hr] _ IH]; intros o; [by rewrite app_nil_r|]. cbn [wc_files]. rewrite Ho.
  rewrite (bind_run _ _ _ _ _ (wc_run r a o Hr)), IH. cbn. by rewrite <- app_assoc.
Qed.
(** cat copies its files one after the other. *)
Theorem cat_concatenates args rs o :
  (∀ o d, can_write o d = true) → Forall2 opens args rs → args ≠ [] →
  cat_main open can_write (mkStream [] false) args o = Ok false (o ++ concat ((λ r, concat (chunks r)) <$> rs)).
Proof.
  intros Hw HF Hne. assert (∀ l o, cat_loop can_write l o = Ok true (o ++ concat l)) as Hloop.
  { induction l as [|d l IH]; intros o'; cbn [cat_loop]; [by rewrite app_nil_r|]. rewrite (bind_run get _ o' o' o' eq_refl), Hw.
    rewrite (bind_run (emit d) _ tt o' (o' ++ d) eq_refl), IH. cbn. by rewrite <- app_assoc. }
  assert (∀ o, cat_files open can_write args o = Ok false (o ++ concat ((λ r, concat (chunks r)) <$> rs))) as Hall; [|destruct args; [done|apply Hall]].
  clear Hne o. induction HF as [|a r args rs [Ho [Hb _]] _ IH]; intros o; [by rewrite app_nil_r|]. cbn [cat_files]. rewrite Ho.
  assert (cat can_write r o = Ok true (o ++ concat (chunks r))) as Hc by (unfold cat; rewrite (bind_run _ _ _ _ _ (Hloop _ _)); by rewrite Hb).
  rewrite (bind_run _ _ _ _ _ Hc), IH. cbn. by rewrite <- app_assoc.
Qed.
End theorems.
(** grep on several files, where every read delivers whole lines: the matching lines of all files in order. *)
Theorem grep_main_files open pattern a args (files : list (list (list (list Z)))) stdin o :
  Forall2 (λ a f, open a = Some (mkStream (Grep.joined <$> f) false) ∧
                  Forall (λ g, g ≠ [] ∧ Forall Grep.plain g ∧ (length (Grep.joined g) ≤ Grep.BUFLEN)%nat) f) (a :: args) files →
  grep_main open stdin (pattern :: a :: args) o =
  Ok tt (o ++ Grep.joined (filter (λ l, Grep.match_ pattern l = true) (concat (concat files)))).
Proof.
  intros HF. unfold grep_main. revert HF. generalize (a :: args). clear a args. intros args HF. revert o.
  induction HF as [|a f args files [Ho Hf] _ IH]; intros o; cbn [grep_files concat]; [by rewrite app_nil_r|]. rewrite Ho. cbn [chunks].
  assert (Grep.grep pattern (Grep.joined <$> f) = Grep.joined (filter (λ l, Grep.match_ pattern l = true) (concat f))) as -> by (by apply Grep.grep_prints_matching_lines).
  unfold emit, modify, mbind, M_bind. rewrite IH. by rewrite concat_app, filter_app, Grep.joined_app, app_assoc.
Qed.
(** echo prints its arguments with blanks between them and a newline at the end. *)
Theorem echo_joins a args o : echo (a :: args) o = Ok tt (o ++ a ++ concat (cons 32 <$> args) ++ NL).
Proof.
  assert (∀ b sep o, printf1 (text "%s%s") [1; 2] [b; sep] o = Ok tt (o ++ b ++ sep)) as Hp.
  { intros b sep o'. unfold printf1. rewrite printf_renders. change (pieces (text "%s%s")) with [Directive 115; Directive 115].
    assert (render (λ a, [b; sep] !! Z.to_nat (a - 1)) [Directive 115; Directive 115] [1; 2] = Some (b ++ sep ++ [])) as -> by reflexivity.
    by rewrite app_nil_r. }
  revert a o. induction args as [|b args IH]; intros a o.
  - cbn [echo]. by rewrite (bind_run _ _ _ _ _ (Hp _ _ _)).
  - change (echo (a :: b :: args)) with (printf1 (text "%s%s") [1; 2] [a; [32]] ;; echo (b :: args)).
    rewrite (bind_run _ _ _ _ _ (Hp _ _ _)), IH. cbn. rewrite <- !app_assoc. by cbn.
Qed.
(** fmtname is the last component of the path, padded with blanks to [DIRSIZ] characters. *)
Lemma slash_loop_at d n : 47 ∉ n → ∀ k, (k ≤ length n)%nat → slash_loop (d ++ 47 :: n) (length d + k) = S (length d).
Proof.
  intros Hn. induction k as [|k IH]; intros Hk.
  - rewrite Nat.add_0_r. destruct d as [|x d]; [done|]. cbn [slash_loop length].
    rewrite bool_decide_eq_true_2; [done|]. change (S (length d)) with (length (x :: d)). by rewrite lookup_app_r, Nat.sub_diag.
  - rewrite Nat.add_succ_r. cbn [slash_loop]. rewrite bool_decide_eq_false_2; [apply IH; lia|].
    rewrite lookup_app_r by lia. replace (S (length d + k) - length d)%nat with (S k) by lia. cbn. intros Hs. by apply Hn, (list_elem_of_lookup_2 _ k).
Qed.
Lemma slash_loop_none n k : 47 ∉ n → slash_loop n k = 0%nat.
Proof.
  intros Hn. induction k as [|k IH]; cbn [slash_loop]; (rewrite bool_decide_eq_false_2; [done|intros Hs; by apply Hn, (list_elem_of_lookup_2 _ _ _ Hs)]).
Qed.
Theorem fmtname_last d n :
  47 ∉ n → let out := n ++ replicate (DIRSIZ - length n) 32 in fmtname n = out ∧ fmtname (d ++ 47 :: n) = out.
Proof.
  intros Hn out. assert (∀ p, p = n → (if (DIRSIZ <=? length p)%nat then p else p ++ replicate (DIRSIZ - length p) 32) = out) as Hout.
  { intros p ->. unfold out. destruct (Nat.leb_spec DIRSIZ (length n)); [|done]. replace (DIRSIZ - length n)%nat with 0%nat by lia. by rewrite app_nil_r. }
  split; unfold fmtname.
  - apply Hout. by rewrite slash_loop_none, drop_0.
  - apply Hout. replace (length (d ++ 47 :: n)) with (length d + S (length n))%nat by (rewrite length_app; done).
    assert (slash_loop (d ++ 47 :: n) (length d + S (length n)) = S (length d)) as ->.
    { rewrite Nat.add_succ_r. cbn [slash_loop]. rewrite bool_decide_eq_false_2; [by apply slash_loop_at|].
      rewrite lookup_ge_None_2; [done|]. rewrite length_app. cbn. lia. }
    rewrite drop_app_ge by lia. replace (S (length d) - length d)%nat with 1%nat by lia. done.
Qed.

(** C37: wc prints for every file, in order, the number of its lines, words and characters and its name, however read() cuts
    the file into pieces: its state machine counts the maximal sequences of characters that are not blank. *)
Theorem wc_correct open args rs stdin o :
  Forall2 (opens open) args rs → readable stdin →
  wc_main open stdin args o =
  Ok false (o ++ if decide (args = []) then wc_line (concat (chunks stdin)) []
                 else concat (zip_with (λ a r, wc_line (concat (chunks r)) a) args rs)).
Proof.
  intros HF Hs. destruct args as [|a args]; [|by apply wc_files_run]. unfold wc_main. by rewrite (bind_run _ _ _ _ _ (wc_run stdin [] o Hs)).
Qed.
Lemma wc_correct_witness :
  wc_main (λ _, Some (mkStream [text "one tw"; text "o" ++ NL] false)) (mkStream [] false) [text "f"] [] =
  Ok false (text "1 2 8 f" ++ NL).
Proof.
  rewrite (wc_correct (λ _, Some (mkStream [text "one tw"; text "o" ++ NL] false)) [text "f"] [mkStream [text "one tw"; text "o" ++ NL] false]).
  - vm_compute. reflexivity.
  - constructor; [|constructor]. split; [reflexivity|]. split; [reflexivity|vm_compute; reflexivity].
  - split; [reflexivity|vm_compute; reflexivity].
Defined.
