(* ===== verification/Sh.v ===== *)
(** * The shell's parser (sh.c)

    The command line is the list of its non-zero characters, pointers into it
    are indices, and [es] is its length.  A parsed command keeps, as the C code
    does, the pair of pointers that delimit each word; nulterminate then cuts the
    words out of the line in place.  The recursive-descent functions carry fuel;
    [Spin] is the outcome of running out of it. *)

From S2P Require Import Prelude CStr.

Definition whitespace : list Z := [32; 9; 13; 10; 11].
Definition symbols : list Z := [60; 124; 62; 38; 59; 40; 41].
Definition MAXARGS : nat := 10.
Definition O_RDONLY : Z := 0.
Definition O_WRONLY_CREATE : Z := 0x201.

Definition span : Type := nat * nat.
Inductive cmd :=
| Exec (argv : list span)
| Redir (sub : cmd) (file : span) (mode fd : Z)
| Pipe (left right : cmd)
| List (left right : cmd)
| Back (sub : cmd).

(** The type of a token: the code's 0, its own character, '+' or 'a'. *)
Inductive token := TEnd | TSym (c : Z) | TAppend | TWord.
#[global] Instance token_eq_dec : EqDecision token.
Proof. solve_decision. Defined.

Section parser.
Context (line : list Z).
Definition es : nat := length line.
(** [*s]; the terminator is at [es]. *)
Definition char_at (s : nat) : Z := match line !! s with Some c => c | None => 0 end.
Definition is_white (c : Z) : bool := bool_decide (c ∈ whitespace).
Definition is_symbol (c : Z) : bool := bool_decide (c ∈ symbols).

(** [while(s < es && strchr(whitespace, *s)) s++;]; [n] is [es - s]. *)
Fixpoint skip_white (n : nat) (s : nat) : nat :=
  match n with O => s | S n' => if is_white (char_at s) then skip_white n' (S s) else s end.
Fixpoint skip_word (n : nat) (s : nat) : nat :=
  match n with
  | O => s
  | S n' => if negb (is_white (char_at s)) && negb (is_symbol (char_at s)) then skip_word n' (S s) else s
  end.

(** gettoken: the token, its span, and the new [*ps]. *)
Definition gettoken (ps : nat) : token * span * nat :=
  let s := skip_white (es - ps) ps in
  let '(ret, s') :=
    let c := char_at s in
    if c =? 0 then (TEnd, s)
    else if c =? 62 then if char_at (S s) =? 62 then (TAppend, S (S s)) else (TSym 62, S s)
    else if bool_decide (c ∈ [124; 40; 41; 59; 38; 60]) then (TSym c, S s)
    else (TWord, skip_word (es - s) s) in
  (ret, (s, s'), skip_white (es - s') s').

(** peek *)
Definition peek (toks : list Z) (ps : nat) : bool * nat :=
  let s := skip_white (es - ps) ps in
  (negb (char_at s =? 0) && bool_decide (char_at s ∈ toks), s).

(** The parser's state is [*ps]. *)
Abbreviation P := (M nat).
Definition peek_m (toks : list Z) : P bool := λ ps, let '(b, ps') := peek toks ps in Ok b ps'.
Definition gettoken_m : P (token * span) := λ ps, let '(t, sp, ps') := gettoken ps in Ok (t, sp) ps'.

(** parseredirs; the redirections in the order they are read. *)
Definition redir : Type := span * Z * Z.
Definition redircmd (c : cmd) (r : redir) : cmd := let '(sp, mode, fd) := r in Redir c sp mode fd.
Fixpoint parseredirs (fuel : nat) : P (list redir) :=
  match fuel with
  | O => spin
  | S f =>
      b ← peek_m [60; 62];
      if negb b then mret [] else
      '(tok, _) ← gettoken_m;
      '(t, sp) ← gettoken_m;
      if negb (bool_decide (t = TWord)) then panic "missing file for redirection" else
      rest ← parseredirs f;
      mret (match tok with
            | TSym c => if c =? 60 then [(sp, O_RDONLY, 0)] else if c =? 62 then [(sp, O_WRONLY_CREATE, 1)] else []
            | TAppend => [(sp, O_WRONLY_CREATE, 1)]
            | _ => []
            end ++ rest)
  end.

(** parseexec's loop: words go to the execcmd, redirections wrap what [ret]
    points to, so that the last one is outermost. *)
Fixpoint parse_args (fuel : nat) (argc : nat) : P (list span * list redir) :=
  match fuel with
  | O => spin
  | S f =>
      b ← peek_m [124; 41; 38; 59];
      if (b : bool) then mret ([], []) else
      '(tok, sp) ← gettoken_m;
      if bool_decide (tok = TEnd) then mret ([], []) else
      if negb (bool_decide (tok = TWord)) then panic "syntax" else
      if (MAXARGS <=? S argc)%nat then panic "too many args" else
      rs ← parseredirs (S (es));
      '(args, rs') ← parse_args f (S argc);
      mret (sp :: args, rs ++ rs')
  end.
Definition parse_simple : P cmd :=
  rs ← parseredirs (S es);
  '(args, rs') ← parse_args (S es) 0;
  mret (foldl redircmd (Exec args) (rs ++ rs')).

(** parseline's loop over '&'. *)
Fixpoint parse_backs (fuel : nat) (c : cmd) : P cmd :=
  match fuel with
  | O => spin
  | S f =>
      b ← peek_m [38];
      if (b : bool) then gettoken_m ;; parse_backs f (Back c) else mret c
  end.

(** parseline, parsepipe, parseblock and parseexec *)
Fixpoint parseline (fuel : nat) : P cmd :=
  match fuel with
  | O => spin
  | S f =>
      c ← parsepipe f;
      c ← parse_backs (S es) c;
      b ← peek_m [59];
      if (b : bool) then gettoken_m ;; r ← parseline f; mret (List c r) else mret c
  end
with parsepipe (fuel : nat) : P cmd :=
  match fuel with
  | O => spin
  | S f =>
      c ← parseexec f;
      b ← peek_m [124];
      if (b : bool) then gettoken_m ;; r ← parsepipe f; mret (Pipe c r) else mret c
  end
with parseblock (fuel : nat) : P cmd :=
  match fuel with
  | O => spin
  | S f =>
      b ← peek_m [40];
      if negb b then panic "parseblock" else
      gettoken_m ;;
      c ← parseline f;
      b ← peek_m [41];
      if negb b then panic "syntax - missing )" else
      gettoken_m ;;
      rs ← parseredirs (S es);
      mret (foldl redircmd c rs)
  end
with parseexec (fuel : nat) : P cmd :=
  match fuel with
  | O => spin
  | S f =>
      b ← peek_m [40];
      if (b : bool) then parseblock f else parse_simple
  end.
End parser.

(** nulterminate, on the buffer that holds the line and its terminator. *)
Fixpoint nulterminate (c : cmd) (buf : list Z) : list Z :=
  match c with
  | Exec argv => foldl (λ b '(_, e), <[e := 0]> b) buf argv
  | Redir sub (_, e) _ _ => <[e := 0]> (nulterminate sub buf)
  | Pipe l r | List l r => nulterminate r (nulterminate l buf)
  | Back sub => nulterminate sub buf
  end.

(** parsecmd: the command and the buffer afterwards. *)
Definition parse_fuel (line : list Z) : nat := 4 * length line + 8.
Definition parsecmd (line : list Z) : outcome unit (cmd * list Z) :=
  match (c ← parseline line (parse_fuel line); peek_m line [] ;; mret c) 0%nat with
  | Ok c s =>
      if (s =? es line)%nat then Ok (c, nulterminate c (line ++ [0])) tt else Panic "syntax"
  | Panic e => Panic e
  | Undef e => Undef e
  | Spin => Spin
  end.

(** What parsecmd prints before its own panic: the rest of the line, if the command ends before it. *)
Definition leftovers (line : list Z) : option (list Z) :=
  match (c ← parseline line (parse_fuel line); peek_m line [] ;; mret c) 0%nat with
  | Ok _ s => if (s =? es line)%nat then None else Some (drop s line)
  | _ => None
  end.

Example parse_example :
  parsecmd [97; 32; 98; 32; 62; 32; 99; 32; 124; 32; 100; 10] =
  Ok (Pipe (Redir (Exec [(0, 1); (2, 3)]%nat) (6, 7)%nat O_WRONLY_CREATE 1) (Exec [(10, 11)]%nat),
      [97; 0; 98; 0; 62; 32; 99; 0; 124; 32; 100; 0; 0]) tt.
Proof. by vm_compute. Qed.

(** ** Positions and words *)
Section words.
Context (line : list Z) (Hline : Forall (λ c, c ≠ 0) line).
Abbreviation es := (es line).
Abbreviation char_at := (char_at line).

Definition word_char (c : Z) : Prop := c ≠ 0 ∧ is_white c = false ∧ is_symbol c = false.
(** A span is a word: not empty, made of word characters, and not followed by one. *)
Definition word_span (sp : span) : Prop :=
  (sp.1 < sp.2 ≤ es)%nat ∧ (∀ i, (sp.1 ≤ i < sp.2)%nat → word_char (char_at i)) ∧
  ¬ word_char (char_at sp.2).

Lemma char_at_lt i : (i < es)%nat → char_at i ≠ 0.
Proof.
  intros Hi. unfold Sh.char_at. destruct (line !! i) as [c|] eqn:E.
  - by eapply (Forall_lookup_1 _ _ _ _ Hline).
  - apply lookup_ge_None in E. unfold Sh.es in Hi. lia.
Qed.
Lemma char_at_ge i : (es ≤ i)%nat → char_at i = 0.
Proof. intros Hi. unfold Sh.char_at. by rewrite lookup_ge_None_2. Qed.
Lemma char_at_zero i : char_at i = 0 → (es ≤ i)%nat.
Proof. intros H. destruct (decide (es ≤ i)%nat); [done|]. by destruct (char_at_lt i); [lia|]. Qed.

Lemma skip_white_spec n s :
  (s + n = es)%nat →
  (s ≤ skip_white line n s ≤ es)%nat ∧ is_white (char_at (skip_white line n s)) = false.
Proof.
  revert s. induction n as [|n IH]; intros s Hs; simpl.
  - split; [lia|]. by rewrite char_at_ge by lia.
  - destruct (is_white (char_at s)) eqn:E; [|split; [lia|done]].
    destruct (IH (S s)) as [? ?]; [lia|]. split; [lia|done].
Qed.
Lemma skip_word_spec n s :
  (s + n = es)%nat →
  (s ≤ skip_word line n s ≤ es)%nat ∧
  (∀ i, (s ≤ i < skip_word line n s)%nat → word_char (char_at i)) ∧
  ¬ word_char (char_at (skip_word line n s)).
Proof.
  revert s. induction n as [|n IH]; intros s Hs; simpl.
  - split; [lia|]. split; [lia|]. rewrite char_at_ge by lia. by intros [? _].
  - destruct (is_white (char_at s)) eqn:Ew; simpl.
    { split; [lia|]. split; [lia|]. intros (_ & ? & _). congruence. }
    destruct (is_symbol (char_at s)) eqn:Es; simpl.
    { split; [lia|]. split; [lia|]. intros (_ & _ & ?). congruence. }
    destruct (IH (S s)) as (? & Hw & ?); [lia|]. split; [lia|]. split; [|done].
    intros i Hi. destruct (decide (i = s)) as [->|]; [|apply Hw; lia].
    split; [|done]. apply char_at_lt. lia.
Qed.

(** A character that is neither white, nor the end, nor one of the characters
    gettoken switches on, starts a word. *)
Lemma other_is_word c :
  c ≠ 0 → is_white c = false → c ≠ 62 → c ∉ [124; 40; 41; 59; 38; 60] → word_char c.
Proof.
  intros H0 Hw H62 Ho. split; [done|]. split; [done|]. apply bool_decide_eq_false.
  intros Hs. repeat (apply elem_of_cons in Hs as [->|Hs]; [done || (apply Ho; set_solver)|]). by apply elem_of_nil in Hs.
Qed.

Lemma gettoken_spec ps :
  (ps ≤ es)%nat →
  let '(t, sp, ps') := gettoken line ps in
  (ps ≤ ps' ≤ es)%nat ∧ (t ≠ TEnd → (ps < ps')%nat) ∧ (t = TWord → word_span sp).
Proof.
  intros Hps. unfold gettoken.
  destruct (skip_white_spec (es - ps) ps) as [Hs Hw]; [lia|].
  set (s := skip_white line (es - ps) ps) in *.
  assert (∀ s', (s' ≤ es)%nat → (s' ≤ skip_white line (es - s') s' ≤ es)%nat) as Hskip.
  { intros s' ?. apply skip_white_spec. lia. }
  destruct (Z.eqb_spec (char_at s) 0) as [E0|E0].
  { split; [specialize (Hskip s); lia|done]. }
  assert (s < es)%nat as Hlt.
  { destruct (decide (s < es)%nat); [done|]. by rewrite char_at_ge in E0 by lia. }
  destruct (Z.eqb_spec (char_at s) 62) as [E62|E62].
  { destruct (Z.eqb_spec (char_at (S s)) 62) as [E2|E2].
    - assert (S s < es)%nat.
      { destruct (decide (S s < es)%nat); [done|]. by rewrite char_at_ge in E2 by lia. }
      specialize (Hskip (S (S s))). split; [lia|]. split; [lia|done].
    - specialize (Hskip (S s)). split; [lia|]. split; [lia|done]. }
  case_bool_decide as Ho.
  { specialize (Hskip (S s)). split; [lia|]. split; [lia|done]. }
  destruct (skip_word_spec (es - s) s) as (Hr & Hc & He); [lia|].
  set (s' := skip_word line (es - s) s) in *.
  assert (s ≠ s') as Hne.
  { intros Heq. apply He. rewrite <- Heq. by apply other_is_word. }
  specialize (Hskip s'). split; [lia|]. split; [lia|]. intros _.
  split; simpl; [lia|done].
Qed.
Lemma peek_spec toks ps :
  (ps ≤ es)%nat →
  let '(b, ps') := peek line toks ps in
  (ps ≤ ps' ≤ es)%nat ∧ (b = true → (ps' < es)%nat ∧ is_white (char_at ps') = false).
Proof.
  intros Hps. unfold peek. destruct (skip_white_spec (es - ps) ps) as [Hs Hw]; [lia|].
  split; [lia|]. intros [Hz _]%andb_true_iff. apply negb_true_iff, Z.eqb_neq in Hz.
  destruct (decide (skip_white line (es - ps) ps < es)%nat); [done|]. by rewrite char_at_ge in Hz by lia.
Qed.
Lemma gettoken_end ps : (ps ≤ es)%nat → (gettoken line ps).1.1 = TEnd → skip_white line (es - ps) ps = es.
Proof.
  intros Hps. unfold gettoken. destruct (skip_white_spec (es - ps) ps) as [Hs Hw]; [lia|].
  set (s := skip_white line (es - ps) ps) in *.
  destruct (Z.eqb_spec (char_at s) 0) as [E0|E0].
  - intros _. apply char_at_zero in E0. lia.
  - destruct (_ =? 62); [by destruct (_ =? 62)|]. by case_bool_decide.
Qed.
Lemma skip_white_self s : is_white (char_at s) = false → ∀ n, skip_white line n s = s.
Proof. intros H [|n]; simpl; [done|]. by rewrite H. Qed.
Lemma gettoken_progress ps :
  (ps < es)%nat → is_white (char_at ps) = false → (ps < (gettoken line ps).2)%nat.
Proof.
  intros Hps Hw. pose proof (gettoken_spec ps ltac:(lia)) as Hg. pose proof (gettoken_end ps ltac:(lia)) as He.
  destruct (gettoken line ps) as [[t sp] ps']. simpl in *. destruct Hg as (_ & Hp & _).
  apply Hp. intros ->. specialize (He eq_refl). rewrite skip_white_self in He by done. lia.
Qed.

(** *** What the parser's functions ensure

    [pwp m Q ps]: from [*ps = ps] the function [m] returns with [Q], or reports
    a syntax error; it does not run out of fuel. *)
Definition pwp {A} (m : M nat A) (Q : A → nat → Prop) (ps : nat) : Prop :=
  match m ps with Ok a ps' => Q a ps' | Panic _ => True | _ => False end.

Lemma pwp_ret {A} (a : A) (Q : A → nat → Prop) ps : Q a ps → pwp (mret a) Q ps.
Proof. done. Qed.
Lemma pwp_bind {A B} (m : M nat A) (f : A → M nat B) Q ps :
  pwp m (λ a ps', pwp (f a) Q ps') ps → pwp (m ≫= f) Q ps.
Proof. unfold pwp, mbind, M_bind. by destruct (m ps). Qed.
Lemma pwp_mono {A} (m : M nat A) (Q Q' : A → nat → Prop) ps :
  pwp m Q ps → (∀ a ps', Q a ps' → Q' a ps') → pwp m Q' ps.
Proof. unfold pwp. destruct (m ps); auto. Qed.

Lemma pwp_peek toks (Q : bool → nat → Prop) ps :
  (ps ≤ es)%nat →
  (∀ b ps', (ps ≤ ps' ≤ es)%nat → (b = true → (ps' < es)%nat ∧ is_white (char_at ps') = false) → Q b ps') →
  pwp (peek_m line toks) Q ps.
Proof.
  intros Hps HQ. unfold pwp, peek_m. pose proof (peek_spec toks ps Hps) as Hp.
  destruct (peek line toks ps) as [b ps']. destruct Hp. by apply HQ.
Qed.
Lemma pwp_gettoken (Q : token * span → nat → Prop) ps :
  (ps ≤ es)%nat →
  (∀ t sp ps', (ps ≤ ps' ≤ es)%nat → (t ≠ TEnd → (ps < ps')%nat) → (t = TWord → word_span sp) →
    ((ps < es)%nat → is_white (char_at ps) = false → (ps < ps')%nat) → Q (t, sp) ps') →
  pwp (gettoken_m line) Q ps.
Proof.
  intros Hps HQ. unfold pwp, gettoken_m. pose proof (gettoken_spec ps Hps) as Hg.
  pose proof (gettoken_progress ps) as Hp.
  destruct (gettoken line ps) as [[t sp] ps']. destruct Hg as (? & ? & ?). by apply HQ.
Qed.

(** Every word of the command is a word of the line, no command has more
    than [MAXARGS - 1] arguments, and redirections are of descriptors 0 and 1. *)
Definition redir_ok (r : redir) : Prop := word_span r.1.1 ∧ (r.2 = 0 ∨ r.2 = 1).
Fixpoint cmd_ok (c : cmd) : Prop :=
  match c with
  | Exec argv => Forall word_span argv ∧ (length argv < MAXARGS)%nat
  | Redir sub f _ fd => word_span f ∧ (fd = 0 ∨ fd = 1) ∧ cmd_ok sub
  | Pipe l r | List l r => cmd_ok l ∧ cmd_ok r
  | Back sub => cmd_ok sub
  end.
Lemma redirs_ok c rs : cmd_ok c → Forall redir_ok rs → cmd_ok (foldl redircmd c rs).
Proof.
  revert c. induction rs as [|[[sp m] fd] rs IH]; intros c Hc Hrs; simpl; [done|].
  apply Forall_cons in Hrs as [[? ?] ?]. apply IH; [|done]. by split.
Qed.

(** Walk through a parser function; the arithmetic of positions is left to lia. *)
Ltac pstep :=
  lazymatch goal with
  | |- pwp (_ ≫= _) _ _ => apply pwp_bind
  | |- pwp (mret _) _ _ => apply pwp_ret
  | |- pwp (panic _) _ _ => exact I
  | |- pwp (peek_m _ _) _ _ => apply pwp_peek; [lia|intros ? ? ? ?]
  | |- pwp (gettoken_m _) _ _ => apply pwp_gettoken; [lia|intros ? ? ? ? ? ? ?]
  | |- pwp (if negb ?b then _ else _) _ _ => destruct b eqn:?; simpl
  | |- pwp (if ?b then _ else _) _ _ => destruct b eqn:?; simpl
  | |- pwp (let '(_, _) := ?p in _) _ _ => destruct p; simpl
  end.

Lemma parseredirs_spec f ps :
  (ps ≤ es)%nat → (es - ps < f)%nat →
  pwp (parseredirs line f) (λ rs ps', (ps ≤ ps' ≤ es)%nat ∧ Forall redir_ok rs) ps.
Proof.
  revert ps. induction f as [|f IH]; intros ps Hps Hf; [lia|]. simpl.
  pstep. pstep. destruct b; simpl; [|pstep; split; [lia|done]].
  destruct H0 as [? ?]; [done|]. repeat pstep.
  assert (ps' < ps'0)%nat by auto. apply bool_decide_eq_true in Heqb. subst.
  eapply pwp_mono; [apply IH; lia|]. intros rs ps2 [? ?]. pstep. split; [lia|].
  apply Forall_app. split; [|done].
  assert (word_span sp0) by auto.
  destruct t as [|c| |]; repeat case_match; constructor; first [by constructor|split; [done|by (left + right)]].
Qed.
#[local] Arguments parseredirs : simpl never.
#[local] Arguments MAXARGS : simpl never.
#[local] Arguments Nat.leb : simpl never.
Lemma parse_args_spec f argc ps :
  (ps ≤ es)%nat → (es - ps < f)%nat → (argc < MAXARGS)%nat →
  pwp (parse_args line f argc)
    (λ '(args, rs) ps', (ps ≤ ps' ≤ es)%nat ∧ Forall word_span args ∧ Forall redir_ok rs ∧
                        (argc + length args < MAXARGS)%nat) ps.
Proof.
  revert argc ps. induction f as [|f IH]; intros argc ps Hps Hf Ha; [lia|]. simpl.
  do 2 pstep. pstep; [pstep; simpl; repeat split; [lia..|done|done|lia]|].
  repeat pstep; [simpl; repeat split; [lia..|done|done|lia]|].
  apply bool_decide_eq_false in Heqb1. apply bool_decide_eq_true in Heqb2. apply Nat.leb_gt in Heqb3.
  eapply pwp_mono; [apply parseredirs_spec; lia|]. intros rs ps2 [? Hrs]. pstep.
  assert (ps' < ps'0)%nat by auto.
  eapply pwp_mono; [apply (IH (S argc)); lia|]. intros [args rs'] ps3 (? & ? & ? & ?). pstep.
  split; [lia|]. split; [constructor; auto|]. split; [by apply Forall_app|]. simpl. lia.
Qed.
#[local] Arguments parse_args : simpl never.
Definition pspec (m : M nat cmd) (ps : nat) : Prop :=
  pwp m (λ c ps', (ps ≤ ps' ≤ es)%nat ∧ cmd_ok c) ps.

Lemma parse_simple_spec ps : (ps ≤ es)%nat → pspec (parse_simple line) ps.
Proof.
  intros Hps. unfold pspec, parse_simple. pstep.
  eapply pwp_mono; [apply parseredirs_spec; lia|]. intros rs ps1 [? ?]. pstep.
  eapply pwp_mono; [apply (parse_args_spec _ 0); unfold MAXARGS; lia|].
  intros [args rs'] ps2 (? & ? & ? & ?). pstep. split; [lia|].
  apply redirs_ok; [by split|]. by apply Forall_app.
Qed.
Lemma parse_backs_spec f c ps :
  (ps ≤ es)%nat → (es - ps < f)%nat → cmd_ok c → pspec (parse_backs line f c) ps.
Proof.
  unfold pspec. revert c ps. induction f as [|f IH]; intros c ps Hps Hf Hc; [lia|]. simpl.
  do 2 pstep. pstep; [|pstep; split; [lia|done]]. destruct H0 as [? ?]; [done|].
  do 2 pstep. assert (ps' < ps'0)%nat by auto.
  eapply pwp_mono; [apply (IH (Back c)); [lia..|done]|]. intros ? ? [? ?]. split; [lia|done].
Qed.

#[local] Arguments parse_backs : simpl never.
(** A nested call is made only after a token was consumed, so that four units of
    fuel for each character are enough. *)
Lemma parse_spec f ps :
  (ps ≤ es)%nat →
  ((4 * (es - ps) + 4 ≤ f)%nat → pspec (parseline line f) ps) ∧
  ((4 * (es - ps) + 3 ≤ f)%nat → pspec (parsepipe line f) ps) ∧
  ((4 * (es - ps) + 1 ≤ f)%nat → pspec (parseblock line f) ps) ∧
  ((4 * (es - ps) + 2 ≤ f)%nat → pspec (parseexec line f) ps).
Proof.
  revert ps. induction f as [|f IH]; intros ps Hps; [repeat split; intros; lia|].
  unfold pspec in *. split; [|split; [|split]]; intros Hf; simpl.
  - pstep. eapply pwp_mono; [apply (IH ps Hps); lia|]. intros c ps1 [? ?]. pstep.
    eapply pwp_mono; [apply parse_backs_spec; [lia..|done]|]. intros c' ps2 [? ?].
    do 2 pstep. pstep; [|pstep; split; [lia|done]]. destruct H4 as [? ?]; [done|].
    do 2 pstep. assert (ps' < ps'0)%nat by auto. pstep.
    eapply pwp_mono; [apply (IH ps'0); lia|]. intros r ps3 [? ?]. pstep. split; [lia|done].
  - pstep. eapply pwp_mono; [apply (IH ps Hps); lia|]. intros c ps1 [? ?].
    do 2 pstep. pstep; [|pstep; split; [lia|done]]. destruct H2 as [? ?]; [done|].
    do 2 pstep. assert (ps' < ps'0)%nat by auto. pstep.
    eapply pwp_mono; [apply (IH ps'0); lia|]. intros r ps3 [? ?]. pstep. split; [lia|done].
  - do 2 pstep. pstep; [|pstep]. destruct H0 as [? ?]; [done|].
    do 2 pstep. assert (ps' < ps'0)%nat by auto. pstep.
    eapply pwp_mono; [apply (IH ps'0); lia|]. intros c ps3 [? ?].
    do 2 pstep. pstep; [|pstep]. do 2 pstep. pstep.
    eapply pwp_mono; [apply parseredirs_spec; lia|]. intros rs ps4 [? ?]. pstep. split; [lia|].
    by apply redirs_ok.
  - do 2 pstep. pstep.
    + eapply pwp_mono; [apply (IH ps'); lia|]. intros c ps3 [? ?]. split; [lia|done].
    + eapply pwp_mono; [apply parse_simple_spec; lia|]. intros c ps3 [? ?]. split; [lia|done].
Qed.

(** *** nulterminate *)

(** The words of a command, and where nulterminate writes. *)
Fixpoint cmd_words (c : cmd) : list span :=
  match c with
  | Exec argv => argv
  | Redir sub f _ _ => cmd_words sub ++ [f]
  | Pipe l r | List l r => cmd_words l ++ cmd_words r
  | Back sub => cmd_words sub
  end.
Definition cut (ws : list span) (buf : list Z) : list Z := foldl (λ b '(_, e), <[e := 0]> b) buf ws.
Lemma nulterminate_cut c buf : nulterminate c buf = cut (cmd_words c) buf.
Proof.
  revert buf. unfold cut. induction c as [argv|sub IH [s e] m fd|l IHl r IHr|l IHl r IHr|sub IH]; intros buf; simpl.
  - done.
  - rewrite foldl_app, <- IH. done.
  - by rewrite foldl_app, <- IHl, <- IHr.
  - by rewrite foldl_app, <- IHl, <- IHr.
  - apply IH.
Qed.
Lemma cmd_ok_words c : cmd_ok c → Forall word_span (cmd_words c).
Proof.
  induction c; simpl; intros Hc.
  - apply Hc.
  - destruct Hc as (? & _ & ?). apply Forall_app. auto.
  - destruct Hc. apply Forall_app. auto.
  - destruct Hc. apply Forall_app. auto.
  - auto.
Qed.
Lemma cut_length ws buf : length (cut ws buf) = length buf.
Proof. revert buf. induction ws as [|[s e] ws IH]; intros buf; simpl; [done|]. by rewrite IH, length_insert. Qed.
Lemma cut_zero ws buf i : buf !! i = Some 0 → cut ws buf !! i = Some 0.
Proof.
  revert buf. induction ws as [|[s e] ws IH]; intros buf Hi; simpl; [done|]. apply IH.
  destruct (decide (e = i)) as [->|]; [|by rewrite list_lookup_insert_ne].
  by apply list_lookup_insert_eq, lookup_lt_Some with 0.
Qed.
Lemma cut_end ws buf s e : (s, e) ∈ ws → (e < length buf)%nat → cut ws buf !! e = Some 0.
Proof.
  revert buf. induction ws as [|[s' e'] ws IH]; intros buf Hin He; [by apply elem_of_nil in Hin|].
  simpl. apply elem_of_cons in Hin as [[= -> ->]|Hin].
  - apply cut_zero. by apply list_lookup_insert_eq.
  - apply IH; [done|]. by rewrite length_insert.
Qed.
Lemma cut_other ws buf i : (∀ s, (s, i) ∉ ws) → cut ws buf !! i = buf !! i.
Proof.
  revert buf. induction ws as [|[s' e'] ws IH]; intros buf Hi; simpl; [done|].
  rewrite IH by (intros s ?; apply (Hi s), elem_of_cons; by right).
  apply list_lookup_insert_ne. intros ->. apply (Hi s'), elem_of_cons. by left.
Qed.

(** The text of a span of the line. *)
Definition word (sp : span) : list Z := take (sp.2 - sp.1) (drop sp.1 line).

(** Cutting at the end of words leaves each word readable as a C string: no cut
    falls inside another word. *)
Lemma cut_words ws sp :
  Forall word_span ws → sp ∈ ws → cstr (drop sp.1 (cut ws (line ++ [0]))) = word sp.
Proof using Hline.
  intros Hws Hin. destruct sp as [s e]. simpl.
  assert (word_span (s, e)) as ((Hlt & He) & Hw & _) by (by eapply Forall_forall in Hws). simpl in *.
  assert (drop s (cut ws (line ++ [0])) = word (s, e) ++ 0 :: drop (S e) (cut ws (line ++ [0]))) as ->.
  { apply list_eq. intros i. rewrite lookup_drop. unfold word. simpl.
    assert (length (take (e - s) (drop s line)) = e - s)%nat as Hlen.
    { rewrite length_take, length_drop. unfold Sh.es in He. lia. }
    destruct (decide (i < e - s)%nat) as [Hi|Hi].
    - rewrite lookup_app_l by lia. rewrite lookup_take, decide_True, lookup_drop by lia.
      rewrite cut_other; [apply lookup_app_l; unfold Sh.es in He; lia|].
      intros s' Hs'. eapply Forall_forall in Hws as (_ & _ & Hn); [|exact Hs']. apply Hn, Hw. simpl. lia.
    - rewrite lookup_app_r by lia. rewrite Hlen. destruct (decide (i = e - s)%nat) as [->|].
      + rewrite Nat.sub_diag. simpl. replace (s + (e - s))%nat with e by lia.
        eapply cut_end; [done|]. rewrite length_app. simpl. unfold Sh.es in He. lia.
      + destruct (i - (e - s))%nat as [|k] eqn:Ek; [lia|]. simpl. rewrite lookup_drop. f_equal. lia. }
  apply cstr_word. unfold word. by apply Forall_take, Forall_drop.
Qed.
End words.

Lemma parsecmd_spec line :
  Forall (λ c, c ≠ 0) line →
  (∃ c, parsecmd line = Ok (c, nulterminate c (line ++ [0])) tt ∧ cmd_ok line c) ∨
  (∃ e, parsecmd line = Panic e).
Proof.
  intros Hl.
  assert (pspec line (c ← parseline line (parse_fuel line); peek_m line [] ;; mret c) 0%nat) as Hp.
  { unfold pspec. apply pwp_bind. eapply pwp_mono.
    - apply (parse_spec line Hl); [lia|]. unfold parse_fuel, es. lia.
    - intros c ps [? ?]. apply pwp_bind, pwp_peek; [lia|]. intros _ ps' ? _. apply pwp_ret. split; [lia|done]. }
  unfold pspec, pwp in Hp. unfold parsecmd.
  destruct ((parseline line (parse_fuel line) ≫= _) 0%nat) as [c ps|e|e|]; [|by right; exists e|done|done].
  destruct (ps =? es line)%nat; [|by right; eexists]. left. exists c. split; [done|apply Hp].
Qed.

(** C40: parsecmd always returns: whatever the line, the recursive descent either
    gives a command or reports a syntax error; its loops and its recursion
    terminate. *)
Theorem parsecmd_terminates line :
  Forall (λ c, c ≠ 0) line →
  (∃ c buf, parsecmd line = Ok (c, buf) tt) ∨ (∃ msg, parsecmd line = Panic msg).
Proof.
  intros Hl. destruct (parsecmd_spec line Hl) as [(c & Hc & _)|[e He]]; [left|right]; eauto.
Qed.
Lemma parsecmd_terminates_witness :
  Forall (λ c, c ≠ 0) [40; 97; 59; 98; 41; 38] ∧
  ((∃ c buf, parsecmd [40; 97; 59; 98; 41; 38] = Ok (c, buf) tt) ∨
   (∃ msg, parsecmd [40; 97; 59; 98; 41; 38] = Panic msg)).
Proof.
  assert (Forall (λ c, c ≠ 0) [40; 97; 59; 98; 41; 38]) as H by (repeat constructor; lia).
  split; [exact H|exact (parsecmd_terminates _ H)].
Defined.

(** in the command that parsecmd builds every argument and file name is a
    maximal word of the line, no command has MAXARGS arguments or more, so that
    argv stays terminated, only descriptors 0 and 1 are redirected, and after nulterminate has written its zeros each
    pointer of the command reads, as a C string, exactly its word. *)
Theorem parsecmd_words line c buf :
  Forall (λ c, c ≠ 0) line → parsecmd line = Ok (c, buf) tt →
  cmd_ok line c ∧ length buf = S (length line) ∧
  ∀ sp, sp ∈ cmd_words c → cstr (drop sp.1 buf) = word line sp.
Proof.
  intros Hl Hc. destruct (parsecmd_spec line Hl) as [(c' & Hc' & Hok)|[e He]]; [|congruence].
  assert (c' = c ∧ buf = nulterminate c (line ++ [0])) as [-> ->] by (split; congruence).
  split; [done|]. rewrite nulterminate_cut. split; [rewrite cut_length, length_app; simpl; lia|].
  intros sp Hsp. apply cut_words; [done|by apply cmd_ok_words|done].
Qed.
Lemma parsecmd_words_witness :
  ∃ c buf, parsecmd [97; 32; 98; 62; 99; 124; 100] = Ok (c, buf) tt ∧
           (2, 3)%nat ∈ cmd_words c ∧ cstr (drop 2 buf) = [98].
Proof.
  eexists _, _. split; [vm_compute; reflexivity|]. split; [repeat first [apply list_elem_of_here|apply list_elem_of_further]|].
  refine (proj2 (proj2 (parsecmd_words [97; 32; 98; 62; 99; 124; 100] _ _ _ _)) (2, 3)%nat _).
  - repeat constructor; lia.
  - vm_compute. reflexivity.
  - repeat first [apply list_elem_of_here|apply list_elem_of_further].
Defined.
