(* ===== verification/Shrun.v ===== *)
(** * The shell at work (sh.c): runcmd, getcmd and main

    A process is what it does in order: a list of actions, in which fork carries the actions of
    the child.  Descriptors follow the kernel: the lowest free one is taken.  What the shell cannot foresee is a
    parameter: [ok pth n] is whether the [n]-th of the calls of open, chdir, pipe and fork that process [pth] makes
    succeeds, where [pth] is the path of forks that leads to the process (the index of the fork in its parent, from
    the shell on), so that the answers may depend on everything that happened before.  An action [AExec] is followed
    by what the process does if exec fails; [ASay] is a printf to descriptor 2, with the format less its newline. *)

From S2P Require Import Prelude CStr Ulib Sh.

(** What a descriptor refers to; a pipe is named by the process that made it. *)
Inductive fobj :=
| OConsole
| OFile (name : list Z) (mode : Z)
| OPipe (pth : list nat) (n : nat) (write_end : bool)
| OOther (n : nat).
Abbreviation fdtab := (list (option fobj)).
Inductive act :=
| AExec (argv : list (list Z)) (t : fdtab)
| AFork (child : list act)
| AWait (t : fdtab)
| AChdir (dir : list Z)
| ASay (msg : string) (arg : list Z)
| AExit.

(** open, dup, pipe and close on a table of descriptors *)
Definition fd_alloc (o : fobj) (t : fdtab) : option (nat * fdtab) :=
  match find_index (λ x : option fobj, match x with None => true | _ => false end) t with
  | Some fd => Some (fd, <[fd := Some o]> t)
  | None => None
  end.
Definition close (fd : nat) (t : fdtab) : fdtab := <[fd := None]> t.
Definition dup (fd : nat) (t : fdtab) : fdtab :=
  match t !! fd with Some (Some o) => match fd_alloc o t with Some (_, t') => t' | None => t end | _ => t end.

Section shell.
Context (ok : list nat → nat → bool).

Definition panic_sh (msg : string) : list act := [ASay msg []; AExit].
(** fork1: the child's actions, then the parent's. *)
Definition fork1 (pth : list nat) (n : nat) (child : list act) (parent : list act) : list act :=
  if ok pth n then AFork child :: parent else panic_sh "fork".
Definition open_fd (pth : list nat) (n : nat) (name : list Z) (mode : Z) (t : fdtab) : option (nat * fdtab) :=
  if ok pth n then fd_alloc (OFile name mode) t else None.
Definition pipe_fd (pth : list nat) (n : nat) (t : fdtab) : option (nat * nat * fdtab) :=
  if ok pth n then
    match fd_alloc (OPipe pth n false) t with
    | Some (p0, t0) => match fd_alloc (OPipe pth n true) t0 with Some (p1, t1) => Some (p0, p1, t1) | None => None end
    | None => None
    end
  else None.

(** runcmd in process [pth], which has made [n] calls; [buf] is the line after nulterminate. *)
Definition str (buf : list Z) (sp : span) : list Z := cstr (drop sp.1 buf).
Fixpoint runcmd (buf : list Z) (c : cmd) (pth : list nat) (n : nat) (t : fdtab) : list act :=
  match c with
  | Exec [] => [AExit]
  | Exec (a :: argv) => [AExec (str buf <$> a :: argv) t; ASay "exec %s failed" (str buf a); AExit]
  | Redir sub file mode fd =>
      let t := close (Z.to_nat fd) t in
      match open_fd pth n (str buf file) mode t with
      | None => [ASay "open %s failed" (str buf file); AExit]
      | Some (_, t) => runcmd buf sub pth (S n) t
      end
  | List l r => fork1 pth n (runcmd buf l (pth ++ [n]) 0 t) (AWait t :: runcmd buf r pth (S n) t)
  | Pipe l r =>
      match pipe_fd pth n t with
      | None => panic_sh "pipe"
      | Some (p0, p1, t) =>
          fork1 pth (S n) (runcmd buf l (pth ++ [S n]) 0 (close p1 (close p0 (dup p1 (close 1 t)))))
            (fork1 pth (S (S n)) (runcmd buf r (pth ++ [S (S n)]) 0 (close p1 (close p0 (dup p0 (close 0 t)))))
              (let t := close p1 (close p0 t) in [AWait t; AWait t; AExit]))
      end
  | Back sub => fork1 pth n (runcmd buf sub (pth ++ [n]) 0 t) [AExit]
  end.
(** What the child prints when the parser gives up: the rest of the line, where parsecmd itself finds one, and the
    message of the panic. *)
Definition complain (line : list Z) (msg : string) : list act :=
  match leftovers line with Some rest => [ASay "leftovers: %s" rest] | None => [] end ++ panic_sh msg.
(** [runcmd(parsecmd(buf))]; parsecmd returns or panics on every line (Sh.parsecmd_spec). *)
Definition run_line (line : list Z) (pth : list nat) (t : fdtab) : list act :=
  match parsecmd line with
  | Ok (c, buf) _ => runcmd buf c pth 0 t
  | Panic msg => complain line msg
  | _ => []
  end.

(** The loop at the start of main, which has made [n] calls; [fuel] opens.  The calls made and the table. *)
Definition CONSOLE : list Z := [99; 111; 110; 115; 111; 108; 101].
Fixpoint open_console (fuel : nat) (n : nat) (t : fdtab) : nat * fdtab :=
  match fuel with
  | O => (n, t)
  | S fuel' =>
      if ok [] n then
        match fd_alloc OConsole t with
        | Some (fd, t') => if (3 <=? fd)%nat then (S n, close fd t') else open_console fuel' (S n) t'
        | None => (S n, t)
        end
      else (S n, t)
  end.
(** getcmd: the buffer up to its terminator, and the input left; an empty one is EOF. *)
Definition getcmd (input : list Z) : list Z * list Z := let '(buf, rest) := gets 100 input in (cstr buf, rest).
Definition is_cd (line : list Z) : bool :=
  match line with c :: d :: s :: _ => (c =? 99) && (d =? 100) && (s =? 32) | _ => false end.
(** The loop of main: [n] calls so far. *)
Fixpoint sh_loop (fuel : nat) (n : nat) (t : fdtab) (input : list Z) : list act :=
  match fuel with
  | O => []
  | S fuel' =>
      ASay "$ " [] ::
      let '(line, rest) := getcmd input in
      match line with
      | [] => [AExit]
      | _ =>
          if is_cd line then
            let dir := drop 3 (take (length line - 1) line) in
            (if ok [] n then AChdir dir else ASay "cannot cd %s" dir) :: sh_loop fuel' (S n) t rest
          else fork1 [] n (run_line line [n] t) (AWait t :: sh_loop fuel' (S n) t rest)
      end
  end.
Definition sh_main (t : fdtab) (input : list Z) : list act :=
  let '(n, t) := open_console (S (length t)) 0 t in
  sh_loop (S (length input)) n t input.
End shell.

Example sh_example :
  sh_main (λ _ _, true) (replicate 16 None) [97; 62; 98; 124; 99; 10] =
  let std := [Some OConsole; Some OConsole; Some OConsole] ++ replicate 13 None in
  [ASay "$ " [];
   AFork
     [AFork [AExec [[97]] (<[1%nat := Some (OFile [98] 0x201)]> std); ASay "exec %s failed" [97]; AExit];
      AFork [AExec [[99]] (<[0%nat := Some (OPipe [4%nat] 0 false)]> std); ASay "exec %s failed" [99]; AExit];
      AWait std; AWait std; AExit];
   AWait std; ASay "$ " []; AExit].
Proof. vm_compute. reflexivity. Qed.
(** The messages of the parser: [a >], [(a], [a )] and eleven words. *)
Example sh_messages :
  (λ l, run_line (λ _ _, true) l [] []) <$>
    [[97; 32; 62; 10]; [40; 97; 10]; [97; 32; 41; 10]; concat (replicate 11 [97; 32])] =
  [[ASay "missing file for redirection" []; AExit]; [ASay "syntax - missing )" []; AExit];
   [ASay "leftovers: %s" [41; 10]; ASay "syntax" []; AExit]; [ASay "too many args" []; AExit]].
Proof. vm_compute. reflexivity. Qed.

(** ** Plumbing *)
Definition is_open (t : fdtab) (fd : nat) : Prop := ∃ o, t !! fd = Some (Some o).
(** The standard descriptors are open, and there is room for a pipe. *)
Record table_ok (t : fdtab) : Prop := {
  tb_std fd : (fd < 3)%nat → is_open t fd;
  tb_room : ∃ i j, i ≠ j ∧ t !! i = Some None ∧ t !! j = Some None }.
Lemma table_ok_set t fd o : table_ok t → (fd < 3)%nat → table_ok (<[fd := Some o]> t).
Proof.
  intros [Hs (i & j & Hij & Hi & Hj)] Hfd. split.
  - intros k Hk. destruct (decide (fd = k)) as [->|Hne]; [exists o; apply list_lookup_insert_eq|].
    + destruct (Hs k Hk) as [o' Ho]. by eapply lookup_lt_Some.
    + unfold is_open. rewrite list_lookup_insert_ne by done. by apply Hs.
  - exists i, j. split; [done|]. destruct (Hs fd Hfd) as [o' Ho].
    rewrite !list_lookup_insert_ne by (intros ->; congruence). done.
Qed.
Lemma fd_alloc_spec o t fd t' : fd_alloc o t = Some (fd, t') →
  t !! fd = Some None ∧ t' = <[fd := Some o]> t ∧ ∀ j, (j < fd)%nat → is_open t j.
Proof.
  unfold fd_alloc. destruct (find_index _ t) as [i|] eqn:E; [|done]. intros [= <- <-]. apply find_index_Some in E as (x & Hx & Hp & Hlow).
  destruct x; [done|]. split; [done|]. split; [done|]. intros j Hj. destruct (lookup_lt_is_Some_2 t j) as [y Hy]; [apply lookup_lt_Some in Hx; lia|].
  specialize (Hlow j y Hj Hy). destruct y as [o'|]; [by exists o'|done].
Qed.
Lemma fd_alloc_some o t i : t !! i = Some None → is_Some (fd_alloc o t).
Proof.
  intros Hi. unfold fd_alloc. destruct (find_index _ t) as [j|] eqn:E; [done|]. rewrite find_index_None in E. by specialize (E i _ Hi).
Qed.
(** The lowest descriptor, when it was just closed. *)
Lemma alloc_closed o t fd : (fd < 3)%nat → (∀ k, (k < 3)%nat → is_open t k) → fd_alloc o (close fd t) = Some (fd, <[fd := Some o]> t).
Proof.
  intros Hfd Hs. assert (fd < length t)%nat as Hl by (destruct (Hs fd Hfd) as [o' Ho]; by eapply lookup_lt_Some).
  destruct (fd_alloc_some o (close fd t) fd) as [[k t'] Hk]; [by apply list_lookup_insert_eq|]. pose proof (fd_alloc_spec _ _ _ _ Hk) as (Hn & -> & Hlow).
  assert (k = fd) as ->; [|rewrite Hk; unfold close; by rewrite list_insert_insert_eq]. destruct (decide (k = fd)) as [|Hne]; [done|]. exfalso.
  destruct (decide (k < fd)%nat) as [Hlt|Hge].
  - unfold close in Hn. rewrite list_lookup_insert_ne in Hn by done. destruct (Hs k ltac:(lia)) as [o' Ho]. congruence.
  - destruct (Hlow fd ltac:(lia)) as [o' Ho]. unfold close in Ho. rewrite list_lookup_insert_eq in Ho by done. done.
Qed.
Section plumbing.
Context (ok : list nat → nat → bool).

Lemma pipe_fd_spec pth n t : table_ok t →
  if ok pth n then ∃ p0 p1, pipe_fd ok pth n t = Some (p0, p1, <[p1 := Some (OPipe pth n true)]> (<[p0 := Some (OPipe pth n false)]> t)) ∧
    p0 ≠ p1 ∧ (3 ≤ p0)%nat ∧ (3 ≤ p1)%nat ∧ t !! p0 = Some None ∧ t !! p1 = Some None
  else pipe_fd ok pth n t = None.
Proof.
  intros [Hs (i & j & Hij & Hi & Hj)]. unfold pipe_fd. destruct (ok pth n); [|done].
  assert (∀ p, t !! p = Some None → (3 ≤ p)%nat) as H3.
  { intros p Hp. destruct (decide (p < 3)%nat) as [Hlt|]; [|lia]. destruct (Hs p Hlt). congruence. }
  destruct (fd_alloc_some (OPipe pth n false) t i Hi) as [[p0 t0] H0]. rewrite H0. destruct (fd_alloc_spec _ _ _ _ H0) as (Hp0 & -> & _).
  set (k := if decide (p0 = i) then j else i). assert (p0 ≠ k ∧ t !! k = Some None) as [Hk Hkn] by (unfold k; case_decide; [subst; done|done]).
  destruct (fd_alloc_some (OPipe pth n true) (<[p0 := Some (OPipe pth n false)]> t) k) as [[p1 t1] H1]; [by rewrite list_lookup_insert_ne|].
  rewrite H1. destruct (fd_alloc_spec _ _ _ _ H1) as (Hp1 & -> & _). exists p0, p1. split; [done|].
  assert (p0 ≠ p1) as Hne by (intros <-; rewrite list_lookup_insert_eq in Hp1 by (by eapply lookup_lt_Some); done).
  rewrite list_lookup_insert_ne in Hp1 by done. split; [done|]. split; [by apply H3|]. split; [by apply H3|]. done.
Qed.
(** The tables of the two sides of a pipe and of the shell that waits for them. *)
Section pipe.
Context (t : fdtab) (p0 p1 : nat) (r w : fobj).
Hypothesis Ht : table_ok t.
Hypothesis Hp : p0 ≠ p1 ∧ (3 ≤ p0)%nat ∧ (3 ≤ p1)%nat ∧ t !! p0 = Some None ∧ t !! p1 = Some None.
Let t1 : fdtab := <[p1 := Some w]> (<[p0 := Some r]> t).
Lemma pipe_closed t' : t' !! p0 = Some None → t' !! p1 = Some None → close p1 (close p0 (<[p1 := Some w]> (<[p0 := Some r]> t'))) = t'.
Proof.
  intros H0 H1. destruct Hp as (Hne & _). unfold close. rewrite (list_insert_insert_ne _ p0 p1) by done. rewrite list_insert_insert_eq, list_insert_insert_eq.
  rewrite (list_insert_id t' p0) by done. by apply list_insert_id.
Qed.
Lemma pipe_side fd p o : (fd < 3)%nat → (p = p0 ∧ o = r ∨ p = p1 ∧ o = w) →
  close p1 (close p0 (dup p (close fd t1))) = <[fd := Some o]> t.
Proof.
  intros Hfd Hpo. destruct Hp as (Hne & H0 & H1 & Hn0 & Hn1). pose proof (lookup_lt_Some _ _ _ Hn0) as Hl0. pose proof (lookup_lt_Some _ _ _ Hn1) as Hl1.
  assert (t1 !! p = Some (Some o)) as Hlook.
  { unfold t1. destruct Hpo as [[-> ->]|[-> ->]]; [rewrite list_lookup_insert_ne by done; by apply list_lookup_insert_eq|apply list_lookup_insert_eq; by rewrite length_insert]. }
  assert (∀ k, (k < 3)%nat → is_open t1 k) as Hs1.
  { intros k Hk. unfold is_open, t1. rewrite !list_lookup_insert_ne by lia. by apply Ht. }
  assert (dup p (close fd t1) = <[fd := Some o]> t1) as ->.
  { unfold dup. unfold close at 1. rewrite list_lookup_insert_ne by (destruct Hpo as [[-> _]|[-> _]]; lia). rewrite Hlook. by rewrite alloc_closed. }
  unfold t1. rewrite (list_insert_insert_ne _ fd p1), (list_insert_insert_ne _ fd p0) by lia.
  apply pipe_closed; rewrite list_lookup_insert_ne by lia; done.
Qed.
End pipe.

(** What a command line asks for: each program with its words as arguments and the table of the shell in which only
    the redirected descriptors differ. *)
Fixpoint denote (line : list Z) (c : cmd) (pth : list nat) (n : nat) (t : fdtab) : list act :=
  match c with
  | Exec [] => [AExit]
  | Exec (a :: argv) => [AExec (word line <$> a :: argv) t; ASay "exec %s failed" (word line a); AExit]
  | Redir sub file mode fd =>
      if ok pth n then denote line sub pth (S n) (<[Z.to_nat fd := Some (OFile (word line file) mode)]> t)
      else [ASay "open %s failed" (word line file); AExit]
  | List l r => fork1 ok pth n (denote line l (pth ++ [n]) 0 t) (AWait t :: denote line r pth (S n) t)
  | Pipe l r =>
      if ok pth n then
        fork1 ok pth (S n) (denote line l (pth ++ [S n]) 0 (<[1%nat := Some (OPipe pth n true)]> t))
          (fork1 ok pth (S (S n)) (denote line r (pth ++ [S (S n)]) 0 (<[0%nat := Some (OPipe pth n false)]> t)) [AWait t; AWait t; AExit])
      else panic_sh "pipe"
  | Back sub => fork1 ok pth n (denote line sub (pth ++ [n]) 0 t) [AExit]
  end.
Lemma runcmd_denote line buf c :
  cmd_ok line c → (∀ sp, sp ∈ cmd_words c → str buf sp = word line sp) →
  ∀ pth n t, table_ok t → runcmd ok buf c pth n t = denote line c pth n t.
Proof.
  induction c as [argv|sub IH file mode fd|l IHl r IHr|l IHl r IHr|sub IH]; intros Hok Hw pth n t Ht; cbn [cmd_ok cmd_words runcmd denote] in *.
  - destruct argv as [|a argv]; [done|]. rewrite (Hw a) by (apply elem_of_cons; by left). do 2 f_equal. apply list_fmap_ext. intros i sp Hsp. apply Hw. by eapply list_elem_of_lookup_2.
  - destruct Hok as (_ & Hfd & Hok). assert (str buf file = word line file) as -> by (apply Hw; set_solver). unfold open_fd. destruct (ok pth n); [|done].
    rewrite alloc_closed by (apply Ht || lia). apply IH; [done|set_solver|]. apply table_ok_set; [done|lia].
  - destruct Hok as [Hl Hr]. pose proof (pipe_fd_spec pth n t Ht) as Hpipe. destruct (ok pth n); [|by rewrite Hpipe]. destruct Hpipe as (p0 & p1 & -> & Hp).
    rewrite (pipe_side t p0 p1 _ _ Ht Hp 1 p1 (OPipe pth n true)) by (lia || by right). rewrite (pipe_side t p0 p1 _ _ Ht Hp 0 p0 (OPipe pth n false)) by (lia || by left).
    cbv zeta. rewrite (pipe_closed t p0 p1 _ _ Hp t) by apply Hp.
    rewrite IHl, IHr; [done|done|set_solver|by apply table_ok_set; [|lia]|done|set_solver|by apply table_ok_set; [|lia]].
  - destruct Hok as [Hl Hr]. rewrite IHl, IHr; [done|done|set_solver|done|done|set_solver|done].
  - by rewrite IH.
Qed.

(** ** main *)
(** The table after the console was opened, and the number of calls that it took: one for each missing descriptor and
    one more. *)
Definition std_table (t : fdtab) : fdtab := ((λ x, match x with None => Some OConsole | Some o => Some o end) <$> take 3 t) ++ drop 3 t.
Definition missing (t : fdtab) : nat := length (filter (λ x : option fobj, x = None) (take 3 t)).
Lemma open_console_done fuel n t : (∀ k, (k < 3)%nat → is_open t k) → open_console ok (S fuel) n t = (S n, t).
Proof.
  intros Hs. cbn [open_console]. destruct (ok [] n); [|done].
  destruct (fd_alloc OConsole t) as [[fd t']|] eqn:E; [|done]. apply fd_alloc_spec in E as (Hn & -> & _).
  assert (3 ≤ fd)%nat as Hfd by (destruct (decide (fd < 3)%nat) as [Hlt|]; [destruct (Hs fd Hlt); congruence|lia]).
  rewrite (proj2 (Nat.leb_le _ _) Hfd). unfold close. rewrite list_insert_insert_eq, list_insert_id by done. done.
Qed.
Lemma open_console_spec fuel t :
  (∀ k, (k < 3)%nat → ok [] k = true) → (3 ≤ length t)%nat → (4 ≤ fuel)%nat →
  open_console ok fuel 0 t = (S (missing t), std_table t).
Proof.
  intros Hc Hl Hf. destruct t as [|a [|b [|c t]]]; cbn in Hl; [lia..|]. destruct fuel as [|[|[|[|fuel]]]]; [lia..|].
  assert (∀ f n x y z, open_console ok (S f) n (Some x :: Some y :: Some z :: t) = (S n, Some x :: Some y :: Some z :: t)) as Hdone.
  { intros f n x y z. apply open_console_done. intros k Hk. destruct k as [|[|[|k]]]; [by exists x|by exists y|by exists z|lia]. }
  assert (∀ f n fd u u', (n < 3)%nat → fd_alloc OConsole u = Some (fd, u') → (fd < 3)%nat → open_console ok (S f) n u = open_console ok f (S n) u') as Hstep.
  { intros f n fd u u' Hn Hu Hfd. cbn [open_console]. rewrite (Hc n Hn), Hu. by rewrite (proj2 (Nat.leb_gt 3 fd)) by lia. }
  assert (∀ f n u, (n < 3)%nat → open_console ok (S f) n (None :: u) = open_console ok f (S n) (Some OConsole :: u)) as Hstep0
    by (intros f n u Hn; apply (Hstep f n 0%nat); [done|done|lia]).
  assert (∀ f n x u, (n < 3)%nat → open_console ok (S f) n (Some x :: None :: u) = open_console ok f (S n) (Some x :: Some OConsole :: u)) as Hstep1
    by (intros f n x u Hn; apply (Hstep f n 1%nat); [done|done|lia]).
  assert (∀ f n x y u, (n < 3)%nat → open_console ok (S f) n (Some x :: Some y :: None :: u) = open_console ok f (S n) (Some x :: Some y :: Some OConsole :: u)) as Hstep2
    by (intros f n x y u Hn; apply (Hstep f n 2%nat); [done|done|lia]).
  clear Hstep. unfold std_table, missing. cbn [take drop]. destruct a as [a|], b as [b|], c as [c|]; cbn [fmap list_fmap app].
  all: repeat first [rewrite Hdone; reflexivity | rewrite Hstep0 by lia | rewrite Hstep1 by lia | rewrite Hstep2 by lia].
Qed.

(** Lines *)
Definition line_ok (l : list Z) : Prop := Forall (λ c, c ≠ 0 ∧ c ≠ 10 ∧ c ≠ 13) l ∧ (length l ≤ 98)%nat.
Lemma gets_line l rest room : Forall (λ c, c ≠ 0 ∧ c ≠ 10 ∧ c ≠ 13) l → (length l < room)%nat → gets_loop room (l ++ 10 :: rest) = (l ++ [10], rest).
Proof.
  revert room. induction l as [|c l IH]; intros [|room] Hl Hr; cbn [length] in Hr; [lia|done|lia|]. apply Forall_cons in Hl as [(_ & H10 & H13) Hl].
  cbn [app gets_loop]. rewrite (proj2 (Z.eqb_neq c 10) H10), (proj2 (Z.eqb_neq c 13) H13). cbn [orb]. rewrite IH by (done || lia). done.
Qed.
Lemma line_nonzero l : line_ok l → Forall (λ c, c ≠ 0) (l ++ [10]).
Proof. intros [Hl _]. apply Forall_app. split; [|by repeat constructor]. eapply Forall_impl; [exact Hl|]. by intros c (? & _). Qed.
Lemma getcmd_line l rest : line_ok l → getcmd (l ++ 10 :: rest) = (l ++ [10], rest).
Proof.
  intros Hl. pose proof (line_nonzero l Hl) as Hz. destruct Hl as [Hl Hlen]. unfold getcmd, gets. change (Z.to_nat (100 - 1)) with 99%nat.
  rewrite gets_line by (done || lia). by rewrite cstr_word.
Qed.
Lemma is_cd_line l : is_cd (l ++ [10]) = is_cd l.
Proof. destruct l as [|a [|b [|c l]]]; [done|done|cbn; by rewrite andb_false_r|done]. Qed.
(** What the user sees of a session: each line is run by a child with the standard descriptors, and waited for. *)
Definition line_spec (l : list Z) (pth : list nat) (t : fdtab) : list act :=
  match parsecmd (l ++ [10]) with
  | Ok (c, _) _ => denote (l ++ [10]) c pth 0 t
  | Panic msg => complain (l ++ [10]) msg
  | _ => []
  end.
Fixpoint session (n : nat) (t : fdtab) (lines : list (list Z)) : list act :=
  ASay "$ " [] ::
  match lines with
  | [] => [AExit]
  | l :: lines' =>
      if is_cd l then (if ok [] n then AChdir (drop 3 l) else ASay "cannot cd %s" (drop 3 l)) :: session (S n) t lines'
      else fork1 ok [] n (line_spec l [n] t) (AWait t :: session (S n) t lines')
  end.
Lemma run_line_spec l pth t : line_ok l → table_ok t → run_line ok (l ++ [10]) pth t = line_spec l pth t.
Proof.
  intros Hl Ht. pose proof (line_nonzero l Hl) as Hz. unfold run_line, line_spec. destruct (parsecmd_spec (l ++ [10]) Hz) as [(c & -> & Hok)|[e ->]]; [|done].
  apply runcmd_denote; [done| |done]. intros sp Hsp. unfold str. rewrite nulterminate_cut. apply cut_words; [done|by apply cmd_ok_words|done].
Qed.
Lemma sh_loop_session fuel : ∀ n t lines, table_ok t → Forall line_ok lines → (length lines < fuel)%nat →
  sh_loop ok fuel n t (concat ((λ l, l ++ [10]) <$> lines)) = session n t lines.
Proof.
  induction fuel as [|fuel IH]; intros n t lines Ht Hls Hf; [lia|]. destruct lines as [|l lines]; [done|]. apply Forall_cons in Hls as [Hl Hls]. cbn [length] in Hf.
  cbn [sh_loop session]. f_equal. rewrite fmap_cons. cbn [concat]. rewrite <- app_assoc. cbn [app]. rewrite getcmd_line by done.
  destruct (l ++ [10]) as [|x l'] eqn:E; [by destruct l|]. rewrite <- E, is_cd_line. destruct (is_cd l).
  - rewrite length_app. cbn [length]. rewrite Nat.add_sub, take_app_length. by rewrite IH by (done || lia).
  - rewrite run_line_spec by done. by rewrite IH by (done || lia).
Qed.
End plumbing.

(** C39: the shell on an interactive session.  For lines of at most 98 characters, and whatever each single call of open,
    chdir, pipe and fork answers to each process, as long as the console opens where it is missing: main first
    opens the console on the missing ones of descriptors 0, 1 and 2; then it prompts, and for each line either changes
    directory (or says that it cannot) or forks a child and waits for it; if fork fails, it exits.  The child of a line
    that does not parse prints what the parser says, with the rest of the line where parsecmd finds some, and exits.
    The child of any other line starts exactly the programs that the parsed line asks for, each with the words of the
    line as its arguments, and with the shell's own descriptors but for 0 and 1 where the line redirects them or
    connects them by a pipe: no program, and no shell that waits for one, holds another end of a pipe. *)
Theorem shell_session ok t lines :
  (∀ k, (k < 3)%nat → ok [] k = true) → (3 ≤ length t)%nat →
  (∃ i j, i ≠ j ∧ (3 ≤ i)%nat ∧ (3 ≤ j)%nat ∧ t !! i = Some None ∧ t !! j = Some None) → Forall line_ok lines →
  sh_main ok t (concat ((λ l, l ++ [10]) <$> lines)) = session ok (S (missing t)) (std_table t) lines.
Proof.
  intros Hc Hl (i & j & Hij & Hi3 & Hj3 & Hi & Hj) Hls. unfold sh_main. rewrite open_console_spec by (done || lia).
  assert (∀ k, (3 ≤ k)%nat → std_table t !! k = t !! k) as Hhigh.
  { intros k Hk. unfold std_table. rewrite lookup_app_r; rewrite length_fmap, length_take, Nat.min_l by lia; [|done]. rewrite lookup_drop. f_equal. lia. }
  apply sh_loop_session; [|done|].
  - split; [|exists i, j; by rewrite !Hhigh]. intros fd Hfd. unfold is_open, std_table.
    rewrite lookup_app_l by (rewrite length_fmap, length_take; lia). rewrite list_lookup_fmap, lookup_take_lt by done.
    destruct (lookup_lt_is_Some_2 t fd ltac:(lia)) as [[o|] ->]; cbn; eauto.
  - clear. induction lines as [|l lines IH]; [cbn; lia|]. rewrite fmap_cons. cbn [concat]. rewrite length_app, length_app. cbn [length]. lia.
Qed.
(** A session in which the same cd succeeds and then fails, and a line that does not parse. *)
Definition demo_ok (pth : list nat) (n : nat) : bool := negb (bool_decide (pth = []) && (6 =? n)%nat).
Lemma shell_session_witness :
  sh_main demo_ok (replicate 16 None) ([97; 62; 98; 124; 99; 10] ++ [99; 100; 32; 100; 10] ++ [99; 100; 32; 100; 10] ++ [97; 62; 10]) =
  session demo_ok 4 (std_table (replicate 16 None)) [[97; 62; 98; 124; 99]; [99; 100; 32; 100]; [99; 100; 32; 100]; [97; 62]].
Proof.
  apply (shell_session demo_ok (replicate 16 None) [[97; 62; 98; 124; 99]; [99; 100; 32; 100]; [99; 100; 32; 100]; [97; 62]]).
  - intros k Hk. do 3 (destruct k as [|k]; [reflexivity|]). lia.
  - cbn. lia.
  - exists 5%nat, 6%nat. split; [discriminate|]. split; [lia|]. split; [lia|]. split; reflexivity.
  - repeat constructor; lia.
Defined.
Example demo_session :
  let std := [Some OConsole; Some OConsole; Some OConsole] ++ replicate 13 None in
  sh_main demo_ok (replicate 16 None) ([99; 100; 32; 100; 10] ++ [97; 62; 10] ++ [99; 100; 32; 100; 10]) =
  [ASay "$ " []; AChdir [100]; ASay "$ " []; AFork [ASay "missing file for redirection" []; AExit]; AWait std;
   ASay "$ " []; ASay "cannot cd %s" [100]; ASay "$ " []; AExit].
Proof. vm_compute. reflexivity. Qed.
(** The last line of a file without a newline: cd loses the last character of its argument. *)
Example cd_at_end :
  sh_main (λ _ _, true) (replicate 16 None) [99; 100; 32; 97; 98] = [ASay "$ " []; AChdir [97]; ASay "$ " []; AExit].
Proof. vm_compute. reflexivity. Qed.
