(* ===== verification/Monitor.v ===== *)
(** * Monitors: threads that sleep and wake up under one spin lock

    Pipes, sleep locks and the log's admission control share a discipline: a
    function acquires the object's spin lock, and from there on gives it up only
    inside [sleep(chan, &lock)] or by [release] before it returns.  By the mutual
    exclusion of the lock the code between two such points is one atomic segment,
    and because sleep takes ptable.lock before it lets go of the object's lock, a
    wakeup falls either before the segment or after the sleep.  A thread inside
    such a function is then a point to continue from, a channel if it sleeps, and
    its killed flag.

    [wakeup(chan)] calls of a segment are collected: the threads that they make
    runnable cannot proceed before the segment releases the lock. *)

From S2P Require Import Prelude.

(** How a segment ends: asleep on a channel, to continue from a point, or with
    the function's result. *)
Inductive reaction (C K R : Type) := Sleeps (c : C) (k : K) | Returns (r : R).
Arguments Sleeps {C K R} c k.
Arguments Returns {C K R} r.

Record thread (C K : Type) := mkThread { t_at : K; t_chan : option C; t_killed : bool }.
Arguments mkThread {C K} _ _ _.
Arguments t_at {C K} _.
Arguments t_chan {C K} _.
Arguments t_killed {C K} _.

Set Default Proof Using "Type".
Section monitor.
Context {C K R S : Type} `{!EqDecision C}.
(** [seg t killed k]: the segment of thread [t] from [k]; the list is the
    channels woken. *)
Context (seg : nat → bool → K → M (S * list C) (reaction C K R)).
(** When a thread may call the function. *)
Context (may_call : S → gmap nat (thread C K) → nat → K → Prop).
(** Whether other processes may kill a thread while it is in the function. *)
Context (may_kill : bool).

Definition wakeup (c : C) : M (S * list C) unit := modify (λ '(s, ws), (s, c :: ws)).
Definition read_state {A} (f : S → A) : M (S * list C) A := gets (λ p, f p.1).
Definition update (f : S → S) : M (S * list C) unit := modify (λ '(s, ws), (f s, ws)).

Abbreviation threads := (gmap nat (thread C K)).
Definition wake_thread (ws : list C) (th : thread C K) : thread C K :=
  match t_chan th with
  | Some c => if bool_decide (c ∈ ws) then mkThread (t_at th) None (t_killed th) else th
  | None => th
  end.
Definition wake (ws : list C) (T : threads) : threads := wake_thread ws <$> T.
Definition settle (t : nat) (th : thread C K) (r : reaction C K R) (T : threads) : threads :=
  match r with
  | Returns _ => delete t T
  | Sleeps c k => <[t := mkThread k (Some c) (t_killed th)]> T
  end.

Record mon := mkMon { st : S; thr : threads }.
Inductive event := ECall (t : nat) (k : K) | ERun (t : nat) (k : K) (r : reaction C K R) | EKill (t : nat).

Inductive step : mon → event → mon → Prop :=
| step_call s T t k :
    T !! t = None → may_call s T t k →
    step (mkMon s T) (ECall t k) (mkMon s (<[t := mkThread k None false]> T))
| step_run s T t th s' ws r :
    T !! t = Some th → t_chan th = None →
    seg t (t_killed th) (t_at th) (s, []) = Ok r (s', ws) →
    step (mkMon s T) (ERun t (t_at th) r) (mkMon s' (settle t th r (wake ws T)))
| step_kill s T t th :
    T !! t = Some th → may_kill = true →
    step (mkMon s T) (EKill t) (mkMon s (<[t := mkThread (t_at th) None true]> T)).

Inductive reachable (s0 : S) : mon → list event → Prop :=
| reach_start : reachable s0 (mkMon s0 ∅) []
| reach_step m es e m' : reachable s0 m es → step m e m' → reachable s0 m' (es ++ [e]).

(** A call on its own, by a thread that no other thread interferes with: having to
    sleep is then waiting for ever. *)
Definition alone (m : M (S * list C) (reaction C K R)) : M S R := λ s,
  match m (s, []) with
  | Ok (Returns r) (s', _) => Ok r s'
  | Ok (Sleeps _ _) _ => Spin
  | Panic e => Panic e
  | Undef e => Undef e
  | Spin => Spin
  end.

(** ** Thread bookkeeping *)
Lemma wake_lookup ws T t th' :
  wake ws T !! t = Some th' ↔ ∃ th, T !! t = Some th ∧ th' = wake_thread ws th.
Proof. unfold wake. rewrite lookup_fmap_Some. split; intros (th & ? & ?); exists th; split; congruence. Qed.
Lemma wake_thread_asleep ws th c :
  t_chan (wake_thread ws th) = Some c → t_chan th = Some c ∧ (c ∉ ws) ∧ wake_thread ws th = th.
Proof.
  unfold wake_thread. destruct (t_chan th) as [c'|] eqn:E; [|by rewrite E].
  case_bool_decide; simpl; [done|]. rewrite E. by intros [= ->].
Qed.
Lemma wake_thread_at ws th : t_at (wake_thread ws th) = t_at th.
Proof. unfold wake_thread. destruct (t_chan th); [|done]. by case_bool_decide. Qed.

(** *** No lost wakeups

    [waits k c s]: what a thread that sleeps on [c] with [k] waits for has not
    happened in [s].  If every segment that goes to sleep finds its own condition
    true, and every segment that may falsify a sleeper's condition wakes its
    channel, then in every reachable state a sleeping thread has reason to sleep. *)
Definition sleepers_wait (waits : K → C → S → Prop) (m : mon) : Prop :=
  ∀ t th c, thr m !! t = Some th → t_chan th = Some c → waits (t_at th) c (st m).

Definition wakes_enough (Inv : S → Prop) (waits : K → C → S → Prop) : Prop :=
  ∀ t kd k s r s' ws, Inv s → (kd = true → may_kill = true) → seg t kd k (s, []) = Ok r (s', ws) →
  (∀ c k', r = Sleeps c k' → waits k' c s') ∧
  (∀ k0 c0, waits k0 c0 s → c0 ∉ ws → waits k0 c0 s').

Lemma killed_step m e m' :
  step m e m' → (∀ t th, thr m !! t = Some th → t_killed th = true → may_kill = true) →
  ∀ t th, thr m' !! t = Some th → t_killed th = true → may_kill = true.
Proof.
  intros Hs Hm. destruct Hs as [s T t k Hn _|s T t th s' ws r Ht Hc Hseg|s T t th Ht Hk]; intros u uth; simpl in *.
  - rewrite lookup_insert_Some. intros [[<- <-]|[_ Hu]]; [done|]. apply (Hm u uth Hu).
  - assert (∀ u uth, wake ws T !! u = Some uth → t_killed uth = true → may_kill = true) as Hw.
    { intros v vth (vth0 & Hv & ->)%wake_lookup. unfold wake_thread.
      destruct (t_chan vth0); [case_bool_decide|]; apply (Hm v vth0 Hv). }
    destruct r as [c' k'|r]; simpl.
    + rewrite lookup_insert_Some. intros [[<- <-]|[_ Hu]]; [|by apply (Hw u uth Hu)].
      simpl. apply (Hm t th Ht).
    + rewrite lookup_delete_Some. intros [_ Hu]. by apply (Hw u uth Hu).
  - done.
Qed.
Lemma sleepers_wait_step (Inv : S → Prop) waits m e m' :
  wakes_enough Inv waits → Inv (st m) →
  (∀ t th, thr m !! t = Some th → t_killed th = true → may_kill = true) →
  step m e m' → sleepers_wait waits m → sleepers_wait waits m'.
Proof.
  intros Hw HI Hk Hs Hm. destruct Hs as [s T t k Hn _|s T t th s' ws r Ht Hc Hseg|s T t th Ht _]; simpl in HI.
  - intros u uth c. simpl. rewrite lookup_insert_Some. intros [[<- <-]|[_ Hu]]; [done|]. apply (Hm u uth c Hu).
  - destruct (Hw _ _ _ _ _ _ _ HI (Hk t th Ht) Hseg) as [Hself Hrest].
    assert (∀ u uth c, wake ws T !! u = Some uth → t_chan uth = Some c → waits (t_at uth) c s') as Hothers.
    { intros u uth c (uth0 & Hu & ->)%wake_lookup (Hc0 & Hni & ->)%wake_thread_asleep.
      apply Hrest; [|done]. apply (Hm u uth0 c Hu Hc0). }
    intros u uth c. destruct r as [c' k'|r]; simpl.
    + rewrite lookup_insert_Some. intros [[<- <-]|[_ Hu]]; [|by apply (Hothers u uth c Hu)].
      intros [= <-]. by apply Hself.
    + rewrite lookup_delete_Some. intros [_ Hu]. by apply (Hothers u uth c Hu).
  - intros u uth c. simpl. rewrite lookup_insert_Some. intros [[<- <-]|[_ Hu]]; [done|]. apply (Hm u uth c Hu).
Qed.

(** An invariant of the state that segments preserve holds in every reachable
    state, and so does the absence of lost wakeups. *)
Lemma reachable_state (Inv : S → Prop) s0 m es :
  Inv s0 →
  (∀ t kd k s r s' ws, Inv s → seg t kd k (s, []) = Ok r (s', ws) → Inv s') →
  reachable s0 m es → Inv (st m).
Proof.
  intros H0 Hp Hr. induction Hr as [|m es e m' _ HI Hst]; [done|].
  destruct Hst; simpl in *; eauto.
Qed.
Lemma reachable_sleepers (Inv : S → Prop) waits s0 m es :
  Inv s0 →
  (∀ t kd k s r s' ws, Inv s → seg t kd k (s, []) = Ok r (s', ws) → Inv s') →
  wakes_enough Inv waits →
  reachable s0 m es → sleepers_wait waits m.
Proof.
  intros H0 Hp Hw Hr.
  assert (Inv (st m) ∧ (∀ t th, thr m !! t = Some th → t_killed th = true → may_kill = true) ∧
          sleepers_wait waits m) as (_ & _ & ?); [|done].
  induction Hr as [|m es e m' _ (HI & Hk & Hs) Hst].
  - split; [done|]. split; by intros ? ? ?.
  - split; [destruct Hst; simpl in *; eauto|]. split; [by eapply killed_step|by eapply sleepers_wait_step].
Qed.

(** *** Replaying a schedule *)
Inductive action := ACall (t : nat) (k : K) | ARun (t : nat) | AKill (t : nat).
Definition next (m : mon) (a : action) : option (mon * event) :=
  match a with
  | ACall t k => Some (mkMon (st m) (<[t := mkThread k None false]> (thr m)), ECall t k)
  | ARun t =>
      th ← thr m !! t;
      match t_chan th, seg t (t_killed th) (t_at th) (st m, []) with
      | None, Ok r (s', ws) => Some (mkMon s' (settle t th r (wake ws (thr m))), ERun t (t_at th) r)
      | _, _ => None
      end
  | AKill t =>
      th ← thr m !! t;
      if may_kill then Some (mkMon (st m) (<[t := mkThread (t_at th) None true]> (thr m)), EKill t) else None
  end.
Fixpoint replay (m : mon) (es : list event) (l : list action) : option (mon * list event) :=
  match l with
  | [] => Some (m, es)
  | a :: l' => '(m', e) ← next m a; replay m' (es ++ [e]) l'
  end.
(** The calls of a schedule are allowed when they happen. *)
Fixpoint calls_ok (m : mon) (l : list action) : Prop :=
  match l with
  | [] => True
  | a :: l' =>
      match a with ACall t k => thr m !! t = None ∧ may_call (st m) (thr m) t k | _ => True end ∧
      match next m a with Some (m', _) => calls_ok m' l' | None => False end
  end.
#[global] Instance calls_ok_dec `{!∀ s T t k, Decision (may_call s T t k)} m l : Decision (calls_ok m l).
Proof.
  revert m. induction l as [|a l IH]; intros m; simpl; [apply _|].
  apply and_dec; [destruct a; apply _|]. destruct (next m a) as [[m' e]|]; [apply IH|apply _].
Defined.
Lemma next_step m a m' e :
  next m a = Some (m', e) →
  match a with ACall t k => thr m !! t = None ∧ may_call (st m) (thr m) t k | _ => True end →
  step m e m'.
Proof.
  destruct m as [s T]. destruct a as [t k|t|t]; simpl; intros H Hok.
  - injection H as <- <-. destruct Hok. by constructor.
  - destruct (T !! t) as [th|] eqn:Ht; simpl in H; [|done].
    destruct (t_chan th) eqn:Hc; [done|]. destruct (seg _ _ _ _) as [r [s' ws]| | |] eqn:Hs; [|done..].
    injection H as <- <-. by econstructor.
  - destruct (T !! t) as [th|] eqn:Ht; simpl in H; [|done].
    destruct may_kill eqn:Hk; [|done]. injection H as <- <-. by constructor.
Qed.
Lemma replay_reachable s0 m es l m' es' :
  reachable s0 m es → calls_ok m l → replay m es l = Some (m', es') → reachable s0 m' es'.
Proof.
  revert m es. induction l as [|a l IH]; intros m es Hr Hok H; simpl in H; [by injection H as <- <-|].
  destruct Hok as [Ha Hok]. destruct (next m a) as [[m1 e]|] eqn:Hn; [|done]. simpl in H.
  eapply IH; [|exact Hok|exact H]. econstructor; [done|]. by eapply next_step.
Qed.
End monitor.
Arguments action : clear implicits.
Arguments ACall {K} t k.
Arguments ARun {K} t.
Arguments AKill {K} t.
Arguments mkMon {C K S} _ _.
Arguments st {C K S} _.
Arguments thr {C K S} _.
Arguments event : clear implicits.
Arguments ECall {C K R} t k.
Arguments ERun {C K R} t k r.
Arguments EKill {C K R} t.
