(* ===== verification/Clock.v ===== *)
(** * The clock: timer ticks and sys_sleep (trap.c, sysproc.c)

    [ticks] is protected by tickslock, so the timer interrupt and sys_sleep are functions
    of a monitor.  [total] is a history variable: the ticks since boot, of which
    [ticks] is the remainder modulo 2^32; a sleeping call remembers its value at the start.
    The timer interrupt also ages the processes, under tickslock: [k_procs] stands for what
    agingMechanism() works on and [aging] for that function (Proc.v models it, and
    Trap.clock_tick runs it on the whole kernel state). *)

From S2P Require Import Prelude Monitor.

Record clock (W : Type) := mkClock { k_ticks : Z; total : Z; k_procs : W }.
Arguments mkClock {W} _ _ _.
Arguments k_ticks {W} _.
Arguments total {W} _.
Arguments k_procs {W} _.
(** Where a thread is: in the timer interrupt of a CPU, at the start of sys_sleep with what
    argint() made of its argument ([None] if it could not be read), or asleep in it. *)
Inductive tcall := KTick (cpu : Z) | KSleep (arg : option Z) | KWait (n ticks0 start : Z).

Section clock.
Context {W : Type} (aging : M W unit).
Abbreviation TM := (M (clock W * list unit)).
Abbreviation tseg := (TM (reaction unit tcall Z)).
Implicit Types (c : clock W).

(** The call of agingMechanism(). *)
Definition aging_call : TM unit := λ '(c, ws),
  match aging (k_procs c) with
  | Ok _ w => Ok tt (mkClock (k_ticks c) (total c) w, ws)
  | Panic e => Panic e
  | Undef e => Undef e
  | Spin => Spin
  end.
(** The timer case of trap(): CPU 0 counts. *)
Definition tick (cpu : Z) : tseg :=
  when (cpu =? 0)
    (update (λ c, mkClock (u32 (k_ticks c + 1)) (total c + 1) (k_procs c)) ;;
     aging_call ;;
     wakeup tt) ;;
  mret (Returns 0).
(** The loop of sys_sleep: [ticks - ticks0 < n] compares unsigned numbers. *)
Definition sleep_loop (killed : bool) (n ticks0 start : Z) : tseg :=
  t ← read_state k_ticks;
  if u32 (t - ticks0) <? u32 n then
    if killed then mret (Returns (-1)) else mret (Sleeps tt (KWait n ticks0 start))
  else mret (Returns 0).
Definition sys_sleep (killed : bool) (arg : option Z) : tseg :=
  match arg with
  | None => mret (Returns (-1))
  | Some n => t ← read_state k_ticks; g ← read_state total; sleep_loop killed n t g
  end.
Definition clock_seg (t : nat) (killed : bool) (k : tcall) : tseg :=
  match k with
  | KTick cpu => tick cpu
  | KSleep arg => sys_sleep killed arg
  | KWait n ticks0 start => sleep_loop killed n ticks0 start
  end.
Definition clock_may (s : clock W) (T : gmap nat (thread unit tcall)) (t : nat) (k : tcall) : Prop :=
  match k with KWait _ _ _ => False | _ => True end.
#[global] Instance clock_may_dec s T t k : Decision (clock_may s T t k).
Proof. destruct k; apply _. Defined.

Definition cinv c : Prop := 0 ≤ total c ∧ k_ticks c = u32 (total c).
(** A call in progress knows when it started. *)
Definition wait_ok c (k : tcall) : Prop :=
  match k with KWait n ticks0 start => ticks0 = u32 start ∧ 0 ≤ start ≤ total c | _ => True end.
Definition waiting c (k : tcall) : Prop :=
  match k with KWait n _ start => (total c - start) mod 2 ^ 32 < u32 n | _ => False end.

Lemma elapsed c ticks0 start : cinv c → ticks0 = u32 start → u32 (k_ticks c - ticks0) = (total c - start) mod 2 ^ 32.
Proof. intros [_ ->] ->. unfold u32. by rewrite Zminus_mod_idemp_l, Zminus_mod_idemp_r. Qed.
Lemma sleep_loop_run kd n ticks0 start c :
  cinv c → ticks0 = u32 start →
  sleep_loop kd n ticks0 start (c, []) =
  Ok (if (total c - start) mod 2 ^ 32 <? u32 n then if kd then Returns (-1) else Sleeps tt (KWait n ticks0 start) else Returns 0) (c, []).
Proof.
  intros Hc H0. unfold sleep_loop, read_state, gets, mbind, M_bind. cbn [fst]. rewrite (elapsed c ticks0 start Hc H0).
  destruct (_ <? _); [by destruct kd|done].
Qed.
Lemma sys_sleep_run kd n c :
  cinv c →
  sys_sleep kd (Some n) (c, []) =
  Ok (if 0 <? u32 n then if kd then Returns (-1) else Sleeps tt (KWait n (k_ticks c) (total c)) else Returns 0) (c, []).
Proof.
  intros Hc. pose proof Hc as [H0 Ht]. unfold sys_sleep, read_state at 1 2, gets, mbind, M_bind. cbn [fst].
  by rewrite (sleep_loop_run kd n _ (total c) c Hc Ht), Z.sub_diag, Zmod_0_l.
Qed.
Lemma tick_run cpu c :
  tick cpu (c, []) =
  if cpu =? 0 then
    match aging (k_procs c) with
    | Ok _ w => Ok (Returns 0) (mkClock (u32 (k_ticks c + 1)) (total c + 1) w, [tt])
    | Panic e => Panic e
    | Undef e => Undef e
    | Spin => Spin
    end
  else Ok (Returns 0) (c, []).
Proof.
  unfold tick, when, update, aging_call, wakeup, modify, mbind, M_bind. destruct (cpu =? 0); [|done].
  cbn [k_procs]. by destruct (aging (k_procs c)).
Qed.
(** What a segment that returns does: only the tick changes the clock. *)
Lemma clock_seg_run t kd k c r c' ws :
  cinv c → wait_ok c k → clock_seg t kd k (c, []) = Ok r (c', ws) →
  cinv c' ∧ total c ≤ total c' ∧ ((c' = c ∧ ws = []) ∨ ws = [tt]) ∧
  (∀ ch k', r = Sleeps ch k' → wait_ok c' k' ∧ waiting c' k').
Proof.
  intros Hc Hk. destruct k as [cpu|arg|n ticks0 start]; cbn [clock_seg].
  - rewrite tick_run. destruct (cpu =? 0); [|intros [= <- <- <-]; naive_solver lia].
    destruct (aging _) as [[] w| | |]; [|done..]. intros [= <- <- <-]. destruct Hc as [H0 Ht].
    unfold cinv. cbn. split; [|split; [lia|split; [by right|done]]].
    split; [lia|]. rewrite Ht. unfold u32. by rewrite Zplus_mod_idemp_l.
  - destruct arg as [n|]; [|intros [= <- <- <-]; naive_solver lia]. rewrite (sys_sleep_run kd n c Hc).
    intros [= <- <- <-]. split; [done|]. split; [lia|]. split; [by left|]. intros ch k'.
    destruct (Z.ltb_spec 0 (u32 n)) as [Hlt|]; [|done]. destruct kd; [done|]. intros [= _ <-].
    destruct Hc as [? ?]. cbn. by rewrite Z.sub_diag, Zmod_0_l.
  - destruct Hk as [Ht Hs]. rewrite (sleep_loop_run kd n _ start c Hc Ht). intros [= <- <- <-]. split; [done|].
    split; [lia|]. split; [by left|]. intros ch k'. destruct (Z.ltb_spec ((total c - start) mod 2 ^ 32) (u32 n)) as [Hlt|]; [|done].
    destruct kd; [done|]. intros [= _ <-]. cbn. split; done.
Qed.
Lemma wait_ok_mono c c' k : total c ≤ total c' → wait_ok c k → wait_ok c' k.
Proof. destruct k; cbn; [done|done|]. intros H [? ?]. split; [done|lia]. Qed.

Lemma clock_run_inv mk w0 m es :
  reachable clock_seg clock_may mk (mkClock 0 0 w0) m es →
  cinv (st m) ∧ ∀ t th, thr m !! t = Some th → wait_ok (st m) (t_at th) ∧ (∀ ch, t_chan th = Some ch → waiting (st m) (t_at th)).
Proof.
  intros Hr. induction Hr as [|m es e m' _ (Hc & HT) Hst]; [split; [done|]; by intros t th ?|].
  destruct Hst as [s T t k Hn Hk|s T t th s' ws r Ht Hch Hseg|s T t th Ht _]; cbn [st thr] in *.
  - split; [done|]. intros u uth. rewrite lookup_insert_Some. intros [[<- <-]|[_ Hu]]; [|by apply (HT u)].
    cbn. split; [by destruct k|done].
  - destruct (HT t th Ht) as [Hk _].
    destruct (clock_seg_run t (t_killed th) (t_at th) s _ _ _ Hc Hk Hseg) as (Hc' & Hle & Hch' & Hsl). split; [done|].
    assert (∀ u uth, wake ws T !! u = Some uth → wait_ok s' (t_at uth) ∧ (∀ ch, t_chan uth = Some ch → waiting s' (t_at uth))) as Hothers.
    { intros u uth (uth0 & Hu & ->)%wake_lookup. destruct (HT u uth0 Hu) as [Hk0 Hs0]. rewrite wake_thread_at.
      split; [by eapply wait_ok_mono|]. intros ch (Hc0 & Hni & _)%wake_thread_asleep. destruct ch.
      destruct Hch' as [[-> _]| ->]; [by eapply Hs0|]. exfalso. apply Hni. by left. }
    intros u uth. destruct r as [ch k'|r]; cbn [settle].
    + rewrite lookup_insert_Some. intros [[<- <-]|[_ Hu]]; [|by apply (Hothers u)]. cbn.
      destruct (Hsl ch k' eq_refl). by split.
    + rewrite lookup_delete_Some. intros [_ Hu]. by apply (Hothers u).
  - split; [done|]. destruct (HT t th Ht) as [Hk _]. intros u uth.
    rewrite lookup_insert_Some. intros [[<- <-]|[_ Hu]]; [done|by apply (HT u)].
Qed.
End clock.

(** C28: sleep(n) is timed right under every interleaving of any number of calls with the clock and with kills.  The
    first pass of a call returns -1 if its argument cannot be read, 0 if [n] is 0, -1 if [n] is not 0 and the process is
    killed, and otherwise sleeps, from the current tick on.  When a waiting call goes on, it returns 0 exactly if the
    number of ticks since it started, modulo 2^32, has reached [n] (an unsigned number), so never before [n] ticks have
    passed; it returns -1 only to a killed process whose time has not come, and otherwise sleeps again.  A process that
    is asleep has not reached its time, so no tick is missed. *)
Theorem sleep_timed {W} (aging : M W unit) w0 mk m es t th :
  reachable (clock_seg aging) clock_may mk (mkClock 0 0 w0) m es → thr m !! t = Some th →
  match t_at th with
  | KTick _ => True
  | KSleep arg =>
      clock_seg aging t (t_killed th) (KSleep arg) (st m, []) =
      Ok (match arg with
          | None => Returns (-1)
          | Some n =>
              if u32 n =? 0 then Returns 0
              else if t_killed th then Returns (-1)
              else Sleeps tt (KWait n (k_ticks (st m)) (total (st m)))
          end) (st m, [])
  | KWait n ticks0 start =>
      (t_chan th ≠ None → (total (st m) - start) mod 2 ^ 32 < u32 n) ∧
      ∃ r, clock_seg aging t (t_killed th) (KWait n ticks0 start) (st m, []) = Ok r (st m, []) ∧
        (r = Returns 0 ∧ u32 n ≤ (total (st m) - start) mod 2 ^ 32 ≤ total (st m) - start ∨
         r = Returns (-1) ∧ t_killed th = true ∧ (total (st m) - start) mod 2 ^ 32 < u32 n ∨
         r = Sleeps tt (KWait n ticks0 start) ∧ t_killed th = false ∧ (total (st m) - start) mod 2 ^ 32 < u32 n)
  end.
Proof.
  intros Hr Ht. destruct (clock_run_inv _ _ _ _ _ Hr) as [Hc HT]. destruct (HT t th Ht) as [Hw Hs].
  destruct (t_at th) as [cpu|arg|n ticks0 start] eqn:Hk; [done|..].
  - destruct arg as [n|]; [|done]. cbn [clock_seg]. rewrite (sys_sleep_run _ n _ Hc). f_equal.
    pose proof (u32_range n). destruct (Z.ltb_spec 0 (u32 n)), (Z.eqb_spec (u32 n) 0); try lia; done.
  - cbn in Hw, Hs. split; [destruct (t_chan th) as [ch|]; [|done]; intros _; by apply (Hs ch)|].
    cbn [clock_seg]. rewrite (sleep_loop_run _ n ticks0 start _ Hc (proj1 Hw)). eexists. split; [reflexivity|].
    destruct (Z.ltb_spec ((total (st m) - start) mod 2 ^ 32) (u32 n)).
    + destruct (t_killed th); [by right; left|by right; right].
    + left. split; [done|]. split; [done|]. apply Z.mod_le; lia.
Qed.
(** A tick on CPU 0, and a timer interrupt on CPU 1, which does not count, while a process sleeps for two ticks. *)
Definition demo_aging : M Z unit := modify (λ n, n + 1).
Definition demo_clock_acts : list (action tcall) :=
  [ACall 1 (KSleep (Some 2)); ARun 1; ACall 2 (KTick 0); ARun 2; ACall 2 (KTick 1); ARun 2; ARun 1].
Lemma sleep_timed_witness :
  ∃ m es th, reachable (clock_seg demo_aging) clock_may false (mkClock 0 0 0) m es ∧ thr m !! 1%nat = Some th ∧
    t_at th = KWait 2 0 0 ∧ st m = mkClock 1 1 1 ∧
    ∃ r, clock_seg demo_aging 1 (t_killed th) (KWait 2 0 0) (st m, []) = Ok r (st m, []).
Proof.
  destruct (replay (clock_seg demo_aging) false (mkMon (mkClock 0 0 0) ∅) [] demo_clock_acts) as [[m es]|] eqn:E; [|vm_compute in E; discriminate E].
  assert (reachable (clock_seg demo_aging) clock_may false (mkClock 0 0 0) m es) as Hr.
  { eapply replay_reachable; [constructor| |exact E]. apply (bool_decide_eq_true_1 _). vm_compute. reflexivity. }
  assert (thr m !! 1%nat = Some (mkThread (KWait 2 0 0) (Some tt) false)) as Ht by (vm_compute in E; injection E as <- _; reflexivity).
  exists m, es, (mkThread (KWait 2 0 0) (Some tt) false). split; [exact Hr|]. split; [exact Ht|]. split; [reflexivity|].
  split; [vm_compute in E; injection E as <- _; reflexivity|].
  destruct (sleep_timed demo_aging 0 false m es 1 _ Hr Ht) as [_ (r & Hrun & _)]. exists r. exact Hrun.
Defined.
(** A negative number of ticks is a large unsigned one: the call sleeps. *)
Theorem sleep_negative {W} (aging : M W unit) t n c :
  cinv c → - 2 ^ 31 ≤ n < 0 →
  clock_seg aging t false (KSleep (Some n)) (c, []) = Ok (Sleeps tt (KWait n (k_ticks c) (total c))) (c, []).
Proof.
  intros Hc Hn. cbn [clock_seg]. rewrite (sys_sleep_run false n c Hc). rewrite (proj2 (Z.ltb_lt _ _)); [done|].
  assert (u32 n = n + 2 ^ 32) as -> by (symmetry; apply (Z.mod_unique n (2 ^ 32) (-1)); lia). lia.
Qed.
