(* ===== verification/Console.v ===== *)
(** * The console (console.c): line editing, reading and the screen

    The functions run under cons.lock, so they are segments of a monitor: consoleintr
    and consolewrite run in one piece, consoleread may sleep on [&input.r].  The
    characters that [getc] returns to one call of consoleintr, up to the negative one
    that ends its loop, are the argument [keys].  iunlock and ilock, with which
    consoleread and consolewrite begin and end, concern the inode only and come
    before and after the segments. The serial port is the list of bytes given to
    uartputc; the screen is its memory and the position of the cursor. *)

From S2P Require Import Prelude Monitor.

Definition INPUT_BUF : Z := 128.
Definition BACKSPACE : Z := 0x100.
(** [C(x)], the code of a key pressed with control. *)
Definition ctl (c : Z) : Z := c - 64.

Record input := mkIn { i_buf : list Z; i_r : Z; i_w : Z; i_e : Z }.
Record console := mkCons {
  c_in : input;
  c_uart : list Z;
  c_pos : Z;
  c_crt : list Z;
  c_panicked : bool }.
Definition with_in (i : input) (c : console) : console := mkCons i (c_uart c) (c_pos c) (c_crt c) (c_panicked c).
Definition with_screen (pos : Z) (crt : list Z) (c : console) : console := mkCons (c_in c) (c_uart c) pos crt (c_panicked c).

(** Where a thread is: in consoleintr, in consolewrite, or in consoleread with [n] of
    [target] bytes to go and [got] stored. *)
Inductive ccall :=
| KIntr (keys : list Z)
| KWrite (buf : list Z)
| KRead (target n : nat) (got : list Z).
(** The value returned, or doprocdump, and the bytes stored at [dst]. *)
Definition cresult : Type := Z * list Z.
Abbreviation CM := (M (console * list unit)).
Abbreviation cseg := (CM (reaction unit ccall cresult)).

(** ** Output *)
(** [crt[pos] = v] *)
Definition set_cell (pos v : Z) (crt : list Z) : CM (list Z) :=
  if in_bounds crt pos then mret (<[Z.to_nat pos := v]> crt) else undef "crt".
(** The memmove and memset that scroll: cells 80 to 1919 move to the front, cells from
    [pos] to 1919 are cleared. *)
Definition scroll (pos : Z) (crt : list Z) : list Z :=
  let moved := take 1840 (drop 80 crt) ++ drop 1840 crt in
  take (Z.to_nat pos) moved ++ replicate (Z.to_nat (1920 - pos)) 0 ++ drop 1920 moved.
Definition cgaputc (c : Z) : CM unit :=
  pos ← read_state c_pos;
  crt ← read_state c_crt;
  '(pos, crt) ← (if c =? 10 then mret (pos + (80 - pos mod 80), crt)
                 else if c =? BACKSPACE then mret (if 0 <? pos then pos - 1 else pos, crt)
                 else crt' ← set_cell pos (Z.lor (Z.land c 0xff) 0x0700) crt; mret (pos + 1, crt'));
  if (pos <? 0) || (25 * 80 <? pos) then panic "pos under/overflow" else
  let '(pos, crt) := if 24 <=? pos / 80 then (pos - 80, scroll (pos - 80) crt) else (pos, crt) in
  crt' ← set_cell pos 0x0720 crt;
  update (with_screen pos crt').
Definition uartputc (c : Z) : CM unit :=
  update (λ s, mkCons (c_in s) (c_uart s ++ [u8 c]) (c_pos s) (c_crt s) (c_panicked s)).
Definition consputc (c : Z) : CM unit :=
  p ← read_state c_panicked;
  if (p : bool) then spin else
  (if c =? BACKSPACE then uartputc 8 ;; uartputc 32 ;; uartputc 8 else uartputc c) ;;
  cgaputc c.
Definition consputs (l : list Z) : CM unit := for_each l consputc.

(** printint: digits into [buf[16]], then printed backwards. *)
Definition digit (d : Z) : Z := if d <? 10 then 48 + d else 87 + d.
Fixpoint digits_loop (fuel : nat) (x base : Z) (i : nat) : option (list Z) :=
  match fuel with
  | O => None
  | S f =>
      if (i <? 16)%nat then
        if x / base =? 0 then Some [digit (x mod base)]
        else cons (digit (x mod base)) <$> digits_loop f (x / base) base (S i)
      else None
  end.
Definition cprint_digits (xx base : Z) (sign : bool) : option (list Z) :=
  let neg := sign && (xx <? 0) in
  ds ← digits_loop 17 (if neg then u32 (- xx) else u32 xx) base 0;
  let buf := if neg : bool then ds ++ [45] else ds in
  if (length buf <=? 16)%nat then Some (rev buf) else None.
Definition printint (xx base : Z) (sign : bool) : CM unit :=
  match cprint_digits xx base sign with Some l => consputs l | None => undef "buf" end.

(** cprintf's loop; [str_at] is the string at an address, an argument a word. *)
Section cprintf.
Context (str_at : Z → option (list Z)).
Fixpoint cprintf_loop (fmt args : list Z) : CM unit :=
  match fmt with
  | [] => mret tt
  | c :: fmt =>
      if negb (c =? 37) then consputc c ;; cprintf_loop fmt args else
      match fmt with
      | [] => mret tt
      | c :: fmt =>
          if c =? 100 then
            match args with a :: args => printint (i32 a) 10 true ;; cprintf_loop fmt args | [] => undef "argp" end
          else if (c =? 120) || (c =? 112) then
            match args with a :: args => printint (i32 a) 16 false ;; cprintf_loop fmt args | [] => undef "argp" end
          else if c =? 115 then
            match args with
            | a :: args =>
                match (if a =? 0 then Some [40; 110; 117; 108; 108; 41] else str_at a) with
                | Some l => consputs l ;; cprintf_loop fmt args
                | None => undef "%s"
                end
            | [] => undef "argp"
            end
          else if c =? 37 then consputc 37 ;; cprintf_loop fmt args
          else consputc 37 ;; consputc c ;; cprintf_loop fmt args
      end
  end.
Definition cprintf (fmt : option (list Z)) (args : list Z) : CM unit :=
  match fmt with None => panic "null fmt" | Some fmt => cprintf_loop fmt args end.
End cprintf.

(** ** Input *)
Definition set_e (e : Z) (i : input) : input := mkIn (i_buf i) (i_r i) (i_w i) e.
Definition set_w (w : Z) (i : input) : input := mkIn (i_buf i) (i_r i) w (i_e i).
Definition set_r (r : Z) (i : input) : input := mkIn (i_buf i) r (i_w i) (i_e i).
Definition input_at (k : Z) : CM Z :=
  b ← read_state (λ c, i_buf (c_in c)); array_get "input.buf" b (k mod INPUT_BUF).
Definition on_input (f : input → input) : CM unit := update (λ c, with_in (f (c_in c)) c).

(** The loop of ^U. Every turn brings e closer to w. *)
Fixpoint kill_line (fuel : nat) : CM unit :=
  match fuel with
  | O => spin
  | S fuel' =>
      i ← read_state c_in;
      if i_e i =? i_w i then mret tt else
      x ← input_at (u32 (i_e i - 1));
      if x =? 10 then mret tt else
      on_input (set_e (u32 (i_e i - 1))) ;;
      consputc BACKSPACE ;;
      kill_line fuel'
  end.
(** One character of consoleintr's loop; whether it asks for procdump(). *)
Definition consolekey (c : Z) : CM bool :=
  i ← read_state c_in;
  if c =? ctl 80 then mret true
  else if c =? ctl 85 then kill_line 129 ;; mret false
  else if (c =? ctl 72) || (c =? 0x7f) then
    (if i_e i =? i_w i then mret tt
     else on_input (set_e (u32 (i_e i - 1))) ;; consputc BACKSPACE) ;;
    mret false
  else if negb (c =? 0) && (u32 (i_e i - i_r i) <? INPUT_BUF) then
    let c := if c =? 13 then 10 else c in
    on_input (λ i, mkIn (<[Z.to_nat (i_e i mod INPUT_BUF) := u8 c]> (i_buf i)) (i_r i) (i_w i) (u32 (i_e i + 1))) ;;
    consputc c ;;
    i ← read_state c_in;
    (if (c =? 10) || (c =? ctl 68) || (i_e i =? u32 (i_r i + INPUT_BUF)) then
       on_input (λ i, set_w (i_e i) i) ;; wakeup tt
     else mret tt) ;;
    mret false
  else mret false.
Fixpoint consoleintr_loop (keys : list Z) (dump : bool) : CM bool :=
  match keys with
  | [] => mret dump
  | c :: keys => d ← consolekey c; consoleintr_loop keys (d || dump)
  end.
Definition consoleintr (keys : list Z) : cseg :=
  dump ← consoleintr_loop keys false;
  mret (Returns (if dump : bool then 1 else 0, [])).

Fixpoint consoleread (killed : bool) (target n : nat) (got : list Z) : cseg :=
  match n with
  | O => mret (Returns (Z.of_nat target, got))
  | S n' =>
      i ← read_state c_in;
      if i_r i =? i_w i then
        if killed then mret (Returns (-1, got)) else mret (Sleeps tt (KRead target n got))
      else
        c ← input_at (i_r i);
        on_input (set_r (u32 (i_r i + 1))) ;;
        if c =? ctl 68 then
          (if (n <? target)%nat then on_input (λ i, set_r (u32 (i_r i - 1)) i) else mret tt) ;;
          mret (Returns (Z.of_nat (target - n), got))
        else if c =? 10 then mret (Returns (Z.of_nat (target - n'), got ++ [c]))
        else consoleread killed target n' (got ++ [c])
  end.
Definition consolewrite (buf : list Z) : cseg :=
  for_each buf (λ x, consputc (Z.land x 0xff)) ;;
  mret (Returns (Z.of_nat (length buf), [])).

Definition cons_seg (t : nat) (killed : bool) (k : ccall) : cseg :=
  match k with
  | KIntr keys => consoleintr keys
  | KWrite buf => consolewrite buf
  | KRead target n got => consoleread killed target n got
  end.
