(* ===== verification/Consprops.v ===== *)
(** * The console as a line discipline

    The ring buffer of console.c is two lists: the bytes that readers may take and the
    line being edited.  Under every interleaving of keyboard interrupts, readers,
    writers and kills the console behaves like the line discipline on these lists. *)

From S2P Require Import Prelude Monitor Console.

(** ** The screen *)
Definition screen_ok (c : console) : Prop := 0 ≤ c_pos c < 1920 ∧ length (c_crt c) = 2000%nat ∧ c_panicked c = false.

Lemma set_cell_run pos v crt s :
  0 ≤ pos < Z.of_nat (length crt) → set_cell pos v crt s = Ok (<[Z.to_nat pos := v]> crt) s.
Proof. intros H. unfold set_cell, in_bounds. by rewrite bool_decide_true. Qed.
Lemma scroll_length pos crt : length crt = 2000%nat → 0 ≤ pos < 1920 → length (scroll pos crt) = 2000%nat.
Proof. intros Hl Hp. unfold scroll. rewrite !length_app, !length_take, length_replicate, !length_drop, !length_app, !length_take, !length_drop. lia. Qed.
(** The second half of cgaputc, from the new position. *)
Lemma cga_finish pos crt (c : console) ws :
  0 ≤ pos ≤ 1920 → length crt = 2000%nat → c_panicked c = false →
  wp (if (pos <? 0) || (25 * 80 <? pos) then panic "pos under/overflow" else
      let '(pos, crt) := if 24 <=? pos / 80 then (pos - 80, scroll (pos - 80) crt) else (pos, crt) in
      crt' ← set_cell pos 0x0720 crt; update (with_screen pos crt'))
    (λ _ s', screen_ok s'.1 ∧ c_in s'.1 = c_in c ∧ c_uart s'.1 = c_uart c ∧ s'.2 = ws) (c, ws).
Proof.
  intros Hp Hl Hpk. rewrite (proj2 (Z.ltb_ge pos 0)), (proj2 (Z.ltb_ge _ pos)) by lia. cbn [orb].
  assert (∃ q k, (if 24 <=? pos / 80 then (pos - 80, scroll (pos - 80) crt) else (pos, crt)) = (q, k) ∧
    0 ≤ q < 1920 ∧ length k = 2000%nat) as (q & k & -> & Hq & Hk).
  { destruct (Z.leb_spec 24 (pos / 80)) as [H|H].
    - assert (pos = 1920) as -> by (pose proof (Z.div_mod pos 80); pose proof (Z.mod_pos_bound pos 80); lia).
      eexists _, _. split; [done|]. split; [lia|]. apply scroll_length; [done|lia].
    - eexists _, _. split; [done|]. split; [|done]. pose proof (Z.div_mod pos 80). pose proof (Z.mod_pos_bound pos 80). lia. }
  apply wp_bind. unfold wp at 1. rewrite set_cell_run by (rewrite Hk; lia). unfold wp, update, modify. cbn.
  split; [|done]. split; [cbn; lia|]. split; [cbn; rewrite length_insert; exact Hk|exact Hpk].
Qed.
Lemma cgaputc_ok ch (c : console) ws :
  screen_ok c →
  wp (cgaputc ch) (λ _ s', screen_ok s'.1 ∧ c_in s'.1 = c_in c ∧ c_uart s'.1 = c_uart c ∧ s'.2 = ws) (c, ws).
Proof.
  intros (Hp & Hl & Hpk). unfold cgaputc. apply wp_bind. unfold wp at 1, read_state at 1, gets at 1. cbn [fst].
  apply wp_bind. unfold wp at 1, read_state at 1, gets at 1. cbn [fst]. apply wp_bind. destruct (Z.eqb_spec ch 10).
  - unfold wp at 1. cbn [mret M_ret]. pose proof (Z.mod_pos_bound (c_pos c) 80). pose proof (Z.div_mod (c_pos c) 80).
    apply cga_finish; [|done|done]. assert (c_pos c / 80 < 24) by (apply Z.div_lt_upper_bound; lia). lia.
  - destruct (ch =? BACKSPACE).
    + unfold wp at 1. cbn [mret M_ret]. destruct (Z.ltb_spec 0 (c_pos c)); apply cga_finish; try done; lia.
    + apply wp_bind. unfold wp at 1. rewrite set_cell_run by lia. unfold wp at 1. cbn [mret M_ret].
      apply cga_finish; [lia|by rewrite length_insert|done].
Qed.
(** consputc prints: it returns, and leaves the input alone. *)
Lemma consputc_ok ch (c : console) ws :
  screen_ok c → wp (consputc ch) (λ _ s', screen_ok s'.1 ∧ c_in s'.1 = c_in c ∧ s'.2 = ws) (c, ws).
Proof.
  intros Hs. pose proof Hs as (_ & _ & Hpk). unfold consputc. apply wp_bind. unfold wp at 1, read_state, gets. cbn [fst].
  rewrite Hpk. apply wp_bind. destruct (ch =? BACKSPACE); unfold uartputc, update, modify, mbind, M_bind, wp at 1; cbn;
    (eapply wp_mono; [|apply cgaputc_ok; exact Hs]; cbn; intros ? s' (H1 & H2 & _ & H4); done).
Qed.
Lemma consputs_ok {X} (f : X → Z) (l : list X) (c : console) ws :
  screen_ok c → wp (for_each l (λ x, consputc (f x))) (λ _ s', screen_ok s'.1 ∧ c_in s'.1 = c_in c ∧ s'.2 = ws) (c, ws).
Proof.
  intros Hs. apply (wp_for_each _ (λ _ s', screen_ok s'.1 ∧ c_in s'.1 = c_in c ∧ s'.2 = ws)); [|done].
  intros x l' [c' ws'] (H1 & H2 & H3). cbn [fst snd] in *. subst ws'. rewrite <- H2. by apply consputc_ok.
Qed.

(** ** The ring buffer *)
(** [ring i pend line]: [pend] is committed, [line] is being edited. *)
Record ring (i : input) (pend line : list Z) : Prop := {
  r_buf : length (i_buf i) = 128%nat;
  r_r : 0 ≤ i_r i < 2 ^ 32;
  r_w : i_w i = u32 (i_r i + Z.of_nat (length pend));
  r_e : i_e i = u32 (i_r i + Z.of_nat (length (pend ++ line)));
  r_len : (length (pend ++ line) ≤ 128)%nat;
  r_at : ∀ k x, (pend ++ line) !! k = Some x → i_buf i !! Z.to_nat ((i_r i + Z.of_nat k) mod 128) = Some x }.

Lemma ltb_nat (a b : nat) : (Z.of_nat a <? Z.of_nat b) = (a <? b)%nat.
Proof. destruct (Nat.ltb_spec a b); [apply Z.ltb_lt|apply Z.ltb_ge]; lia. Qed.
Lemma mod_128 z : u32 z mod 128 = z mod 128.
Proof. unfold u32. rewrite (Z.mod_eq z (2 ^ 32)) by done.
  rewrite <- (Z_mod_plus_full z (- (z / 2 ^ 32 * 2 ^ 25)) 128). f_equal. lia. Qed.
Lemma u32_add_l a b : u32 (u32 a + b) = u32 (a + b).
Proof. unfold u32. by rewrite Zplus_mod_idemp_l. Qed.
Lemma u32_sub_l a b : u32 (u32 a - b) = u32 (a - b).
Proof. unfold u32. by rewrite Zminus_mod_idemp_l. Qed.
Lemma slot_ne r j k : 0 ≤ j < 128 → 0 ≤ k < 128 → j ≠ k → Z.to_nat ((r + j) mod 128) ≠ Z.to_nat ((r + k) mod 128).
Proof.
  intros Hj Hk Hne Heq. pose proof (Z.mod_pos_bound (r + j) 128). pose proof (Z.mod_pos_bound (r + k) 128).
  pose proof (Z.div_mod (r + j) 128). pose proof (Z.div_mod (r + k) 128). lia.
Qed.
Lemma ring_eq_w i pend line : ring i pend line → (i_r i =? i_w i) = bool_decide (pend = []).
Proof.
  intros H. pose proof (r_len _ _ _ H) as Hl. rewrite length_app in Hl. rewrite (r_w _ _ _ H). pose proof (r_r _ _ _ H) as Hr.
  case_bool_decide as E; [subst pend; apply Z.eqb_eq; cbn; rewrite Z.add_0_r; symmetry; by apply u32_small|].
  apply Z.eqb_neq. intros Heq. destruct pend as [|x p]; [done|]. cbn [length] in *. unfold u32 in Heq.
  pose proof (Z.div_mod (i_r i + Z.of_nat (S (length p))) (2 ^ 32)). lia.
Qed.
Lemma ring_eq_e i pend line : ring i pend line → (i_e i =? i_w i) = bool_decide (line = []).
Proof.
  intros H. pose proof (r_len _ _ _ H) as Hl. rewrite length_app in Hl. rewrite (r_w _ _ _ H), (r_e _ _ _ H), length_app. pose proof (r_r _ _ _ H) as Hr.
  case_bool_decide as E; [subst line; apply Z.eqb_eq; cbn; do 2 f_equal; lia|].
  apply Z.eqb_neq. intros Heq. destruct line as [|x p]; [done|]. cbn [length] in *. unfold u32 in Heq.
  pose proof (Z.div_mod (i_r i + Z.of_nat (length pend + S (length p))) (2 ^ 32)).
  pose proof (Z.div_mod (i_r i + Z.of_nat (length pend)) (2 ^ 32)). lia.
Qed.
Lemma ring_count i pend line : ring i pend line → u32 (i_e i - i_r i) = Z.of_nat (length (pend ++ line)).
Proof.
  intros H. rewrite (r_e _ _ _ H), u32_sub_l. pose proof (r_len _ _ _ H).
  replace (i_r i + Z.of_nat (length (pend ++ line)) - i_r i) with (Z.of_nat (length (pend ++ line))) by lia. apply u32_small. lia.
Qed.
Lemma ring_full i pend line : ring i pend line → (i_e i =? u32 (i_r i + INPUT_BUF)) = (length (pend ++ line) =? 128)%nat.
Proof.
  intros H. rewrite (r_e _ _ _ H). pose proof (r_len _ _ _ H). destruct (Nat.eqb_spec (length (pend ++ line)) 128) as [->|Hne].
  - by rewrite Z.eqb_refl.
  - apply Z.eqb_neq. unfold u32, INPUT_BUF. intros Heq.
    pose proof (Z.div_mod (i_r i + Z.of_nat (length (pend ++ line))) (2 ^ 32)). pose proof (Z.div_mod (i_r i + 128) (2 ^ 32)). lia.
Qed.
Lemma ring_append i pend line x :
  ring i pend line → (length (pend ++ line) < 128)%nat →
  ring (mkIn (<[Z.to_nat (i_e i mod INPUT_BUF) := x]> (i_buf i)) (i_r i) (i_w i) (u32 (i_e i + 1))) pend (line ++ [x]).
Proof.
  intros H Hlt. assert (i_e i mod INPUT_BUF = (i_r i + Z.of_nat (length (pend ++ line))) mod 128) as He.
  { rewrite (r_e _ _ _ H). apply mod_128. }
  rewrite He. destruct H as [Hb Hr Hw He' Hl Hat]. split; cbn; [by rewrite length_insert|done|done| | |].
  - rewrite He', u32_add_l, app_assoc, (length_app _ [x]). cbn. f_equal. lia.
  - rewrite app_assoc, length_app. cbn. lia.
  - intros k y. rewrite app_assoc. intros [Hk|(Hk & Hy)]%lookup_app_Some.
    + rewrite list_lookup_insert_ne; [by apply Hat|]. apply lookup_lt_Some in Hk. apply slot_ne; lia.
    + destruct (k - length (pend ++ line))%nat eqn:Hd; [|done]. injection Hy as <-. replace k with (length (pend ++ line)) by lia.
      apply list_lookup_insert_eq. pose proof (Z.mod_pos_bound (i_r i + Z.of_nat (length (pend ++ line))) 128). lia.
Qed.
Lemma ring_commit i pend line : ring i pend line → ring (set_w (i_e i) i) (pend ++ line) [].
Proof. intros [Hb Hr Hw He Hl Hat]. split; cbn; rewrite ?app_nil_r; done. Qed.
Lemma ring_erase i pend line x : ring i pend (line ++ [x]) → ring (set_e (u32 (i_e i - 1)) i) pend line.
Proof.
  intros [Hb Hr Hw He Hl Hat]. rewrite app_assoc, (length_app _ [x]) in *. cbn in *. split; cbn; [done|done|done| |lia|].
  - rewrite He, u32_sub_l. f_equal. lia.
  - intros k y Hk. apply Hat. apply lookup_app_Some. by left.
Qed.
Lemma ring_last i pend line x : ring i pend (line ++ [x]) → i_buf i !! Z.to_nat (u32 (i_e i - 1) mod 128) = Some x.
Proof.
  intros [Hb Hr Hw He Hl Hat]. rewrite He, u32_sub_l, mod_128, app_assoc, length_app. cbn.
  replace (i_r i + Z.of_nat (length (pend ++ line) + 1) - 1) with (i_r i + Z.of_nat (length (pend ++ line))) by lia.
  apply Hat. rewrite app_assoc, lookup_app_r, Nat.sub_diag; [done|lia].
Qed.
Lemma ring_head i x pend line : ring i (x :: pend) line → i_buf i !! Z.to_nat (i_r i mod 128) = Some x.
Proof. intros H. pose proof (r_at _ _ _ H 0 x eq_refl) as Hx. by rewrite Z.add_0_r in Hx. Qed.
Lemma ring_take i x pend line : ring i (x :: pend) line → ring (set_r (u32 (i_r i + 1)) i) pend line.
Proof.
  intros [Hb Hr Hw He Hl Hat]. cbn in Hw, He, Hl. split; cbn; [done|apply u32_range| | |lia|].
  - rewrite Hw, u32_add_l. f_equal. lia.
  - rewrite He, u32_add_l. f_equal. lia.
  - intros k y Hk. rewrite <- mod_128, u32_add_l, mod_128.
    replace (i_r i + 1 + Z.of_nat k) with (i_r i + Z.of_nat (S k)) by lia. apply Hat. exact Hk.
Qed.

(** ** The line discipline *)
(** Committed bytes and the line being edited. *)
Definition ld : Type := list Z * list Z.
Definition ld_key (s : ld) (c : Z) : ld :=
  let '(pend, line) := s in
  if c =? 16 then s
  else if c =? 21 then (pend, [])
  else if (c =? 8) || (c =? 127) then (pend, removelast line)
  else if negb (c =? 0) && (length (pend ++ line) <? 128)%nat then
    let x := if c =? 13 then 10 else c in
    if (x =? 10) || (x =? 4) || (length (pend ++ line ++ [x]) =? 128)%nat then (pend ++ line ++ [x], [])
    else (pend, line ++ [x])
  else s.
(** A read of [n] more bytes: up to a newline, or to an end-of-file mark that is taken only
    when nothing was read before it. *)
Fixpoint ld_read (killed : bool) (target n : nat) (got pend : list Z) : reaction unit ccall cresult * list Z :=
  match n with
  | O => (Returns (Z.of_nat target, got), pend)
  | S n' =>
      match pend with
      | [] => (if killed then Returns (-1, got) else Sleeps tt (KRead target n got), [])
      | x :: pend' =>
          if x =? 4 then (Returns (Z.of_nat (target - n), got), if (n <? target)%nat then pend else pend')
          else if x =? 10 then (Returns (Z.of_nat (target - n'), got ++ [x]), pend')
          else ld_read killed target n' (got ++ [x]) pend'
      end
  end.

Definition cinv (s : console) (a : ld) : Prop :=
  screen_ok s ∧ ring (c_in s) a.1 a.2 ∧ Forall (λ x, x ≠ 10) a.2.

Lemma read_state_run {A} (f : console → A) c ws : read_state f (c, ws) = Ok (f c) (c, ws : list unit).
Proof. done. Qed.
Lemma on_input_run f c ws : on_input f (c, ws) = Ok tt (with_in (f (c_in c)) c, ws).
Proof. done. Qed.
Lemma input_at_run k x c ws : i_buf (c_in c) !! Z.to_nat (k mod 128) = Some x → input_at k (c, ws) = Ok x (c, ws).
Proof.
  intros Hx. unfold input_at. rewrite (bind_run _ _ _ _ _ (read_state_run _ c ws)). apply array_get_ok; [|done].
  by apply Z.mod_pos_bound.
Qed.
Lemma wp_run {A B} (m : CM A) (k : A → CM B) Q s a s1 : m s = Ok a s1 → wp (k a) Q s1 → wp (m ≫= k) Q s.
Proof. intros Hm Hk. apply wp_bind. unfold wp at 1. by rewrite Hm. Qed.

(** Printing after a change of the input. *)
Lemma put_after {B} f ch (k : CM B) Q c ws :
  screen_ok c → (∀ c', screen_ok c' → c_in c' = f (c_in c) → wp k Q (c', ws)) →
  wp (on_input f ;; consputc ch ;; k) Q (c, ws).
Proof.
  intros Hs Hk. eapply wp_run; [apply on_input_run|]. apply wp_bind. eapply wp_mono; [|by apply consputc_ok].
  intros ? [c' ws'] (H1 & H2 & H3). cbn [fst snd] in *. subst ws'. by apply Hk.
Qed.

Lemma kill_line_ok fuel pend line c ws :
  (length line < fuel)%nat → screen_ok c → ring (c_in c) pend line → Forall (λ x, x ≠ 10) line →
  wp (kill_line fuel) (λ _ s', screen_ok s'.1 ∧ ring (c_in s'.1) pend [] ∧ s'.2 = ws) (c, ws).
Proof.
  revert fuel c. induction line as [|x line IH] using rev_ind; intros [|fuel] c Hf Hs Hr Hn; [simpl in Hf; lia| |lia|].
  - cbn [kill_line]. eapply wp_run; [apply read_state_run|]. rewrite (ring_eq_e _ _ _ Hr), bool_decide_true by done. done.
  - rewrite length_app in Hf. cbn in Hf. apply Forall_app in Hn as [Hn Hx]. rewrite Forall_singleton in Hx.
    cbn [kill_line]. eapply wp_run; [apply read_state_run|]. rewrite (ring_eq_e _ _ _ Hr), bool_decide_false by (by destruct line).
    eapply wp_run; [apply input_at_run, (ring_last _ _ _ _ Hr)|]. rewrite (proj2 (Z.eqb_neq x 10)) by done.
    apply put_after; [done|]. intros c' Hs' Hc'. apply IH; [lia|done| |done]. rewrite Hc'. by eapply ring_erase.
Qed.

(** What one key does, and that it wakes the readers when there is something to read. *)
Definition key_post (pend : list Z) (ws : list unit) (a : ld) (s : console * list unit) : Prop :=
  cinv s.1 a ∧ (∀ u, u ∈ ws → u ∈ s.2) ∧ (a.1 = pend ∨ tt ∈ s.2).
Lemma consolekey_ok ch pend line c ws :
  0 ≤ ch < 256 → cinv c (pend, line) →
  wp (consolekey ch) (λ d s', d = (ch =? 16) ∧ key_post pend ws (ld_key (pend, line) ch) s') (c, ws).
Proof.
  intros Hch (Hs & Hr & Hn). cbn [fst snd] in *. unfold consolekey. eapply wp_run; [apply read_state_run|].
  cbn [ld_key]. change (ctl 80) with 16. change (ctl 85) with 21. change (ctl 72) with 8. change (ctl 68) with 4.
  destruct (Z.eqb_spec ch 16) as [->|H16].
  { split; [done|]. split; [done|]. split; [done|by left]. }
  destruct (ch =? 21).
  { apply wp_bind. eapply wp_mono; [|apply (kill_line_ok 129 pend line c ws); [|done|done|done]].
    - intros ? [c' ws'] (H1 & H2 & H3). cbn [fst snd] in *. subst ws'. split; [done|]. split; [by split|]. split; [done|by left].
    - pose proof (r_len _ _ _ Hr). rewrite length_app in *. lia. }
  destruct ((ch =? 8) || (ch =? 0x7f)).
  { destruct line as [|x line _] using rev_ind.
    - rewrite (ring_eq_e _ _ _ Hr), bool_decide_true by done. split; [done|]. split; [done|]. split; [done|by left].
    - rewrite (ring_eq_e _ _ _ Hr), bool_decide_false by (by destruct line). rewrite removelast_last. apply Forall_app in Hn as [Hn _].
      rewrite (wp_proper _ _ _ (m_bind_assoc _ _ _) _ _ eq_refl _ _ eq_refl).
      apply put_after; [done|]. intros c' Hs' Hc'. split; [done|]. split; [|split; [done|by left]].
      split; [done|]. split; [|done]. cbn. rewrite Hc'. by eapply ring_erase. }
  rewrite (ring_count _ _ _ Hr). unfold INPUT_BUF at 1.
  rewrite (ltb_nat (length (pend ++ line)) 128 : (Z.of_nat _ <? 128) = _).
  destruct (negb (ch =? 0) && (length (pend ++ line) <? 128)%nat) eqn:Hacc.
  2:{ split; [done|]. split; [done|]. split; [done|by left]. }
  apply andb_true_iff in Hacc as [_ Hlt]. apply Nat.ltb_lt in Hlt.
  set (x := if ch =? 13 then 10 else ch). assert (0 ≤ x < 256) as Hx by (unfold x; destruct (ch =? 13); lia).
  apply put_after; [done|]. intros c' Hs' Hc'. unfold u8 in Hc'. fold x in Hc'. rewrite (Z.mod_small x) in Hc' by lia.
  pose proof (ring_append _ _ _ x Hr Hlt) as Hr'. rewrite <- Hc' in Hr'.
  eapply wp_run; [apply read_state_run|]. rewrite (ring_full _ _ _ Hr').
  destruct ((x =? 10) || (x =? 4) || (length (pend ++ line ++ [x]) =? 128)%nat) eqn:Hcm.
  - eapply wp_run; [|]. { rewrite (bind_run _ _ _ _ _ (on_input_run _ c' ws)). reflexivity. }
    split; [done|]. split; [|split; [|right; apply elem_of_cons; by left]].
    + split; [done|]. split; [|constructor]. by apply ring_commit.
    + intros u Hu. apply elem_of_cons. by right.
  - split; [done|]. split; [|split; [done|by left]]. split; [done|]. split; [done|]. apply orb_false_iff in Hcm as [Hcm _].
    apply Forall_app. split; [done|]. apply Forall_singleton. intros ->. done.
Qed.
Lemma consoleintr_loop_ok keys a d c ws :
  Forall (λ x, 0 ≤ x < 256) keys → cinv c a →
  wp (consoleintr_loop keys d) (λ r s', r = bool_decide (16 ∈ keys) || d ∧ key_post a.1 ws (foldl ld_key a keys) s') (c, ws).
Proof.
  revert a d c ws. induction keys as [|k keys IH]; intros a d c ws Hk Hc; cbn [consoleintr_loop].
  { split; [done|]. split; [done|]. split; [done|by left]. }
  apply Forall_cons in Hk as [Hk Hks]. apply wp_bind. destruct a as [pend line].
  eapply wp_mono; [|by apply (consolekey_ok k pend line)]. intros d' [c' ws'] (-> & H1 & H2 & H3). cbn [fst snd] in *.
  eapply wp_mono; [|by apply (IH (ld_key (pend, line) k) _ c' ws')]. intros r [c2 ws2] (-> & H4 & H5 & H6). cbn [fst snd foldl] in *. split.
  - assert (bool_decide (16 ∈ k :: keys) = (k =? 16) || bool_decide (16 ∈ keys)) as ->; [|by destruct (k =? 16), (bool_decide (16 ∈ keys)), d].
    destruct (Z.eqb_spec k 16) as [->|Hne]; [by rewrite bool_decide_true by (by left)|]. cbn. apply bool_decide_ext.
    rewrite elem_of_cons. split; [intros [?|?]; congruence|by right].
  - split; [done|]. split; [intros u Hu; by apply H5, H2|]. destruct H6 as [H6|H6]; [|by right].
    destruct H3 as [H3|H3]; [left; congruence|right; by apply H5].
Qed.
Lemma set_r_back i : 0 ≤ i_r i < 2 ^ 32 →
  set_r (u32 (i_r (set_r (u32 (i_r i + 1)) i) - 1)) (set_r (u32 (i_r i + 1)) i) = i.
Proof.
  destruct i as [b r w e]. unfold set_r. cbn. intros Hr. f_equal. rewrite u32_sub_l. replace (r + 1 - 1) with r by lia. by apply u32_small.
Qed.
Lemma consoleread_ok kd target n got pend line c ws :
  cinv c (pend, line) →
  wp (consoleread kd target n got)
    (λ r s', r = (ld_read kd target n got pend).1 ∧ cinv s'.1 ((ld_read kd target n got pend).2, line) ∧ s'.2 = ws) (c, ws).
Proof.
  revert got pend c. induction n as [|n IH]; intros got pend c Hc; [done|]. pose proof Hc as (Hs & Hr & Hn). cbn [fst snd] in *.
  cbn [consoleread ld_read]. eapply wp_run; [apply read_state_run|]. rewrite (ring_eq_w _ _ _ Hr). destruct pend as [|x pend].
  { rewrite bool_decide_true by done. by destruct kd. }
  rewrite bool_decide_false by done. eapply wp_run; [apply input_at_run, (ring_head _ _ _ _ Hr)|].
  eapply wp_run; [apply on_input_run|]. change (ctl 68) with 4. pose proof (ring_take _ _ _ _ Hr) as Ht.
  destruct (x =? 4).
  - destruct (S n <? target)%nat.
    + eapply wp_run; [apply on_input_run|]. split; [done|]. split; [|done]. split; [done|]. split; [|done]. cbn [c_in with_in fst].
      rewrite set_r_back by exact (r_r _ _ _ Hr). done.
    + split; [done|]. split; [|done]. by split.
  - destruct (x =? 10).
    + split; [done|]. split; [|done]. by split.
    + apply IH. by split.
Qed.

(** ** Runs of the console *)
Abbreviation cevent := (event unit ccall cresult).
(** The line discipline under the same events. *)
Inductive ld_step : ld → cevent → ld → Prop :=
| ld_call a t k : ld_step a (ECall t k) a
| ld_kill a t : ld_step a (EKill t) a
| ld_intr a t keys :
    ld_step a (ERun t (KIntr keys) (Returns (if bool_decide (16 ∈ keys) then 1 else 0, []))) (foldl ld_key a keys)
| ld_write a t buf : ld_step a (ERun t (KWrite buf) (Returns (Z.of_nat (length buf), []))) a
| ld_take kd pend line t target n got r pend' :
    ld_read kd target n got pend = (r, pend') → ld_step (pend, line) (ERun t (KRead target n got) r) (pend', line).
Inductive ld_run : list cevent → ld → Prop :=
| ld_start : ld_run [] ([], [])
| ld_next es a e a' : ld_run es a → ld_step a e a' → ld_run (es ++ [e]) a'.

(** getc returns bytes; a read starts with nothing stored. *)
Definition key_range (k : ccall) : Prop := match k with KIntr keys => Forall (λ x, 0 ≤ x < 256) keys | _ => True end.
Definition cons_may (s : console) (T : gmap nat (thread unit ccall)) (t : nat) (k : ccall) : Prop :=
  key_range k ∧ match k with KRead target n got => n = target ∧ got = [] | _ => True end.
#[global] Instance key_range_dec k : Decision (key_range k).
Proof. destruct k; apply _. Defined.
#[global] Instance cons_may_dec s T t k : Decision (cons_may s T t k).
Proof. unfold cons_may. apply and_dec; [apply _|]. destruct k; apply _. Defined.

Lemma ld_read_sleeps kd target n got pend ch k' :
  (ld_read kd target n got pend).1 = Sleeps ch k' → (ld_read kd target n got pend).2 = [] ∧ key_range k'.
Proof.
  revert got pend. induction n as [|n IH]; intros got pend; [done|]. cbn [ld_read]. destruct pend as [|x pend].
  { destruct kd; [done|]. by intros [= _ <-]. }
  destruct (x =? 4); [done|]. destruct (x =? 10); [done|]. apply IH.
Qed.
(** Every segment runs to its end and does what the line discipline does. *)
Lemma seg_ok t kd k c a :
  key_range k → cinv c a →
  ∃ r c' ws a', cons_seg t kd k (c, []) = Ok r (c', ws) ∧ cinv c' a' ∧ ld_step a (ERun t k r) a' ∧
    (a.1 = [] → tt ∉ ws → a'.1 = []) ∧ (∀ ch k', r = Sleeps ch k' → a'.1 = [] ∧ key_range k').
Proof.
  intros Hk Hc. destruct k as [keys|buf|target n got]; cbn [cons_seg].
  - assert (wp (consoleintr keys) (λ r s', r = Returns (if bool_decide (16 ∈ keys) then 1 else 0, []) ∧
        key_post a.1 [] (foldl ld_key a keys) s') (c, [])) as (r & [c' ws] & Hrun & -> & H1 & _ & H3)%wp_ok.
    { unfold consoleintr. apply wp_bind. eapply wp_mono; [|by apply (consoleintr_loop_ok keys a false)].
      intros r s' (-> & Hp). rewrite orb_false_r. split; [by destruct (bool_decide (16 ∈ keys))|done]. }
    eexists _, c', ws, _. split; [exact Hrun|]. split; [exact H1|]. split; [constructor|]. split; [|done].
    intros Ha Hw. destruct H3 as [->|H3]; done.
  - destruct Hc as (Hs & Hr & Hn). assert (wp (consolewrite buf) (λ r s', r = Returns (Z.of_nat (length buf), []) ∧
        cinv s'.1 a) (c, [])) as (r & [c' ws] & Hrun & -> & H1)%wp_ok.
    { unfold consolewrite. apply wp_bind. eapply wp_mono; [|by apply (consputs_ok (λ x, Z.land x 0xff))].
      intros [] s' (H1 & H2 & _). split; [done|]. split; [done|]. by rewrite H2. }
    eexists _, c', ws, a. split; [exact Hrun|]. split; [exact H1|]. split; [constructor|]. by split.
  - destruct a as [pend line]. pose proof (consoleread_ok kd target n got pend line c [] Hc) as (r & [c' ws] & Hrun & -> & H1 & Hws)%wp_ok.
    cbn [fst snd] in *. subst ws. eexists _, c', [], _. split; [exact Hrun|]. split; [exact H1|]. split; [econstructor; apply surjective_pairing|].
    cbn [fst snd]. split; [intros ->; by destruct n|]. apply ld_read_sleeps.
Qed.

Lemma run_refines mk s0 m es :
  cinv s0 ([], []) → reachable cons_seg cons_may mk s0 m es →
  ∃ a, ld_run es a ∧ cinv (st m) a ∧
    (∀ t th, thr m !! t = Some th → key_range (t_at th) ∧ (∀ ch, t_chan th = Some ch → a.1 = [])).
Proof.
  intros H0 Hr. induction Hr as [|m es e m' _ (a & Ha & Hc & HT) Hst].
  { exists ([], []). split; [constructor|]. split; [done|]. by intros t th ?. }
  destruct Hst as [s T t k Hn [Hk _]|s T t th s' ws r Ht Hch Hseg|s T t th Ht _]; cbn [st thr] in *.
  - exists a. split; [econstructor; [done|constructor]|]. split; [done|]. intros u uth.
    rewrite lookup_insert_Some. intros [[<- <-]|[_ Hu]]; [done|by apply (HT u)].
  - destruct (HT t th Ht) as [Hkr _]. destruct (seg_ok t (t_killed th) (t_at th) s a Hkr Hc) as (r2 & c' & ws2 & a' & Hrun & Hc' & Hld & Hw & Hsl).
    rewrite Hseg in Hrun. injection Hrun as <- <- <-. exists a'. split; [by econstructor|]. split; [done|].
    assert (∀ u uth, wake ws T !! u = Some uth → key_range (t_at uth) ∧ (∀ ch, t_chan uth = Some ch → a'.1 = [])) as Hothers.
    { intros u uth (uth0 & Hu & ->)%wake_lookup. destruct (HT u uth0 Hu) as [Hk Hs]. split; [by rewrite wake_thread_at|].
      intros ch (Hc0 & Hni & _)%wake_thread_asleep. destruct ch. apply Hw; [by eapply Hs|done]. }
    intros u uth. destruct r as [ch k'|r]; cbn [settle].
    + rewrite lookup_insert_Some. intros [[<- <-]|[_ Hu]]; [|by apply (Hothers u)]. cbn.
      destruct (Hsl ch k' eq_refl) as [Hp Hk']. split; [done|]. by intros ch' [= <-].
    + rewrite lookup_delete_Some. intros [_ Hu]. by apply (Hothers u).
  - exists a. split; [econstructor; [done|constructor]|]. split; [done|]. destruct (HT t th Ht) as [Hk _]. intros u uth.
    rewrite lookup_insert_Some. intros [[<- <-]|[_ Hu]]; [done|by apply (HT u)].
Qed.

(** consoleinit, and a cleared screen. *)
Definition cons_init : console := mkCons (mkIn (replicate 128 0) 0 0 0) [] 0 (replicate 2000 0) false.
Lemma cons_init_ok : cinv cons_init ([], []).
Proof. split; [done|]. split; [|constructor]. split; cbn; try done; lia. Qed.

(** C26: the console is a line discipline, whatever the interleaving of interrupts, readers, writers
    and kills and although its counters wrap around: the ring buffer holds the committed bytes and
    the edited line of the abstract discipline after the same events; a reader sleeps only when
    nothing is committed; every call runs without panic or access outside the buffers. *)
Theorem console_line_discipline mk m es :
  reachable cons_seg cons_may mk cons_init m es →
  ∃ pend line, ld_run es (pend, line) ∧ ring (c_in (st m)) pend line ∧
    (∀ t th ch, thr m !! t = Some th → t_chan th = Some ch → pend = []) ∧
    (∀ t th, thr m !! t = Some th → ∃ r s', cons_seg t (t_killed th) (t_at th) (st m, []) = Ok r s').
Proof.
  intros Hr. destruct (run_refines _ _ _ _ cons_init_ok Hr) as ([pend line] & Ha & Hc & HT). exists pend, line.
  split; [done|]. split; [apply Hc|]. split.
  - intros t th ch Ht. by apply (HT t th Ht).
  - intros t th Ht. destruct (HT t th Ht) as [Hk _].
    destruct (seg_ok t (t_killed th) (t_at th) (st m) _ Hk Hc) as (r & c' & ws & a' & Hrun & _). by exists r, (c', ws).
Qed.

(** A reader sleeps; "hx", backspace, "i" and return are typed; it gets the line. *)
Definition demo_cons_acts : list (action ccall) :=
  [ACall 1 (KRead 100 100 []); ARun 1; ACall 2 (KIntr [104; 120; 8; 105; 13]); ARun 2; ARun 1].
Definition replay_cons (l : list (action ccall)) := replay cons_seg true (mkMon cons_init ∅) [] l.
Lemma replay_cons_run l m es :
  bool_decide (calls_ok cons_seg cons_may true (mkMon cons_init ∅) l) = true →
  replay_cons l = Some (m, es) → reachable cons_seg cons_may true cons_init m es.
Proof. intros H. apply replay_reachable; [constructor|]. by eapply bool_decide_eq_true. Qed.
Lemma console_line_discipline_witness :
  ∃ m es, reachable cons_seg cons_may true cons_init m es ∧
    last es = Some (ERun 1 (KRead 100 100 []) (Returns (3, [104; 105; 10]))) ∧
    ∃ pend line, ld_run es (pend, line) ∧ ring (c_in (st m)) pend line.
Proof.
  destruct (replay_cons demo_cons_acts) as [[m es]|] eqn:E; [|vm_compute in E; discriminate E].
  assert (reachable cons_seg cons_may true cons_init m es) as Hr by (apply (replay_cons_run demo_cons_acts); [vm_compute; reflexivity|exact E]).
  exists m, es. split; [exact Hr|]. split.
  - vm_compute in E. injection E as _ <-. reflexivity.
  - destruct (console_line_discipline true m es Hr) as (pend & line & H1 & H2 & _). exists pend, line. split; [exact H1|exact H2].
Defined.
