(* ===== verification/Kbd.v ===== *)
(** * The keyboard (kbd.c)

    kbdgetc turns scan codes into characters, with the state of the modifier keys in
    [shift]; kbdintr gives them to consoleintr until the controller has no data. *)

From S2P Require Import Prelude Monitor Console Consprops.

Definition SHIFT : Z := 1.
Definition CTL : Z := 2.
Definition ALT : Z := 4.
Definition CAPSLOCK : Z := 8.
Definition NUMLOCK : Z := 16.
Definition SCROLLLOCK : Z := 32.
Definition E0ESC : Z := 64.

(** A [uchar] array of 256 entries: its first entries, entries set by index, zeros. *)
Definition table (l : list Z) (over : list (nat * Z)) : list Z :=
  foldr (λ p t, <[p.1 := p.2]> t) (l ++ replicate (256 - length l) 0) over.
Definition shiftcode : list Z :=
  table [] [(0x1d, CTL); (0x2a, SHIFT); (0x36, SHIFT); (0x38, ALT); (0x9d, CTL); (0xb8, ALT)]%nat.
Definition togglecode : list Z := table [] [(0x3a, CAPSLOCK); (0x45, NUMLOCK); (0x46, SCROLLLOCK)]%nat.
Definition normalmap : list Z := table
  [0; 27; 49; 50; 51; 52; 53; 54;
   55; 56; 57; 48; 45; 61; 8; 9;
   113; 119; 101; 114; 116; 121; 117; 105;
   111; 112; 91; 93; 10; 0; 97; 115;
   100; 102; 103; 104; 106; 107; 108; 59;
   39; 96; 0; 92; 122; 120; 99; 118;
   98; 110; 109; 44; 46; 47; 0; 42;
   0; 32; 0; 0; 0; 0; 0; 0;
   0; 0; 0; 0; 0; 0; 0; 55;
   56; 57; 45; 52; 53; 54; 43; 49;
   50; 51; 48; 46; 0; 0; 0; 0]
  [(0x9c%nat, 10); (0xb5%nat, 47); (0xc8%nat, 226); (0xd0%nat, 227); (0xc9%nat, 230); (0xd1%nat, 231); (0xcb%nat, 228); (0xcd%nat, 229); (0x97%nat, 224); (0xcf%nat, 225); (0xd2%nat, 232); (0xd3%nat, 233)].
Definition shiftmap : list Z := table
  [0; 27; 33; 64; 35; 36; 37; 94;
   38; 42; 40; 41; 95; 43; 8; 9;
   81; 87; 69; 82; 84; 89; 85; 73;
   79; 80; 123; 125; 10; 0; 65; 83;
   68; 70; 71; 72; 74; 75; 76; 58;
   34; 126; 0; 124; 90; 88; 67; 86;
   66; 78; 77; 60; 62; 63; 0; 42;
   0; 32; 0; 0; 0; 0; 0; 0;
   0; 0; 0; 0; 0; 0; 0; 55;
   56; 57; 45; 52; 53; 54; 43; 49;
   50; 51; 48; 46; 0; 0; 0; 0]
  [(0x9c%nat, 10); (0xb5%nat, 47); (0xc8%nat, 226); (0xd0%nat, 227); (0xc9%nat, 230); (0xd1%nat, 231); (0xcb%nat, 228); (0xcd%nat, 229); (0x97%nat, 224); (0xcf%nat, 225); (0xd2%nat, 232); (0xd3%nat, 233)].
Definition ctlmap : list Z := table
  [0; 0; 0; 0; 0; 0; 0; 0;
   0; 0; 0; 0; 0; 0; 0; 0;
   17; 23; 5; 18; 20; 25; 21; 9;
   15; 16; 0; 0; 13; 0; 1; 19;
   4; 6; 7; 8; 10; 11; 12; 0;
   0; 0; 0; 28; 26; 24; 3; 22;
   2; 14; 13; 0; 0; 239; 0; 0]
  [(0x9c%nat, 13); (0xb5%nat, 239); (0xc8%nat, 226); (0xd0%nat, 227); (0xc9%nat, 230); (0xd1%nat, 231); (0xcb%nat, 228); (0xcd%nat, 229); (0x97%nat, 224); (0xcf%nat, 225); (0xd2%nat, 232); (0xd3%nat, 233)].
(** [charcode] *)
Definition charcode (k : Z) : list Z :=
  if k =? 0 then normalmap else if k =? 1 then shiftmap else ctlmap.

(** kbdgetc: the data port holds a byte, or [None] when nothing is in the buffer.  The
    state is [shift]; an index outside a table is undefined. *)
Definition kbdgetc (port : option Z) : M Z Z :=
  match port with
  | None => mret (-1)
  | Some data =>
      shift ← get;
      if data =? 0xe0 then modify (λ s, Z.lor s E0ESC) ;; mret 0
      else if negb (Z.land data 0x80 =? 0) then
        let data := if Z.land shift E0ESC =? 0 then Z.land data 0x7f else data in
        code ← array_get "shiftcode" shiftcode data;
        modify (λ s, Z.land s (Z.lnot (Z.lor code E0ESC))) ;;
        mret 0
      else
        let '(data, shift) := if Z.land shift E0ESC =? 0 then (data, shift)
                              else (Z.lor data 0x80, Z.land shift (Z.lnot E0ESC)) in
        code ← array_get "shiftcode" shiftcode data;
        toggle ← array_get "togglecode" togglecode data;
        let shift := Z.lxor (Z.lor shift code) toggle in
        modify (λ _, shift) ;;
        c ← array_get "charcode" (charcode (Z.land shift 3)) data;
        mret (if Z.land shift CAPSLOCK =? 0 then c
              else if (97 <=? c) && (c <=? 122) then c - 32
              else if (65 <=? c) && (c <=? 90) then c + 32
              else c)
  end.
(** kbdintr on the bytes that the controller has: the characters that kbdgetc returns. *)
Fixpoint kbd_keys (port : list Z) : M Z (list Z) :=
  match port with
  | [] => mret []
  | d :: port => c ← kbdgetc (Some d); l ← kbd_keys port; mret (c :: l)
  end.
Definition kbdintr (port : list Z) : M (Z * console) (Z * list Z) := λ s,
  match kbd_keys port s.1 with
  | Ok keys shift =>
      match alone (consoleintr keys) s.2 with
      | Ok r c => Ok r (shift, c) | Panic e => Panic e | Undef e => Undef e | Spin => Spin
      end
  | Panic e => Panic e | Undef e => Undef e | Spin => Spin
  end.

(** ** The tables *)
Definition table_ok (m : Z) (t : list Z) : bool := (length t =? 256)%nat && forallb (λ x, (0 <=? x) && (x <? m)) t.
Lemma table_get {S} what m t i (s : S) :
  table_ok m t = true → 0 ≤ i < 256 → ∃ x, array_get what t i s = Ok x s ∧ 0 ≤ x < m.
Proof.
  intros [Hl Hf]%andb_true_iff Hi. apply Nat.eqb_eq in Hl.
  destruct (lookup_lt_is_Some_2 t (Z.to_nat i) ltac:(lia)) as [x Hx]. exists x. split; [apply array_get_ok; [lia|done]|].
  rewrite forallb_forall in Hf. specialize (Hf x ltac:(apply list_elem_of_In; by eapply list_elem_of_lookup_2)). cbn in Hf. lia.
Qed.
Lemma tables_ok :
  table_ok 128 shiftcode = true ∧ table_ok 128 togglecode = true ∧ ∀ k, table_ok 256 (charcode k) = true.
Proof.
  split; [vm_compute; reflexivity|]. split; [vm_compute; reflexivity|]. intros k. unfold charcode.
  destruct (k =? 0); [vm_compute; reflexivity|]. destruct (k =? 1); vm_compute; reflexivity.
Qed.
Lemma land_below a b n : 0 ≤ n → 0 ≤ a < 2 ^ n → 0 ≤ Z.land a b < 2 ^ n.
Proof.
  intros Hn Ha. rewrite <- (Z.mod_small a (2 ^ n)) by done. rewrite <- Z.land_ones, <- Z.land_assoc, (Z.land_comm (Z.ones n)), Z.land_assoc, Z.land_ones by done.
  apply Z.mod_pos_bound. lia.
Qed.
Lemma lor_below a b n : 0 ≤ n → 0 ≤ a < 2 ^ n → 0 ≤ b < 2 ^ n → 0 ≤ Z.lor a b < 2 ^ n.
Proof.
  intros Hn Ha Hb. rewrite <- (Z.mod_small a (2 ^ n)), <- (Z.mod_small b (2 ^ n)) by done.
  rewrite <- !Z.land_ones, <- Z.land_lor_distr_l, Z.land_ones by done. apply Z.mod_pos_bound. lia.
Qed.
Lemma lxor_below a b n : 0 ≤ n → 0 ≤ a < 2 ^ n → 0 ≤ b < 2 ^ n → 0 ≤ Z.lxor a b < 2 ^ n.
Proof.
  intros Hn Ha Hb. assert (Z.lxor a b = Z.land (Z.lxor a b) (Z.ones n)) as ->.
  { apply Z.bits_inj'. intros i Hi. rewrite Z.land_spec, Z.testbit_ones_nonneg by done. destruct (Z.ltb_spec i n) as [Hl|Hl]; [by rewrite andb_true_r|].
    rewrite andb_false_r, Z.lxor_spec, <- (Z.mod_small a (2 ^ n)), <- (Z.mod_small b (2 ^ n)) by done. by rewrite !Z.mod_pow2_bits_high by lia. }
  rewrite Z.land_ones by done. apply Z.mod_pos_bound. lia.
Qed.

(** kbdgetc stays within its tables and returns a byte; [shift] keeps to its seven bits. *)
Lemma kbdgetc_ok data shift :
  0 ≤ data < 256 → 0 ≤ shift < 128 →
  wp (kbdgetc (Some data)) (λ c shift', 0 ≤ c < 256 ∧ 0 ≤ shift' < 128) shift.
Proof.
  intros Hd Hs. destruct tables_ok as (Ht1 & Ht2 & Ht3). cbn [kbdgetc]. apply wp_bind. unfold wp at 1, get.
  assert (0 ≤ E0ESC < 2 ^ 7) as HE by (unfold E0ESC; lia). change 128 with (2 ^ 7) in Hs.
  destruct (data =? 0xe0); [split; [lia|]; apply (lor_below _ _ 7); [lia|done|done]|].
  destruct (negb (Z.land data 0x80 =? 0)).
  - set (d := if Z.land shift E0ESC =? 0 then Z.land data 0x7f else data).
    assert (0 ≤ d < 256) as Hd' by (unfold d; destruct (_ =? 0); [apply (land_below _ _ 8); [lia|done]|done]).
    destruct (table_get "shiftcode" 128 shiftcode d shift Ht1 Hd') as (code & Hrun & Hcode).
    apply wp_bind. unfold wp at 1. rewrite Hrun. cbn. split; [lia|]. apply (land_below _ _ 7); [lia|done].
  - set (p := if Z.land shift E0ESC =? 0 then (data, shift) else (Z.lor data 0x80, Z.land shift (Z.lnot E0ESC))).
    assert (0 ≤ p.1 < 256 ∧ 0 ≤ p.2 < 2 ^ 7) as [Hp1 Hp2].
    { unfold p. destruct (_ =? 0); cbn [fst snd]; [done|]. split; [apply (lor_below _ _ 8); lia|apply land_below; [lia|done]]. }
    rewrite (surjective_pairing p). generalize (p.1) (p.2) Hp1 Hp2. clear p Hp1 Hp2. intros d sh Hd' Hsh.
    destruct (table_get "shiftcode" 128 shiftcode d shift Ht1 Hd') as (code & Hrun & Hcode). apply wp_bind. unfold wp at 1. rewrite Hrun.
    destruct (table_get "togglecode" 128 togglecode d shift Ht2 Hd') as (tg & Hrun2 & Htg). apply wp_bind. unfold wp at 1. rewrite Hrun2.
    set (sh' := Z.lxor (Z.lor sh code) tg). assert (0 ≤ sh' < 2 ^ 7) as Hsh' by (apply lxor_below; [lia|apply lor_below; [lia|done|done]|done]).
    destruct (table_get "charcode" 256 (charcode (Z.land sh' 3)) d sh' (Ht3 _) Hd') as (c & Hrun3 & Hc).
    apply wp_bind. unfold wp at 1, modify. apply wp_bind. unfold wp at 1. rewrite Hrun3. cbn. split; [|done].
    destruct (_ =? 0); [done|]. destruct ((97 <=? c) && (c <=? 122)) eqn:E1; [lia|]. destruct ((65 <=? c) && (c <=? 90)) eqn:E2; lia.
Qed.
Lemma kbd_keys_ok port shift :
  Forall (λ d, 0 ≤ d < 256) port → 0 ≤ shift < 128 →
  wp (kbd_keys port) (λ keys shift', key_range (KIntr keys) ∧ 0 ≤ shift' < 128) shift.
Proof.
  intros Hp. revert shift. induction Hp as [|d port Hd Hp IH]; intros shift Hs; [split; [constructor|done]|].
  cbn [kbd_keys]. apply wp_bind. eapply wp_mono; [|by apply kbdgetc_ok]. intros c s' [Hc Hs'].
  apply wp_bind. eapply wp_mono; [|by apply IH]. intros l s2 [Hl Hs2]. split; [by constructor|done].
Qed.
(** The keyboard interrupt: whatever the controller sends, the scan codes are turned into characters
    that edit the line as the discipline says. *)
Theorem kbdintr_edits port shift c a :
  Forall (λ d, 0 ≤ d < 256) port → 0 ≤ shift < 128 → cinv c a →
  ∃ keys shift' r c', kbd_keys port shift = Ok keys shift' ∧ 0 ≤ shift' < 128 ∧
    kbdintr port (shift, c) = Ok r (shift', c') ∧ cinv c' (foldl ld_key a keys).
Proof.
  intros Hp Hs Hc. pose proof (kbd_keys_ok port shift Hp Hs) as (keys & shift' & Hk & Hr & Hs')%wp_ok.
  destruct (seg_ok 0 false (KIntr keys) c a Hr Hc) as (r & c' & ws & a' & Hrun & Hc' & Hst & _).
  inversion Hst; subst. eexists keys, shift', _, c'. split; [done|]. split; [done|]. split; [|exact Hc'].
  unfold kbdintr, alone. cbn [fst snd]. rewrite Hk. cbn [cons_seg] in Hrun. by rewrite Hrun.
Qed.
(** Every character from blank to tilde can be typed, with or without shift. *)
Example kbd_printable :
  forallb (λ c, existsb (λ d, match (c1 ← kbdgetc (Some d); mret c1) 0, (c1 ← kbdgetc (Some d); mret c1) SHIFT with
    | Ok a _, Ok b _ => (a =? c) || (b =? c) | _, _ => false end) (Z.of_nat <$> seq 0 128)) (Z.of_nat <$> seq 32 95) = true.
Proof. vm_compute. reflexivity. Qed.
