(* ===== verification/Pipe.v ===== *)
(** * Pipes (pipe.c)

    The ring buffer with its two 32-bit counters, and the functions that use it
    as segments of a monitor.  [h_in] and [h_out] are history variables: the
    bytes stored in the pipe since it was made and the bytes copied out of it.
    An access after the page of the pipe has been given to kfree is undefined. *)

From S2P Require Import Prelude Monitor.

Definition PIPESIZE : Z := 512.
Record pipe := mkPipe {
  data : list Z;
  nread : Z;
  nwrite : Z;
  readopen : Z;
  writeopen : Z;
  freed : bool;
  h_in : list Z;
  h_out : list Z }.

(** The channels [&p->nread] and [&p->nwrite]. *)
Inductive pchan := NREAD | NWRITE.
#[global] Instance pchan_eq_dec : EqDecision pchan.
Proof. solve_decision. Defined.

(** Where a thread is: in pipewrite with [i] bytes written, in piperead before
    its loop, or in pipeclose. *)
Inductive pcall :=
| KWrite (addr : list Z) (n i : Z)
| KRead (n : Z)
| KClose (writable : bool).
(** The value returned and the bytes put at [addr]. *)
Definition presult : Type := Z * list Z.
Abbreviation PM := (M (pipe * list pchan)).
Abbreviation pseg := (PM (reaction pchan pcall presult)).

Definition deref : PM pipe :=
  p ← read_state id;
  if freed p then undef "pipe used after kfree" else mret p.

(** [p->data[p->nwrite++ % PIPESIZE] = x] *)
Definition put (x : Z) (p : pipe) : pipe :=
  mkPipe (<[Z.to_nat (nwrite p mod PIPESIZE) := x]> (data p)) (nread p) (u32 (nwrite p + 1))
         (readopen p) (writeopen p) (freed p) (h_in p ++ [x]) (h_out p).
Definition full (p : pipe) : bool := nwrite p =? u32 (nread p + PIPESIZE).
Definition empty (p : pipe) : bool := nread p =? nwrite p.

(** pipewrite's loop, [r] bytes to go. *)
Fixpoint write_loop (killed : bool) (addr : list Z) (n : Z) (r : nat) (i : Z) : pseg :=
  match r with
  | O => wakeup NREAD ;; mret (Returns (n, []))
  | S r' =>
      p ← deref;
      if full p then
        if (readopen p =? 0) || killed then mret (Returns (-1, []))
        else wakeup NREAD ;; mret (Sleeps NWRITE (KWrite addr n i))
      else
        x ← array_get "addr" addr i;
        update (put x) ;;
        write_loop killed addr n r' (i + 1)
  end.
Definition pipewrite (killed : bool) (addr : list Z) (n i : Z) : pseg :=
  deref ;; write_loop killed addr n (Z.to_nat (n - i)) i.

(** [addr[i] = p->data[p->nread++ % PIPESIZE]] *)
Definition head_byte (p : pipe) : option Z := data p !! Z.to_nat (nread p mod PIPESIZE).
Definition take_byte (x : Z) (p : pipe) : pipe :=
  mkPipe (data p) (u32 (nread p + 1)) (nwrite p) (readopen p) (writeopen p) (freed p) (h_in p) (h_out p ++ [x]).
(** The copy loop; [r] is how many bytes it may still take. *)
Fixpoint read_loop (r : nat) : PM (list Z) :=
  match r with
  | O => mret []
  | S r' =>
      p ← deref;
      if empty p then mret [] else
      x ← array_get "data" (data p) (nread p mod PIPESIZE);
      update (take_byte x) ;;
      l ← read_loop r';
      mret (x :: l)
  end.
Definition piperead (killed : bool) (n : Z) : pseg :=
  p ← deref;
  if empty p && negb (writeopen p =? 0) then
    if (killed : bool) then mret (Returns (-1, [])) else mret (Sleeps NREAD (KRead n))
  else
    l ← read_loop (Z.to_nat n);
    wakeup NWRITE ;;
    mret (Returns (Z.of_nat (length l), l)).

Definition close_write (p : pipe) : pipe :=
  mkPipe (data p) (nread p) (nwrite p) (readopen p) 0 (freed p) (h_in p) (h_out p).
Definition close_read (p : pipe) : pipe :=
  mkPipe (data p) (nread p) (nwrite p) 0 (writeopen p) (freed p) (h_in p) (h_out p).
Definition kfree_pipe (p : pipe) : pipe :=
  mkPipe (data p) (nread p) (nwrite p) (readopen p) (writeopen p) true (h_in p) (h_out p).
Definition pipeclose (writable : bool) : pseg :=
  deref ;;
  (if writable then update close_write ;; wakeup NREAD else update close_read ;; wakeup NWRITE) ;;
  p ← deref;
  (if (readopen p =? 0) && (writeopen p =? 0) then update kfree_pipe else mret tt) ;;
  mret (Returns (0, [])).

Definition pipe_seg (t : nat) (killed : bool) (k : pcall) : pseg :=
  match k with
  | KWrite addr n i => pipewrite killed addr n i
  | KRead n => piperead killed n
  | KClose w => pipeclose w
  end.

(** pipealloc's initialisation of the page it got. *)
Definition pipe_init (page : list Z) : pipe := mkPipe page 0 0 1 1 false [] [].

(** *** Who calls

    The reference counts of file.c: an end is used through an open file and
    closed when its last reference goes, so nobody is inside a read or a write
    of an end that is closed. *)
Definition uses (writable : bool) (k : pcall) : bool :=
  match k with KWrite _ _ _ => writable | KRead _ => negb writable | KClose w => Bool.eqb w writable end.
Definition end_open (writable : bool) (p : pipe) : Prop :=
  if writable then writeopen p ≠ 0 else readopen p ≠ 0.
#[global] Instance pcall_eq_dec : EqDecision pcall.
Proof. solve_decision. Defined.
Definition not_closing (w : bool) (T : gmap nat (thread pchan pcall)) : Prop :=
  map_Forall (λ _ th, t_at th ≠ KClose w) T.
Definition may_call (p : pipe) (T : gmap nat (thread pchan pcall)) (t : nat) (k : pcall) : Prop :=
  match k with
  | KWrite addr n i => end_open true p ∧ not_closing true T ∧ i = 0 ∧ n = Z.of_nat (length addr)
  | KRead n => end_open false p ∧ not_closing false T ∧ 0 ≤ n
  | KClose w => end_open w p ∧ map_Forall (λ _ th, uses w (t_at th) = false) T
  end.
#[global] Instance may_call_dec p T t k : Decision (may_call p T t k).
Proof. destruct k as [| |w]; simpl; [apply _..|]. destruct w; apply _. Defined.

(** ** The ring buffer holds a queue of bytes *)
Definition count (p : pipe) : Z := u32 (nwrite p - nread p).
Definition slot (p : pipe) (j : Z) : nat := Z.to_nat ((nread p + j) mod PIPESIZE).
Definition buffered (p : pipe) : list Z :=
  (λ j, default 0 (data p !! slot p (Z.of_nat j))) <$> seq 0 (Z.to_nat (count p)).
Record pinv (p : pipe) : Prop := {
  pi_data : length (data p) = 512%nat;
  pi_read : 0 ≤ nread p < 2 ^ 32;
  pi_write : 0 ≤ nwrite p < 2 ^ 32;
  pi_count : count p ≤ PIPESIZE;
  pi_fifo : h_in p = h_out p ++ buffered p;
  pi_freed : freed p = true → readopen p = 0 ∧ writeopen p = 0 }.

Lemma buffered_length p : length (buffered p) = Z.to_nat (count p).
Proof. unfold buffered. by rewrite length_fmap, length_seq. Qed.
Lemma mod_512 z : u32 z mod PIPESIZE = z mod PIPESIZE.
Proof. unfold u32, PIPESIZE. rewrite (Z.mod_eq z (2 ^ 32)) by done.
  rewrite <- (Z_mod_plus_full z (- (z / 2 ^ 32 * 2 ^ 23)) 512) . f_equal. lia. Qed.
Lemma count_write p : 0 ≤ nwrite p < 2 ^ 32 → u32 (nread p + count p) = nwrite p.
Proof.
  intros Hw. unfold count, u32. rewrite Zplus_mod_idemp_r. replace (nread p + (nwrite p - nread p)) with (nwrite p) by lia.
  by apply Z.mod_small.
Qed.
Lemma count_range p : 0 ≤ count p < 2 ^ 32.
Proof. apply u32_range. Qed.
Lemma write_slot p : 0 ≤ nwrite p < 2 ^ 32 → Z.to_nat (nwrite p mod PIPESIZE) = slot p (count p).
Proof. intros Hw. unfold slot. rewrite <- (count_write p Hw) at 1. by rewrite mod_512. Qed.
Lemma slot_lt p j : (slot p j < 512)%nat.
Proof. unfold slot. assert (0 ≤ (nread p + j) mod PIPESIZE < 512) by (apply Z.mod_pos_bound; done). lia. Qed.
Lemma slot_inj p j k : 0 ≤ j < PIPESIZE → 0 ≤ k < PIPESIZE → slot p j = slot p k → j = k.
Proof.
  unfold slot, PIPESIZE. intros Hj Hk Heq.
  assert ((nread p + j) mod 512 = (nread p + k) mod 512) as Hm.
  { apply Z2Nat.inj; [apply Z.mod_pos_bound; lia..|done]. }
  pose proof (Z.div_mod (nread p + j) 512 ltac:(lia)). pose proof (Z.div_mod (nread p + k) 512 ltac:(lia)). lia.
Qed.
Lemma full_count p : pinv p → full p = bool_decide (count p = PIPESIZE).
Proof.
  intros Hp. pose proof (count_write p (pi_write p Hp)) as Hc. unfold full.
  case_bool_decide as E; [apply Z.eqb_eq; congruence|]. apply Z.eqb_neq. intros Heq. apply E.
  unfold count. rewrite Heq. unfold u32. rewrite Zminus_mod_idemp_l.
  replace (nread p + PIPESIZE - nread p) with PIPESIZE by lia. done.
Qed.
Lemma empty_count p : pinv p → empty p = bool_decide (count p = 0).
Proof.
  intros Hp. pose proof (count_write p (pi_write p Hp)) as Hc. unfold empty.
  case_bool_decide as E.
  - apply Z.eqb_eq. rewrite <- Hc, E, Z.add_0_r. symmetry. apply u32_small, Hp.
  - apply Z.eqb_neq. intros Heq. apply E. unfold count. by rewrite Heq, Z.sub_diag.
Qed.

Lemma put_count p x : pinv p → full p = false → count (put x p) = count p + 1.
Proof.
  intros Hp Hf. rewrite full_count in Hf by done. apply bool_decide_eq_false in Hf.
  pose proof (pi_count p Hp). pose proof (count_range p).
  transitivity (u32 (count p + 1)); [|apply u32_small; unfold PIPESIZE in *; lia].
  unfold count. simpl. unfold u32. rewrite Zminus_mod_idemp_l, Zplus_mod_idemp_l. f_equal. lia.
Qed.
Lemma put_inv p x : pinv p → freed p = false → full p = false → pinv (put x p).
Proof.
  intros Hp Hfr Hf. pose proof (put_count p x Hp Hf) as Hc. pose proof (pi_count p Hp). pose proof (count_range p).
  assert (count p < PIPESIZE) as Hlt.
  { rewrite full_count in Hf by done. apply bool_decide_eq_false in Hf. lia. }
  constructor; simpl; [|apply Hp|apply u32_range|lia| |congruence].
  - rewrite length_insert. apply Hp.
  - rewrite (pi_fifo p Hp), <- app_assoc. f_equal. unfold buffered. rewrite Hc.
    replace (Z.to_nat (count p + 1)) with (S (Z.to_nat (count p))) by lia.
    rewrite seq_S, fmap_app. f_equal.
    + apply list_fmap_ext. intros i j Hj. apply lookup_seq in Hj as [-> Hj]. simpl. f_equal.
      rewrite write_slot by apply Hp. symmetry. apply list_lookup_insert_ne.
      intros Heq%slot_inj; unfold PIPESIZE in *; lia.
    + simpl. f_equal. rewrite write_slot by apply Hp.
      replace (slot (put x p) _) with (slot p (count p)) by (unfold slot; simpl; do 2 f_equal; lia).
      rewrite list_lookup_insert_eq; [done|]. rewrite (pi_data p Hp). apply slot_lt.
Qed.
Lemma take_count p x : pinv p → empty p = false → count (take_byte x p) = count p - 1.
Proof.
  intros Hp He. rewrite empty_count in He by done. apply bool_decide_eq_false in He.
  pose proof (count_range p).
  transitivity (u32 (count p - 1)); [|apply u32_small; lia].
  unfold count. simpl. unfold u32. rewrite Zminus_mod_idemp_r, Zminus_mod_idemp_l. f_equal. lia.
Qed.
Lemma take_inv p x :
  pinv p → freed p = false → empty p = false → data p !! Z.to_nat (nread p mod PIPESIZE) = Some x →
  pinv (take_byte x p).
Proof.
  intros Hp Hfr He Hx. pose proof (take_count p x Hp He) as Hc. pose proof (pi_count p Hp). pose proof (count_range p).
  assert (0 < count p) as Hlt.
  { rewrite empty_count in He by done. apply bool_decide_eq_false in He. lia. }
  constructor; simpl; [apply Hp|apply u32_range|apply Hp|lia| |congruence].
  rewrite (pi_fifo p Hp), <- app_assoc. f_equal. unfold buffered. rewrite Hc.
  replace (Z.to_nat (count p)) with (S (Z.to_nat (count p - 1))) by lia. simpl. f_equal.
  - unfold slot. simpl. rewrite Z.add_0_r. by rewrite Hx.
  - rewrite <- (fmap_S_seq 0), <- list_fmap_compose. apply list_fmap_ext. intros i j _. simpl. do 2 f_equal.
    unfold slot. f_equal. simpl. rewrite <- (mod_512 (u32 _ + _)). unfold u32. rewrite Zplus_mod_idemp_l.
    change ((nread p + 1 + Z.of_nat j) mod 2 ^ 32) with (u32 (nread p + 1 + Z.of_nat j)). rewrite mod_512.
    f_equal. lia.
Qed.

(** ** What each segment does *)
Lemma deref_inv s p s' : deref s = Ok p s' → p = s.1 ∧ s' = s ∧ freed s.1 = false.
Proof.
  unfold deref, read_state, gets, mbind, M_bind. simpl. destruct (freed (s.1)) eqn:E; [done|].
  by intros [= <- <-].
Qed.
Lemma deref_run s : freed s.1 = false → deref s = Ok s.1 s.
Proof. unfold deref, read_state, gets, mbind, M_bind. simpl. by intros ->. Qed.

(** The fields the loops leave alone. *)
Definition same_ends (p p' : pipe) : Prop :=
  readopen p' = readopen p ∧ writeopen p' = writeopen p ∧ freed p' = freed p.

Lemma write_loop_inv killed addr n r i p ws res p' ws' :
  write_loop killed addr n r i (p, ws) = Ok res (p', ws') → pinv p →
  pinv p' ∧ same_ends p p' ∧ h_out p' = h_out p ∧ (full p = true → p' = p) ∧
  match res with
  | Returns (v, l) => l = [] ∧ ((v = n ∧ ws' = NREAD :: ws) ∨
                               (v = -1 ∧ full p' = true ∧ (readopen p' = 0 ∨ killed = true) ∧ ws' = ws))
  | Sleeps c k => c = NWRITE ∧ ws' = NREAD :: ws ∧ full p' = true ∧ readopen p' ≠ 0 ∧ ∃ i', i ≤ i' ∧ k = KWrite addr n i'
  end.
Proof.
  revert i p. induction r as [|r IH]; intros i p H Hp; simpl in H.
  - injection H as <- <- <-. split_and!; first [done|by left|by split_and!].
  - apply bind_ok in H as (p0 & s0 & (-> & -> & Hfr)%deref_inv & H). simpl in *.
    destruct (full p) eqn:Hf.
    + destruct (readopen p =? 0) eqn:Hro; simpl in H.
      { injection H as <- <- <-. apply Z.eqb_eq in Hro. split_and!; [done..|]. right. auto. }
      apply Z.eqb_neq in Hro. destruct killed; injection H as <- <- <-.
      { split_and!; [done..|]. right. auto. }
      split_and!; [done..|]. by exists i.
    + apply bind_ok in H as (x & s0 & (_ & _ & ->)%array_get_inv & H).
      apply bind_ok in H as ([] & s0 & [= <-] & H).
      destruct (IH _ _ H) as (? & (? & ? & ?) & ? & _ & Hres); [by apply put_inv|].
      split_and!; [done..|]. destruct res as [c k|[v l]]; [|done].
      destruct Hres as (? & ? & ? & ? & i' & ? & ?). split_and!; [done..|]. exists i'. split; [lia|done].
Qed.

Lemma read_loop_inv r p ws l p' ws' :
  read_loop r (p, ws) = Ok l (p', ws') → pinv p →
  pinv p' ∧ same_ends p p' ∧ h_in p' = h_in p ∧ h_out p' = h_out p ++ l ∧ ws' = ws ∧
  l = take r (buffered p).
Proof.
  revert p l. induction r as [|r IH]; intros p l H Hp; simpl in H.
  - injection H as <- <- <-. rewrite app_nil_r. split_and!; first [done|by left|by split_and!].
  - apply bind_ok in H as (p0 & s0 & (-> & -> & Hfr)%deref_inv & H). simpl in *.
    destruct (empty p) eqn:He.
    + injection H as <- <- <-. rewrite app_nil_r. split_and!; [done..|].
      rewrite empty_count in He by done. apply bool_decide_eq_true in He. unfold buffered. by rewrite He.
    + apply bind_ok in H as (x & s0 & (_ & Hx & ->)%array_get_inv & H).
      apply bind_ok in H as ([] & s0 & [= <-] & H).
      apply bind_ok in H as (l' & s0 & H & [= <- ->]).
      pose proof (take_inv p x Hp Hfr He Hx) as Hp'.
      destruct (IH _ _ H Hp') as (? & (? & ? & ?) & ? & Ho & ? & ->).
      split_and!; [done..|rewrite Ho; simpl; by rewrite <- app_assoc|done|].
      pose proof (pi_fifo p Hp) as Hq. pose proof (pi_fifo _ Hp') as Hq'. simpl in Hq'.
      rewrite Hq, <- app_assoc in Hq'. apply app_inv_head in Hq'. by rewrite Hq'.
Qed.

Lemma pipeclose_inv w p res p' ws :
  pipeclose w (p, []) = Ok res (p', ws) → pinv p →
  pinv p' ∧ buffered p' = buffered p ∧ count p' = count p ∧ h_out p' = h_out p ∧ h_in p' = h_in p ∧
  freed p = false ∧ freed p' = (readopen p' =? 0) && (writeopen p' =? 0) ∧
  res = Returns (0, []) ∧
  (if w then writeopen p' = 0 ∧ readopen p' = readopen p ∧ ws = [NREAD]
   else readopen p' = 0 ∧ writeopen p' = writeopen p ∧ ws = [NWRITE]).
Proof.
  unfold pipeclose. intros H Hp. apply bind_ok in H as (p0 & s0 & (-> & -> & Hfr)%deref_inv & H). simpl in Hfr.
  destruct Hp as [H1 H2 H3 H4 H5 _].
  destruct w; simpl in H; apply bind_ok in H as (? & s1 & [= _ <-] & H);
    apply bind_ok in H as (p0 & s0 & (-> & -> & _)%deref_inv & H); simpl in H;
    apply bind_ok in H as (? & s1 & Hif & H); injection H as <- ->.
  - destruct (readopen p =? 0) eqn:Hr; simpl in Hif; injection Hif as _ <- <-; simpl;
      rewrite ?Hr; split_and!; try done; constructor; simpl; try done;
      first [congruence|intros _; by apply Z.eqb_eq in Hr].
  - destruct (writeopen p =? 0) eqn:Hr; simpl in Hif; injection Hif as _ <- <-; simpl;
      rewrite ?Hr; split_and!; try done; constructor; simpl; try done;
      first [congruence|intros _; by apply Z.eqb_eq in Hr].
Qed.

Lemma piperead_inv killed n p res p' ws :
  piperead killed n (p, []) = Ok res (p', ws) → pinv p →
  freed p = false ∧ pinv p' ∧ same_ends p p' ∧ h_in p' = h_in p ∧
  match res with
  | Sleeps c k => p' = p ∧ ws = [] ∧ c = NREAD ∧ k = KRead n ∧ count p = 0 ∧ writeopen p ≠ 0 ∧ killed = false
  | Returns (v, l) => h_out p' = h_out p ++ l ∧
      ((v = -1 ∧ l = [] ∧ p' = p ∧ ws = [] ∧ killed = true) ∨
       (v = Z.of_nat (length l) ∧ l = take (Z.to_nat n) (buffered p) ∧ ws = [NWRITE]))
  end.
Proof.
  unfold piperead. intros H Hp. apply bind_ok in H as (p0 & s0 & (-> & -> & Hfr)%deref_inv & H). simpl in *.
  split; [done|]. rewrite empty_count in H by done.
  destruct (bool_decide (count p = 0)) eqn:Hc; simpl in H.
  - destruct (writeopen p =? 0) eqn:Hw; simpl in H.
    + apply bind_ok in H as (l & [p1 ws1] & H & Hret). injection Hret as <- <- <-.
      apply read_loop_inv in H as (? & ? & ? & ? & -> & ->); [|done].
      split_and!; [done..|]. right. done.
    + apply bool_decide_eq_true in Hc. apply Z.eqb_neq in Hw.
      destruct killed; injection H as <- <- <-; [|by split_and!].
      rewrite app_nil_r. split_and!; [done..|]. by left.
  - apply bind_ok in H as (l & [p1 ws1] & H & Hret). injection Hret as <- <- <-.
    apply read_loop_inv in H as (? & ? & ? & ? & -> & ->); [|done].
    split_and!; [done..|]. right. done.
Qed.
Lemma pipewrite_inv killed addr n i p res p' ws :
  pipewrite killed addr n i (p, []) = Ok res (p', ws) →
  freed p = false ∧ write_loop killed addr n (Z.to_nat (n - i)) i (p, []) = Ok res (p', ws).
Proof. unfold pipewrite. by intros (p0 & s0 & (-> & -> & Hfr)%deref_inv & H)%bind_ok. Qed.

Lemma pipe_seg_inv t killed k p res p' ws :
  pinv p → pipe_seg t killed k (p, []) = Ok res (p', ws) → pinv p'.
Proof.
  intros Hp H. destruct k as [addr n i|n|w]; simpl in H.
  - apply pipewrite_inv in H as [_ H]. by eapply write_loop_inv.
  - by eapply piperead_inv.
  - by eapply pipeclose_inv.
Qed.
Lemma pinv_init page : length page = 512%nat → pinv (pipe_init page).
Proof. intros H. constructor; simpl; done || lia. Qed.

(** ** The pipe under any interleaving of readers, writers, closers and kills *)
Abbreviation run may_kill page := (reachable pipe_seg may_call may_kill (pipe_init page)).
Definition read_bytes (e : event pchan pcall presult) : list Z :=
  match e with ERun _ (KRead _) (Returns (_, l)) => l | _ => [] end.
(** Everything piperead calls have returned, in order. *)
Definition reads (es : list (event pchan pcall presult)) : list Z := concat (read_bytes <$> es).

Lemma run_inv mk page m es : length page = 512%nat → run mk page m es → pinv (st m).
Proof.
  intros Hl. apply (reachable_state _ _ _ pinv); [by apply pinv_init|]. intros. by eapply pipe_seg_inv.
Qed.
Lemma run_reads mk page m es : length page = 512%nat → run mk page m es → h_out (st m) = reads es.
Proof.
  intros Hl Hr. induction Hr as [|m es e m' Hr IH Hst]; [done|].
  pose proof (run_inv _ _ _ _ Hl Hr) as Hp. unfold reads in *. rewrite fmap_app, concat_app. simpl. rewrite app_nil_r, <- IH.
  destruct Hst as [s T t k _ _|s T t th s' ws r Ht Hc Hseg|s T t th Ht _]; simpl in *; [by rewrite app_nil_r| |by rewrite app_nil_r].
  destruct (t_at th) as [addr n i|n|w]; simpl in *.
  - apply pipewrite_inv in Hseg as [_ Hseg]. rewrite app_nil_r. by eapply write_loop_inv.
  - apply piperead_inv in Hseg as (_ & _ & _ & _ & Hres); [|done]. destruct r as [c k|[v l]]; [|by destruct Hres].
    destruct Hres as [-> _]. by rewrite app_nil_r.
  - rewrite app_nil_r. by eapply pipeclose_inv.
Qed.

(** C10: a pipe is a bounded FIFO queue, whatever the interleaving of reads,
    writes, closes and kills and although its counters wrap around at 32 bits:
    what the readers have been given, in order, followed by what is in the
    buffer, is exactly what was written, and at most PIPESIZE bytes wait. *)
Theorem pipe_fifo mk page m es :
  length page = 512%nat → run mk page m es →
  h_in (st m) = reads es ++ buffered (st m) ∧ Z.of_nat (length (buffered (st m))) ≤ PIPESIZE.
Proof.
  intros Hl Hr. pose proof (run_inv _ _ _ _ Hl Hr) as Hp. split.
  - rewrite <- (run_reads _ _ _ _ Hl Hr). apply Hp.
  - rewrite buffered_length. pose proof (pi_count _ Hp). pose proof (count_range (st m)). lia.
Qed.

(** What a sleeping thread waits for. *)
Definition pipe_waits (k : pcall) (c : pchan) (p : pipe) : Prop :=
  match k, c with
  | KRead _, NREAD => readopen p ≠ 0 → count p = 0 ∧ writeopen p ≠ 0
  | KWrite _ _ _, NWRITE => count p = PIPESIZE ∧ readopen p ≠ 0
  | _, _ => False
  end.
Lemma write_wakes addr n i p r p' ws :
  pinv p → pipewrite false addr n i (p, []) = Ok r (p', ws) →
  (∀ c k', r = Sleeps c k' → pipe_waits k' c p') ∧
  (∀ k0 c0, pipe_waits k0 c0 p → c0 ∉ ws → pipe_waits k0 c0 p').
Proof.
  intros Hp [_ H]%pipewrite_inv. apply write_loop_inv in H as (Hp' & (Hr & Hw & _) & _ & Hfull & Hres); [|done].
  rewrite !full_count, !bool_decide_eq_true in Hfull by done. split.
  - intros c k' ->. destruct Hres as (-> & _ & Hf & ? & i' & _ & ->).
    rewrite full_count, bool_decide_eq_true in Hf by done. done.
  - intros k0 c0 Hk0 Hc0. destruct k0, c0; simpl in *; try done.
    + destruct Hk0 as [Hc Ho]. by rewrite (Hfull Hc).
    + intros Hro. destruct r as [c k|[v l]]; simpl in Hres.
      * destruct Hres as (_ & -> & _). by apply not_elem_of_cons in Hc0 as [? _].
      * destruct Hres as (_ & [[_ ->]|(_ & _ & [?|?] & _)]); [by apply not_elem_of_cons in Hc0 as [? _]|done..].
Qed.
Lemma pipe_wakes : wakes_enough pipe_seg false pinv pipe_waits.
Proof.
  intros t kd k p r p' ws Hp Hkd H.
  assert (kd = false) as -> by (destruct kd; [by specialize (Hkd eq_refl)|done]).
  destruct k as [addr n i|n|w]; simpl in H.
  - by eapply write_wakes.
  - apply piperead_inv in H as (_ & Hp' & (Hr & Hw & _) & Hi & Hres); [|done]. split.
    + intros c k' ->. destruct Hres as (-> & _ & -> & -> & ? & ? & _). by intros _.
    + intros k0 c0 Hk0 Hc0. destruct r as [c k|[v l]]; simpl in Hres.
      * by destruct Hres as (-> & _).
      * destruct Hres as [Ho [(_ & _ & -> & _)|(_ & _ & ->)]]; [done|].
        apply not_elem_of_cons in Hc0 as [Hc0 _].
        destruct k0, c0; simpl in *; try done. rewrite Hr, Hw. intros Hro. destruct (Hk0 Hro) as [Hc ?].
        split; [|done]. pose proof (pi_fifo _ Hp') as Hq. rewrite Hi, Ho, (pi_fifo _ Hp), <- app_assoc in Hq.
        apply app_inv_head, (f_equal length) in Hq. rewrite length_app, !buffered_length in Hq.
        pose proof (count_range p'). lia.
  - apply pipeclose_inv in H as (_ & _ & Hc & _ & _ & _ & _ & -> & Hw); [|done]. split; [done|].
    intros k0 c0 Hk0 Hc0. destruct w; destruct Hw as (? & Ho & ->); apply not_elem_of_cons in Hc0 as [Hc0 _];
      destruct k0, c0; simpl in *; try done; rewrite ?Hc, ?Ho; by intros.
Qed.

(** *** Threads and the ends they use *)
Definition at_ok (p : pipe) (T : gmap nat (thread pchan pcall)) (t : nat) (k : pcall) : Prop :=
  match k with
  | KWrite addr n i => end_open true p ∧ 0 ≤ i ∧ n = Z.of_nat (length addr)
  | KRead n => end_open false p
  | KClose w => end_open w p ∧ ∀ u th, u ≠ t → T !! u = Some th → uses w (t_at th) = false
  end.
Definition tinv (m : mon) : Prop := ∀ t th, thr m !! t = Some th → at_ok (st m) (thr m) t (t_at th).

Lemma at_ok_uses p T t k : at_ok p T t k → ∃ w, uses w k = true ∧ end_open w p.
Proof.
  destruct k as [addr n i|n|w]; simpl.
  - intros [? _]. by exists true.
  - intros ?. by exists false.
  - intros [? _]. exists w. split; [apply Bool.eqb_reflx|done].
Qed.
(** What a thread knows survives when no end that it uses is closed and no
    thread appears. *)
Lemma at_ok_mono p p' T T' t k :
  at_ok p T t k → (∀ w, uses w k = true → end_open w p → end_open w p') →
  (∀ u th, u ≠ t → T' !! u = Some th → ∃ th0, T !! u = Some th0 ∧ ∀ w, uses w (t_at th0) = false → uses w (t_at th) = false) →
  at_ok p' T' t k.
Proof.
  intros Hk He HT. destruct k as [addr n i|n|w]; simpl in *.
  - destruct Hk as [? ?]. split; [by apply (He true)|done].
  - by apply (He false).
  - destruct Hk as [? Hu]. split; [apply (He w); [apply Bool.eqb_reflx|done]|].
    intros u th Hut Hth. destruct (HT u th Hut Hth) as (th0 & ? & Hw). eapply Hw, Hu; eauto.
Qed.

(** One segment of thread [t] leaves the ends open that other threads use. *)
Lemma seg_ends t kd k p r p' ws :
  pinv p → pipe_seg t kd k (p, []) = Ok r (p', ws) →
  (∀ w, uses w k = false ∨ k ≠ KClose w → end_open w p → end_open w p') ∧
  (∀ c k', r = Sleeps c k' → (∀ w, uses w k' = uses w k) ∧ ∀ T, at_ok p' T t k → at_ok p' T t k').
Proof.
  intros Hp H. destruct k as [addr n i|n|w]; simpl in H.
  - apply pipewrite_inv in H as [_ H]. apply write_loop_inv in H as (_ & (Hr & Hw & _) & _ & _ & Hres); [|done].
    split; [intros [] _; simpl; congruence|]. intros c k' ->.
    destruct Hres as (_ & _ & _ & _ & i' & ? & ->). split; [done|]. simpl. intros T (? & ? & ?). split_and!; [done|lia|done].
  - apply piperead_inv in H as (_ & _ & (Hr & Hw & _) & _ & Hres); [|done].
    split; [intros [] _; simpl; congruence|]. intros c k' ->. by destruct Hres as (_ & _ & _ & -> & _).
  - apply pipeclose_inv in H as (_ & _ & _ & _ & _ & _ & _ & -> & Hw); [|done]. split; [|done].
    intros w' [Hu|Hu] Ho; destruct w, w'; simpl in *; first [done|naive_solver congruence].
Qed.

(** A call that file.c allows does not disturb a thread that is closing an end. *)
Lemma may_call_uses p T t k u uth w :
  may_call p T t k → T !! u = Some uth → t_at uth = KClose w → uses w k = false.
Proof.
  intros Hc Hu Hk. destruct k as [addr n i|n|w']; simpl in *.
  - destruct Hc as (_ & Hn & _). destruct w; [|done]. by destruct (Hn u uth Hu).
  - destruct Hc as (_ & Hn & _). destruct w; [done|]. by destruct (Hn u uth Hu).
  - destruct Hc as (_ & Hall). specialize (Hall u uth Hu). simpl in Hall. rewrite Hk in Hall. simpl in Hall. by destruct w, w'.
Qed.
Lemma tinv_call p T t k :
  may_call p T t k → T !! t = None → tinv (mkMon p T) → tinv (mkMon p (<[t := mkThread k None false]> T)).
Proof.
  intros Hcall Hn IH u uth. simpl. rewrite lookup_insert_Some. intros [[<- <-]|[Hne Hu]]; simpl.
  - destruct k as [addr n i|n|w]; simpl in *.
    + destruct Hcall as (? & _ & -> & ?). split_and!; [done|lia|done].
    + by destruct Hcall as (? & _).
    + destruct Hcall as [? Hall]. split; [done|]. intros v vth Hv. rewrite lookup_insert_ne by done. apply Hall.
  - pose proof (IH u uth Hu) as Hk. simpl in Hk. destruct (t_at uth) as [addr n i|n|w] eqn:E; [done..|].
    destruct Hk as [? Hall]. split; [done|]. intros v vth Hv. rewrite lookup_insert_Some.
    intros [[<- <-]|[_ Hvth]]; [|by eapply Hall]. by eapply may_call_uses.
Qed.
Lemma tinv_seg p T t th p' ws r :
  pinv p → T !! t = Some th → pipe_seg t (t_killed th) (t_at th) (p, []) = Ok r (p', ws) →
  tinv (mkMon p T) → tinv (mkMon p' (settle t th r (wake ws T))).
Proof.
  intros Hp Ht Hseg IH. destruct (seg_ends _ _ _ _ _ _ _ Hp Hseg) as [Hends Hself].
  assert (∀ u uth, settle t th r (wake ws T) !! u = Some uth → ∃ uth0, T !! u = Some uth0 ∧
            (∀ w, uses w (t_at uth) = uses w (t_at uth0)) ∧ (u ≠ t → t_at uth = t_at uth0)) as Hold.
  { intros u uth. destruct r as [c k'|r]; simpl.
    - rewrite lookup_insert_Some. intros [[<- <-]|[Hne (uth0 & Hu & ->)%wake_lookup]].
      + exists th. split; [done|]. split; [|done]. by apply (Hself c k').
      + exists uth0. rewrite wake_thread_at. done.
    - rewrite lookup_delete_Some. intros [Hne (uth0 & Hu & ->)%wake_lookup]. exists uth0. rewrite wake_thread_at. done. }
  intros u uth Hu. simpl in *. destruct (Hold u uth Hu) as (uth0 & Hu0 & Huses & Hat).
  assert (∀ v vth, v ≠ u → settle t th r (wake ws T) !! v = Some vth → ∃ th0, T !! v = Some th0 ∧
            ∀ w, uses w (t_at th0) = false → uses w (t_at vth) = false) as HT.
  { intros v vth _ Hv. destruct (Hold v vth Hv) as (vth0 & ? & He & _). exists vth0. split; [done|]. intros w. by rewrite He. }
  destruct (decide (u = t)) as [->|Hne].
  - simplify_eq. destruct r as [c k'|r]; simpl in Hu; [|by rewrite lookup_delete_eq in Hu].
    rewrite lookup_insert_eq in Hu. simplify_eq. simpl. destruct (Hself c k' eq_refl) as [Hu' Hk'].
    apply Hk'. eapply at_ok_mono; [by apply (IH t th)| |done]. intros w _. apply Hends. right.
    intros Heq. rewrite Heq in Hseg. simpl in Hseg. by apply pipeclose_inv in Hseg as (_ & _ & _ & _ & _ & _ & _ & ? & _).
  - rewrite Hat by done. eapply at_ok_mono; [by apply (IH u uth0)| |done]. intros w Hw. apply Hends.
    destruct (t_at th) as [addr n i|n|w'] eqn:E; [by right..|]. left. pose proof (IH t th Ht) as Hcl. rewrite E in Hcl.
    destruct Hcl as [_ Hcl]. specialize (Hcl u uth0 Hne Hu0). simpl. destruct (Bool.eqb_spec w' w) as [->|]; [congruence|done].
Qed.
Lemma tinv_run mk page m es : length page = 512%nat → run mk page m es → tinv m.
Proof.
  intros Hl Hr. induction Hr as [|m es e m' Hr IH Hst]; [by intros ? ?|].
  pose proof (run_inv _ _ _ _ Hl Hr) as Hp.
  destruct Hst as [s T t k Hn Hcall|s T t th s' ws r Ht Hc Hseg|s T t th Ht _].
  - by apply tinv_call.
  - by eapply tinv_seg.
  - intros u uth. simpl. rewrite lookup_insert_Some. intros [[<- <-]|[_ Hu]]; simpl.
    + eapply at_ok_mono; [by apply (IH t th)|done|]. intros v vth Hv. rewrite lookup_insert_ne by done. eauto.
    + eapply at_ok_mono; [by apply (IH u uth)|done|]. intros v vth _. rewrite lookup_insert_Some.
      intros [[<- <-]|[_ ?]]; eauto.
Qed.

(** *** Every segment of a live pipe returns *)
Lemma write_loop_total killed addr n r i p ws :
  pinv p → freed p = false → 0 ≤ i → i + Z.of_nat r ≤ Z.of_nat (length addr) →
  ∃ res s', write_loop killed addr n r i (p, ws) = Ok res s'.
Proof.
  revert i p. induction r as [|r IH]; intros i p Hp Hfr Hi Hlen; simpl; [by eexists _, _|].
  rewrite (bind_run _ _ _ _ _ (deref_run (p, ws) Hfr)). simpl. destruct (full p) eqn:Hf.
  - destruct (_ || _); by eexists _, _.
  - destruct (lookup_lt_is_Some_2 addr (Z.to_nat i)) as [x Hx]; [lia|].
    rewrite (bind_run _ _ _ _ _ (array_get_ok _ _ _ _ _ Hi Hx)). unfold update, modify, mbind, M_bind.
    apply IH; [by apply put_inv|done|lia|lia].
Qed.
Lemma read_loop_total r p ws :
  pinv p → freed p = false → ∃ l s', read_loop r (p, ws) = Ok l s'.
Proof.
  revert p. induction r as [|r IH]; intros p Hp Hfr; simpl; [by eexists _, _|].
  rewrite (bind_run _ _ _ _ _ (deref_run (p, ws) Hfr)). simpl. destruct (empty p) eqn:He; [by eexists _, _|].
  assert (0 ≤ nread p mod PIPESIZE < 512) as Hm by (apply Z.mod_pos_bound; done).
  destruct (lookup_lt_is_Some_2 (data p) (Z.to_nat (nread p mod PIPESIZE))) as [x Hx]; [rewrite (pi_data p Hp); lia|].
  rewrite (bind_run _ _ _ _ _ (array_get_ok _ _ _ _ _ (proj1 Hm) Hx)).
  destruct (IH (take_byte x p)) as (l & s' & Hl); [by apply take_inv|done|].
  unfold update, modify, mbind, M_bind. rewrite Hl. by eexists _, _.
Qed.
Lemma pipe_seg_total t kd T k p :
  pinv p → at_ok p T t k → ∃ res s', pipe_seg t kd k (p, []) = Ok res s'.
Proof.
  intros Hp Hk.
  assert (freed p = false) as Hfr.
  { destruct (freed p) eqn:E; [|done]. destruct (pi_freed p Hp E) as [? ?].
    by destruct (at_ok_uses _ _ _ _ Hk) as ([] & _ & ?). }
  destruct k as [addr n i|n|w]; simpl in *.
  - destruct Hk as (_ & ? & ->). unfold pipewrite. rewrite (bind_run _ _ _ _ _ (deref_run (p, []) Hfr)).
    destruct (decide (i ≤ Z.of_nat (length addr))).
    + apply write_loop_total; [done|done|lia|lia].
    + replace (Z.to_nat (Z.of_nat (length addr) - i)) with 0%nat by lia. by eexists _, _.
  - unfold piperead. rewrite (bind_run _ _ _ _ _ (deref_run (p, []) Hfr)). simpl.
    destruct (_ && _); [destruct kd; by eexists _, _|].
    destruct (read_loop_total (Z.to_nat n) p [] Hp Hfr) as (l & s' & Hl).
    rewrite (bind_run _ _ _ _ _ Hl). by eexists _, _.
  - unfold pipeclose. rewrite (bind_run _ _ _ _ _ (deref_run (p, []) Hfr)).
    destruct w; simpl; unfold wakeup, update, modify, mbind, M_bind; simpl;
      rewrite (deref_run (_, _)) by done; simpl; destruct (_ =? 0); by eexists _, _.
Qed.

(** C32: as long as the ends of a pipe are used through open files, no thread
    touches the pipe after its page was freed and no segment of pipewrite,
    piperead or pipeclose can fail: in every reachable state each runnable
    thread completes its next segment, and once the page is freed no thread is
    inside. *)
Theorem pipe_no_use_after_free mk page m es t th :
  length page = 512%nat → run mk page m es → thr m !! t = Some th →
  freed (st m) = false ∧ ∃ res s', pipe_seg t (t_killed th) (t_at th) (st m, []) = Ok res s'.
Proof.
  intros Hl Hr Ht. pose proof (run_inv _ _ _ _ Hl Hr) as Hp. pose proof (tinv_run _ _ _ _ Hl Hr t th Ht) as Hk.
  split; [|by eapply pipe_seg_total]. destruct (freed (st m)) eqn:E; [|done].
  destruct (pi_freed _ Hp E) as [? ?]. by destruct (at_ok_uses _ _ _ _ Hk) as ([] & _ & ?).
Qed.

(** C31: when no process is killed inside the pipe code, no wakeup is lost: a
    thread that sleeps in piperead finds the pipe empty with a writer left, and
    one that sleeps in pipewrite finds it full with a reader left. *)
Theorem pipe_no_lost_wakeup page m es t th c :
  length page = 512%nat → run false page m es → thr m !! t = Some th → t_chan th = Some c →
  match t_at th with
  | KRead _ => c = NREAD ∧ count (st m) = 0 ∧ writeopen (st m) ≠ 0
  | KWrite _ _ _ => c = NWRITE ∧ count (st m) = PIPESIZE ∧ readopen (st m) ≠ 0
  | KClose _ => False
  end.
Proof.
  intros Hl Hr Ht Hc.
  assert (pipe_waits (t_at th) c (st m)) as Hw.
  { eapply (reachable_sleepers pipe_seg may_call false pinv pipe_waits (pipe_init page) m es); eauto.
    - by apply pinv_init.
    - intros. by eapply pipe_seg_inv.
    - apply pipe_wakes. }
  pose proof (tinv_run _ _ _ _ Hl Hr t th Ht) as Hk.
  destruct (t_at th), c; simpl in *; try done. split; [done|]. by apply Hw.
Qed.

(** ** Runs *)
Definition demo_page : list Z := replicate 512 0.
Definition replay_pipe (mk : bool) (l : list (action pcall)) :=
  replay pipe_seg mk (mkMon (pipe_init demo_page) ∅) [] l.
Lemma replay_pipe_run mk l m es :
  bool_decide (calls_ok pipe_seg may_call mk (mkMon (pipe_init demo_page) ∅) l) = true →
  replay_pipe mk l = Some (m, es) → run mk demo_page m es.
Proof. intros H. apply replay_reachable; [constructor|]. by eapply bool_decide_eq_true. Qed.

(** A reader finds the pipe empty and sleeps; a writer stores three bytes and
    wakes it; it takes two of them. *)
Definition demo_acts : list (action pcall) :=
  [ACall 1 (KRead 2); ARun 1; ACall 2 (KWrite [7; 8; 9] 3 0); ARun 2; ARun 1].
Lemma pipe_fifo_witness :
  ∃ m es, run false demo_page m es ∧ h_in (st m) = [7; 8; 9] ∧ reads es = [7; 8] ∧
          h_in (st m) = reads es ++ buffered (st m).
Proof.
  destruct (replay_pipe false demo_acts) as [[m es]|] eqn:E; [|vm_compute in E; discriminate E].
  assert (run false demo_page m es) as Hr by (apply (replay_pipe_run _ demo_acts); [vm_compute; reflexivity|exact E]).
  exists m, es. split; [exact Hr|].
  pose proof (proj1 (pipe_fifo false demo_page m es eq_refl Hr)) as Hf.
  vm_compute in E. injection E as <- <-. split; [reflexivity|]. split; [reflexivity|exact Hf].
Defined.
Lemma pipe_no_lost_wakeup_witness :
  ∃ m es th, run false demo_page m es ∧ thr m !! 1%nat = Some th ∧ t_chan th = Some NREAD ∧ count (st m) = 0.
Proof.
  destruct (replay_pipe false (take 2 demo_acts)) as [[m es]|] eqn:E; [|vm_compute in E; discriminate E].
  assert (run false demo_page m es) as Hr
    by (apply (replay_pipe_run _ (take 2 demo_acts)); [vm_compute; reflexivity|exact E]).
  assert (thr m !! 1%nat = Some (mkThread (KRead 2) (Some NREAD) false)) as Ht
    by (vm_compute in E; injection E as <- _; reflexivity).
  exists m, es, (mkThread (KRead 2) (Some NREAD) false). split; [exact Hr|]. split; [exact Ht|]. split; [reflexivity|].
  exact (proj1 (proj2 (pipe_no_lost_wakeup demo_page m es 1 _ NREAD eq_refl Hr Ht eq_refl))).
Defined.
Lemma pipe_no_use_after_free_witness :
  ∃ m es th, run false demo_page m es ∧ thr m !! 2%nat = Some th ∧ freed (st m) = false ∧
    ∃ res s', pipe_seg 2 (t_killed th) (t_at th) (st m, []) = Ok res s'.
Proof.
  destruct (replay_pipe false (take 3 demo_acts)) as [[m es]|] eqn:E; [|vm_compute in E; discriminate E].
  assert (run false demo_page m es) as Hr
    by (apply (replay_pipe_run _ (take 3 demo_acts)); [vm_compute; reflexivity|exact E]).
  assert (thr m !! 2%nat = Some (mkThread (KWrite [7; 8; 9] 3 0) None false)) as Ht
    by (vm_compute in E; injection E as <- _; reflexivity).
  exists m, es, (mkThread (KWrite [7; 8; 9] 3 0) None false). split; [exact Hr|]. split; [exact Ht|].
  exact (pipe_no_use_after_free false demo_page m es 2 _ eq_refl Hr Ht).
Defined.

(** A reader sleeps on the empty pipe; a writer that has been killed fills the
    pipe and gives up. *)
Definition strand_acts : list (action pcall) :=
  [ACall 1 (KRead 2); ARun 1; ACall 2 (KWrite (replicate 600 5) 600 0); AKill 2; ARun 2].
(** Pipewrite returns -1 to a killed writer without waking the readers,
    although the same call may have filled the pipe: a reader then sleeps on a
    pipe that holds PIPESIZE bytes, with the writing end still open. *)
Theorem pipe_killed_writer_strands_reader :
  ∃ m es th, run true demo_page m es ∧ thr m = {[1%nat := th]} ∧
    t_at th = KRead 2 ∧ t_chan th = Some NREAD ∧ count (st m) = PIPESIZE ∧ writeopen (st m) = 1.
Proof.
  destruct (replay_pipe true strand_acts) as [[m es]|] eqn:E; [|vm_compute in E; discriminate E].
  assert (run true demo_page m es) as Hr
    by (apply (replay_pipe_run _ strand_acts); [vm_compute; reflexivity|exact E]).
  assert (thr m = {[1%nat := mkThread (KRead 2) (Some NREAD) false]} ∧ count (st m) = PIPESIZE ∧ writeopen (st m) = 1)
    as (H1 & H2 & H3).
  { clear Hr. vm_compute in E. injection E as <- _. split; [vm_compute; reflexivity|split; vm_compute; reflexivity]. }
  clear E. by exists m, es, (mkThread (KRead 2) (Some NREAD) false).
Qed.
