(* ===== verification/Sleeplock.v ===== *)
(** * Sleep locks (sleeplock.c)

    A sleep lock is a flag under a spin lock; a process that finds it set sleeps
    on the lock's address.  The threads of the monitor are processes, named by
    their pid. *)

From S2P Require Import Prelude Monitor.

Record sleeplock := mkSleep { sl_locked : Z; sl_name : string; sl_pid : Z }.
Inductive slcall := KAcquire | KRelease | KHolding.
#[global] Instance slcall_eq_dec : EqDecision slcall.
Proof. solve_decision. Defined.
(** The only channel is the lock itself. *)
Abbreviation slseg := (M (sleeplock * list unit) (reaction unit slcall bool)).

Definition initsleeplock (name : string) : sleeplock := mkSleep 0 name 0.

(** acquiresleep: the test of its while loop and what follows. *)
Definition acquiresleep (pid : Z) : slseg :=
  lk ← read_state id;
  if negb (sl_locked lk =? 0) then mret (Sleeps tt KAcquire) else
  update (λ lk, mkSleep 1 (sl_name lk) pid) ;;
  mret (Returns true).
Definition releasesleep : slseg :=
  update (λ lk, mkSleep 0 (sl_name lk) 0) ;;
  wakeup tt ;;
  mret (Returns true).
Definition holdingsleep (pid : Z) : slseg :=
  lk ← read_state id;
  mret (Returns (negb (sl_locked lk =? 0) && (sl_pid lk =? pid))).

Definition sl_seg (t : nat) (killed : bool) (k : slcall) : slseg :=
  match k with
  | KAcquire => acquiresleep (Z.of_nat t)
  | KRelease => releasesleep
  | KHolding => holdingsleep (Z.of_nat t)
  end.
(** A process releases a lock only when it holds it; the callers test that. *)
Definition sl_may_call (lk : sleeplock) (T : gmap nat (thread unit slcall)) (t : nat) (k : slcall) : Prop :=
  k = KRelease → sl_locked lk ≠ 0 ∧ sl_pid lk = Z.of_nat t.
#[global] Instance sl_may_call_dec lk T t k : Decision (sl_may_call lk T t k).
Proof. unfold sl_may_call. apply _. Defined.

(** The processes that have returned from acquiresleep and not yet from
    releasesleep. *)
Fixpoint holders (es : list (event unit slcall bool)) (h : list nat) : list nat :=
  match es with
  | [] => h
  | ERun t KAcquire (Returns _) :: es' => holders es' (t :: h)
  | ERun t KRelease (Returns _) :: es' => holders es' (filter (λ u, u ≠ t) h)
  | _ :: es' => holders es' h
  end.
Lemma holders_app es es' h : holders (es ++ es') h = holders es' (holders es h).
Proof. revert h. induction es as [|e es IH]; intros h; simpl; [done|]. destruct e as [|t [] []|]; apply IH. Qed.

Abbreviation sl_run name := (reachable sl_seg sl_may_call true (initsleeplock name)).
(** The flag and the pid tell who holds the lock. *)
Definition held_by (lk : sleeplock) (h : list nat) : Prop :=
  (sl_locked lk = 0 ∧ h = []) ∨ (∃ t, sl_locked lk = 1 ∧ sl_pid lk = Z.of_nat t ∧ h = [t]).
Definition releasing (lk : sleeplock) (T : gmap nat (thread unit slcall)) : Prop :=
  ∀ t th, T !! t = Some th → t_at th = KRelease →
    t_chan th = None ∧ sl_locked lk ≠ 0 ∧ sl_pid lk = Z.of_nat t.

Lemma sl_seg_run t kd k lk r lk' ws :
  sl_seg t kd k (lk, []) = Ok r (lk', ws) →
  match k with
  | KAcquire => (sl_locked lk ≠ 0 ∧ r = Sleeps tt KAcquire ∧ lk' = lk) ∨
                (sl_locked lk = 0 ∧ r = Returns true ∧ lk' = mkSleep 1 (sl_name lk) (Z.of_nat t))
  | KRelease => r = Returns true ∧ lk' = mkSleep 0 (sl_name lk) 0 ∧ ws = [tt]
  | KHolding => lk' = lk ∧ r = Returns (negb (sl_locked lk =? 0) && (sl_pid lk =? Z.of_nat t))
  end.
Proof.
  destruct k; simpl; unfold acquiresleep, releasesleep, holdingsleep, mbind, M_bind; simpl.
  - destruct (Z.eqb_spec (sl_locked lk) 0); simpl; intros [= <- <- <-]; auto.
  - by intros [= <- <- <-].
  - by intros [= <- <- <-].
Qed.

Lemma releasing_settle lk' T t th r ws :
  (∀ u uth, u ≠ t → T !! u = Some uth → t_at uth = KRelease →
     t_chan uth = None ∧ sl_locked lk' ≠ 0 ∧ sl_pid lk' = Z.of_nat u) →
  (∀ c k, r = Sleeps c k → k ≠ KRelease) →
  releasing lk' (settle (R := bool) t th r (wake ws T)).
Proof.
  intros Hoth Hr u uth Hu Hk.
  assert (∀ v vth, v ≠ t → wake ws T !! v = Some vth → t_at vth = KRelease →
            t_chan vth = None ∧ sl_locked lk' ≠ 0 ∧ sl_pid lk' = Z.of_nat v) as Hw.
  { intros v vth Hv (vth0 & Hv0 & ->)%wake_lookup. rewrite wake_thread_at. intros Hk0.
    destruct (Hoth v vth0 Hv Hv0 Hk0) as [Hc ?]. unfold wake_thread. by rewrite Hc. }
  destruct r as [c k|r]; simpl in Hu.
  - rewrite lookup_insert_Some in Hu. destruct Hu as [[<- <-]|[Hne Hu]]; [by destruct (Hr c k eq_refl)|by eapply Hw].
  - rewrite lookup_delete_Some in Hu. destruct Hu as [Hne Hu]. by eapply Hw.
Qed.

Lemma sl_invariant name m es :
  sl_run name m es → held_by (st m) (holders es []) ∧ releasing (st m) (thr m).
Proof.
  induction 1 as [|m es e m' Hr [IH Hrel] Hst]; [split; [by left|by intros ? ?]|].
  rewrite holders_app.
  destruct Hst as [lk T t k Hn Hcall|lk T t th lk' ws r Ht Hc Hseg|lk T t th Ht _]; simpl in *.
  - split; [done|]. intros u uth. rewrite lookup_insert_Some. intros [[<- <-]|[_ Hu]]; [|by apply Hrel].
    simpl. intros ->. by destruct Hcall.
  - pose proof (sl_seg_run _ _ _ _ _ _ _ Hseg) as Hrun. destruct (t_at th) eqn:Hk.
    + destruct Hrun as [(Hl & -> & ->)|(Hl & -> & ->)].
      * split; [done|]. apply releasing_settle; [|by intros c k [= <- <-]]. intros u uth _. by apply Hrel.
      * destruct IH as [[_ Hh]|(u & ? & _)]; [|congruence]. split; [right; exists t; by rewrite Hh|].
        apply releasing_settle; [|done]. intros u uth _ Hu Hku. by destruct (Hrel u uth Hu Hku) as (_ & ? & _).
    + destruct Hrun as (-> & -> & ->). destruct (Hrel t th Ht Hk) as (_ & Hl & Hp).
      destruct IH as [[? _]|(u & _ & Hpu & Hh)]; [done|]. rewrite Hh.
      assert (u = t) as -> by lia. split.
      * left. split; [done|]. rewrite filter_cons_False by (intros H; by apply H). done.
      * apply releasing_settle; [|done]. intros v vth Hv Hvt Hkv. destruct (Hrel v vth Hvt Hkv) as (_ & _ & Hpv). lia.
    + destruct Hrun as (-> & ->). split; [done|]. apply releasing_settle; [|done]. intros u uth _. by apply Hrel.
  - split; [done|]. intros u uth. rewrite lookup_insert_Some. intros [[<- <-]|[_ Hu]]; [|by apply Hrel].
    simpl. intros Hk. by destruct (Hrel t th Ht Hk).
Qed.
Lemma sl_wakes : wakes_enough sl_seg true (λ _, True) (λ _ _ lk, sl_locked lk ≠ 0).
Proof.
  intros t kd k lk r lk' ws _ _ Hseg. apply sl_seg_run in Hseg. destruct k.
  - destruct Hseg as [(Hl & -> & ->)|(Hl & -> & ->)]; split; [done|done|done|by intros].
  - destruct Hseg as (-> & -> & ->). split; [done|]. intros _ [] _ Hc. destruct Hc. apply elem_of_cons. by left.
  - destruct Hseg as (-> & ->). by split.
Qed.

(** C15: a sleep lock is held by at most one process at a time, however calls of
    acquiresleep, releasesleep and holdingsleep by any number of processes and
    kills interleave, its flag and pid name the holder, and a process sleeps in
    acquiresleep only while another one holds the lock. *)
Theorem sleeplock_exclusive name m es :
  sl_run name m es →
  held_by (st m) (holders es []) ∧
  ∀ t th c, thr m !! t = Some th → t_chan th = Some c → ∃ u, holders es [] = [u].
Proof.
  intros Hr. destruct (sl_invariant _ _ _ Hr) as [Hh _]. split; [done|]. intros t th c Ht Hc.
  pose proof (reachable_sleepers sl_seg sl_may_call true (λ _, True) (λ _ _ lk, sl_locked lk ≠ 0)
                (initsleeplock name) m es I (λ _ _ _ _ _ _ _ _ _, I) sl_wakes Hr t th c Ht Hc) as Hl.
  destruct Hh as [[? _]|(u & _ & _ & ->)]; [done|by exists u].
Qed.
Definition sl_demo : list (action slcall) :=
  [ACall 4 KAcquire; ARun 4; ACall 7 KAcquire; ARun 7].
Lemma sleeplock_exclusive_witness :
  ∃ m es, sl_run "buffer" m es ∧ holders es [] = [4%nat] ∧ held_by (st m) [4%nat].
Proof.
  destruct (replay sl_seg true (mkMon (initsleeplock "buffer") ∅) [] sl_demo) as [[m es]|] eqn:E;
    [|vm_compute in E; discriminate E].
  assert (sl_run "buffer" m es) as Hr.
  { eapply (replay_reachable sl_seg sl_may_call true _ _ _ sl_demo); [constructor| |exact E].
    apply (bool_decide_unpack _). vm_compute. reflexivity. }
  exists m, es. split; [exact Hr|].
  pose proof (proj1 (sleeplock_exclusive "buffer" m es Hr)) as Hh.
  vm_compute in E. injection E as <- <-. split; [reflexivity|exact Hh].
Defined.
