(* ===== verification/Dlist.v ===== *)
(** * Circular doubly linked lists

    The buffer cache threads its buffers on a list through [prev] and [next]
    pointers, with a head node.  Here the two link functions and the list they
    represent: walking it in either direction, unlinking a node and inserting one
    after the head. *)

From S2P Require Import Prelude.

Section links.
Implicit Types (nx pv : nat → nat) (l : list nat).

(** From [a] through the nodes of [l] to [z]. *)
Fixpoint chain nx pv (a : nat) l (z : nat) : Prop :=
  match l with
  | [] => nx a = z ∧ pv z = a
  | x :: l' => nx a = x ∧ pv x = a ∧ chain nx pv x l' z
  end.
Definition dlist nx pv (h : nat) l : Prop := chain nx pv h l h ∧ NoDup (h :: l).

Definition fset (f : nat → nat) (i v : nat) : nat → nat := λ j, if decide (j = i) then v else f j.
Lemma fset_eq f i v : fset f i v i = v.
Proof. unfold fset. by rewrite decide_True. Qed.
Lemma fset_ne f i v j : j ≠ i → fset f i v j = f j.
Proof. intros. unfold fset. by rewrite decide_False. Qed.

Lemma chain_app nx pv a l1 x l2 z :
  chain nx pv a (l1 ++ x :: l2) z ↔ chain nx pv a l1 x ∧ chain nx pv x l2 z.
Proof.
  revert a. induction l1 as [|y l1 IH]; intros a; simpl; [tauto|]. rewrite IH. tauto.
Qed.
Lemma chain_snoc nx pv a l x z :
  chain nx pv a (l ++ [x]) z ↔ chain nx pv a l x ∧ nx x = z ∧ pv z = x.
Proof. apply chain_app. Qed.
(** A chain reads [next] at its nodes but the last and [prev] at all but the first. *)
Lemma chain_ext nx pv nx' pv' a l z :
  chain nx pv a l z → (∀ x, x ∈ a :: l → nx' x = nx x) → (∀ x, x ∈ l ++ [z] → pv' x = pv x) →
  chain nx' pv' a l z.
Proof.
  revert a. induction l as [|y l IH]; intros a Hc Hn Hp; simpl in *.
  - rewrite Hn, Hp by set_solver. done.
  - destruct Hc as (H1 & H2 & H3). rewrite Hn, Hp by set_solver. split_and!; [done..|].
    apply IH; [done| |]; intros x Hx; [apply Hn|apply Hp]; set_solver.
Qed.
Lemma chain_rev nx pv a l z : chain nx pv a l z → chain pv nx z (reverse l) a.
Proof.
  revert a z. induction l as [|x l IH]; intros a z; simpl; [tauto|]. intros (H1 & H2 & H3).
  rewrite reverse_cons. apply chain_snoc. split; [by apply IH|done].
Qed.
Lemma dlist_rev nx pv h l : dlist nx pv h l → dlist pv nx h (reverse l).
Proof.
  intros [Hc Hn]. split; [by apply chain_rev|]. apply NoDup_cons in Hn as [? ?]. apply NoDup_cons.
  split; [by rewrite elem_of_reverse|]. by rewrite reverse_Permutation.
Qed.

(** ** Walking: [for (b = f h; b != h; b = f b)] until the test holds *)
Fixpoint walk (f : nat → nat) (h : nat) (P : nat → bool) (fuel : nat) (b : nat) : option (option nat) :=
  match fuel with
  | O => None
  | S fuel' => if decide (b = h) then Some None else if P b then Some (Some b) else walk f h P fuel' (f b)
  end.
Definition first (P : nat → bool) (l : list nat) : option nat := head (filter (λ x, P x = true) l).
Lemma walk_chain nx pv h P fuel a l :
  chain nx pv a l h → h ∉ l → (length l < fuel)%nat →
  walk nx h P fuel (nx a) = Some (first P l).
Proof.
  revert a fuel. induction l as [|x l IH]; intros a fuel Hc Hh Hf; (destruct fuel as [|fuel]; [simpl in Hf; lia|]); simpl in *.
  - destruct Hc as [-> _]. by rewrite decide_True.
  - destruct Hc as (-> & _ & Hc). apply not_elem_of_cons in Hh as [? ?]. rewrite decide_False by done.
    unfold first. destruct (P x) eqn:E.
    + by rewrite filter_cons_True by done.
    + rewrite filter_cons_False by congruence. apply IH; [done..|lia].
Qed.
Lemma walk_next nx pv h l P fuel :
  dlist nx pv h l → (length l < fuel)%nat → walk nx h P fuel (nx h) = Some (first P l).
Proof. intros [Hc Hn] Hf. apply NoDup_cons in Hn as [? _]. by eapply walk_chain. Qed.
Lemma walk_prev nx pv h l P fuel :
  dlist nx pv h l → (length l < fuel)%nat → walk pv h P fuel (pv h) = Some (first P (reverse l)).
Proof. intros Hd%dlist_rev Hf. apply (walk_next pv nx); [done|]. by rewrite length_reverse. Qed.
Lemma first_Some P l x : first P l = Some x → x ∈ l ∧ P x = true.
Proof. unfold first. intros [H1 H2]%head_Some_elem_of%list_elem_of_filter. done. Qed.
Lemma first_None P l : first P l = None ↔ ∀ x, x ∈ l → P x = false.
Proof.
  unfold first. rewrite head_None. split.
  - intros H x Hx. destruct (P x) eqn:E; [|done]. assert (x ∈ filter (λ x, P x = true) l) as Hin
      by (by apply list_elem_of_filter). rewrite H in Hin. by apply elem_of_nil in Hin.
  - intros H. destruct (filter _ l) as [|x l'] eqn:E; [done|].
    assert (x ∈ filter (λ x, P x = true) l) as [? ?]%list_elem_of_filter by (rewrite E; apply elem_of_cons; by left).
    rewrite H in *; done.
Qed.

(** ** Unlinking and inserting *)
Definition unlink_next nx pv b : nat → nat := fset nx (pv b) (nx b).
Definition unlink_prev nx pv b : nat → nat := fset pv (nx b) (pv b).
(** Redirect the end of a chain from [b] to [w]. *)
Lemma chain_redirect nx pv a l b w :
  chain nx pv a l b → NoDup (a :: l) → w ∉ l → chain (fset nx (pv b) w) (fset pv w (pv b)) a l w.
Proof.
  intros Hc Hn Hw. destruct l as [|p l _] using rev_ind; simpl in *.
  - destruct Hc as [_ ->]. by rewrite !fset_eq.
  - apply chain_snoc in Hc as (Hc & _ & Hp). rewrite Hp. apply chain_snoc. rewrite !fset_eq. split; [|done].
    apply NoDup_cons in Hn as [Ha Hn]. apply NoDup_app in Hn as (_ & Hn & _).
    apply (chain_ext nx pv); [done| |]; intros x Hx; apply fset_ne; intros ->; set_solver.
Qed.
Lemma chain_unlink nx pv a l1 b l2 z :
  chain nx pv a (l1 ++ b :: l2) z → NoDup (a :: l1 ++ b :: l2) → z ∉ l1 ++ b :: l2 →
  chain (unlink_next nx pv b) (unlink_prev nx pv b) a (l1 ++ l2) z.
Proof.
  intros [H1 H2]%chain_app Hn Hz. unfold unlink_next, unlink_prev.
  assert (NoDup (a :: l1)) as Hn1 by (apply (NoDup_app (a :: l1)) in Hn; apply Hn).
  assert (NoDup (b :: l2)) as Hn2 by (apply (NoDup_app (a :: l1)) in Hn; apply Hn).
  assert (∀ x, x ∈ a :: l1 → x ∉ b :: l2) as Hd by (apply (NoDup_app (a :: l1)) in Hn; apply Hn).
  destruct l2 as [|y l2]; simpl in H2.
  - destruct H2 as [-> _]. rewrite app_nil_r. apply chain_redirect; [done..|]. set_solver.
  - destruct H2 as (Hy & Hb & H2). rewrite Hy. apply chain_app. split.
    + apply chain_redirect; [done..|]. intros ?. apply (Hd y); set_solver.
    + apply NoDup_cons in Hn2 as [_ Hn2]. apply NoDup_cons in Hn2 as [Hy2 _].
      assert (pv b ∈ a :: l1) as Hp.
      { destruct l1 as [|p l1 _] using rev_ind; simpl in H1; [destruct H1 as [_ ->]; set_solver|].
        apply chain_snoc in H1 as (_ & _ & ->). set_solver. }
      apply (chain_ext nx pv); [done| |]; intros x Hx; apply fset_ne; intros ->.
      * apply (Hd (pv b)); set_solver.
      * set_solver.
Qed.
Lemma dlist_unlink nx pv h l1 b l2 :
  dlist nx pv h (l1 ++ b :: l2) → dlist (unlink_next nx pv b) (unlink_prev nx pv b) h (l1 ++ l2).
Proof.
  intros [Hc Hn]. split.
  - apply chain_unlink; [done..|]. by apply NoDup_cons in Hn as [? _].
  - apply NoDup_cons in Hn as [Hh Hn]. apply NoDup_cons. split; [set_solver|].
    apply NoDup_app in Hn as (? & Hd & Hn). apply NoDup_cons in Hn as [? ?]. apply NoDup_app. split_and!; [done| |done].
    intros x Hx Hx2. apply (Hd x Hx). set_solver.
Qed.

(** [b->next = head.next; b->prev = &head; head.next->prev = b; head.next = b;] *)
Definition push_next nx h b : nat → nat := fset (fset nx b (nx h)) h b.
Definition push_prev nx pv h b : nat → nat := fset (fset pv b h) (nx h) b.
Lemma dlist_push nx pv h b l :
  dlist nx pv h l → b ∉ h :: l → dlist (push_next nx h b) (push_prev nx pv h b) h (b :: l).
Proof.
  intros [Hc Hn] Hb. apply not_elem_of_cons in Hb as [Hbh Hb]. split.
  - unfold push_next, push_prev. simpl. rewrite fset_eq. split; [done|].
    assert (b ≠ nx h) as Hbn.
    { destruct l as [|y l]; simpl in Hc; [destruct Hc as [-> _]; congruence|]. destruct Hc as [-> _]. set_solver. }
    rewrite fset_ne, fset_eq by done. split; [done|].
    destruct l as [|y l]; simpl in *.
    + destruct Hc as [-> _]. rewrite (fset_ne _ _ _ b), !fset_eq by done. done.
    + destruct Hc as (-> & _ & Hc). rewrite (fset_ne _ _ _ b), !fset_eq by done. split_and!; [done..|].
      apply NoDup_cons in Hn as [Hh Hn]. apply NoDup_cons in Hn as [Hy _].
      apply (chain_ext nx pv); [done| |]; intros x Hx; rewrite !fset_ne; set_solver.
  - apply NoDup_cons in Hn as [? ?]. apply NoDup_cons. split; [set_solver|]. by apply NoDup_cons.
Qed.
End links.
