(* ===== verification/Blocks.v ===== *)
(** * The interface of the buffer cache

    What the log and the file system may assume of bread, bwrite and brelse,
    stated on a view of the cache: the current contents of each block, the
    contents on the disk, the buffers the running process holds, the blocks
    pinned by the log, and the sequence of writes the disk has done.  [Bio]
    proves that the buffer cache of bio.c is an instance. *)

From S2P Require Import Prelude.

Definition BSIZE : nat := 512.
Definition NBUF : nat := 30.
Definition ROOTDEV : Z := 1.
Abbreviation block := (list Z).

Record bview := mkView {
  bv_cur : list block;
  bv_dsk : list block;
  bv_held : gmap nat nat;
  bv_dirty : gset nat;
  bv_writes : list (nat * block) }.
Definition v_cur (f : list block → list block) (v : bview) : bview :=
  mkView (f (bv_cur v)) (bv_dsk v) (bv_held v) (bv_dirty v) (bv_writes v).
Definition v_held (f : gmap nat nat → gmap nat nat) (v : bview) : bview :=
  mkView (bv_cur v) (bv_dsk v) (f (bv_held v)) (bv_dirty v) (bv_writes v).
Definition v_dirty (f : gset nat → gset nat) (v : bview) : bview :=
  mkView (bv_cur v) (bv_dsk v) (bv_held v) (f (bv_dirty v)) (bv_writes v).
Definition v_write (j : nat) (d : block) (v : bview) : bview :=
  mkView (bv_cur v) (<[j := d]> (bv_dsk v)) (bv_held v) (bv_dirty v ∖ {[j]}) (bv_writes v ++ [(j, d)]).

(** Nothing held or pinned: memory and disk agree. *)
Definition quiet (d : list block) (w : list (nat * block)) : bview := mkView d d ∅ ∅ w.

(** The operations on buffers, named by their index in the cache. *)
Class BlockOps (S : Type) := {
  bread : Z → Z → M S nat;
  bwrite : nat → M S unit;
  brelse : nat → M S unit;
  b_get : nat → M S block;
  b_put : nat → block → M S unit;
  b_number : nat → M S Z;
  b_pin : nat → M S unit }.

(** What they promise. [bd_rep s v]: the cache in [s] has the view [v]. *)
Class BlockDev (S : Type) `{!BlockOps S} := {
  bd_rep : S → bview → Prop;
  bd_len s v : bd_rep s v → length (bv_cur v) = length (bv_dsk v);
  bd_size s v j d : bd_rep s v → bv_cur v !! j = Some d → length d = BSIZE;
  (** A block that is neither held nor pinned is the same in memory and on disk. *)
  bd_clean s v j : bd_rep s v → j ∉ bv_dirty v → (∀ i, bv_held v !! i ≠ Some j) → bv_cur v !! j = bv_dsk v !! j;
  (** bread finds a buffer when its block is pinned, or when fewer than NBUF
      buffers are in use. *)
  bd_bread s v j :
    bd_rep s v → (j < length (bv_dsk v))%nat → (∀ i, bv_held v !! i ≠ Some j) →
    j ∈ bv_dirty v ∨ (size (bv_held v) + size (bv_dirty v) < NBUF)%nat →
    ∃ i s', bread ROOTDEV (Z.of_nat j) s = Ok i s' ∧ bv_held v !! i = None ∧
            bd_rep s' (v_held <[i := j]> v);
  bd_get s v i j : bd_rep s v → bv_held v !! i = Some j →
    ∃ d, bv_cur v !! j = Some d ∧ b_get i s = Ok d s;
  bd_put s v i j d : bd_rep s v → bv_held v !! i = Some j → length d = BSIZE →
    ∃ s', b_put i d s = Ok tt s' ∧ bd_rep s' (v_cur <[j := d]> v);
  bd_number s v i j : bd_rep s v → bv_held v !! i = Some j → b_number i s = Ok (Z.of_nat j) s;
  bd_pin s v i j : bd_rep s v → bv_held v !! i = Some j →
    ∃ s', b_pin i s = Ok tt s' ∧ bd_rep s' (v_dirty (λ D, {[j]} ∪ D) v);
  bd_bwrite s v i j d : bd_rep s v → bv_held v !! i = Some j → bv_cur v !! j = Some d →
    ∃ s', bwrite i s = Ok tt s' ∧ bd_rep s' (v_write j d v);
  (** A buffer that was changed must have been pinned or written back. *)
  bd_brelse s v i j : bd_rep s v → bv_held v !! i = Some j →
    j ∈ bv_dirty v ∨ bv_cur v !! j = bv_dsk v !! j →
    ∃ s', brelse i s = Ok tt s' ∧ bd_rep s' (v_held (delete i) v) }.
