(* ===== verification/Bio.v ===== *)
(** * The buffer cache (bio.c) over the memory disk (memide.c)

    The NBUF buffers with their flags, reference counts, sleep locks and the
    doubly linked list in order of use, as bio.c keeps them, and the disk as the
    blocks that iderw copies from and to.  Buffers are named by their index;
    [NBUF] is the list head.  The code runs for one process, [curpid], whose
    waits for other processes are [Spin]; [writes] is a history of the writes
    that reached the disk. *)

From S2P Require Import Prelude Monitor Sleeplock Dlist Blocks.

Definition B_VALID : Z := 2.
Definition B_DIRTY : Z := 4.

(** [struct buf] *)
Record buf := mkBuf {
  b_flags : Z;
  b_dev : Z;
  b_blockno : Z;
  b_lock : sleeplock;
  b_refcnt : Z;
  b_prev : nat;
  b_next : nat;
  b_data : block }.
Definition with_flags (f : Z) (b : buf) : buf :=
  mkBuf f (b_dev b) (b_blockno b) (b_lock b) (b_refcnt b) (b_prev b) (b_next b) (b_data b).
Definition with_lock (l : sleeplock) (b : buf) : buf :=
  mkBuf (b_flags b) (b_dev b) (b_blockno b) l (b_refcnt b) (b_prev b) (b_next b) (b_data b).
Definition with_refcnt (r : Z) (b : buf) : buf :=
  mkBuf (b_flags b) (b_dev b) (b_blockno b) (b_lock b) r (b_prev b) (b_next b) (b_data b).
Definition with_prev (p : nat) (b : buf) : buf :=
  mkBuf (b_flags b) (b_dev b) (b_blockno b) (b_lock b) (b_refcnt b) p (b_next b) (b_data b).
Definition with_next (n : nat) (b : buf) : buf :=
  mkBuf (b_flags b) (b_dev b) (b_blockno b) (b_lock b) (b_refcnt b) (b_prev b) n (b_data b).
Definition with_data (d : block) (b : buf) : buf :=
  mkBuf (b_flags b) (b_dev b) (b_blockno b) (b_lock b) (b_refcnt b) (b_prev b) (b_next b) d.
(** [b->dev = dev; b->blockno = blockno; b->flags = 0; b->refcnt = 1;] *)
Definition recycle (dev bno : Z) (b : buf) : buf :=
  mkBuf 0 dev bno (b_lock b) 1 (b_prev b) (b_next b) (b_data b).
Definition flag (f : Z) (b : buf) : bool := negb (Z.land (b_flags b) f =? 0).

(** [bcache], the disk and the running process.  [bc_locked]: the process is
    inside bcache.lock. *)
Record bst := mkBst {
  bufs : list buf;
  hd_prev : nat;
  hd_next : nat;
  bc_locked : bool;
  disk : list block;
  writes : list (nat * block);
  curpid : Z }.
Definition s_bufs (f : list buf → list buf) (s : bst) : bst :=
  mkBst (f (bufs s)) (hd_prev s) (hd_next s) (bc_locked s) (disk s) (writes s) (curpid s).
Definition s_locked (b : bool) (s : bst) : bst :=
  mkBst (bufs s) (hd_prev s) (hd_next s) b (disk s) (writes s) (curpid s).
Definition s_disk (d : list block) (w : list (nat * block)) (s : bst) : bst :=
  mkBst (bufs s) (hd_prev s) (hd_next s) (bc_locked s) d w (curpid s).
Abbreviation BM := (M bst).

(** Pointer fields of a node; the head is the node [NBUF]. *)
Definition next_of (s : bst) (i : nat) : nat :=
  if decide (i = NBUF) then hd_next s else match bufs s !! i with Some b => b_next b | None => 0%nat end.
Definition prev_of (s : bst) (i : nat) : nat :=
  if decide (i = NBUF) then hd_prev s else match bufs s !! i with Some b => b_prev b | None => 0%nat end.
Definition set_next (i n : nat) (s : bst) : bst :=
  if decide (i = NBUF) then mkBst (bufs s) (hd_prev s) n (bc_locked s) (disk s) (writes s) (curpid s)
  else s_bufs (alter (with_next n) i) s.
Definition set_prev (i p : nat) (s : bst) : bst :=
  if decide (i = NBUF) then mkBst (bufs s) p (hd_next s) (bc_locked s) (disk s) (writes s) (curpid s)
  else s_bufs (alter (with_prev p) i) s.

Definition get_buf (i : nat) : BM buf := s ← get; array_get "buf" (bufs s) (Z.of_nat i).
Definition upd_buf (f : buf → buf) (i : nat) : BM unit := modify (s_bufs (alter f i)).
Definition acquire_bcache : BM unit :=
  s ← get; if bc_locked s then panic "acquire" else modify (s_locked true).
Definition release_bcache : BM unit :=
  s ← get; if bc_locked s then modify (s_locked false) else panic "release".

(** A sleep-lock function on [b->lock], by the running process. *)
Definition on_lock {R} (seg : Z → M (sleeplock * list unit) (reaction unit slcall R)) (i : nat) : BM R :=
  b ← get_buf i;
  pid ← gets curpid;
  match alone (seg pid) (b_lock b) with
  | Ok r l => upd_buf (with_lock l) i ;; mret r
  | Panic e => panic e
  | Undef e => undef e
  | Spin => spin
  end.
Definition hold (i : nat) : BM bool := on_lock holdingsleep i.

(** memide.c: the image that the linker put into the kernel, in blocks; a rest of less than a block is not used. *)
Definition image_blocks (img : list Z) : list block := (λ i, take 512 (drop (512 * i) img)) <$> seq 0 (length img / 512).
Definition mem_ideinit (img : list Z) : BM unit := modify (λ s, s_disk (image_blocks img) (writes s) s).
Definition mem_ideintr : BM unit := mret tt.
Definition iderw (i : nat) : BM unit :=
  h ← hold i;
  if negb h then panic "iderw: buf not locked" else
  b ← get_buf i;
  if Z.land (b_flags b) (Z.lor B_VALID B_DIRTY) =? B_VALID then panic "iderw: nothing to do" else
  if negb (b_dev b =? 1) then panic "iderw: request not for disk 1" else
  s ← get;
  match disk s !! Z.to_nat (b_blockno b) with
  | None => panic "iderw: block out of range"
  | Some p =>
      (if flag B_DIRTY b then
         upd_buf (with_flags (Z.land (b_flags b) (Z.lnot B_DIRTY))) i ;;
         modify (s_disk (<[Z.to_nat (b_blockno b) := b_data b]> (disk s))
                        (writes s ++ [(Z.to_nat (b_blockno b), b_data b)]))
       else upd_buf (with_data p) i) ;;
      b ← get_buf i;
      upd_buf (with_flags (Z.lor (b_flags b) B_VALID)) i
  end.

(** [b->next->prev = b->prev; b->prev->next = b->next;] *)
Definition unlink (i : nat) : BM unit :=
  modify (λ s, set_prev (next_of s i) (prev_of s i) s) ;;
  modify (λ s, set_next (prev_of s i) (next_of s i) s).

(** binit: the loop inserts each buffer after the head. *)
Definition binit_one (i : nat) : BM unit :=
  modify (λ s, set_next i (hd_next s) s) ;;
  modify (set_prev i NBUF) ;;
  upd_buf (with_lock (initsleeplock "buffer")) i ;;
  modify (λ s, set_prev (hd_next s) i s) ;;
  modify (set_next NBUF i).
Definition binit : BM unit :=
  modify (s_locked false) ;;
  modify (set_prev NBUF NBUF) ;;
  modify (set_next NBUF NBUF) ;;
  for_each (seq 0 NBUF) binit_one.

Definition cached (s : bst) (dev bno : Z) (i : nat) : bool :=
  match bufs s !! i with Some b => (b_dev b =? dev) && (b_blockno b =? bno) | None => false end.
Definition unused (s : bst) (i : nat) : bool :=
  match bufs s !! i with Some b => (b_refcnt b =? 0) && negb (flag B_DIRTY b) | None => false end.
Definition bget (dev bno : Z) : BM nat :=
  acquire_bcache ;;
  s ← get;
  match walk (next_of s) NBUF (cached s dev bno) (NBUF + 2) (hd_next s) with
  | None => spin
  | Some (Some i) =>
      b ← get_buf i;
      upd_buf (with_refcnt (u32 (b_refcnt b + 1))) i ;;
      release_bcache ;;
      on_lock acquiresleep i ;;
      mret i
  | Some None =>
      match walk (prev_of s) NBUF (unused s) (NBUF + 2) (hd_prev s) with
      | None => spin
      | Some (Some i) =>
          upd_buf (recycle dev bno) i ;;
          release_bcache ;;
          on_lock acquiresleep i ;;
          mret i
      | Some None => panic "bget: no buffers"
      end
  end.

Definition bio_bread (dev bno : Z) : BM nat :=
  i ← bget dev bno;
  b ← get_buf i;
  when (negb (flag B_VALID b)) (iderw i) ;;
  mret i.

Definition bio_bwrite (i : nat) : BM unit :=
  h ← hold i;
  if negb h then panic "bwrite" else
  b ← get_buf i;
  upd_buf (with_flags (Z.lor (b_flags b) B_DIRTY)) i ;;
  iderw i.

Definition bio_brelse (i : nat) : BM unit :=
  h ← hold i;
  if negb h then panic "brelse" else
  on_lock (λ _, releasesleep) i ;;
  acquire_bcache ;;
  b ← get_buf i;
  upd_buf (with_refcnt (u32 (b_refcnt b - 1))) i ;;
  when (u32 (b_refcnt b - 1) =? 0)
    (unlink i ;;
     modify (λ s, set_next i (hd_next s) s) ;;
     modify (set_prev i NBUF) ;;
     modify (λ s, set_prev (hd_next s) i s) ;;
     modify (set_next NBUF i)) ;;
  release_bcache.

(** What the rest of the kernel does with a buffer it holds: read and write
    [b->data], read [b->blockno], and set B_DIRTY (log_write). *)
#[global] Instance bio_ops : BlockOps bst := {|
  bread := bio_bread;
  bwrite := bio_bwrite;
  brelse := bio_brelse;
  b_get := λ i, b ← get_buf i; mret (b_data b);
  b_put := λ i d, upd_buf (with_data d) i;
  b_number := λ i, b ← get_buf i; mret (b_blockno b);
  b_pin := λ i, b ← get_buf i; upd_buf (with_flags (Z.lor (b_flags b) B_DIRTY)) i |}.

(** ** The cache against its view *)
Definition flags_ok (b : buf) : Prop := b_flags b ∈ [0; 2; 4; 6].
Record buf_ok (pid : Z) (v : bview) (i : nat) (b : buf) : Prop := {
  bo_len : length (b_data b) = BSIZE;
  bo_flags : flags_ok b;
  bo_dev : b_dev b ≠ 1 → b_refcnt b = 0 ∧ flag B_DIRTY b = false;
  bo_cur : b_dev b = 1 → ∃ j, b_blockno b = Z.of_nat j ∧ bv_cur v !! j = Some (b_data b) ∧
             flag B_VALID b = true ∧ (flag B_DIRTY b = true ↔ j ∈ bv_dirty v);
  bo_ref : (b_refcnt b = 0 ∧ sl_locked (b_lock b) = 0 ∧ bv_held v !! i = None) ∨
           (b_refcnt b = 1 ∧ sl_locked (b_lock b) = 1 ∧ sl_pid (b_lock b) = pid ∧
            ∃ j, b_blockno b = Z.of_nat j ∧ bv_held v !! i = Some j) }.
(** Buffers of the disk hold different blocks. *)
Definition uniq (l : list buf) : Prop :=
  ∀ i i' b b', l !! i = Some b → l !! i' = Some b' → b_dev b = 1 → b_dev b' = 1 →
    b_blockno b = b_blockno b' → i = i'.
Record rep (s : bst) (v : bview) : Prop := {
  r_unlocked : bc_locked s = false;
  r_len : length (bufs s) = NBUF;
  r_list : ∃ l, dlist (next_of s) (prev_of s) NBUF l ∧ l ≡ₚ seq 0 NBUF;
  r_buf : ∀ i b, bufs s !! i = Some b → buf_ok (curpid s) v i b;
  r_uniq : uniq (bufs s);
  r_held : ∀ i j, bv_held v !! i = Some j → is_Some (bufs s !! i);
  r_dirty : ∀ j, j ∈ bv_dirty v → ∃ i b, bufs s !! i = Some b ∧ b_dev b = 1 ∧ b_blockno b = Z.of_nat j;
  r_dsk : bv_dsk v = disk s;
  r_writes : bv_writes v = writes s;
  r_cur : length (bv_cur v) = length (disk s);
  r_blocks : Forall (λ d, length d = BSIZE) (disk s);
  r_clean : ∀ j, j ∉ bv_dirty v → (∀ i, bv_held v !! i ≠ Some j) → bv_cur v !! j = disk s !! j }.

(** *** Running the small steps *)
Lemma get_buf_run s i b : bufs s !! i = Some b → get_buf i s = Ok b s.
Proof.
  intros H. unfold get_buf, get, mbind, M_bind. apply array_get_ok; [lia|]. by rewrite Nat2Z.id.
Qed.
Definition put_buf (i : nat) (b : buf) (s : bst) : bst := s_bufs <[i := b]> s.
Lemma upd_buf_run f i s b : bufs s !! i = Some b → upd_buf f i s = Ok tt (put_buf i (f b) s).
Proof. intros H. unfold upd_buf, put_buf, s_bufs, modify. by rewrite (alter_lookup_insert f _ _ b). Qed.
Lemma put_buf_put i b b' s : put_buf i b (put_buf i b' s) = put_buf i b s.
Proof. unfold put_buf, s_bufs. simpl. by rewrite list_insert_insert_eq. Qed.
Lemma put_buf_id i b s : bufs s !! i = Some b → put_buf i b s = s.
Proof. intros H. unfold put_buf, s_bufs. rewrite list_insert_id by done. by destruct s. Qed.
Lemma put_buf_lookup i b b0 s : bufs s !! i = Some b0 → bufs (put_buf i b s) !! i = Some b.
Proof. intros H. simpl. apply list_lookup_insert_eq. by eapply lookup_lt_Some. Qed.
Lemma s_locked_put l i b s : s_locked l (put_buf i b s) = put_buf i b (s_locked l s).
Proof. done. Qed.
Lemma s_locked_id s : bc_locked s = false → s_locked false s = s.
Proof. destruct s; simpl. by intros ->. Qed.

Lemma acquire_bcache_run s : bc_locked s = false → acquire_bcache s = Ok tt (s_locked true s).
Proof. intros H. unfold acquire_bcache, get, mbind, M_bind. by rewrite H. Qed.
Lemma release_bcache_run s : bc_locked s = true → release_bcache s = Ok tt (s_locked false s).
Proof. intros H. unfold release_bcache, get, mbind, M_bind. by rewrite H. Qed.

(** A sleep-lock function that neither waits nor fails. *)
Lemma on_lock_run {R} (seg : Z → M (sleeplock * list unit) (reaction unit slcall R)) s i b r l ws :
  bufs s !! i = Some b → seg (curpid s) (b_lock b, []) = Ok (Returns r) (l, ws) →
  on_lock seg i s = Ok r (put_buf i (with_lock l b) s).
Proof.
  intros Hb Hseg. unfold on_lock. rewrite (bind_run _ _ _ _ _ (get_buf_run s i b Hb)).
  unfold gets, mbind, M_bind, alone. rewrite Hseg. by rewrite (upd_buf_run _ _ _ b).
Qed.
Lemma hold_run s i b :
  bufs s !! i = Some b → sl_locked (b_lock b) = 1 → sl_pid (b_lock b) = curpid s → hold i s = Ok true s.
Proof.
  intros Hb H1 H2. unfold hold.
  erewrite (on_lock_run holdingsleep s i b true (b_lock b) []); [|done|].
  - rewrite put_buf_id; [done|]. by destruct b.
  - unfold holdingsleep, read_state, gets, mbind, M_bind, mret, M_ret. simpl. rewrite H1, H2. by rewrite Z.eqb_refl.
Qed.
Lemma acquiresleep_run s i b :
  bufs s !! i = Some b → sl_locked (b_lock b) = 0 →
  on_lock acquiresleep i s = Ok true (put_buf i (with_lock (mkSleep 1 (sl_name (b_lock b)) (curpid s)) b) s).
Proof.
  intros Hb H1. eapply on_lock_run; [done|].
  unfold acquiresleep, read_state, update, gets, modify, mbind, M_bind, mret, M_ret. simpl. rewrite H1. simpl. done.
Qed.
Lemma releasesleep_run s i b :
  bufs s !! i = Some b →
  on_lock (λ _, releasesleep) i s = Ok true (put_buf i (with_lock (mkSleep 0 (sl_name (b_lock b)) 0) b) s).
Proof. intros Hb. by eapply on_lock_run. Qed.

(** A list node keeps its links when a buffer changes otherwise. *)
Lemma links_put s i b b' :
  bufs s !! i = Some b → b_next b' = b_next b → b_prev b' = b_prev b →
  (∀ k, next_of (put_buf i b' s) k = next_of s k) ∧ (∀ k, prev_of (put_buf i b' s) k = prev_of s k).
Proof.
  intros Hb Hn Hp. assert (i < length (bufs s))%nat by (by eapply lookup_lt_Some).
  split; intros k; unfold next_of, prev_of; simpl; case_decide; [done| |done|];
    (destruct (decide (k = i)) as [->|Hne];
     [rewrite list_lookup_insert_eq, Hb by done; done|by rewrite list_lookup_insert_ne]).
Qed.
Lemma dlist_ext nx pv nx' pv' h l :
  dlist nx pv h l → (∀ k, nx' k = nx k) → (∀ k, pv' k = pv k) → dlist nx' pv' h l.
Proof. intros [Hc Hn] H1 H2. split; [|done]. by eapply chain_ext. Qed.

(** Replace one buffer, and perhaps the disk, keeping the list. *)
Lemma rep_put s v i b b' d w v' :
  rep s v → bufs s !! i = Some b → b_next b' = b_next b → b_prev b' = b_prev b →
  buf_ok (curpid s) v' i b' →
  (∀ k b0, k ≠ i → bufs s !! k = Some b0 → buf_ok (curpid s) v' k b0) →
  (b_dev b' = 1 → ∀ k b0, k ≠ i → bufs s !! k = Some b0 → b_dev b0 = 1 → b_blockno b0 ≠ b_blockno b') →
  (∀ k j, bv_held v' !! k = Some j → k = i ∨ bv_held v !! k = Some j) →
  (∀ j, j ∈ bv_dirty v' → b_dev b' = 1 ∧ b_blockno b' = Z.of_nat j ∨
     ∃ k b0, k ≠ i ∧ bufs s !! k = Some b0 ∧ b_dev b0 = 1 ∧ b_blockno b0 = Z.of_nat j) →
  bv_dsk v' = d → bv_writes v' = w → length (bv_cur v') = length d → Forall (λ x, length x = BSIZE) d →
  (∀ j, j ∉ bv_dirty v' → (∀ k, bv_held v' !! k ≠ Some j) → bv_cur v' !! j = d !! j) →
  rep (s_disk d w (put_buf i b' s)) v'.
Proof.
  intros R Hb Hn Hp Hok Hoth Hu Hh Hd H1 H2 H3 H4 H5.
  assert (i < length (bufs s))%nat as Hi by (by eapply lookup_lt_Some).
  destruct (links_put s i b b' Hb Hn Hp) as [Hnx Hpv].
  assert (∀ k b0, <[i:=b']> (bufs s) !! k = Some b0 → (k = i ∧ b0 = b') ∨ (k ≠ i ∧ bufs s !! k = Some b0)) as Hk.
  { intros k b0. destruct (decide (k = i)) as [->|Hne].
    - rewrite list_lookup_insert_eq by done. intros [= <-]. by left.
    - rewrite list_lookup_insert_ne by done. by right. }
  constructor; simpl; try done.
  - apply R.
  - rewrite length_insert. apply R.
  - destruct (r_list _ _ R) as (l & Hl & Hperm). exists l. split; [|done]. by eapply dlist_ext.
  - intros k b0 [[-> ->]|[? ?]]%Hk; [done|by apply Hoth].
  - intros k k' b0 b0' [[-> ->]|[? ?]]%Hk [[-> ->]|[? ?]]%Hk ? ? Heq; [done| | |].
    + exfalso. by eapply (Hu ltac:(done) k' b0').
    + exfalso. by eapply (Hu ltac:(done) k b0).
    + by eapply (r_uniq _ _ R).
  - intros k j [->|?]%Hh; apply lookup_lt_is_Some; rewrite length_insert; [done|].
    apply lookup_lt_is_Some. by eapply (r_held _ _ R).
  - intros j [[? ?]|(k & b0 & ? & ? & ? & ?)]%Hd.
    + exists i, b'. by rewrite list_lookup_insert_eq.
    + exists k, b0. by rewrite list_lookup_insert_ne.
Qed.

Lemma buf_ok_frame pid v v' k b :
  buf_ok pid v k b →
  (b_dev b = 1 → ∀ j, b_blockno b = Z.of_nat j → bv_cur v' !! j = bv_cur v !! j ∧ (j ∈ bv_dirty v' ↔ j ∈ bv_dirty v)) →
  bv_held v' !! k = bv_held v !! k → buf_ok pid v' k b.
Proof.
  intros [H1 H2 H3 H4 H5] Hf Hh. constructor; [done..| |by rewrite Hh].
  intros Hd. destruct (H4 Hd) as (j & Hj & Hc & Hv & Hdj). exists j. destruct (Hf Hd j Hj) as [Hc' Hd'].
  rewrite Hc', Hd'. done.
Qed.
(** What is known of a buffer that the process holds. *)
Lemma held_buf s v i j :
  rep s v → bv_held v !! i = Some j →
  ∃ b, bufs s !! i = Some b ∧ buf_ok (curpid s) v i b ∧ b_dev b = 1 ∧ b_blockno b = Z.of_nat j ∧ b_refcnt b = 1 ∧
       sl_locked (b_lock b) = 1 ∧ sl_pid (b_lock b) = curpid s ∧ bv_cur v !! j = Some (b_data b) ∧
       flag B_VALID b = true ∧ (flag B_DIRTY b = true ↔ j ∈ bv_dirty v).
Proof.
  intros R Hh. destruct (r_held _ _ R i j Hh) as [b Hb]. pose proof (r_buf _ _ R i b Hb) as Hok. exists b.
  destruct (bo_ref _ _ _ _ Hok) as [(_ & _ & ?)|(Hr & Hl & Hp & j' & Hj & Hh')]; [congruence|].
  assert (j' = j) as -> by congruence.
  destruct (decide (b_dev b = 1)) as [Hd|Hd]; [|destruct (bo_dev _ _ _ _ Hok Hd); lia].
  destruct (bo_cur _ _ _ _ Hok Hd) as (j' & Hj' & ? & ? & ?). assert (j' = j) as -> by lia. done.
Qed.
Lemma others_frame s v v' i j b :
  rep s v → bufs s !! i = Some b → b_dev b = 1 → b_blockno b = Z.of_nat j →
  (∀ k, k ≠ j → bv_cur v' !! k = bv_cur v !! k ∧ (k ∈ bv_dirty v' ↔ k ∈ bv_dirty v)) →
  (∀ k, k ≠ i → bv_held v' !! k = bv_held v !! k) →
  ∀ k b0, k ≠ i → bufs s !! k = Some b0 → buf_ok (curpid s) v' k b0.
Proof.
  intros R Hb Hd Hj Hf Hh k b0 Hk Hb0. eapply buf_ok_frame; [by apply (r_buf _ _ R)| |by apply Hh].
  intros Hd0 j0 Hj0. apply Hf. intros ->. apply Hk. eapply (r_uniq _ _ R); eauto. congruence.
Qed.
Lemma uniq_others s v i b :
  rep s v → bufs s !! i = Some b → b_dev b = 1 →
  ∀ k b0, k ≠ i → bufs s !! k = Some b0 → b_dev b0 = 1 → b_blockno b0 ≠ b_blockno b.
Proof. intros R Hb Hd k b0 Hk Hb0 Hd0 Heq. apply Hk. eapply (r_uniq _ _ R); eauto. Qed.
Lemma dirty_others s v i j b :
  rep s v → bufs s !! i = Some b → b_dev b = 1 → b_blockno b = Z.of_nat j →
  ∀ k, k ∈ bv_dirty v → k = j ∨ ∃ k' b0, k' ≠ i ∧ bufs s !! k' = Some b0 ∧ b_dev b0 = 1 ∧ b_blockno b0 = Z.of_nat k.
Proof.
  intros R Hb Hd Hj k Hk. destruct (r_dirty _ _ R k Hk) as (i' & b0 & ? & ? & ?).
  destruct (decide (i' = i)) as [->|]; [left; simplify_eq; lia|right; by exists i', b0].
Qed.
Lemma s_disk_id s : s_disk (disk s) (writes s) s = s.
Proof. by destruct s. Qed.
Lemma cur_lt s v j d : rep s v → bv_cur v !! j = Some d → (j < length (disk s))%nat.
Proof. intros R H. rewrite <- (r_cur _ _ R). by eapply lookup_lt_Some. Qed.

Lemma bio_put s v i j d :
  rep s v → bv_held v !! i = Some j → length d = BSIZE →
  ∃ s', b_put i d s = Ok tt s' ∧ rep s' (v_cur <[j := d]> v).
Proof.
  intros R Hh Hl. destruct (held_buf s v i j R Hh) as (b & Hb & Hok & Hd & Hj & Hr & Hlk & Hp & Hc & Hv & Hdi).
  exists (put_buf i (with_data d b) s). split; [by apply upd_buf_run|].
  rewrite <- (s_disk_id (put_buf _ _ s)). simpl.
  eapply rep_put; simpl; try done.
  - destruct Hok as [H1 H2 H3 H4 H5]. constructor; simpl; [done|done|done| |done].
    intros _. exists j. rewrite list_lookup_insert_eq by (by eapply lookup_lt_Some). done.
  - eapply (others_frame s v); eauto. intros k Hk. simpl. by rewrite list_lookup_insert_ne.
  - intros _. by eapply uniq_others.
  - by right.
  - intros k Hk. destruct (dirty_others s v i j b R Hb Hd Hj k Hk) as [->|?]; [by left|by right].
  - apply R.
  - apply R.
  - rewrite length_insert. apply R.
  - apply R.
  - intros k Hk Hn. assert (k ≠ j) by (intros ->; by apply (Hn i)). rewrite list_lookup_insert_ne by done.
    by apply (r_clean _ _ R).
Qed.

Lemma bio_get s v i j :
  rep s v → bv_held v !! i = Some j → ∃ d, bv_cur v !! j = Some d ∧ b_get i s = Ok d s.
Proof.
  intros R Hh. destruct (held_buf s v i j R Hh) as (b & Hb & _ & _ & _ & _ & _ & _ & Hc & _).
  exists (b_data b). split; [done|]. simpl. by rewrite (bind_run _ _ _ _ _ (get_buf_run s i b Hb)).
Qed.
Lemma bio_number s v i j :
  rep s v → bv_held v !! i = Some j → b_number i s = Ok (Z.of_nat j) s.
Proof.
  intros R Hh. destruct (held_buf s v i j R Hh) as (b & Hb & _ & _ & <- & _).
  simpl. by rewrite (bind_run _ _ _ _ _ (get_buf_run s i b Hb)).
Qed.

(** The four values of [flags]. *)
Lemma flags_cases b (P : Z → Prop) : flags_ok b → P 0 → P 2 → P 4 → P 6 → P (b_flags b).
Proof.
  intros H H0 H2 H4 H6. unfold flags_ok in H.
  repeat (apply elem_of_cons in H as [->|H]; [done|]). by apply elem_of_nil in H.
Qed.
Lemma flag_valid b :
  flags_ok b → flag B_VALID b = true → b_flags b = if flag B_DIRTY b then 6 else 2.
Proof. unfold flag. intros H. apply (flags_cases b (λ f, negb (Z.land f B_VALID =? 0) = true → f = if negb (Z.land f B_DIRTY =? 0) then 6 else 2) H); done. Qed.

Lemma bio_pin s v i j :
  rep s v → bv_held v !! i = Some j → ∃ s', b_pin i s = Ok tt s' ∧ rep s' (v_dirty (λ D, {[j]} ∪ D) v).
Proof.
  intros R Hh. destruct (held_buf s v i j R Hh) as (b & Hb & Hok & Hd & Hj & Hr & Hlk & Hp & Hc & Hv & Hdi).
  assert (Z.lor (b_flags b) B_DIRTY = 6) as Hf by (rewrite (flag_valid b) by (done || apply Hok); by destruct (flag B_DIRTY b)).
  exists (put_buf i (with_flags 6 b) s).
  split. { simpl. rewrite (bind_run _ _ _ _ _ (get_buf_run s i b Hb)), Hf. by apply upd_buf_run. }
  rewrite <- (s_disk_id (put_buf _ _ s)). simpl.
  eapply rep_put; simpl; try done.
  - destruct Hok as [H1 H2 H3 H4 H5]. constructor; simpl; [done|..].
    + by repeat (apply elem_of_cons; first [by left|right]).
    + done.
    + intros _. exists j. split_and!; [done..|]. split; [set_solver|done].
    + done.
  - eapply (others_frame s v); eauto. intros k Hk. simpl. split; [done|set_solver].
  - intros _. by eapply uniq_others.
  - by right.
  - intros k [->%elem_of_singleton|Hk]%elem_of_union; [by left|].
    destruct (dirty_others s v i j b R Hb Hd Hj k Hk) as [->|?]; [by left|by right].
  - apply R.
  - apply R.
  - apply R.
  - apply R.
  - intros k Hk Hn. apply (r_clean _ _ R); [set_solver|done].
Qed.

(** iderw on a dirty buffer writes it, on one that is not valid reads it. *)
Lemma iderw_write s i b d :
  bufs s !! i = Some b → sl_locked (b_lock b) = 1 → sl_pid (b_lock b) = curpid s →
  b_flags b = 6 → b_dev b = 1 → disk s !! Z.to_nat (b_blockno b) = Some d →
  iderw i s = Ok tt (s_disk (<[Z.to_nat (b_blockno b) := b_data b]> (disk s))
                            (writes s ++ [(Z.to_nat (b_blockno b), b_data b)]) (put_buf i (with_flags 2 b) s)).
Proof.
  intros Hb Hl Hp Hf Hd Hdisk. unfold iderw. rewrite (bind_run _ _ _ _ _ (hold_run s i b Hb Hl Hp)). simpl.
  rewrite (bind_run _ _ _ _ _ (get_buf_run s i b Hb)), Hf. simpl. rewrite Hd. simpl.
  unfold get, mbind at 1, M_bind. rewrite Hdisk. unfold flag. rewrite Hf. simpl.
  unfold mbind, M_bind. rewrite (upd_buf_run _ i s b Hb). unfold modify. simpl.
  rewrite (get_buf_run _ i (with_flags 2 b)) by (simpl; apply list_lookup_insert_eq; by eapply lookup_lt_Some).
  rewrite (upd_buf_run _ i _ (with_flags 2 b)) by (simpl; apply list_lookup_insert_eq; by eapply lookup_lt_Some).
  unfold put_buf, s_disk, s_bufs. simpl. by rewrite list_insert_insert_eq.
Qed.
Lemma iderw_read s i b d :
  bufs s !! i = Some b → sl_locked (b_lock b) = 1 → sl_pid (b_lock b) = curpid s →
  b_flags b = 0 → b_dev b = 1 → disk s !! Z.to_nat (b_blockno b) = Some d →
  iderw i s = Ok tt (put_buf i (with_flags 2 (with_data d b)) s).
Proof.
  intros Hb Hl Hp Hf Hd Hdisk. unfold iderw. rewrite (bind_run _ _ _ _ _ (hold_run s i b Hb Hl Hp)). simpl.
  rewrite (bind_run _ _ _ _ _ (get_buf_run s i b Hb)), Hf. simpl. rewrite Hd. simpl.
  unfold get, mbind at 1, M_bind. rewrite Hdisk. unfold flag. rewrite Hf. simpl.
  unfold mbind, M_bind. rewrite (upd_buf_run _ i s b Hb).
  rewrite (get_buf_run _ i (with_data d b)) by (simpl; apply list_lookup_insert_eq; by eapply lookup_lt_Some).
  rewrite (upd_buf_run _ i _ (with_data d b)) by (simpl; apply list_lookup_insert_eq; by eapply lookup_lt_Some).
  rewrite put_buf_put. simpl. by rewrite Hf.
Qed.

Lemma bio_write s v i j d :
  rep s v → bv_held v !! i = Some j → bv_cur v !! j = Some d →
  ∃ s', bwrite i s = Ok tt s' ∧ rep s' (v_write j d v).
Proof.
  intros R Hh Hcd. destruct (held_buf s v i j R Hh) as (b & Hb & Hok & Hd & Hj & Hr & Hlk & Hp & Hc & Hv & Hdi).
  assert (d = b_data b) as -> by congruence.
  assert (Z.lor (b_flags b) B_DIRTY = 6) as Hf by (rewrite (flag_valid b) by (done || apply Hok); by destruct (flag B_DIRTY b)).
  destruct (lookup_lt_is_Some_2 (disk s) j) as [d0 Hd0]; [by eapply cur_lt|].
  eexists. split.
  { simpl. unfold bio_bwrite. rewrite (bind_run _ _ _ _ _ (hold_run s i b Hb Hlk Hp)). simpl.
    rewrite (bind_run _ _ _ _ _ (get_buf_run s i b Hb)), Hf. rewrite (bind_run _ _ _ _ _ (upd_buf_run _ i s b Hb)).
    eapply (iderw_write _ i (with_flags 6 b)); try done; [by eapply put_buf_lookup|].
    simpl. by rewrite Hj, Nat2Z.id. }
  rewrite put_buf_put. simpl. rewrite Hj, Nat2Z.id.
  eapply (rep_put s v i b); simpl; try done.
  - destruct Hok as [H1 H2 H3 H4 H5]. constructor; simpl; [done|..].
    + by repeat (apply elem_of_cons; first [by left|right]).
    + done.
    + intros _. exists j. split_and!; [done..|]. split; [done|set_solver].
    + done.
  - eapply (others_frame s v); eauto. intros k Hk. simpl. split; [done|set_solver].
  - intros _. by eapply uniq_others.
  - by right.
  - intros k [Hk Hkj]%elem_of_difference.
    destruct (dirty_others s v i j b R Hb Hd Hj k Hk) as [->|?]; [set_solver|by right].
  - by rewrite (r_dsk _ _ R).
  - by rewrite (r_writes _ _ R).
  - rewrite length_insert. apply R.
  - apply Forall_insert; [apply R|apply Hok].
  - intros k Hk Hn. destruct (decide (k = j)) as [->|Hne].
    + rewrite list_lookup_insert_eq by (by eapply cur_lt). done.
    + rewrite list_lookup_insert_ne by done. apply (r_clean _ _ R); [set_solver|done].
Qed.

(** *** Moving a buffer to the front of the list *)
Definition strip (b : buf) : buf := with_prev 0 (with_next 0 b).
(** The state but for the links. *)
Definition body (s : bst) := (strip <$> bufs s, bc_locked s, disk s, writes s, curpid s).
Lemma strip_alter f i (l : list buf) : (∀ b, strip (f b) = strip b) → strip <$> alter f i l = strip <$> l.
Proof.
  intros Hf. apply list_eq. intros k. rewrite !list_lookup_fmap. destruct (decide (k = i)) as [->|Hne].
  - rewrite list_lookup_alter_eq. destruct (l !! i); simpl; [by rewrite Hf|done].
  - by rewrite list_lookup_alter_ne.
Qed.
Lemma set_next_body i n s : body (set_next i n s) = body s.
Proof. unfold set_next, body. case_decide; simpl; [done|]. by rewrite strip_alter. Qed.
Lemma set_prev_body i n s : body (set_prev i n s) = body s.
Proof. unfold set_prev, body. case_decide; simpl; [done|]. by rewrite strip_alter. Qed.
Lemma body_length s s' : body s' = body s → length (bufs s') = length (bufs s).
Proof. intros [= H _ _ _ _]. apply (f_equal length) in H. by rewrite !length_fmap in H. Qed.

Lemma body_fields s s' :
  body s' = body s → bc_locked s' = bc_locked s ∧ disk s' = disk s ∧ writes s' = writes s ∧ curpid s' = curpid s.
Proof. unfold body. by intros [=]. Qed.

Lemma set_next_next i n s k :
  length (bufs s) = NBUF → (i ≤ NBUF)%nat → next_of (set_next i n s) k = fset (next_of s) i n k.
Proof.
  intros Hl Hi. unfold set_next, fset, next_of. destruct (decide (i = NBUF)) as [->|Hn]; simpl.
  - by case_decide.
  - destruct (decide (k = i)) as [->|Hk].
    + rewrite decide_False by done. rewrite list_lookup_alter_eq.
      destruct (lookup_lt_is_Some_2 (bufs s) i) as [b Hb]; [lia|]. by rewrite Hb.
    + case_decide; [done|]. by rewrite list_lookup_alter_ne.
Qed.
Lemma set_next_prev i n s k : prev_of (set_next i n s) k = prev_of s k.
Proof.
  unfold set_next, prev_of. destruct (decide (i = NBUF)); simpl; [done|]. case_decide; [done|].
  destruct (decide (k = i)) as [->|]; [|by rewrite list_lookup_alter_ne].
  rewrite list_lookup_alter_eq. by destruct (bufs s !! i).
Qed.
Lemma set_prev_prev i n s k :
  length (bufs s) = NBUF → (i ≤ NBUF)%nat → prev_of (set_prev i n s) k = fset (prev_of s) i n k.
Proof.
  intros Hl Hi. unfold set_prev, fset, prev_of. destruct (decide (i = NBUF)) as [->|Hn]; simpl.
  - by case_decide.
  - destruct (decide (k = i)) as [->|Hk].
    + rewrite decide_False by done. rewrite list_lookup_alter_eq.
      destruct (lookup_lt_is_Some_2 (bufs s) i) as [b Hb]; [lia|]. by rewrite Hb.
    + case_decide; [done|]. by rewrite list_lookup_alter_ne.
Qed.
Lemma set_prev_next i n s k : next_of (set_prev i n s) k = next_of s k.
Proof.
  unfold set_prev, next_of. destruct (decide (i = NBUF)); simpl; [done|]. case_decide; [done|].
  destruct (decide (k = i)) as [->|]; [|by rewrite list_lookup_alter_ne].
  rewrite list_lookup_alter_eq. by destruct (bufs s !! i).
Qed.
Lemma hd_next_of s : hd_next s = next_of s NBUF.
Proof. unfold next_of. by rewrite decide_True. Qed.

Lemma unlink_run s i l1 l2 :
  length (bufs s) = NBUF → dlist (next_of s) (prev_of s) NBUF (l1 ++ i :: l2) →
  (∀ k, k ∈ l1 ++ i :: l2 → (k ≤ NBUF)%nat) →
  ∃ s', unlink i s = Ok tt s' ∧ body s' = body s ∧ dlist (next_of s') (prev_of s') NBUF (l1 ++ l2).
Proof.
  intros Hl Hd Hk.
  assert (next_of s i ≤ NBUF ∧ prev_of s i ≤ NBUF)%nat as [Hn Hp].
  { destruct Hd as [[H1 H2]%chain_app _]. split.
    - destruct l2 as [|y l2]; simpl in H2; [destruct H2 as [-> _]; done|]. destruct H2 as [-> _]. apply Hk. set_solver.
    - destruct l1 as [|p l1 _] using rev_ind; simpl in H1; [destruct H1 as [_ ->]; done|].
      apply chain_snoc in H1 as (_ & _ & ->). apply Hk. set_solver. }
  eexists. split; [done|]. split; [by rewrite set_next_body, set_prev_body|].
  set (s1 := set_prev (next_of s i) (prev_of s i) s).
  assert (i ≠ next_of s i ∧ length (bufs s1) = NBUF) as [Hni Hl1].
  { split; [|rewrite <- Hl; apply body_length, set_prev_body].
    destruct Hd as [[_ H2]%chain_app Hnd]. apply NoDup_cons in Hnd as [Hh Hnd]. apply NoDup_app in Hnd as (_ & _ & Hnd).
    destruct l2 as [|y l2]; simpl in H2; destruct H2 as [-> _]; intros Heq.
    - rewrite <- Heq in Hh. set_solver.
    - rewrite <- Heq in Hnd. apply NoDup_cons in Hnd as [? _]. set_solver. }
  assert (next_of s1 i = next_of s i ∧ prev_of s1 i = prev_of s i) as [E1 E2].
  { unfold s1. rewrite set_prev_next, set_prev_prev by done. by rewrite fset_ne. }
  rewrite E1, E2. eapply dlist_ext; [by apply dlist_unlink| |]; intros k.
  - rewrite set_next_next by done. unfold unlink_next, fset. case_decide; [done|]. unfold s1. by rewrite set_prev_next.
  - rewrite set_next_prev. unfold s1. by rewrite set_prev_prev.
Qed.
(** [b->next = head.next; b->prev = &head; head.next->prev = b; head.next = b;] *)
Lemma push_run s i l :
  length (bufs s) = NBUF → dlist (next_of s) (prev_of s) NBUF l → (∀ k, k ∈ l → (k ≤ NBUF)%nat) →
  (i < NBUF)%nat → i ∉ l →
  let s1 := set_prev i NBUF (set_next i (hd_next s) s) in
  let s2 := set_next NBUF i (set_prev (hd_next s1) i s1) in
  body s2 = body s ∧ dlist (next_of s2) (prev_of s2) NBUF (i :: l).
Proof.
  intros Hl Hd Hk Hi Hil s1 s2.
  assert (next_of s NBUF ≤ NBUF)%nat as Hn.
  { destruct Hd as [Hc _]. destruct l as [|y l]; simpl in Hc; [destruct Hc as [-> _]; done|].
    destruct Hc as [-> _]. apply Hk. set_solver. }
  assert (body s1 = body s) as Hb1 by (unfold s1; by rewrite set_prev_body, set_next_body).
  split; [unfold s2; by rewrite set_next_body, set_prev_body|].
  assert (∀ k, next_of s1 k = fset (next_of s) i (next_of s NBUF) k) as Hnx1.
  { intros k. unfold s1. rewrite set_prev_next, set_next_next by lia. by rewrite hd_next_of. }
  assert (∀ k, prev_of s1 k = fset (prev_of s) i NBUF k) as Hpv1.
  { intros k. unfold s1. rewrite set_prev_prev; [|by rewrite (body_length s) by (by rewrite set_next_body)|lia].
    unfold fset. case_decide; [done|]. by rewrite set_next_prev. }
  assert (hd_next s1 = next_of s NBUF) as Hh1 by (rewrite hd_next_of, Hnx1; apply fset_ne; lia).
  assert (length (bufs s1) = NBUF) as Hl1 by (by rewrite (body_length s)).
  eapply dlist_ext; [apply (dlist_push _ _ _ i _ Hd); set_solver by lia| |]; intros k; unfold s2; rewrite Hh1.
  - rewrite set_next_next; [|by rewrite (body_length s1) by (by rewrite set_prev_body)|done].
    unfold push_next. destruct (decide (k = NBUF)) as [->|]; [by rewrite !fset_eq|].
    rewrite !(fset_ne _ NBUF), set_prev_next by done. apply Hnx1.
  - rewrite set_next_prev, set_prev_prev by done. unfold push_prev.
    destruct (decide (k = next_of s NBUF)) as [->|]; [by rewrite !fset_eq|].
    rewrite !(fset_ne _ (next_of s NBUF)) by done. apply Hpv1.
Qed.

Lemma strip_same b b' :
  strip b' = strip b →
  b_flags b' = b_flags b ∧ b_dev b' = b_dev b ∧ b_blockno b' = b_blockno b ∧ b_lock b' = b_lock b ∧
  b_refcnt b' = b_refcnt b ∧ b_data b' = b_data b.
Proof. unfold strip. by intros [=]. Qed.
Lemma buf_ok_strip pid v i b b' : buf_ok pid v i b → strip b' = strip b → buf_ok pid v i b'.
Proof.
  intros [H1 H2 H3 H4 H5] (E1 & E2 & E3 & E4 & E5 & E6)%strip_same.
  constructor; unfold flags_ok, flag in *; rewrite ?E1, ?E2, ?E3, ?E4, ?E5, ?E6; done.
Qed.
Lemma body_lookup s s' k b' :
  body s' = body s → bufs s' !! k = Some b' → ∃ b, bufs s !! k = Some b ∧ strip b' = strip b.
Proof.
  intros [= Hb _ _ _ _] Hk. apply (f_equal (.!! k)) in Hb. rewrite !list_lookup_fmap, Hk in Hb.
  destruct (bufs s !! k) as [b|]; simpl in Hb; [|done]. exists b. split; [done|congruence].
Qed.
Lemma rep_links s s' v l :
  rep s v → body s' = body s → dlist (next_of s') (prev_of s') NBUF l → l ≡ₚ seq 0 NBUF → rep s' v.
Proof.
  intros R Hbody Hd Hp.
  assert (∀ k b', bufs s' !! k = Some b' → ∃ b, bufs s !! k = Some b ∧ strip b' = strip b) as Hk
    by (intros; by eapply body_lookup).
  assert (∀ k b, bufs s !! k = Some b → ∃ b', bufs s' !! k = Some b' ∧ strip b' = strip b) as Hk'.
  { intros k b Hb. destruct (body_lookup s' s k b) as (b' & ? & ?); [done..|]. by exists b'. }
  pose proof (body_length _ _ Hbody) as Hlen. injection Hbody as _ Hloc Hdisk Hwr Hpid.
  constructor.
  - rewrite Hloc. apply R.
  - rewrite Hlen. apply R.
  - by exists l.
  - intros k b' (b & Hb & Hs)%Hk. rewrite Hpid. eapply buf_ok_strip; [by apply (r_buf _ _ R)|done].
  - intros k k' b b' (b0 & Hb0 & (_ & E1 & E2 & _)%strip_same)%Hk (b0' & Hb0' & (_ & E1' & E2' & _)%strip_same)%Hk.
    rewrite E1, E1', E2, E2'. by apply (r_uniq _ _ R).
  - intros k j Hh. apply lookup_lt_is_Some. rewrite Hlen. apply lookup_lt_is_Some. by eapply (r_held _ _ R).
  - intros j Hj. destruct (r_dirty _ _ R j Hj) as (k & b & Hb & Hd1 & Hbn).
    destruct (Hk' k b Hb) as (b' & Hb' & (_ & E1 & E2 & _)%strip_same). exists k, b'. by rewrite E1, E2.
  - rewrite Hdisk. apply R.
  - rewrite Hwr. apply R.
  - rewrite Hdisk. apply R.
  - rewrite Hdisk. apply R.
  - rewrite Hdisk. apply R.
Qed.

(** Moving any buffer to the front keeps the cache. *)
Lemma move_front s v i :
  rep (s_locked false s) v → (i < NBUF)%nat →
  ∃ s', (unlink i ;;
         modify (λ s, set_next i (hd_next s) s) ;; modify (set_prev i NBUF) ;;
         modify (λ s, set_prev (hd_next s) i s) ;; modify (set_next NBUF i)) s = Ok tt s' ∧
        rep (s_locked false s') v ∧ body s' = body s.
Proof.
  intros R Hi. destruct (r_list _ _ R) as (l & Hd & Hp).
  change (dlist (next_of s) (prev_of s) NBUF l) in Hd.
  assert (i ∈ l) as Hin by (rewrite Hp; apply elem_of_seq; lia).
  apply list_elem_of_split in Hin as (l1 & l2 & ->).
  assert (∀ k, k ∈ l1 ++ i :: l2 → (k ≤ NBUF)%nat) as Hk.
  { intros k Hk. rewrite Hp in Hk. apply elem_of_seq in Hk. lia. }
  destruct (unlink_run s i l1 l2 (r_len _ _ R) Hd Hk) as (s1 & Hs1 & Hb1 & Hd1).
  assert (i ∉ l1 ++ l2) as Hni.
  { destruct Hd as [_ Hn]. apply NoDup_cons in Hn as [_ Hn]. rewrite <- Permutation_middle in Hn.
    by apply NoDup_cons in Hn as [? _]. }
  destruct (push_run s1 i (l1 ++ l2)) as [Hb2 Hd2]; [rewrite (body_length s _ Hb1); apply (r_len _ _ R)|done| |done|done|].
  { intros k Hk'. apply Hk. set_solver. }
  eexists. split; [rewrite (bind_run _ _ _ _ _ Hs1); reflexivity|]. simpl in *. split; [|congruence].
  eapply (rep_links (s_locked false s)); [done| |exact Hd2|by rewrite Permutation_middle].
  rewrite Hb1 in Hb2. unfold body in *. simpl. by injection Hb2 as -> _ -> -> ->.
Qed.

Lemma bio_release s v i j :
  rep s v → bv_held v !! i = Some j → j ∈ bv_dirty v ∨ bv_cur v !! j = bv_dsk v !! j →
  ∃ s', brelse i s = Ok tt s' ∧ rep s' (v_held (delete i) v).
Proof.
  intros R Hh Hcl. destruct (held_buf s v i j R Hh) as (b & Hb & Hok & Hd & Hj & Hr & Hlk & Hp & Hc & Hv & Hdi).
  set (b1 := with_lock (mkSleep 0 (sl_name (b_lock b)) 0) b). set (b2 := with_refcnt 0 b1).
  assert (rep (put_buf i b2 s) (v_held (delete i) v)) as R2.
  { rewrite <- (s_disk_id (put_buf _ _ s)). simpl. eapply (rep_put s v i b); simpl; try done.
    - destruct Hok as [H1 H2 H3 H4 H5]. constructor; simpl; try done. left. by rewrite lookup_delete_eq.
    - eapply (others_frame s v); eauto. intros k Hk. simpl. by rewrite lookup_delete_ne.
    - intros _. by eapply uniq_others.
    - intros k j'. rewrite lookup_delete_Some. intros [_ ?]. by right.
    - intros k Hk. destruct (dirty_others s v i j b R Hb Hd Hj k Hk) as [->|?]; [by left|by right].
    - apply R.
    - apply R.
    - apply R.
    - apply R.
    - intros k Hk Hn. destruct (decide (k = j)) as [->|Hne].
      + destruct Hcl as [?|Hcl]; [done|]. rewrite Hcl. by rewrite (r_dsk _ _ R).
      + apply (r_clean _ _ R); [done|]. intros k' Hk'. apply (Hn k'). rewrite lookup_delete_Some.
        split; [congruence|done]. }
  assert (i < NBUF)%nat as Hi by (rewrite <- (r_len _ _ R); by eapply lookup_lt_Some).
  simpl. unfold bio_brelse. rewrite (bind_run _ _ _ _ _ (hold_run s i b Hb Hlk Hp)). simpl.
  rewrite (bind_run _ _ _ _ _ (releasesleep_run s i b Hb)). fold b1.
  rewrite (bind_run _ _ _ _ _ (acquire_bcache_run (put_buf i b1 s) (r_unlocked _ _ R))).
  assert (bufs (put_buf i b1 s) !! i = Some b1) as Hb1 by (by eapply put_buf_lookup).
  rewrite (bind_run _ _ _ _ _ (get_buf_run (s_locked true (put_buf i b1 s)) i b1 Hb1)).
  rewrite (bind_run _ _ _ _ _ (upd_buf_run (with_refcnt (u32 (b_refcnt b1 - 1))) i
             (s_locked true (put_buf i b1 s)) b1 Hb1)).
  replace (u32 (b_refcnt b1 - 1)) with 0 by (simpl; by rewrite Hr). fold b2.
  destruct (move_front (put_buf i b2 (s_locked true (put_buf i b1 s))) (v_held (delete i) v) i) as (s' & Hs' & R' & Hb').
  { replace (s_locked false _) with (put_buf i b2 s); [done|].
    unfold put_buf, s_locked, s_bufs. simpl. by rewrite list_insert_insert_eq, (r_unlocked _ _ R). }
  { done. }
  change (when (0 =? 0) ?m) with m. rewrite (bind_run _ _ _ _ _ Hs').
  exists (s_locked false s'). split; [|done].
  apply release_bcache_run. by injection Hb' as _ Hl _ _ _.
Qed.

(** *** bread *)
Definition block_of (s : bst) (i : nat) : nat :=
  match bufs s !! i with Some b => Z.to_nat (b_blockno b) | None => 0%nat end.
Definition in_use (s : bst) (i : nat) : bool :=
  match bufs s !! i with Some b => negb (b_refcnt b =? 0) | None => false end.
(** When every buffer is in use or dirty, held and pinned blocks fill the cache. *)
Lemma all_used s v :
  rep s v → (∀ i, (i < NBUF)%nat → unused s i = false) → (NBUF ≤ size (bv_held v) + size (bv_dirty v))%nat.
Proof.
  intros R Hall.
  set (A := filter (λ i, in_use s i = true) (seq 0 NBUF)). set (B := filter (λ i, ¬ in_use s i = true) (seq 0 NBUF)).
  assert (length A + length B = NBUF)%nat as Hab.
  { rewrite <- length_app. unfold A, B. rewrite filter_app_complement. apply length_seq. }
  assert (∀ i, i ∈ seq 0 NBUF → ∃ b, bufs s !! i = Some b) as Hbuf.
  { intros i [_ Hi]%elem_of_seq. apply lookup_lt_is_Some_2. rewrite (r_len _ _ R). lia. }
  assert (length A ≤ size (bv_held v))%nat as HA.
  { rewrite <- size_dom, <- (size_list_to_set (C := gset nat) A) by apply NoDup_filter, NoDup_seq.
    apply subseteq_size. intros i [Hu Hi]%elem_of_list_to_set%list_elem_of_filter.
    destruct (Hbuf i Hi) as [b Hb]. unfold in_use in Hu. rewrite Hb in Hu. apply negb_true_iff, Z.eqb_neq in Hu.
    destruct (bo_ref _ _ _ _ (r_buf _ _ R i b Hb)) as [[? _]|(_ & _ & _ & j & _ & Hh)]; [done|].
    by apply elem_of_dom_2 in Hh. }
  assert (∀ i, i ∈ B → ∃ b j, bufs s !! i = Some b ∧ b_dev b = 1 ∧ b_blockno b = Z.of_nat j ∧ j ∈ bv_dirty v) as HBd.
  { intros i [Hu Hi]%list_elem_of_filter. destruct (Hbuf i Hi) as [b Hb]. apply elem_of_seq in Hi as [_ Hi].
    specialize (Hall i ltac:(lia)). unfold in_use, unused in *. rewrite Hb in *.
    destruct (b_refcnt b =? 0) eqn:E; [|by destruct Hu]. simpl in Hall. apply negb_false_iff in Hall.
    pose proof (r_buf _ _ R i b Hb) as Hok.
    destruct (decide (b_dev b = 1)) as [Hd|Hd]; [|destruct (bo_dev _ _ _ _ Hok Hd); congruence].
    destruct (bo_cur _ _ _ _ Hok Hd) as (j & Hj & _ & _ & Hdj). exists b, j. by rewrite <- Hdj. }
  assert (length B ≤ size (bv_dirty v))%nat as HB.
  { rewrite <- (length_fmap (block_of s)). rewrite <- (size_list_to_set (C := gset nat)).
    - apply subseteq_size. intros j [i [-> Hi]]%elem_of_list_to_set%list_elem_of_fmap.
      destruct (HBd i Hi) as (b & j & Hb & _ & Hj & ?). unfold block_of. rewrite Hb, Hj. by rewrite Nat2Z.id.
    - apply NoDup_fmap_2_strong; [|apply NoDup_filter, NoDup_seq]. intros i i' Hi Hi' Heq.
      destruct (HBd i Hi) as (b & j & Hb & Hd & Hj & _). destruct (HBd i' Hi') as (b' & j' & Hb' & Hd' & Hj' & _).
      unfold block_of in Heq. rewrite Hb, Hb', Hj, Hj' in Heq. eapply (r_uniq _ _ R); eauto. lia. }
  lia.
Qed.

Lemma walk_bufs s v P :
  rep s v →
  ∃ l, l ≡ₚ seq 0 NBUF ∧ walk (next_of s) NBUF P (NBUF + 2) (hd_next s) = Some (first P l) ∧
       walk (prev_of s) NBUF P (NBUF + 2) (hd_prev s) = Some (first P (reverse l)).
Proof.
  intros R. destruct (r_list _ _ R) as (l & Hd & Hp). exists l.
  assert (length l < NBUF + 2)%nat by (rewrite Hp, length_seq; lia).
  split_and!; [done|rewrite hd_next_of; by eapply walk_next|].
  replace (hd_prev s) with (prev_of s NBUF) by (unfold prev_of; by rewrite decide_True). by eapply walk_prev.
Qed.
Definition locked_by (pid : Z) (b : buf) : buf := with_lock (mkSleep 1 (sl_name (b_lock b)) pid) b.

(** A hit: the buffer of the block is taken. *)
Lemma bread_hit s v i j b :
  rep s v → bufs s !! i = Some b → b_dev b = 1 → b_blockno b = Z.of_nat j → (∀ k, bv_held v !! k ≠ Some j) →
  bv_held v !! i = None ∧ b_refcnt b = 0 ∧ sl_locked (b_lock b) = 0 ∧ flag B_VALID b = true ∧
  rep (put_buf i (locked_by (curpid s) (with_refcnt 1 b)) s) (v_held <[i := j]> v).
Proof.
  intros R Hb Hd Hj Hnh. pose proof (r_buf _ _ R i b Hb) as Hok.
  destruct (bo_ref _ _ _ _ Hok) as [(Hr & Hl & Hh)|(_ & _ & _ & j' & Hj' & Hh)];
    [|exfalso; apply (Hnh i); rewrite Hh; f_equal; lia].
  destruct (bo_cur _ _ _ _ Hok Hd) as (j' & Hj' & Hc & Hv & Hdi). assert (j' = j) as -> by lia.
  split_and!; [done..|]. rewrite <- (s_disk_id (put_buf _ _ s)). simpl. eapply (rep_put s v i b); simpl; try done.
  - destruct Hok as [H1 H2 H3 H4 H5]. constructor; simpl; try done. right. split_and!; [done..|].
    exists j. by rewrite lookup_insert_eq.
  - eapply (others_frame s v); eauto. intros k Hk. simpl. by rewrite lookup_insert_ne.
  - intros _. by eapply uniq_others.
  - intros k j'. rewrite lookup_insert_Some. intros [[-> _]|[_ ?]]; [by left|by right].
  - intros k Hk. destruct (dirty_others s v i j b R Hb Hd Hj k Hk) as [->|?]; [by left|by right].
  - apply R.
  - apply R.
  - apply R.
  - apply R.
  - intros k Hk Hn. apply (r_clean _ _ R); [done|]. intros k' Hk'.
    apply (Hn k'). rewrite lookup_insert_ne; [done|]. intros <-. congruence.
Qed.
(** A miss: an unused clean buffer is given to the block. *)
Definition refilled (pid : Z) (j : nat) (d : block) (b : buf) : buf :=
  with_flags 2 (with_data d (locked_by pid (recycle 1 (Z.of_nat j) b))).
Lemma bread_miss s v i j b d :
  rep s v → bufs s !! i = Some b → unused s i = true → disk s !! j = Some d →
  (∀ k b0, bufs s !! k = Some b0 → b_dev b0 = 1 → b_blockno b0 ≠ Z.of_nat j) →
  bv_held v !! i = None ∧ sl_locked (b_lock b) = 0 ∧
  rep (put_buf i (refilled (curpid s) j d b) s) (v_held <[i := j]> v).
Proof.
  intros R Hb Hu Hd Hnc. pose proof (r_buf _ _ R i b Hb) as Hok.
  unfold unused in Hu. rewrite Hb in Hu. apply andb_true_iff in Hu as [Hr Hdi]. apply Z.eqb_eq in Hr. apply negb_true_iff in Hdi.
  destruct (bo_ref _ _ _ _ Hok) as [(_ & Hl & Hh)|(? & _)]; [|lia].
  assert (j ∉ bv_dirty v) as Hnd.
  { intros Hj. destruct (r_dirty _ _ R j Hj) as (k & b0 & ? & ? & ?). by eapply Hnc. }
  assert (∀ k, bv_held v !! k ≠ Some j) as Hnh.
  { intros k Hk. destruct (held_buf s v k j R Hk) as (b0 & ? & _ & ? & ? & _). by eapply Hnc. }
  split_and!; [done..|]. rewrite <- (s_disk_id (put_buf _ _ s)). simpl. eapply (rep_put s v i b); simpl; try done.
  - constructor; simpl.
    + apply (Forall_lookup_1 (λ x, length x = BSIZE) (disk s) j d); [apply R|done].
    + by repeat (apply elem_of_cons; first [by left|right]).
    + done.
    + intros _. exists j. rewrite (r_clean _ _ R) by done. split_and!; [done..|]. by split.
    + right. split_and!; [done..|]. exists j. by rewrite lookup_insert_eq.
  - intros k b0 Hk Hb0. eapply buf_ok_frame; [by apply (r_buf _ _ R)|done|]. simpl. by rewrite lookup_insert_ne.
  - intros _ k b0 _ Hb0 Hd0. by eapply Hnc.
  - intros k j'. rewrite lookup_insert_Some. intros [[-> _]|[_ ?]]; [by left|by right].
  - intros k Hk. right. destruct (r_dirty _ _ R k Hk) as (k' & b0 & Hb0 & Hd0 & Hk0).
    exists k', b0. split_and!; [|done..]. intros ->. assert (b0 = b) as -> by congruence.
    destruct (bo_cur _ _ _ _ Hok Hd0) as (k2 & Hk2 & _ & _ & Hdk). assert (k2 = k) as -> by lia.
    apply Hdk in Hk. congruence.
  - apply R.
  - apply R.
  - apply R.
  - apply R.
  - intros k Hk Hn. apply (r_clean _ _ R); [done|]. intros k' Hk'.
    apply (Hn k'). rewrite lookup_insert_ne; [done|]. intros <-. congruence.
Qed.

Lemma s_locked_put_put s i b b' :
  bc_locked s = false → put_buf i b' (s_locked false (put_buf i b (s_locked true s))) = put_buf i b' s.
Proof. intros H. unfold put_buf, s_locked, s_bufs. simpl. by rewrite list_insert_insert_eq, H. Qed.
(** The two endings of bget. *)
Lemma bget_take s i b f :
  bufs s !! i = Some b → bc_locked s = false → sl_locked (b_lock (f b)) = 0 →
  (upd_buf f i ;; release_bcache ;; on_lock acquiresleep i ;; mret i) (s_locked true s) =
  Ok i (put_buf i (locked_by (curpid s) (f b)) s).
Proof.
  intros Hb Hl Hf. rewrite (bind_run _ _ _ _ _ (upd_buf_run f i (s_locked true s) b Hb)).
  rewrite (bind_run _ _ _ _ _ (release_bcache_run (put_buf i (f b) (s_locked true s)) eq_refl)).
  assert (bufs (s_locked false (put_buf i (f b) (s_locked true s))) !! i = Some (f b)) as Hb'
    by (eapply (put_buf_lookup i (f b) b (s_locked true s)); done).
  rewrite (bind_run _ _ _ _ _ (acquiresleep_run _ i (f b) Hb' Hf)). unfold mret, M_ret. f_equal.
  by apply s_locked_put_put.
Qed.

Lemma cached_spec s i dev bno :
  cached s dev bno i = true ↔ ∃ b, bufs s !! i = Some b ∧ b_dev b = dev ∧ b_blockno b = bno.
Proof.
  unfold cached. destruct (bufs s !! i) as [b|]; [|by split; [|intros (? & ? & _)]].
  rewrite andb_true_iff, !Z.eqb_eq. split; [by exists b|]. by intros (? & [= <-] & ? & ?).
Qed.
Lemma bget_locked s dev bno :
  bc_locked s = false →
  bget dev bno s =
  match walk (next_of s) NBUF (cached s dev bno) (NBUF + 2) (hd_next s) with
  | None => spin
  | Some (Some i) =>
      b ← get_buf i;
      upd_buf (with_refcnt (u32 (b_refcnt b + 1))) i ;; release_bcache ;; on_lock acquiresleep i ;; mret i
  | Some None =>
      match walk (prev_of s) NBUF (unused s) (NBUF + 2) (hd_prev s) with
      | None => spin
      | Some (Some i) => upd_buf (recycle dev bno) i ;; release_bcache ;; on_lock acquiresleep i ;; mret i
      | Some None => panic "bget: no buffers"
      end
  end (s_locked true s).
Proof. intros H. unfold bget. by rewrite (bind_run _ _ _ _ _ (acquire_bcache_run s H)). Qed.
Lemma bget_run s v j :
  rep s v → (∀ i, bv_held v !! i ≠ Some j) →
  j ∈ bv_dirty v ∨ (size (bv_held v) + size (bv_dirty v) < NBUF)%nat →
  (∃ i b, bufs s !! i = Some b ∧ b_dev b = 1 ∧ b_blockno b = Z.of_nat j ∧
     bget ROOTDEV (Z.of_nat j) s = Ok i (put_buf i (locked_by (curpid s) (with_refcnt 1 b)) s)) ∨
  (∃ i b, bufs s !! i = Some b ∧ unused s i = true ∧
     (∀ k b0, bufs s !! k = Some b0 → b_dev b0 = 1 → b_blockno b0 ≠ Z.of_nat j) ∧
     bget ROOTDEV (Z.of_nat j) s = Ok i (put_buf i (locked_by (curpid s) (recycle 1 (Z.of_nat j) b)) s)).
Proof.
  intros R Hnh Hroom. rewrite !(bget_locked s _ _ (r_unlocked _ _ R)).
  destruct (walk_bufs s v (cached s ROOTDEV (Z.of_nat j)) R) as (l & Hp & -> & _).
  destruct (first _ l) as [i|] eqn:Hf.
  - left. apply first_Some in Hf as [_ (b & Hb & Hd & Hj)%cached_spec].
    destruct (bread_hit s v i j b R Hb Hd Hj Hnh) as (_ & Hr & Hl & _ & _).
    exists i, b. split_and!; [done..|].
    rewrite !(bind_run _ _ _ _ _ (get_buf_run (s_locked true s) i b Hb)), Hr.
    apply (bget_take s i b (with_refcnt (u32 (0 + 1)))); [done|apply R|done].
  - right. rewrite first_None in Hf.
    assert (∀ k b0, bufs s !! k = Some b0 → b_dev b0 = 1 → b_blockno b0 ≠ Z.of_nat j) as Hnc.
    { intros k b0 Hk Hd Hbn. assert (k ∈ l) as Hin.
      { rewrite Hp. apply elem_of_seq. rewrite <- (r_len _ _ R). apply lookup_lt_Some in Hk. lia. }
      specialize (Hf k Hin). assert (cached s ROOTDEV (Z.of_nat j) k = true) by (apply cached_spec; by exists b0). congruence. }
    destruct (walk_bufs s v (unused s) R) as (l' & Hp' & _ & ->).
    destruct (first _ (reverse l')) as [i|] eqn:Hu.
    + apply first_Some in Hu as [_ Hu]. destruct (bufs s !! i) as [b|] eqn:Hb; [|unfold unused in Hu; by rewrite Hb in Hu].
      exists i, b. split_and!; [done..|]. apply (bget_take s i b (recycle 1 (Z.of_nat j))); [done|apply R|].
      destruct Hroom as [Hd|_].
      * destruct (r_dirty _ _ R j Hd) as (k & b0 & ? & ? & ?). exfalso. by eapply Hnc.
      * simpl. unfold unused in Hu. rewrite Hb in Hu. apply andb_true_iff in Hu as [Hr _]. apply Z.eqb_eq in Hr.
        destruct (bo_ref _ _ _ _ (r_buf _ _ R i b Hb)) as [(_ & ? & _)|(? & _)]; [done|lia].
    + exfalso. rewrite first_None in Hu. destruct Hroom as [Hd|Hroom].
      * destruct (r_dirty _ _ R j Hd) as (k & b0 & ? & ? & ?). by eapply Hnc.
      * assert (NBUF ≤ size (bv_held v) + size (bv_dirty v))%nat; [|lia]. apply (all_used s v R).
        intros i Hi. apply Hu. rewrite elem_of_reverse, Hp'. apply elem_of_seq. lia.
Qed.
Lemma bio_read s v j :
  rep s v → (j < length (bv_dsk v))%nat → (∀ i, bv_held v !! i ≠ Some j) →
  j ∈ bv_dirty v ∨ (size (bv_held v) + size (bv_dirty v) < NBUF)%nat →
  ∃ i s', bread ROOTDEV (Z.of_nat j) s = Ok i s' ∧ bv_held v !! i = None ∧ rep s' (v_held <[i := j]> v).
Proof.
  intros R Hj Hnh Hroom. rewrite (r_dsk _ _ R) in Hj. simpl. unfold bio_bread.
  destruct (bget_run s v j R Hnh Hroom) as [(i & b & Hb & Hd & Hbn & Hg)|(i & b & Hb & Hu & Hnc & Hg)];
    rewrite (bind_run _ _ _ _ _ Hg).
  - destruct (bread_hit s v i j b R Hb Hd Hbn Hnh) as (Hh & _ & _ & Hv & R').
    eexists i, _. split; [|split; [done|exact R']].
    rewrite (bind_run _ _ _ _ _ (get_buf_run _ i _ (put_buf_lookup i _ b s Hb))).
    unfold flag in *. simpl. by rewrite Hv.
  - destruct (lookup_lt_is_Some_2 (disk s) j Hj) as [d Hdisk].
    destruct (bread_miss s v i j b d R Hb Hu Hdisk Hnc) as (Hh & Hl & R').
    eexists i, _. split; [|split; [done|exact R']].
    rewrite (bind_run _ _ _ _ _ (get_buf_run _ i _ (put_buf_lookup i _ b s Hb))). simpl.
    set (b1 := locked_by (curpid s) (recycle 1 (Z.of_nat j) b)).
    rewrite (bind_run _ _ _ _ _ (iderw_read (put_buf i b1 s) i b1 d (put_buf_lookup i _ b s Hb) eq_refl eq_refl eq_refl eq_refl
      ltac:(simpl; by rewrite Nat2Z.id))). by rewrite put_buf_put.
Qed.

#[global] Instance bio_dev : BlockDev bst.
Proof.
  refine {| bd_rep := rep |}.
  - intros s v R. rewrite (r_dsk _ _ R). apply R.
  - intros s v j d R Hc. destruct (decide (j ∈ bv_dirty v)) as [Hd|Hd].
    + destruct (r_dirty _ _ R j Hd) as (i & b & Hb & Hd1 & Hj). pose proof (r_buf _ _ R i b Hb) as Hok.
      destruct (bo_cur _ _ _ _ Hok Hd1) as (j' & Hj' & Hc' & _). assert (j' = j) as -> by lia.
      assert (d = b_data b) as -> by congruence. apply Hok.
    + destruct (decide (map_Forall (λ _ k, k ≠ j) (bv_held v))) as [Hh|Hh].
      * rewrite (r_clean _ _ R) in Hc; [|done|intros i Hi; by apply (Hh i j Hi)].
        apply (Forall_lookup_1 (λ x, length x = BSIZE) (disk s) j d); [apply R|done].
      * apply map_not_Forall in Hh as (i & k & Hi & Hk); [|apply _]. apply dec_stable in Hk as ->.
        destruct (held_buf s v i j R Hi) as (b & _ & Hok & _ & _ & _ & _ & _ & Hc' & _).
        assert (d = b_data b) as -> by congruence. apply Hok.
  - intros s v j R Hd Hh. rewrite (r_dsk _ _ R). by apply (r_clean _ _ R).
  - apply bio_read.
  - apply bio_get.
  - apply bio_put.
  - apply bio_number.
  - apply bio_pin.
  - apply bio_write.
  - apply bio_release.
Defined.

(** ** Initialisation *)
(** The cache as the loader leaves it: all zero, over any disk. *)
Definition bss_buf : buf := mkBuf 0 0 0 (mkSleep 0 "" 0) 0 0 0 (replicate BSIZE 0).
Definition bss_bcache (d : list block) (pid : Z) : bst := mkBst (replicate NBUF bss_buf) 0 0 false d [] pid.

Definition fresh (b : buf) : Prop :=
  b_flags b = 0 ∧ b_dev b = 0 ∧ b_refcnt b = 0 ∧ sl_locked (b_lock b) = 0 ∧ length (b_data b) = BSIZE.
Definition init_inv (d : list block) (pid : Z) (rest : list nat) (s : bst) : Prop :=
  ∃ k, (k ≤ NBUF)%nat ∧ rest = seq k (NBUF - k) ∧ length (bufs s) = NBUF ∧ Forall fresh (bufs s) ∧
  bc_locked s = false ∧ disk s = d ∧ writes s = [] ∧ curpid s = pid ∧
  dlist (next_of s) (prev_of s) NBUF (reverse (seq 0 k)).
Lemma fresh_links s s' : body s' = body s → Forall fresh (bufs s) → Forall fresh (bufs s').
Proof.
  intros Hb Hf. apply Forall_lookup. intros i b' Hb'. destruct (body_lookup s s' i b' Hb Hb') as (b & Hi & Hs).
  pose proof (Forall_lookup_1 _ _ _ _ Hf Hi) as Hfr. apply strip_same in Hs as (E1 & E2 & _ & E4 & E5 & E6).
  unfold fresh in *. by rewrite E1, E2, E4, E5, E6.
Qed.
Definition lock_init (k : nat) (s : bst) : bst := s_bufs (alter (with_lock (initsleeplock "buffer")) k) s.
Lemma alter_comm {A} (f g : A → A) i k (l : list A) :
  (∀ x, f (g x) = g (f x)) → alter f k (alter g i l) = alter g i (alter f k l).
Proof.
  intros Hfg. apply list_eq. intros j.
  destruct (decide (j = i)) as [->|Hi]; [destruct (decide (i = k)) as [<-|Hk]|destruct (decide (j = k)) as [<-|Hk]].
  - rewrite !list_lookup_alter_eq. by destruct (l !! i); simpl; rewrite ?Hfg.
  - by rewrite list_lookup_alter_ne, !list_lookup_alter_eq, list_lookup_alter_ne.
  - by rewrite list_lookup_alter_eq, !(list_lookup_alter_ne g), list_lookup_alter_eq by done.
  - by rewrite !list_lookup_alter_ne.
Qed.
Lemma lock_init_next k i n s : lock_init k (set_next i n s) = set_next i n (lock_init k s).
Proof. unfold lock_init, set_next, s_bufs. case_decide; [done|]. simpl. by rewrite alter_comm. Qed.
Lemma lock_init_prev k i n s : lock_init k (set_prev i n s) = set_prev i n (lock_init k s).
Proof. unfold lock_init, set_prev, s_bufs. case_decide; [done|]. simpl. by rewrite alter_comm. Qed.
Lemma lock_init_links k s :
  (∀ j, next_of (lock_init k s) j = next_of s j) ∧ (∀ j, prev_of (lock_init k s) j = prev_of s j).
Proof.
  split; intros j; unfold next_of, prev_of, lock_init; simpl; (case_decide; [done|]);
    (destruct (decide (j = k)) as [->|]; [rewrite list_lookup_alter_eq; by destruct (bufs s !! k)|by rewrite list_lookup_alter_ne]).
Qed.
Lemma lock_init_fresh k s : Forall fresh (bufs s) → Forall fresh (bufs (lock_init k s)).
Proof.
  intros Hf. apply Forall_lookup. intros i b. simpl. destruct (decide (i = k)) as [->|].
  - rewrite list_lookup_alter_eq. destruct (bufs s !! k) as [b0|] eqn:E; [|done]. simpl. intros [= <-].
    pose proof (Forall_lookup_1 _ _ _ _ Hf E) as (? & ? & ? & ? & ?). done.
  - rewrite list_lookup_alter_ne by done. apply (Forall_lookup_1 _ _ _ _ Hf).
Qed.
Lemma binit_one_inv d pid i rest s :
  init_inv d pid (i :: rest) s → wp (binit_one i) (λ _ s', init_inv d pid rest s') s.
Proof.
  intros (k & Hk & Hrest & Hl & Hf & Hloc & Hd & Hw & Hp & Hdl).
  destruct (NBUF - k)%nat as [|r] eqn:Er; [done|]. simpl in Hrest. injection Hrest as -> ->.
  destruct (lock_init_links k s) as [Hnx Hpv].
  destruct (push_run (lock_init k s) k (reverse (seq 0 k))) as [Hb Hdl'].
  - simpl. by rewrite length_alter.
  - by eapply dlist_ext.
  - intros j. rewrite elem_of_reverse, elem_of_seq. lia.
  - lia.
  - rewrite elem_of_reverse, elem_of_seq. lia.
  - unfold wp. match goal with |- match ?m s with _ => _ end =>
      assert (m s = Ok tt (set_next NBUF k (set_prev (hd_next (set_prev k NBUF (set_next k (hd_next s) s))) k
                             (lock_init k (set_prev k NBUF (set_next k (hd_next s) s)))))) as -> by reflexivity end.
    rewrite lock_init_prev, lock_init_next.
    replace (hd_next (set_prev k NBUF (set_next k (hd_next s) s))) with
            (hd_next (set_prev k NBUF (set_next k (hd_next (lock_init k s)) (lock_init k s)))).
    2: { rewrite !hd_next_of. unfold set_prev, set_next, next_of. by rewrite !(decide_False (P := k = NBUF)), !decide_True by lia. }
    destruct (body_fields _ _ Hb) as (L & D & W & P).
    exists (S k). split_and!.
    + lia.
    + f_equal. lia.
    + etransitivity; [exact (body_length _ _ Hb)|]. simpl. by rewrite length_alter.
    + eapply fresh_links; [exact Hb|]. by apply lock_init_fresh.
    + etransitivity; [exact L|done].
    + etransitivity; [exact D|done].
    + etransitivity; [exact W|done].
    + etransitivity; [exact P|done].
    + rewrite seq_S, reverse_snoc. exact Hdl'.
Qed.
Lemma fresh_rep d pid s :
  init_inv d pid [] s → Forall (λ x, length x = BSIZE) d → rep s (quiet d []).
Proof.
  intros (k & Hk & Hrest & Hl & Hf & Hloc & Hd & Hw & Hp & Hdl) Hblk.
  assert (k = NBUF) as -> by (destruct (NBUF - k)%nat eqn:E; [lia|done]).
  constructor; simpl; try done; rewrite ?Hd; try done.
  - eexists. split; [done|]. by rewrite reverse_Permutation.
  - intros i b Hb. pose proof (Forall_lookup_1 _ _ _ _ Hf Hb) as (F1 & F2 & F3 & F4 & F5). constructor; try done.
    + unfold flags_ok. rewrite F1. apply elem_of_cons. by left.
    + intros _. split; [done|]. unfold flag. by rewrite F1.
    + by rewrite F2.
    + by left.
  - intros i i' b b' Hb _ Hd1. pose proof (Forall_lookup_1 _ _ _ _ Hf Hb) as (_ & F2 & _). congruence.
Qed.
Lemma binit_rep d pid :
  Forall (λ x, length x = BSIZE) d → wp binit (λ _ s, rep s (quiet d [])) (bss_bcache d pid).
Proof.
  intros Hd. unfold binit. rewrite !wp_bind. unfold wp at 1, modify at 1. rewrite wp_bind. unfold wp at 1, modify at 1.
  rewrite wp_bind. unfold wp at 1, modify at 1.
  eapply wp_mono; [|apply (wp_for_each binit_one (init_inv d pid))].
  - intros ? s H. exact (fresh_rep d pid s H Hd).
  - apply binit_one_inv.
  - exists 0%nat. split_and!; try done; [lia| |].
    + apply Forall_replicate. done.
    + split; [by split|]. simpl. apply NoDup_singleton.
Qed.

(** ** A client of the interface

    Reading and overwriting whole blocks through the cache, against the plain
    array of blocks it stands for. *)
Inductive bop := ReadBlock (j : nat) | WriteBlock (j : nat) (d : block).
Section client.
Context {S : Type} `{!BlockOps S} `{!BlockDev S}.
Definition do_bop (op : bop) : M S (list block) :=
  match op with
  | ReadBlock j =>
      i ← bread ROOTDEV (Z.of_nat j);
      d ← b_get i;
      brelse i ;;
      mret [d]
  | WriteBlock j d =>
      i ← bread ROOTDEV (Z.of_nat j);
      b_put i d ;;
      bwrite i ;;
      brelse i ;;
      mret []
  end.
Fixpoint do_bops (l : list bop) : M S (list block) :=
  match l with
  | [] => mret []
  | op :: l' => r ← do_bop op; rs ← do_bops l'; mret (r ++ rs)
  end.
Definition bop_ok (n : nat) (op : bop) : Prop :=
  match op with ReadBlock j => (j < n)%nat | WriteBlock j d => (j < n)%nat ∧ length d = BSIZE end.
Definition spec_bop (op : bop) (a : list block) : list block * list block :=
  match op with
  | ReadBlock j => (match a !! j with Some d => [d] | None => [] end, a)
  | WriteBlock j d => ([], <[j := d]> a)
  end.
Fixpoint spec_bops (l : list bop) (a : list block) : list block * list block :=
  match l with
  | [] => ([], a)
  | op :: l' => let '(r, a') := spec_bop op a in let '(rs, a'') := spec_bops l' a' in (r ++ rs, a'')
  end.

Lemma quiet_room : (size (∅ : gmap nat nat) + size (∅ : gset nat) < NBUF)%nat.
Proof. rewrite map_size_empty, size_empty. unfold NBUF. lia. Qed.
Lemma do_bop_spec s a w op :
  bd_rep s (quiet a w) → bop_ok (length a) op →
  ∃ s' w', do_bop op s = Ok (spec_bop op a).1 s' ∧ bd_rep s' (quiet (spec_bop op a).2 w').
Proof.
  intros R Hop. destruct op as [j|j d]; simpl in *.
  - destruct (bd_bread s _ j R Hop) as (i & s1 & H1 & _ & R1); [done|right; apply quiet_room|].
    assert (bv_held (v_held <[i:=j]> (quiet a w)) !! i = Some j) as Hh by apply lookup_insert_eq.
    destruct (bd_get s1 _ i j R1 Hh) as (d & Hd & H2).
    destruct (bd_brelse s1 _ i j R1 Hh) as (s2 & H3 & R2); [by right|].
    exists s2, w. rewrite (bind_run _ _ _ _ _ H1), (bind_run _ _ _ _ _ H2), (bind_run _ _ _ _ _ H3).
    simpl in Hd. rewrite Hd. split; [done|]. unfold v_held in R2. simpl in R2.
    by rewrite delete_insert_id in R2 by done.
  - destruct Hop as [Hj Hd].
    destruct (bd_bread s _ j R Hj) as (i & s1 & H1 & _ & R1); [done|right; apply quiet_room|].
    assert (bv_held (v_held <[i:=j]> (quiet a w)) !! i = Some j) as Hh by apply lookup_insert_eq.
    destruct (bd_put s1 _ i j d R1 Hh Hd) as (s2 & H2 & R2).
    destruct (bd_bwrite s2 _ i j d R2 Hh) as (s3 & H3 & R3); [by apply list_lookup_insert_eq|].
    destruct (bd_brelse s3 _ i j R3 Hh) as (s4 & H4 & R4); [by right|].
    exists s4, (w ++ [(j, d)]).
    rewrite (bind_run _ _ _ _ _ H1), (bind_run _ _ _ _ _ H2), (bind_run _ _ _ _ _ H3), (bind_run _ _ _ _ _ H4).
    split; [done|]. unfold v_held, v_write, v_cur in R4. simpl in R4. rewrite delete_insert_id in R4 by done.
    by replace (∅ ∖ {[j]} : gset nat) with (∅ : gset nat) in R4 by set_solver.
Qed.
Lemma spec_bop_length op a : length (spec_bop op a).2 = length a.
Proof. destruct op; simpl; [done|]. by rewrite length_insert. Qed.
Lemma do_bops_spec l s a w :
  bd_rep s (quiet a w) → Forall (bop_ok (length a)) l →
  ∃ s' w', do_bops l s = Ok (spec_bops l a).1 s' ∧ bd_rep s' (quiet (spec_bops l a).2 w').
Proof.
  revert s a w. induction l as [|op l IH]; intros s a w R Hl; simpl; [by exists s, w|].
  apply Forall_cons in Hl as [Hop Hl]. destruct (do_bop_spec s a w op R Hop) as (s1 & w1 & H1 & R1).
  pose proof (spec_bop_length op a) as Hlen. destruct (spec_bop op a) as [r a'] eqn:E. simpl in *.
  destruct (IH s1 a' w1 R1) as (s2 & w2 & H2 & R2); [by rewrite Hlen|].
  rewrite (bind_run _ _ _ _ _ H1), (bind_run _ _ _ _ _ H2). destruct (spec_bops l a') as [rs a'']. by exists s2, w2.
Qed.
End client.

(** The memory disk holds the image, block by block. *)
Lemma image_blocks_bytes img i j :
  (i < length img / 512)%nat → (j < 512)%nat → (image_blocks img !! i ≫= λ b, b !! j) = img !! (512 * i + j)%nat.
Proof.
  intros Hi Hj. unfold image_blocks. rewrite list_lookup_fmap, lookup_seq_lt by done. cbn [fmap option_fmap option_map mbind option_bind Nat.add].
  by rewrite lookup_take_lt, lookup_drop.
Qed.

(** C8: the buffer cache is transparent: after binit, any sequence of block
    reads and writes through bread, bwrite and brelse, over any number of blocks
    and so with any evictions, returns what a plain array of blocks would
    return, never panics, and leaves that array's contents on the disk. *)
Theorem bcache_transparent d pid l :
  Forall (λ x, length x = BSIZE) d → Forall (bop_ok (length d)) l →
  ∃ s', (binit ;; do_bops l) (bss_bcache d pid) = Ok (spec_bops l d).1 s' ∧ disk s' = (spec_bops l d).2.
Proof.
  intros Hd Hl. pose proof (binit_rep d pid Hd) as Hb. apply wp_ok in Hb as ([] & s & Hs & R).
  destruct (do_bops_spec (S := bst) (BlockDev0 := bio_dev) l s d [] R Hl) as (s' & w' & Hs' & R'). exists s'.
  rewrite (bind_run _ _ _ _ _ Hs). split; [done|]. symmetry. apply (r_dsk _ _ R').
Qed.
Lemma bcache_transparent_witness :
  ∃ s', (binit ;; do_bops [WriteBlock 1 (replicate 512 7); ReadBlock 0; ReadBlock 1]) (bss_bcache (replicate 2 (replicate 512 3)) 1)
        = Ok [replicate 512 3; replicate 512 7] s' ∧ disk s' = [replicate 512 3; replicate 512 7].
Proof.
  destruct (bcache_transparent (replicate 2 (replicate 512 3)) 1 [WriteBlock 1 (replicate 512 7); ReadBlock 0; ReadBlock 1])
    as (s' & H1 & H2).
  - apply Forall_replicate. reflexivity.
  - repeat apply Forall_cons_2; [split; [simpl; lia|reflexivity]|simpl; lia|simpl; lia|apply Forall_nil_2].
  - exists s'. split; [exact H1|exact H2].
Defined.
