(* ===== verification/Ide.v ===== *)
(** * The disk driver (ide.c)

    Requests wait in a list of buffers linked by [qnext]; the drive works on the first one and
    interrupts when it has finished.  iderw and ideintr run under idelock, so they are functions
    of a monitor; a process in iderw sleeps on its buffer.  The controller is the class [IdeCtl]:
    its ports, and what a drive is doing and holds; [IdeCtlOk] is what the ATA protocol promises
    of them.  [h_sub] and [h_done] are histories of the requests submitted and served. *)

From S2P Require Import Prelude Monitor Sleeplock Blocks Bio.

Definition FSSIZE : Z := 1000.
Definition IDE_BSY : Z := 0x80.
Definition IDE_DRDY : Z := 0x40.
Definition IDE_DF : Z := 0x20.
Definition IDE_ERR : Z := 0x01.
Definition IDE_CMD_READ : Z := 0x20.
Definition IDE_CMD_WRITE : Z := 0x30.
Definition IDE_CMD_RDMUL : Z := 0xc4.
Definition IDE_CMD_WRMUL : Z := 0xc5.
Definition sector_per_block : Z := Z.of_nat BSIZE / 512.

(** ** The controller *)
Inductive req := RRead (drive sector : Z) | RWrite (drive sector : Z) (d : block).
Inductive phase := Ready | Busy (r : req) | Done (r : req).
Definition is_busy (p : phase) : bool := match p with Busy _ => true | _ => false end.
Abbreviation sectors := (gmap (Z * Z) block).
Definition sector_at (D : sectors) (drive sector : Z) : block := default [] (D !! (drive, sector)).
(** The sectors after a request that failed or not. *)
Definition serve (D : sectors) (r : req) (failed : bool) : sectors :=
  match r with RWrite drive sector d => if failed then D else <[(drive, sector) := d]> D | RRead _ _ => D end.

(** [outsl] and [insl] are on the data port; [complete] is the drive finishing its command. *)
Class IdeCtl (C : Type) := {
  outb : Z → Z → C → C;
  inb : Z → C → Z * C;
  outsl : block → C → C;
  insl : Z → C → block * C;
  complete : C → C;
  phase_of : C → phase;
  contents : C → sectors;
  fails : C → bool;
  polls : C → nat }.

(** The task file: the registers that name a sector. *)
Definition task_file {C} `{!IdeCtl C} (n lo mid hi dev : Z) (c : C) : C :=
  outb 0x1f6 dev (outb 0x1f5 hi (outb 0x1f4 mid (outb 0x1f3 lo (outb 0x1f2 n (outb 0x3f6 0 c))))).
Definition lba (lo mid hi dev : Z) : Z := lo + 2 ^ 8 * mid + 2 ^ 16 * hi + 2 ^ 24 * Z.land dev 15.
Definition drive_of (dev : Z) : Z := Z.land (Z.shiftr dev 4) 1.

Class IdeCtlOk (C : Type) `{!IdeCtl C} (fuel : nat) := {
  polls_bound c : (polls c < fuel)%nat;
  (** Reading the status: an idle drive is ready after some polls, and shows an error of the last request. *)
  inb_keeps p c : phase_of (inb p c).2 = phase_of c ∧ contents (inb p c).2 = contents c ∧ fails (inb p c).2 = fails c;
  inb_status c : is_busy (phase_of c) = false →
    let r := (inb 0x1f7 c).1 in
    if Z.land r (Z.lor IDE_BSY IDE_DRDY) =? IDE_DRDY
    then ∀ q, phase_of c = Done q → (Z.land r (Z.lor IDE_DF IDE_ERR) =? 0) = negb (fails c)
    else (polls (inb 0x1f7 c).2 < polls c)%nat;
  outb_select v c : phase_of (outb 0x1f6 v c) = phase_of c ∧ contents (outb 0x1f6 v c) = contents c;
  start_read lo mid hi dev c :
    is_busy (phase_of c) = false → 0 ≤ lo < 256 → 0 ≤ mid < 256 → 0 ≤ hi < 256 → Z.land dev 0xe0 = 0xe0 →
    let c' := outb 0x1f7 IDE_CMD_READ (task_file 1 lo mid hi dev c) in
    phase_of c' = Busy (RRead (drive_of dev) (lba lo mid hi dev)) ∧ contents c' = contents c;
  start_write lo mid hi dev d c :
    is_busy (phase_of c) = false → 0 ≤ lo < 256 → 0 ≤ mid < 256 → 0 ≤ hi < 256 → Z.land dev 0xe0 = 0xe0 →
    length d = BSIZE →
    let c' := outsl d (outb 0x1f7 IDE_CMD_WRITE (task_file 1 lo mid hi dev c)) in
    phase_of c' = Busy (RWrite (drive_of dev) (lba lo mid hi dev) d) ∧ contents c' = contents c;
  complete_busy c r : phase_of c = Busy r →
    phase_of (complete c) = Done r ∧ contents (complete c) = serve (contents c) r (fails (complete c));
  insl_data c drive sector : phase_of c = Done (RRead drive sector) → fails c = false →
    (insl 128 c).1 = sector_at (contents c) drive sector ∧
    is_busy (phase_of (insl 128 c).2) = false ∧ contents (insl 128 c).2 = contents c }.

(** ** The driver *)
(** [struct buf] with its field [qnext]. *)
Record qbuf := mkQ { q_buf : buf; qnext : option nat }.
Definition with_qnext (n : option nat) (x : qbuf) : qbuf := mkQ (q_buf x) n.
Definition on_buf (f : buf → buf) (x : qbuf) : qbuf := mkQ (f (q_buf x)) (qnext x).
Definition req_of (b : buf) : req :=
  if flag B_DIRTY b then RWrite (Z.land (b_dev b) 1) (b_blockno b) (b_data b)
  else RRead (Z.land (b_dev b) 1) (b_blockno b).
Record served := mkServed { sv_buf : nat; sv_req : req; sv_data : block; sv_failed : bool }.

Record ide (C : Type) := mkIde {
  i_ctl : C;
  i_bufs : list qbuf;
  idequeue : option nat;
  havedisk1 : Z;
  i_irq : bool;
  h_sub : list (nat * req);
  h_done : list served }.
Arguments mkIde {C} _ _ _ _ _ _ _.
Arguments i_ctl {C} _.
Arguments i_bufs {C} _.
Arguments idequeue {C} _.
Arguments havedisk1 {C} _.
Arguments i_irq {C} _.
Arguments h_sub {C} _.
Arguments h_done {C} _.

(** Where a thread is: in iderw, at the start or asleep for the request it made; in ideintr; the drive
    that finishes a command; a process that prepares a buffer it has locked. *)
Inductive icall := KRw (i : nat) | KWait (i : nat) (r : req) | KIntr | KDrive | KSetup (i : nat) (b : buf).

Section driver.
Context {C : Type} `{!IdeCtl C} (fuel : nat).
Abbreviation IM := (M (ide C * list nat)).
Abbreviation iseg := (IM (reaction nat icall unit)).

Definition with_ctl (c : C) (s : ide C) : ide C :=
  mkIde c (i_bufs s) (idequeue s) (havedisk1 s) (i_irq s) (h_sub s) (h_done s).
Definition with_queue (q : option nat) (s : ide C) : ide C :=
  mkIde (i_ctl s) (i_bufs s) q (havedisk1 s) (i_irq s) (h_sub s) (h_done s).
Definition with_bufs (f : list qbuf → list qbuf) (s : ide C) : ide C :=
  mkIde (i_ctl s) (f (i_bufs s)) (idequeue s) (havedisk1 s) (i_irq s) (h_sub s) (h_done s).
Definition with_disk1 (h : Z) (s : ide C) : ide C :=
  mkIde (i_ctl s) (i_bufs s) (idequeue s) h (i_irq s) (h_sub s) (h_done s).
Definition with_irq (b : bool) (s : ide C) : ide C :=
  mkIde (i_ctl s) (i_bufs s) (idequeue s) (havedisk1 s) b (h_sub s) (h_done s).
Definition submit (i : nat) (r : req) (s : ide C) : ide C :=
  mkIde (i_ctl s) (i_bufs s) (idequeue s) (havedisk1 s) (i_irq s) (h_sub s ++ [(i, r)]) (h_done s).
Definition finish (x : served) (s : ide C) : ide C :=
  mkIde (i_ctl s) (i_bufs s) (idequeue s) (havedisk1 s) (i_irq s) (h_sub s) (h_done s ++ [x]).

Definition io {A} (f : C → A * C) : IM A := λ '(s, ws), let '(a, c) := f (i_ctl s) in Ok a (with_ctl c s, ws).
Definition out (port v : Z) : IM unit := io (λ c, (tt, outb port v c)).
Definition get_q (i : nat) : IM qbuf := l ← read_state i_bufs; array_get "buf" l (Z.of_nat i).
Definition upd_q (f : qbuf → qbuf) (i : nat) : IM unit := update (with_bufs (alter f i)).

Fixpoint poll (n : nat) : IM Z :=
  match n with
  | O => spin
  | S n' => r ← io (inb 0x1f7); if Z.land r (Z.lor IDE_BSY IDE_DRDY) =? IDE_DRDY then mret r else poll n'
  end.
Definition idewait (checkerr : bool) : IM Z :=
  r ← poll fuel;
  mret (if checkerr && negb (Z.land r (Z.lor IDE_DF IDE_ERR) =? 0) then -1 else 0).

(** The loop that looks for disk 1. *)
Fixpoint probe (n : nat) : IM unit :=
  match n with
  | O => mret tt
  | S n' => r ← io (inb 0x1f7); if negb (r =? 0) then update (with_disk1 1) else probe n'
  end.
(** ideinit, after the interrupt has been routed to a CPU. *)
Definition ideinit : IM unit :=
  idewait false ;;
  out 0x1f6 (Z.lor 0xe0 (Z.shiftl 1 4)) ;;
  probe 1000 ;;
  out 0x1f6 (Z.lor 0xe0 (Z.shiftl 0 4)).

Definition idestart (b : option nat) : IM unit :=
  match b with
  | None => panic "idestart"
  | Some i =>
      x ← get_q i;
      let b := q_buf x in
      if FSSIZE <=? b_blockno b then panic "incorrect blockno" else
      let sector := b_blockno b * sector_per_block in
      let read_cmd := if sector_per_block =? 1 then IDE_CMD_READ else IDE_CMD_RDMUL in
      let write_cmd := if sector_per_block =? 1 then IDE_CMD_WRITE else IDE_CMD_WRMUL in
      if 7 <? sector_per_block then panic "idestart" else
      idewait false ;;
      out 0x3f6 0 ;;
      out 0x1f2 sector_per_block ;;
      out 0x1f3 (Z.land sector 0xff) ;;
      out 0x1f4 (Z.land (Z.shiftr sector 8) 0xff) ;;
      out 0x1f5 (Z.land (Z.shiftr sector 16) 0xff) ;;
      out 0x1f6 (Z.lor (Z.lor 0xe0 (Z.shiftl (Z.land (b_dev b) 1) 4)) (Z.land (Z.shiftr sector 24) 0x0f)) ;;
      if flag B_DIRTY b then
        out 0x1f7 write_cmd ;;
        io (λ c, (tt, outsl (b_data b) c))
      else out 0x1f7 read_cmd
  end.

Definition ideintr : iseg :=
  update (with_irq false) ;;
  q ← read_state idequeue;
  match q with
  | None => mret (Returns tt)
  | Some i =>
      x ← get_q i;
      update (with_queue (qnext x)) ;;
      failed ← read_state (λ s, fails (i_ctl s));
      (if negb (flag B_DIRTY (q_buf x)) then
         r ← idewait true;
         when (0 <=? r) (d ← io (insl 128); upd_q (on_buf (with_data d)) i)
       else mret tt) ;;
      upd_q (on_buf (λ b, with_flags (Z.lor (b_flags b) B_VALID) b)) i ;;
      upd_q (on_buf (λ b, with_flags (Z.land (b_flags b) (Z.lnot B_DIRTY)) b)) i ;;
      y ← get_q i;
      update (finish (mkServed i (req_of (q_buf x)) (b_data (q_buf y)) failed)) ;;
      wakeup i ;;
      q ← read_state idequeue;
      (match q with None => mret tt | Some _ => idestart q end) ;;
      mret (Returns tt)
  end.

(** The loop that finds the end of the queue, from buffer [j]. *)
Fixpoint last_of (n : nat) (j : nat) : IM nat :=
  match n with
  | O => spin
  | S n' => x ← get_q j; match qnext x with None => mret j | Some j' => last_of n' j' end
  end.
Definition append (i : nat) : IM unit :=
  upd_q (with_qnext None) i ;;
  s ← read_state id;
  match idequeue s with
  | None => update (with_queue (Some i))
  | Some j => k ← last_of (length (i_bufs s)) j; upd_q (with_qnext (Some i)) k
  end.
(** The while loop of iderw. *)
Definition rw_wait (i : nat) (r : req) : iseg :=
  x ← get_q i;
  if Z.land (b_flags (q_buf x)) (Z.lor B_VALID B_DIRTY) =? B_VALID then mret (Returns tt)
  else mret (Sleeps i (KWait i r)).
Definition iderw (pid : Z) (i : nat) : iseg :=
  x ← get_q i;
  have1 ← read_state havedisk1;
  let b := q_buf x in
  match alone (holdingsleep pid) (b_lock b) with
  | Ok true _ =>
      if Z.land (b_flags b) (Z.lor B_VALID B_DIRTY) =? B_VALID then panic "iderw: nothing to do" else
      if negb (b_dev b =? 0) && (have1 =? 0) then panic "iderw: ide disk 1 not present" else
      append i ;;
      update (submit i (req_of b)) ;;
      q ← read_state idequeue;
      when (bool_decide (q = Some i)) (idestart (Some i)) ;;
      rw_wait i (req_of b)
  | Ok false _ => panic "iderw: buf not locked"
  | _ => spin
  end.

(** The drive finishes its command and interrupts. *)
Definition drive : iseg :=
  s ← read_state id;
  when (is_busy (phase_of (i_ctl s))) (update (λ s, with_irq true (with_ctl (complete (i_ctl s)) s))) ;;
  mret (Returns tt).
Definition ide_seg (t : nat) (killed : bool) (k : icall) : iseg :=
  match k with
  | KRw i => iderw (Z.of_nat t) i
  | KWait i r => rw_wait i r
  | KIntr => ideintr
  | KDrive => drive
  | KSetup i b => upd_q (on_buf (λ _, b)) i ;; mret (Returns tt)
  end.

(** What iderw asks of its caller. *)
Definition buf_at (s : ide C) (i : nat) : option buf := q_buf <$> i_bufs s !! i.
Definition pending (b : buf) : bool :=
  negb (Z.land (b_flags b) (Z.lor B_VALID B_DIRTY) =? B_VALID) && (0 <=? b_blockno b) && (b_blockno b <? FSSIZE) &&
  (length (b_data b) =? BSIZE)%nat.
Definition rw_ok (s : ide C) (t i : nat) : bool :=
  match buf_at s i with
  | None => false
  | Some b =>
      negb (sl_locked (b_lock b) =? 0) && (sl_pid (b_lock b) =? Z.of_nat t) &&
      ((b_dev b =? 0) || negb (havedisk1 s =? 0)) && pending b
  end.
Definition uses (i : nat) (k : icall) : bool :=
  match k with KRw j | KWait j _ | KSetup j _ => (j =? i)%nat | _ => false end.
Definition is_intr (k : icall) : bool := match k with KIntr => true | _ => false end.
Definition nobody (P : icall → bool) (T : gmap nat (thread nat icall)) : Prop := map_Forall (λ _ th, P (t_at th) = false) T.
(** The sleep lock of a buffer keeps other processes away from it; the interrupt is delivered to one CPU, once. *)
Definition ide_may (s : ide C) (T : gmap nat (thread nat icall)) (t : nat) (k : icall) : Prop :=
  match k with
  | KRw i => nobody (uses i) T ∧ rw_ok s t i = true
  | KWait _ _ => False
  | KIntr => i_irq s = true ∧ nobody is_intr T
  | KDrive => True
  | KSetup i _ => nobody (uses i) T
  end.
#[global] Instance ide_may_dec s T t k : Decision (ide_may s T t k).
Proof. destruct k; apply _. Defined.
End driver.

(** * The disk driver serves requests in order

    [dinv D0 s L]: the buffers [L] wait in the queue, the drive works on the first of them, and
    the sectors are those of [D0] with the requests served so far applied in order. *)

(** ** The specification: a disk that serves one request after the other *)
Definition disk_after (D0 : sectors) (l : list served) : sectors := foldl (λ D x, serve D (sv_req x) (sv_failed x)) D0 l.
(** A read returns the sector as the requests before it left it, a write its own data. *)
Definition answer_ok (D : sectors) (x : served) : Prop :=
  match sv_req x with
  | RRead drive sector => sv_failed x = false → sv_data x = sector_at D drive sector
  | RWrite _ _ d => sv_data x = d
  end.
Fixpoint served_ok (D : sectors) (l : list served) : Prop :=
  match l with [] => True | x :: l' => answer_ok D x ∧ served_ok (serve D (sv_req x) (sv_failed x)) l' end.
Lemma served_ok_snoc D l x : served_ok D l → answer_ok (disk_after D l) x → served_ok D (l ++ [x]).
Proof.
  revert D. induction l as [|y l IH]; intros D; cbn; [done|]. intros [Hy Hl] Hx. split; [done|]. by apply IH.
Qed.
Lemma disk_after_snoc D l x : disk_after D (l ++ [x]) = serve (disk_after D l) (sv_req x) (sv_failed x).
Proof. unfold disk_after. by rewrite foldl_app. Qed.

(** ** The queue of buffers *)
Fixpoint chain (l : list qbuf) (q : option nat) (L : list nat) : Prop :=
  match L with
  | [] => q = None
  | i :: L' => q = Some i ∧ ∃ x, l !! i = Some x ∧ chain l (qnext x) L'
  end.
Lemma chain_other l f k q L : k ∉ L → chain l q L → chain (alter f k l) q L.
Proof.
  revert q. induction L as [|i L IH]; intros q; cbn; [done|]. intros [Hik HL]%not_elem_of_cons (Hq & x & Hx & Hc). split; [done|].
  exists x. split; [by rewrite list_lookup_alter_ne|by apply IH].
Qed.
Lemma chain_on_buf l f k q L : chain l q L → chain (alter (on_buf f) k l) q L.
Proof.
  revert q. induction L as [|i L IH]; intros q; cbn; [done|]. intros (Hq & x & Hx & Hc). split; [done|].
  destruct (decide (i = k)) as [->|Hne].
  - exists (on_buf f x). split; [by rewrite list_lookup_alter_eq, Hx|by apply IH].
  - exists x. split; [by rewrite list_lookup_alter_ne|by apply IH].
Qed.
Lemma qchain_snoc l q L k i x :
  chain l q (L ++ [k]) → NoDup (L ++ [k]) → i ∉ L ++ [k] → l !! i = Some x → qnext x = None →
  chain (alter (with_qnext (Some i)) k l) q ((L ++ [k]) ++ [i]).
Proof.
  revert q. induction L as [|j L IH]; intros q; cbn.
  - intros (Hq & y & Hy & _) _ Hi Hx Hn. apply not_elem_of_cons in Hi as [Hik _]. split; [done|].
    exists (with_qnext (Some i) y). split; [by rewrite list_lookup_alter_eq, Hy|]. split; [done|]. exists x.
    split; [by rewrite list_lookup_alter_ne|done].
  - intros (Hq & y & Hy & Hc) [Hj HN]%NoDup_cons [Hij Hi]%not_elem_of_cons Hx Hn. split; [done|].
    assert (j ≠ k) by (intros ->; apply Hj, elem_of_app; right; by left).
    exists y. split; [by rewrite list_lookup_alter_ne|]. by apply IH.
Qed.
Lemma chain_bound l q L : chain l q L → NoDup L → (length L ≤ length l)%nat.
Proof.
  intros Hc HN. rewrite <- (length_seq (length l) 0). apply submseteq_length, NoDup_submseteq; [done|].
  intros i Hi. apply elem_of_seq. clear HN. revert q Hc. induction L as [|j L IH]; intros q; [by apply not_elem_of_nil in Hi|].
  intros (_ & x & Hx & Hc). apply elem_of_cons in Hi as [->|Hi]; [apply lookup_lt_Some in Hx; lia|by eapply IH].
Qed.

(** ** The functions *)
Section driver.
Context {C : Type} `{!IdeCtl C} (fuel : nat) `{!IdeCtlOk C fuel}.
Implicit Types s : ide C.

Lemma io_run {A} (f : C → A * C) s ws : io f (s, ws) = Ok (f (i_ctl s)).1 (with_ctl (f (i_ctl s)).2 s, ws).
Proof. unfold io. by destruct (f (i_ctl s)). Qed.
Lemma bind_io {A B} (f : C → A * C) (g : A → M (ide C * list nat) B) s ws :
  (io f ≫= g) (s, ws) = g (f (i_ctl s)).1 (with_ctl (f (i_ctl s)).2 s, ws).
Proof. apply (bind_run _ _ _ _ _ (io_run f s ws)). Qed.
Lemma with_ctl_twice c c' s : with_ctl c (with_ctl c' s) = with_ctl c s.
Proof. done. Qed.
Lemma get_q_run i x s ws : i_bufs s !! i = Some x → get_q i (s, ws) = Ok x (s, ws).
Proof.
  intros Hx. unfold get_q. rewrite (bind_run (read_state i_bufs) _ (i_bufs s) (s, ws) (s, ws) eq_refl).
  apply array_get_ok; [lia|by rewrite Nat2Z.id].
Qed.
Lemma upd_q_run f i s ws : upd_q f i (s, ws) = Ok tt (with_bufs (alter f i) s, ws).
Proof. done. Qed.
Lemma buf_at_inv s i b : buf_at s i = Some b → ∃ n, i_bufs s !! i = Some (mkQ b n).
Proof. unfold buf_at. destruct (i_bufs s !! i) as [[b' n]|]; [|done]. intros [= ->]. by exists n. Qed.

Lemma poll_run n s ws :
  is_busy (phase_of (i_ctl s)) = false → (polls (i_ctl s) < n)%nat →
  ∃ r c, poll n (s, ws) = Ok r (with_ctl c s, ws) ∧ phase_of c = phase_of (i_ctl s) ∧ contents c = contents (i_ctl s) ∧
    fails c = fails (i_ctl s) ∧
    ∀ q, phase_of (i_ctl s) = Done q → (Z.land r (Z.lor IDE_DF IDE_ERR) =? 0) = negb (fails (i_ctl s)).
Proof.
  revert s. induction n as [|n IH]; intros s Hb Hp; [lia|]. cbn [poll]. rewrite bind_io.
  destruct (inb_keeps (fuel:=fuel) 0x1f7 (i_ctl s)) as (H1 & H2 & H3). pose proof (inb_status (fuel:=fuel) (i_ctl s) Hb) as Hst.
  cbn zeta in Hst. destruct (_ =? IDE_DRDY) eqn:E.
  - eexists _, _. split; [reflexivity|]. repeat (split; [done|]). done.
  - destruct (IH (with_ctl (inb 0x1f7 (i_ctl s)).2 s)) as (r & c & Hr & Hph & Hc & Hf & Hq); cbn; [by rewrite H1|lia|].
    cbn in Hph, Hc, Hf, Hq. exists r, c. rewrite Hr, H1, H2, H3 in *. repeat (split; [done|]). done.
Qed.
Lemma idewait_run ck s ws :
  is_busy (phase_of (i_ctl s)) = false →
  ∃ r c, idewait fuel ck (s, ws) = Ok r (with_ctl c s, ws) ∧ phase_of c = phase_of (i_ctl s) ∧ contents c = contents (i_ctl s) ∧
    fails c = fails (i_ctl s) ∧
    (ck = true → ∀ q, phase_of (i_ctl s) = Done q → (0 <=? r) = negb (fails (i_ctl s))).
Proof.
  intros Hb. destruct (poll_run fuel s ws Hb (polls_bound (fuel:=fuel) _)) as (r & c & Hr & Hph & Hc & Hf & Hq).
  unfold idewait. rewrite (bind_run _ _ _ _ _ Hr). eexists _, c. split; [reflexivity|]. repeat (split; [done|]).
  intros -> q Hd. rewrite (Hq q Hd). by destruct (fails (i_ctl s)).
Qed.

(** The registers name the sector of the buffer. *)
Lemma lba_fields n dev :
  0 ≤ n < FSSIZE →
  let hi := Z.land (Z.shiftr n 24) 15 in
  let reg := Z.lor (Z.lor 0xe0 (Z.shiftl (Z.land dev 1) 4)) hi in
  lba (Z.land n 255) (Z.land (Z.shiftr n 8) 255) (Z.land (Z.shiftr n 16) 255) reg = n ∧
  drive_of reg = Z.land dev 1 ∧ Z.land reg 0xe0 = 0xe0.
Proof.
  intros Hn hi reg. unfold FSSIZE in Hn.
  assert (hi = 0) as Hhi by (unfold hi; rewrite Z.shiftr_div_pow2, (Z.div_small n (2 ^ 24)) by lia; done).
  assert (Z.land dev 1 = 0 ∨ Z.land dev 1 = 1) as Hd.
  { assert (Z.land dev 1 = dev mod 2 ^ 1) as -> by (apply (Z.land_ones dev 1); lia). pose proof (Z.mod_pos_bound dev (2 ^ 1)). lia. }
  unfold reg. rewrite Hhi, Z.lor_0_r. unfold lba, drive_of. rewrite !Z.shiftr_div_pow2 by lia.
  change 255 with (Z.ones 8). rewrite !Z.land_ones by lia. rewrite (Z.div_small n (2 ^ 16)) by lia.
  assert (n mod 2 ^ 8 + 2 ^ 8 * ((n / 2 ^ 8) mod 2 ^ 8) = n) as Hm.
  { rewrite (Z.mod_small (n / 2 ^ 8)) by (split; [apply Z.div_pos|apply Z.div_lt_upper_bound]; lia).
    pose proof (Z.div_mod n (2 ^ 8)). lia. }
  rewrite Hm. assert (∀ x y, x = 0 → y = 0 → n + 2 ^ 16 * x + 2 ^ 24 * y = n) as Hz by lia.
  by destruct Hd as [-> | ->]; (split; [by apply Hz|]).
Qed.
Lemma byte_field n : 0 ≤ Z.land n 255 < 256.
Proof. change 255 with (Z.ones 8). rewrite Z.land_ones by lia. apply Z.mod_pos_bound. lia. Qed.
Lemma pending_iff b :
  pending b = true ↔
  (Z.land (b_flags b) (Z.lor B_VALID B_DIRTY) =? B_VALID) = false ∧ 0 ≤ b_blockno b < FSSIZE ∧ length (b_data b) = BSIZE.
Proof. unfold pending. rewrite !andb_true_iff, negb_true_iff, Z.leb_le, Z.ltb_lt, Nat.eqb_eq. tauto. Qed.

Lemma idestart_run s ws i b :
  buf_at s i = Some b → pending b = true → is_busy (phase_of (i_ctl s)) = false →
  ∃ c, idestart fuel (Some i) (s, ws) = Ok tt (with_ctl c s, ws) ∧ phase_of c = Busy (req_of b) ∧ contents c = contents (i_ctl s).
Proof.
  intros (n & Hb)%buf_at_inv (_ & Hn & Hlen)%pending_iff Hbusy.
  unfold idestart. rewrite (bind_run _ _ _ _ _ (get_q_run _ _ _ _ Hb)). cbn [q_buf].
  rewrite (proj2 (Z.leb_gt _ _)) by lia. change sector_per_block with 1. rewrite Z.mul_1_r.
  change (1 =? 1) with true. change (7 <? 1) with false. cbn [negb].
  destruct (idewait_run false s ws Hbusy) as (r & c & Hw & Hph & Hc & _). rewrite (bind_run _ _ _ _ _ Hw). clear Hw.
  unfold out. rewrite !bind_io. cbn [fst snd i_ctl with_ctl].
  destruct (lba_fields (b_blockno b) (b_dev b) Hn) as (Hl & Hd & He). cbn zeta in Hl, Hd, He. unfold req_of.
  assert (is_busy (phase_of c) = false) as Hb' by (by rewrite Hph).
  destruct (flag B_DIRTY b).
  - rewrite bind_io, io_run. eexists. split; [reflexivity|].
    pose proof (start_write (fuel:=fuel) _ _ _ _ _ c Hb' (byte_field (b_blockno b)) (byte_field (b_blockno b ≫ 8)) (byte_field (b_blockno b ≫ 16)) He Hlen) as [H1 H2].
    rewrite Hl, Hd in H1. rewrite Hc in H2. by split.
  - rewrite io_run. eexists. split; [reflexivity|].
    pose proof (start_read (fuel:=fuel) _ _ _ _ c Hb' (byte_field (b_blockno b)) (byte_field (b_blockno b ≫ 8)) (byte_field (b_blockno b ≫ 16)) He) as [H1 H2].
    rewrite Hl, Hd in H1. rewrite Hc in H2. by split.
Qed.
Lemma last_of_run l q L k n s ws :
  i_bufs s = l → chain l q (L ++ [k]) → (length L < n)%nat → ∀ j, q = Some j → last_of n j (s, ws) = Ok k (s, ws).
Proof.
  intros Hl. revert q n. induction L as [|i L IH]; intros q n Hc Hn j ->; (destruct n as [|n]; [cbn in Hn; lia|]); cbn in Hc.
  - destruct Hc as ([= ->] & x & Hx & Hq). subst l. cbn [last_of]. rewrite (bind_run _ _ _ _ _ (get_q_run _ _ _ _ Hx)). by rewrite Hq.
  - destruct Hc as ([= ->] & x & Hx & Hq). subst l. cbn [last_of]. rewrite (bind_run _ _ _ _ _ (get_q_run _ _ _ _ Hx)).
    destruct (qnext x) as [j'|] eqn:E; [|by destruct L; destruct Hq].
    eapply IH; [exact Hq|cbn in Hn; lia|done].
Qed.

(** ** The invariant *)
Definition req_at s (i : nat) : req := match buf_at s i with Some b => req_of b | None => RRead 0 0 end.
(** The drive works on the first request or has finished it and interrupted. *)
Definition engine (D : sectors) s (L : list nat) : Prop :=
  match L with
  | [] => is_busy (phase_of (i_ctl s)) = false ∧ i_irq s = false ∧ contents (i_ctl s) = D
  | i :: _ =>
      (phase_of (i_ctl s) = Busy (req_at s i) ∧ i_irq s = false ∧ contents (i_ctl s) = D) ∨
      (phase_of (i_ctl s) = Done (req_at s i) ∧ i_irq s = true ∧
       contents (i_ctl s) = serve D (req_at s i) (fails (i_ctl s)))
  end.
Record dinv (D0 : sectors) s (L : list nat) : Prop := {
  di_chain : chain (i_bufs s) (idequeue s) L;
  di_nodup : NoDup L;
  di_buf : ∀ i, i ∈ L → ∃ b, buf_at s i = Some b ∧ pending b = true;
  di_engine : engine (disk_after D0 (h_done s)) s L;
  di_sub : h_sub s = ((λ x, (sv_buf x, sv_req x)) <$> h_done s) ++ ((λ i, (i, req_at s i)) <$> L);
  di_done : served_ok D0 (h_done s) }.
(** Only buffer [i] changes. *)
Record foot (i : nat) s s' : Prop := {
  ft_buf : ∀ j, j ≠ i → buf_at s' j = buf_at s j;
  ft_disk1 : havedisk1 s' = havedisk1 s;
  ft_done : ∃ l, h_done s' = h_done s ++ l }.
Lemma foot_refl i s s' : (∀ j, j ≠ i → buf_at s' j = buf_at s j) → havedisk1 s' = havedisk1 s → h_done s' = h_done s → foot i s s'.
Proof. intros Hb Hh Hd. split; [done|done|]. exists []. by rewrite app_nil_r. Qed.
Lemma foot_req i s s' j : foot i s s' → j ≠ i → req_at s' j = req_at s j.
Proof. intros [Hb _ _] Hj. unfold req_at. by rewrite Hb. Qed.
Lemma foot_reqs i s s' (L : list nat) : foot i s s' → i ∉ L → ((λ j, (j, req_at s' j)) <$> L) = ((λ j, (j, req_at s j)) <$> L).
Proof.
  intros Hf Hi. apply list_fmap_ext. intros n j Hj. f_equal. apply (foot_req i _ _ _ Hf).
  intros ->. by apply Hi, (list_elem_of_lookup_2 _ n).
Qed.
Lemma buf_at_alter f i s j : j ≠ i → buf_at (with_bufs (alter f i) s) j = buf_at s j.
Proof. intros Hj. unfold buf_at. cbn. by rewrite list_lookup_alter_ne. Qed.

(** Preparing a buffer that is not in the queue. *)
Lemma buf_setup_run D0 s L i b :
  dinv D0 s L → i ∉ L → let s' := with_bufs (alter (on_buf (λ _, b)) i) s in dinv D0 s' L ∧ foot i s s'.
Proof.
  intros [Hc HN Hb He Hs Hd] Hi s'. assert (foot i s s') as Hf by (apply foot_refl; [apply buf_at_alter|done|done]).
  split; [|done]. split; [by apply chain_on_buf|done| | |by rewrite (foot_reqs i s s' L Hf Hi)|done].
  - intros j Hj. rewrite (ft_buf _ _ _ Hf j) by (by intros ->). by apply Hb.
  - unfold engine in *. destruct L as [|j L]; [done|].
    by rewrite (foot_req i s s' j Hf) by (intros ->; apply Hi; by left).
Qed.
(** The drive finishes. *)
Lemma drive_run D0 s L :
  dinv D0 s L →
  ∃ s', drive (s, []) = Ok (Returns tt) (s', []) ∧ dinv D0 s' L ∧ (∀ i, foot i s s') ∧ (i_irq s = true → s' = s) ∧
    ∀ i, buf_at s' i = buf_at s i.
Proof.
  intros HI. pose proof HI as [Hc HN Hb He Hs Hd]. unfold drive, read_state, gets, mbind, M_bind. cbn [fst]. change (id s) with s.
  destruct (is_busy (phase_of (i_ctl s))) eqn:Eb.
  2:{ exists s. split; [reflexivity|]. split; [done|]. split; [intros; by apply foot_refl|done]. }
  destruct L as [|i L]; [by destruct He as [He _]; rewrite Eb in He|].
  destruct He as [(Hp & Hi & Hco)|(Hp & _)]; [|by rewrite Hp in Eb].
  eexists. split; [reflexivity|]. destruct (complete_busy (fuel:=fuel) _ _ Hp) as [H1 H2].
  split; [|split; [intros; by apply foot_refl|split; [by rewrite Hi|done]]].
  split; [done|done|done| |done|done]. right. cbn. split; [exact H1|]. split; [done|]. rewrite H2, Hco. done.
Qed.

(** A submitted request is last in the queue. *)
Lemma buf_at_qnext f i s j : (∀ x, q_buf (f x) = q_buf x) → buf_at (with_bufs (alter f i) s) j = buf_at s j.
Proof.
  intros Hf. destruct (decide (j = i)) as [->|Hj]; [|by apply buf_at_alter]. unfold buf_at. cbn. rewrite list_lookup_alter_eq.
  destruct (i_bufs s !! i) as [x|]; cbn; [by rewrite Hf|done].
Qed.
Definition same_but_queue s s' : Prop :=
  i_ctl s' = i_ctl s ∧ havedisk1 s' = havedisk1 s ∧ i_irq s' = i_irq s ∧ h_sub s' = h_sub s ∧ h_done s' = h_done s ∧
  ∀ j, buf_at s' j = buf_at s j.
Lemma append_run s L i b ws :
  chain (i_bufs s) (idequeue s) L → NoDup L → i ∉ L → buf_at s i = Some b →
  ∃ s', append i (s, ws) = Ok tt (s', ws) ∧ chain (i_bufs s') (idequeue s') (L ++ [i]) ∧ same_but_queue s s'.
Proof.
  intros Hc HN Hi (n & Hb)%buf_at_inv. unfold append. rewrite (bind_run _ _ _ _ _ (upd_q_run _ i s ws)).
  set (s1 := with_bufs _ s). rewrite (bind_run (read_state id) _ s1 (s1, ws) (s1, ws) eq_refl).
  assert (∀ j, buf_at s1 j = buf_at s j) as Hs1 by (intros j; by apply buf_at_qnext).
  assert (chain (i_bufs s1) (idequeue s) L) as Hc1 by (by apply chain_other).
  assert (i_bufs s1 !! i = Some (mkQ b None)) as Hb1 by (cbn; by rewrite list_lookup_alter_eq, Hb).
  change (idequeue s1) with (idequeue s). destruct L as [|k L0 _] using rev_ind.
  - cbn in Hc. rewrite Hc. eexists. split; [reflexivity|]. split; [|by repeat (split; [done|])].
    cbn [chain app]. split; [done|]. by exists (mkQ b None).
  - assert (∃ j, idequeue s = Some j) as (j & Hj) by (destruct L0; cbn in Hc; destruct Hc as [-> _]; by eexists).
    rewrite Hj in *. pose proof (chain_bound _ _ _ Hc1 HN) as Hle. rewrite length_app in Hle. cbn [length] in Hle.
    rewrite (bind_run _ _ _ _ _ (last_of_run _ _ L0 k (length (i_bufs s1)) s1 ws eq_refl Hc1 ltac:(lia) j eq_refl)).
    eexists. split; [apply upd_q_run|]. split.
    + change (idequeue (with_bufs _ s1)) with (idequeue s). rewrite Hj. by apply (qchain_snoc _ _ _ _ _ (mkQ b None)).
    + repeat (split; [done|]). intros j'. rewrite <- Hs1. by apply buf_at_qnext.
Qed.
Lemma rw_wait_run i r s ws b :
  buf_at s i = Some b →
  rw_wait i r (s, ws) =
  Ok (if Z.land (b_flags b) (Z.lor B_VALID B_DIRTY) =? B_VALID then Returns tt else Sleeps i (KWait i r)) (s, ws).
Proof.
  intros (n & Hb)%buf_at_inv. unfold rw_wait. rewrite (bind_run _ _ _ _ _ (get_q_run _ _ _ _ Hb)). cbn [q_buf]. by destruct (_ =? _).
Qed.
(** What iderw does after its tests. *)
Lemma queued_run D0 s L i b :
  dinv D0 s L → i ∉ L → buf_at s i = Some b → pending b = true →
  ∃ s', (append i ;; update (submit i (req_of b)) ;; q ← read_state idequeue;
         when (bool_decide (q = Some i)) (idestart fuel (Some i)) ;; rw_wait i (req_of b)) (s, []) =
        Ok (Sleeps i (KWait i (req_of b))) (s', []) ∧
    dinv D0 s' (L ++ [i]) ∧ foot i s s' ∧ i_irq s' = i_irq s ∧ buf_at s' i = Some b.
Proof.
  intros [Hc HN Hp He Hs Hd] Hi Hb Hpb.
  destruct (append_run s L i b [] Hc HN Hi Hb) as (s1 & Hr1 & Hc1 & Hct & Hh & Hirq & Hsub & Hdone & Hbufs).
  rewrite (bind_run _ _ _ _ _ Hr1). clear Hr1. set (s2 := submit i (req_of b) s1).
  rewrite (bind_run (update (submit i (req_of b))) _ tt (s1, []) (s2, []) eq_refl), (bind_run (read_state idequeue) _ (idequeue s2) (s2, []) (s2, []) eq_refl).
  assert (∀ j, buf_at s2 j = buf_at s j) as Hb2 by exact Hbufs.
  assert (∀ j, req_at s2 j = req_at s j) as Hreq by (intros j; unfold req_at; by rewrite Hb2).
  assert (req_at s i = req_of b) as Hri by (unfold req_at; by rewrite Hb).
  assert (NoDup (L ++ [i])) as HN' by (apply NoDup_app; split; [done|split; [|apply NoDup_singleton]];
    intros j Hj ->%list_elem_of_singleton; done).
  assert (∀ c, engine (disk_after D0 (h_done s)) (with_ctl c s2) (L ++ [i]) → dinv D0 (with_ctl c s2) (L ++ [i])) as Hmk.
  { intros c Hen. split; [done|done| |by cbn [h_done with_ctl s2 submit]; rewrite Hdone| |by cbn; rewrite Hdone].
    - intros j [Hj|Hj%list_elem_of_singleton]%elem_of_app; change (buf_at (with_ctl c s2) j) with (buf_at s2 j); rewrite Hb2;
        [by apply Hp|subst j; by exists b].
    - cbn [h_sub h_done with_ctl s2 submit]. rewrite Hdone, Hsub, Hs, fmap_app, <- app_assoc. cbn. f_equal.
      change (req_at (with_ctl c s2) i) with (req_at s2 i). rewrite Hreq, Hri. f_equal. apply list_fmap_ext. intros n j _. f_equal. symmetry. apply Hreq. }
  assert (∀ c, foot i s (with_ctl c s2)) as Hft by (intros c; apply foot_refl; [intros j _; apply Hb2|exact Hh|exact Hdone]).
  assert (∀ c, rw_wait i (req_of b) (with_ctl c s2, []) = Ok (Sleeps i (KWait i (req_of b))) (with_ctl c s2, [])) as Hw.
  { intros c. rewrite (rw_wait_run i _ _ _ b); [|change (buf_at s2 i = Some b); by rewrite Hb2].
    apply pending_iff in Hpb as [-> _]. done. }
  destruct L as [|j L].
  - destruct Hc1 as [Hq _]. change (idequeue s2) with (idequeue s1). rewrite Hq, bool_decide_eq_true_2 by done. cbn [when].
    destruct He as (Hbu & Hir & Hco).
    destruct (idestart_run s2 [] i b) as (c & Hst & Hph & Hcc); [by rewrite Hb2|done|cbn; by rewrite Hct|].
    rewrite (bind_run _ _ _ _ _ Hst). exists (with_ctl c s2). split; [apply Hw|]. split; [|split; [apply Hft|split; [exact Hirq|by rewrite <- Hb, <- Hb2]]].
    apply Hmk. left. cbn [i_ctl with_ctl]. change (req_at (with_ctl c s2) i) with (req_at s2 i). rewrite Hreq, Hri. split; [done|].
    split; [cbn; by rewrite Hirq|]. rewrite Hcc. cbn. by rewrite Hct.
  - destruct Hc1 as [Hq _]. change (idequeue s2) with (idequeue s1).
    rewrite Hq, bool_decide_eq_false_2 by (intros [= ->]; apply Hi; by left). cbn [when].
    rewrite (bind_run (mret tt) _ tt (s2, []) (s2, []) eq_refl). exists (with_ctl (i_ctl s2) s2).
    split; [apply (Hw (i_ctl s2))|]. split; [|split; [apply Hft|split; [exact Hirq|by rewrite <- Hb, <- Hb2]]]. apply Hmk. cbn [app engine] in *.
    change (req_at (with_ctl (i_ctl s2) s2) j) with (req_at s2 j). rewrite Hreq. cbn. by rewrite Hct, Hirq.
Qed.
Lemma iderw_run D0 s L t i :
  dinv D0 s L → i ∉ L → rw_ok s t i = true →
  ∃ b s', buf_at s i = Some b ∧ iderw fuel (Z.of_nat t) i (s, []) = Ok (Sleeps i (KWait i (req_of b))) (s', []) ∧
    dinv D0 s' (L ++ [i]) ∧ foot i s s' ∧ i_irq s' = i_irq s ∧ buf_at s' i = Some b.
Proof.
  intros HI Hi Hok. unfold rw_ok in Hok. destruct (buf_at s i) as [b|] eqn:Hb; [|done].
  rewrite !andb_true_iff, orb_true_iff, negb_true_iff in Hok. destruct Hok as [[[Hl Hp] Hd1] Hpb].
  destruct (queued_run D0 s L i b HI Hi Hb Hpb) as (s' & Hr & Hrest). exists b, s'. split; [done|]. split; [|done].
  destruct (buf_at_inv _ _ _ Hb) as (n & Hq). unfold iderw. rewrite (bind_run _ _ _ _ _ (get_q_run _ _ _ _ Hq)).
  rewrite (bind_run (read_state havedisk1) _ (havedisk1 s) (s, []) (s, []) eq_refl). cbn [q_buf].
  unfold alone, holdingsleep, read_state at 1, gets, mbind, M_bind. cbn [fst]. unfold mret, M_ret at 1.
  change (id (b_lock b)) with (b_lock b). rewrite Hl, Hp. cbn [negb andb].
  rewrite (proj1 (proj1 (pending_iff _) Hpb)).
  assert (negb (b_dev b =? 0) && (havedisk1 s =? 0) = false) as ->; [|exact Hr].
  destruct Hd1 as [->|H1]; [done|]. apply negb_true_iff in H1. by rewrite H1, andb_false_r.
Qed.

(** ** The interrupt *)
Lemma qchain_ext l l' q L : (∀ j, j ∈ L → l' !! j = l !! j) → chain l q L → chain l' q L.
Proof.
  revert q. induction L as [|j L IH]; intros q; [done|]. intros He (Hq & x & Hx & Hc). split; [done|]. exists x.
  split; [by rewrite He by left|]. apply IH; [|done]. intros k Hk. apply He. by right.
Qed.
Lemma done_flags f : Z.land (Z.land (Z.lor f B_VALID) (Z.lnot B_DIRTY)) (Z.lor B_VALID B_DIRTY) = B_VALID.
Proof.
  apply Z.bits_inj'. intros n Hn. rewrite !Z.land_spec, Z.lor_spec, Z.lnot_spec by lia. change (Z.lor B_VALID B_DIRTY) with 6.
  assert (n = 0 ∨ n = 1 ∨ n = 2 ∨ 2 < n) as [->|[->|[->|H]]] by lia; [| | |].
  - by rewrite andb_false_r.
  - by destruct (Z.testbit f 1).
  - by destruct (Z.testbit f 2).
  - rewrite (Z.bits_above_log2 6) by (cbn; lia). rewrite (Z.bits_above_log2 B_VALID) by (change (Z.log2 B_VALID) with 1; unfold B_VALID; lia). by rewrite andb_false_r.
Qed.
(** Reading the data of the request that the drive has finished. *)
Lemma fetch_run s ws i b n :
  i_bufs s !! i = Some (mkQ b n) → phase_of (i_ctl s) = Done (req_of b) →
  ∃ c l d, (if negb (flag B_DIRTY b) then
              r ← idewait fuel true; when (0 <=? r) (d ← io (insl 128); upd_q (on_buf (with_data d)) i)
            else mret tt) (s, ws) = Ok tt (with_bufs (λ _, l) (with_ctl c s), ws) ∧
    is_busy (phase_of c) = false ∧ contents c = contents (i_ctl s) ∧
    l !! i = Some (mkQ (with_data d b) n) ∧ (∀ j, j ≠ i → l !! j = i_bufs s !! j) ∧
    answer_ok (contents (i_ctl s)) (mkServed i (req_of b) d (fails (i_ctl s))) ∧ (fails (i_ctl s) = true → d = b_data b).
Proof.
  intros Hx Hp. assert (with_data (b_data b) b = b) as Hid by (by destruct b).
  assert (∀ c, with_ctl c s = with_bufs (λ _, i_bufs s) (with_ctl c s)) as Hsame by done.
  unfold answer_ok. cbn [sv_req sv_data sv_failed]. unfold req_of in *. destruct (flag B_DIRTY b); cbn [negb].
  { exists (i_ctl s), (i_bufs s), (b_data b). rewrite Hid. split; [by destruct s|]. by rewrite Hp. }
  destruct (idewait_run true s ws) as (r & c & Hw & Hph & Hc & Hf & Hr); [by rewrite Hp|].
  rewrite (bind_run _ _ _ _ _ Hw), (Hr eq_refl _ Hp). destruct (fails (i_ctl s)) eqn:Ef; cbn [negb when].
  - exists c, (i_bufs s), (b_data b). rewrite Hid, <- Hsame. split; [done|]. rewrite Hph, Hp. by repeat (split; [done|]).
  - rewrite bind_io. cbn [i_ctl with_ctl]. rewrite Hp in Hph. destruct (insl_data (fuel:=fuel) c _ _ Hph Hf) as (H1 & H2 & H3).
    eexists (insl 128 c).2, _, (insl 128 c).1. split; [reflexivity|]. split; [done|]. rewrite H3, H1, Hc.
    split; [done|]. cbn [i_bufs with_ctl]. split; [by rewrite list_lookup_alter_eq, Hx|].
    split; [intros j Hj; by rewrite list_lookup_alter_ne|done].
Qed.
(** Starting the next request. *)
Lemma next_run D0 s L ws :
  chain (i_bufs s) (idequeue s) L → NoDup L → (∀ i, i ∈ L → ∃ b, buf_at s i = Some b ∧ pending b = true) →
  is_busy (phase_of (i_ctl s)) = false → i_irq s = false → contents (i_ctl s) = disk_after D0 (h_done s) →
  h_sub s = ((λ x, (sv_buf x, sv_req x)) <$> h_done s) ++ ((λ i, (i, req_at s i)) <$> L) → served_ok D0 (h_done s) →
  ∃ c, (q ← read_state idequeue; (match q with None => mret tt | Some _ => idestart fuel q end) ;; mret (Returns tt)) (s, ws) =
       Ok (Returns (C:=nat) (K:=icall) tt) (with_ctl c s, ws) ∧ dinv D0 (with_ctl c s) L.
Proof.
  intros Hc HN Hp Hb Hirq Hco Hs Hd.
  rewrite (bind_run (read_state idequeue) _ (idequeue s) (s, ws) (s, ws) eq_refl).
  assert (∀ c, engine (disk_after D0 (h_done s)) (with_ctl c s) L → dinv D0 (with_ctl c s) L) as Hmk by (by intros c He; split).
  destruct L as [|i L].
  - cbn in Hc. rewrite Hc. exists (i_ctl s). split; [by destruct s|]. apply Hmk. by destruct s.
  - pose proof Hc as [Hq _]. rewrite Hq. destruct (Hp i ltac:(by left)) as (b & Hbi & Hpb).
    destruct (idestart_run s ws i b Hbi Hpb Hb) as (c & Hr & Hph & Hcc). rewrite (bind_run _ _ _ _ _ Hr).
    exists c. split; [reflexivity|]. apply Hmk. left. change (req_at (with_ctl c s) i) with (req_at s i).
    unfold req_at. rewrite Hbi. by rewrite <- Hco.
Qed.
(** Buffer [i] has been served: it is valid and clean, and its data is the answer to [r]. *)
Definition answered s (i : nat) (r : req) : Prop :=
  ∃ b v, buf_at s i = Some b ∧ Z.land (b_flags b) (Z.lor B_VALID B_DIRTY) = B_VALID ∧
    v ∈ h_done s ∧ sv_buf v = i ∧ sv_req v = r ∧ sv_data v = b_data b.
Lemma answer_before D x : answer_ok (serve D (sv_req x) (sv_failed x)) x → answer_ok D x.
Proof. unfold answer_ok. by destruct (sv_req x). Qed.

Lemma ideintr_run D0 s i L :
  dinv D0 s (i :: L) → i_irq s = true →
  ∃ s', ideintr fuel (s, []) = Ok (Returns tt) (s', [i]) ∧ dinv D0 s' L ∧ foot i s s' ∧ i_irq s' = false ∧ answered s' i (req_at s i) ∧
    (fails (i_ctl s) = true → b_data <$> buf_at s' i = b_data <$> buf_at s i).
Proof.
  intros [Hc [Hi HN]%NoDup_cons Hp He Hs Hd] Hirq. destruct He as [(_ & Hf & _)|(Hph & _ & Hco)]; [by rewrite Hirq in Hf|].
  destruct Hc as (Hq & x & Hx & Hc). destruct x as [b n]. cbn [qnext] in Hc.
  assert (req_at s i = req_of b) as Hri by (unfold req_at, buf_at; by rewrite Hx). rewrite Hri in *.
  unfold ideintr. rewrite (bind_run (update (with_irq false)) _ tt (s, []) (with_irq false s, []) eq_refl).
  rewrite (bind_run (read_state idequeue) _ (idequeue s) (with_irq false s, []) (with_irq false s, []) eq_refl), Hq.
  rewrite (bind_run _ _ _ _ _ (get_q_run i (mkQ b n) (with_irq false s) [] Hx)). cbn [q_buf qnext].
  set (s2 := with_queue n (with_irq false s)).
  rewrite (bind_run (update (with_queue n)) _ tt (with_irq false s, []) (s2, []) eq_refl).
  rewrite (bind_run (read_state (λ s, fails (i_ctl s))) _ (fails (i_ctl s)) (s2, []) (s2, []) eq_refl).
  destruct (fetch_run s2 [] i b n Hx Hph) as (c & l & d & Hr & Hbusy & Hcc & Hli & Hlj & Hans & Hold).
  rewrite (bind_run _ _ _ _ _ Hr), !(bind_run _ _ _ _ _ (upd_q_run _ i _ _)). clear Hr. set (s4 := with_bufs _ (with_bufs _ (with_bufs _ _))).
  set (b' := with_flags (Z.land (Z.lor (b_flags b) B_VALID) (Z.lnot B_DIRTY)) (with_data d b)).
  assert (i_bufs s4 !! i = Some (mkQ b' n)) as Hi4 by (cbn; by rewrite !list_lookup_alter_eq, Hli).
  assert (∀ j, j ≠ i → i_bufs s4 !! j = i_bufs s !! j) as Hj4 by (intros j Hj; cbn; by rewrite !list_lookup_alter_ne, Hlj).
  rewrite (bind_run _ _ _ _ _ (get_q_run i _ s4 [] Hi4)). cbn [q_buf].
  set (v := mkServed i (req_of b) (b_data b') (fails (i_ctl s))).
  rewrite (bind_run (update (finish v)) _ tt (s4, []) (finish v s4, []) eq_refl).
  rewrite (bind_run (wakeup i) _ tt (finish v s4, []) (finish v s4, [i]) eq_refl).
  assert (foot i s (finish v s4)) as Hft.
  { split; [intros j Hj; unfold buf_at; by rewrite <- Hj4|done|]. by exists [v]. }
  destruct (next_run D0 (finish v s4) L [i]) as (c' & Hn & Hinv).
  - apply (qchain_ext (i_bufs s)); [|exact Hc]. intros j Hj. apply Hj4. by intros ->.
  - done.
  - intros j Hj. rewrite (ft_buf _ _ _ Hft j) by (by intros ->). apply Hp. by right.
  - done.
  - done.
  - cbn [h_done finish]. rewrite disk_after_snoc. cbn [sv_req sv_failed v]. change (h_done s4) with (h_done s). rewrite <- Hco. exact Hcc.
  - cbn [h_sub h_done finish]. rewrite (foot_reqs i s _ L Hft Hi), fmap_app, <- app_assoc. cbn. rewrite Hs. cbn. by rewrite Hri.
  - apply served_ok_snoc; [done|]. apply answer_before. cbn [sv_req sv_failed v]. change (h_done s4) with (h_done s). rewrite <- Hco. exact Hans.
  - exists (with_ctl c' (finish v s4)). split; [exact Hn|]. split; [done|]. split; [by destruct Hft; split|]. split; [done|].
    assert (buf_at s4 i = Some b') as Hb4 by (unfold buf_at; by rewrite Hi4).
    split; [|intros Hfail; change (b_data <$> buf_at s4 i = b_data <$> buf_at s i); rewrite Hb4; unfold buf_at; rewrite Hx; cbn; by rewrite (Hold Hfail)].
    exists b', v. split; [exact Hb4|]. split; [apply done_flags|].
    split; [cbn; apply elem_of_app; right; by left|done].
Qed.
End driver.
