(* ===== verification/Ideserve.v ===== *)
(** * The disk driver under every interleaving

    Processes in iderw, the interrupt handler and the drive take turns in any order. *)

From S2P Require Import Prelude Monitor Sleeplock Blocks Bio Ide.

Section threads.
Context {C : Type} `{!IdeCtl C} (fuel : nat) `{!IdeCtlOk C fuel}.
Implicit Types s : ide C.
Abbreviation threads := (gmap nat (thread nat icall)).

Definition at_ok s (L : list nat) (t : nat) (k : icall) : Prop :=
  match k with
  | KRw i => (i ∉ L) ∧ rw_ok s t i = true
  | KWait i r => (i ∈ L ∧ req_at s i = r) ∨ ((i ∉ L) ∧ answered s i r)
  | KIntr => i_irq s = true
  | KDrive => True
  | KSetup i _ => i ∉ L
  end.
(** At most one thread is at a place that satisfies [P]. *)
Definition alone_at (P : icall → bool) (T : threads) : Prop :=
  ∀ t u th uth, T !! t = Some th → T !! u = Some uth → P (t_at th) = true → P (t_at uth) = true → t = u.
Record tinv s (L : list nat) (T : threads) : Prop := {
  ti_at : ∀ t th, T !! t = Some th → at_ok s L t (t_at th);
  ti_sleep : ∀ t th c, T !! t = Some th → t_chan th = Some c → c ∈ L ∧ ∃ r, t_at th = KWait c r;
  ti_one : ∀ i, alone_at (uses i) T;
  ti_intr : alone_at is_intr T;
  ti_all : ∀ i, i ∈ L → ∃ t th r, T !! t = Some th ∧ t_at th = KWait i r }.

(** Threads that do not use buffer [i] do not notice a change of it. *)
Lemma at_ok_foot i s s' L L' t k :
  foot i s s' → (∀ j, j ≠ i → j ∈ L' ↔ j ∈ L) → uses i k = false → (is_intr k = true → i_irq s' = i_irq s) →
  at_ok s L t k → at_ok s' L' t k.
Proof.
  intros Hf HL Hu Hirq. pose proof Hf as [Hb H1 (l & Hd)]. destruct k as [j|j r| | |j b]; cbn [uses at_ok] in *; try apply Nat.eqb_neq in Hu.
  - intros [Hj Hok]. rewrite (HL j Hu). split; [done|]. unfold rw_ok in *. by rewrite Hb, H1.
  - rewrite (HL j Hu). intros [[Hj Hr]|[Hj (b & v & Hbj & Hfl & Hv & Hrest)]]; [left|right]; (split; [done|]).
    + by rewrite (foot_req i s s' j Hf Hu).
    + exists b, v. split; [by rewrite Hb|]. split; [done|]. split; [|done]. rewrite Hd. apply elem_of_app. by left.
  - by rewrite Hirq.
  - done.
  - by rewrite (HL j Hu).
Qed.
Lemma alone_at_sub P (T T' : threads) :
  alone_at P T → (∀ t th, T' !! t = Some th → P (t_at th) = true → ∃ th0, T !! t = Some th0 ∧ P (t_at th0) = true) → alone_at P T'.
Proof.
  intros HT Hs t u th uth Ht Hu HPt HPu. destruct (Hs t th Ht HPt) as (th0 & ? & ?). destruct (Hs u uth Hu HPu) as (uth0 & ? & ?).
  by apply (HT t u th0 uth0).
Qed.
(** Settling a thread after its segment. *)
Lemma tinv_settle s L s' L' T t th (r : reaction nat icall unit) ws :
  tinv s L T → T !! t = Some th →
  (∀ u uth, u ≠ t → T !! u = Some uth → at_ok s' L' u (t_at uth)) →
  (∀ c, c ∈ L → c ∉ ws → c ∈ L') →
  (∀ i, i ∈ L' → (∃ u uth q, u ≠ t ∧ T !! u = Some uth ∧ t_at uth = KWait i q) ∨ ∃ q, r = Sleeps i (KWait i q)) →
  (∀ c k, r = Sleeps c k → ∃ q, k = KWait c q ∧ at_ok s' L' t k ∧ c ∈ L' ∧ uses c (t_at th) = true) →
  tinv s' L' (settle t th r (wake ws T)).
Proof.
  intros [Ha Hsl H1 Hin Hall] Ht Hat Hkeep Hall' Hr.
  assert (∀ u uth', settle t th r (wake ws T) !! u = Some uth' →
    (u ≠ t ∧ ∃ uth, T !! u = Some uth ∧ uth' = wake_thread ws uth) ∨ (u = t ∧ ∃ c k, r = Sleeps c k ∧ uth' = mkThread k (Some c) (t_killed th))) as Hlk.
  { intros u uth'. destruct r as [c k|[]]; cbn [settle].
    - rewrite lookup_insert_Some. intros [[<- <-]|[Hne (uth & Hu & ->)%wake_lookup]]; [right|left]; (split; [done|]); eauto.
    - rewrite lookup_delete_Some. intros [Hne (uth & Hu & ->)%wake_lookup]. left. split; [done|]. eauto. }
  assert (∀ u uth, u ≠ t → T !! u = Some uth → settle t th r (wake ws T) !! u = Some (wake_thread ws uth)) as Hback.
  { intros u uth Hu Hl. assert (wake ws T !! u = Some (wake_thread ws uth)) as Hw by (apply wake_lookup; eauto).
    destruct r as [c k|[]]; cbn [settle]; [by rewrite lookup_insert_ne|by rewrite lookup_delete_ne]. }
  split.
  - intros u uth' [(Hu & uth & Hl & ->)|(-> & c & k & Hk & ->)]%Hlk; [rewrite wake_thread_at; by apply Hat|].
    by destruct (Hr c k Hk) as (q & _ & ? & _).
  - intros u uth' c' [(Hu & uth & Hl & ->)|(-> & c & k & Hk & ->)]%Hlk.
    + intros (Hc & Hni & ->)%wake_thread_asleep. destruct (Hsl u uth c' Hl Hc) as [HcL Hq]. split; [by apply Hkeep|done].
    + cbn. intros [= <-]. destruct (Hr c k Hk) as (q & -> & _ & ? & _). by eauto.
  - intros i. apply (alone_at_sub _ T); [done|]. intros u uth' [(Hu & uth & Hl & ->)|(-> & c & k & Hk & ->)]%Hlk HP.
    + rewrite wake_thread_at in HP. eauto.
    + destruct (Hr c k Hk) as (q & -> & _ & _ & Hus). cbn in HP. apply Nat.eqb_eq in HP as ->. eauto.
  - apply (alone_at_sub _ T); [done|]. intros u uth' [(Hu & uth & Hl & ->)|(-> & c & k & Hk & ->)]%Hlk HP.
    + rewrite wake_thread_at in HP. eauto.
    + by destruct (Hr c k Hk) as (q & -> & _).
  - intros i Hi. destruct (Hall' i Hi) as [(u & uth & q & Hu & Hl & Hq)|(q & ->)].
    + exists u, (wake_thread ws uth), q. split; [by apply Hback|by rewrite wake_thread_at].
    + exists t, (mkThread (KWait i q) (Some i) (t_killed th)), q. cbn. by rewrite lookup_insert_eq.
Qed.

(** A thread that runs leaves the others as they are. *)
Lemma others_foot i s s' L L' T t th :
  tinv s L T → T !! t = Some th → uses i (t_at th) = true → foot i s s' → (∀ j, j ≠ i → j ∈ L' ↔ j ∈ L) → i_irq s' = i_irq s →
  ∀ u uth, u ≠ t → T !! u = Some uth → at_ok s' L' u (t_at uth).
Proof.
  intros HT Ht Hus Hf HL Hirq u uth Hu Hl. apply (at_ok_foot i s s' L); [done|done| |done|by apply (ti_at _ _ _ HT)].
  destruct (uses i (t_at uth)) eqn:E; [|done]. destruct Hu. by apply (ti_one _ _ _ HT i u t uth th).
Qed.
Lemma other_waiter s L T t th i :
  tinv s L T → T !! t = Some th → i ∈ L → (∀ q, t_at th ≠ KWait i q) → ∃ u uth q, u ≠ t ∧ T !! u = Some uth ∧ t_at uth = KWait i q.
Proof.
  intros HT Ht Hi Hne. destruct (ti_all _ _ _ HT i Hi) as (u & uth & q & Hl & Hq). exists u, uth, q. split; [|done].
  intros ->. rewrite Ht in Hl. injection Hl as <-. by apply (Hne q).
Qed.
Definition runs_on (D0 : sectors) (T : threads) (t : nat) (th : thread nat icall) s (L : list nat) : Prop :=
  ∃ r s' ws L', ide_seg fuel t (t_killed th) (t_at th) (s, []) = Ok r (s', ws) ∧ dinv D0 s' L' ∧ tinv s' L' (settle t th r (wake ws T)).

Section run.
Context (D0 : sectors) s (L : list nat) (T : threads) (t : nat) (th : thread nat icall).
Context (HI : dinv D0 s L) (HT : tinv s L T) (Ht : T !! t = Some th).
Lemma run_rw i : t_at th = KRw i → runs_on D0 T t th s L.
Proof using All.
  intros Hk. pose proof (ti_at _ _ _ HT t th Ht) as Ha. rewrite Hk in Ha. destruct Ha as [Hi Hok].
  destruct (iderw_run fuel D0 s L t i HI Hi Hok) as (b & s' & Hb & Hr & HI' & Hf & Hirq & Hb').
  unfold runs_on. rewrite Hk. exists (Sleeps i (KWait i (req_of b))), s', [], (L ++ [i]). split; [exact Hr|]. split; [done|].
  assert (i ∈ L ++ [i]) as Hin by (apply elem_of_app; right; by left).
  apply (tinv_settle s L _ _ T t th); [done|done| | | |].
  - apply (others_foot i s s' L _ T t th); [done|done|rewrite Hk; cbn; apply Nat.eqb_refl|done| |done].
    intros j Hj. rewrite elem_of_app, list_elem_of_singleton. tauto.
  - intros c Hc _. apply elem_of_app. by left.
  - intros j [Hj|Hj%list_elem_of_singleton]%elem_of_app; [left|right; subst j; by eexists].
    apply (other_waiter s L T t th); [done|done|done|]. intros q. by rewrite Hk.
  - intros c k [= <- <-]. eexists. split; [reflexivity|]. split; [left|rewrite Hk; cbn; by rewrite Nat.eqb_refl].
    split; [done|]. unfold req_at. by rewrite Hb'.
Qed.
Lemma run_wait i q : t_at th = KWait i q → runs_on D0 T t th s L.
Proof using All.
  intros Hk. pose proof (ti_at _ _ _ HT t th Ht) as Ha. rewrite Hk in Ha. unfold runs_on. rewrite Hk. cbn [ide_seg].
  assert (∀ u uth, u ≠ t → T !! u = Some uth → at_ok s L u (t_at uth)) as Hoth by (intros; by apply (ti_at _ _ _ HT)).
  destruct Ha as [[Hi Hq]|[Hi (b & v & Hb & Hfl & _)]].
  - destruct (di_buf _ _ _ HI i Hi) as (b & Hb & (Hfl & _)%pending_iff). exists (Sleeps i (KWait i q)), s, [], L.
    split; [by rewrite (rw_wait_run i q s [] b Hb), Hfl|]. split; [done|]. apply (tinv_settle s L _ _ T t th); [done|done|done|done| |].
    + intros j Hj. destruct (decide (j = i)) as [->|Hne]; [right; by eexists|left].
      apply (other_waiter s L T t th); [done|done|done|]. intros q'. rewrite Hk. congruence.
    + intros c k [= <- <-]. exists q. split; [done|]. split; [by left|]. split; [done|]. rewrite Hk. cbn. apply Nat.eqb_refl.
  - exists (Returns tt), s, [], L. split; [by rewrite (rw_wait_run i q s [] b Hb), Hfl|]. split; [done|].
    apply (tinv_settle s L _ _ T t th); [done|done|done|done| |done].
    intros j Hj. left. apply (other_waiter s L T t th); [done|done|done|]. intros q'. rewrite Hk. intros [= -> ->]. done.
Qed.
Lemma run_intr : t_at th = KIntr → runs_on D0 T t th s L.
Proof using All.
  intros Hk. pose proof (ti_at _ _ _ HT t th Ht) as Hirq. rewrite Hk in Hirq. cbn in Hirq.
  destruct L as [|i L'] eqn:EL; [by destruct (di_engine _ _ _ HI) as (_ & Hf & _); rewrite Hirq in Hf|].
  destruct (ideintr_run fuel D0 s i L' HI Hirq) as (s' & Hr & HI' & Hf & Hirq' & Hans & _).
  pose proof (di_nodup _ _ _ HI) as [Hi _]%NoDup_cons.
  unfold runs_on. rewrite Hk. exists (Returns tt), s', [i], L'. split; [exact Hr|]. split; [done|].
  apply (tinv_settle s (i :: L') _ _ T t th); [done|done| | | |done].
  - intros u uth Hu Hl. pose proof (ti_at _ _ _ HT u uth Hl) as Ha. destruct (uses i (t_at uth)) eqn:Eu.
    + destruct (t_at uth) as [j|j q| | |j b]; cbn [uses] in Eu; try done; apply Nat.eqb_eq in Eu as ->; cbn [at_ok] in *.
      * destruct Ha as [Ha _]. destruct Ha. by left.
      * right. split; [done|]. destruct Ha as [[_ <-]|[Ha _]]; [done|]. destruct Ha. by left.
      * destruct Ha. by left.
    + apply (at_ok_foot i s s' (i :: L')); [done| |done| |done].
      * intros j Hj. rewrite elem_of_cons. tauto.
      * intros Hin. destruct Hu. apply (ti_intr _ _ _ HT u t uth th Hl Ht Hin). by rewrite Hk.
  - intros c [->|Hc]%elem_of_cons Hni; [|done]. destruct Hni. by left.
  - intros j Hj. left. apply (other_waiter s (i :: L') T t th); [done|done|by right|]. intros q. by rewrite Hk.
Qed.
Lemma run_drive : t_at th = KDrive → runs_on D0 T t th s L.
Proof using All.
  intros Hk. destruct (drive_run fuel D0 s L HI) as (s' & Hr & HI' & Hf & Hirq & Hb). unfold runs_on. rewrite Hk.
  exists (Returns tt), s', [], L. split; [exact Hr|]. split; [done|]. apply (tinv_settle s L _ _ T t th); [done|done| |done| |done].
  - intros u uth Hu Hl. pose proof (ti_at _ _ _ HT u uth Hl) as Ha. destruct (is_intr (t_at uth)) eqn:Ei.
    + destruct (t_at uth); try done. cbn in Ha. by rewrite (Hirq Ha).
    + destruct (t_at uth) as [j|j q| | |j b] eqn:Ek; [|..].
      all: apply (at_ok_foot (S (match t_at uth with KRw j | KWait j _ | KSetup j _ => j | _ => 0%nat end)) s s' L);
        [apply Hf|done|rewrite Ek; cbn; try apply Nat.eqb_neq; lia || done|done|done].
  - intros j Hj. left. apply (other_waiter s L T t th); [done|done|done|]. intros q. by rewrite Hk.
Qed.
Lemma run_setup i b : t_at th = KSetup i b → runs_on D0 T t th s L.
Proof using All.
  intros Hk. pose proof (ti_at _ _ _ HT t th Ht) as Hi. rewrite Hk in Hi. destruct (buf_setup_run D0 s L i b HI Hi) as [HI' Hf].
  unfold runs_on. rewrite Hk. eexists (Returns tt), _, [], L. split; [reflexivity|]. split; [exact HI'|].
  apply (tinv_settle s L _ _ T t th); [done|done| |done| |done].
  - apply (others_foot i s _ L _ T t th); [done|done|rewrite Hk; cbn; apply Nat.eqb_refl|done|done|done].
  - intros j Hj. left. apply (other_waiter s L T t th); [done|done|done|]. intros q. by rewrite Hk.
Qed.
Lemma run_any : runs_on D0 T t th s L.
Proof using All.
  destruct (t_at th) as [i|i q| | |i b] eqn:Hk; [by eapply run_rw|by eapply run_wait|by apply run_intr|by apply run_drive|by eapply run_setup].
Qed.
End run.

(** ** From ideinit on *)
Definition powered_on s : Prop :=
  is_busy (phase_of (i_ctl s)) = false ∧ idequeue s = None ∧ i_irq s = false ∧ h_sub s = [] ∧ h_done s = [].
Lemma probe_run n s ws :
  ∃ c h, probe n (s, ws) = Ok tt (with_disk1 h (with_ctl c s), ws) ∧ phase_of c = phase_of (i_ctl s) ∧ contents c = contents (i_ctl s).
Proof using All.
  revert s. induction n as [|n IH]; intros s; cbn [probe]; [exists (i_ctl s), (havedisk1 s); by destruct s|]. rewrite bind_io.
  destruct (inb_keeps (fuel:=fuel) 0x1f7 (i_ctl s)) as (H1 & H2 & _). destruct (negb _).
  - by eexists _, 1.
  - destruct (IH (with_ctl (inb 0x1f7 (i_ctl s)).2 s)) as (c & h & Hr & Hp & Hc). exists c, h. rewrite Hr, Hp, Hc. cbn. by rewrite H1, H2.
Qed.
Lemma ideinit_run s :
  powered_on s → ∃ s0, ideinit fuel (s, []) = Ok tt (s0, []) ∧ dinv (contents (i_ctl s)) s0 [].
Proof using All.
  intros (Hb & Hq & Hi & Hsub & Hdone). unfold ideinit. destruct (idewait_run fuel false s [] Hb) as (r & c & Hw & Hp & Hc & _).
  rewrite (bind_run _ _ _ _ _ Hw). unfold out. rewrite bind_io. cbn [fst snd i_ctl with_ctl].
  destruct (outb_select (fuel:=fuel) (Z.lor 0xe0 (Z.shiftl 1 4)) c) as [Hp1 Hc1]. set (c1 := outb _ _ c) in *.
  destruct (probe_run 1000 (with_ctl c1 (with_ctl c s)) []) as (c2 & h & Hr & Hp2 & Hc2). rewrite (bind_run _ _ _ _ _ Hr), io_run.
  eexists. split; [reflexivity|]. cbn [fst snd i_ctl with_ctl with_disk1] in *.
  destruct (outb_select (fuel:=fuel) (Z.lor 0xe0 (Z.shiftl 0 4)) c2) as [Hp3 Hc3].
  split; cbn [i_ctl with_ctl with_disk1 idequeue h_done h_sub i_irq chain]; rewrite ?Hdone, ?Hsub; [done|constructor|by intros i ?%elem_of_nil| |done|done].
  split; [cbn; by rewrite Hp3, Hp2, Hp1, Hp|]. split; [done|]. cbn. by rewrite Hc3, Hc2, Hc1, Hc.
Qed.
Lemma may_call_ok s L T t k :
  tinv s L T → ide_may s T t k → at_ok s L t k ∧ (∀ i, uses i k = true → nobody (uses i) T) ∧ (is_intr k = true → nobody is_intr T).
Proof.
  intros HT Hk. assert (∀ i, nobody (uses i) T → i ∉ L) as Hn.
  { intros i Hno Hi. destruct (ti_all _ _ _ HT i Hi) as (u & uth & q & Hl & Hq). pose proof (Hno u uth Hl) as H. cbn in H.
    rewrite Hq in H. cbn in H. by rewrite Nat.eqb_refl in H. }
  destruct k as [i|i r| | |i b]; cbn in *; [destruct Hk as [Hno Hok]| done |destruct Hk as [Hirq Hno]| |].
  - split; [split; [by apply Hn|done]|]. split; [by intros j ->%Nat.eqb_eq|done].
  - done.
  - done.
  - split; [by apply Hn|]. split; [by intros j ->%Nat.eqb_eq|done].
Qed.
Lemma alone_insert P (T : threads) t th :
  alone_at P T → (P (t_at th) = true → nobody P T) → alone_at P (<[t := th]> T).
Proof.
  intros HT Hn u v uth vth. rewrite !lookup_insert_Some.
  intros [[<- <-]|[Hu Hlu]] [[<- <-]|[Hv Hlv]] HPu HPv; [done| | |by apply (HT u v uth vth)].
  - pose proof (Hn HPu v vth Hlv) as H. cbn in H. by rewrite H in HPv.
  - pose proof (Hn HPv u uth Hlu) as H. cbn in H. by rewrite H in HPu.
Qed.
Lemma ide_tinv_call s L T t k : tinv s L T → T !! t = None → ide_may s T t k → tinv s L (<[t := mkThread k None false]> T).
Proof.
  intros HT Hn Hk. destruct (may_call_ok s L T t k HT Hk) as (Ha & Hu & Hi). destruct HT as [H1 H2 H3 H4 H5]. split.
  - intros u uth. rewrite lookup_insert_Some. intros [[<- <-]|[_ Hl]]; [done|by apply H1].
  - intros u uth c. rewrite lookup_insert_Some. intros [[<- <-]|[_ Hl]]; [done|by apply (H2 u)].
  - intros i. apply alone_insert; [done|apply Hu].
  - apply alone_insert; [done|apply Hi].
  - intros i Hil. destruct (H5 i Hil) as (u & uth & q & Hl & Hq). exists u, uth, q. split; [|done].
    rewrite lookup_insert_ne; [done|]. intros ->. by rewrite Hn in Hl.
Qed.
Lemma tinv_kill s L T t th : tinv s L T → T !! t = Some th → tinv s L (<[t := mkThread (t_at th) None true]> T).
Proof.
  intros [H1 H2 H3 H4 H5] Ht.
  assert (∀ P u uth, <[t := mkThread (t_at th) None true]> T !! u = Some uth → P (t_at uth) → ∃ uth0, T !! u = Some uth0 ∧ (P : icall → Prop) (t_at uth0)) as Hl.
  { intros P u uth. rewrite lookup_insert_Some. intros [[<- <-]|[_ Hu]] HP; [by exists th|by exists uth]. }
  split.
  - intros u uth. rewrite lookup_insert_Some. intros [[<- <-]|[_ Hu]]; [by apply (H1 t th)|by apply H1].
  - intros u uth c. rewrite lookup_insert_Some. intros [[<- <-]|[_ Hu]]; [done|by apply (H2 u)].
  - intros i. apply (alone_at_sub _ T); [done|]. intros u uth Hu HP. by apply (Hl (λ k, uses i k = true) u uth).
  - apply (alone_at_sub _ T); [done|]. intros u uth Hu HP. by apply (Hl (λ k, is_intr k = true) u uth).
  - intros i Hil. destruct (H5 i Hil) as (u & uth & q & Hlu & Hq). destruct (decide (u = t)) as [->|Hne].
    + rewrite Ht in Hlu. injection Hlu as <-. exists t, (mkThread (t_at th) None true), q. by rewrite lookup_insert_eq.
    + exists u, uth, q. by rewrite lookup_insert_ne.
Qed.
Lemma reachable_inv mk D0 s0 m es :
  dinv D0 s0 [] → reachable (ide_seg fuel) ide_may mk s0 m es → ∃ L, dinv D0 (st m) L ∧ tinv (st m) L (thr m).
Proof using All.
  intros H0 Hr. induction Hr as [|m es e m' _ (L & HI & HT) Hst].
  - exists []. split; [done|]. by split; [..|intros ? ?%elem_of_nil].
  - destruct Hst as [s T t k Hn Hk|s T t th s' ws r Ht Hc Hseg|s T t th Ht _]; cbn [st thr] in *.
    + exists L. split; [done|by apply ide_tinv_call].
    + destruct (run_any D0 s L T t th HI HT Ht) as (r2 & s2 & ws2 & L' & Hrun & HI' & HT').
      rewrite Hseg in Hrun. injection Hrun as <- <- <-. by exists L'.
    + exists L. split; [done|by apply tinv_kill].
Qed.

(** What the driver guarantees in a state of the monitor, for a disk that held [D0] at the start. *)
Record serves (D0 : sectors) (m : mon (S:=ide C) (C:=nat) (K:=icall)) (L : list nat) : Prop := {
  (** The queue holds [L], and requests are served in the order of submission, each once. *)
  sv_queue : chain (i_bufs (st m)) (idequeue (st m)) L ∧ NoDup L;
  sv_order : h_sub (st m) = ((λ x, (sv_buf x, sv_req x)) <$> h_done (st m)) ++ ((λ i, (i, req_at (st m) i)) <$> L);
  (** They behave like requests to a disk that serves one after the other. *)
  sv_answers : served_ok D0 (h_done (st m));
  sv_stored : L = [] → contents (i_ctl (st m)) = disk_after D0 (h_done (st m));
  (** While requests wait, the drive works on the first one or has interrupted. *)
  sv_working : ∀ i L', L = i :: L' →
    phase_of (i_ctl (st m)) = Busy (req_at (st m) i) ∨ phase_of (i_ctl (st m)) = Done (req_at (st m) i) ∧ i_irq (st m) = true;
  (** No segment panics or waits for ever. *)
  sv_total : ∀ t th, thr m !! t = Some th → ∃ r s' ws, ide_seg fuel t (t_killed th) (t_at th) (st m, []) = Ok r (s', ws);
  (** A process sleeps only while its request waits, *)
  sv_sleeps : ∀ t th c, thr m !! t = Some th → t_chan th = Some c → c ∈ L;
  (** and goes on with a buffer that holds the answer to its request. *)
  sv_returns : ∀ t th i r s' ws, thr m !! t = Some th → t_at th = KWait i r →
    ide_seg fuel t (t_killed th) (t_at th) (st m, []) = Ok (Returns tt) (s', ws) → answered (st m) i r }.

Lemma inv_serves D0 m L : dinv D0 (st m) L → tinv (st m) L (thr m) → serves D0 m L.
Proof using All.
  intros HI HT. pose proof HI as [Hc HN Hb He Hs Hd]. split; [done|done|done| | | | |].
  - intros ->. apply He.
  - intros i L' ->. destruct He as [(Hp & _)|(Hp & Hi & _)]; [by left|by right].
  - intros t th Ht. destruct (run_any D0 (st m) L (thr m) t th HI HT Ht) as (r & s' & ws & _ & Hr & _). eauto.
  - intros t th c Ht Hch. by destruct (ti_sleep _ _ _ HT t th c Ht Hch).
  - intros t th i r s' ws Ht Hk Hr. pose proof (ti_at _ _ _ HT t th Ht) as Ha. rewrite Hk in *. destruct Ha as [[Hi _]|[_ Ha]]; [|done].
    destruct (Hb i Hi) as (b & Hbi & (Hf & _)%pending_iff). cbn [ide_seg] in Hr. by rewrite (rw_wait_run i r (st m) [] b Hbi), Hf in Hr.
Qed.

(** C9: the disk driver.  ideinit returns, and from then on, under every interleaving of processes
    that call iderw, of the drive and of its interrupts, the requests are served in the order of
    submission and each once; a process leaves iderw only with the answer that a disk serving them one after
    the other gives; the drive is never idle while a request waits, a process sleeps only while its request
    waits, and no function panics or waits for ever. *)
Theorem ide_serves s :
  powered_on s →
  ∃ s0, ideinit fuel (s, []) = Ok tt (s0, []) ∧
    ∀ mk m es, reachable (ide_seg fuel) ide_may mk s0 m es → ∃ L, serves (contents (i_ctl s)) m L.
Proof using All.
  intros Hs. destruct (ideinit_run s Hs) as (s0 & Hr & HI). exists s0. split; [done|]. intros mk m es Hm.
  destruct (reachable_inv mk _ _ _ _ HI Hm) as (L & HI' & HT). exists L. by apply inv_serves.
Qed.
(** When the drive reports an error, ideintr still marks the buffer as valid, with the data it had before. *)
Theorem ide_error_unnoticed D0 s i L :
  dinv D0 s (i :: L) → i_irq s = true → fails (i_ctl s) = true →
  ∃ s' b b', ideintr fuel (s, []) = Ok (Returns tt) (s', [i]) ∧ buf_at s i = Some b ∧ buf_at s' i = Some b' ∧
    flag B_VALID b' = true ∧ b_data b' = b_data b.
Proof using All.
  intros HI Hirq Hf. destruct (ideintr_run fuel D0 s i L HI Hirq) as (s' & Hr & _ & _ & _ & (b' & v & Hb' & Hfl & _) & Hd).
  destruct (di_buf _ _ _ HI i ltac:(by left)) as (b & Hb & _). exists s', b, b'. split; [done|]. split; [done|]. split; [done|].
  rewrite Hb, Hb' in Hd. specialize (Hd Hf). injection Hd as Hd. split; [|done]. unfold flag. apply negb_true_iff, Z.eqb_neq.
  intros H0. assert (Z.land (Z.land (b_flags b') (Z.lor B_VALID B_DIRTY)) B_VALID = B_VALID) as H by (rewrite Hfl; done).
  by rewrite <- Z.land_assoc, (Z.land_comm (Z.lor _ _)), Z.land_assoc, H0 in H.
Qed.
End threads.

(** ** A drive *)
Record demo_ctl := mkDemo { r_lo : Z; r_mid : Z; r_hi : Z; r_dev : Z; d_phase : phase; d_sectors : sectors }.
Definition demo_outb (p v : Z) (c : demo_ctl) : demo_ctl :=
  let '(mkDemo lo mid hi dev ph D) := c in
  if p =? 0x1f3 then mkDemo v mid hi dev ph D else
  if p =? 0x1f4 then mkDemo lo v hi dev ph D else
  if p =? 0x1f5 then mkDemo lo mid v dev ph D else
  if p =? 0x1f6 then mkDemo lo mid hi v ph D else
  if (p =? 0x1f7) && (v =? IDE_CMD_READ) then mkDemo lo mid hi dev (Busy (RRead (drive_of dev) (lba lo mid hi dev))) D
  else c.
#[global] Instance demo_ide : IdeCtl demo_ctl := {
  outb := demo_outb;
  inb _ c := (0x40, c);
  outsl d '(mkDemo lo mid hi dev _ D) := mkDemo lo mid hi dev (Busy (RWrite (drive_of dev) (lba lo mid hi dev) d)) D;
  insl _ c := (match d_phase c with Done (RRead a b) => sector_at (d_sectors c) a b | _ => [] end, c);
  complete '(mkDemo lo mid hi dev ph D) :=
    match ph with Busy r => mkDemo lo mid hi dev (Done r) (serve D r false) | _ => mkDemo lo mid hi dev ph D end;
  phase_of := d_phase;
  contents := d_sectors;
  fails _ := false;
  polls _ := 0%nat }.
#[global] Instance demo_ide_ok : IdeCtlOk demo_ctl 1.
Proof.
  split.
  - intros c. cbn. lia.
  - done.
  - intros c _. cbn. done.
  - intros v [lo mid hi dev ph D]. done.
  - intros lo mid hi dev [] _ _ _ _ _. done.
  - intros lo mid hi dev d [] _ _ _ _ _ _. done.
  - intros [lo mid hi dev ph D] r. cbn. intros ->. done.
  - intros [lo mid hi dev ph D] a b. cbn. intros -> _. done.
Qed.
Definition demo_buf (pid bno fl x : Z) : buf := mkBuf fl 0 bno (mkSleep 1 "buffer" pid) 1 0 0 (replicate BSIZE x).
Definition demo_disk : ide demo_ctl :=
  mkIde (mkDemo 0 0 0 0 Ready ∅) [mkQ (demo_buf 1 5 B_DIRTY 7) None; mkQ (demo_buf 2 5 0 0) None] None 0 false [] [].
(** Process 1 writes block 5 while process 2 wants to read it. *)
Definition demo_disk_acts : list (action icall) :=
  [ACall 1 (KRw 0); ARun 1; ACall 2 (KRw 1); ARun 2; ACall 3 KDrive; ARun 3; ACall 4 KIntr; ARun 4;
   ACall 3 KDrive; ARun 3; ACall 4 KIntr; ARun 4].
Lemma ide_serves_witness :
  ∃ s0 m es th, ideinit 1 (demo_disk, []) = Ok tt (s0, []) ∧ reachable (ide_seg 1) ide_may false s0 m es ∧
    thr m !! 2%nat = Some th ∧ t_at th = KWait 1 (RRead 0 5) ∧ answered (st m) 1 (RRead 0 5) ∧
    sv_data <$> h_done (st m) = [replicate BSIZE 7; replicate BSIZE 7].
Proof.
  destruct (ide_serves 1 demo_disk) as (s0 & H0 & HR); [by repeat (split; [reflexivity|])|].
  assert (s0 = with_disk1 1 (with_ctl (mkDemo 0 0 0 0xe0 Ready ∅) demo_disk)) as Hs0 by (vm_compute in H0; injection H0 as <-; reflexivity).
  destruct (replay (ide_seg 1) false (mkMon s0 ∅) [] demo_disk_acts) as [[m es]|] eqn:E; [|subst s0; vm_compute in E; discriminate E].
  assert (reachable (ide_seg 1) ide_may false s0 m es) as Hr.
  { eapply replay_reachable; [constructor| |exact E]. subst s0. apply (bool_decide_eq_true_1 _). vm_compute. reflexivity. }
  assert (thr m !! 2%nat = Some (mkThread (KWait 1 (RRead 0 5)) None false) ∧
          (∃ s' ws, ide_seg 1 2 false (KWait 1 (RRead 0 5)) (st m, []) = Ok (Returns tt) (s', ws)) ∧
          sv_data <$> h_done (st m) = [replicate BSIZE 7; replicate BSIZE 7]) as (Ht & (s' & ws & Hrun) & Hd).
  { subst s0. vm_compute in E. injection E as <- _. split; [reflexivity|]. split; [eexists _, _; vm_compute; reflexivity|vm_compute; reflexivity]. }
  destruct (HR false m es Hr) as (L & HS). eexists s0, m, es, _. split; [exact H0|]. split; [exact Hr|]. split; [exact Ht|]. split; [reflexivity|].
  split; [|exact Hd]. by apply (sv_returns _ _ _ _ HS 2 _ 1 (RRead 0 5) s' ws Ht).
Defined.
