(* ===== verification/Bytes.v ===== *)
(** * Integers in memory

    The fields of on-disk structures, little endian, at their byte offsets.
    Reading outside the block gives zero bytes here; every use is inside. *)

From S2P Require Import Prelude.

Definition byte_at (d : list Z) (o : nat) : Z := default 0 (d !! o).
Definition get16 (d : list Z) (o : nat) : Z := byte_at d o + 256 * byte_at d (o + 1).
Definition get32 (d : list Z) (o : nat) : Z :=
  byte_at d o + 256 * (byte_at d (o + 1) + 256 * (byte_at d (o + 2) + 256 * byte_at d (o + 3))).
Definition put16 (o : nat) (v : Z) (d : list Z) : list Z :=
  <[(o + 1)%nat := (v / 256) mod 256]> (<[o := v mod 256]> d).
Definition put32 (o : nat) (v : Z) (d : list Z) : list Z :=
  <[(o + 3)%nat := (v / 16777216) mod 256]> (<[(o + 2)%nat := (v / 65536) mod 256]>
    (<[(o + 1)%nat := (v / 256) mod 256]> (<[o := v mod 256]> d))).

Lemma length_put16 o v d : length (put16 o v d) = length d.
Proof. unfold put16. by rewrite !length_insert. Qed.
Lemma length_put32 o v d : length (put32 o v d) = length d.
Proof. unfold put32. by rewrite !length_insert. Qed.
Lemma byte_at_insert_eq d o x : (o < length d)%nat → byte_at (<[o := x]> d) o = x.
Proof. intros. unfold byte_at. by rewrite list_lookup_insert_eq. Qed.
Lemma byte_at_insert_ne d o o' x : o ≠ o' → byte_at (<[o := x]> d) o' = byte_at d o'.
Proof. intros. unfold byte_at. by rewrite list_lookup_insert_ne. Qed.

Lemma put16_byte o v d o' : (o' < o ∨ o + 2 ≤ o')%nat → byte_at (put16 o v d) o' = byte_at d o'.
Proof. intros H. unfold put16. rewrite !byte_at_insert_ne by lia. done. Qed.
Lemma put32_byte o v d o' : (o' < o ∨ o + 4 ≤ o')%nat → byte_at (put32 o v d) o' = byte_at d o'.
Proof. intros H. unfold put32. rewrite !byte_at_insert_ne by lia. done. Qed.

Lemma split32 v : u32 v = v mod 256 + 256 * (v / 256 mod 256 + 256 * (v / 65536 mod 256 + 256 * (v / 16777216 mod 256))).
Proof.
  unfold u32. replace (2 ^ 32) with (256 * (256 * (256 * 256))) by done.
  rewrite !Z.rem_mul_r by lia. rewrite !Z.div_div by lia. reflexivity.
Qed.
Lemma split16 v : v mod 65536 = v mod 256 + 256 * (v / 256 mod 256).
Proof. replace 65536 with (256 * 256) by done. rewrite Z.rem_mul_r by lia. lia. Qed.

Lemma get32_put32 o v d : (o + 4 ≤ length d)%nat → get32 (put32 o v d) o = u32 v.
Proof.
  intros H. unfold get32, put32. rewrite split32.
  rewrite (byte_at_insert_ne _ (o + 3) o), (byte_at_insert_ne _ (o + 2) o), (byte_at_insert_ne _ (o + 1) o) by lia.
  rewrite (byte_at_insert_ne _ (o + 3) (o + 1)), (byte_at_insert_ne _ (o + 2) (o + 1)) by lia.
  rewrite (byte_at_insert_ne _ (o + 3) (o + 2)) by lia.
  rewrite !byte_at_insert_eq by (rewrite ?length_insert; lia). done.
Qed.
Lemma get32_put32_ne o v d o' : (o + 4 ≤ o' ∨ o' + 4 ≤ o)%nat → get32 (put32 o v d) o' = get32 d o'.
Proof. intros H. unfold get32. rewrite !put32_byte by lia. done. Qed.
Lemma get16_put16 o v d : (o + 2 ≤ length d)%nat → get16 (put16 o v d) o = v mod 65536.
Proof.
  intros H. unfold get16, put16. rewrite split16.
  rewrite (byte_at_insert_ne _ (o + 1) o) by lia.
  rewrite !byte_at_insert_eq by (rewrite ?length_insert; lia). done.
Qed.
Lemma get16_put16_ne o v d o' : (o + 2 ≤ o' ∨ o' + 2 ≤ o)%nat → get16 (put16 o v d) o' = get16 d o'.
Proof. intros H. unfold get16. rewrite !put16_byte by lia. done. Qed.

(** An array of 32-bit integers from offset [o]. *)
Fixpoint put32s (o : nat) (vs : list Z) (d : list Z) : list Z :=
  match vs with [] => d | v :: vs' => put32s (o + 4) vs' (put32 o v d) end.
Definition get32s (d : list Z) (o n : nat) : list Z := (λ k, get32 d (o + 4 * k)) <$> seq 0 n.
Lemma length_put32s o vs d : length (put32s o vs d) = length d.
Proof. revert o d. induction vs as [|v vs IH]; intros o d; simpl; [done|]. by rewrite IH, length_put32. Qed.
Lemma put32s_before o vs d o' : (o' + 4 ≤ o)%nat → get32 (put32s o vs d) o' = get32 d o'.
Proof.
  revert o d. induction vs as [|v vs IH]; intros o d H; simpl; [done|].
  rewrite IH by lia. apply get32_put32_ne. lia.
Qed.
Lemma get32s_put32s o vs d :
  (o + 4 * length vs ≤ length d)%nat → get32s (put32s o vs d) o (length vs) = u32 <$> vs.
Proof.
  revert o d. induction vs as [|v vs IH]; intros o d H; simpl in *; [done|]. unfold get32s. simpl. f_equal.
  - rewrite Nat.add_0_r, put32s_before by lia. apply get32_put32. lia.
  - etransitivity; [|apply (IH (o + 4)%nat (put32 o v d)); rewrite length_put32; lia].
    unfold get32s. rewrite <- fmap_S_seq, <- list_fmap_compose. apply list_fmap_ext. intros i k _. simpl. f_equal. lia.
Qed.
