(* ===== verification/Log.v ===== *)
(** * The write-ahead log (log.c)

    The log over any implementation of the buffer cache's interface.  The state
    is [struct log] beside the state of the block layer; [log_locked] says that
    the running process is inside log.lock.  A wait for another process is
    [Spin]. *)

From S2P Require Import Prelude Bytes Blocks.

Definition MAXOPBLOCKS : Z := 10.
Definition LOGSIZE : nat := 30.

(** [struct superblock] (fs.h), as seven 32-bit words at the start of block 1. *)
Record superblock := mkSb {
  sb_size : Z;
  sb_nblocks : Z;
  sb_ninodes : Z;
  sb_nlog : Z;
  sb_logstart : Z;
  sb_inodestart : Z;
  sb_bmapstart : Z }.
Definition read_sb (d : block) : superblock :=
  mkSb (get32 d 0) (get32 d 4) (get32 d 8) (get32 d 12) (get32 d 16) (get32 d 20) (get32 d 24).

Record lst (S : Type) := mkLst {
  l_blk : S;
  l_start : Z;
  l_size : Z;
  l_outstanding : Z;
  l_committing : Z;
  l_dev : Z;
  l_n : Z;
  l_block : list Z;
  l_locked : bool }.
Arguments mkLst {S} _ _ _ _ _ _ _ _ _.
Arguments l_blk {S} _. Arguments l_start {S} _. Arguments l_size {S} _. Arguments l_outstanding {S} _.
Arguments l_committing {S} _. Arguments l_dev {S} _. Arguments l_n {S} _. Arguments l_block {S} _. Arguments l_locked {S} _.

Section code.
Context {S : Type} `{!BlockOps S}.
Abbreviation LM := (M (lst S)).
Implicit Types x : lst S.

Definition with_blk (s : S) x : lst S :=
  mkLst s (l_start x) (l_size x) (l_outstanding x) (l_committing x) (l_dev x) (l_n x) (l_block x) (l_locked x).
Definition blk_lens : lens (lst S) S := Lens l_blk with_blk.
Definition blk {A} (m : M S A) : LM A := zoom blk_lens m.
Definition with_geometry (start size dev : Z) x : lst S :=
  mkLst (l_blk x) start size (l_outstanding x) (l_committing x) dev (l_n x) (l_block x) (l_locked x).
Definition with_outstanding (n : Z) x : lst S :=
  mkLst (l_blk x) (l_start x) (l_size x) n (l_committing x) (l_dev x) (l_n x) (l_block x) (l_locked x).
Definition with_committing (c : Z) x : lst S :=
  mkLst (l_blk x) (l_start x) (l_size x) (l_outstanding x) c (l_dev x) (l_n x) (l_block x) (l_locked x).
Definition with_lh (n : Z) (b : list Z) x : lst S :=
  mkLst (l_blk x) (l_start x) (l_size x) (l_outstanding x) (l_committing x) (l_dev x) n b (l_locked x).
Definition with_locked (b : bool) x : lst S :=
  mkLst (l_blk x) (l_start x) (l_size x) (l_outstanding x) (l_committing x) (l_dev x) (l_n x) (l_block x) b.

Definition acquire_log : LM unit := x ← get; if l_locked x then panic "acquire" else modify (with_locked true).
Definition release_log : LM unit := x ← get; if l_locked x then modify (with_locked false) else panic "release".

(** readsb (fs.c) *)
Definition readsb (dev : Z) : LM superblock :=
  i ← blk (bread dev 1);
  d ← blk (b_get i);
  blk (brelse i) ;;
  mret (read_sb d).

(** Copy one committed block from the log to its home. *)
Definition install_one (tail : nat) : LM unit :=
  x ← get;
  lbuf ← blk (bread (l_dev x) (l_start x + Z.of_nat tail + 1));
  home ← array_get "log.lh.block" (l_block x) (Z.of_nat tail);
  dbuf ← blk (bread (l_dev x) home);
  d ← blk (b_get lbuf);
  blk (b_put dbuf d) ;;
  blk (bwrite dbuf) ;;
  blk (brelse lbuf) ;;
  blk (brelse dbuf).
Definition install_trans : LM unit :=
  x ← get; for_each (seq 0 (Z.to_nat (l_n x))) install_one.

(** The header block: [int n; int block[LOGSIZE]]. *)
Definition hdr_n (d : block) : Z := i32 (get32 d 0).
Definition hdr_blocks (d : block) (n : nat) : list Z := i32 <$> get32s d 4 n.
Definition read_head : LM unit :=
  x ← get;
  i ← blk (bread (l_dev x) (l_start x));
  d ← blk (b_get i);
  let n := hdr_n d in
  if (Z.of_nat LOGSIZE <? n) then undef "log.lh.block" else
  modify (λ x, with_lh n (hdr_blocks d (Z.to_nat n) ++ drop (Z.to_nat n) (l_block x)) x) ;;
  blk (brelse i).
Definition put_head (n : Z) (bs : list Z) (d : block) : block := put32s 4 bs (put32 0 n d).
Definition write_head : LM unit :=
  x ← get;
  i ← blk (bread (l_dev x) (l_start x));
  d ← blk (b_get i);
  blk (b_put i (put_head (l_n x) (take (Z.to_nat (l_n x)) (l_block x)) d)) ;;
  blk (bwrite i) ;;
  blk (brelse i).

Definition recover_from_log : LM unit :=
  read_head ;;
  install_trans ;;
  modify (λ x, with_lh 0 (l_block x) x) ;;
  write_head.
Definition initlog (dev : Z) : LM unit :=
  (if (4 * (1 + LOGSIZE) <? BSIZE)%nat then mret tt else panic "initlog: too big logheader") ;;
  modify (with_locked false) ;;
  sb ← readsb dev;
  modify (with_geometry (i32 (sb_logstart sb)) (i32 (sb_nlog sb)) dev) ;;
  recover_from_log.

(** Copy one modified block from the cache to the log. *)
Definition write_log_one (tail : nat) : LM unit :=
  x ← get;
  to ← blk (bread (l_dev x) (l_start x + Z.of_nat tail + 1));
  home ← array_get "log.lh.block" (l_block x) (Z.of_nat tail);
  from ← blk (bread (l_dev x) home);
  d ← blk (b_get from);
  blk (b_put to d) ;;
  blk (bwrite to) ;;
  blk (brelse from) ;;
  blk (brelse to).
Definition write_log : LM unit :=
  x ← get; for_each (seq 0 (Z.to_nat (l_n x))) write_log_one.
Definition commit : LM unit :=
  x ← get;
  when (0 <? l_n x)
    (write_log ;;
     write_head ;;
     install_trans ;;
     modify (λ x, with_lh 0 (l_block x) x) ;;
     write_head).

Definition begin_op : LM unit :=
  acquire_log ;;
  x ← get;
  if negb (l_committing x =? 0) then spin
  else if Z.of_nat LOGSIZE <? l_n x + (l_outstanding x + 1) * MAXOPBLOCKS then spin
  else modify (with_outstanding (l_outstanding x + 1)) ;; release_log.
Definition end_op : LM unit :=
  acquire_log ;;
  x ← get;
  modify (with_outstanding (l_outstanding x - 1)) ;;
  if negb (l_committing x =? 0) then panic "log.committing" else
  let do_commit := l_outstanding x - 1 =? 0 in
  when do_commit (modify (with_committing 1)) ;;
  release_log ;;
  when do_commit (commit ;; acquire_log ;; modify (with_committing 0) ;; release_log).

(** The absorption loop: the index of the block in the list, or [n]. *)
Definition absorb (n : Z) (bs : list Z) (bno : Z) : nat :=
  match find_index (Z.eqb bno) (take (Z.to_nat n) bs) with Some i => i | None => Z.to_nat n end.
Definition log_write (b : nat) : LM unit :=
  x ← get;
  if (Z.of_nat LOGSIZE <=? l_n x) || (l_size x - 1 <=? l_n x) then panic "too big a transaction" else
  if l_outstanding x <? 1 then panic "log_write outside of trans" else
  acquire_log ;;
  bno ← blk (b_number b);
  let i := absorb (l_n x) (l_block x) bno in
  modify (λ x, with_lh (if Z.of_nat i =? l_n x then l_n x + 1 else l_n x) (<[i := bno]> (l_block x)) x) ;;
  blk (b_pin b) ;;
  release_log.
End code.

(** ** Writes and the disk *)
(** The disk after a sequence of writes. *)
Definition apply_writes (W : list (nat * block)) (D : list block) : list block :=
  foldl (λ D '(j, d), <[j := d]> D) D W.
(** The view after a buffer was filled with [d] and written. *)
Definition v_copy (v : bview) (p : nat * block) : bview := v_write p.1 p.2 (v_cur <[p.1 := p.2]> v).
Definition v_copies (W : list (nat * block)) (v : bview) : bview := foldl v_copy v W.

Lemma v_copies_app W W' v : v_copies (W ++ W') v = v_copies W' (v_copies W v).
Proof. apply foldl_app. Qed.
Lemma apply_writes_app W W' D : apply_writes (W ++ W') D = apply_writes W' (apply_writes W D).
Proof. apply foldl_app. Qed.
Lemma v_copies_cur W v : bv_cur (v_copies W v) = apply_writes W (bv_cur v).
Proof. revert v. induction W as [|[j d] W IH]; intros v; simpl; [done|]. by rewrite IH. Qed.
Lemma v_copies_dsk W v : bv_dsk (v_copies W v) = apply_writes W (bv_dsk v).
Proof. revert v. induction W as [|[j d] W IH]; intros v; simpl; [done|]. by rewrite IH. Qed.
Lemma v_copies_held W v : bv_held (v_copies W v) = bv_held v.
Proof. revert v. induction W as [|[j d] W IH]; intros v; simpl; [done|]. by rewrite IH. Qed.
Lemma v_copies_writes W v : bv_writes (v_copies W v) = bv_writes v ++ W.
Proof.
  revert v. induction W as [|[j d] W IH]; intros v; simpl; [by rewrite app_nil_r|]. rewrite IH. simpl. by rewrite <- app_assoc.
Qed.
Lemma v_copies_dirty W v : bv_dirty (v_copies W v) = bv_dirty v ∖ list_to_set W.*1.
Proof.
  revert v. induction W as [|[j d] W IH]; intros v; simpl; [set_solver|]. rewrite IH. simpl. set_solver.
Qed.
Lemma apply_writes_length W D : length (apply_writes W D) = length D.
Proof. revert D. induction W as [|[j d] W IH]; intros D; simpl; [done|]. by rewrite IH, length_insert. Qed.
Lemma apply_writes_other W D j : j ∉ W.*1 → apply_writes W D !! j = D !! j.
Proof.
  revert D. induction W as [|[k d] W IH]; intros D; simpl; [done|]. intros [? ?]%not_elem_of_cons.
  rewrite IH by done. by apply list_lookup_insert_ne.
Qed.
Lemma apply_writes_in W D j d :
  NoDup W.*1 → (j, d) ∈ W → (j < length D)%nat → apply_writes W D !! j = Some d.
Proof.
  revert D. induction W as [|[k e] W IH]; intros D Hn Hin Hj; simpl in *; [by apply elem_of_nil in Hin|].
  apply NoDup_cons in Hn as [Hk Hn]. apply elem_of_cons in Hin as [[= <- <-]|Hin].
  - rewrite apply_writes_other by done. by apply list_lookup_insert_eq.
  - apply IH; [done..|]. by rewrite length_insert.
Qed.

Section specs.
Context {S : Type} `{!BlockOps S} `{!BlockDev S}.
Implicit Types x : lst S.

(** The log in state [x] over a cache with view [v]; [st] and [sz] are the first
    block and the size of the log on disk. *)
Record lrep (st sz : nat) x (v : bview) : Prop := {
  lr_blk : bd_rep (l_blk x) v;
  lr_start : l_start x = Z.of_nat st;
  lr_size : l_size x = Z.of_nat sz;
  lr_dev : l_dev x = ROOTDEV;
  lr_block : length (l_block x) = LOGSIZE;
  lr_n : 0 ≤ l_n x ≤ Z.of_nat LOGSIZE;
  lr_fits : (st + sz ≤ length (bv_dsk v))%nat;
  lr_free : l_locked x = false }.
Lemma lrep_blk st sz x v s v' :
  lrep st sz x v → bd_rep s v' → length (bv_dsk v') = length (bv_dsk v) → lrep st sz (with_blk s x) v'.
Proof. intros [] ? ?. constructor; simpl; [done..| |done]. lia. Qed.
Lemma blk_run {A} (m : M S A) a x s' : m (l_blk x) = Ok a s' → blk m x = Ok a (with_blk s' x).
Proof. intros H. exact (zoom_run blk_lens m a x s' H). Qed.

(** Reading a block while [v] is the view, in the log's state. *)
Lemma blk_bread st sz x v j b :
  lrep st sz x v → b = Z.of_nat j → (j < length (bv_dsk v))%nat → (∀ i, bv_held v !! i ≠ Some j) →
  j ∈ bv_dirty v ∨ (size (bv_held v) + size (bv_dirty v) < NBUF)%nat →
  ∃ i s', blk (bread (l_dev x) b) x = Ok i (with_blk s' x) ∧ bv_held v !! i = None ∧
          lrep st sz (with_blk s' x) (v_held <[i := j]> v).
Proof.
  intros R -> Hj Hh Hroom. destruct (bd_bread (l_blk x) v j (lr_blk _ _ _ _ R) Hj Hh Hroom) as (i & s' & H & Hi & R').
  exists i, s'. split_and!; [|done|by eapply lrep_blk]. apply blk_run. by rewrite (lr_dev _ _ _ _ R).
Qed.
Lemma blk_get st sz x v i j :
  lrep st sz x v → bv_held v !! i = Some j → ∃ d, bv_cur v !! j = Some d ∧ blk (b_get i) x = Ok d x.
Proof.
  intros R Hh. destruct (bd_get (l_blk x) v i j (lr_blk _ _ _ _ R) Hh) as (d & Hd & H). exists d. split; [done|].
  rewrite (blk_run _ _ _ _ H). by destruct x.
Qed.
Lemma blk_put st sz x v i j d :
  lrep st sz x v → bv_held v !! i = Some j → length d = BSIZE →
  ∃ s', blk (b_put i d) x = Ok tt (with_blk s' x) ∧ lrep st sz (with_blk s' x) (v_cur <[j := d]> v).
Proof.
  intros R Hh Hl. destruct (bd_put (l_blk x) v i j d (lr_blk _ _ _ _ R) Hh Hl) as (s' & H & R').
  exists s'. split; [by apply blk_run|by eapply lrep_blk].
Qed.
Lemma blk_bwrite st sz x v i j d :
  lrep st sz x v → bv_held v !! i = Some j → bv_cur v !! j = Some d →
  ∃ s', blk (bwrite i) x = Ok tt (with_blk s' x) ∧ lrep st sz (with_blk s' x) (v_write j d v).
Proof.
  intros R Hh Hd. destruct (bd_bwrite (l_blk x) v i j d (lr_blk _ _ _ _ R) Hh Hd) as (s' & H & R').
  exists s'. split; [by apply blk_run|]. eapply lrep_blk; [done..|]. simpl. by rewrite length_insert.
Qed.
Lemma blk_brelse st sz x v i j :
  lrep st sz x v → bv_held v !! i = Some j → j ∈ bv_dirty v ∨ bv_cur v !! j = bv_dsk v !! j →
  ∃ s', blk (brelse i) x = Ok tt (with_blk s' x) ∧ lrep st sz (with_blk s' x) (v_held (delete i) v).
Proof.
  intros R Hh Hc. destruct (bd_brelse (l_blk x) v i j (lr_blk _ _ _ _ R) Hh Hc) as (s' & H & R').
  exists s'. split; [by apply blk_run|by eapply lrep_blk].
Qed.

(** Two buffers held at once, and released. *)
Lemma held_two (H : gmap nat nat) i1 i2 j1 j2 :
  H !! i1 = None → <[i1 := j1]> H !! i2 = None →
  <[i2 := j2]> (<[i1 := j1]> H) !! i1 = Some j1 ∧ <[i2 := j2]> (<[i1 := j1]> H) !! i2 = Some j2 ∧
  delete i2 (<[i2 := j2]> (<[i1 := j1]> H)) = <[i1 := j1]> H ∧
  delete i1 (<[i1 := j1]> H) = H ∧
  delete i1 (<[i2 := j2]> (<[i1 := j1]> H)) = <[i2 := j2]> H ∧
  delete i2 (<[i2 := j2]> H) = H.
Proof.
  intros H1 H2. assert (i1 ≠ i2) by (intros ->; by rewrite lookup_insert_eq in H2).
  rewrite lookup_insert_ne in H2 by done.
  rewrite lookup_insert_ne, !lookup_insert_eq by done. split_and!; try done.
  - apply delete_insert_id. by rewrite lookup_insert_ne.
  - by apply delete_insert_id.
  - rewrite delete_insert_ne by done. by rewrite delete_insert_id.
  - by apply delete_insert_id.
Qed.
Lemma not_held_insert (H : gmap nat nat) i j k :
  H !! i = None → j ≠ k → (∀ i', H !! i' ≠ Some k) → ∀ i', <[i := j]> H !! i' ≠ Some k.
Proof. intros Hi Hjk Hk i'. rewrite lookup_insert_Some. intros [[_ ?]|[_ ?]]; [done|]. by apply (Hk i'). Qed.

(** Both copies of the log: block [src] is read, block [dst] is overwritten with
    it and written to the disk. *)
Definition can_copy (v : bview) (src dst : nat) : Prop :=
  bv_held v = ∅ ∧ src ≠ dst ∧ (src < length (bv_dsk v))%nat ∧ (dst < length (bv_dsk v))%nat.
Lemma write_log_one_spec st sz x v t home d :
  lrep st sz x v → can_copy v home (st + t + 1) → l_block x !! t = Some (Z.of_nat home) →
  home ∈ bv_dirty v → (size (bv_dirty v) < NBUF)%nat → bv_cur v !! home = Some d →
  ∃ s', write_log_one t x = Ok tt (with_blk s' x) ∧ lrep st sz (with_blk s' x) (v_copy v ((st + t + 1)%nat, d)).
Proof.
  intros R (Hh & Hne & Hs & Hd) Hb Hdirty Hroom Hcur. unfold write_log_one.
  destruct (blk_bread st sz x v (st + t + 1) (l_start x + Z.of_nat t + 1) R) as (i1 & s1 & H1 & Hi1 & R1);
    [rewrite (lr_start _ _ _ _ R); lia|done|by rewrite Hh|right; rewrite Hh, map_size_empty; done|].
  destruct (blk_bread st sz (with_blk s1 x) _ home (Z.of_nat home) R1) as (i2 & s2 & H2 & Hi2 & R2);
    [done|done|apply not_held_insert; [done|done|by rewrite Hh]|by left|].
  destruct (held_two (bv_held v) i1 i2 (st + t + 1) home Hi1 Hi2) as (E1 & E2 & E3 & E4 & _).
  destruct (blk_get st sz _ _ i2 home R2 E2) as (d' & Hd' & H3).
  assert (d' = d) as -> by (simpl in Hd'; congruence).
  assert (length d = BSIZE) as Hlen by (by eapply (bd_size (l_blk x) v), Hcur; apply R).
  destruct (blk_put st sz _ _ i1 (st + t + 1) d R2 E1 Hlen) as (s3 & H4 & R3).
  assert (st + t + 1 < length (bv_cur v))%nat as Hlt by (rewrite (bd_len (l_blk x) v); [done|apply R]).
  destruct (blk_bwrite st sz _ _ i1 (st + t + 1) d R3 E1) as (s4 & H5 & R4); [by apply list_lookup_insert_eq|].
  destruct (blk_brelse st sz _ _ i2 home R4 E2) as (s5 & H6 & R5); [left; simpl; set_solver|].
  assert (bv_held (v_held (delete i2) (v_write (st + t + 1) d (v_cur <[(st + t + 1)%nat := d]>
            (v_held <[i2 := home]> (v_held <[i1 := (st + t + 1)%nat]> v))))) = <[i1 := (st + t + 1)%nat]> (bv_held v)) as E5.
  { simpl. rewrite E3. done. }
  destruct (blk_brelse st sz _ _ i1 (st + t + 1) R5) as (s6 & H7 & R6).
  { rewrite E5. apply lookup_insert_eq. }
  { right. simpl. rewrite !list_lookup_insert_eq; [done|done|done]. }
  exists s6. split.
  - unfold get at 1, mbind at 1, M_bind. cbn zeta.
    rewrite (bind_run _ _ _ _ _ H1).
    rewrite (bind_run _ _ _ _ _ (array_get_ok "log.lh.block" (l_block x) (Z.of_nat t) (Z.of_nat home) (with_blk s1 x)
               ltac:(lia) ltac:(by rewrite Nat2Z.id))).
    rewrite (bind_run _ _ _ _ _ H2), (bind_run _ _ _ _ _ H3), (bind_run _ _ _ _ _ H4), (bind_run _ _ _ _ _ H5),
      (bind_run _ _ _ _ _ H6). exact H7.
  - replace (v_copy v _) with (v_held (delete i1) (v_held (delete i2) (v_write (st + t + 1) d (v_cur <[(st + t + 1)%nat := d]>
            (v_held <[i2 := home]> (v_held <[i1 := (st + t + 1)%nat]> v)))))); [exact R6|].
    unfold v_copy, v_held, v_write, v_cur. simpl. by rewrite E3, E4.
Qed.
Lemma install_one_spec st sz x v t home d :
  lrep st sz x v → can_copy v (st + t + 1) home → l_block x !! t = Some (Z.of_nat home) →
  (st + t + 1)%nat ∉ bv_dirty v → (size (bv_dirty v) < NBUF)%nat →
  home ∈ bv_dirty v ∨ (1 + size (bv_dirty v) < NBUF)%nat → bv_cur v !! (st + t + 1)%nat = Some d →
  ∃ s', install_one t x = Ok tt (with_blk s' x) ∧ lrep st sz (with_blk s' x) (v_copy v (home, d)).
Proof.
  intros R (Hh & Hne & Hs & Hd) Hb Hclean Hroom Hroom2 Hcur. unfold install_one.
  assert (bv_cur v !! (st + t + 1)%nat = bv_dsk v !! (st + t + 1)%nat) as Hdsk.
  { apply (bd_clean (l_blk x)); [apply R|done|by rewrite Hh]. }
  destruct (blk_bread st sz x v (st + t + 1) (l_start x + Z.of_nat t + 1) R) as (i1 & s1 & H1 & Hi1 & R1);
    [rewrite (lr_start _ _ _ _ R); lia|done|by rewrite Hh|right; rewrite Hh, map_size_empty; done|].
  destruct (blk_bread st sz (with_blk s1 x) _ home (Z.of_nat home) R1) as (i2 & s2 & H2 & Hi2 & R2);
    [done|done|apply not_held_insert; [done|done|by rewrite Hh]| |].
  { destruct Hroom2 as [?|?]; [by left|right]. simpl. rewrite Hh, map_size_insert_None, map_size_empty by done. lia. }
  destruct (held_two (bv_held v) i1 i2 (st + t + 1) home Hi1 Hi2) as (E1 & E2 & _ & _ & E3 & E4).
  destruct (blk_get st sz _ _ i1 (st + t + 1) R2 E1) as (d' & Hd' & H3).
  assert (d' = d) as -> by (simpl in Hd'; congruence).
  assert (length d = BSIZE) as Hlen by (by eapply (bd_size (l_blk x) v), Hcur; apply R).
  destruct (blk_put st sz _ _ i2 home d R2 E2 Hlen) as (s3 & H4 & R3).
  assert (home < length (bv_cur v))%nat as Hlt by (rewrite (bd_len (l_blk x) v); [done|apply R]).
  destruct (blk_bwrite st sz _ _ i2 home d R3 E2) as (s4 & H5 & R4); [by apply list_lookup_insert_eq|].
  destruct (blk_brelse st sz _ _ i1 (st + t + 1) R4 E1) as (s5 & H6 & R5).
  { right. simpl. by rewrite !list_lookup_insert_ne by done. }
  destruct (blk_brelse st sz _ _ i2 home R5) as (s6 & H7 & R6).
  { simpl. rewrite E3. apply lookup_insert_eq. }
  { right. simpl. rewrite !list_lookup_insert_eq; [done|done|done]. }
  exists s6. split.
  - unfold get at 1, mbind at 1, M_bind. cbn zeta.
    rewrite (bind_run _ _ _ _ _ H1).
    rewrite (bind_run _ _ _ _ _ (array_get_ok "log.lh.block" (l_block x) (Z.of_nat t) (Z.of_nat home) (with_blk s1 x)
               ltac:(lia) ltac:(by rewrite Nat2Z.id))).
    rewrite (bind_run _ _ _ _ _ H2), (bind_run _ _ _ _ _ H3), (bind_run _ _ _ _ _ H4), (bind_run _ _ _ _ _ H5),
      (bind_run _ _ _ _ _ H6). exact H7.
  - replace (v_copy v (home, d)) with (v_held (delete i2) (v_held (delete i1) (v_write home d (v_cur <[home := d]>
            (v_held <[i2 := home]> (v_held <[i1 := (st + t + 1)%nat]> v)))))); [exact R6|].
    unfold v_copy, v_held, v_write, v_cur. simpl. by rewrite E3, E4.
Qed.

(** The header is read and written in place. *)
Lemma write_head_spec st sz x v d :
  lrep st sz x v → bv_held v = ∅ → (st < length (bv_dsk v))%nat → (size (bv_dirty v) < NBUF)%nat →
  bv_cur v !! st = Some d →
  ∃ s', write_head x = Ok tt (with_blk s' x) ∧
        lrep st sz (with_blk s' x) (v_copy v (st, put_head (l_n x) (take (Z.to_nat (l_n x)) (l_block x)) d)).
Proof.
  intros R Hh Hs Hroom Hcur. unfold write_head. set (d' := put_head _ _ _).
  destruct (blk_bread st sz x v st (l_start x) R) as (i & s1 & H1 & Hi & R1);
    [apply R|done|by rewrite Hh|right; rewrite Hh, map_size_empty; done|].
  assert (bv_held (v_held <[i := st]> v) !! i = Some st) as E by apply lookup_insert_eq.
  destruct (blk_get st sz _ _ i st R1 E) as (d0 & Hd0 & H2). assert (d0 = d) as -> by (simpl in Hd0; congruence).
  assert (length d = BSIZE) as Hlen by (by eapply (bd_size (l_blk x) v), Hcur; apply R).
  assert (length d' = BSIZE) as Hlen' by (unfold d', put_head; by rewrite length_put32s, length_put32).
  destruct (blk_put st sz _ _ i st d' R1 E Hlen') as (s2 & H3 & R2).
  assert (st < length (bv_cur v))%nat as Hlt by (rewrite (bd_len (l_blk x) v); [done|apply R]).
  destruct (blk_bwrite st sz _ _ i st d' R2 E) as (s3 & H4 & R3); [by apply list_lookup_insert_eq|].
  destruct (blk_brelse st sz _ _ i st R3 E) as (s4 & H5 & R4).
  { right. simpl. rewrite !list_lookup_insert_eq; [done|done|done]. }
  exists s4. split.
  - unfold get at 1, mbind at 1, M_bind. cbn zeta.
    rewrite (bind_run _ _ _ _ _ H1), (bind_run _ _ _ _ _ H2). fold d'.
    rewrite (bind_run _ _ _ _ _ H3), (bind_run _ _ _ _ _ H4). exact H5.
  - replace (v_copy v (st, d')) with (v_held (delete i) (v_write st d' (v_cur <[st := d']> (v_held <[i := st]> v)))); [exact R4|].
    unfold v_copy, v_held, v_write, v_cur. simpl. by rewrite delete_insert_id.
Qed.
Lemma read_head_spec st sz x v d :
  lrep st sz x v → bv_held v = ∅ → (st < length (bv_dsk v))%nat → (size (bv_dirty v) < NBUF)%nat → st ∉ bv_dirty v →
  bv_cur v !! st = Some d → 0 ≤ hdr_n d ≤ Z.of_nat LOGSIZE →
  ∃ s', let x' := with_blk s' (with_lh (hdr_n d) (hdr_blocks d (Z.to_nat (hdr_n d)) ++ drop (Z.to_nat (hdr_n d)) (l_block x)) x) in
        read_head x = Ok tt x' ∧ lrep st sz x' v.
Proof.
  intros R Hh Hs Hroom Hclean Hcur Hn. unfold read_head.
  destruct (blk_bread st sz x v st (l_start x) R) as (i & s1 & H1 & Hi & R1);
    [apply R|done|by rewrite Hh|right; rewrite Hh, map_size_empty; done|].
  assert (bv_held (v_held <[i := st]> v) !! i = Some st) as E by apply lookup_insert_eq.
  destruct (blk_get st sz _ _ i st R1 E) as (d0 & Hd0 & H2). assert (d0 = d) as -> by (simpl in Hd0; congruence).
  set (x1 := with_lh (hdr_n d) (hdr_blocks d (Z.to_nat (hdr_n d)) ++ drop (Z.to_nat (hdr_n d)) (l_block x)) (with_blk s1 x)).
  assert (lrep st sz x1 (v_held <[i := st]> v)) as R2.
  { destruct R1 as [P1 P2 P3 P4 P5 P6 P7 P8]. constructor; try done. simpl.
    rewrite length_app, length_drop. unfold hdr_blocks, get32s. rewrite !length_fmap, length_seq. simpl in P5. lia. }
  destruct (blk_brelse st sz x1 _ i st R2 E) as (s2 & H3 & R3).
  { right. simpl. apply (bd_clean (l_blk x)); [apply R|done|by rewrite Hh]. }
  exists s2. simpl. split.
  - unfold get at 1, mbind at 1, M_bind. cbn zeta.
    rewrite (bind_run _ _ _ _ _ H1), (bind_run _ _ _ _ _ H2).
    rewrite (proj2 (Z.ltb_ge _ _)) by lia. rewrite (bind_run _ _ tt _ x1) by done. exact H3.
  - replace v with (v_held (delete i) (v_held <[i := st]> v)) at 1; [exact R3|].
    unfold v_held. simpl. rewrite delete_insert_id by done. by destruct v.
Qed.

(** *** The loops over a transaction *)
Definition blk_at (c : list block) (j : nat) : block := default [] (c !! j).
Definition log_writes (st : nat) (c : list block) (bl : list nat) : list (nat * block) :=
  imap (λ t b, ((st + t + 1)%nat, blk_at c b)) bl.
Definition install_writes (st : nat) (c : list block) (bl : list nat) : list (nat * block) :=
  imap (λ t b, (b, blk_at c (st + t + 1))) bl.
(** The blocks of a transaction: on the disk, outside the log, and few enough. *)
Record valid_tx (st sz len : nat) (bl : list nat) : Prop := {
  vt_range : ∀ b, b ∈ bl → (b < len)%nat ∧ (b < st ∨ st + sz ≤ b)%nat;
  vt_fits : (length bl < sz)%nat;
  vt_disk : (st + sz ≤ len)%nat }.
Definition lists_tx x (bl : list nat) : Prop :=
  l_n x = Z.of_nat (length bl) ∧ take (length bl) (l_block x) = Z.of_nat <$> bl.

Lemma lists_tx_lookup x bl t b : lists_tx x bl → bl !! t = Some b → l_block x !! t = Some (Z.of_nat b).
Proof.
  intros [_ Ht] Hb.
  assert ((Z.of_nat <$> bl) !! t = Some (Z.of_nat b)) as H by (by rewrite list_lookup_fmap, Hb).
  rewrite <- Ht in H. by apply lookup_take_Some in H as [? _].
Qed.
Lemma log_writes_keys st c bl t j d : (j, d) ∈ take t (log_writes st c bl) → ∃ k, (k < length bl)%nat ∧ j = (st + k + 1)%nat.
Proof.
  intros (k & Hk)%list_elem_of_lookup_1. apply lookup_take_Some in Hk as [Hk _]. unfold log_writes in Hk.
  rewrite list_lookup_imap in Hk. destruct (bl !! k) eqn:E; simpl in Hk; [|done]. injection Hk as <- <-.
  exists k. split; [by eapply lookup_lt_Some|done].
Qed.
Lemma log_writes_fst st c bl t j :
  j ∈ (take t (log_writes st c bl)).*1 → ∃ k, (k < length bl)%nat ∧ j = (st + k + 1)%nat.
Proof. intros ([? d] & -> & Hin)%list_elem_of_fmap. by eapply log_writes_keys. Qed.

Lemma write_log_spec st sz x v bl :
  lrep st sz x v → bv_held v = ∅ → lists_tx x bl → valid_tx st sz (length (bv_dsk v)) bl →
  (∀ b, b ∈ bl → b ∈ bv_dirty v) → (size (bv_dirty v) < NBUF)%nat →
  ∃ s', write_log x = Ok tt (with_blk s' x) ∧
        lrep st sz (with_blk s' x) (v_copies (log_writes st (bv_cur v) bl) v).
Proof.
  intros R Hh Htx Hv Hdirty Hroom. set (W := log_writes st (bv_cur v) bl).
  set (Inv := λ (rest : list nat) (y : lst S), ∃ k s', (k ≤ length bl)%nat ∧ rest = seq k (length bl - k) ∧
                y = with_blk s' x ∧ lrep st sz y (v_copies (take k W) v)).
  assert (wp (for_each (seq 0 (length bl)) write_log_one) (λ _ y, Inv [] y) x) as Hwp.
  { apply (wp_for_each write_log_one Inv).
    - intros t rest y (k & s' & Hk & Hrest & -> & Ry).
      destruct (length bl - k)%nat as [|r] eqn:Er; [done|]. simpl in Hrest. injection Hrest as -> ->.
      destruct (lookup_lt_is_Some_2 bl k) as [b Hb]; [lia|].
      assert (b ∈ bl) as Hbin by (by eapply list_elem_of_lookup_2).
      destruct (vt_range _ _ _ _ Hv b Hbin) as [Hblt Hbout].
      assert (b ∉ (take k W).*1) as Hbk by (intros (k' & ? & ->)%log_writes_fst; pose proof (vt_fits _ _ _ _ Hv); lia).
      assert (is_Some (bv_cur v !! b)) as [d Hd].
      { apply lookup_lt_is_Some_2. by rewrite (bd_len (l_blk x) v) by apply R. }
      destruct (write_log_one_spec st sz (with_blk s' x) (v_copies (take k W) v) k b d Ry) as (s2 & Hs2 & R2).
      + split_and!; [by rewrite v_copies_held|pose proof (vt_fits _ _ _ _ Hv); lia|..];
          rewrite v_copies_dsk, apply_writes_length; [done|]. pose proof (vt_fits _ _ _ _ Hv); pose proof (vt_disk _ _ _ _ Hv); lia.
      + by apply lists_tx_lookup with bl.
      + rewrite v_copies_dirty. apply elem_of_difference. split; [by apply Hdirty|]. by rewrite elem_of_list_to_set.
      + rewrite v_copies_dirty. eapply Nat.le_lt_trans; [|exact Hroom]. apply subseteq_size. set_solver.
      + rewrite v_copies_cur. by rewrite apply_writes_other.
      + apply wp_ok. exists tt, (with_blk s2 x). split; [exact Hs2|]. exists (Datatypes.S k), s2.
        split_and!; [lia|f_equal; lia|done|].
        rewrite (take_S_r W k (((st + k + 1)%nat, d))), v_copies_app; [exact R2|].
        unfold W, log_writes. rewrite list_lookup_imap, Hb. simpl. unfold blk_at. by rewrite Hd.
    - exists 0%nat, (l_blk x). split_and!; [lia|f_equal; lia|by destruct x|]. by destruct x. }
  apply wp_ok in Hwp as ([] & y & Hy & k & s' & Hk & Hrest & -> & Ry).
  exists s'. split.
  - unfold write_log, get, mbind, M_bind. by rewrite (proj1 Htx), Nat2Z.id.
  - rewrite take_ge in Ry; [exact Ry|]. unfold W, log_writes. rewrite length_imap.
    destruct (length bl - k)%nat eqn:E; [lia|done].
Qed.

Lemma install_writes_fst st c bl : (install_writes st c bl).*1 = bl.
Proof.
  unfold install_writes. apply list_eq. intros k. rewrite list_lookup_fmap, list_lookup_imap. by destruct (bl !! k).
Qed.
Lemma install_trans_spec st sz x v bl :
  lrep st sz x v → bv_held v = ∅ → lists_tx x bl → valid_tx st sz (length (bv_dsk v)) bl →
  (∀ t, (t < length bl)%nat → (st + t + 1)%nat ∉ bv_dirty v) → (size (bv_dirty v) < NBUF)%nat →
  (NoDup bl ∧ ∀ b, b ∈ bl → b ∈ bv_dirty v) ∨ (1 + size (bv_dirty v) < NBUF)%nat →
  ∃ s', install_trans x = Ok tt (with_blk s' x) ∧
        lrep st sz (with_blk s' x) (v_copies (install_writes st (bv_cur v) bl) v).
Proof.
  intros R Hh Htx Hv Hclean Hroom Hroom2. set (W := install_writes st (bv_cur v) bl).
  assert (∀ k, (take k W).*1 = take k bl) as HW by (intros k; by rewrite fmap_take; unfold W; rewrite install_writes_fst).
  set (Inv := λ (rest : list nat) (y : lst S), ∃ k s', (k ≤ length bl)%nat ∧ rest = seq k (length bl - k) ∧
                y = with_blk s' x ∧ lrep st sz y (v_copies (take k W) v)).
  assert (wp (for_each (seq 0 (length bl)) install_one) (λ _ y, Inv [] y) x) as Hwp.
  { apply (wp_for_each install_one Inv).
    - intros t rest y (k & s' & Hk & Hrest & -> & Ry).
      destruct (length bl - k)%nat as [|r] eqn:Er; [done|]. simpl in Hrest. injection Hrest as -> ->.
      destruct (lookup_lt_is_Some_2 bl k) as [b Hb]; [lia|].
      assert (b ∈ bl) as Hbin by (by eapply list_elem_of_lookup_2).
      destruct (vt_range _ _ _ _ Hv b Hbin) as [Hblt Hbout].
      pose proof (vt_fits _ _ _ _ Hv). pose proof (vt_disk _ _ _ _ Hv).
      assert ((st + k + 1)%nat ∉ (take k W).*1) as Hlk.
      { rewrite HW. intros Hin. assert (st + k + 1 ∈ bl)%nat as Hin2.
        { rewrite <- (take_drop k bl). apply elem_of_app. by left. }
        destruct (vt_range _ _ _ _ Hv _ Hin2). lia. }
      assert (is_Some (bv_cur v !! (st + k + 1)%nat)) as [d Hd].
      { apply lookup_lt_is_Some_2. rewrite (bd_len (l_blk x) v) by apply R. lia. }
      destruct (install_one_spec st sz (with_blk s' x) (v_copies (take k W) v) k b d Ry) as (s2 & Hs2 & R2).
      + split_and!; [by rewrite v_copies_held|lia|..]; rewrite v_copies_dsk, apply_writes_length; lia.
      + by apply lists_tx_lookup with bl.
      + rewrite v_copies_dirty. specialize (Hclean k). intros [? _]%elem_of_difference. apply Hclean; [lia|done].
      + rewrite v_copies_dirty. eapply Nat.le_lt_trans; [|exact Hroom]. apply subseteq_size. set_solver.
      + rewrite v_copies_dirty, HW. destruct Hroom2 as [[Hnd Hd']|Hroom2]; [left|right].
        * apply elem_of_difference. split; [by apply Hd'|]. rewrite elem_of_list_to_set. intros (k' & Hk')%list_elem_of_lookup_1.
          apply lookup_take_Some in Hk' as [Hk' ?]. assert (k' = k) by (by eapply NoDup_lookup). lia.
        * eapply Nat.le_lt_trans; [|exact Hroom2]. apply le_n_S, subseteq_size. set_solver.
      + rewrite v_copies_cur. by rewrite apply_writes_other.
      + apply wp_ok. exists tt, (with_blk s2 x). split; [exact Hs2|]. exists (Datatypes.S k), s2.
        split_and!; [lia|f_equal; lia|done|].
        rewrite (take_S_r W k (b, d)), v_copies_app; [exact R2|].
        unfold W, install_writes. rewrite list_lookup_imap, Hb. simpl. unfold blk_at. by rewrite Hd.
    - exists 0%nat, (l_blk x). split_and!; [lia|f_equal; lia|by destruct x|]. by destruct x. }
  apply wp_ok in Hwp as ([] & y & Hy & k & s' & Hk & Hrest & -> & Ry).
  exists s'. split.
  - unfold install_trans, get, mbind, M_bind. by rewrite (proj1 Htx), Nat2Z.id.
  - rewrite take_ge in Ry; [exact Ry|]. unfold W, install_writes. rewrite length_imap.
    destruct (length bl - k)%nat eqn:E; [lia|done].
Qed.
End specs.

(** ** Recovery and crashes, on the contents of the disk *)
Definition hdr_list (st : nat) (D : list block) : list nat :=
  let h := blk_at D st in Z.to_nat <$> hdr_blocks h (Z.to_nat (hdr_n h)).
(** The writes of recover_from_log, and the disk they leave. *)
Definition recovery_writes (st : nat) (D : list block) : list (nat * block) :=
  install_writes st D (hdr_list st D) ++ [(st, put_head 0 [] (blk_at D st))].
Definition recovered (st : nat) (D : list block) : list block := apply_writes (recovery_writes st D) D.
(** A log that recovery can read. *)
Record recoverable (st sz : nat) (D : list block) : Prop := {
  rc_n : 0 ≤ hdr_n (blk_at D st) ≤ Z.of_nat LOGSIZE;
  rc_blocks : Forall (λ b, 0 ≤ b) (hdr_blocks (blk_at D st) (Z.to_nat (hdr_n (blk_at D st))));
  rc_valid : valid_tx st sz (length D) (hdr_list st D);
  rc_nodup : NoDup (hdr_list st D) }.
(** Two disks with the same contents outside the log. *)
Definition same_data (st sz : nat) (A B : list block) : Prop :=
  ∀ j, (j < st ∨ st + sz ≤ j)%nat → A !! j = B !! j.
#[global] Instance same_data_equiv st sz : Equivalence (same_data st sz).
Proof.
  split.
  - by intros D j _.
  - intros A B H j Hj. symmetry. by apply H.
  - intros A B C H1 H2 j Hj. rewrite H1 by done. by apply H2.
Qed.

Section run.
Context {S : Type} `{!BlockOps S} `{!BlockDev S}.
Implicit Types x : lst S.
Lemma hdr_list_length st D : length (hdr_list st D) = Z.to_nat (hdr_n (blk_at D st)).
Proof. unfold hdr_list, hdr_blocks, get32s. by rewrite !length_fmap, length_seq. Qed.
Lemma lrep_lh st sz x v n : lrep st sz x v → 0 ≤ n ≤ Z.of_nat LOGSIZE → lrep st sz (with_lh n (l_block x) x) v.
Proof. intros [] ?. by constructor. Qed.

Lemma recover_spec st sz x v D :
  lrep st sz x v → bv_cur v = D → bv_dsk v = D → bv_held v = ∅ → bv_dirty v = ∅ → recoverable st sz D →
  ∃ x', recover_from_log x = Ok tt x' ∧ lrep st sz x' (v_copies (recovery_writes st D) v) ∧ l_n x' = 0.
Proof.
  intros R Hc Hd Hh Hdi [Hn Hb Hv Hnd]. set (h := blk_at D st) in *. set (bl := hdr_list st D) in *.
  pose proof (vt_disk _ _ _ _ Hv). pose proof (vt_fits _ _ _ _ Hv).
  assert (st < length D)%nat as Hst by lia.
  assert (D !! st = Some h) as Hh0.
  { unfold h, blk_at. destruct (lookup_lt_is_Some_2 D st Hst) as [d Hd0]. by rewrite Hd0. }
  assert (size (bv_dirty v) < NBUF)%nat as Hroom by (rewrite Hdi, size_empty; unfold NBUF; lia).
  destruct (read_head_spec st sz x v h R Hh) as (s1 & H1 & R1); [by rewrite Hd|done|by rewrite Hdi; set_solver|by rewrite Hc|done|].
  set (x1 := with_blk s1 _) in *.
  assert (lists_tx x1 bl) as Htx.
  { split; [simpl; unfold bl; rewrite hdr_list_length; fold h; lia|]. simpl.
    rewrite take_app_le by (unfold hdr_blocks, get32s, bl; rewrite hdr_list_length, !length_fmap, length_seq; fold h; lia).
    rewrite take_ge by (unfold hdr_blocks, get32s, bl; rewrite hdr_list_length, !length_fmap, length_seq; fold h; lia).
    unfold bl, hdr_list. fold h. rewrite <- list_fmap_compose. rewrite <- (list_fmap_id (hdr_blocks _ _)) at 1.
    apply list_fmap_ext. intros i b Hib. simpl. pose proof (Forall_lookup_1 _ _ _ _ Hb Hib). simpl in *. lia. }
  destruct (install_trans_spec st sz x1 v bl R1 Hh Htx) as (s2 & H2 & R2);
    [by rewrite Hd|intros; rewrite Hdi; set_solver|done|right; rewrite Hdi, size_empty; unfold NBUF; lia|].
  rewrite Hc in R2. set (W := install_writes st D bl) in *.
  pose proof (lrep_lh st sz _ _ 0 R2 ltac:(lia)) as R3. set (x3 := with_lh 0 _ _) in *.
  assert (st ∉ W.*1) as Hst2.
  { unfold W. rewrite install_writes_fst. intros Hin. destruct (vt_range _ _ _ _ Hv _ Hin). lia. }
  destruct (write_head_spec st sz x3 (v_copies W v) h R3) as (s4 & H4 & R4).
  - by rewrite v_copies_held.
  - by rewrite v_copies_dsk, apply_writes_length, Hd.
  - rewrite v_copies_dirty, Hdi. eapply Nat.le_lt_trans; [apply (subseteq_size _ ∅); set_solver|]. rewrite size_empty. unfold NBUF. lia.
  - by rewrite v_copies_cur, Hc, apply_writes_other.
  - exists (with_blk s4 x3). split.
    + unfold recover_from_log. rewrite (bind_run _ _ _ _ _ H1), (bind_run _ _ _ _ _ H2).
      rewrite (bind_run _ _ tt _ x3) by done. exact H4.
    + split; [|done]. unfold recovery_writes. rewrite v_copies_app. exact R4.
Qed.

(** The four phases of commit as disk writes. *)
Definition home_writes (c : list block) (bl : list nat) : list (nat * block) := (λ b, (b, blk_at c b)) <$> bl.
Definition head_of (bl : list nat) (h : block) : block := put_head (Z.of_nat (length bl)) (Z.of_nat <$> bl) h.
Definition commit_writes (st : nat) (c : list block) (bl : list nat) (h : block) : list (nat * block) :=
  log_writes st c bl ++ [(st, head_of bl h)] ++ home_writes c bl ++ [(st, put_head 0 [] (head_of bl h))].

Lemma log_writes_all st c bl : log_writes st c bl = take (length bl) (log_writes st c bl).
Proof. rewrite take_ge; [done|]. unfold log_writes. by rewrite length_imap. Qed.
Lemma log_writes_nodup st c bl : NoDup (log_writes st c bl).*1.
Proof.
  unfold log_writes. apply NoDup_alt. intros i j k. rewrite !list_lookup_fmap, !list_lookup_imap.
  destruct (bl !! i), (bl !! j); simpl; try done. intros [= <-] [= ?]. lia.
Qed.
Lemma log_writes_at st c bl D t b :
  bl !! t = Some b → (st + length bl < length D)%nat →
  apply_writes (log_writes st c bl) D !! (st + t + 1)%nat = Some (blk_at c b).
Proof.
  intros Ht Hl. apply lookup_lt_Some in Ht as Htl. apply apply_writes_in; [apply log_writes_nodup| |lia].
  apply list_elem_of_lookup. exists t. unfold log_writes. by rewrite list_lookup_imap, Ht.
Qed.
Lemma log_writes_notin st sz c bl len j :
  valid_tx st sz len bl → (j ≤ st ∨ st + sz ≤ j)%nat → j ∉ (log_writes st c bl).*1.
Proof.
  intros Hv Hj. rewrite log_writes_all. intros (k & ? & ->)%log_writes_fst. pose proof (vt_fits _ _ _ _ Hv). lia.
Qed.

(** Installing after the log was written copies the blocks of the transaction home. *)
Lemma install_home st c bl d :
  (st + length bl < length c)%nat → install_writes st (<[st := d]> (apply_writes (log_writes st c bl) c)) bl = home_writes c bl.
Proof.
  intros Hc. unfold install_writes, home_writes. apply list_eq. intros t. rewrite list_lookup_imap, list_lookup_fmap.
  destruct (bl !! t) as [b|] eqn:Hb; simpl; [|done]. do 2 f_equal. unfold blk_at at 1. rewrite list_lookup_insert_ne by lia.
  by rewrite (log_writes_at _ _ _ _ t b).
Qed.
Lemma home_writes_keys c bl : (home_writes c bl).*1 = bl.
Proof. unfold home_writes. rewrite <- list_fmap_compose. apply list_fmap_id. Qed.
Lemma commit_spec st sz x v bl h :
  lrep st sz x v → bv_held v = ∅ → lists_tx x bl → valid_tx st sz (length (bv_dsk v)) bl → NoDup bl → bl ≠ [] →
  bv_dirty v = list_to_set bl → (length bl < NBUF)%nat → bv_cur v !! st = Some h →
  ∃ x', commit x = Ok tt x' ∧ lrep st sz x' (v_copies (commit_writes st (bv_cur v) bl h) v) ∧ l_n x' = 0.
Proof.
  intros R Hh Htx Hv Hnd Hne Hdi Hlen Hhd. set (c := bv_cur v).
  pose proof (vt_disk _ _ _ _ Hv) as Hdisk. pose proof (vt_fits _ _ _ _ Hv) as Hfits.
  assert (length c = length (bv_dsk v)) as Hcl by (apply (bd_len (l_blk x)), R).
  assert (size (bv_dirty v) = length bl) as Hsz by (rewrite Hdi; by apply size_list_to_set).
  destruct (write_log_spec st sz x v bl R Hh Htx Hv) as (s1 & H1 & R1);
    [intros b Hb; rewrite Hdi; by rewrite elem_of_list_to_set|lia|].
  fold c in R1. set (W1 := log_writes st c bl) in *. set (v1 := v_copies W1 v) in *.
  assert (bv_dirty v1 = bv_dirty v) as Hd1.
  { unfold v1. rewrite v_copies_dirty, Hdi. apply set_eq. intros b. rewrite elem_of_difference, !elem_of_list_to_set.
    split; [by intros [? _]|]. intros Hb. split; [done|]. eapply log_writes_notin; [done|].
    destruct (vt_range _ _ _ _ Hv b Hb). lia. }
  destruct (write_head_spec st sz _ v1 h R1) as (s2 & H2 & R2);
    [by unfold v1; rewrite v_copies_held|unfold v1; rewrite v_copies_dsk, apply_writes_length; lia|rewrite Hd1; lia| |].
  { unfold v1. rewrite v_copies_cur. rewrite apply_writes_other; [done|]. eapply log_writes_notin; [done|lia]. }
  simpl l_n in R2. simpl l_block in R2. rewrite (proj1 Htx), Nat2Z.id, (proj2 Htx) in R2. fold (head_of bl h) in R2.
  set (v2 := v_copy v1 (st, head_of bl h)) in *.
  assert (bv_dirty v2 = bv_dirty v) as Hd2.
  { unfold v2. simpl. rewrite Hd1, Hdi. apply set_eq. intros b.
    rewrite elem_of_difference, elem_of_singleton, elem_of_list_to_set. split; [by intros [? _]|].
    intros Hb. split; [done|]. intros ->. destruct (vt_range _ _ _ _ Hv st Hb). lia. }
  destruct (install_trans_spec st sz _ v2 bl R2) as (s3 & H3 & R3).
  - unfold v2, v1. simpl. by rewrite v_copies_held.
  - done.
  - unfold v2, v1. simpl. by rewrite length_insert, v_copies_dsk, apply_writes_length.
  - intros t Ht. rewrite Hd2, Hdi, elem_of_list_to_set. intros Hb. destruct (vt_range _ _ _ _ Hv _ Hb). lia.
  - rewrite Hd2. lia.
  - left. split; [done|]. intros b Hb. rewrite Hd2, Hdi. by rewrite elem_of_list_to_set.
  - assert (install_writes st (bv_cur v2) bl = home_writes c bl) as Hhome.
    { unfold v2, v1. simpl. rewrite v_copies_cur. unfold W1, c. apply install_home. fold c. lia. }
    rewrite Hhome in R3. set (v3 := v_copies (home_writes c bl) v2) in *.
    pose proof (lrep_lh st sz _ _ 0 R3 ltac:(lia)) as R4. set (x4 := with_lh 0 _ _) in *.
    destruct (write_head_spec st sz x4 v3 (head_of bl h) R4) as (s5 & H5 & R5).
    + unfold v3, v2, v1. rewrite v_copies_held. simpl. by rewrite v_copies_held.
    + unfold v3, v2, v1. rewrite v_copies_dsk, apply_writes_length. simpl. rewrite length_insert, v_copies_dsk, apply_writes_length. lia.
    + unfold v3. rewrite v_copies_dirty, Hd2. eapply Nat.le_lt_trans; [apply (subseteq_size _ (bv_dirty v)); set_solver|]. lia.
    + unfold v3. rewrite v_copies_cur, apply_writes_other.
      * unfold v2, v1. simpl. apply list_lookup_insert_eq. rewrite v_copies_cur, apply_writes_length. fold c. lia.
      * rewrite home_writes_keys. intros Hin. destruct (vt_range _ _ _ _ Hv _ Hin). lia.
    + exists (with_blk s5 x4). split_and!; [|by unfold commit_writes; rewrite !v_copies_app|done].
      unfold commit, get, mbind at 1, M_bind at 1. rewrite (proj1 Htx).
      destruct bl as [|b0 bl']; [done|]. simpl when.
      rewrite (bind_run _ _ _ _ _ H1), (bind_run _ _ _ _ _ H2), (bind_run _ _ _ _ _ H3).
      rewrite (bind_run _ _ tt _ x4) by done. exact H5.
Qed.
End run.

(** *** The header on disk *)
Lemma hdr_n_put n bs d : length d = BSIZE → 0 ≤ n < 2 ^ 31 → hdr_n (put_head n bs d) = n.
Proof.
  intros Hl Hn. unfold hdr_n, put_head. rewrite put32s_before by lia. rewrite get32_put32 by (rewrite Hl; unfold BSIZE; lia).
  rewrite i32_u32. by apply i32_small; lia.
Qed.
Lemma hdr_blocks_put n bs d :
  length d = BSIZE → (length bs ≤ LOGSIZE)%nat → Forall (λ b, 0 ≤ b < 2 ^ 31) bs → hdr_blocks (put_head n bs d) (length bs) = bs.
Proof.
  intros Hl Hn Hb. unfold hdr_blocks, put_head. rewrite get32s_put32s by (rewrite length_put32, Hl; unfold BSIZE, LOGSIZE in *; lia).
  rewrite <- list_fmap_compose. rewrite <- (list_fmap_id bs) at 2. apply list_fmap_ext. intros i b Hi. simpl.
  rewrite i32_u32. pose proof (Forall_lookup_1 _ _ _ _ Hb Hi). simpl in *. apply i32_small. lia.
Qed.
Lemma hdr_list_head st D bl h :
  blk_at D st = head_of bl h → length h = BSIZE → (length bl ≤ LOGSIZE)%nat → Forall (λ b, Z.of_nat b < 2 ^ 31) bl →
  hdr_n (blk_at D st) = Z.of_nat (length bl) ∧ hdr_list st D = bl.
Proof.
  intros Hd Hl Hn Hb. assert (hdr_n (blk_at D st) = Z.of_nat (length bl)) as Hhn.
  { rewrite Hd. unfold head_of. apply hdr_n_put; [done|]. unfold LOGSIZE in *. lia. }
  split; [done|]. unfold hdr_list. rewrite Hhn, Nat2Z.id, Hd. unfold head_of.
  pose proof (hdr_blocks_put (Z.of_nat (length bl)) (Z.of_nat <$> bl) h) as E. rewrite length_fmap in E. rewrite E; [|done|done|].
  - rewrite <- list_fmap_compose. rewrite <- (list_fmap_id bl) at 2. apply list_fmap_ext. intros i b _. simpl. lia.
  - apply Forall_fmap. eapply Forall_impl; [exact Hb|]. intros b. simpl. lia.
Qed.
Lemma hdr_list_empty st D : hdr_n (blk_at D st) = 0 → hdr_list st D = [].
Proof. intros H. unfold hdr_list. by rewrite H. Qed.

(** *** What recovery leaves outside the log *)
Lemma recovered_other st D j :
  j ≠ st → j ∉ hdr_list st D → recovered st D !! j = D !! j.
Proof.
  intros Hj Hn. unfold recovered, recovery_writes. rewrite apply_writes_app. simpl.
  rewrite list_lookup_insert_ne by done. apply apply_writes_other. by rewrite install_writes_fst.
Qed.
Lemma recovered_logged st sz D t b :
  recoverable st sz D → hdr_list st D !! t = Some b → recovered st D !! b = D !! (st + t + 1)%nat.
Proof.
  intros [_ _ Hv Hnd] Ht. assert (b ∈ hdr_list st D) as Hb by (by eapply list_elem_of_lookup_2).
  pose proof (vt_range _ _ _ _ Hv b Hb) as [Hlt Hout]. pose proof (vt_fits _ _ _ _ Hv). pose proof (vt_disk _ _ _ _ Hv).
  apply lookup_lt_Some in Ht as Htl.
  unfold recovered, recovery_writes. rewrite apply_writes_app. simpl. rewrite list_lookup_insert_ne by lia.
  destruct (lookup_lt_is_Some_2 D (st + t + 1)%nat) as [d Hd]; [lia|]. rewrite Hd.
  apply apply_writes_in; [by rewrite install_writes_fst| |done].
  apply list_elem_of_lookup. exists t. unfold install_writes. rewrite list_lookup_imap, Ht. simpl. unfold blk_at. by rewrite Hd.
Qed.
(** Recovery depends only on the log and the data it does not overwrite. *)
Lemma recovered_same st sz D D' :
  recoverable st sz D → hdr_list st D' = hdr_list st D →
  (∀ t, (t < length (hdr_list st D))%nat → D' !! (st + t + 1)%nat = D !! (st + t + 1)%nat) → length D' = length D →
  hdr_n (blk_at D' st) = hdr_n (blk_at D st) →
  Forall (λ b, 0 ≤ b) (hdr_blocks (blk_at D' st) (Z.to_nat (hdr_n (blk_at D' st)))) →
  (∀ j, (j < st ∨ st + sz ≤ j)%nat → j ∉ hdr_list st D → D' !! j = D !! j) →
  recoverable st sz D' ∧ same_data st sz (recovered st D') (recovered st D).
Proof.
  intros R Hl Ht Hlen Hn Hpos Hoth.
  assert (recoverable st sz D') as R'.
  { destruct R as [H1 H2 H3 H4]. constructor; [by rewrite Hn|done|by rewrite Hl, Hlen|by rewrite Hl]. }
  split; [done|]. intros j Hj. pose proof (vt_fits _ _ _ _ (rc_valid _ _ _ R)).
  destruct (decide (j ∈ hdr_list st D)) as [Hin|Hin].
  - apply list_elem_of_lookup_1 in Hin as [t Hjt]. apply lookup_lt_Some in Hjt as Htl.
    rewrite (recovered_logged st sz D t j R Hjt). rewrite <- Hl in Hjt.
    rewrite (recovered_logged st sz D' t j R' Hjt). by apply Ht.
  - rewrite !recovered_other; [by apply Hoth|lia|done|lia|by rewrite Hl].
Qed.

(** An empty log: recovery changes nothing outside it. *)
Lemma recovered_empty st sz D :
  hdr_n (blk_at D st) = 0 → (0 < sz)%nat → (st + sz ≤ length D)%nat →
  recoverable st sz D ∧ same_data st sz (recovered st D) D.
Proof.
  intros Hn Hsz Hl. pose proof (hdr_list_empty st D Hn) as He. split.
  - constructor; [rewrite Hn; lia|by rewrite Hn| |rewrite He; constructor].
    rewrite He. constructor; [intros b Hb; by apply elem_of_nil in Hb|simpl; lia|done].
  - intros j Hj. apply recovered_other; [lia|]. rewrite He. by intros ?%elem_of_nil.
Qed.
Lemma blk_at_lookup D j d : D !! j = Some d → blk_at D j = d.
Proof. unfold blk_at. by intros ->. Qed.
Lemma blk_at_other W D j : j ∉ W.*1 → blk_at (apply_writes W D) j = blk_at D j.
Proof. intros H. unfold blk_at. by rewrite apply_writes_other. Qed.

Lemma crash_recovery st sz D k :
  recoverable st sz D → length (blk_at D st) = BSIZE →
  let D' := apply_writes (take k (recovery_writes st D)) D in
  recoverable st sz D' ∧ same_data st sz (recovered st D') (recovered st D).
Proof.
  intros R Hb D'. pose proof (rc_valid _ _ _ R) as Hv. pose proof (vt_fits _ _ _ _ Hv). pose proof (vt_disk _ _ _ _ Hv).
  set (I := install_writes st D (hdr_list st D)) in *.
  assert (I.*1 = hdr_list st D) as HI by apply install_writes_fst.
  assert (∀ j, (st ≤ j < st + sz)%nat → j ∉ hdr_list st D) as Hlog.
  { intros j Hj Hin. destruct (vt_range _ _ _ _ Hv j Hin). lia. }
  destruct (decide (k ≤ length I)%nat) as [Hk|Hk].
  - assert (D' = apply_writes (take k I) D) as HD.
    { unfold D', recovery_writes. fold I. by rewrite take_app_le. }
    assert (∀ j, j ∉ hdr_list st D → D' !! j = D !! j) as Hsame.
    { intros j Hj. rewrite HD. apply apply_writes_other. rewrite fmap_take, HI. intros Hin. apply Hj.
      rewrite <- (take_drop k (hdr_list st D)). apply elem_of_app. by left. }
    assert (blk_at D' st = blk_at D st) as Hst by (unfold blk_at; rewrite Hsame; [done|apply Hlog; lia]).
    apply recovered_same; try done.
    + unfold hdr_list. by rewrite Hst.
    + intros t Ht. apply Hsame, Hlog. lia.
    + rewrite HD. apply apply_writes_length.
    + by rewrite Hst.
    + rewrite Hst. apply R.
    + intros j _. apply Hsame.
  - assert (D' = recovered st D) as HD.
    { unfold D', recovered. f_equal. apply take_ge. unfold recovery_writes. rewrite length_app. fold I. simpl. lia. }
    rewrite HD. apply recovered_empty; [|lia|].
    + assert (recovered st D !! st = Some (put_head 0 [] (blk_at D st))) as Hs.
      { unfold recovered, recovery_writes. rewrite apply_writes_app. simpl. apply list_lookup_insert_eq.
        rewrite apply_writes_length. lia. }
      rewrite (blk_at_lookup _ _ _ Hs). apply hdr_n_put; [done|lia].
    + unfold recovered. by rewrite apply_writes_length.
Qed.

(** The disk when a transaction starts to commit: the log is empty and the cache
    differs from the disk only in the blocks of the transaction. *)
Record tx_start (st sz : nat) (D c : list block) (bl : list nat) : Prop := {
  ts_valid : valid_tx st sz (length D) bl;
  ts_nodup : NoDup bl;
  ts_few : (length bl ≤ LOGSIZE)%nat;
  ts_small : Forall (λ b, Z.of_nat b < 2 ^ 31) bl;
  ts_empty : hdr_n (blk_at D st) = 0;
  ts_head : length (blk_at D st) = BSIZE;
  ts_len : length c = length D;
  ts_same : ∀ j, j ∉ bl → c !! j = D !! j }.
Section crash.
Context (st sz : nat) (D c : list block) (bl : list nat) (T : tx_start st sz D c bl).
Abbreviation h := (blk_at D st).
Abbreviation W := (commit_writes st c bl h).

Lemma tx_sizes : (st + sz ≤ length D)%nat ∧ (length bl < sz)%nat.
Proof using T. destruct T as [[]]. done. Qed.
Lemma tx_out j : (j ≤ st ∨ st + sz ≤ j)%nat → j ∉ (log_writes st c bl).*1.
Proof using T. eapply log_writes_notin, T. Qed.
Lemma tx_log j : (st ≤ j < st + sz)%nat → j ∉ bl.
Proof using T. intros Hj Hin. destruct (vt_range _ _ _ _ (ts_valid _ _ _ _ _ T) j Hin). lia. Qed.

(** Before the header is written the old contents are recovered. *)
Lemma crash_before k :
  (k ≤ length bl)%nat →
  let D' := apply_writes (take k W) D in
  recoverable st sz D' ∧ same_data st sz (recovered st D') D.
Proof using T.
  intros Hk D'. destruct tx_sizes as [Hd Hs].
  assert (D' = apply_writes (take k (log_writes st c bl)) D) as HD.
  { unfold D', commit_writes. rewrite take_app_le; [done|]. unfold log_writes. by rewrite length_imap. }
  assert (∀ j, (j ≤ st ∨ st + sz ≤ j)%nat → D' !! j = D !! j) as Hsame.
  { intros j Hj. rewrite HD. apply apply_writes_other. intros (k' & ? & ->)%log_writes_fst. lia. }
  destruct (recovered_empty st sz D') as [R Hr].
  - unfold blk_at. rewrite Hsame by lia. apply (ts_empty _ _ _ _ _ T).
  - lia.
  - rewrite HD, apply_writes_length. lia.
  - split; [done|]. etransitivity; [exact Hr|]. intros j Hj. apply Hsame. lia.
Qed.
(** Afterwards the new contents are. *)
Lemma crash_during k :
  (k ≤ length bl)%nat →
  let D' := apply_writes (log_writes st c bl ++ [(st, head_of bl h)] ++ take k (home_writes c bl)) D in
  recoverable st sz D' ∧ same_data st sz (recovered st D') c.
Proof using T.
  intros Hk D'. destruct tx_sizes as [Hd Hs].
  set (D1 := <[st := head_of bl h]> (apply_writes (log_writes st c bl) D)).
  assert (D' = apply_writes (take k (home_writes c bl)) D1) as HD.
  { unfold D'. by rewrite !apply_writes_app. }
  assert (length D1 = length D) as HL by (unfold D1; by rewrite length_insert, apply_writes_length).
  assert (∀ j, j ∉ bl → D' !! j = D1 !! j) as Hsame.
  { intros j Hj. rewrite HD. apply apply_writes_other. rewrite fmap_take, home_writes_keys. intros Hin. apply Hj.
    rewrite <- (take_drop k bl). apply elem_of_app. by left. }
  assert (blk_at D' st = head_of bl h) as Hst.
  { apply blk_at_lookup. rewrite Hsame by (apply tx_log; lia). unfold D1. apply list_lookup_insert_eq.
    rewrite apply_writes_length. lia. }
  destruct (hdr_list_head st D' bl h Hst (ts_head _ _ _ _ _ T) (ts_few _ _ _ _ _ T) (ts_small _ _ _ _ _ T)) as [Hn Hl].
  assert (recoverable st sz D') as R.
  { constructor.
    - rewrite Hn. pose proof (ts_few _ _ _ _ _ T). lia.
    - rewrite Hn, Nat2Z.id, Hst. unfold head_of.
      pose proof (hdr_blocks_put (Z.of_nat (length bl)) (Z.of_nat <$> bl) h) as E. rewrite length_fmap in E.
      rewrite E; [|apply T|apply T|].
      + apply Forall_fmap, Forall_true. intros b. simpl. lia.
      + apply Forall_fmap. eapply Forall_impl; [apply (ts_small _ _ _ _ _ T)|]. intros b. simpl. lia.
    - rewrite Hl, HD, apply_writes_length, HL. apply T.
    - rewrite Hl. apply T. }
  split; [done|]. intros j Hj. destruct (decide (j ∈ bl)) as [Hin|Hin].
  - apply list_elem_of_lookup_1 in Hin as [t Ht]. rewrite <- Hl in Ht.
    rewrite (recovered_logged st sz D' t j R Ht). rewrite Hl in Ht. apply lookup_lt_Some in Ht as Htl.
    rewrite Hsame by (apply tx_log; lia). unfold D1. rewrite list_lookup_insert_ne by lia.
    rewrite (log_writes_at st c bl D t j Ht) by lia. unfold blk_at.
    destruct (lookup_lt_is_Some_2 c j) as [d Hdj]; [|by rewrite Hdj].
    rewrite (ts_len _ _ _ _ _ T). apply list_elem_of_lookup_2 in Ht.
    by destruct (vt_range _ _ _ _ (ts_valid _ _ _ _ _ T) j Ht).
  - rewrite recovered_other; [|lia|by rewrite Hl]. rewrite Hsame by done. unfold D1.
    rewrite list_lookup_insert_ne by lia. rewrite apply_writes_other by (apply tx_out; lia).
    symmetry. by apply (ts_same _ _ _ _ _ T).
Qed.
Lemma crash_end :
  let D' := apply_writes W D in
  recoverable st sz D' ∧ same_data st sz (recovered st D') c ∧ same_data st sz D' c.
Proof using T.
  intros D'. destruct tx_sizes as [Hd Hs].
  set (D1 := apply_writes (log_writes st c bl ++ [(st, head_of bl h)] ++ home_writes c bl) D).
  assert (D' = <[st := put_head 0 [] (head_of bl h)]> D1) as HD.
  { unfold D', D1, commit_writes. by rewrite !apply_writes_app. }
  assert (length D1 = length D) as HL by apply apply_writes_length.
  assert (same_data st sz D' c) as Hc.
  { intros j Hj. rewrite HD, list_lookup_insert_ne by lia. unfold D1. rewrite !apply_writes_app.
    destruct (decide (j ∈ bl)) as [Hin|Hin].
    - destruct (vt_range _ _ _ _ (ts_valid _ _ _ _ _ T) j Hin) as [Hlt _].
      destruct (lookup_lt_is_Some_2 c j) as [d Hdj]; [by rewrite (ts_len _ _ _ _ _ T)|]. rewrite Hdj.
      apply apply_writes_in; [rewrite home_writes_keys; apply T| |simpl; rewrite length_insert, apply_writes_length; lia].
      unfold home_writes. apply list_elem_of_fmap. exists j. split; [|done]. unfold blk_at. by rewrite Hdj.
    - rewrite apply_writes_other by (by rewrite home_writes_keys). simpl. rewrite list_lookup_insert_ne by lia.
      rewrite apply_writes_other by (apply tx_out; lia). symmetry. by apply (ts_same _ _ _ _ _ T). }
  destruct (recovered_empty st sz D') as [R Hr].
  - rewrite HD, (blk_at_lookup _ st (put_head 0 [] (head_of bl h))) by (apply list_lookup_insert_eq; lia).
    apply hdr_n_put; [|lia]. unfold head_of, put_head. rewrite length_put32s, length_put32. apply T.
  - lia.
  - rewrite HD, length_insert. lia.
  - split_and!; [done| |done]. by etransitivity.
Qed.
Lemma crash_commit k :
  let D' := apply_writes (take k W) D in
  recoverable st sz D' ∧ same_data st sz (recovered st D') (if (k <=? length bl)%nat then D else c).
Proof using T.
  intros D'. destruct (Nat.leb_spec k (length bl)) as [Hk|Hk]; [by apply crash_before|].
  assert (length (log_writes st c bl) = length bl) as L1 by (unfold log_writes; by rewrite length_imap).
  assert (length (home_writes c bl) = length bl) as L2 by (unfold home_writes; by rewrite length_fmap).
  destruct (decide (k - length bl - 1 ≤ length bl)%nat) as [Hk2|Hk2].
  - replace D' with (apply_writes (log_writes st c bl ++ [(st, head_of bl h)] ++ take (k - length bl - 1) (home_writes c bl)) D);
      [by apply crash_during|].
    unfold D', commit_writes. f_equal. rewrite take_app_ge by lia. f_equal.
    rewrite L1. destruct (k - length bl)%nat as [|r] eqn:E; [lia|]. simpl. f_equal.
    rewrite take_app_le by lia. f_equal. lia.
  - replace D' with (apply_writes W D); [destruct crash_end as (? & ? & _); done|].
    unfold D'. f_equal. symmetry. apply take_ge. unfold commit_writes. rewrite !length_app. simpl. lia.
Qed.
End crash.

(** ** The code *)
Section theorems.
Context {S : Type} `{!BlockOps S} `{!BlockDev S}.
Implicit Types x y : lst S.

(** The header after absorption lists the transaction with block [j] in it. *)
Lemma absorb_lists x bl (j : nat) :
  length (l_block x) = LOGSIZE → lists_tx x bl → (length bl < LOGSIZE)%nat →
  let k := absorb (l_n x) (l_block x) (Z.of_nat j) in
  lists_tx (with_lh (if Z.of_nat k =? l_n x then l_n x + 1 else l_n x) (<[k := Z.of_nat j]> (l_block x)) x)
    (if decide (j ∈ bl) then bl else bl ++ [j]).
Proof.
  intros HL [Hn Ht] Hl1 k. unfold k, absorb. rewrite Hn, Nat2Z.id, Ht.
  destruct (find_index (Z.eqb (Z.of_nat j)) (Z.of_nat <$> bl)) as [t|] eqn:E.
  - apply find_index_Some in E as (b & Hb & He & _). apply Z.eqb_eq in He as <-.
    rewrite list_lookup_fmap in Hb. destruct (bl !! t) as [b|] eqn:Hbt; [|done]. simpl in Hb. injection Hb as Hb.
    assert (b = j) as -> by lia. apply lookup_lt_Some in Hbt as Htl.
    rewrite decide_True by (by eapply list_elem_of_lookup_2).
    rewrite (proj2 (Z.eqb_neq _ _)) by lia. split; [done|]. simpl. rewrite take_insert_lt by done. rewrite Ht.
    apply list_insert_id. by rewrite list_lookup_fmap, Hbt.
  - rewrite find_index_None in E. rewrite decide_False.
    + rewrite Z.eqb_refl. split; [simpl; rewrite length_app; simpl; lia|]. simpl. rewrite length_app. simpl.
      rewrite Nat.add_1_r, (take_S_r _ _ (Z.of_nat j)) by (apply list_lookup_insert_eq; lia).
      rewrite take_insert_ge by lia. by rewrite Ht, fmap_app.
    + intros [t Hbt]%list_elem_of_lookup_1. specialize (E t (Z.of_nat j)). rewrite list_lookup_fmap, Hbt in E.
      specialize (E eq_refl). by rewrite Z.eqb_refl in E.
Qed.
Lemma log_write_spec st sz x v i j bl :
  lrep st sz x v → bv_held v !! i = Some j → lists_tx x bl → bv_dirty v = list_to_set bl → NoDup bl →
  (length bl < LOGSIZE)%nat → (length bl < sz - 1)%nat → 1 ≤ l_outstanding x →
  let bl' := if decide (j ∈ bl) then bl else bl ++ [j] in
  ∃ x', log_write i x = Ok tt x' ∧ lrep st sz x' (v_dirty (λ D, {[j]} ∪ D) v) ∧ lists_tx x' bl' ∧ NoDup bl' ∧
        list_to_set bl' = {[j]} ∪ bv_dirty v ∧ l_outstanding x' = l_outstanding x ∧ l_committing x' = l_committing x.
Proof.
  intros R Hh [Hn Ht] Hd Hnd Hl1 Hl2 Ho bl'.
  set (k := absorb (l_n x) (l_block x) (Z.of_nat j)).
  set (n' := if Z.of_nat k =? l_n x then l_n x + 1 else l_n x).
  assert (length (l_block x) = LOGSIZE) as HL by apply R.
  assert (lists_tx (with_lh n' (<[k := Z.of_nat j]> (l_block x)) x) bl') as Htx by (by apply absorb_lists).
  destruct (bd_pin (l_blk x) v i j (lr_blk _ _ _ _ R) Hh) as (s' & Hpin & Rpin).
  set (x2 := with_lh n' (<[k := Z.of_nat j]> (l_block x)) (with_locked true x)).
  exists (with_locked false (with_blk s' x2)). split_and!.
  - unfold log_write, get at 1, mbind at 1, M_bind.
    rewrite (proj2 (Z.leb_gt _ _)) by lia. rewrite (proj2 (Z.leb_gt (l_size x - 1) _)) by (rewrite (lr_size _ _ _ _ R); lia).
    rewrite (proj2 (Z.ltb_ge _ _)) by lia. cbn [orb].
    assert (acquire_log x = Ok tt (with_locked true x)) as Ha
      by (unfold acquire_log, get, mbind, M_bind; by rewrite (lr_free _ _ _ _ R)).
    rewrite (bind_run _ _ _ _ _ Ha).
    assert (blk (b_number i) (with_locked true x) = Ok (Z.of_nat j) (with_locked true x)) as Hb.
    { rewrite (blk_run _ (Z.of_nat j) _ (l_blk x)); [by destruct x|]. eapply bd_number; [apply R|done]. }
    rewrite (bind_run _ _ _ _ _ Hb). fold k.
    rewrite (bind_run _ _ tt _ x2) by done.
    rewrite (bind_run _ _ _ _ _ (blk_run (b_pin i) tt x2 s' Hpin)). done.
  - destruct R as [P1 P2 P3 P4 P5 P6 P7 P8]. constructor; simpl; try done.
    + by rewrite length_insert.
    + unfold n'. destruct (Z.eqb_spec (Z.of_nat k) (l_n x)); lia.
  - done.
  - unfold bl'. destruct (decide (j ∈ bl)); [done|]. apply NoDup_app. split_and!; [done| |apply NoDup_singleton]. set_solver.
  - unfold bl'. rewrite Hd. destruct (decide (j ∈ bl)); [set_solver|]. rewrite list_to_set_app_L. simpl. set_solver.
  - done.
  - done.
Qed.

(** Commit and crash, for a transaction that may be empty. *)
Lemma commit_crash st sz x v bl :
  lrep st sz x v → bv_held v = ∅ → lists_tx x bl → bv_dirty v = list_to_set bl → (length bl < NBUF)%nat →
  tx_start st sz (bv_dsk v) (bv_cur v) bl →
  ∃ x' v' W, commit x = Ok tt x' ∧ lrep st sz x' v' ∧ l_n x' = 0 ∧ bv_writes v' = bv_writes v ++ W ∧
    same_data st sz (bv_dsk v') (bv_cur v) ∧
    ∀ k y, lrep st sz y (quiet (apply_writes (take k W) (bv_dsk v)) []) →
      ∃ y' v'', recover_from_log y = Ok tt y' ∧ lrep st sz y' v'' ∧ l_n y' = 0 ∧
        same_data st sz (bv_dsk v'') (if (k <=? length bl)%nat then bv_dsk v else bv_cur v).
Proof.
  intros R Hh Htx Hdi Hlen T. pose proof (ts_valid _ _ _ _ _ T) as Hv.
  destruct (decide (bl = [])) as [->|Hne].
  { exists x, v, []. destruct Htx as [Hn _]. simpl in Hn. unfold commit, get, mbind, M_bind. rewrite Hn. simpl. split_and!; [done..|by rewrite app_nil_r| |].
    - intros j _. symmetry. apply (ts_same _ _ _ _ _ T). set_solver.
    - intros k y Ry. rewrite take_nil in Ry. simpl in Ry. pose proof (vt_fits _ _ _ _ Hv). pose proof (vt_disk _ _ _ _ Hv).
      destruct (recovered_empty st sz (bv_dsk v)) as [Hr Hs]; [apply T|lia|done|].
      destruct (recover_spec st sz y _ _ Ry eq_refl eq_refl eq_refl eq_refl Hr) as (y' & Hy & Ry' & Hny).
      exists y'. eexists. split_and!; [exact Hy|exact Ry'|done|]. rewrite v_copies_dsk. etrans; [exact Hs|].
      case_match; [done|]. intros j _. symmetry. apply (ts_same _ _ _ _ _ T). set_solver. }
  pose proof (vt_disk _ _ _ _ Hv). pose proof (vt_fits _ _ _ _ Hv).
  assert (bv_cur v !! st = Some (blk_at (bv_dsk v) st)) as Hst.
  { rewrite (bd_clean (l_blk x) v st); [|apply R| |by rewrite Hh].
    - destruct (lookup_lt_is_Some_2 (bv_dsk v) st) as [d Hd]; [lia|]. unfold blk_at. by rewrite Hd.
    - rewrite Hdi, elem_of_list_to_set. intros Hin. destruct (vt_range _ _ _ _ Hv _ Hin). lia. }
  destruct (commit_spec st sz x v bl _ R Hh Htx Hv (ts_nodup _ _ _ _ _ T) Hne Hdi Hlen Hst) as (x' & Hx & R' & Hn).
  exists x', (v_copies (commit_writes st (bv_cur v) bl (blk_at (bv_dsk v) st)) v), (commit_writes st (bv_cur v) bl (blk_at (bv_dsk v) st)).
  split_and!; [done..|apply v_copies_writes| |].
  - rewrite v_copies_dsk. destruct (crash_end _ _ _ _ _ T) as (_ & _ & Hs). exact Hs.
  - intros k y Ry. destruct (crash_commit _ _ _ _ _ T k) as [Hr Hs].
    destruct (recover_spec st sz y _ _ Ry eq_refl eq_refl eq_refl eq_refl Hr) as (y' & Hy & Ry' & Hny).
    exists y'. eexists. split_and!; [exact Hy|exact Ry'|done|]. rewrite v_copies_dsk. exact Hs.
Qed.

(** C6: committing a transaction is atomic with respect to crashes.  If the log
    is empty on disk and the cache holds the new contents of the blocks of a
    transaction, commit() returns and leaves the new contents on the disk; and if
    the machine stops after any number [k] of commit()'s disk writes, the
    recovery at the next boot returns and leaves, outside the log, the old
    contents of every block when the header had not been written, and the new
    contents of every block from then on. *)
Theorem log_crash_atomic st sz x v bl :
  lrep st sz x v → bv_held v = ∅ → lists_tx x bl → bl ≠ [] → bv_dirty v = list_to_set bl → (length bl < NBUF)%nat →
  tx_start st sz (bv_dsk v) (bv_cur v) bl →
  ∃ x' v' W, commit x = Ok tt x' ∧ lrep st sz x' v' ∧ l_n x' = 0 ∧ bv_writes v' = bv_writes v ++ W ∧
    same_data st sz (bv_dsk v') (bv_cur v) ∧
    ∀ k y, lrep st sz y (quiet (apply_writes (take k W) (bv_dsk v)) []) →
      ∃ y' v'', recover_from_log y = Ok tt y' ∧ lrep st sz y' v'' ∧ l_n y' = 0 ∧
        same_data st sz (bv_dsk v'') (if (k <=? length bl)%nat then bv_dsk v else bv_cur v).
Proof. intros R Hh Htx _. by apply commit_crash. Qed.

(** C30: recovery can itself be interrupted: if the machine stops after any
    number [k] of the writes of recover_from_log(), recovering again leaves the
    same contents outside the log as an uninterrupted recovery. *)
Theorem log_recovery_restartable st sz x D k y :
  lrep st sz x (quiet D []) → recoverable st sz D → 
  ∃ x' v' W, recover_from_log x = Ok tt x' ∧ lrep st sz x' v' ∧ bv_writes v' = W ∧
    (lrep st sz y (quiet (apply_writes (take k W) D) []) →
     ∃ y' v'', recover_from_log y = Ok tt y' ∧ lrep st sz y' v'' ∧ same_data st sz (bv_dsk v'') (bv_dsk v')).
Proof.
  intros R Hr. destruct (recover_spec st sz x _ _ R eq_refl eq_refl eq_refl eq_refl Hr) as (x' & Hx & R' & _).
  exists x'. eexists _, _. split_and!; [exact Hx|exact R'|done|]. rewrite v_copies_writes, v_copies_dsk. simpl.
  intros Ry. assert (length (blk_at D st) = BSIZE) as Hlen.
  { pose proof (rc_valid _ _ _ Hr) as Hv. pose proof (vt_disk _ _ _ _ Hv). pose proof (vt_fits _ _ _ _ Hv).
    destruct (lookup_lt_is_Some_2 D st) as [d Hd]; [lia|]. rewrite (blk_at_lookup _ _ _ Hd).
    eapply (bd_size (l_blk x) (quiet D [])); [apply R|exact Hd]. }
  destruct (crash_recovery st sz D k Hr Hlen) as [Hr' Hs].
  destruct (recover_spec st sz y _ _ Ry eq_refl eq_refl eq_refl eq_refl Hr') as (y' & Hy & Ry' & _).
  exists y'. eexists. split_and!; [exact Hy|exact Ry'|]. rewrite v_copies_dsk. exact Hs.
Qed.
End theorems.
