(* ===== verification/Storage.v ===== *)
(** * The log over the buffer cache

    The two storage layers put together: booting, and a transaction of one block
    from bread to the point where commit may start, on the cache of bio.c. *)

From S2P Require Import Prelude Bytes Blocks Bio Log.

(** [struct log] after initlog read the geometry, before recovery. *)
Definition booted (st sz : nat) (s : bst) : lst bst :=
  mkLst s (Z.of_nat st) (Z.of_nat sz) 0 0 ROOTDEV 0 (replicate LOGSIZE 0) false.
Lemma boot_lrep d pid st sz :
  Forall (λ x, length x = BSIZE) d → (st + sz ≤ length d)%nat →
  ∃ s, binit (bss_bcache d pid) = Ok tt s ∧ lrep st sz (booted st sz s) (quiet d []).
Proof.
  intros Hd Hl. pose proof (binit_rep d pid Hd) as Hb. apply wp_ok in Hb as ([] & s & Hs & R).
  exists s. split; [exact Hs|]. constructor; simpl; try done.
Qed.

Section tx.
Context {S : Type} `{!BlockOps S} `{!BlockDev S}.
Implicit Types x : lst S.
(** The idiom of fs.c: read, modify, log_write, release. *)
Definition log_block (j : nat) (d : block) : M (lst S) unit :=
  i ← blk (bread ROOTDEV (Z.of_nat j));
  blk (b_put i d) ;;
  log_write i ;;
  blk (brelse i).
Lemma log_block_spec st sz x v j d bl :
  lrep st sz x v → bv_held v = ∅ → lists_tx x bl → bv_dirty v = list_to_set bl → NoDup bl →
  (length bl < LOGSIZE)%nat → (length bl < sz - 1)%nat → (length bl < NBUF)%nat → 1 ≤ l_outstanding x →
  (j < length (bv_dsk v))%nat → length d = BSIZE →
  let bl' := if decide (j ∈ bl) then bl else bl ++ [j] in
  ∃ x', log_block j d x = Ok tt x' ∧ lrep st sz x' (v_dirty (λ D, {[j]} ∪ D) (v_cur <[j := d]> v)) ∧
        lists_tx x' bl' ∧ NoDup bl' ∧ l_outstanding x' = l_outstanding x.
Proof.
  intros R Hh Htx Hd Hnd Hl1 Hl2 Hl3 Ho Hj Hlen bl'.
  assert (size (bv_dirty v) = length bl) as Hsz by (rewrite Hd; by apply size_list_to_set).
  destruct (blk_bread st sz x v j (Z.of_nat j) R) as (i & s1 & H1 & Hi & R1);
    [done|done|by rewrite Hh|right; rewrite Hh, map_size_empty; lia|].
  rewrite (lr_dev _ _ _ _ R) in H1.
  assert (bv_held (v_held <[i := j]> v) !! i = Some j) as E by apply lookup_insert_eq.
  destruct (blk_put st sz _ _ i j d R1 E Hlen) as (s2 & H2 & R2).
  destruct (log_write_spec st sz _ _ i j bl R2 E Htx Hd Hnd Hl1 Hl2 Ho) as (x3 & H3 & R3 & Htx3 & Hnd3 & Hset & Ho3 & _).
  destruct (blk_brelse st sz x3 _ i j R3 E) as (s4 & H4 & R4); [left; simpl; set_solver|].
  exists (with_blk s4 x3). unfold log_block.
  rewrite (bind_run _ _ _ _ _ H1), (bind_run _ _ _ _ _ H2), (bind_run _ _ _ _ _ H3). split_and!; [exact H4| |done..].
  replace (v_dirty _ (v_cur _ v)) with (v_held (delete i) (v_dirty (λ D, {[j]} ∪ D) (v_cur <[j := d]> (v_held <[i := j]> v)))); [exact R4|].
  unfold v_held, v_dirty, v_cur. simpl. by rewrite delete_insert_id.
Qed.
End tx.

(** ** Witnesses *)
Definition demo_disk : list block := replicate 4 (replicate 512 0).
Definition demo_block : block := replicate 512 9.
Lemma demo_disk_ok : Forall (λ x, length x = BSIZE) demo_disk.
Proof. by apply Forall_replicate. Qed.
(** A transaction that changes block 3 of a four-block disk, its log in blocks 1
    and 2, ready to commit. *)
Lemma demo_ready :
  ∃ (x : lst bst) v, lrep 1 2 x v ∧ bv_held v = ∅ ∧ lists_tx x [3%nat] ∧ bv_dirty v = list_to_set [3%nat] ∧
    bv_dsk v = demo_disk ∧ bv_cur v = <[3%nat := demo_block]> demo_disk ∧ tx_start 1 2 (bv_dsk v) (bv_cur v) [3%nat].
Proof.
  destruct (boot_lrep demo_disk 1 1 2 demo_disk_ok) as (s & _ & R); [simpl; lia|].
  set (x := with_outstanding 1 (booted 1 2 s)).
  assert (lrep 1 2 x (quiet demo_disk [])) as Rx by (destruct R; by constructor).
  destruct (log_block_spec 1 2 x (quiet demo_disk []) 3 demo_block [] Rx) as (x' & _ & R' & Htx & _ & _);
    [done|done|done|constructor|unfold LOGSIZE; simpl; lia|simpl; lia|unfold NBUF; simpl; lia|done|simpl; lia|done|].
  exists x'. eexists. split_and!; [exact R'|done|exact Htx|simpl; set_solver|done|done|].
  change (tx_start 1 2 demo_disk (<[3%nat := demo_block]> demo_disk) [3%nat]). constructor; try done.
  - constructor; [|simpl; lia|simpl; lia]. intros b ->%list_elem_of_singleton. simpl. lia.
  - apply NoDup_singleton.
  - unfold LOGSIZE. simpl. lia.
  - repeat constructor.
  - intros j Hj. apply list_lookup_insert_ne. set_solver.
Qed.
Lemma log_crash_atomic_witness :
  ∃ (x x' : lst bst) v', commit x = Ok tt x' ∧ lrep 1 2 x' v' ∧ bv_dsk v' !! 3%nat = Some demo_block.
Proof.
  destruct demo_ready as (x & v & R & Hh & Htx & Hd & Hdsk & Hcur & T).
  destruct (log_crash_atomic 1 2 x v [3%nat] R Hh Htx ltac:(discriminate) Hd ltac:(unfold NBUF; simpl; lia) T)
    as (x' & v' & W & Hc & R' & _ & _ & Hs & _).
  exists x, x', v'. split; [exact Hc|]. split; [exact R'|].
  etransitivity; [apply (Hs 3%nat); lia|]. rewrite Hcur. reflexivity.
Defined.
Lemma log_recovery_restartable_witness :
  ∃ (x x' : lst bst) v', recover_from_log x = Ok tt x' ∧ lrep 1 2 x' v'.
Proof.
  destruct (boot_lrep demo_disk 1 1 2 demo_disk_ok) as (s & _ & R); [simpl; lia|].
  destruct (log_recovery_restartable 1 2 (booted 1 2 s) demo_disk 0 (booted 1 2 s) R) as (x' & v' & W & H & R' & _).
  - apply recovered_empty; [vm_compute; reflexivity|lia|simpl; lia].
  - exists (booted 1 2 s), x', v'. split; [exact H|exact R'].
Defined.
