(* ===== verification/Fs.v ===== *)
(** * The file system (fs.c): data and operations

    Block allocator, inodes, file contents, directories and path names, over the
    log.  The code runs for one process, [fs_pid], with current directory
    [fs_cwd]; waiting for another process is [Spin].  In-memory inodes are named
    by their index in the inode cache; [fs_ilocked] says that the process is
    inside icache.lock.  Device files go to [DevSw], the table [devsw]. *)

From S2P Require Import Prelude CStr Monitor Sleeplock Bytes Blocks Log.

Definition ROOTINO : Z := 1.
Definition NDIRECT : nat := 12.
Definition NINDIRECT : nat := 128.
Definition MAXFILE : Z := 140.
Definition NINODE : nat := 50.
Definition NDEV : Z := 10.
Definition DIRSIZ : nat := 14.
Definition T_DIR : Z := 1.
Definition T_FILE : Z := 2.
Definition T_DEV : Z := 3.
Definition DINODE : nat := 64.
Definition IPB : Z := 8.
Definition BPB : Z := 4096.
Definition DIRENT : Z := 16.
(** [BSIZE] as an unsigned integer. *)
Definition BSZ : Z := 512.
Definition i16 (z : Z) : Z := (z + 2 ^ 15) mod 2 ^ 16 - 2 ^ 15.

Definition IBLOCK (i : Z) (sb : superblock) : Z := i / IPB + sb_inodestart sb.
Definition BBLOCK (b : Z) (sb : superblock) : Z := b / BPB + sb_bmapstart sb.

(** [struct dinode] at byte [o] of a block: type, major, minor and nlink are
    16-bit, size and the thirteen addresses 32-bit. *)
Record dinode := mkDinode {
  d_type : Z;
  d_major : Z;
  d_minor : Z;
  d_nlink : Z;
  d_size : Z;
  d_addrs : list Z }.
Definition dinode_at (d : block) (o : nat) : dinode :=
  mkDinode (i16 (get16 d o)) (i16 (get16 d (o + 2))) (i16 (get16 d (o + 4))) (i16 (get16 d (o + 6)))
           (get32 d (o + 8)) (get32s d (o + 12) 13).
Definition put_dinode (o : nat) (i : dinode) (d : block) : block :=
  put32s (o + 12) (d_addrs i) (put32 (o + 8) (d_size i) (put16 (o + 6) (d_nlink i) (put16 (o + 4) (d_minor i)
    (put16 (o + 2) (d_major i) (put16 o (d_type i) d))))).
Definition zero_dinode : dinode := mkDinode 0 0 0 0 0 (replicate 13 0).
(** Offset of inode [inum] in its block. *)
Definition dip (inum : Z) : nat := Z.to_nat (inum mod IPB) * DINODE.

(** [struct inode] *)
Record inode := mkInode {
  i_dev : Z;
  i_inum : Z;
  i_ref : Z;
  i_lock : sleeplock;
  i_valid : Z;
  i_disk : dinode }.
Definition i_type (i : inode) : Z := d_type (i_disk i).
Definition i_nlink (i : inode) : Z := d_nlink (i_disk i).
Definition i_size (i : inode) : Z := d_size (i_disk i).
Definition i_addrs (i : inode) : list Z := d_addrs (i_disk i).
Definition with_ref (r : Z) (i : inode) : inode := mkInode (i_dev i) (i_inum i) r (i_lock i) (i_valid i) (i_disk i).
Definition with_ilock (l : sleeplock) (i : inode) : inode := mkInode (i_dev i) (i_inum i) (i_ref i) l (i_valid i) (i_disk i).
Definition with_valid (v : Z) (i : inode) : inode := mkInode (i_dev i) (i_inum i) (i_ref i) (i_lock i) v (i_disk i).
Definition with_disk (d : dinode) (i : inode) : inode := mkInode (i_dev i) (i_inum i) (i_ref i) (i_lock i) (i_valid i) d.
Definition with_addr (k : nat) (a : Z) (d : dinode) : dinode :=
  mkDinode (d_type d) (d_major d) (d_minor d) (d_nlink d) (d_size d) (<[k := a]> (d_addrs d)).
Definition with_type (t : Z) (d : dinode) : dinode :=
  mkDinode t (d_major d) (d_minor d) (d_nlink d) (d_size d) (d_addrs d).
Definition with_size (n : Z) (d : dinode) : dinode :=
  mkDinode (d_type d) (d_major d) (d_minor d) (d_nlink d) n (d_addrs d).
Definition with_nlink (n : Z) (d : dinode) : dinode :=
  mkDinode (d_type d) (d_major d) (d_minor d) n (d_size d) (d_addrs d).
Definition with_dev (major minor : Z) (d : dinode) : dinode :=
  mkDinode (d_type d) major minor (d_nlink d) (d_size d) (d_addrs d).

Record fstate (S : Type) := mkFs {
  fs_log : lst S;
  fs_inodes : list inode;
  fs_ilocked : bool;
  fs_sb : superblock;
  fs_pid : Z;
  fs_cwd : nat }.
Arguments mkFs {S} _ _ _ _ _ _.
Arguments fs_log {S} _. Arguments fs_inodes {S} _. Arguments fs_ilocked {S} _.
Arguments fs_sb {S} _. Arguments fs_pid {S} _. Arguments fs_cwd {S} _.

(** [devsw]: by major device number, its functions on the inode of the file. *)
Class DevSw (F : Type) := {
  dev_read : Z → option (nat → Z → M F (Z * list Z));
  dev_write : Z → option (nat → list Z → Z → M F Z) }.

(** [struct stat] *)
Record stat_t := mkStat { st_type : Z; st_dev : Z; st_ino : Z; st_nlink : Z; st_size : Z }.

(** *** Bits and bytes *)
(** The bit of block [bi] in a bitmap block, and its two updates. *)
Definition bit_mask (bi : nat) : Z := Z.shiftl 1 (Z.of_nat (bi mod 8)).
Definition bit_clear (d : block) (bi : nat) : bool := Z.land (byte_at d (bi / 8)) (bit_mask bi) =? 0.
Definition set_bit (bi : nat) (d : block) : block :=
  <[(bi / 8)%nat := Z.lor (byte_at d (bi / 8)) (bit_mask bi)]> d.
Definition clear_bit (bi : nat) (d : block) : block :=
  <[(bi / 8)%nat := Z.land (byte_at d (bi / 8)) (Z.lnot (bit_mask bi))]> d.
(** [memmove] of bytes into a block at offset [o]. *)
Definition splice (o : nat) (l d : list Z) : list Z := take o d ++ l ++ drop (o + length l) d.

(** *** Path names *)
Definition SLASH : Z := 47.
Fixpoint skip_slashes (p : list Z) : list Z :=
  match p with [] => [] | c :: p' => if c =? SLASH then skip_slashes p' else p end.
Fixpoint cut_elem (p : list Z) : list Z * list Z :=
  match p with
  | [] => ([], [])
  | c :: p' => if c =? SLASH then ([], p) else let '(e, r) := cut_elem p' in (c :: e, r)
  end.
(** skipelem: a path is the list of its characters before the NUL; the result is
    the rest of the path and the [name] buffer. *)
Definition skipelem (path name : list Z) : option (list Z * list Z) :=
  match skip_slashes path with
  | [] => None
  | p =>
      let '(e, rest) := cut_elem p in
      let name' := if (DIRSIZ <=? length e)%nat then splice 0 (take DIRSIZ e) name else splice 0 (e ++ [0]) name in
      Some (skip_slashes rest, name')
  end.

Section code.
Context {S : Type} `{!BlockOps S} `{!DevSw (fstate S)}.
Abbreviation FM := (M (fstate S)).
Implicit Types f : fstate S.

Definition with_log (l : lst S) f : fstate S :=
  mkFs l (fs_inodes f) (fs_ilocked f) (fs_sb f) (fs_pid f) (fs_cwd f).
Definition log_lens : lens (fstate S) (lst S) := Lens fs_log with_log.
Definition logm {A} (m : M (lst S) A) : FM A := zoom log_lens m.
Definition fblk {A} (m : M S A) : FM A := logm (blk m).
Definition with_inodes (g : list inode → list inode) f : fstate S :=
  mkFs (fs_log f) (g (fs_inodes f)) (fs_ilocked f) (fs_sb f) (fs_pid f) (fs_cwd f).
Definition with_ilocked (b : bool) f : fstate S :=
  mkFs (fs_log f) (fs_inodes f) b (fs_sb f) (fs_pid f) (fs_cwd f).
Definition with_sb (sb : superblock) f : fstate S :=
  mkFs (fs_log f) (fs_inodes f) (fs_ilocked f) sb (fs_pid f) (fs_cwd f).

Definition acquire_icache : FM unit :=
  f ← get; if fs_ilocked f then panic "acquire" else modify (with_ilocked true).
Definition release_icache : FM unit :=
  f ← get; if fs_ilocked f then modify (with_ilocked false) else panic "release".
Definition get_inode (ip : nat) : FM inode := f ← get; array_get "inode" (fs_inodes f) (Z.of_nat ip).
Definition upd_inode (g : inode → inode) (ip : nat) : FM unit := modify (with_inodes (alter g ip)).
Definition upd_disk (g : dinode → dinode) (ip : nat) : FM unit := upd_inode (λ i, with_disk (g (i_disk i)) i) ip.
(** A sleep-lock function on [ip->lock], by the running process. *)
Definition ilock_op {R} (seg : Z → M (sleeplock * list unit) (reaction unit slcall R)) (ip : nat) : FM R :=
  i ← get_inode ip;
  pid ← gets fs_pid;
  match alone (seg pid) (i_lock i) with
  | Ok r l => upd_inode (with_ilock l) ip ;; mret r
  | Panic e => panic e
  | Undef e => undef e
  | Spin => spin
  end.

Definition fs_readsb (dev : Z) : FM superblock := logm (readsb dev).

(** *** Blocks *)
Definition bzero (dev bno : Z) : FM unit :=
  b ← fblk (bread dev bno);
  fblk (b_put b (replicate BSIZE 0)) ;;
  logm (log_write b) ;;
  fblk (brelse b).

(** One bitmap block of balloc's search: [b] is its first block number. *)
Fixpoint balloc_from (dev : Z) (ks : list nat) : FM Z :=
  match ks with
  | [] => panic "balloc: out of blocks"
  | k :: ks' =>
      sb ← gets fs_sb;
      let b := Z.of_nat k * BPB in
      bp ← fblk (bread dev (BBLOCK b sb));
      d ← fblk (b_get bp);
      match find_index (bit_clear d) (seq 0 (Z.to_nat (Z.min BPB (sb_size sb - b)))) with
      | Some bi =>
          fblk (b_put bp (set_bit bi d)) ;;
          logm (log_write bp) ;;
          fblk (brelse bp) ;;
          bzero dev (b + Z.of_nat bi) ;;
          mret (b + Z.of_nat bi)
      | None => fblk (brelse bp) ;; balloc_from dev ks'
      end
  end.
Definition balloc (dev : Z) : FM Z :=
  sb ← gets fs_sb;
  balloc_from dev (seq 0 (Z.to_nat ((sb_size sb + BPB - 1) / BPB))).

Definition bfree (dev b : Z) : FM unit :=
  sb ← gets fs_sb;
  bp ← fblk (bread dev (BBLOCK b sb));
  d ← fblk (b_get bp);
  let bi := Z.to_nat (b mod BPB) in
  if bit_clear d bi then panic "freeing free block" else
  fblk (b_put bp (clear_bit bi d)) ;;
  logm (log_write bp) ;;
  fblk (brelse bp).

(** *** Inodes *)
Definition iinit (dev : Z) : FM unit :=
  modify (with_ilocked false) ;;
  for_each (seq 0 NINODE) (upd_inode (with_ilock (initsleeplock "inode"))) ;;
  sb ← fs_readsb dev;
  modify (with_sb sb).

Definition iget (dev inum : Z) : FM nat :=
  acquire_icache ;;
  f ← get;
  match find_index (λ i, (0 <? i_ref i) && (i_dev i =? dev) && (i_inum i =? inum)) (fs_inodes f) with
  | Some ip =>
      upd_inode (λ i, with_ref (i_ref i + 1) i) ip ;;
      release_icache ;;
      mret ip
  | None =>
      match find_index (λ i, i_ref i =? 0) (fs_inodes f) with
      | None => panic "iget: no inodes"
      | Some ip =>
          upd_inode (λ i, mkInode dev inum 1 (i_lock i) 0 (i_disk i)) ip ;;
          release_icache ;;
          mret ip
      end
  end.
Definition idup (ip : nat) : FM nat :=
  acquire_icache ;;
  upd_inode (λ i, with_ref (i_ref i + 1) i) ip ;;
  release_icache ;;
  mret ip.

Fixpoint ialloc_from (dev type : Z) (inums : list nat) : FM nat :=
  match inums with
  | [] => panic "ialloc: no inodes"
  | k :: ks =>
      let inum := Z.of_nat k in
      sb ← gets fs_sb;
      bp ← fblk (bread dev (IBLOCK inum sb));
      d ← fblk (b_get bp);
      if i16 (get16 d (dip inum)) =? 0 then
        fblk (b_put bp (put16 (dip inum) type (splice (dip inum) (replicate DINODE 0) d))) ;;
        logm (log_write bp) ;;
        fblk (brelse bp) ;;
        iget dev inum
      else fblk (brelse bp) ;; ialloc_from dev type ks
  end.
Definition ialloc (dev type : Z) : FM nat :=
  sb ← gets fs_sb;
  ialloc_from dev type (seq 1 (Z.to_nat (sb_ninodes sb) - 1)).

Definition iupdate (ip : nat) : FM unit :=
  i ← get_inode ip;
  sb ← gets fs_sb;
  bp ← fblk (bread (i_dev i) (IBLOCK (i_inum i) sb));
  d ← fblk (b_get bp);
  fblk (b_put bp (put_dinode (dip (i_inum i)) (i_disk i) d)) ;;
  logm (log_write bp) ;;
  fblk (brelse bp).

Definition ilock (ip : nat) : FM unit :=
  i ← get_inode ip;
  if i_ref i <? 1 then panic "ilock" else
  ilock_op acquiresleep ip ;;
  i ← get_inode ip;
  when (i_valid i =? 0)
    (sb ← gets fs_sb;
     bp ← fblk (bread (i_dev i) (IBLOCK (i_inum i) sb));
     d ← fblk (b_get bp);
     upd_inode (with_disk (dinode_at d (dip (i_inum i)))) ip ;;
     fblk (brelse bp) ;;
     upd_inode (with_valid 1) ip ;;
     i ← get_inode ip;
     if i_type i =? 0 then panic "ilock: no type" else mret tt).
Definition iunlock (ip : nat) : FM unit :=
  h ← ilock_op holdingsleep ip;
  i ← get_inode ip;
  if negb h || (i_ref i <? 1) then panic "iunlock" else
  ilock_op (λ _, releasesleep) ip ;; mret tt.

(** *** Contents *)
(** [x = f(); ip->addrs[k] = x] when it was zero *)
Definition addr_or_alloc (ip k : nat) : FM Z :=
  i ← get_inode ip;
  addr ← array_get "addrs" (i_addrs i) (Z.of_nat k);
  if addr =? 0 then
    a ← balloc (i_dev i);
    upd_disk (with_addr k a) ip ;;
    mret a
  else mret addr.
Definition bmap (ip : nat) (bn : Z) : FM Z :=
  if bn <? Z.of_nat NDIRECT then addr_or_alloc ip (Z.to_nat bn)
  else
    let bn := bn - Z.of_nat NDIRECT in
    if bn <? Z.of_nat NINDIRECT then
      addr ← addr_or_alloc ip NDIRECT;
      i ← get_inode ip;
      bp ← fblk (bread (i_dev i) addr);
      d ← fblk (b_get bp);
      let addr := get32 d (4 * Z.to_nat bn) in
      addr' ← (if addr =? 0 then
                 a ← balloc (i_dev i);
                 d ← fblk (b_get bp);
                 fblk (b_put bp (put32 (4 * Z.to_nat bn) a d)) ;;
                 logm (log_write bp) ;;
                 mret a
               else mret addr);
      fblk (brelse bp) ;;
      mret addr'
    else panic "bmap: out of range".

Definition itrunc_direct (ip k : nat) : FM unit :=
  i ← get_inode ip;
  a ← array_get "addrs" (i_addrs i) (Z.of_nat k);
  when (negb (a =? 0)) (bfree (i_dev i) a ;; upd_disk (with_addr k 0) ip).
Definition itrunc (ip : nat) : FM unit :=
  for_each (seq 0 NDIRECT) (itrunc_direct ip) ;;
  i ← get_inode ip;
  a ← array_get "addrs" (i_addrs i) (Z.of_nat NDIRECT);
  when (negb (a =? 0))
    (bp ← fblk (bread (i_dev i) a);
     for_each (seq 0 NINDIRECT) (λ j,
       d ← fblk (b_get bp);
       when (negb (get32 d (4 * j) =? 0)) (bfree (i_dev i) (get32 d (4 * j)))) ;;
     fblk (brelse bp) ;;
     bfree (i_dev i) a ;;
     upd_disk (with_addr NDIRECT 0) ip) ;;
  upd_disk (with_size 0) ip ;;
  iupdate ip.

Definition iput (ip : nat) : FM unit :=
  ilock_op acquiresleep ip ;;
  i ← get_inode ip;
  when (negb (i_valid i =? 0) && (i_nlink i =? 0))
    (acquire_icache ;;
     i ← get_inode ip;
     let r := i_ref i in
     release_icache ;;
     when (r =? 1)
       (itrunc ip ;;
        upd_disk (with_type 0) ip ;;
        iupdate ip ;;
        upd_inode (with_valid 0) ip)) ;;
  ilock_op (λ _, releasesleep) ip ;;
  acquire_icache ;;
  upd_inode (λ i, with_ref (i_ref i - 1) i) ip ;;
  release_icache.
Definition iunlockput (ip : nat) : FM unit := iunlock ip ;; iput ip.

Definition stati (ip : nat) : FM stat_t :=
  i ← get_inode ip;
  mret (mkStat (i_type i) (i_dev i) (i_inum i) (i_nlink i) (i_size i)).

(** The copy loops; [n] bytes are left, from offset [off]. *)
Fixpoint readi_loop (fuel : nat) (ip : nat) (off n : Z) : FM (list Z) :=
  match fuel with
  | O => spin
  | Datatypes.S fuel' =>
      if n <=? 0 then mret [] else
      addr ← bmap ip (off / BSZ);
      i ← get_inode ip;
      bp ← fblk (bread (i_dev i) addr);
      let m := Z.min n (BSZ - off mod BSZ) in
      d ← fblk (b_get bp);
      let l := take (Z.to_nat m) (drop (Z.to_nat (off mod BSZ)) d) in
      fblk (brelse bp) ;;
      rest ← readi_loop fuel' ip (off + m) (n - m);
      mret (l ++ rest)
  end.
(** readi: the result and the bytes put at [dst]. *)
Definition readi (ip : nat) (off n : Z) : FM (Z * list Z) :=
  i ← get_inode ip;
  if i_type i =? T_DEV then
    let major := d_major (i_disk i) in
    if (major <? 0) || (NDEV <=? major) then mret (-1, []) else
    match dev_read major with None => mret (-1, []) | Some rd => rd ip n end
  else
    if (i_size i <? off) || (u32 (off + n) <? off) then mret (-1, []) else
    let n := if i_size i <? u32 (off + n) then u32 (i_size i - off) else n in
    l ← readi_loop (Datatypes.S (Z.to_nat n)) ip off n;
    mret (i32 n, l).

Fixpoint writei_loop (fuel : nat) (ip : nat) (src : list Z) (off n : Z) : FM Z :=
  match fuel with
  | O => spin
  | Datatypes.S fuel' =>
      if n <=? 0 then mret off else
      addr ← bmap ip (off / BSZ);
      i ← get_inode ip;
      bp ← fblk (bread (i_dev i) addr);
      let m := Z.min n (BSZ - off mod BSZ) in
      d ← fblk (b_get bp);
      fblk (b_put bp (splice (Z.to_nat (off mod BSZ)) (take (Z.to_nat m) src) d)) ;;
      logm (log_write bp) ;;
      fblk (brelse bp) ;;
      writei_loop fuel' ip (drop (Z.to_nat m) src) (off + m) (n - m)
  end.
Definition writei (ip : nat) (src : list Z) (off n : Z) : FM Z :=
  i ← get_inode ip;
  if i_type i =? T_DEV then
    let major := d_major (i_disk i) in
    if (major <? 0) || (NDEV <=? major) then mret (-1) else
    match dev_write major with None => mret (-1) | Some wr => wr ip src n end
  else
    if (i_size i <? off) || (u32 (off + n) <? off) then mret (-1) else
    if MAXFILE * BSZ <? u32 (off + n) then mret (-1) else
    if (Z.of_nat (length src) <? n) then undef "src" else
    off' ← writei_loop (Datatypes.S (Z.to_nat n)) ip src off n;
    i ← get_inode ip;
    when ((0 <? n) && (i_size i <? off')) (upd_disk (with_size off') ip ;; iupdate ip) ;;
    mret (i32 n).

(** *** Directories *)
Definition namecmp (s t : list Z) : FM Z :=
  match strncmp s t DIRSIZ with Some r => mret r | None => undef "strncmp" end.
Definition de_inum (de : list Z) : Z := get16 de 0.
Definition de_name (de : list Z) : list Z := drop 2 de.
Definition read_dirent (dp : nat) (off : Z) (msg : string) : FM (list Z) :=
  '(r, de) ← readi dp off DIRENT;
  if negb (r =? DIRENT) then panic msg else mret de.

(** The entries are [k = off / sizeof(de)]. *)
Fixpoint dirlookup_from (dp : nat) (name : list Z) (ks : list nat) : FM (option (nat * Z)) :=
  match ks with
  | [] => mret None
  | k :: ks' =>
      let off := Z.of_nat k * DIRENT in
      de ← read_dirent dp off "dirlookup read";
      if de_inum de =? 0 then dirlookup_from dp name ks' else
      c ← namecmp name (de_name de);
      if c =? 0 then
        i ← get_inode dp;
        ip ← iget (i_dev i) (de_inum de);
        mret (Some (ip, off))
      else dirlookup_from dp name ks'
  end.
Definition entries (size : Z) : list nat := seq 0 (Z.to_nat ((size + DIRENT - 1) / DIRENT)).
Definition dirlookup (dp : nat) (name : list Z) : FM (option (nat * Z)) :=
  i ← get_inode dp;
  if negb (i_type i =? T_DIR) then panic "dirlookup not DIR" else
  dirlookup_from dp name (entries (i_size i)).

Fixpoint find_free (dp : nat) (ks : list nat) (size : Z) : FM Z :=
  match ks with
  | [] => mret (Z.of_nat (length (entries size)) * DIRENT)
  | k :: ks' =>
      de ← read_dirent dp (Z.of_nat k * DIRENT) "dirlink read";
      if de_inum de =? 0 then mret (Z.of_nat k * DIRENT) else find_free dp ks' size
  end.
Definition dirlink (dp : nat) (name : list Z) (inum : Z) : FM Z :=
  r ← dirlookup dp name;
  match r with
  | Some (ip, _) => iput ip ;; mret (-1)
  | None =>
      i ← get_inode dp;
      off ← find_free dp (entries (i_size i)) (i_size i);
      match strncpy_out name DIRSIZ with
      | None => undef "strncpy"
      | Some nm =>
          r ← writei dp (put16 0 inum [0; 0] ++ nm) off DIRENT;
          if negb (r =? DIRENT) then panic "dirlink" else mret 0
      end
  end.

(** *** Paths *)
Fixpoint namex_loop (fuel : nat) (ip : nat) (path name : list Z) (nameiparent : bool) : FM (option (nat * list Z)) :=
  match fuel with
  | O => spin
  | Datatypes.S fuel' =>
      match skipelem path name with
      | None => if nameiparent then iput ip ;; mret None else mret (Some (ip, name))
      | Some (path', name') =>
          ilock ip ;;
          i ← get_inode ip;
          if negb (i_type i =? T_DIR) then iunlockput ip ;; mret None else
          if nameiparent && bool_decide (path' = []) then iunlock ip ;; mret (Some (ip, name')) else
          next ← dirlookup ip name';
          match next with
          | None => iunlockput ip ;; mret None
          | Some (nx, _) => iunlockput ip ;; namex_loop fuel' nx path' name' nameiparent
          end
      end
  end.
(** namex: the inode, and the [name] buffer after the call. *)
Definition namex (path : list Z) (nameiparent : bool) (name : list Z) : FM (option (nat * list Z)) :=
  ip ← (if bool_decide (head path = Some SLASH) then iget ROOTDEV ROOTINO
        else cwd ← gets fs_cwd; idup cwd);
  namex_loop (Datatypes.S (length path)) ip path name nameiparent.
Definition namei (path : list Z) : FM (option nat) :=
  r ← namex path false (replicate DIRSIZ 0);
  mret (fst <$> r).
Definition nameiparent (path name : list Z) : FM (option (nat * list Z)) := namex path true name.
End code.
