(* ===== verification/Tx.v ===== *)
(** * Blocks within a transaction

    The steps of which the functions of fs.c consist (read a buffer, change it,
    give it to the log, release it), each with what it does to the view of the
    block layer.  [tx f v bl]: in state [f] the view is [v] and the transaction has
    logged the blocks [bl]. *)

From S2P Require Import Prelude CStr Monitor Sleeplock Bytes Blocks Log Fs.

Section tx.
Context {S : Type} `{!BlockOps S} `{!BlockDev S} `{!DevSw (fstate S)}.
(** First block and size of the log, and the operations in progress. *)
Context (st sz : nat) (o : Z).
Implicit Types (f : fstate S) (v : bview) (bl : list nat).

(** A block outside the log. *)
Definition home (j : nat) : Prop := (j < st ∨ st + sz ≤ j)%nat.
Record tx f v bl : Prop := {
  tx_rep : lrep st sz (fs_log f) v;
  tx_list : lists_tx (fs_log f) bl;
  tx_dirty : bv_dirty v = list_to_set bl;
  tx_nodup : NoDup bl;
  tx_out : l_outstanding (fs_log f) = o;
  tx_open : l_committing (fs_log f) = 0;
  tx_home j : j ∈ bl → home j ∧ (j < length (bv_dsk v))%nat }.

(** Only the log and the blocks changed. *)
Definition logged f f' : Prop := ∃ l, f' = with_log l f.
#[global] Instance logged_refl : Reflexive logged.
Proof. intros f. exists (fs_log f). by destruct f. Qed.
#[global] Instance logged_trans : Transitive logged.
Proof. intros f f1 f2 [l ->] [l' ->]. by exists l'. Qed.

(** The transaction after a block was logged. *)
Definition log_add (j : nat) (bl : list nat) : list nat := if decide (j ∈ bl) then bl else bl ++ [j].
Lemma log_add_length j bl : (length (log_add j bl) ≤ length bl + 1)%nat.
Proof. unfold log_add. case_decide; [lia|]. rewrite length_app. simpl. lia. Qed.
Lemma log_add_elem j k bl : k ∈ log_add j bl ↔ k = j ∨ k ∈ bl.
Proof. unfold log_add. case_decide; [set_solver|]. rewrite elem_of_app, list_elem_of_singleton. tauto. Qed.

(** Room for [n] more blocks, and for two buffers besides. *)
Definition room (n : nat) bl : Prop := (length bl + n < sz)%nat ∧ (length bl + n ≤ 27)%nat.
Lemma room_add n j bl : room (1 + n) bl → room n (log_add j bl).
Proof. intros [? ?]. pose proof (log_add_length j bl). split; lia. Qed.
Lemma room_le n m bl : room m bl → (n ≤ m)%nat → room n bl.
Proof. intros [? ?] ?. split; lia. Qed.

(** Block [j] of the view, a list of zeros outside the disk. *)
Definition vblock v (j : nat) : block := default [] (bv_cur v !! j).
Lemma vblock_lookup v j d : bv_cur v !! j = Some d → vblock v j = d.
Proof. unfold vblock. by intros ->. Qed.
Lemma tx_block f v bl j : tx f v bl → (j < length (bv_dsk v))%nat → bv_cur v !! j = Some (vblock v j) ∧ length (vblock v j) = BSIZE.
Proof.
  intros T Hj. pose proof (lr_blk _ _ _ _ (tx_rep _ _ _ T)) as R. rewrite <- (bd_len _ _ R) in Hj.
  apply lookup_lt_is_Some_2 in Hj as [d Hd]. rewrite (vblock_lookup _ _ _ Hd). split; [done|]. by eapply bd_size.
Qed.
Lemma tx_size f v bl : tx f v bl → size (bv_dirty v) = length bl.
Proof. intros T. rewrite (tx_dirty _ _ _ T). apply size_list_to_set, T. Qed.

Lemma fblk_wp {A} (m : M S A) Q f :
  (∃ a s, m (l_blk (fs_log f)) = Ok a s ∧ Q a (with_log (with_blk s (fs_log f)) f)) → wp (fblk m) Q f.
Proof.
  intros (a & s & Hm & HQ). unfold wp, fblk, logm, blk. erewrite zoom_run; [exact HQ|]. simpl. by erewrite zoom_run.
Qed.
Lemma tx_blk f v v' bl s :
  tx f v bl → bd_rep s v' → length (bv_dsk v') = length (bv_dsk v) → bv_dirty v' = bv_dirty v →
  tx (with_log (with_blk s (fs_log f)) f) v' bl.
Proof.
  intros [] Hs Hl Hd. constructor; simpl; try done.
  - by eapply lrep_blk.
  - congruence.
  - by rewrite Hl.
Qed.

Lemma wp_bread f v bl j b (Q : nat → fstate S → Prop) :
  tx f v bl → b = Z.of_nat j → (j < length (bv_dsk v))%nat → (∀ i, bv_held v !! i ≠ Some j) →
  (size (bv_held v) + length bl < NBUF)%nat →
  (∀ i f', bv_held v !! i = None → logged f f' → tx f' (v_held <[i := j]> v) bl → Q i f') →
  wp (fblk (bread ROOTDEV b)) Q f.
Proof.
  intros T -> Hj Hh Hroom HQ. apply fblk_wp.
  destruct (bd_bread _ v j (lr_blk _ _ _ _ (tx_rep _ _ _ T)) Hj Hh) as (i & s & Hm & Hi & R).
  { right. by rewrite (tx_size _ _ _ T). }
  exists i, s. split; [done|]. apply HQ; [done|by eexists|]. by eapply tx_blk.
Qed.
Lemma wp_get f v bl i j (Q : block → fstate S → Prop) :
  tx f v bl → bv_held v !! i = Some j → Q (vblock v j) f → wp (fblk (b_get i)) Q f.
Proof.
  intros T Hi HQ. apply fblk_wp. destruct (bd_get _ v i j (lr_blk _ _ _ _ (tx_rep _ _ _ T)) Hi) as (d & Hd & Hm).
  exists d, (l_blk (fs_log f)). split; [done|]. rewrite (vblock_lookup _ _ _ Hd) in HQ.
  replace (with_log _ f) with f; [done|]. by destruct f as [[] ? ? ? ? ?].
Qed.
Lemma wp_put f v bl i j d (Q : unit → fstate S → Prop) :
  tx f v bl → bv_held v !! i = Some j → length d = BSIZE →
  (∀ f', logged f f' → tx f' (v_cur <[j := d]> v) bl → Q tt f') → wp (fblk (b_put i d)) Q f.
Proof.
  intros T Hi Hd HQ. apply fblk_wp. destruct (bd_put _ v i j d (lr_blk _ _ _ _ (tx_rep _ _ _ T)) Hi Hd) as (s & Hm & R).
  exists tt, s. split; [done|]. apply HQ; [by eexists|]. by eapply tx_blk.
Qed.
Lemma wp_brelse f v bl i j (Q : unit → fstate S → Prop) :
  tx f v bl → bv_held v !! i = Some j → j ∈ bl ∨ bv_cur v !! j = bv_dsk v !! j →
  (∀ f', logged f f' → tx f' (v_held (delete i) v) bl → Q tt f') → wp (fblk (brelse i)) Q f.
Proof.
  intros T Hi Hj HQ. apply fblk_wp. destruct (bd_brelse _ v i j (lr_blk _ _ _ _ (tx_rep _ _ _ T)) Hi) as (s & Hm & R).
  { rewrite (tx_dirty _ _ _ T). set_solver. }
  exists tt, s. split; [done|]. apply HQ; [by eexists|]. by eapply tx_blk.
Qed.
Lemma wp_log_write f v bl i j (Q : unit → fstate S → Prop) :
  tx f v bl → bv_held v !! i = Some j → 1 ≤ o → room 1 bl → home j → (j < length (bv_dsk v))%nat →
  (∀ f', logged f f' → tx f' (v_dirty (λ D, {[j]} ∪ D) v) (log_add j bl) → Q tt f') → wp (logm (log_write i)) Q f.
Proof.
  intros T Hi Ho [Hr1 Hr2] Hj Hlt HQ.
  destruct (log_write_spec st sz (fs_log f) v i j bl (tx_rep _ _ _ T) Hi) as (x' & Hm & R & Htx & Hnd & Hd & Hout & Hcom);
    [apply T..|unfold LOGSIZE; lia|lia|by rewrite (tx_out _ _ _ T)|].
  unfold wp, logm. erewrite zoom_run; [|exact Hm]. simpl. apply HQ; [by eexists|]. constructor; try done.
  - simpl. by rewrite Hout, (tx_out _ _ _ T).
  - simpl. by rewrite Hcom, (tx_open _ _ _ T).
  - intros k [->|Hk]%log_add_elem; [done|]. by apply T.
Qed.
End tx.
