(* ===== verification/Bitmap.v ===== *)
(** * The block allocator (fs.c: bzero, balloc, bfree)

    A block is in use when its bit in the bitmap is set.  balloc finds a block
    that is not, sets its bit and clears the block; bfree clears the bit. *)

From S2P Require Import Prelude CStr Monitor Sleeplock Bytes Blocks Log Fs Tx.

(** ** Bits *)
Lemma land_pow2 x k : 0 ≤ k → (Z.land x (Z.shiftl 1 k) =? 0) = negb (Z.testbit x k).
Proof.
  intros Hk. rewrite Z.shiftl_1_l. destruct (Z.testbit x k) eqn:E; simpl.
  - apply Z.eqb_neq. intros H0. assert (Z.testbit (Z.land x (2 ^ k)) k = false) as H1 by (by rewrite H0, Z.bits_0).
    rewrite Z.land_spec, E, Z.pow2_bits_true in H1 by done. done.
  - apply Z.eqb_eq. apply Z.bits_inj'. intros n Hn. rewrite Z.land_spec, Z.bits_0, Z.pow2_bits_eqb by done.
    destruct (Z.eqb_spec k n) as [->|]; [by rewrite E|by rewrite andb_false_r].
Qed.
Lemma bit_clear_testbit d bi : bit_clear d bi = negb (Z.testbit (byte_at d (bi / 8)) (Z.of_nat (bi mod 8))).
Proof. unfold bit_clear, bit_mask. apply land_pow2. lia. Qed.
(** A bit of another byte, another bit of the same byte, or the same bit. *)
Lemma bit_cases (i j : nat) : i ≠ j → (i / 8 ≠ j / 8 ∨ (i / 8 = j / 8 ∧ i mod 8 ≠ j mod 8))%nat.
Proof.
  intros Hij. destruct (decide (i / 8 = j / 8)%nat) as [E|E]; [right|by left]. split; [done|]. intros E'. apply Hij.
  rewrite (Nat.div_mod_eq i 8), (Nat.div_mod_eq j 8). by rewrite E, E'.
Qed.
Lemma bit_clear_set bi bj d :
  (bi / 8 < length d)%nat → bit_clear (set_bit bi d) bj = if decide (bi = bj) then false else bit_clear d bj.
Proof.
  intros Hl. rewrite !bit_clear_testbit. unfold set_bit, bit_mask. rewrite Z.shiftl_1_l. case_decide as E.
  - subst bj. rewrite byte_at_insert_eq by done. rewrite Z.lor_spec, Z.pow2_bits_true by lia. by rewrite orb_true_r.
  - destruct (bit_cases bi bj E) as [Hne|[He Hm]]; [by rewrite byte_at_insert_ne|].
    rewrite <- He, byte_at_insert_eq, Z.lor_spec, Z.pow2_bits_false by (done || lia). by rewrite orb_false_r.
Qed.
Lemma bit_clear_clear bi bj d :
  (bi / 8 < length d)%nat → bit_clear (clear_bit bi d) bj = if decide (bi = bj) then true else bit_clear d bj.
Proof.
  intros Hl. rewrite !bit_clear_testbit. unfold clear_bit, bit_mask. rewrite Z.shiftl_1_l. case_decide as E.
  - subst bj. rewrite byte_at_insert_eq by done. rewrite Z.land_spec, Z.lnot_spec, Z.pow2_bits_true by lia. by rewrite andb_false_r.
  - destruct (bit_cases bi bj E) as [Hne|[He Hm]]; [by rewrite byte_at_insert_ne|].
    rewrite <- He, byte_at_insert_eq, Z.land_spec, Z.lnot_spec, Z.pow2_bits_false by (done || lia). by rewrite andb_true_r.
Qed.
Lemma length_set_bit bi d : length (set_bit bi d) = length d.
Proof. apply length_insert. Qed.
Lemma length_clear_bit bi d : length (clear_bit bi d) = length d.
Proof. apply length_insert. Qed.
Lemma bit_index_lt b : (Z.to_nat (b mod BPB) / 8 < BSIZE)%nat.
Proof.
  unfold BPB, BSIZE. apply Nat.Div0.div_lt_upper_bound. pose proof (Z.mod_pos_bound b 4096). lia.
Qed.

(** ** Views *)
(** Block [j] is overwritten and logged. *)
Definition wrote (j : nat) (d : block) (v : bview) : bview := v_dirty (λ D, {[j]} ∪ D) (v_cur <[j := d]> v).
Lemma wrote_same j d v : (j < length (bv_cur v))%nat → vblock (wrote j d v) j = d.
Proof. intros. unfold vblock, wrote. simpl. by rewrite list_lookup_insert_eq. Qed.
Lemma wrote_other j d v k : j ≠ k → vblock (wrote j d v) k = vblock v k.
Proof. intros. unfold vblock, wrote. simpl. by rewrite list_lookup_insert_ne. Qed.
Lemma wrote_len j d v : length (bv_cur (wrote j d v)) = length (bv_cur v).
Proof. simpl. apply length_insert. Qed.

(** Bit of block [b], and the number of the block that holds it. *)
Definition bmap_block (sb : superblock) (b : Z) : nat := Z.to_nat (BBLOCK b sb).
Definition used (sb : superblock) (v : bview) (b : Z) : bool :=
  negb (bit_clear (vblock v (bmap_block sb b)) (Z.to_nat (b mod BPB))).
(** Marking [b] in the bitmap. *)
Definition mark (sb : superblock) (b : Z) (v : bview) : bview :=
  wrote (bmap_block sb b) (set_bit (Z.to_nat (b mod BPB)) (vblock v (bmap_block sb b))) v.
Definition unmark (sb : superblock) (b : Z) (v : bview) : bview :=
  wrote (bmap_block sb b) (clear_bit (Z.to_nat (b mod BPB)) (vblock v (bmap_block sb b))) v.

Lemma bmap_block_Z sb b : 0 ≤ sb_bmapstart sb → 0 ≤ b → BBLOCK b sb = Z.of_nat (bmap_block sb b).
Proof. intros. unfold bmap_block. rewrite Z2Nat.id; [done|]. unfold BBLOCK, BPB. pose proof (Z.div_pos b 4096). lia. Qed.
(** Two blocks have the same bit only if they are the same block. *)
Lemma same_bit sb b c :
  0 ≤ sb_bmapstart sb → 0 ≤ b → 0 ≤ c → bmap_block sb b = bmap_block sb c → Z.to_nat (b mod BPB) = Z.to_nat (c mod BPB) → b = c.
Proof.
  intros H0 Hb Hc H1 H2. assert (BBLOCK b sb = BBLOCK c sb) as H3 by (rewrite !bmap_block_Z by done; congruence).
  unfold BBLOCK, BPB in *. pose proof (Z.mod_pos_bound b 4096). pose proof (Z.mod_pos_bound c 4096).
  rewrite (Z.div_mod b 4096), (Z.div_mod c 4096) by lia. lia.
Qed.
Section marks.
Context (sb : superblock) (v : bview).
Hypothesis Hstart : 0 ≤ sb_bmapstart sb.
Hypothesis Hsize : ∀ j, (j < length (bv_cur v))%nat → length (vblock v j) = BSIZE.
Lemma used_mark b c :
  0 ≤ b → 0 ≤ c → (bmap_block sb b < length (bv_cur v))%nat →
  used sb (mark sb b v) c = (if decide (b = c) then true else used sb v c).
Proof.
  intros Hb Hc Hl. unfold used, mark. destruct (decide (bmap_block sb b = bmap_block sb c)) as [E|E].
  - rewrite <- E, wrote_same, bit_clear_set by (done || (rewrite Hsize by done; apply bit_index_lt)).
    case_decide as E2.
    + by rewrite decide_True by (by eapply same_bit).
    + by rewrite decide_False by congruence.
  - rewrite wrote_other by done. by rewrite decide_False by congruence.
Qed.
Lemma used_unmark b c :
  0 ≤ b → 0 ≤ c → (bmap_block sb b < length (bv_cur v))%nat →
  used sb (unmark sb b v) c = (if decide (b = c) then false else used sb v c).
Proof.
  intros Hb Hc Hl. unfold used, unmark. destruct (decide (bmap_block sb b = bmap_block sb c)) as [E|E].
  - rewrite <- E, wrote_same, bit_clear_clear by (done || (rewrite Hsize by done; apply bit_index_lt)).
    case_decide as E2.
    + by rewrite decide_True by (by eapply same_bit).
    + by rewrite decide_False by congruence.
  - rewrite wrote_other by done. by rewrite decide_False by congruence.
Qed.
End marks.
Lemma used_wrote sb j d v c : j ≠ bmap_block sb c → used sb (wrote j d v) c = used sb v c.
Proof. intros. unfold used. by rewrite wrote_other. Qed.

(** ** The allocator *)
Section alloc.
Context {S : Type} `{!BlockOps S} `{!BlockDev S} `{!DevSw (fstate S)}.
Context (st sz : nat) (o : Z).
Hypothesis Hop : 1 ≤ o.
Abbreviation tx := (tx (S := S) st sz o).
Abbreviation room := (room sz).
Implicit Types (f : fstate S) (v : bview) (bl : list nat).

Lemma v_release i j d v :
  bv_held v !! i = None →
  v_held (delete i) (v_dirty (λ D, {[j]} ∪ D) (v_cur <[j := d]> (v_held <[i := j]> v))) = wrote j d v.
Proof. clear Hop. intros Hi. unfold v_held, v_dirty, v_cur, wrote. simpl. by rewrite delete_insert_id. Qed.
Lemma v_unread i j v : bv_held v !! i = None → v_held (delete i) (v_held <[i := j]> v) = v.
Proof. clear Hop. intros Hi. unfold v_held. destruct v; simpl in *. by rewrite delete_insert_id. Qed.

(** Change the block of a buffer just read, log it and release it. *)
Lemma wp_store f v bl i j d (Q : unit → fstate S → Prop) :
  tx f (v_held <[i := j]> v) bl → bv_held v !! i = None → length d = BSIZE → room 1 bl → home st sz j → (j < length (bv_dsk v))%nat →
  (∀ f', logged f f' → tx f' (wrote j d v) (log_add j bl) → Q tt f') →
  wp (fblk (b_put i d) ;; logm (log_write i) ;; fblk (brelse i)) Q f.
Proof.
  intros T Hi Hd Hr Hj Hlt HQ. apply wp_bind. eapply wp_put; [exact T|apply lookup_insert_eq|done|]. intros f1 L1 T1.
  apply wp_bind. eapply wp_log_write; [exact T1|apply lookup_insert_eq|done..|]. intros f2 L2 T2.
  eapply wp_brelse; [exact T2|apply lookup_insert_eq|left; apply log_add_elem; by left|]. intros f3 L3 T3.
  apply HQ; [by do 2 (etrans; [eassumption|])|]. by rewrite v_release in T3.
Qed.
Lemma wp_store_then {A} f v bl i j d (k : M (fstate S) A) (Q : A → fstate S → Prop) :
  tx f (v_held <[i := j]> v) bl → bv_held v !! i = None → length d = BSIZE → room 1 bl → home st sz j → (j < length (bv_dsk v))%nat →
  (∀ f', logged f f' → tx f' (wrote j d v) (log_add j bl) → wp k Q f') →
  wp (fblk (b_put i d) ;; logm (log_write i) ;; fblk (brelse i) ;; k) Q f.
Proof.
  intros T Hi Hd Hr Hj Hlt HQ. assert (m_eq (fblk (b_put i d) ;; logm (log_write i) ;; fblk (brelse i) ;; k)
    ((fblk (b_put i d) ;; logm (log_write i) ;; fblk (brelse i)) ;; k)) as ->.
  { intros s. unfold mbind, M_bind. by repeat case_match. }
  apply wp_bind. by eapply wp_store.
Qed.
(** Release a block that was only read. *)
Lemma wp_unread f v bl i j (Q : unit → fstate S → Prop) :
  tx f (v_held <[i := j]> v) bl → bv_held v !! i = None → j ∈ bl ∨ bv_cur v !! j = bv_dsk v !! j →
  (∀ f', logged f f' → tx f' v bl → Q tt f') → wp (fblk (brelse i)) Q f.
Proof. clear Hop.
  intros T Hi Hj HQ. eapply wp_brelse; [exact T|apply lookup_insert_eq|done|]. intros f1 L1 T1. rewrite v_unread in T1 by done. by apply HQ.
Qed.
Lemma tx_clean f v bl j : tx f v bl → (∀ i, bv_held v !! i ≠ Some j) → j ∈ bl ∨ bv_cur v !! j = bv_dsk v !! j.
Proof. clear Hop.
  intros T Hh. destruct (decide (j ∈ bl)) as [|Hn]; [by left|right].
  apply (bd_clean _ v j (lr_blk _ _ _ _ (tx_rep _ _ _ _ _ _ T))); [|done]. rewrite (tx_dirty _ _ _ _ _ _ T). set_solver.
Qed.

Definition zeros : block := replicate BSIZE 0.
Lemma bzero_wp f v bl j b (Q : unit → fstate S → Prop) :
  tx f v bl → b = Z.of_nat j → (j < length (bv_dsk v))%nat → (∀ i, bv_held v !! i ≠ Some j) →
  (size (bv_held v) ≤ 1)%nat → room 1 bl → home st sz j →
  (∀ f', logged f f' → tx f' (wrote j zeros v) (log_add j bl) → Q tt f') →
  wp (bzero ROOTDEV b) Q f.
Proof.
  intros T Hb Hj Hh Hs Hr Hho HQ. unfold bzero. apply wp_bind.
  eapply wp_bread; [exact T|done|done|done|destruct Hr; unfold NBUF; lia|]. intros i f1 Hi L1 T1.
  eapply wp_store; [exact T1|done|apply length_replicate|done|done|done|]. intros f2 L2 T2. apply HQ; [by etrans|done].
Qed.

(** The layout of the disk: the bitmap and the inodes lie before block [ds], the
    data blocks after it. *)
Record geom (sb : superblock) (n : nat) (ds : Z) : Prop := {
  gm_start : 0 ≤ sb_bmapstart sb;
  gm_ds : 0 < ds ≤ sb_size sb;
  gm_size : sb_size sb ≤ Z.of_nat n;
  gm_u32 : sb_size sb < 2 ^ 32;
  gm_bmap b : 0 ≤ b < sb_size sb → BBLOCK b sb < ds;
  gm_inode i b : 0 ≤ i < sb_ninodes sb → 0 ≤ b < sb_size sb → 0 ≤ IBLOCK i sb < ds ∧ IBLOCK i sb ≠ BBLOCK b sb;
  gm_log : 0 ≤ sb_logstart sb ∧ 0 ≤ sb_nlog sb;
  gm_log_bmap b : 0 ≤ b < sb_size sb → BBLOCK b sb < sb_logstart sb ∨ sb_logstart sb + sb_nlog sb ≤ BBLOCK b sb;
  gm_log_inode i : 0 ≤ i < sb_ninodes sb → IBLOCK i sb < sb_logstart sb ∨ sb_logstart sb + sb_nlog sb ≤ IBLOCK i sb;
  gm_log_data : sb_logstart sb + sb_nlog sb ≤ ds }.
Context (sb : superblock) (ds : Z).
(** The log is where the superblock says. *)
Definition log_at : Prop := sb_logstart sb = Z.of_nat st ∧ sb_nlog sb = Z.of_nat sz.
Lemma bmap_home n b : geom sb n ds → log_at → 0 ≤ b < sb_size sb → home st sz (bmap_block sb b).
Proof. clear Hop.
  intros G [E1 E2] Hb. pose proof (gm_log_bmap _ _ _ G b Hb) as H. rewrite (bmap_block_Z sb b) in H by (apply G || lia).
  unfold home. lia.
Qed.
Lemma data_home n b : geom sb n ds → log_at → ds ≤ b → home st sz (Z.to_nat b).
Proof. clear Hop. intros G [E1 E2] Hb. pose proof (gm_log_data _ _ _ G) as H. unfold home. lia. Qed.
Lemma bmap_block_lt n b : geom sb n ds → 0 ≤ b < sb_size sb → (Z.of_nat (bmap_block sb b) < ds) ∧ (bmap_block sb b < n)%nat.
Proof. clear Hop.
  intros [] Hb. pose proof (gm_bmap0 b Hb). rewrite (bmap_block_Z sb b) in H by lia. split; lia.
Qed.
(** The metadata is marked as in use. *)
Definition meta_used v : Prop := ∀ b, 0 ≤ b < ds → used sb v b = true.
(** A buffer that may be held while balloc runs. *)
Definition may_hold v : Prop :=
  (size (bv_held v) ≤ 1)%nat ∧
  ∀ i j, bv_held v !! i = Some j → used sb v (Z.of_nat j) = true ∧ ∀ b, 0 ≤ b < sb_size sb → j ≠ bmap_block sb b.

Lemma balloc_from_wp ks f v bl (Q : Z → fstate S → Prop) :
  tx f v bl → fs_sb f = sb → geom sb (length (bv_dsk v)) ds → log_at → meta_used v → may_hold v → room 2 bl →
  (∀ k, k ∈ ks → Z.of_nat k * BPB < sb_size sb) →
  (∃ b, 0 ≤ b < sb_size sb ∧ Z.to_nat (b / BPB) ∈ ks ∧ used sb v b = false) →
  (∀ b f', ds ≤ b < sb_size sb → used sb v b = false → logged f f' →
     tx f' (wrote (Z.to_nat b) zeros (mark sb b v)) (log_add (Z.to_nat b) (log_add (bmap_block sb b) bl)) → Q b f') →
  wp (balloc_from ROOTDEV ks) Q f.
Proof.
  intros T Hsb G Hlog Hm [Hh1 Hh2] Hr. revert f T Hsb. induction ks as [|k ks IH]; intros f T Hsb Hks Hfree HQ.
  { destruct Hfree as (b & _ & H%elem_of_nil & _). done. }
  simpl. apply wp_bind. unfold wp at 1. simpl. rewrite Hsb. set (b0 := Z.of_nat k * BPB).
  assert (0 ≤ b0 < sb_size sb) as Hb0 by (split; [unfold b0, BPB; lia|apply Hks, elem_of_cons; by left]).
  destruct (bmap_block_lt _ b0 G Hb0) as [_ Hlt]. apply wp_bind.
  assert (∀ i, bv_held v !! i ≠ Some (bmap_block sb b0)) as Hnh by (intros i Hi; by apply (proj2 (Hh2 _ _ Hi) b0 Hb0)).
  eapply wp_bread; [exact T|apply bmap_block_Z; [apply G|lia]|done|done|destruct Hr; unfold NBUF; lia|].
  intros i f1 Hi L1 T1. apply wp_bind. eapply wp_get; [exact T1|apply lookup_insert_eq|].
  destruct (tx_block _ _ _ _ _ _ _ T Hlt) as [_ Hlen]. change (vblock (v_held <[i := bmap_block sb b0]> v)) with (vblock v).
  assert (∀ bi, (bi < 4096)%nat → bmap_block sb (b0 + Z.of_nat bi) = bmap_block sb b0 ∧ Z.to_nat ((b0 + Z.of_nat bi) mod BPB) = bi) as Hbit.
  { intros bi Hbi. unfold bmap_block, BBLOCK, b0, BPB. rewrite Z.div_add_l, Z.div_mul, (Z.div_small (Z.of_nat bi)) by lia.
    split; [f_equal; lia|]. rewrite Z.add_comm, Z.mod_add, Z.mod_small by lia. lia. }
  destruct (find_index _ _) as [bi|] eqn:E.
  - apply find_index_Some in E as (x & Hx & Hc & _). apply lookup_seq in Hx as [-> Hbi]. simpl in Hc.
    assert (bi < 4096)%nat as Hbi' by (unfold BPB in Hbi; lia). destruct (Hbit bi Hbi') as [E1 E2]. set (b := b0 + Z.of_nat bi).
    assert (0 ≤ b < sb_size sb) as Hb by (unfold b; lia).
    assert (used sb v b = false) as Hu by (unfold used, b; rewrite E1, E2; by rewrite Hc).
    assert (ds ≤ b) as Hds by (destruct (Z.le_gt_cases ds b); [done|]; rewrite Hm in Hu by lia; done).
    eapply wp_store_then; [exact T1|done|by rewrite length_set_bit|apply (room_le _ _ 2); [done|lia]|by eapply bmap_home|done|].
    intros f2 L2 T2. apply wp_bind. pose proof (data_home _ b G Hlog Hds) as Hho. destruct G.
    eapply bzero_wp with (j := Z.to_nat b); [exact T2|unfold b; lia|simpl; lia| |done|by apply room_add|done|].
    { intros i' Hi'. destruct (Hh2 _ _ Hi') as [Hu' _]. rewrite Z2Nat.id in Hu' by lia. congruence. }
    intros f3 L3 T3. unfold wp. simpl. apply HQ; [lia|done|by do 2 (etrans; [eassumption|])|].
    unfold mark. unfold b in *. rewrite E1, E2. exact T3.
  - rewrite find_index_None in E. apply wp_bind. eapply wp_unread; [exact T1|done|by eapply tx_clean|].
    intros f2 L2 T2. destruct L1 as [l1 ->], L2 as [l2 ->].
    apply IH; [exact T2|done|intros k' Hk'; apply Hks, elem_of_cons; by right| |].
    + destruct Hfree as (b & Hb & Hin & Hu). exists b. split; [done|split; [|done]]. apply elem_of_cons in Hin as [Hin|]; [|done].
      exfalso. assert (b = b0 + Z.of_nat (Z.to_nat (b mod BPB))) as Eb.
      { unfold b0. rewrite Z2Nat.id by (apply Z.mod_pos_bound; done). rewrite <- Hin, Z2Nat.id by (apply Z.div_pos; [lia|done]).
        rewrite Z.mul_comm. apply Z.div_mod. done. }
      pose proof (Z.mod_pos_bound b BPB ltac:(done)) as Hmod. unfold BPB in Hmod.
      specialize (E (Z.to_nat (b mod BPB)) (Z.to_nat (b mod BPB))).
      rewrite lookup_seq_lt in E by (unfold BPB in *; lia). specialize (E eq_refl).
      unfold used in Hu. rewrite Eb in Hu. destruct (Hbit (Z.to_nat (b mod BPB))) as [E1 E2]; [unfold BPB; lia|].
      rewrite E1, E2, E in Hu. done.
    + intros b f' Hb Hu L T'. apply HQ; [done|done|exact L|done].
Qed.
(** balloc: a block that was free, now marked and cleared. *)
Lemma balloc_wp f v bl (Q : Z → fstate S → Prop) :
  tx f v bl → fs_sb f = sb → geom sb (length (bv_dsk v)) ds → log_at → meta_used v → may_hold v → room 2 bl →
  (∃ b, 0 ≤ b < sb_size sb ∧ used sb v b = false) →
  (∀ b f', ds ≤ b < sb_size sb → used sb v b = false → logged f f' →
     tx f' (wrote (Z.to_nat b) zeros (mark sb b v)) (log_add (Z.to_nat b) (log_add (bmap_block sb b) bl)) → Q b f') →
  wp (balloc ROOTDEV) Q f.
Proof.
  intros T Hsb G Hlog Hm Hh Hr (b & Hb & Hu) HQ. unfold balloc. apply wp_bind. unfold wp at 1. simpl. rewrite Hsb.
  eapply balloc_from_wp; [done..| | |exact HQ].
  - intros k Hk%elem_of_seq. unfold BPB in *. assert (Z.of_nat k < (sb_size sb + 4096 - 1) / 4096) as H by lia.
    pose proof (Z.mul_div_le (sb_size sb + 4096 - 1) 4096). nia.
  - exists b. split; [done|split; [|done]]. apply elem_of_seq. unfold BPB.
    assert (b / 4096 < (sb_size sb + 4096 - 1) / 4096).
    { apply Z.div_lt_upper_bound; [lia|]. pose proof (Z.div_mod (sb_size sb + 4096 - 1) 4096). pose proof (Z.mod_pos_bound (sb_size sb + 4096 - 1) 4096). lia. }
    pose proof (Z.div_pos b 4096). lia.
Qed.
Lemma balloc_full f v bl :
  tx f v bl → fs_sb f = sb → geom sb (length (bv_dsk v)) ds → may_hold v → room 0 bl →
  (∀ b, 0 ≤ b < sb_size sb → used sb v b = true) → balloc ROOTDEV f = Panic "balloc: out of blocks".
Proof. clear Hop.
  intros T Hsb G [Hh1 Hh2] Hr Hall. unfold balloc. rewrite (bind_run _ _ (fs_sb f) f f) by done. rewrite Hsb.
  assert (∀ k, k ∈ seq 0 (Z.to_nat ((sb_size sb + BPB - 1) / BPB)) → Z.of_nat k * BPB < sb_size sb) as Hks.
  { intros k Hk%elem_of_seq. unfold BPB in *. assert (Z.of_nat k < (sb_size sb + 4096 - 1) / 4096) as H by lia.
    pose proof (Z.mul_div_le (sb_size sb + 4096 - 1) 4096). nia. }
  revert Hks. generalize (seq 0 (Z.to_nat ((sb_size sb + BPB - 1) / BPB))). intros ks. revert f T Hsb.
  induction ks as [|k ks IH]; intros f T Hsb Hks; [done|]. simpl. rewrite (bind_run _ _ (fs_sb f) f f) by done. rewrite Hsb.
  set (b0 := Z.of_nat k * BPB). assert (0 ≤ b0 < sb_size sb) as Hb0 by (split; [unfold b0, BPB; lia|apply Hks, elem_of_cons; by left]).
  destruct (bmap_block_lt _ b0 G Hb0) as [_ Hlt].
  assert (∀ i, bv_held v !! i ≠ Some (bmap_block sb b0)) as Hnh by (intros i Hi; by apply (proj2 (Hh2 _ _ Hi) b0 Hb0)).
  assert (wp (bp ← fblk (bread ROOTDEV (BBLOCK b0 sb)); d ← fblk (b_get bp); fblk (brelse bp) ;; mret d)
            (λ d f', d = vblock v (bmap_block sb b0) ∧ logged f f' ∧ tx f' v bl) f) as Hrun.
  { apply wp_bind. eapply wp_bread; [exact T|apply bmap_block_Z; [apply G|lia]|done|done|destruct Hr; unfold NBUF; lia|].
    intros i f1 Hi L1 T1. apply wp_bind. eapply wp_get; [exact T1|apply lookup_insert_eq|].
    apply wp_bind. eapply wp_unread; [exact T1|done|by eapply tx_clean|]. intros f2 L2 T2. split_and!; [done|by etrans|done]. }
  apply wp_ok in Hrun as (d & f2 & Hrun & -> & [l ->] & T2).
  apply bind_ok in Hrun as (bp & f1 & H1 & Hrun). apply bind_ok in Hrun as (d & f1' & H2 & Hrun).
  apply bind_ok in Hrun as ([] & f1'' & H3 & Hrun). injection Hrun as -> ->.
  rewrite (bind_run _ _ _ _ _ H1), (bind_run _ _ _ _ _ H2).
  destruct (find_index _ _) as [bi|] eqn:E.
  - exfalso. apply find_index_Some in E as (x & Hx & Hc & _). apply lookup_seq in Hx as [-> Hbi]. simpl in Hc.
    specialize (Hall (b0 + Z.of_nat bi) ltac:(lia)). unfold used in Hall.
    replace (bmap_block sb (b0 + Z.of_nat bi)) with (bmap_block sb b0) in Hall.
    2: { unfold bmap_block, BBLOCK, b0, BPB in *. rewrite Z.div_add_l, Z.div_mul, (Z.div_small (Z.of_nat bi)) by lia. f_equal; lia. }
    replace (Z.to_nat ((b0 + Z.of_nat bi) mod BPB)) with bi in Hall by (unfold b0, BPB in *; rewrite Z.add_comm, Z.mod_add, Z.mod_small by lia; lia).
    by rewrite Hc in Hall.
  - rewrite (bind_run _ _ _ _ _ H3). apply IH; [exact T2|done|]. intros k' Hk'. apply Hks, elem_of_cons. by right.
Qed.
Lemma bfree_wp f v bl b (Q : unit → fstate S → Prop) :
  tx f v bl → fs_sb f = sb → geom sb (length (bv_dsk v)) ds → log_at → may_hold v → room 1 bl →
  0 ≤ b < sb_size sb → used sb v b = true →
  (∀ f', logged f f' → tx f' (unmark sb b v) (log_add (bmap_block sb b) bl) → Q tt f') →
  wp (bfree ROOTDEV b) Q f.
Proof.
  intros T Hsb G Hlog [Hh1 Hh2] Hr Hb Hu HQ. destruct (bmap_block_lt _ b G Hb) as [_ Hlt]. unfold bfree.
  apply wp_bind. unfold wp at 1. simpl. rewrite Hsb. apply wp_bind.
  eapply wp_bread; [exact T|apply bmap_block_Z; [apply G|lia]|done| |destruct Hr; unfold NBUF; lia|].
  { intros i Hi. by apply (proj2 (Hh2 _ _ Hi) b Hb). }
  intros i f1 Hi L1 T1. apply wp_bind. eapply wp_get; [exact T1|apply lookup_insert_eq|].
  change (vblock (v_held <[i := bmap_block sb b]> v)) with (vblock v).
  unfold used in Hu. apply negb_true_iff in Hu. rewrite Hu.
  destruct (tx_block _ _ _ _ _ _ _ T Hlt) as [_ Hlen].
  eapply wp_store; [exact T1|done|by rewrite length_clear_bit|done|by eapply bmap_home|done|]. intros f2 L2 T2. apply HQ; [by etrans|done].
Qed.
End alloc.
