(* ===== verification/Content.v ===== *)
(** * Files on disk (fs.c: bmap, readi, writei, iupdate)

    A file is the sequence of bytes that the addresses of its inode lead to,
    through the indirect block from block 12 on.  [fwf v d]: the addresses of the
    inode [d] are data blocks in use, no two of them the same, and every block
    below the file's size is there. *)

From S2P Require Import Prelude CStr Monitor Sleeplock Bytes Blocks Log Fs Tx Bitmap.

Definition daddr (d : dinode) (k : nat) : Z := default 0 (d_addrs d !! k).
(** The indirect block of an inode, and the address of its block [n]. *)
Definition ind_block (d : dinode) : nat := Z.to_nat (daddr d 12).
Definition addr_at (v : bview) (d : dinode) (n : nat) : Z :=
  if (n <? 12)%nat then daddr d n
  else if daddr d 12 =? 0 then 0 else get32 (vblock v (ind_block d)) (4 * (n - 12)).
Definition NBLOCKS : nat := 140.

(** All blocks of a file. *)
Definition owned (v : bview) (d : dinode) : gset nat :=
  list_to_set (omap (λ n, if addr_at v d n =? 0 then None else Some (Z.to_nat (addr_at v d n))) (seq 0 NBLOCKS)) ∪
  (if daddr d 12 =? 0 then ∅ else {[ind_block d]}).
Lemma owned_spec v d c :
  c ∈ owned v d ↔ (∃ n, (n < NBLOCKS)%nat ∧ addr_at v d n ≠ 0 ∧ c = Z.to_nat (addr_at v d n)) ∨ (daddr d 12 ≠ 0 ∧ c = ind_block d).
Proof.
  unfold owned. rewrite elem_of_union, elem_of_list_to_set, list_elem_of_omap. setoid_rewrite elem_of_seq.
  apply ZifyClasses.or_morph.
  - split; intros (n & H & H'); exists n; destruct (Z.eqb_spec (addr_at v d n) 0); naive_solver lia.
  - destruct (Z.eqb_spec (daddr d 12) 0); set_solver.
Qed.

Section files.
Context (sb : superblock) (ds : Z).
Implicit Types (v : bview) (d : dinode).

Definition data_block v (a : Z) : Prop := ds ≤ a < sb_size sb ∧ used sb v a = true.
Record fwf v d : Prop := {
  fw_len : length (d_addrs d) = 13%nat;
  fw_size : 0 ≤ d_size d ≤ MAXFILE * BSZ;
  fw_data n : (n < NBLOCKS)%nat → addr_at v d n ≠ 0 → data_block v (addr_at v d n);
  fw_ind : daddr d 12 ≠ 0 → data_block v (daddr d 12);
  fw_inj n m : (n < NBLOCKS)%nat → (m < NBLOCKS)%nat → addr_at v d n ≠ 0 → addr_at v d n = addr_at v d m → n = m;
  fw_ne n : (n < NBLOCKS)%nat → addr_at v d n ≠ 0 → addr_at v d n ≠ daddr d 12;
  fw_alloc n : Z.of_nat n * BSZ < d_size d → addr_at v d n ≠ 0 }.

(** [ext X v v']: blocks in use stay in use, and keep their contents unless they
    are in [X] or hold the bitmap. *)
Record ext (X : gset nat) v v' : Prop := {
  ex_dsk : bv_dsk v' = bv_dsk v;
  ex_writes : bv_writes v' = bv_writes v;
  ex_held : bv_held v' = bv_held v;
  ex_len : length (bv_cur v') = length (bv_cur v);
  ex_used c : 0 ≤ c < sb_size sb → used sb v c = true → used sb v' c = true;
  ex_same (c : nat) : Z.of_nat c < sb_size sb → used sb v (Z.of_nat c) = true → (∀ b, 0 ≤ b < sb_size sb → c ≠ bmap_block sb b) → c ∉ X →
    vblock v' c = vblock v c }.
Lemma ext_refl X v : ext X v v.
Proof. by constructor. Qed.
Lemma ext_trans X v v1 v2 : ext X v v1 → ext X v1 v2 → ext X v v2.
Proof.
  intros [] []. constructor; [congruence|congruence|congruence|congruence|auto|]. intros c Hs Hc Hb HX. rewrite ex_same1, ex_same0; auto with lia.
Qed.
(** Blocks that were free at first do not count. *)
Lemma ext_trans_fresh (X Y : gset nat) v v1 v2 :
  ext X v v1 → ext Y v1 v2 → (∀ c, c ∈ Y → c ∈ X ∨ used sb v (Z.of_nat c) = false) → ext X v v2.
Proof.
  intros E1 E2 HY. constructor.
  - rewrite (ex_dsk _ _ _ E2). apply E1.
  - rewrite (ex_writes _ _ _ E2). apply E1.
  - rewrite (ex_held _ _ _ E2). apply E1.
  - rewrite (ex_len _ _ _ E2). apply E1.
  - intros x Hx Hu. apply (ex_used _ _ _ E2); [done|]. by apply (ex_used _ _ _ E1).
  - intros x Hx Hu Hb HX. rewrite (ex_same _ _ _ E2 x); [by apply (ex_same _ _ _ E1)|done| |done|].
    + apply (ex_used _ _ _ E1); [lia|done].
    + intros Hy. destruct (HY x Hy); [done|congruence].
Qed.
Lemma ext_mono X Y v v' : X ⊆ Y → ext X v v' → ext Y v v'.
Proof. intros HXY []. constructor; try done. intros c Hs Hc Hb HY. apply ex_same0; [done..|set_solver]. Qed.
Lemma meta_used_ext X v v' : ds ≤ sb_size sb → meta_used sb ds v → ext X v v' → meta_used sb ds v'.
Proof. intros Hds Hm E b Hb. apply (ex_used _ _ _ E); [lia|by apply Hm]. Qed.
(** A write to a block of [X] that does not hold the bitmap. *)
Lemma ext_wrote (X : gset nat) v j x : j ∈ X → (∀ b, 0 ≤ b < sb_size sb → j ≠ bmap_block sb b) → ext X v (wrote j x v).
Proof.
  intros Hj Hb. constructor; try done.
  - apply wrote_len.
  - intros c Hc Hcu. rewrite used_wrote; [done|]. by apply Hb.
  - intros c _ _ _ Hc. apply wrote_other. set_solver.
Qed.

Lemma data_not_bmap n c a : geom sb n ds → ds ≤ a → 0 ≤ c < sb_size sb → Z.to_nat a ≠ bmap_block sb c.
Proof. intros G Ha Hc. pose proof (bmap_block_lt sb ds n c G Hc) as [? _]. lia. Qed.

(** *** A freshly allocated block *)
Section fresh.
Context (v : bview) (n : nat) (b : Z).
Hypothesis G : geom sb n ds.
Hypothesis Hn : (n ≤ length (bv_cur v))%nat.
Hypothesis Hsize : ∀ j, (j < length (bv_cur v))%nat → length (vblock v j) = BSIZE.
Hypothesis Hb : ds ≤ b < sb_size sb.
Hypothesis Hu : used sb v b = false.
Definition fresh_view : bview := wrote (Z.to_nat b) zeros (mark sb b v).
Lemma fresh_used c : 0 ≤ c < sb_size sb → used sb fresh_view c = if decide (b = c) then true else used sb v c.
Proof.
  intros Hc. destruct (gm_ds _ _ _ G) as [H0 _]. unfold fresh_view. rewrite used_wrote by (apply (data_not_bmap n); [exact G|lia..]).
  apply used_mark; [apply G|done|lia|lia|]. pose proof (bmap_block_lt sb ds n b G ltac:(lia)) as [_ ?]. lia.
Qed.
Lemma fresh_zero : vblock fresh_view (Z.to_nat b) = zeros.
Proof. unfold fresh_view. apply wrote_same. unfold mark. rewrite wrote_len. pose proof (gm_size _ _ _ G). pose proof (gm_ds _ _ _ G). lia. Qed.
Lemma fresh_same (c : nat) : Z.to_nat b ≠ c → bmap_block sb b ≠ c → vblock fresh_view c = vblock v c.
Proof. intros H1 H2. unfold fresh_view. rewrite wrote_other by done. unfold mark. by rewrite wrote_other. Qed.
Lemma fresh_ext : ext ∅ v fresh_view.
Proof.
  destruct (gm_ds _ _ _ G) as [H0 _]. constructor; try done.
  - unfold fresh_view, mark. by rewrite !wrote_len.
  - intros c Hc Hcu. rewrite fresh_used by done. by case_decide.
  - intros c Hs Hcu Hcb _. apply fresh_same; [|by apply not_eq_sym, Hcb; lia]. intros <-. rewrite Z2Nat.id in Hcu by lia. congruence.
Qed.
End fresh.

(** Blocks in use are the same after [ext], so a file that does not meet [X] is
    the same file. *)
Lemma ext_data X v v' n a :
  geom sb n ds → ext X v v' → data_block v a → Z.to_nat a ∉ X → vblock v' (Z.to_nat a) = vblock v (Z.to_nat a).
Proof.
  intros G E [Ha Hu] HX. destruct (gm_ds _ _ _ G) as [H0 _]. apply (ex_same _ _ _ E); [lia|by rewrite Z2Nat.id by lia| |done].
  intros c Hc. apply (data_not_bmap n); [exact G|lia..].
Qed.
Lemma ext_data_block X v v' n a : geom sb n ds → ext X v v' → data_block v a → data_block v' a.
Proof. intros G E [Ha Hu]. split; [done|]. destruct (gm_ds _ _ _ G). apply (ex_used _ _ _ E); [lia|done]. Qed.
Lemma addr_at_ext X v v' n d k :
  geom sb n ds → ext X v v' → (daddr d 12 ≠ 0 → data_block v (daddr d 12)) → (daddr d 12 ≠ 0 → ind_block d ∉ X) → addr_at v' d k = addr_at v d k.
Proof.
  intros G E Hi HX. unfold addr_at. destruct (k <? 12)%nat; [done|]. destruct (Z.eqb_spec (daddr d 12) 0); [done|].
  unfold ind_block. by erewrite ext_data by eauto.
Qed.
Lemma fwf_ext X v v' n d :
  geom sb n ds → ext X v v' → fwf v d → (daddr d 12 ≠ 0 → ind_block d ∉ X) → fwf v' d.
Proof.
  intros G E [] HX. assert (∀ k, addr_at v' d k = addr_at v d k) as Ha by (intros k; by eapply addr_at_ext).
  constructor; try done.
  - intros k Hk. rewrite Ha. intros Hne. eapply ext_data_block; [done..|]. by apply fw_data0.
  - intros Hne. eapply ext_data_block; [done..|]. by apply fw_ind0.
  - intros k m Hk Hm. rewrite !Ha. by apply fw_inj0.
  - intros k Hk. rewrite !Ha. by apply fw_ne0.
  - intros k Hk. rewrite Ha. by apply fw_alloc0.
Qed.

(** *** A file grows by a block *)
Lemma data_block_not_fresh v a b : data_block v a → used sb v b = false → a ≠ b.
Proof. intros [_ Hu] Hb ->. congruence. Qed.
(** Block [n0] of the file becomes [b], a block that was free. *)
Lemma fwf_grow v v' d d' n0 b :
  fwf v d → length (d_addrs d') = 13%nat → d_size d' = d_size d → daddr d' 12 = daddr d 12 →
  (∀ a, data_block v a → data_block v' a) → data_block v' b → used sb v b = false → b ≠ 0 →
  (∀ k, (k < NBLOCKS)%nat → addr_at v' d' k = if decide (k = n0) then b else addr_at v d k) → fwf v' d'.
Proof.
  intros [] Hl Hs Hi Hd Hb Hu Hb0 Ha.
  assert (∀ k, (k < NBLOCKS)%nat → addr_at v d k ≠ 0 → addr_at v d k ≠ b) as Hnew.
  { intros k Hk Hne. eapply data_block_not_fresh; [|done]. by apply fw_data0. }
  constructor.
  - done.
  - by rewrite Hs.
  - intros k Hk. rewrite Ha by done. case_decide; [done|]. intros Hne. by apply Hd, fw_data0.
  - rewrite Hi. intros Hne. by apply Hd, fw_ind0.
  - intros k m Hk Hm. rewrite !Ha by done. repeat case_decide; subst; try done.
    + intros _ E. exfalso. apply (Hnew m Hm); congruence.
    + intros Hne E. exfalso. by apply (Hnew k Hk).
    + by apply fw_inj0.
  - intros k Hk. rewrite Ha, Hi by done. case_decide; [|by apply fw_ne0]. intros _ E.
    destruct (decide (daddr d 12 = 0)); [congruence|]. by apply (data_block_not_fresh v (daddr d 12) b); [apply fw_ind0| |].
  - intros k. rewrite Hs. intros Hk. assert (k < NBLOCKS)%nat as Hk' by (unfold NBLOCKS, MAXFILE, BSZ in *; lia).
    rewrite Ha by done. case_decide; [done|]. by apply fw_alloc0.
Qed.
(** The file gets an indirect block, so far without entries. *)
Lemma fwf_grow_ind v v' d d' b :
  fwf v d → length (d_addrs d') = 13%nat → d_size d' = d_size d → daddr d 12 = 0 → daddr d' 12 = b →
  (∀ a, data_block v a → data_block v' a) → data_block v' b → used sb v b = false →
  (∀ k, (k < NBLOCKS)%nat → addr_at v' d' k = addr_at v d k) → fwf v' d'.
Proof.
  intros [] Hl Hs Hi Hi' Hd Hb Hu Ha. constructor.
  - done.
  - by rewrite Hs.
  - intros k Hk. rewrite Ha by done. intros Hne. by apply Hd, fw_data0.
  - by rewrite Hi'.
  - intros k m Hk Hm. rewrite !Ha by done. by apply fw_inj0.
  - intros k Hk. rewrite Ha, Hi' by done. intros Hne. eapply data_block_not_fresh; [|done]. by apply fw_data0.
  - intros k. rewrite Hs. intros Hk. rewrite Ha by (unfold NBLOCKS, MAXFILE, BSZ in *; lia). by apply fw_alloc0.
Qed.
Lemma daddr_with_addr d k k' a :
  (k < length (d_addrs d))%nat → daddr (with_addr k a d) k' = if decide (k = k') then a else daddr d k'.
Proof.
  intros Hk. unfold daddr, with_addr. simpl. case_decide; [subst; by rewrite list_lookup_insert_eq|by rewrite list_lookup_insert_ne].
Qed.
Lemma get32_zeros o : get32 zeros o = 0.
Proof.
  assert (∀ k, byte_at zeros k = 0) as H.
  { intros k. unfold byte_at, zeros. destruct (replicate BSIZE 0 !! k) eqn:E; [|done]. apply lookup_replicate in E as [-> _]. done. }
  unfold get32. by rewrite !H.
Qed.

Section grow.
Context (v : bview) (n : nat) (b : Z) (d : dinode).
Hypothesis G : geom sb n ds.
Hypothesis Hn : (n ≤ length (bv_cur v))%nat.
Hypothesis Hsize : ∀ j, (j < length (bv_cur v))%nat → length (vblock v j) = BSIZE.
Hypothesis Hb : ds ≤ b < sb_size sb.
Hypothesis Hu : used sb v b = false.
Hypothesis Hd : fwf v d.
Abbreviation v' := (fresh_view v b).
Lemma fresh_data : ∀ a, data_block v a → data_block v' a.
Proof. intros a. eapply ext_data_block; [exact G|by apply (fresh_ext v n b)]. Qed.
Lemma fresh_block : data_block v' b.
Proof. split; [done|]. rewrite (fresh_used v n b) by (done || (destruct (gm_ds _ _ _ G); lia)). by rewrite decide_True. Qed.
Lemma fresh_addr k : addr_at v' d k = addr_at v d k.
Proof. eapply addr_at_ext; [exact G|by apply (fresh_ext v n b)|apply Hd|set_solver]. Qed.
Lemma ind_not_fresh : daddr d 12 ≠ 0 → Z.to_nat b ≠ ind_block d ∧ bmap_block sb b ≠ ind_block d.
Proof.
  intros Hi. destruct (fw_ind _ _ Hd Hi) as [Hr Hui]. destruct (gm_ds _ _ _ G). unfold ind_block. split.
  - intros E. assert (b = daddr d 12) by lia. congruence.
  - apply not_eq_sym, (data_not_bmap n); [exact G|lia..].
Qed.
(** A direct block. *)
Lemma grow_direct k :
  (k < 12)%nat → let d' := with_addr k b d in
  (∀ m, (m < NBLOCKS)%nat → addr_at v' d' m = if decide (m = k) then b else addr_at v d m) ∧ fwf v' d'.
Proof.
  intros Hk d'. destruct (gm_ds _ _ _ G). pose proof (fw_len _ _ Hd) as Hlen.
  assert (∀ m, daddr d' m = if decide (k = m) then b else daddr d m) as Hda by (intros m; apply daddr_with_addr; lia).
  assert (∀ m, (m < NBLOCKS)%nat → addr_at v' d' m = if decide (m = k) then b else addr_at v d m) as Ha.
  { intros m _. rewrite <- fresh_addr. unfold addr_at, ind_block. rewrite !Hda, (decide_False (P := k = 12%nat)) by lia.
    destruct (Nat.ltb_spec m 12); [repeat case_decide; congruence|]. by rewrite decide_False by lia. }
  split; [done|]. eapply (fwf_grow v v' d d' k b Hd); try done.
  - unfold d'. simpl. by rewrite length_insert.
  - by rewrite Hda, decide_False by lia.
  - apply fresh_data.
  - apply fresh_block.
  - lia.
Qed.
(** The indirect block. *)
Lemma grow_indirect :
  daddr d 12 = 0 → let d' := with_addr 12 b d in
  (∀ m, (m < NBLOCKS)%nat → addr_at v' d' m = addr_at v d m) ∧ fwf v' d' ∧ daddr d' 12 = b.
Proof.
  intros Hi d'. destruct (gm_ds _ _ _ G). pose proof (fw_len _ _ Hd) as Hlen.
  assert (∀ m, daddr d' m = if decide (12%nat = m) then b else daddr d m) as Hda by (intros m; apply daddr_with_addr; lia).
  assert (daddr d' 12 = b) as Hd12 by (by rewrite Hda).
  assert (∀ m, (m < NBLOCKS)%nat → addr_at v' d' m = addr_at v d m) as Ha.
  { intros m _. unfold addr_at, ind_block. destruct (Nat.ltb_spec m 12); [rewrite Hda; by rewrite decide_False by lia|].
    rewrite Hd12, Hi. simpl. destruct (Z.eqb_spec b 0); [done|]. rewrite (fresh_zero v n b) by done. apply get32_zeros. }
  split_and!; [done| |done]. eapply (fwf_grow_ind v v' d d' b Hd); try done.
  - unfold d'. simpl. by rewrite length_insert.
  - apply fresh_data.
  - apply fresh_block.
Qed.
(** An entry of the indirect block. *)
Lemma grow_entry m :
  (12 ≤ m < NBLOCKS)%nat → daddr d 12 ≠ 0 →
  let v2 := wrote (ind_block d) (put32 (4 * (m - 12)) b (vblock v' (ind_block d))) v' in
  (∀ k, (k < NBLOCKS)%nat → addr_at v2 d k = if decide (k = m) then b else addr_at v d k) ∧ fwf v2 d ∧
  ext {[ind_block d]} v v2 ∧ vblock v2 (Z.to_nat b) = zeros.
Proof.
  intros Hm Hi v2. destruct (gm_ds _ _ _ G). destruct (ind_not_fresh Hi) as [Hne1 Hne2].
  destruct (fw_ind _ _ Hd Hi) as [Hir Hiu]. pose proof (gm_size _ _ _ G).
  assert (ind_block d < length (bv_cur v'))%nat as Hlt by (unfold ind_block, fresh_view, mark; rewrite !wrote_len; lia).
  assert (length (vblock v' (ind_block d)) = BSIZE) as Hlen.
  { rewrite fresh_same by done. apply Hsize. unfold fresh_view, mark in Hlt. by rewrite !wrote_len in Hlt. }
  assert (∀ k, (k < NBLOCKS)%nat → addr_at v2 d k = if decide (k = m) then b else addr_at v d k) as Ha.
  { intros k Hk. rewrite <- fresh_addr. unfold addr_at. destruct (Nat.ltb_spec k 12); [by rewrite decide_False by lia|].
    destruct (Z.eqb_spec (daddr d 12) 0); [done|]. unfold v2. rewrite wrote_same by done. unfold NBLOCKS, BSIZE in *. case_decide.
    - subst k. rewrite get32_put32 by lia. apply u32_small. pose proof (gm_u32 _ _ _ G). lia.
    - apply get32_put32_ne. lia. }
  assert (ext {[ind_block d]} v v2) as He.
  { eapply ext_trans; [eapply ext_mono; [|by apply (fresh_ext v n b)]; set_solver|]. apply ext_wrote; [set_solver|].
    intros c Hc. unfold ind_block. apply (data_not_bmap n); [exact G|lia..]. }
  split_and!; [done| |done|].
  - eapply (fwf_grow v v2 d d m b Hd); try done; [apply Hd| | |lia].
    + intros a. by eapply ext_data_block.
    + eapply (ext_data_block {[ind_block d]}); [exact G| |apply fresh_block]. apply ext_wrote; [set_solver|].
      intros c Hc. unfold ind_block. apply (data_not_bmap n); [exact G|lia..].
  - unfold v2. rewrite wrote_other by done. by apply (fresh_zero v n b).
Qed.
End grow.
End files.
