(* ===== verification/Bmap.v ===== *)
(** * The blocks of a file (fs.c: bmap)

    bmap returns the address of a block of the file; if the block is not there it
    allocates it, and the indirect block if that is missing too, and leaves every
    other block of the file and of other files alone. *)

From S2P Require Import Prelude CStr Monitor Sleeplock Bytes Blocks Log Fs Tx Bitmap Content.

(** Everything of a disk inode but its addresses. *)
Definition same_meta (d d' : dinode) : Prop :=
  d_type d' = d_type d ∧ d_major d' = d_major d ∧ d_minor d' = d_minor d ∧ d_nlink d' = d_nlink d ∧ d_size d' = d_size d.

Section bmap.
Context {S : Type} `{!BlockOps S} `{!BlockDev S} `{!DevSw (fstate S)}.
Context (st sz : nat) (o : Z) (sb : superblock) (ds : Z).
Hypothesis Hop : 1 ≤ o.
Abbreviation tx := (tx (S := S) st sz o).
Abbreviation room := (room sz).
Abbreviation fwf := (fwf sb ds).
Abbreviation ext := (ext sb).
Implicit Types (f : fstate S) (v : bview) (bl : list nat) (i : inode).

(** At least [k] blocks are free. *)
Definition frees (k : nat) v : Prop :=
  ∃ l : list Z, NoDup l ∧ (k ≤ length l)%nat ∧ ∀ b, b ∈ l → 0 ≤ b < sb_size sb ∧ used sb v b = false.
Lemma frees_le k m v : frees m v → (k ≤ m)%nat → frees k v.
Proof. clear Hop. intros (l & ? & ? & ?) ?. exists l. split_and!; [done|lia|done]. Qed.
Lemma frees_one k v : frees (Datatypes.S k) v → ∃ b, 0 ≤ b < sb_size sb ∧ used sb v b = false.
Proof. clear Hop. intros ([|b l] & _ & Hl & Hf); simpl in Hl; [lia|]. exists b. apply Hf, elem_of_cons. by left. Qed.
Lemma frees_same k v v' :
  frees k v → (∀ c, 0 ≤ c < sb_size sb → used sb v' c = used sb v c) → frees k v'.
Proof. clear Hop. intros (l & Hnd & Hl & Hf) Hu. exists l. split_and!; [done..|]. intros b Hb. destruct (Hf b Hb). by rewrite Hu. Qed.
Lemma filter_remove_length (l : list Z) b : NoDup l → (length l ≤ Datatypes.S (length (filter (λ x, x ≠ b) l)))%nat.
Proof. clear Hop.
  induction 1 as [|x l Hx Hnd IH]; simpl; [lia|]. rewrite filter_cons. case_decide as E; simpl; [lia|].
  rewrite (filter_all (λ x, x ≠ b)); [lia|]. intros y Hy ->. congruence.
Qed.
Lemma frees_fresh k v n b :
  frees (Datatypes.S k) v → geom sb n ds → (n ≤ length (bv_cur v))%nat →
  (∀ j, (j < length (bv_cur v))%nat → length (vblock v j) = BSIZE) → ds ≤ b < sb_size sb → frees k (fresh_view sb v b).
Proof. clear Hop.
  intros (l & Hnd & Hl & Hf) G Hn Hs Hb. exists (filter (λ x, x ≠ b) l). split_and!.
  - by apply NoDup_filter.
  - pose proof (filter_remove_length l b Hnd). lia.
  - intros c [Hc Hcl]%list_elem_of_filter. destruct (Hf c Hcl) as [Hr Hu]. split; [done|].
    rewrite (fresh_used sb ds v n b) by done. by rewrite decide_False by congruence.
Qed.

(** The state changed only in entry [ip] of the inode cache and in the blocks. *)
Record ipost f f' (ip : nat) i : Prop := {
  ip_ino : fs_inodes f' = <[ip := i]> (fs_inodes f);
  ip_lock : fs_ilocked f' = fs_ilocked f;
  ip_sb : fs_sb f' = fs_sb f;
  ip_pid : fs_pid f' = fs_pid f;
  ip_cwd : fs_cwd f' = fs_cwd f }.
Lemma ipost_logged f f' ip i : logged f f' → fs_inodes f !! ip = Some i → ipost f f' ip i.
Proof. clear Hop. intros [l ->] Hi. constructor; simpl; try done. by rewrite list_insert_id. Qed.
Lemma ipost_trans f f1 f2 ip i1 i2 : ipost f f1 ip i1 → ipost f1 f2 ip i2 → ipost f f2 ip i2.
Proof. clear Hop. intros [] []. constructor; try congruence. rewrite ip_ino1, ip_ino0. apply list_insert_insert_eq. Qed.

(** A file, in entry [ip] of the inode cache, within a transaction. *)
Record fin f v bl (ip : nat) i : Prop := {
  fi_tx : tx f v bl;
  fi_sb : fs_sb f = sb;
  fi_geom : geom sb (length (bv_dsk v)) ds;
  fi_log : log_at st sz sb;
  fi_meta : meta_used sb ds v;
  fi_held : bv_held v = ∅;
  fi_ino : fs_inodes f !! ip = Some i;
  fi_dev : i_dev i = ROOTDEV;
  fi_file : fwf v (i_disk i) }.
Lemma fin_logged f f' v bl ip i : fin f v bl ip i → logged f f' → tx f' v bl → fin f' v bl ip i.
Proof. clear Hop. intros [] [l ->] T. by constructor. Qed.
Lemma tx_len f v bl : tx f v bl → length (bv_cur v) = length (bv_dsk v).
Proof. clear Hop. intros T. apply (bd_len _ _ (lr_blk _ _ _ _ (tx_rep _ _ _ _ _ _ T))). Qed.
Lemma view_sizes f v bl : tx f v bl → ∀ j, (j < length (bv_cur v))%nat → length (vblock v j) = BSIZE.
Proof. clear Hop. intros T j Hj. rewrite (tx_len _ _ _ T) in Hj. by eapply tx_block. Qed.

Lemma get_inode_wp f ip i (Q : inode → fstate S → Prop) : fs_inodes f !! ip = Some i → Q i f → wp (get_inode ip) Q f.
Proof. clear Hop.
  intros Hi HQ. unfold wp, get_inode. rewrite (bind_run _ _ f f f) by done. rewrite (array_get_ok _ _ _ i); [done|lia|]. by rewrite Nat2Z.id.
Qed.
Lemma array_get_wp {A} w (l : list A) k x f (Q : A → fstate S → Prop) :
  l !! k = Some x → Q x f → wp (array_get w l (Z.of_nat k)) Q f.
Proof. clear Hop. intros Hx HQ. unfold wp. rewrite (array_get_ok _ _ _ x); [done|lia|]. by rewrite Nat2Z.id. Qed.
Lemma daddr_lookup d k : (k < length (d_addrs d))%nat → d_addrs d !! k = Some (daddr d k).
Proof. clear Hop. intros [a Ha]%lookup_lt_is_Some_2. unfold daddr. by rewrite Ha. Qed.

(** The address [k] of the inode, there or allocated. *)
Lemma addr_hit f ip i k (Q : Z → fstate S → Prop) :
  fs_inodes f !! ip = Some i → (k < length (d_addrs (i_disk i)))%nat → daddr (i_disk i) k ≠ 0 → Q (daddr (i_disk i) k) f →
  wp (addr_or_alloc ip k) Q f.
Proof. clear Hop.
  intros Hi Hk Hne HQ. unfold addr_or_alloc. apply wp_bind. eapply get_inode_wp; [done|].
  apply wp_bind. eapply array_get_wp; [by apply daddr_lookup|]. by rewrite (proj2 (Z.eqb_neq _ _) Hne).
Qed.
Lemma addr_miss f v bl ip i k (Q : Z → fstate S → Prop) :
  fin f v bl ip i → (k < 13)%nat → daddr (i_disk i) k = 0 → room 2 bl → frees 1 v →
  (∀ b f', ds ≤ b < sb_size sb → used sb v b = false → ipost f f' ip (with_disk (with_addr k b (i_disk i)) i) →
     tx f' (fresh_view sb v b) (log_add (Z.to_nat b) (log_add (bmap_block sb b) bl)) → Q b f') →
  wp (addr_or_alloc ip k) Q f.
Proof.
  intros F Hk H0 Hr Hf HQ. destruct F. unfold addr_or_alloc. apply wp_bind. eapply get_inode_wp; [done|].
  apply wp_bind. eapply array_get_wp; [apply daddr_lookup; by rewrite (fw_len _ _ _ _ fi_file0)|]. rewrite H0, fi_dev0. simpl.
  apply wp_bind. eapply (balloc_wp st sz o Hop sb ds); [done..| |done|by eapply frees_one|].
  { split; [by rewrite fi_held0, map_size_empty; lia|]. intros j x Hj. by rewrite fi_held0, lookup_empty in Hj. }
  intros b f' Hb Hu [l ->] T. unfold wp. simpl. apply HQ; [done|done| |].
  - constructor; simpl; try done. by rewrite (alter_lookup_insert _ _ _ _ fi_ino0).
  - by destruct T.
Qed.

(** *** bmap when the block is there *)
Lemma ind_range f v bl ip i :
  fin f v bl ip i → daddr (i_disk i) 12 ≠ 0 →
  daddr (i_disk i) 12 = Z.of_nat (ind_block (i_disk i)) ∧ (ind_block (i_disk i) < length (bv_dsk v))%nat.
Proof. clear Hop.
  intros F H0. destruct F. destruct (fw_ind _ _ _ _ fi_file0 H0) as [Hr _]. destruct fi_geom0. unfold ind_block. split; lia.
Qed.
Lemma bmap_hit f v bl ip i (n : nat) (Q : Z → fstate S → Prop) :
  fin f v bl ip i → (n < NBLOCKS)%nat → addr_at v (i_disk i) n ≠ 0 → (length bl ≤ 27)%nat →
  (∀ f', logged f f' → tx f' v bl → Q (addr_at v (i_disk i) n) f') → wp (bmap ip (Z.of_nat n)) Q f.
Proof. clear Hop.
  intros F Hn Hne Hr HQ. pose proof F as []. pose proof (fw_len _ _ _ _ fi_file0) as Hlen. unfold bmap.
  destruct (Z.ltb_spec (Z.of_nat n) (Z.of_nat NDIRECT)) as [Hd|Hd].
  - unfold NDIRECT in Hd. rewrite Nat2Z.id. unfold addr_at in *. rewrite (proj2 (Nat.ltb_lt n 12)) in * by lia.
    eapply addr_hit; [done|lia|done|]. by apply HQ.
  - unfold NDIRECT, NBLOCKS in *. rewrite (proj2 (Z.ltb_lt _ _)) by (unfold NINDIRECT; lia).
    assert (daddr (i_disk i) 12 ≠ 0) as Hi.
    { intros E. apply Hne. unfold addr_at. rewrite (proj2 (Nat.ltb_ge n 12)) by lia. by rewrite E. }
    destruct (ind_range _ _ _ _ _ F Hi) as [Ei Hlt]. apply wp_bind. eapply addr_hit; [done|lia|done|].
    apply wp_bind. eapply get_inode_wp; [done|]. apply wp_bind. rewrite fi_dev0.
    eapply wp_bread; [done|done|done|by rewrite fi_held0|rewrite fi_held0, map_size_empty; unfold NBUF; lia|].
    intros bp f1 Hbp L1 T1. apply wp_bind. eapply wp_get; [exact T1|apply lookup_insert_eq|].
    change (vblock (v_held _ v)) with (vblock v).
    replace (get32 (vblock v (ind_block (i_disk i))) (4 * Z.to_nat (Z.of_nat n - Z.of_nat 12))) with (addr_at v (i_disk i) n).
    2: { unfold addr_at. rewrite (proj2 (Nat.ltb_ge n 12)), (proj2 (Z.eqb_neq _ _) Hi) by lia. do 2 f_equal. lia. }
    rewrite (proj2 (Z.eqb_neq _ _) Hne). apply wp_bind. unfold wp at 1. simpl.
    apply wp_bind. eapply wp_unread; [exact T1|done|apply (tx_clean st sz o f v); [done|by rewrite fi_held0]|].
    intros f2 L2 T2. unfold wp. simpl. apply HQ; [by etrans|done].
Qed.

(** *** bmap when it is not *)
Definition grown_to f v bl (ip : nat) i (n k m : nat) (d' : dinode) (a : Z) f' : Prop :=
  ∃ v' bl', fin f' v' bl' ip (with_disk d' i) ∧ ipost f f' ip (with_disk d' i) ∧
    (length bl' ≤ length bl + m)%nat ∧ same_meta (i_disk i) d' ∧
    (∀ j, (j < NBLOCKS)%nat → addr_at v' d' j = if decide (j = n) then a else addr_at v (i_disk i) j) ∧
    data_block sb ds v' a ∧ used sb v a = false ∧ vblock v' (Z.to_nat a) = zeros ∧
    ext (owned v (i_disk i)) v v' ∧ (daddr d' 12 = daddr (i_disk i) 12 ∨ used sb v (daddr d' 12) = false) ∧ frees k v' ∧
    (∀ j, (j < NBLOCKS)%nat → addr_at v (i_disk i) j ≠ 0 →
       vblock v' (Z.to_nat (addr_at v (i_disk i) j)) = vblock v (Z.to_nat (addr_at v (i_disk i) j))).
Definition grown f v bl (ip : nat) i (n k m : nat) (a : Z) f' : Prop := ∃ d', grown_to f v bl ip i n k m d' a f'.
(** The state after a block [b] was allocated and entered in the indirect block. *)
Definition entered v (d : dinode) (n : nat) (b : Z) : bview :=
  wrote (ind_block d) (put32 (4 * (n - 12)) b (vblock (fresh_view sb v b) (ind_block d))) (fresh_view sb v b).
Lemma entry_grown f f' v bl ip i (n k : nat) b :
  fin f v bl ip i → (12 ≤ n < NBLOCKS)%nat → daddr (i_disk i) 12 ≠ 0 → ds ≤ b < sb_size sb → used sb v b = false → frees (1 + k) v → logged f f' →
  tx f' (entered v (i_disk i) n b) (log_add (ind_block (i_disk i)) (log_add (Z.to_nat b) (log_add (bmap_block sb b) bl))) →
  grown_to f v bl ip i n k 3 (i_disk i) b f'.
Proof. clear Hop.
  intros F Hn Hi Hb Hu Hf L T. pose proof F as []. pose proof (fw_ind _ _ _ _ fi_file0 Hi) as [Hir Hiu]. pose proof (tx_len _ _ _ fi_tx0) as Hlen.
  pose proof (view_sizes _ _ _ fi_tx0) as Hsizes.
  destruct (grow_entry sb ds v _ b (i_disk i) fi_geom0 ltac:(lia) Hsizes Hb Hu fi_file0 n Hn Hi) as (Ha & Hfw & He & Hz).
  unfold entered in T. cbv zeta in Ha, Hfw, He, Hz. set (v2 := wrote _ _ (fresh_view sb v b)) in *.
  set (bl2 := log_add (Z.to_nat b) (log_add (bmap_block sb b) bl)) in *.
  assert (length bl2 ≤ length bl + 2)%nat as Hbl2.
  { unfold bl2. pose proof (log_add_length (Z.to_nat b) (log_add (bmap_block sb b) bl)). pose proof (log_add_length (bmap_block sb b) bl). lia. }
  assert (data_block sb ds v2 b) as Hdb.
  { assert (addr_at v2 (i_disk i) n = b) as En by (rewrite Ha by lia; by rewrite decide_True).
    pose proof (fw_data _ _ _ _ Hfw n ltac:(lia)) as H. rewrite En in H. apply H. destruct fi_geom0. lia. }
  assert (with_disk (i_disk i) i = i) as Ed by (by destruct i).
  exists v2, (log_add (ind_block (i_disk i)) bl2). rewrite Ed. split_and!; try done.
  - constructor; [done|by destruct L as [l ->]|done|done| | |by destruct L as [l ->]|done|done].
    + eapply meta_used_ext; [|exact fi_meta0|exact He]. apply fi_geom0.
    + by rewrite (ex_held _ _ _ _ He).
  - by apply ipost_logged.
  - pose proof (log_add_length (ind_block (i_disk i)) bl2). lia.
  - eapply ext_mono; [|exact He]. intros c ->%elem_of_singleton. apply owned_spec. by right.
  - by left.
  - eapply frees_same; [eapply frees_fresh; [exact Hf|exact fi_geom0|lia|done|exact Hb]|].
    intros c Hc. unfold v2. apply used_wrote. unfold ind_block. eapply data_not_bmap; [done|lia|done].
  - intros j Hj Hne. eapply ext_data; [exact fi_geom0|exact He|by apply (fw_data _ _ _ _ fi_file0)|].
    rewrite elem_of_singleton. unfold ind_block. pose proof (fw_ne _ _ _ _ fi_file0 j Hj Hne).
    pose proof (fw_data _ _ _ _ fi_file0 j Hj Hne) as [? _]. destruct fi_geom0. lia.
Qed.
(** The entry of an indirect block that is there. *)
Lemma bmap_entry f v bl ip i (n k : nat) (a0 : Z) :
  a0 = daddr (i_disk i) 12 → fin f v bl ip i → (12 ≤ n < NBLOCKS)%nat → daddr (i_disk i) 12 ≠ 0 → addr_at v (i_disk i) n = 0 → room 3 bl → frees (1 + k) v →
  wp (bp ← fblk (bread (i_dev i) a0);
      d ← fblk (b_get bp);
      let addr := get32 d (4 * Z.to_nat (Z.of_nat n - Z.of_nat NDIRECT)) in
      addr' ← (if addr =? 0 then
                 a ← balloc (i_dev i);
                 d ← fblk (b_get bp);
                 fblk (b_put bp (put32 (4 * Z.to_nat (Z.of_nat n - Z.of_nat NDIRECT)) a d)) ;;
                 logm (log_write bp) ;;
                 mret a
               else mret addr);
      fblk (brelse bp) ;;
      mret addr') (grown_to f v bl ip i n k 3 (i_disk i)) f.
Proof.
  intros -> F Hn Hi H0 Hr Hf. pose proof F as []. destruct (ind_range _ _ _ _ _ F Hi) as [Ei Hlt].
  pose proof (fw_ind _ _ _ _ fi_file0 Hi) as [Hir Hiu]. pose proof (tx_len _ _ _ fi_tx0) as Hlen.
  pose proof (view_sizes _ _ _ fi_tx0) as Hsizes. destruct Hr as [Hr1 Hr2].
  apply wp_bind. rewrite fi_dev0. eapply wp_bread; [done|done|done|by rewrite fi_held0|rewrite fi_held0, map_size_empty; unfold NBUF; lia|].
  intros bp f1 Hbp L1 T1. apply wp_bind. eapply wp_get; [exact T1|apply lookup_insert_eq|].
  change (vblock (v_held _ v)) with (vblock v).
  replace (Z.to_nat (Z.of_nat n - Z.of_nat NDIRECT)) with (n - 12)%nat by (unfold NDIRECT; lia).
  assert (get32 (vblock v (ind_block (i_disk i))) (4 * (n - 12)) = 0) as E0.
  { unfold addr_at in H0. by rewrite (proj2 (Nat.ltb_ge n 12)), (proj2 (Z.eqb_neq _ _) Hi) in H0 by lia. }
  cbv zeta. rewrite E0. simpl. apply wp_bind. apply wp_bind.
  eapply (balloc_wp st sz o Hop sb ds f1 (v_held <[bp := ind_block (i_disk i)]> v)); [done|by destruct L1 as [l ->]|done|done|done| |split; lia|by eapply frees_one|].
  { split; [simpl; rewrite fi_held0, map_size_insert_None, map_size_empty by apply lookup_empty; lia|].
    intros j x. simpl. rewrite fi_held0, lookup_insert_Some, lookup_empty. intros [[_ <-]|[_ ?]]; [|done]. split.
    - by rewrite Ei in Hiu.
    - intros c Hc. unfold ind_block. eapply data_not_bmap; [done|lia|done]. }
  intros b f2 Hb Hu L2 T2. change (used sb v b = false) in Hu.
  destruct (ind_not_fresh sb ds v _ b (i_disk i) fi_geom0 ltac:(lia) Hb Hu fi_file0 Hi) as [Hne1 Hne2].
  set (bl2 := log_add (Z.to_nat b) (log_add (bmap_block sb b) bl)) in *.
  assert (length bl2 ≤ length bl + 2)%nat as Hbl2.
  { unfold bl2. pose proof (log_add_length (Z.to_nat b) (log_add (bmap_block sb b) bl)). pose proof (log_add_length (bmap_block sb b) bl). lia. }
  apply wp_bind. eapply wp_get; [exact T2|simpl; apply lookup_insert_eq|].
  apply wp_bind. eapply wp_put; [exact T2|simpl; apply lookup_insert_eq| |].
  { rewrite length_put32. eapply tx_block; [exact T2|]. done. }
  intros f3 L3 T3. apply wp_bind. eapply wp_log_write; [exact T3|simpl; apply lookup_insert_eq|done|split; lia| |done|].
  { by apply (data_home st sz sb ds (length (bv_dsk v))); [..|lia]. }
  intros f4 L4 T4. unfold wp at 1. simpl. apply wp_bind.
  eapply wp_brelse; [exact T4|simpl; apply lookup_insert_eq|left; apply log_add_elem; by left|]. intros f5 L5 T5.
  unfold wp. simpl.
  assert (logged f f5) as L by (etrans; [exact L1|]; etrans; [exact L2|]; etrans; [exact L3|]; by etrans).
  apply entry_grown; [done|done|done|done|done|done|done|].
  match type of T5 with Tx.tx _ _ _ _ ?w _ => replace (entered v (i_disk i) n b) with w; [exact T5|] end.
  unfold entered, wrote, fresh_view, mark, v_held, v_dirty, v_cur. simpl. by rewrite delete_insert_id.
Qed.

(** After an address of the inode itself was allocated. *)
Lemma fin_fresh f f' v bl ip i k b d' :
  fin f v bl ip i → ds ≤ b < sb_size sb → used sb v b = false → d' = with_addr k b (i_disk i) →
  ipost f f' ip (with_disk d' i) → tx f' (fresh_view sb v b) (log_add (Z.to_nat b) (log_add (bmap_block sb b) bl)) →
  fwf (fresh_view sb v b) d' →
  fin f' (fresh_view sb v b) (log_add (Z.to_nat b) (log_add (bmap_block sb b) bl)) ip (with_disk d' i) ∧ ext ∅ v (fresh_view sb v b) ∧
  vblock (fresh_view sb v b) (Z.to_nat b) = zeros.
Proof. clear Hop.
  intros F Hb Hu -> P T Hfw. pose proof F as []. pose proof (tx_len _ _ _ fi_tx0) as Hlen. pose proof (view_sizes _ _ _ fi_tx0) as Hs.
  assert (ext ∅ v (fresh_view sb v b)) as He by (apply (fresh_ext sb ds v (length (bv_dsk v)) b); [done|lia|done..]).
  split_and!; [|done|apply (fresh_zero sb ds v (length (bv_dsk v))); [done|lia|done]].
  constructor; try done.
  - by rewrite (ip_sb _ _ _ _ P).
  - eapply meta_used_ext; [|exact fi_meta0|exact He]. apply fi_geom0.
  - rewrite (ip_ino _ _ _ _ P), list_lookup_insert_eq; [done|]. by eapply lookup_lt_Some.
Qed.
Lemma log_add2_length j j' bl : (length (log_add j (log_add j' bl)) ≤ length bl + 2)%nat.
Proof. clear Hop. pose proof (log_add_length j (log_add j' bl)). pose proof (log_add_length j' bl). lia. Qed.
Lemma same_meta_addr k b d : same_meta d (with_addr k b d).
Proof. done. Qed.
Lemma same_meta_trans d d1 d2 : same_meta d d1 → same_meta d1 d2 → same_meta d d2.
Proof. unfold same_meta. clear Hop. intuition congruence. Qed.
(** A direct block. *)
Lemma bmap_direct f v bl ip i (n k : nat) :
  fin f v bl ip i → (n < 12)%nat → addr_at v (i_disk i) n = 0 → room 5 bl → frees (2 + k) v →
  wp (bmap ip (Z.of_nat n)) (grown f v bl ip i n k 5) f.
Proof.
  intros F Hn H0 Hr Hf. pose proof F as []. pose proof (tx_len _ _ _ fi_tx0) as Hlen. pose proof (view_sizes _ _ _ fi_tx0) as Hsizes. unfold bmap.
  rewrite (proj2 (Z.ltb_lt _ _)) by (unfold NDIRECT; lia).
  rewrite Nat2Z.id. unfold addr_at in H0. rewrite (proj2 (Nat.ltb_lt n 12)) in H0 by lia.
  eapply (addr_miss f v bl ip i n); [done|lia|done|apply (room_le _ _ 5); [done|lia]|apply (frees_le _ (2 + k)); [done|lia]|].
  intros b f' Hb Hu P T.
  destruct (grow_direct sb ds v _ b (i_disk i) fi_geom0 ltac:(lia) Hsizes Hb Hu fi_file0 n ltac:(lia)) as [Ha Hfw].
  destruct (fin_fresh f f' v bl ip i n b _ F Hb Hu eq_refl P T Hfw) as (F' & He & Hz).
  exists (with_addr n b (i_disk i)). do 2 eexists. split; [exact F'|]. split; [done|].
  split; [pose proof (log_add2_length (Z.to_nat b) (bmap_block sb b) bl); lia|]. split; [done|]. split; [done|].
  split; [apply (fresh_block sb ds v (length (bv_dsk v))); (done || lia)|]. split; [done|]. split; [done|].
  split; [by eapply ext_mono; [|exact He]; set_solver|].
  split; [left; rewrite daddr_with_addr by (rewrite (fw_len _ _ _ _ fi_file0); lia); by rewrite decide_False by lia|].
  split; [eapply (frees_le _ (1 + k)); [|lia]; eapply frees_fresh; [exact Hf|done|lia|done|done]|].
  intros j Hj Hne. eapply ext_data; [exact fi_geom0|exact He|by apply (fw_data _ _ _ _ fi_file0)|set_solver].
Qed.
(** An entry of an indirect block that was allocated just before: together they grow the file. *)
Lemma grown_twice f f' f2 v bl ip i (n k : nat) b a :
  fin f v bl ip i → ds ≤ b < sb_size sb → used sb v b = false → (12 ≤ n < NBLOCKS)%nat → daddr (i_disk i) 12 = 0 →
  let d1 := with_addr NDIRECT b (i_disk i) in
  ipost f f' ip (with_disk d1 i) → ext ∅ v (fresh_view sb v b) →
  grown_to f' (fresh_view sb v b) (log_add (Z.to_nat b) (log_add (bmap_block sb b) bl)) ip (with_disk d1 i) n k 3 d1 a f2 →
  grown f v bl ip i n k 5 a f2.
Proof. clear Hop.
  intros F Hb Hu Hn Hi d1 P He (v2 & bl2 & F2 & P2 & Hl2 & Hm2 & Ha2 & Hdb2 & Hu2 & Hz2 & He2 & Hi2 & Hf2 & Hv2). pose proof F as [].
  pose proof (tx_len _ _ _ fi_tx0) as Hlen.
  destruct (grow_indirect sb ds v _ b (i_disk i) fi_geom0 ltac:(lia) (view_sizes _ _ _ fi_tx0) Hb Hu fi_file0 Hi) as (Ha & _ & Hd12).
  simpl in He2, Hi2. exists d1, v2, bl2. split; [exact F2|]. split; [by eapply ipost_trans|].
  split; [pose proof (log_add2_length (Z.to_nat b) (bmap_block sb b) bl); lia|]. split; [by eapply same_meta_trans|]. split.
  { intros j Hj. rewrite Ha2 by done. simpl. by rewrite Ha. }
  split; [done|]. split.
  { destruct (used sb v a) eqn:E; [|done]. destruct Hdb2 as [Hr2 _]. destruct fi_geom0.
    rewrite (ex_used _ _ _ _ He a) in Hu2 by (done || lia). done. }
  change (daddr d1 12) with (daddr (with_addr 12 b (i_disk i)) 12) in *. rewrite Hd12 in *.
  split; [done|]. split; [|split; [|split; [done|]]].
  - eapply ext_trans_fresh; [by eapply ext_mono; [|exact He]; set_solver|exact He2|]. intros c Hc. apply owned_spec in Hc as [(j & Hj & Hne & ->)|[_ ->]].
    + left. apply owned_spec. left. exists j. rewrite Ha in Hne |- * by done. done.
    + right. unfold ind_block. change (daddr d1 12) with (daddr (with_addr 12 b (i_disk i)) 12). rewrite Hd12. destruct fi_geom0.
      by rewrite Z2Nat.id by lia.
  - by right.
  - intros j Hj Hne. pose proof (Hv2 j Hj) as E. simpl in E. unfold d1, NDIRECT in E. rewrite !Ha in E by done. rewrite E by done.
    eapply ext_data; [exact fi_geom0|exact He|by apply (fw_data _ _ _ _ fi_file0)|set_solver].
Qed.
Lemma bmap_miss f v bl ip i (n k : nat) :
  fin f v bl ip i → (n < NBLOCKS)%nat → addr_at v (i_disk i) n = 0 → room 5 bl → frees (2 + k) v →
  wp (bmap ip (Z.of_nat n)) (grown f v bl ip i n k 5) f.
Proof.
  intros F Hn H0 Hr Hf. destruct (decide (n < 12)%nat) as [Hd|Hd]; [by apply bmap_direct|]. pose proof F as [].
  pose proof (tx_len _ _ _ fi_tx0) as Hlen. pose proof (view_sizes _ _ _ fi_tx0) as Hsizes. unfold bmap.
  unfold NBLOCKS in Hn. rewrite (proj2 (Z.ltb_ge _ _)) by (unfold NDIRECT; lia).
  rewrite (proj2 (Z.ltb_lt _ _)) by (unfold NINDIRECT, NDIRECT; lia). apply wp_bind.
  destruct (decide (daddr (i_disk i) 12 = 0)) as [Hi|Hi].
  - eapply (addr_miss f v bl ip i NDIRECT); [done|unfold NDIRECT; lia|done|apply (room_le _ _ 5); [done|lia]|apply (frees_le _ (2 + k)); [done|lia]|].
    intros b f' Hb Hu P T.
    destruct (grow_indirect sb ds v _ b (i_disk i) fi_geom0 ltac:(lia) Hsizes Hb Hu fi_file0 Hi) as (Ha & Hfw & Hd12).
    destruct (fin_fresh f f' v bl ip i NDIRECT b _ F Hb Hu eq_refl P T Hfw) as (F' & He & Hz).
    apply wp_bind. eapply get_inode_wp; [apply F'|].
    pose proof (log_add2_length (Z.to_nat b) (bmap_block sb b) bl) as Hbl1.
    eapply wp_mono; [|eapply (bmap_entry f' _ _ ip (with_disk _ i) n k b); [done|exact F'|unfold NBLOCKS; lia| | | |]].
    + intros a f2. apply (grown_twice f f' f2 v bl ip i n k b a F Hb Hu ltac:(unfold NBLOCKS; lia) Hi P He).
    + change (daddr (with_addr 12 b (i_disk i)) 12 ≠ 0). rewrite Hd12. destruct fi_geom0. lia.
    + cbn [i_disk with_disk]. rewrite Ha by (unfold NBLOCKS; lia). done.
    + destruct Hr. split; lia.
    + eapply frees_fresh; [exact Hf|done|lia|done|done].
  - pose proof (fw_len _ _ _ _ fi_file0) as Hlen13. eapply addr_hit; [done|unfold NDIRECT; lia|done|]. apply wp_bind. eapply get_inode_wp; [done|].
    eapply wp_mono; [|eapply (bmap_entry f v bl ip i n k); [done|done|unfold NBLOCKS; lia|done|done|apply (room_le _ _ 5); [done|lia]|apply (frees_le _ (2 + k)); [done|lia]]].
    intros a f2 (v2 & bl2 & ? & ? & Hl2 & ?). exists (i_disk i), v2, bl2. split; [done|]. split; [done|]. split; [lia|done].
Qed.
End bmap.
