(* ===== verification/Rw.v ===== *)
(** * Reading and writing files (fs.c: readi, writei, iupdate)

    The contents of a file as a list of bytes; readi returns a piece of it, writei
    replaces a piece, and neither touches the contents of another file. *)

From S2P Require Import Prelude CStr Monitor Sleeplock Bytes Blocks Log Fs Tx Bitmap Content Bmap.

(** Block [n] of a file, zeros when it is not there; its byte at offset [o]. *)
Definition fblock (v : bview) (d : dinode) (n : nat) : block :=
  if addr_at v d n =? 0 then zeros else vblock v (Z.to_nat (addr_at v d n)).
Definition fbyte (v : bview) (d : dinode) (o : nat) : Z := byte_at (fblock v d (o / 512)) (o mod 512).
Definition content (v : bview) (d : dinode) : list Z := fbyte v d <$> seq 0 (Z.to_nat (d_size d)).

Lemma slice_bytes (d : list Z) s m : (s + m ≤ length d)%nat → take m (drop s d) = byte_at d <$> seq s m.
Proof.
  revert s. induction m as [|m IH]; intros s Hl; [done|]. destruct (lookup_lt_is_Some_2 d s ltac:(lia)) as [x Hx].
  rewrite (drop_S _ _ _ Hx). simpl. f_equal; [unfold byte_at; by rewrite Hx|]. apply IH. lia.
Qed.
Lemma lookup_splice (o : nat) (l d : list Z) k :
  (o + length l ≤ length d)%nat →
  splice o l d !! k = if decide (o ≤ k < o + length l)%nat then l !! (k - o)%nat else d !! k.
Proof.
  intros Hl. unfold splice. assert (length (take o d) = o) as Ho by (rewrite length_take; lia).
  case_decide as Hk.
  - rewrite lookup_app_r, Ho by lia. by rewrite lookup_app_l by lia.
  - destruct (decide (k < o)%nat).
    + rewrite lookup_app_l by lia. by rewrite lookup_take_lt.
    + rewrite lookup_app_r, Ho by lia. rewrite lookup_app_r by lia. rewrite lookup_drop. f_equal. lia.
Qed.
Lemma length_splice (o : nat) (l d : list Z) : (o + length l ≤ length d)%nat → length (splice o l d) = length d.
Proof. intros H. unfold splice. rewrite !length_app, length_take, length_drop. lia. Qed.
Lemma byte_at_splice (o : nat) (l d : list Z) k :
  (o + length l ≤ length d)%nat → byte_at (splice o l d) k = if decide (o ≤ k < o + length l)%nat then byte_at l (k - o) else byte_at d k.
Proof. intros H. unfold byte_at. rewrite lookup_splice by done. by case_decide. Qed.

Section rw.
Context {S : Type} `{!BlockOps S} `{!BlockDev S} `{!DevSw (fstate S)}.
Context (st sz : nat) (o : Z) (sb : superblock) (ds : Z).
Abbreviation tx := (tx (S := S) st sz o).
Abbreviation room := (room sz).
Abbreviation fwf := (fwf sb ds).
Abbreviation ext := (ext sb).
Abbreviation fin := (fin st sz o sb ds).
Implicit Types (f : fstate S) (v : bview) (bl : list nat) (i : inode).

Lemma fblock_length f v bl ip i n : fin f v bl ip i → (n < NBLOCKS)%nat → length (fblock v (i_disk i) n) = BSIZE.
Proof.
  intros F Hn. unfold fblock. destruct (Z.eqb_spec (addr_at v (i_disk i) n) 0); [apply length_replicate|].
  destruct F. destruct (fw_data _ _ _ _ fi_file n Hn n0) as [Hr _]. destruct fi_geom.
  eapply tx_block; [done|lia].
Qed.
(** The block of a file that starts at or before [off]. *)
Lemma off_block off : 0 ≤ off → off / BSZ = Z.of_nat (Z.to_nat off / 512) ∧ off mod BSZ = Z.of_nat (Z.to_nat off mod 512).
Proof.
  intros H. unfold BSZ. rewrite Nat2Z.inj_div, Nat2Z.inj_mod, Z2Nat.id by done. done.
Qed.
(** Bytes of one block. *)
Lemma fbyte_block v d off m n :
  (off / 512 = n)%nat → (off mod 512 + m ≤ 512)%nat → (fbyte v d <$> seq off m) = byte_at (fblock v d n) <$> seq (off mod 512) m.
Proof.
  intros <- Hm. apply list_eq. intros t. rewrite !list_lookup_fmap.
  destruct (decide (t < m)%nat); [|by rewrite !lookup_seq_ge by lia]. rewrite !lookup_seq_lt by done. simpl. f_equal.
  unfold fbyte. pose proof (Nat.div_mod_eq off 512). pose proof (Nat.mod_upper_bound off 512).
  by rewrite <- (Nat.div_unique (off + t) 512 (off / 512) (off mod 512 + t)),
    <- (Nat.mod_unique (off + t) 512 (off / 512) (off mod 512 + t)) by lia.
Qed.

Lemma readi_loop_wp fuel f v bl ip i off n (Q : list Z → fstate S → Prop) :
  fin f v bl ip i → 0 ≤ off → 0 ≤ n → off + n ≤ d_size (i_disk i) → (length bl ≤ 27)%nat → (Z.to_nat n < fuel)%nat →
  (∀ f', logged f f' → tx f' v bl → Q (fbyte v (i_disk i) <$> seq (Z.to_nat off) (Z.to_nat n)) f') →
  wp (readi_loop fuel ip off n) Q f.
Proof.
  revert f off n Q. induction fuel as [|fuel IH]; intros f off n Q F Hoff Hn Hsz Hbl Hfuel HQ; [lia|]. simpl.
  destruct (Z.leb_spec n 0).
  { assert (n = 0) as -> by lia. unfold wp. simpl. apply (HQ f); [done|apply F]. }
  pose proof F as []. destruct (off_block off Hoff) as [E1 E2]. pose proof (fw_size _ _ _ _ fi_file) as Hms.
  set (k := (Z.to_nat off / 512)%nat) in *. set (r := (Z.to_nat off mod 512)%nat) in *.
  pose proof (Nat.div_mod_eq (Z.to_nat off) 512) as Edm. fold k r in Edm.
  assert (r < 512)%nat as Hr by (apply Nat.mod_upper_bound; lia).
  assert (k < NBLOCKS)%nat as Hk by (unfold NBLOCKS, MAXFILE, BSZ in *; lia).
  assert (addr_at v (i_disk i) k ≠ 0) as Ha by (apply (fw_alloc _ _ _ _ fi_file); unfold BSZ; lia).
  destruct (fw_data _ _ _ _ fi_file k Hk Ha) as [Har _]. pose proof (fblock_length _ _ _ _ _ k F Hk) as Hfl.
  assert (fblock v (i_disk i) k = vblock v (Z.to_nat (addr_at v (i_disk i) k))) as Efb by (unfold fblock; by rewrite (proj2 (Z.eqb_neq _ _) Ha)).
  apply wp_bind. rewrite E1. eapply bmap_hit; [exact F|done|done|done|]. intros f1 L1 T1.
  assert (fin f1 v bl ip i) as F1 by (eapply fin_logged; eassumption). apply wp_bind. eapply get_inode_wp; [apply F1|].
  apply wp_bind. rewrite fi_dev. destruct fi_geom as [? [? ?] ? ? ? ? ? ? ? ?].
  eapply wp_bread; [exact T1|rewrite Z2Nat.id; [done|lia]|lia|by rewrite fi_held|rewrite fi_held, map_size_empty; unfold NBUF; lia|].
  intros bp f2 Hbp L2 T2. apply wp_bind. eapply wp_get; [exact T2|apply lookup_insert_eq|]. change (vblock (v_held _ v)) with (vblock v).
  apply wp_bind. eapply wp_unread; [exact T2|done|apply (tx_clean st sz o f1 v); [done|by rewrite fi_held]|]. intros f3 L3 T3.
  assert (logged f f3) as L by (etrans; [exact L1|]; by etrans).
  assert (fin f3 v bl ip i) as F3 by (by apply (fin_logged st sz o sb ds f)).
  rewrite E2. set (m := n `min` (BSZ - Z.of_nat r)).
  assert (0 < m ≤ n ∧ m ≤ 512 - Z.of_nat r) as [Hm1 Hm2] by (unfold m, BSZ; lia).
  apply wp_bind. eapply IH; [exact F3|lia|lia|lia|done|lia|]. intros f4 L4 T4. unfold wp. simpl.
  replace (take _ _ ++ _) with (fbyte v (i_disk i) <$> seq (Z.to_nat off) (Z.to_nat n)).
  - apply HQ; [by etrans|done].
  - rewrite <- Efb, Nat2Z.id, slice_bytes by (rewrite Hfl; unfold BSIZE; lia).
    rewrite <- (fbyte_block v (i_disk i) (Z.to_nat off) _ k) by (unfold r in *; lia). rewrite <- fmap_app. f_equal.
    replace (Z.to_nat n) with (Z.to_nat m + Z.to_nat (n - m))%nat by lia. rewrite seq_app. do 2 f_equal. lia.
Qed.
Lemma readi_wp f v bl ip i off n (Q : Z * list Z → fstate S → Prop) :
  fin f v bl ip i → i_type i ≠ T_DEV → 0 ≤ off → 0 ≤ n → off + n < 2 ^ 32 → off ≤ d_size (i_disk i) → (length bl ≤ 27)%nat →
  (∀ f', logged f f' → tx f' v bl →
     let l := take (Z.to_nat n) (drop (Z.to_nat off) (content v (i_disk i))) in Q (Z.of_nat (length l), l) f') →
  wp (readi ip off n) Q f.
Proof.
  intros F Ht Hoff Hn H32 Hsz Hbl HQ. pose proof F as []. pose proof (fw_size _ _ _ _ fi_file) as Hms.
  unfold readi. apply wp_bind. eapply get_inode_wp; [done|].
  rewrite (proj2 (Z.eqb_neq _ _) Ht). unfold i_size. rewrite u32_small by lia.
  rewrite (proj2 (Z.ltb_ge _ _)) by lia. rewrite (proj2 (Z.ltb_ge (off + n) off)) by lia. cbn [orb].
  set (n' := if d_size (i_disk i) <? off + n then u32 (d_size (i_disk i) - off) else n).
  assert (n' = n `min` (d_size (i_disk i) - off)) as En.
  { unfold n'. unfold MAXFILE, BSZ in *. destruct (Z.ltb_spec (d_size (i_disk i)) (off + n)); [rewrite u32_small by lia|]; lia. }
  assert (take (Z.to_nat n) (drop (Z.to_nat off) (content v (i_disk i))) = fbyte v (i_disk i) <$> seq (Z.to_nat off) (Z.to_nat n')) as El.
  { unfold content. rewrite <- fmap_drop, <- fmap_take. f_equal. rewrite drop_seq, take_seq. f_equal; lia. }
  apply wp_bind. eapply readi_loop_wp; [exact F|lia|lia|lia|done|lia|]. intros f' L T. unfold wp. simpl.
  specialize (HQ f' L T). simpl in HQ. rewrite El, length_fmap, length_seq in HQ. rewrite i32_small by (unfold MAXFILE, BSZ in *; lia).
  rewrite Z2Nat.id in HQ by lia. done.
Qed.

(** *** Writing *)
Hypothesis Hop : 1 ≤ o.
Abbreviation frees := (frees sb).
Definition FBYTES : nat := NBLOCKS * 512.

(** bmap as writei uses it: the block is there afterwards and no byte changed. *)
Definition mapped f v bl ip i (n k : nat) (a : Z) f' : Prop :=
  ∃ v' bl' d', fin f' v' bl' ip (with_disk d' i) ∧ ipost f f' ip (with_disk d' i) ∧ same_meta (i_disk i) d' ∧
    (length bl' ≤ length bl + 5)%nat ∧ ext (owned v (i_disk i)) v v' ∧
    (∀ c, c ∈ owned v' d' → c ∈ owned v (i_disk i) ∨ used sb v (Z.of_nat c) = false) ∧
    (∀ t, (t < FBYTES)%nat → fbyte v' d' t = fbyte v (i_disk i) t) ∧ addr_at v' d' n = a ∧ a ≠ 0 ∧
    (∀ j, (j < NBLOCKS)%nat → addr_at v (i_disk i) j ≠ 0 → addr_at v' d' j = addr_at v (i_disk i) j) ∧
    frees k v' ∧ (addr_at v (i_disk i) n ≠ 0 → d' = i_disk i).
Lemma fblock_of_byte t : (t < FBYTES)%nat → (t / 512 < NBLOCKS)%nat.
Proof. clear Hop. intros H. apply Nat.Div0.div_lt_upper_bound. unfold FBYTES in H. lia. Qed.
Lemma bmap_mapped f v bl ip i (n k : nat) :
  fin f v bl ip i → (n < NBLOCKS)%nat → room 5 bl → frees (2 + k) v → wp (bmap ip (Z.of_nat n)) (mapped f v bl ip i n k) f.
Proof.
  intros F Hn Hr Hf. destruct (decide (addr_at v (i_disk i) n = 0)) as [H0|H0].
  - eapply wp_mono; [|by eapply bmap_miss].
    intros a f' (d' & v' & bl' & F' & P & Hbl & Hm & Ha & Hdb & Hu & Hz & He & Hi & Hf' & Hv).
    assert (a ≠ 0) as Ha0 by (destruct Hdb, F as []; destruct fi_geom; lia).
    exists v', bl', d'. split_and!; try done.
    + intros c [(j & Hj & Hne & ->)|[Hne ->]]%owned_spec.
      * rewrite Ha in Hne |- * by done. case_decide as E.
        -- right. destruct Hdb, F as []. destruct fi_geom. by rewrite Z2Nat.id by lia.
        -- left. apply owned_spec. left. by exists j.
      * destruct Hi as [Hi|Hi].
        -- left. apply owned_spec. right. unfold ind_block. by rewrite Hi in Hne |- *.
        -- right. unfold ind_block. destruct (fw_ind _ _ _ _ (fi_file _ _ _ _ _ _ _ _ _ _ F') Hne) as [Hr' _]. simpl in Hr'.
           destruct (fi_geom _ _ _ _ _ _ _ _ _ _ F). by rewrite Z2Nat.id by lia.
    + intros t Ht%fblock_of_byte. unfold fbyte. f_equal. unfold fblock. rewrite Ha by done. case_decide as E.
      * rewrite <- E in H0. rewrite H0, (proj2 (Z.eqb_neq _ _) Ha0). simpl. by rewrite Hz.
      * destruct (Z.eqb_spec (addr_at v (i_disk i) (t / 512)) 0); [done|]. by apply Hv.
    + rewrite Ha by done. by rewrite decide_True.
    + intros j Hj Hne. rewrite Ha by done. rewrite decide_False; [done|]. by intros ->.
  - destruct Hr. eapply bmap_hit; [exact F|done|done|lia|]. intros f' L T.
    assert (with_disk (i_disk i) i = i) as Ed by (by destruct i).
    exists v, bl, (i_disk i). rewrite Ed. split_and!; try done.
    + by apply (fin_logged st sz o sb ds f).
    + apply ipost_logged; [done|apply F].
    + lia.
    + by intros c; left.
    + eapply frees_le; [exact Hf|lia].
Qed.
(** The bytes of a file after one of its blocks was overwritten. *)
Lemma fbyte_wrote f v bl ip i n x (t : nat) :
  fin f v bl ip i → (n < NBLOCKS)%nat → addr_at v (i_disk i) n ≠ 0 → (t < FBYTES)%nat →
  let v' := wrote (Z.to_nat (addr_at v (i_disk i) n)) x v in
  (∀ k, addr_at v' (i_disk i) k = addr_at v (i_disk i) k) ∧
  fbyte v' (i_disk i) t = if decide (t / 512 = n)%nat then byte_at x (t mod 512) else fbyte v (i_disk i) t.
Proof. clear Hop.
  intros F Hn Hne Ht%fblock_of_byte v'. pose proof F as []. destruct (fw_data _ _ _ _ fi_file n Hn Hne) as [Hr _].
  destruct fi_geom as [? [? ?] ? ? ? ? ? ? ? ?]. pose proof (tx_len _ _ _ _ _ _ fi_tx) as Hlen.
  assert (∀ k, addr_at v' (i_disk i) k = addr_at v (i_disk i) k) as Ha.
  { intros k. unfold addr_at. destruct (k <? 12)%nat; [done|]. destruct (Z.eqb_spec (daddr (i_disk i) 12) 0) as [|Hi]; [done|].
    unfold v'. rewrite wrote_other; [done|]. unfold ind_block. pose proof (fw_ne _ _ _ _ fi_file n Hn Hne).
    destruct (fw_ind _ _ _ _ fi_file Hi) as [? _]. lia. }
  split; [done|]. unfold fbyte, fblock. rewrite Ha. case_decide as E.
  - rewrite E, (proj2 (Z.eqb_neq _ _) Hne). unfold v'. by rewrite wrote_same by lia.
  - destruct (Z.eqb_spec (addr_at v (i_disk i) (t / 512)) 0) as [|Hnt]; [done|]. unfold v'. rewrite wrote_other; [done|].
    destruct (fw_data _ _ _ _ fi_file _ Ht Hnt) as [? _]. intros E'. apply E. symmetry. apply (fw_inj _ _ _ _ fi_file); [done..|]. lia.
Qed.

(** What a write of [n] bytes at [off] leaves, using [k] blocks; [q] are free. *)
Record written f v bl ip i (off n k q : nat) (src : list Z) f' v' bl' d' : Prop := {
  wr_fin : fin f' v' bl' ip (with_disk d' i);
  wr_post : ipost f f' ip (with_disk d' i);
  wr_meta : same_meta (i_disk i) d';
  wr_log : (length bl' ≤ length bl + 6 * k)%nat;
  wr_ext : ext (owned v (i_disk i)) v v';
  wr_owned c : c ∈ owned v' d' → c ∈ owned v (i_disk i) ∨ used sb v (Z.of_nat c) = false;
  wr_bytes t : (t < FBYTES)%nat → fbyte v' d' t = if decide (off ≤ t < off + n)%nat then byte_at src (t - off) else fbyte v (i_disk i) t;
  wr_alloc j : (0 < n)%nat → (j * 512 < off + n)%nat → (off < j * 512 + 512)%nat → addr_at v' d' j ≠ 0;
  wr_keep j : (j < NBLOCKS)%nat → addr_at v (i_disk i) j ≠ 0 → addr_at v' d' j = addr_at v (i_disk i) j;
  wr_frees : frees q v';
  wr_inside : Z.of_nat (off + n) ≤ d_size (i_disk i) → d' = i_disk i }.

(** Two writes in a row. *)
Lemma written_app f v bl ip i off m n2 k1 k2 q1 q2 src f1 v1 bl1 d1 f2 v2 bl2 d2 :
  (off + m + n2 ≤ FBYTES)%nat → (m ≤ length src)%nat → (0 < m)%nat →
  written f v bl ip i off m k1 q1 src f1 v1 bl1 d1 →
  written f1 v1 bl1 ip (with_disk d1 i) (off + m) n2 k2 q2 (drop m src) f2 v2 bl2 d2 →
  written f v bl ip i off (m + n2) (k1 + k2) q2 src f2 v2 bl2 d2.
Proof. clear Hop.
  intros Hb Hsrc Hm [] [F2 P2 M2 L2 E2 O2 B2 A2 K2 R2 I2]. simpl in *. constructor; try done.
  - by eapply ipost_trans.
  - by eapply same_meta_trans.
  - lia.
  - eapply ext_trans_fresh; [exact wr_ext0|exact E2|]. done.
  - intros c Hc. destruct (O2 c Hc) as [?|Hu]; [by apply wr_owned0|]. right.
    destruct (used sb v (Z.of_nat c)) eqn:E; [|done].
    destruct (decide (Z.of_nat c < sb_size sb)) as [Hlt|Hge].
    + by rewrite (ex_used _ _ _ _ wr_ext0 (Z.of_nat c)) in Hu by (done || lia).
    + exfalso. pose proof (fi_file _ _ _ _ _ _ _ _ _ _ F2) as Fw. simpl in Fw.
      apply owned_spec in Hc as [(j & Hj & Hne & ->)|[Hne ->]].
      * destruct (fw_data _ _ _ _ Fw j Hj Hne). destruct (fi_geom _ _ _ _ _ _ _ _ _ _ F2). lia.
      * destruct (fw_ind _ _ _ _ Fw Hne). destruct (fi_geom _ _ _ _ _ _ _ _ _ _ F2). unfold ind_block in Hge. lia.
  - intros t Ht. rewrite B2 by done. case_decide as D1.
    + rewrite decide_True by lia. unfold byte_at. rewrite lookup_drop. do 2 f_equal. lia.
    + rewrite wr_bytes0 by done. case_decide as D2; [by rewrite decide_True by lia|by rewrite decide_False by lia].
  - intros j _ Hj1 Hj2. destruct (decide (0 < n2 ∧ off + m < j * 512 + 512)%nat).
    + apply A2; lia.
    + assert (j < NBLOCKS)%nat by (unfold FBYTES in Hb; lia). rewrite K2; [apply wr_alloc0; lia|done|apply wr_alloc0; lia].
  - intros j Hj Hne. rewrite K2; [by apply wr_keep0|done|by rewrite wr_keep0].
  - intros Hin. assert (d1 = i_disk i) as E by (apply wr_inside0; lia). rewrite <- E. apply I2. rewrite E. lia.
Qed.
(** One turn of the loop. *)
(** The bytes of the file after [m] bytes of [src] were put at [r] of its block [n]. *)
Lemma turn_bytes f v bl ip i (n r m t : nat) src :
  fin f v bl ip i → (n < NBLOCKS)%nat → addr_at v (i_disk i) n ≠ 0 → (r + m ≤ 512)%nat → (m ≤ length src)%nat → (t < FBYTES)%nat →
  let j := Z.to_nat (addr_at v (i_disk i) n) in length (vblock v j) = BSIZE →
  fbyte (wrote j (splice r (take m src) (vblock v j)) v) (i_disk i) t =
  if decide (n * 512 + r ≤ t < n * 512 + r + m)%nat then byte_at src (t - (n * 512 + r)) else fbyte v (i_disk i) t.
Proof. clear Hop.
  intros F Hn Ha Hrm Hm Ht j Hlen. set (x := splice r (take m src) (vblock v j)).
  assert (length (take m src) = m) as Hlm by (rewrite length_take; lia).
  assert (r + length (take m src) ≤ length (vblock v j))%nat as Hfit by (rewrite Hlm, Hlen; unfold BSIZE; lia).
  destruct (fbyte_wrote f v bl ip i n x t F Hn Ha Ht) as [_ E]. fold j in E. rewrite E.
  pose proof (Nat.div_mod_eq t 512). pose proof (Nat.mod_upper_bound t 512). case_decide as D1.
  - unfold x. rewrite byte_at_splice, Hlm by done. rewrite <- D1. case_decide as D2.
    + rewrite decide_True by lia. unfold byte_at. rewrite lookup_take_lt by lia. do 2 f_equal. lia.
    + rewrite decide_False by lia. unfold fbyte, fblock. by rewrite D1, (proj2 (Z.eqb_neq _ _) Ha).
  - rewrite decide_False; [done|]. intros D2. apply D1. symmetry. apply (Nat.div_unique t 512 n (t - n * 512)); lia.
Qed.
Lemma write_turn {A} f v bl ip i (n r m q : nat) src a f1 (K : M (fstate S) A) (Q : A → fstate S → Prop) :
  fin f v bl ip i → mapped f v bl ip i n q a f1 → (n < NBLOCKS)%nat → (r + m ≤ 512)%nat → (0 < m ≤ length src)%nat → room 6 bl →
  (∀ f2 v2 bl2 d2, written f v bl ip i (n * 512 + r) m 1 q src f2 v2 bl2 d2 → wp K Q f2) →
  wp (i0 ← get_inode ip;
      bp ← fblk (bread (i_dev i0) a);
      d ← fblk (b_get bp);
      fblk (b_put bp (splice r (take m src) d)) ;;
      logm (log_write bp) ;;
      fblk (brelse bp) ;;
      K) Q f1.
Proof.
  intros F (v1 & bl1 & d1 & F1 & P1 & M1 & Hbl1 & E1 & O1 & B1 & <- & Ha & K1 & R1 & I1) Hn Hrm Hm [Hr1 Hr2] HK.
  pose proof F1 as []. simpl in *. destruct (fw_data _ _ _ _ fi_file n Hn Ha) as [Har Hau]. pose proof fi_geom as [? [? ?] ? ? ? ? ? ? ? ?].
  set (j := Z.to_nat (addr_at v1 d1 n)). assert (addr_at v1 d1 n = Z.of_nat j) as Ej by (unfold j; lia).
  apply wp_bind. eapply get_inode_wp; [done|]. simpl. rewrite fi_dev. apply wp_bind.
  eapply wp_bread; [done|exact Ej|lia|by rewrite fi_held|rewrite fi_held, map_size_empty; unfold NBUF; lia|].
  intros bp f2 Hbp L2 T2. apply wp_bind. eapply wp_get; [exact T2|apply lookup_insert_eq|]. change (vblock (v_held _ v1)) with (vblock v1).
  destruct (tx_block _ _ _ _ _ _ j fi_tx ltac:(lia)) as [_ Hlen].
  assert (length (take m src) = m) as Hlm by (rewrite length_take; lia).
  assert (r + length (take m src) ≤ length (vblock v1 j))%nat as Hfit by (rewrite Hlm, Hlen; unfold BSIZE; lia).
  set (x := splice r (take m src) (vblock v1 j)).
  eapply (wp_store_then st sz o Hop); [exact T2|done|unfold x; by rewrite length_splice|split; lia| |lia|].
  { apply (data_home st sz sb ds (length (bv_dsk v1))); [exact fi_geom|done|lia]. }
  intros f3 L3 T3. set (v2 := wrote j x v1) in *.
  assert (logged f1 f3) as L by (by etrans).
  assert (∀ b, 0 ≤ b < sb_size sb → j ≠ bmap_block sb b) as Hnb by (intros b Hb; unfold j; apply (data_not_bmap sb ds (length (bv_dsk v1))); [exact fi_geom|lia|done]).
  assert (ext {[j]} v1 v2) as E2 by (apply ext_wrote; [set_solver|done]).
  assert (j ∈ owned v1 d1) as Hjo by (apply owned_spec; left; by exists n).
  assert (fwf v2 d1) as Fw2.
  { eapply fwf_ext; [exact fi_geom|exact E2|done|]. intros Hi. rewrite elem_of_singleton. unfold ind_block.
    pose proof (fw_ne _ _ _ _ fi_file n Hn Ha). destruct (fw_ind _ _ _ _ fi_file Hi). lia. }
  assert (∀ t, addr_at v2 d1 t = addr_at v1 d1 t) as Ha2.
  { intros t. exact (proj1 (fbyte_wrote f1 v1 bl1 ip (with_disk d1 i) n x 0 F1 Hn Ha ltac:(unfold FBYTES, NBLOCKS; lia)) t). }
  apply (HK f3 v2 (log_add j bl1) d1). constructor.
  - constructor; try done.
    + destruct L as [l ->]. done.
    + eapply meta_used_ext; [lia|exact fi_meta|exact E2].
    + destruct L as [l ->]. done.
  - eapply ipost_trans; [exact P1|]. apply ipost_logged; [done|]. done.
  - done.
  - pose proof (log_add_length j bl1). lia.
  - eapply ext_trans_fresh; [exact E1|exact E2|]. intros c ->%elem_of_singleton. by apply O1.
  - intros c Hc. apply O1. apply owned_spec. apply owned_spec in Hc as [(t & Ht & Hne & ->)|?]; [left|by right].
    exists t. by rewrite Ha2 in Hne |- *.
  - intros t Ht. rewrite <- B1 by done. by apply (turn_bytes f1 v1 bl1 ip (with_disk d1 i) n r m t src F1 Hn Ha Hrm (proj2 Hm) Ht).
  - intros t _ Ht1 Ht2. assert (t = n) as -> by nia. by rewrite Ha2.
  - intros t Ht Hne. rewrite Ha2. by apply K1.
  - eapply frees_same; [exact R1|]. intros c Hc. unfold v2. apply used_wrote. by apply Hnb.
  - intros Hin. apply I1. apply (fw_alloc _ _ _ _ (Bmap.fi_file _ _ _ _ _ _ _ _ _ _ F)). unfold BSZ. lia.
Qed.
Lemma written_nil f v bl ip i off k q src : fin f v bl ip i → frees q v → written f v bl ip i off 0 k q src f v bl (i_disk i).
Proof. clear Hop.
  intros F Hq. assert (with_disk (i_disk i) i = i) as Ed by (by destruct i). constructor; rewrite ?Ed; try done.
  - apply ipost_logged; [done|apply F].
  - lia.
  - by intros c; left.
  - intros t _. by rewrite decide_False by lia.
  - lia.
Qed.
(** The loop, with [k] the number of blocks it touches at most. *)
Lemma writei_loop_wp fuel f v bl ip i (off n k q : nat) src (Q : Z → fstate S → Prop) :
  fin f v bl ip i → (n ≤ length src)%nat → (off + n ≤ FBYTES)%nat → (n < fuel)%nat →
  ((0 < n)%nat → (off + n ≤ (off / 512 + k) * 512)%nat) → room (6 * k) bl → frees (2 * k + q) v →
  (∀ f' v' bl' d', written f v bl ip i off n k q src f' v' bl' d' → Q (Z.of_nat (off + n)) f') →
  wp (writei_loop fuel ip src (Z.of_nat off) (Z.of_nat n)) Q f.
Proof.
  revert f v bl i off n k src Q. induction fuel as [|fuel IH]; intros f v bl i off n k src Q F Hsrc Hmax Hfuel Hk Hr Hf HQ; [lia|]. simpl.
  destruct (Z.leb_spec (Z.of_nat n) 0).
  { assert (n = 0%nat) as -> by lia. unfold wp. simpl. rewrite Nat.add_0_r in HQ. eapply HQ, written_nil; [done|]. eapply frees_le; [done|lia]. }
  destruct (off_block (Z.of_nat off) ltac:(lia)) as [E1 E2]. rewrite Nat2Z.id in E1, E2.
  set (b := (off / 512)%nat) in *. set (r := (off mod 512)%nat) in *.
  pose proof (Nat.div_mod_eq off 512) as Edm. fold b r in Edm. assert (r < 512)%nat as Hrl by (apply Nat.mod_upper_bound; lia).
  destruct k as [|k]; [lia|].
  assert (b < NBLOCKS)%nat as Hb by (unfold FBYTES, NBLOCKS in *; lia).
  set (m := (n `min` (512 - r))%nat). assert (0 < m ≤ n)%nat as [Hm1 Hm2] by (unfold m; lia).
  rewrite E1, E2, Nat2Z.id. assert (Z.of_nat n `min` (BSZ - Z.of_nat r) = Z.of_nat m) as -> by (unfold m, BSZ; lia). rewrite Nat2Z.id.
  replace (Z.of_nat off + Z.of_nat m) with (Z.of_nat (off + m)) by lia. replace (Z.of_nat n - Z.of_nat m) with (Z.of_nat (n - m)) by lia.
  apply wp_bind. eapply wp_mono; [|apply (bmap_mapped f v bl ip i b (2 * k + q)); [done|done|by apply (room_le _ _ (6 * Datatypes.S k)); [|lia]|]].
  2: { eapply frees_le; [exact Hf|lia]. }
  intros a f1 Hmap. eapply (write_turn f v bl ip i b r m (2 * k + q) src); [done|exact Hmap|done|unfold m; lia|lia|by apply (room_le _ _ (6 * Datatypes.S k)); [|lia]|].
  intros f2 v2 bl2 d2 W. replace (b * 512 + r)%nat with off in W by lia. pose proof W as [].
  eapply IH; [exact wr_fin0|rewrite length_drop; lia|lia|lia| | |exact wr_frees0|].
  - intros Hrest. assert (off + m = (b + 1) * 512)%nat as Em by (unfold m in *; lia). rewrite Em, Nat.div_mul by lia. lia.
  - destruct Hr. split; lia.
  - intros f3 v3 bl3 d3 W3. replace (off + m + (n - m))%nat with (off + n)%nat by lia.
    apply (HQ f3 v3 bl3 d3). assert (n = m + (n - m))%nat as -> by lia. change (Datatypes.S k) with (1 + k)%nat.
    replace (m + (n - m) - m)%nat with (n - m)%nat in W3 by lia.
    eapply written_app; [|lia|done|exact W|exact W3]. lia.
Qed.
End rw.
