(* ===== verification/Inode.v ===== *)
(** * Inodes on disk (fs.c: iupdate; fs.h: struct dinode)

    Eight inodes to a block: writing one and reading it back, the others of the
    block untouched; iupdate as one logged write of the inode's block. *)

From S2P Require Import Prelude CStr Monitor Sleeplock Bytes Blocks Log Fs Tx Bitmap Content Bmap.

(** ** The encoding *)
Lemma i16_mod z : - 2 ^ 15 ≤ z < 2 ^ 15 → i16 (z mod 65536) = z.
Proof.
  intros Hz. unfold i16. change 65536 with (2 ^ 16). rewrite Z.add_mod_idemp_l by done.
  rewrite Z.mod_small by lia. lia.
Qed.
Lemma put32s_byte o vs d o' : (o' < o ∨ o + 4 * length vs ≤ o')%nat → byte_at (put32s o vs d) o' = byte_at d o'.
Proof.
  revert o d. induction vs as [|v vs IH]; intros o d H; simpl in *; [done|]. rewrite IH by lia. apply put32_byte. lia.
Qed.
Lemma get16_bytes d d' o : byte_at d o = byte_at d' o → byte_at d (o + 1) = byte_at d' (o + 1) → get16 d o = get16 d' o.
Proof. unfold get16. congruence. Qed.

(** The fields are within the widths of [struct dinode]. *)
Definition s16 (z : Z) : Prop := - 2 ^ 15 ≤ z < 2 ^ 15.
Record dinode_ok (d : dinode) : Prop := {
  dk_type : s16 (d_type d);
  dk_major : s16 (d_major d);
  dk_minor : s16 (d_minor d);
  dk_nlink : s16 (d_nlink d);
  dk_size : 0 ≤ d_size d < 2 ^ 32;
  dk_len : length (d_addrs d) = 13%nat;
  dk_addrs : Forall (λ a, 0 ≤ a < 2 ^ 32) (d_addrs d) }.

Lemma length_put_dinode o d blk : length (put_dinode o d blk) = length blk.
Proof. unfold put_dinode. by rewrite length_put32s, length_put32, !length_put16. Qed.
Lemma put_dinode_byte o d blk o' :
  length (d_addrs d) = 13%nat → (o' < o ∨ o + DINODE ≤ o')%nat → byte_at (put_dinode o d blk) o' = byte_at blk o'.
Proof.
  intros Hl H. unfold put_dinode, DINODE in *. rewrite put32s_byte, put32_byte, !put16_byte by lia. done.
Qed.
(** Another inode of the block. *)
Lemma dinode_at_other o d blk o' :
  length (d_addrs d) = 13%nat → (o' + DINODE ≤ o ∨ o + DINODE ≤ o')%nat → dinode_at (put_dinode o d blk) o' = dinode_at blk o'.
Proof.
  intros Hl H. assert (∀ k, (k < 64)%nat → byte_at (put_dinode o d blk) (o' + k) = byte_at blk (o' + k)) as Hb.
  { intros k Hk. apply put_dinode_byte; [done|]. unfold DINODE in *. lia. }
  pose proof (Hb 0%nat ltac:(lia)) as H0. rewrite Nat.add_0_r in H0.
  unfold dinode_at, get32s. f_equal; try (f_equal; unfold get16; rewrite ?H0, <- ?Nat.add_assoc, !Hb by lia; reflexivity).
  - unfold get32. rewrite <- !Nat.add_assoc, !Hb by lia. done.
  - apply list_fmap_ext. intros j k Hk%lookup_seq. unfold get32. rewrite <- !Nat.add_assoc, !Hb by lia. done.
Qed.
Lemma dinode_at_same o d blk : dinode_ok d → (o + DINODE ≤ length blk)%nat → dinode_at (put_dinode o d blk) o = d.
Proof.
  intros [] Hl. unfold DINODE in Hl. destruct d as [ty ma mi nl s addrs]. simpl in *.
  assert (∀ x q, (q < o + 12)%nat → byte_at (put32s (o + 12) addrs x) q = byte_at x q) as Hs by (intros; apply put32s_byte; lia).
  assert (∀ x q, (q + 2 ≤ o + 12)%nat → get16 (put32s (o + 12) addrs x) q = get16 x q) as Hs16 by (intros; apply get16_bytes; apply Hs; lia).
  assert (∀ v x q, (q + 2 ≤ o + 8)%nat → get16 (put32 (o + 8) v x) q = get16 x q) as H32 by (intros; apply get16_bytes; apply put32_byte; lia).
  unfold dinode_at, put_dinode. cbn [d_type d_major d_minor d_nlink d_size d_addrs]. f_equal.
  - rewrite Hs16, H32 by lia. rewrite !(get16_put16_ne (o + _)) by lia. rewrite get16_put16 by lia. by apply i16_mod.
  - rewrite Hs16, H32 by lia. rewrite (get16_put16_ne (o + 6)), (get16_put16_ne (o + 4)) by lia. rewrite get16_put16 by (rewrite ?length_put16; lia). by apply i16_mod.
  - rewrite Hs16, H32 by lia. rewrite (get16_put16_ne (o + 6)) by lia. rewrite get16_put16 by (rewrite ?length_put16; lia). by apply i16_mod.
  - rewrite Hs16, H32 by lia. rewrite get16_put16 by (rewrite ?length_put16; lia). by apply i16_mod.
  - rewrite put32s_before by lia. rewrite get32_put32 by (rewrite ?length_put16; lia). by apply u32_small.
  - rewrite <- dk_len0. rewrite get32s_put32s by (rewrite ?length_put32, ?length_put16; lia).
    rewrite <- (list_fmap_id addrs) at 2. apply list_fmap_ext. intros k x Hx. apply u32_small. rewrite Forall_lookup in dk_addrs0. eauto.
Qed.

(** ** Inode [inum] on the disk *)
Definition iblock (sb : superblock) (inum : Z) : nat := Z.to_nat (IBLOCK inum sb).
Definition disk_inode (sb : superblock) (v : bview) (inum : Z) : dinode := dinode_at (vblock v (iblock sb inum)) (dip inum).

Lemma dip_le inum : (dip inum + DINODE ≤ BSIZE)%nat.
Proof. unfold dip, IPB, DINODE, BSIZE. pose proof (Z.mod_pos_bound inum 8). lia. Qed.
Lemma dip_ne sb i j :
  i ≠ j → IBLOCK i sb = IBLOCK j sb → (dip i + DINODE ≤ dip j ∨ dip j + DINODE ≤ dip i)%nat.
Proof.
  unfold IBLOCK, dip, IPB, DINODE. intros Hne E. pose proof (Z.mod_pos_bound i 8). pose proof (Z.mod_pos_bound j 8).
  pose proof (Z.div_mod i 8). pose proof (Z.div_mod j 8). assert (i mod 8 ≠ j mod 8) by lia. lia.
Qed.

Section iupdate.
Context {S : Type} `{!BlockOps S} `{!BlockDev S} `{!DevSw (fstate S)}.
Context (st sz : nat) (o : Z) (sb : superblock) (ds : Z).
Hypothesis Hop : 1 ≤ o.
Abbreviation tx := (tx (S := S) st sz o).
Abbreviation room := (room sz).
Implicit Types (f : fstate S) (v : bview) (bl : list nat) (i : inode).

(** The view after inode [inum] was written. *)
Definition put_inode (inum : Z) (d : dinode) v : bview :=
  wrote (iblock sb inum) (put_dinode (dip inum) d (vblock v (iblock sb inum))) v.
Lemma iblock_Z n inum : geom sb n ds → 0 ≤ inum < sb_ninodes sb → IBLOCK inum sb = Z.of_nat (iblock sb inum) ∧ Z.of_nat (iblock sb inum) < ds.
Proof. clear Hop.
  intros G Hi. destruct (gm_ds _ _ _ G). destruct (gm_inode _ _ _ G inum 0 Hi ltac:(lia)) as [? _]. unfold iblock. lia.
Qed.
Lemma iblock_not_bmap n inum b : geom sb n ds → 0 ≤ inum < sb_ninodes sb → 0 ≤ b < sb_size sb → iblock sb inum ≠ bmap_block sb b.
Proof. clear Hop.
  intros G Hi Hb. destruct (gm_inode _ _ _ G inum b Hi Hb) as [? Hne]. intros E. apply Hne.
  rewrite (bmap_block_Z sb b) by (apply G || lia). rewrite <- E. by apply (iblock_Z n).
Qed.
Lemma inode_home n inum : geom sb n ds → log_at st sz sb → 0 ≤ inum < sb_ninodes sb → home st sz (iblock sb inum).
Proof. clear Hop.
  intros G [E1 E2] Hi. destruct (iblock_Z _ _ G Hi) as [E _]. pose proof (gm_log_inode _ _ _ G inum Hi). unfold home. lia.
Qed.
Lemma put_inode_ext n inum d v : geom sb n ds → 0 ≤ inum < sb_ninodes sb → ext sb {[iblock sb inum]} v (put_inode inum d v).
Proof. clear Hop.
  intros G Hi. apply ext_wrote; [set_solver|]. intros b Hb. by apply (iblock_not_bmap n).
Qed.
Lemma disk_inode_put inum d v j :
  (iblock sb inum < length (bv_cur v))%nat → length (vblock v (iblock sb inum)) = BSIZE → dinode_ok d →
  0 ≤ IBLOCK inum sb → 0 ≤ IBLOCK j sb →
  disk_inode sb (put_inode inum d v) j = if decide (inum = j) then d else disk_inode sb v j.
Proof. clear Hop.
  intros Hlt Hlen Hd H1 H2. unfold disk_inode, put_inode. case_decide as E.
  - subst j. rewrite wrote_same by done. apply dinode_at_same; [done|]. rewrite Hlen. apply dip_le.
  - destruct (decide (iblock sb inum = iblock sb j)) as [Eb|Eb].
    + rewrite <- Eb, wrote_same by done. apply dinode_at_other; [apply Hd|].
      destruct (dip_ne sb inum j E) as [?|?]; [unfold iblock in Eb; lia|by right|by left].
    + by rewrite wrote_other.
Qed.
Lemma iupdate_wp f v bl ip i (Q : unit → fstate S → Prop) :
  tx f v bl → fs_sb f = sb → geom sb (length (bv_dsk v)) ds → log_at st sz sb → bv_held v = ∅ → fs_inodes f !! ip = Some i → i_dev i = ROOTDEV →
  0 ≤ i_inum i < sb_ninodes sb → room 1 bl →
  (∀ f', logged f f' → tx f' (put_inode (i_inum i) (i_disk i) v) (log_add (iblock sb (i_inum i)) bl) → Q tt f') →
  wp (iupdate ip) Q f.
Proof.
  intros T Hsb G Hlog Hh Hi Hdev Hn Hr HQ. destruct (iblock_Z _ _ G Hn) as [E Hlt]. destruct (gm_ds _ _ _ G). pose proof (gm_size _ _ _ G).
  unfold iupdate. apply wp_bind. eapply get_inode_wp; [done|]. apply wp_bind. unfold wp at 1. simpl. rewrite Hsb, Hdev. apply wp_bind.
  eapply wp_bread; [exact T|exact E|lia|by rewrite Hh|rewrite Hh, map_size_empty; destruct Hr; unfold NBUF; lia|].
  intros bp f1 Hbp L1 T1. apply wp_bind. eapply wp_get; [exact T1|apply lookup_insert_eq|]. change (vblock (v_held _ v)) with (vblock v).
  destruct (tx_block _ _ _ _ _ _ (iblock sb (i_inum i)) T ltac:(lia)) as [_ Hlen].
  eapply (wp_store st sz o Hop); [exact T1|done|by rewrite length_put_dinode|done|by eapply inode_home|lia|]. intros f2 L2 T2. apply HQ; [by etrans|done].
Qed.
End iupdate.
