(* ===== verification/Writei.v ===== *)
(** * writei, and files that do not share blocks

    The size and the inode on disk after writei, and that the contents of every
    other file are what they were. *)

From S2P Require Import Prelude CStr Monitor Sleeplock Bytes Blocks Log Fs Tx Bitmap Content Bmap Rw Inode.

Lemma addr_at_with_size v d s n : addr_at v (with_size s d) n = addr_at v d n.
Proof. done. Qed.
Lemma fbyte_with_size v d s t : fbyte v (with_size s d) t = fbyte v d t.
Proof. done. Qed.
Lemma owned_with_size v d s : owned v (with_size s d) = owned v d.
Proof. unfold owned. reflexivity. Qed.

Section others.
Context (sb : superblock) (ds : Z).
Implicit Types (v : bview) (d : dinode).
Abbreviation fwf := (fwf sb ds).

Lemma fwf_with_size v d s :
  fwf v d → 0 ≤ s ≤ MAXFILE * BSZ → (∀ n, Z.of_nat n * BSZ < s → addr_at v d n ≠ 0) → fwf v (with_size s d).
Proof. intros [] Hs Ha. by constructor. Qed.

(** A file none of whose blocks is in [X]. *)
Section apart.
Context (X : gset nat) (v v' : bview) (n : nat) (d : dinode).
Hypothesis G : geom sb n ds.
Hypothesis E : ext sb X v v'.
Hypothesis W : fwf v d.
Hypothesis D : owned v d ## X.
Lemma addr_apart k : addr_at v' d k = addr_at v d k.
Proof.
  eapply addr_at_ext; [exact G|exact E|apply W|]. intros Hi HX. apply (D (ind_block d)); [|done]. apply owned_spec. by right.
Qed.
Lemma fwf_apart : fwf v' d.
Proof. eapply fwf_ext; [exact G|exact E|done|]. intros Hi HX. apply (D (ind_block d)); [|done]. apply owned_spec. by right. Qed.
Lemma owned_apart : owned v' d = owned v d.
Proof.
  apply set_eq. intros c. rewrite !owned_spec. apply ZifyClasses.or_morph; [|done].
  split; intros (k & Hk & Hne & Hc); exists k; rewrite addr_apart in *; done.
Qed.
Lemma fbyte_apart t : (t < FBYTES)%nat → fbyte v' d t = fbyte v d t.
Proof.
  intros Ht%fblock_of_byte. unfold fbyte, fblock. rewrite addr_apart. destruct (Z.eqb_spec (addr_at v d (t / 512)) 0) as [|Hne]; [done|].
  f_equal. eapply ext_data; [exact G|exact E|by apply (fw_data _ _ _ _ W)|]. intros HX. apply (D _) in HX; [done|].
  apply owned_spec. left. by exists (t / 512)%nat.
Qed.
Lemma content_apart : content v' d = content v d.
Proof.
  unfold content. apply list_fmap_ext. intros k t Ht%lookup_seq. apply fbyte_apart.
  pose proof (fw_size _ _ _ _ W). unfold FBYTES, NBLOCKS, MAXFILE, BSZ in *. lia.
Qed.
End apart.

Lemma owned_data v d c : fwf v d → c ∈ owned v d → 0 < ds → ds ≤ Z.of_nat c < sb_size sb.
Proof.
  intros W Hc H0. apply owned_spec in Hc as [(k & Hk & Hne & ->)|[Hne ->]].
  - destruct (fw_data _ _ _ _ W k Hk Hne) as [? _]. lia.
  - destruct (fw_ind _ _ _ _ W Hne) as [? _]. unfold ind_block. lia.
Qed.
(** The addresses fit the disk inode. *)
Lemma fwf_dinode_ok v d n :
  fwf v d → geom sb n ds → s16 (d_type d) → s16 (d_major d) → s16 (d_minor d) → s16 (d_nlink d) → dinode_ok d.
Proof.
  intros W [] ? ? ? ?. constructor; try done.
  - pose proof (fw_size _ _ _ _ W). unfold MAXFILE, BSZ in *. lia.
  - apply W.
  - apply Forall_lookup. intros k a Ha. assert (k < 13)%nat as Hk by (rewrite <- (fw_len _ _ _ _ W); by eapply lookup_lt_Some).
    assert (daddr d k = a) as E by (unfold daddr; by rewrite Ha). destruct (decide (a = 0)) as [->|Hne]; [lia|].
    destruct (decide (k = 12%nat)) as [->|Hk12].
    + destruct (fw_ind _ _ _ _ W ltac:(congruence)) as [? _]. lia.
    + assert (addr_at v d k = a) as E' by (unfold addr_at; by rewrite (proj2 (Nat.ltb_lt k 12)) by lia).
      destruct (fw_data _ _ _ _ W k ltac:(unfold NBLOCKS; lia) ltac:(congruence)) as [? _]. lia.
Qed.
(** Contents as a list, from the bytes. *)
Lemma content_splice v v' d d' (off n : nat) src :
  (n ≤ length src)%nat → Z.of_nat off ≤ d_size d ≤ Z.of_nat FBYTES → (off + n ≤ FBYTES)%nat → d_size d' = Z.max (d_size d) (Z.of_nat (off + n)) →
  (∀ t, (t < FBYTES)%nat → fbyte v' d' t = if decide (off ≤ t < off + n)%nat then byte_at src (t - off) else fbyte v d t) →
  content v' d' = splice off (take n src) (content v d).
Proof.
  intros Hsrc Hd Hn Hd' Hb. unfold splice, content. rewrite Hd', length_take, Nat.min_l by lia.
  rewrite <- fmap_take, <- fmap_drop, take_seq, drop_seq, Nat.min_l by lia.
  replace (Z.to_nat (d_size d `max` Z.of_nat (off + n))) with (off + (n + (Z.to_nat (d_size d) - (off + n))))%nat by lia.
  rewrite !seq_app, !fmap_app. f_equal; [|f_equal].
  - apply list_fmap_ext. intros k t Ht%lookup_seq. rewrite Hb, decide_False by lia. done.
  - rewrite <- (drop_0 src), slice_bytes by (simpl; lia). apply list_eq. intros k. rewrite !list_lookup_fmap.
    destruct (decide (k < n)%nat); [|by rewrite !lookup_seq_ge by lia]. rewrite !lookup_seq_lt by done. simpl. f_equal.
    rewrite Hb, decide_True by lia. f_equal. lia.
  - rewrite Nat.add_0_l. apply list_fmap_ext. intros k t Ht%lookup_seq. rewrite Hb, decide_False by lia. done.
Qed.
End others.

Section writei.
Context {S : Type} `{!BlockOps S} `{!BlockDev S} `{!DevSw (fstate S)}.
Context (st sz : nat) (o : Z) (sb : superblock) (ds : Z).
Hypothesis Hop : 1 ≤ o.
Abbreviation room := (room sz).
Abbreviation fwf := (fwf sb ds).
Abbreviation fin := (fin st sz o sb ds).
Abbreviation frees := (frees sb).
Implicit Types (f : fstate S) (v : bview) (bl : list nat) (i : inode).

(** The inode [ip] is a file with its copy on disk up to date. *)
Record synced f v bl ip i : Prop := {
  sy_fin : fin f v bl ip i;
  sy_inum : 0 ≤ i_inum i < sb_ninodes sb;
  sy_ok : dinode_ok (i_disk i);
  sy_type : i_type i ≠ T_DEV;
  sy_disk : disk_inode sb v (i_inum i) = i_disk i }.
(** The other inodes and the files that share no block with [d]. *)
Definition others v (inum : Z) (d : dinode) v' (d' : dinode) : Prop :=
  (∀ j, 0 ≤ j < sb_ninodes sb → j ≠ inum → disk_inode sb v' j = disk_inode sb v j) ∧
  ∀ d2, fwf v d2 → owned v d2 ## owned v d → fwf v' d2 ∧ content v' d2 = content v d2 ∧ owned v' d2 ## owned v' d'.

(** What the loop leaves, for the other files and inodes. *)
Lemma written_others f v bl ip i off n k q src f' v' bl' d' :
  fin f v bl ip i → written st sz o sb ds f v bl ip i off n k q src f' v' bl' d' →
  (∀ j, 0 ≤ j < sb_ninodes sb → disk_inode sb v' j = disk_inode sb v j) ∧ others v (i_inum i) (i_disk i) v' d'.
Proof. clear Hop.
  intros F [] . pose proof (fi_geom _ _ _ _ _ _ _ _ _ _ F) as G. destruct (gm_ds _ _ _ G).
  assert (∀ j, 0 ≤ j < sb_ninodes sb → disk_inode sb v' j = disk_inode sb v j) as Hj.
  { intros j Hj. unfold disk_inode. f_equal. destruct (iblock_Z sb ds _ j G Hj) as [E Hlt]. apply (ex_same _ _ _ _ wr_ext).
    - lia.
    - apply F. lia.
    - intros b Hb. by apply (iblock_not_bmap sb ds _ j b G).
    - intros Hc. destruct (owned_data sb ds v _ _ (fi_file _ _ _ _ _ _ _ _ _ _ F) Hc); lia. }
  split; [done|]. split; [auto|]. intros d2 W D. split_and!.
  - by eapply fwf_apart.
  - by eapply content_apart.
  - erewrite owned_apart by done. intros c Hc Hc'. destruct (wr_owned c Hc') as [?|Hu]; [by apply (D c)|].
    apply owned_spec in Hc as [(t & Ht & Hne & ->)|[Hne ->]].
    + destruct (fw_data _ _ _ _ W t Ht Hne) as [? Hu']. rewrite Z2Nat.id in Hu by lia. congruence.
    + destruct (fw_ind _ _ _ _ W Hne) as [? Hu']. unfold ind_block in Hu. rewrite Z2Nat.id in Hu by lia. congruence.
Qed.
(** iupdate after the file grew. *)
Lemma iupdate_synced f v bl ip i s (Q : unit → fstate S → Prop) :
  fin f v bl ip i → 0 ≤ i_inum i < sb_ninodes sb → dinode_ok (with_size s (i_disk i)) → i_type i ≠ T_DEV →
  fwf v (with_size s (i_disk i)) → room 1 bl →
  (∀ f' v' bl', synced f' v' bl' ip (with_disk (with_size s (i_disk i)) i) → ipost f f' ip (with_disk (with_size s (i_disk i)) i) →
     ext sb {[iblock sb (i_inum i)]} v v' → (length bl' ≤ length bl + 1)%nat →
     (∀ j, 0 ≤ j < sb_ninodes sb → j ≠ i_inum i → disk_inode sb v' j = disk_inode sb v j) → Q tt f') →
  wp (upd_disk (with_size s) ip ;; iupdate ip) Q f.
Proof.
  intros F Hi Hok Hty Hw Hr HQ. destruct F. apply wp_bind. unfold wp at 1. simpl.
  set (i' := with_disk (with_size s (i_disk i)) i).
  set (f1 := with_inodes _ f). assert (fs_inodes f1 !! ip = Some i') as Hi1.
  { unfold f1. simpl. by rewrite (alter_lookup_insert _ _ _ _ fi_ino), list_lookup_insert_eq by (by eapply lookup_lt_Some). }
  eapply (iupdate_wp st sz o sb ds Hop f1 v bl ip i'); try done; [by destruct fi_tx|]. intros f2 L T.
  pose proof (put_inode_ext sb ds _ (i_inum i) (i_disk i') v fi_geom Hi) as E.
  destruct (iblock_Z sb ds _ _ fi_geom Hi) as [Eb Hlt]. pose proof fi_geom as [? [? ?] ? ? ? ? ? ? ? ?].
  pose proof (tx_len _ _ _ _ _ _ fi_tx) as Hlen.
  assert (∀ j, 0 ≤ j < sb_ninodes sb → disk_inode sb (put_inode sb (i_inum i) (i_disk i') v) j = if decide (i_inum i = j) then i_disk i' else disk_inode sb v j) as Hd.
  { intros j Hj. apply disk_inode_put; [lia|eapply tx_block; [done|lia]|done|lia|]. destruct (iblock_Z sb ds _ j fi_geom Hj). lia. }
  eapply (HQ f2); [| |exact E|apply log_add_length|].
  - constructor; [|done..|by rewrite Hd, decide_True]. constructor; try done.
    + destruct L as [l ->]. done.
    + eapply meta_used_ext; [lia|exact fi_meta|exact E].
    + destruct L as [l ->]. done.
    + eapply (fwf_apart sb ds _ v); [exact fi_geom|exact E|done|]. intros c Hc ->%elem_of_singleton.
      destruct (owned_data sb ds v _ _ Hw Hc); lia.
  - destruct L as [l ->]. constructor; try done. simpl. by rewrite (alter_lookup_insert _ _ _ _ fi_ino).
  - intros j Hj Hne. by rewrite Hd, decide_False.
Qed.
(** What writei leaves: [k] is the number of blocks it touches. *)
Definition wrote_file f v bl ip i (off n k : nat) src f' : Prop :=
  ∃ v' bl' d', synced f' v' bl' ip (with_disk d' i) ∧ ipost f f' ip (with_disk d' i) ∧
    content v' d' = splice off (take n src) (content v (i_disk i)) ∧
    others v (i_inum i) (i_disk i) v' d' ∧ bv_dsk v' = bv_dsk v ∧ bv_writes v' = bv_writes v ∧ (length bl' ≤ length bl + (6 * k + 1))%nat.
Lemma wp_ret {A} (a : A) (Q : A → fstate S → Prop) f : Q a f → wp (mret a) Q f.
Proof. done. Qed.
Lemma same_meta_ok v d d' s n :
  dinode_ok d → same_meta d d' → fwf v (with_size s d') → geom sb n ds → dinode_ok (with_size s d').
Proof. clear Hop.
  intros [] (E1 & E2 & E3 & E4 & _) W G. eapply (fwf_dinode_ok sb ds v _ n); [done|done|simpl; congruence..].
Qed.
(** The file grew: its size and its inode follow. *)
Lemma writei_grow f v bl ip i (off n k : nat) src f1 v1 bl1 d1 (Q : unit → fstate S → Prop) :
  synced f v bl ip i → written st sz o sb ds f v bl ip i off n k 0 src f1 v1 bl1 d1 →
  (n ≤ length src)%nat → Z.of_nat off ≤ d_size (i_disk i) < Z.of_nat (off + n) → (off + n ≤ FBYTES)%nat → room (6 * k + 1) bl →
  (∀ f', wrote_file f v bl ip i off n k src f' → Q tt f') →
  wp (upd_disk (with_size (Z.of_nat (off + n))) ip ;; iupdate ip) Q f1.
Proof.
  intros [F Hi Hok Hty Hdisk] W Hsrc Hsz Hmax Hr HQ. pose proof W as []. pose proof wr_fin as [? _ G _ _ _ _ _ Fw]. simpl in Fw.
  destruct (written_others _ _ _ _ _ _ _ _ _ _ _ _ _ _ F W) as [Hj [_ Ho]].
  pose proof wr_meta as (Et & _ & _ & _ & Es). set (s := Z.of_nat (off + n)) in *.
  assert (fwf v1 (with_size s d1)) as Fs.
  { apply fwf_with_size; [done|unfold FBYTES, NBLOCKS, MAXFILE, BSZ in *; lia|]. intros t Ht. unfold BSZ in Ht.
    destruct (decide (off < t * 512 + 512)%nat); [apply wr_alloc; lia|]. apply (fw_alloc _ _ _ _ Fw). unfold BSZ. lia. }
  assert (dinode_ok (with_size s d1)) as Hok1 by (by eapply same_meta_ok).
  eapply (iupdate_synced f1 v1 bl1 ip (with_disk d1 i) s); [done|done|exact Hok1|unfold i_type in *; simpl; congruence|exact Fs| |].
  { destruct Hr. split; lia. }
  intros f2 v2 bl2 S2 P2 E2 L2 J2. cbn [i_disk i_inum with_disk] in *. apply HQ. exists v2, bl2, (with_size s d1). destruct (gm_ds _ _ _ G). destruct (iblock_Z sb ds _ _ G Hi) as [_ Hlt].
  assert (∀ d2, fwf v1 d2 → owned v1 d2 ## {[iblock sb (i_inum i)]}) as Hap.
  { intros d2 W2 c Hc ->%elem_of_singleton. destruct (owned_data sb ds v1 _ _ W2 Hc); lia. }
  split_and!; [exact S2|by eapply ipost_trans| | | | |lia].
  3: by rewrite (ex_dsk _ _ _ _ E2), (ex_dsk _ _ _ _ wr_ext).
  3: by rewrite (ex_writes _ _ _ _ E2), (ex_writes _ _ _ _ wr_ext).
  - rewrite (content_apart sb ds _ v1 v2 _ (with_size s d1) G E2 Fs) by exact (Hap _ Fs). apply content_splice; [done| |done|cbn [d_size with_size]; lia|exact wr_bytes].
    pose proof (fw_size _ _ _ _ (fi_file _ _ _ _ _ _ _ _ _ _ F)). unfold FBYTES, NBLOCKS, MAXFILE, BSZ in *. lia.
  - split; [intros j Hjr Hne; rewrite J2 by done; by apply Hj|]. intros d2 W2 D2. destruct (Ho d2 W2 D2) as (W3 & C3 & D3). split_and!.
    + eapply fwf_apart; [exact G|exact E2|done|by apply Hap].
    + rewrite (content_apart sb ds _ v1 v2 _ d2 G E2 W3); [exact C3|exact (Hap _ W3)].
    + rewrite (owned_apart sb ds _ v1 v2 _ d2 G E2 W3) by exact (Hap _ W3).
      rewrite (owned_apart sb ds _ v1 v2 _ (with_size s d1) G E2 Fs) by exact (Hap _ Fs). rewrite owned_with_size. exact D3.
Qed.
Lemma writei_wp f v bl ip i (off n k : nat) src (Q : Z → fstate S → Prop) :
  synced f v bl ip i → (n ≤ length src)%nat → Z.of_nat off ≤ d_size (i_disk i) → (off + n ≤ FBYTES)%nat →
  ((0 < n)%nat → (off + n ≤ (off / 512 + k) * 512)%nat) → room (6 * k + 1) bl → frees (2 * k) v →
  (∀ f', wrote_file f v bl ip i off n k src f' → Q (Z.of_nat n) f') →
  wp (writei ip src (Z.of_nat off) (Z.of_nat n)) Q f.
Proof.
  intros Sy Hsrc Hoff Hmax Hk Hr Hf HQ. pose proof Sy as [F Hi Hok Hty Hdisk]. pose proof (fw_size _ _ _ _ (fi_file _ _ _ _ _ _ _ _ _ _ F)) as Hs.
  assert (Z.of_nat FBYTES = MAXFILE * BSZ) as EF by done. unfold writei. apply wp_bind. eapply get_inode_wp; [apply F|].
  assert (MAXFILE * BSZ < 2 ^ 31) as H31 by done.
  rewrite (proj2 (Z.eqb_neq _ _) Hty). unfold i_size. rewrite u32_small by lia.
  rewrite (proj2 (Z.ltb_ge (d_size _) _)), (proj2 (Z.ltb_ge (_ + _) _)), (proj2 (Z.ltb_ge (_ * _) _)), (proj2 (Z.ltb_ge (Z.of_nat (length src)) _)) by lia.
  cbn [orb]. rewrite Nat2Z.id. apply wp_bind.
  eapply (writei_loop_wp st sz o sb ds Hop _ f v bl ip i off n k 0 src); [done..|lia|done| | |].
  { apply (room_le _ _ (6 * k + 1)); [done|lia]. }
  { eapply frees_le; [exact Hf|lia]. }
  intros f1 v1 bl1 d1 W. pose proof W as []. apply wp_bind. eapply get_inode_wp; [apply wr_fin|]. simpl.
  pose proof wr_meta as (Et & _ & _ & _ & Es). rewrite Es, i32_small by lia. apply wp_bind.
  destruct (decide (d_size (i_disk i) < Z.of_nat (off + n))) as [Hg|Hg].
  - rewrite (proj2 (Z.ltb_lt 0 _)), (proj2 (Z.ltb_lt (d_size _) _)) by lia. cbn [andb when].
    eapply (writei_grow f v bl ip i off n k src f1 v1 bl1 d1); [done|exact W|done|lia|done|done|]. intros f2 H2. by apply wp_ret, HQ.
  - rewrite (proj2 (Z.ltb_ge (d_size _) _)) by lia. rewrite andb_false_r. cbn [when]. apply wp_ret, wp_ret, HQ.
    rewrite wr_inside in * by lia. destruct (written_others _ _ _ _ _ _ _ _ _ _ _ _ _ _ F W) as [Hj Ho].
    exists v1, bl1, (i_disk i). split_and!; [|done| |exact Ho|apply (ex_dsk _ _ _ _ wr_ext)|apply (ex_writes _ _ _ _ wr_ext)|lia].
    + constructor; try done. simpl. by rewrite Hj.
    + apply content_splice; [done|lia|done|lia|exact wr_bytes].
Qed.
End writei.
