(* ===== verification/Filetx.v ===== *)
(** * A file written in a transaction

    writei between begin_op and end_op: what is on the disk afterwards, and what
    is on it when the machine stops in the middle and recovers. *)

From S2P Require Import Prelude CStr Monitor Sleeplock Bytes Blocks Log Fs Tx Bitmap Content Bmap Rw Inode Writei.

(** The contents of file [inum] on a disk. *)
Definition file_on_disk (sb : superblock) (D : list block) (inum : Z) : list Z :=
  content (quiet D []) (disk_inode sb (quiet D []) inum).

(** ** Views that agree outside the log *)
Section agree.
Context (st sz : nat) (sb : superblock) (ds : Z) (n : nat) (v v' : bview).
Hypothesis G : geom sb n ds.
Hypothesis Hlog : log_at st sz sb.
Hypothesis Hv : ∀ j, home st sz j → vblock v' j = vblock v j.
Lemma data_agree d : fwf sb ds v d →
  (∀ k, addr_at v' d k = addr_at v d k) ∧
  (∀ k, (k < NBLOCKS)%nat → addr_at v d k ≠ 0 → vblock v' (Z.to_nat (addr_at v d k)) = vblock v (Z.to_nat (addr_at v d k))).
Proof.
  intros W. split.
  - intros k. unfold addr_at. destruct (k <? 12)%nat; [done|]. destruct (Z.eqb_spec (daddr d 12) 0) as [|Hi]; [done|].
    rewrite Hv; [done|]. destruct (fw_ind _ _ _ _ W Hi). eapply data_home; [exact G|done|lia].
  - intros k Hk Hne. apply Hv. destruct (fw_data _ _ _ _ W k Hk Hne). eapply data_home; [exact G|done|lia].
Qed.
Lemma content_agree d : fwf sb ds v d → content v' d = content v d.
Proof.
  intros W. destruct (data_agree d W) as [Ha Hb]. pose proof (fw_size _ _ _ _ W). unfold content.
  apply list_fmap_ext. intros k t Ht%lookup_seq. unfold fbyte, fblock. rewrite Ha.
  destruct (Z.eqb_spec (addr_at v d (t / 512)) 0) as [|Hne]; [done|]. rewrite Hb; [done| |done].
  apply fblock_of_byte. unfold FBYTES, NBLOCKS, MAXFILE, BSZ in *. lia.
Qed.
Lemma inode_agree j : 0 ≤ j < sb_ninodes sb → disk_inode sb v' j = disk_inode sb v j.
Proof. intros Hj. unfold disk_inode. rewrite Hv; [done|]. by eapply inode_home. Qed.
End agree.
Lemma file_on_disk_agree st sz sb ds n v D j :
  geom sb n ds → log_at st sz sb → same_data st sz D (bv_cur v) → 0 ≤ j < sb_ninodes sb → fwf sb ds v (disk_inode sb v j) →
  file_on_disk sb D j = content v (disk_inode sb v j).
Proof.
  intros G Hlog HD Hj W. assert (∀ k, home st sz k → vblock (quiet D []) k = vblock v k) as Hv.
  { intros k Hk. unfold vblock. simpl. by rewrite HD. }
  unfold file_on_disk. rewrite (inode_agree st sz sb ds n v) by done. by eapply content_agree.
Qed.

Section tx.
Context {S : Type} `{!BlockOps S} `{!BlockDev S} `{!DevSw (fstate S)}.
Context (st sz : nat) (sb : superblock) (ds : Z).
Implicit Types (f : fstate S) (v : bview) (bl : list nat) (i : inode).

(** No operation is in progress and the log is empty, in memory and on disk. *)
Record log_idle f v : Prop := {
  id_rep : lrep st sz (fs_log f) v;
  id_out : l_outstanding (fs_log f) = 0;
  id_commit : l_committing (fs_log f) = 0;
  id_n : l_n (fs_log f) = 0;
  id_held : bv_held v = ∅;
  id_dirty : bv_dirty v = ∅;
  id_head : hdr_n (blk_at (bv_dsk v) st) = 0;
  id_small : Z.of_nat (length (bv_dsk v)) < 2 ^ 31 }.
Lemma idle_cur f v : log_idle f v → bv_cur v = bv_dsk v.
Proof.
  intros []. apply list_eq. intros j. apply (bd_clean _ _ _ (lr_blk _ _ _ _ id_rep0)); [by rewrite id_dirty0; set_solver|by rewrite id_held0].
Qed.
Lemma begin_op_idle f v : log_idle f v → ∃ f', logm begin_op f = Ok tt f' ∧ logged f f' ∧ tx st sz 1 f' v [].
Proof.
  intros []. exists (with_log (with_locked false (with_outstanding 1 (with_locked true (fs_log f)))) f). split_and!.
  - unfold logm. erewrite zoom_run; [reflexivity|]. simpl.
    unfold begin_op, acquire_log, release_log, get, modify, mbind, M_bind. rewrite (lr_free _ _ _ _ id_rep0). simpl.
    by rewrite id_commit0, id_n0, id_out0.
  - by eexists.
  - destruct id_rep0. constructor; simpl; try done.
    + by constructor.
    + intros j Hj. by apply elem_of_nil in Hj.
Qed.
(** end_op of the only operation commits. *)
Lemma end_op_commit f v bl :
  tx st sz 1 f v bl → bv_held v = ∅ → (length bl < sz)%nat → (length bl < NBUF)%nat →
  hdr_n (blk_at (bv_dsk v) st) = 0 → Z.of_nat (length (bv_dsk v)) < 2 ^ 31 →
  ∃ f' v' W, logm end_op f = Ok tt f' ∧ logged f f' ∧ lrep st sz (fs_log f') v' ∧ bv_writes v' = bv_writes v ++ W ∧
    same_data st sz (bv_dsk v') (bv_cur v) ∧
    ∀ k y, lrep st sz y (quiet (apply_writes (take k W) (bv_dsk v)) []) →
      ∃ y' v'', recover_from_log y = Ok tt y' ∧ lrep st sz y' v'' ∧
        same_data st sz (bv_dsk v'') (if (k <=? length bl)%nat then bv_dsk v else bv_cur v).
Proof.
  intros [R Htx Hd Hnd Ho Hc Hhome] Hh Hl1 Hl2 Hhd Hsm. set (x := fs_log f) in *.
  set (x1 := with_locked false (with_committing 1 (with_outstanding 0 (with_locked true x)))).
  assert (lrep st sz x1 v) as R1 by (destruct R; by constructor).
  assert (tx_start st sz (bv_dsk v) (bv_cur v) bl) as T.
  { pose proof (lr_fits _ _ _ _ R) as Hfits. destruct (lookup_lt_is_Some_2 (bv_dsk v) st ltac:(lia)) as [h Hst].
    constructor; try done.
    - constructor; [|done|done]. intros b Hb. destruct (Hhome b Hb) as [H ?]. by split.
    - unfold NBUF, LOGSIZE in *. lia.
    - apply Forall_forall. intros b Hb. destruct (Hhome b Hb). lia.
    - rewrite (blk_at_lookup _ _ _ Hst). eapply (bd_size _ v st); [apply R|]. rewrite (bd_clean _ v st (lr_blk _ _ _ _ R)); [done| |by rewrite Hh].
      rewrite Hd, elem_of_list_to_set. intros Hin. destruct (Hhome _ Hin) as [[?|?] _]; lia.
    - apply (bd_len _ _ (lr_blk _ _ _ _ R)).
    - intros j Hj. apply (bd_clean _ v j (lr_blk _ _ _ _ R)); [rewrite Hd; set_solver|by rewrite Hh]. }
  destruct (commit_crash st sz x1 v bl R1 Hh Htx Hd Hl2 T) as (x2 & v' & W & H2 & R2 & _ & HW & Hs & Hcr).
  exists (with_log (with_locked false (with_committing 0 (with_locked true x2))) f), v', W. split_and!; [|by eexists| |done|done|].
  - unfold logm. erewrite zoom_run; [reflexivity|]. change (view log_lens f) with x.
    unfold end_op, acquire_log, release_log, when, get, modify, mbind, M_bind. rewrite (lr_free _ _ _ _ R).
    cbn -[commit]. rewrite Hc, Ho. change (1 - 1 =? 0) with true. cbn -[commit]. change (1 - 1) with 0.
    fold x1. rewrite H2. cbn. by rewrite (lr_free _ _ _ _ R2).
  - destruct R2. by constructor.
  - intros k y Hy. destruct (Hcr k y Hy) as (y' & v'' & Hr & Ry & _ & Hsd). by exists y', v''.
Qed.

(** Entry [ip] of the inode cache is a file, up to date on disk, and the log is
    idle. *)
Record idle_file f v (ip : nat) i : Prop := {
  if_idle : log_idle f v;
  if_sb : fs_sb f = sb;
  if_geom : geom sb (length (bv_dsk v)) ds;
  if_log : log_at st sz sb;
  if_meta : meta_used sb ds v;
  if_ino : fs_inodes f !! ip = Some i;
  if_dev : i_dev i = ROOTDEV;
  if_file : fwf sb ds v (i_disk i);
  if_inum : 0 ≤ i_inum i < sb_ninodes sb;
  if_ok : dinode_ok (i_disk i);
  if_type : i_type i ≠ T_DEV;
  if_disk : disk_inode sb v (i_inum i) = i_disk i }.
Lemma idle_synced f f' v ip i : idle_file f v ip i → logged f f' → tx st sz 1 f' v [] → synced st sz 1 sb ds f' v [] ip i.
Proof. intros [] [l ->] T. constructor; try done. constructor; try done. apply if_idle0. Qed.

Definition write_tx (ip : nat) (src : list Z) (off n : Z) : M (fstate S) Z :=
  logm begin_op ;; r ← writei ip src off n; logm end_op ;; mret r.

(** A file that shares no block with file [inum]. *)
Definition apart_file v (inum j : Z) : Prop :=
  0 ≤ j < sb_ninodes sb ∧ j ≠ inum ∧ fwf sb ds v (disk_inode sb v j) ∧
  owned v (disk_inode sb v j) ## owned v (disk_inode sb v inum).
(** Disk [D] holds [l] as file [inum], and the other files as in [v]. *)
Definition outcome v (inum : Z) (l : list Z) (D : list block) : Prop :=
  file_on_disk sb D inum = l ∧ ∀ j, apart_file v inum j → file_on_disk sb D j = file_on_disk sb (bv_dsk v) j.
Lemma outcome_old f v ip i D :
  idle_file f v ip i → same_data st sz D (bv_dsk v) → outcome v (i_inum i) (file_on_disk sb (bv_dsk v) (i_inum i)) D.
Proof.
  intros [] HD. pose proof (idle_cur _ _ if_idle0) as Ec.
  assert (∀ D j, same_data st sz D (bv_dsk v) → 0 ≤ j < sb_ninodes sb → fwf sb ds v (disk_inode sb v j) → file_on_disk sb D j = content v (disk_inode sb v j)) as H.
  { intros D' j HD' Hj W. eapply file_on_disk_agree; [exact if_geom0|done|by rewrite Ec|done|done]. }
  split.
  - rewrite !(H _ (i_inum i)) by (done || by rewrite if_disk0). done.
  - intros j (Hj & _ & W & _). by rewrite !(H _ j).
Qed.
Lemma outcome_new f v ip i D v' d' :
  idle_file f v ip i → disk_inode sb v' (i_inum i) = d' → fwf sb ds v' d' → others sb ds v (i_inum i) (i_disk i) v' d' →
  same_data st sz D (bv_cur v') → outcome v (i_inum i) (content v' d') D.
Proof.
  intros F Hd' W' [Ho1 Ho2] HD. pose proof F as []. split.
  - rewrite (file_on_disk_agree st sz sb ds (length (bv_dsk v)) v' D) by (done || by rewrite Hd'). by rewrite Hd'.
  - intros j (Hj & Hne & W & Hap). rewrite if_disk0 in Hap. destruct (Ho2 _ W Hap) as (W2 & C2 & _).
    rewrite (file_on_disk_agree st sz sb ds (length (bv_dsk v)) v' D) by (done || by rewrite Ho1).
    rewrite Ho1, C2 by done. pose proof (idle_cur _ _ if_idle0) as Ec.
    symmetry. eapply file_on_disk_agree; [exact if_geom0|done|by rewrite Ec|done|done].
Qed.

(** C7: writing a file is atomic with respect to crashes.  On a well-formed file
    with enough free blocks, begin_op, writei and end_op return the number of
    bytes; the file on disk is then the old one with the bytes from [off] on
    replaced, or the file extended, and the files that share no block with it are
    as they were.  If the machine stops after any number [m] of the disk writes
    this made, recovery at the next boot leaves either the old file or the new
    one, and the other files as they were.  [k] is the number of blocks that the
    range touches. *)
Theorem file_write_atomic f v ip i (off n k : nat) src :
  idle_file f v ip i → (n ≤ length src)%nat → Z.of_nat off ≤ d_size (i_disk i) → (off + n ≤ FBYTES)%nat →
  ((0 < n)%nat → (off + n ≤ (off / 512 + k) * 512)%nat) → room sz (6 * k + 1) [] → frees sb (2 * k) v →
  let old := file_on_disk sb (bv_dsk v) (i_inum i) in
  let new := splice off (take n src) old in
  ∃ f' v' W c, write_tx ip src (Z.of_nat off) (Z.of_nat n) f = Ok (Z.of_nat n) f' ∧ lrep st sz (fs_log f') v' ∧
    bv_writes v' = bv_writes v ++ W ∧ outcome v (i_inum i) new (bv_dsk v') ∧
    ∀ m y, lrep st sz y (quiet (apply_writes (take m W) (bv_dsk v)) []) →
      ∃ y' v'', recover_from_log y = Ok tt y' ∧ lrep st sz y' v'' ∧
        outcome v (i_inum i) (if (m <=? c)%nat then old else new) (bv_dsk v'').
Proof.
  intros F Hsrc Hoff Hmax Hk Hr Hf old new. destruct (begin_op_idle f v (if_idle _ _ _ _ F)) as (f1 & H1 & L1 & T1).
  pose proof (idle_synced _ _ _ _ _ F L1 T1) as Sy.
  pose proof (writei_wp st sz 1 sb ds ltac:(done) f1 v [] ip i off n k src
    (λ r f2, r = Z.of_nat n ∧ wrote_file st sz 1 sb ds f1 v [] ip i off n k src f2) Sy Hsrc Hoff Hmax Hk Hr Hf ltac:(done)) as Hw.
  apply wp_ok in Hw as (r & f2 & H2 & -> & v2 & bl2 & d2 & S2 & P2 & C2 & O2 & D2 & W2 & Hlen).
  pose proof S2 as [F2 _ _ _ Hd2]. pose proof (if_idle _ _ _ _ F) as []. destruct Hr as [Hr1 Hr2]. simpl in Hr1, Hr2, Hlen.
  destruct (end_op_commit f2 v2 bl2) as (f3 & v3 & W & H3 & L3 & R3 & HW & Hs & Hcr); [apply F2|apply F2|lia|unfold NBUF; lia|by rewrite D2|by rewrite D2|].
  assert (content v (i_disk i) = old) as Eold.
  { symmetry. unfold old. rewrite <- (if_disk _ _ _ _ F). eapply (file_on_disk_agree st sz); try apply F.
    - by rewrite (idle_cur _ _ (if_idle _ _ _ _ F)).
    - rewrite (if_disk _ _ _ _ F). apply F. }
  rewrite Eold in C2. fold new in C2.
  assert (∀ D, same_data st sz D (bv_cur v2) → outcome v (i_inum i) new D) as Hnew.
  { intros D HD. rewrite <- C2. eapply outcome_new; [done|exact Hd2|apply (fi_file _ _ _ _ _ _ _ _ _ _ F2)|exact O2|done]. }
  exists f3, v3, W, (length bl2). split_and!.
  - unfold write_tx. by rewrite (bind_run _ _ _ _ _ H1), (bind_run _ _ _ _ _ H2), (bind_run _ _ _ _ _ H3).
  - done.
  - by rewrite HW, W2.
  - by apply Hnew.
  - intros m y Ry. rewrite <- D2 in Ry. destruct (Hcr m y Ry) as (y' & v'' & Hrec & Ry' & Hsd). exists y', v''. split_and!; [done..|].
    rewrite D2 in Hsd. destruct (m <=? length bl2)%nat; [by eapply outcome_old|by apply Hnew].
Qed.
End tx.
