(* ===== verification/Files.v ===== *)
(** * Files: the theorems

    Allocating a block, reading and writing a file, and the round trip of an inode
    through its block on disk. *)

From S2P Require Import Prelude CStr Monitor Sleeplock Bytes Blocks Log Fs Tx Bitmap Content Bmap Rw Inode Writei.

(** An inode survives the way to the disk and back.  put_dinode, the copy that
    iupdate makes, followed by dinode_at, the copy that ilock makes, gives the
    inode back if its fields fit their 16 or 32 bits; the other inodes of the
    block and the length of the block do not change. *)
Theorem dinode_roundtrip (inum : Z) (d : dinode) (blk : block) :
  dinode_ok d → length blk = BSIZE →
  let blk' := put_dinode (dip inum) d blk in
  dinode_at blk' (dip inum) = d ∧ length blk' = BSIZE ∧
  ∀ j, j mod IPB ≠ inum mod IPB → dinode_at blk' (dip j) = dinode_at blk (dip j).
Proof.
  intros Hd Hl blk'. split_and!.
  - apply dinode_at_same; [done|]. rewrite Hl. apply dip_le.
  - unfold blk'. by rewrite length_put_dinode.
  - intros j Hne. apply dinode_at_other; [apply Hd|]. unfold dip, IPB, DINODE in *.
    pose proof (Z.mod_pos_bound inum 8). pose proof (Z.mod_pos_bound j 8). lia.
Qed.

Section files.
Context {S : Type} `{!BlockOps S} `{!BlockDev S} `{!DevSw (fstate S)}.
Context (st sz : nat) (o : Z) (sb : superblock) (ds : Z).
Hypothesis Hop : 1 ≤ o.
Abbreviation tx := (tx (S := S) st sz o).
Implicit Types (f : fstate S) (v : bview) (bl : list nat) (i : inode).

(** balloc.  When a block is free, balloc returns a free data block, now
    marked in use and filled with zeros; no other block changes its state, and
    only the bitmap and the new block change their contents.  When every block is
    in use it panics. *)
Theorem balloc_correct f v bl :
  tx f v bl → fs_sb f = sb → geom sb (length (bv_dsk v)) ds → log_at st sz sb → meta_used sb ds v → may_hold sb v → room sz 2 bl →
  ((∃ b, 0 ≤ b < sb_size sb ∧ used sb v b = false) →
   ∃ b f' v' bl', balloc ROOTDEV f = Ok b f' ∧ tx f' v' bl' ∧ (length bl' ≤ length bl + 2)%nat ∧
     ds ≤ b < sb_size sb ∧ used sb v b = false ∧ vblock v' (Z.to_nat b) = zeros ∧
     (∀ c, 0 ≤ c < sb_size sb → used sb v' c = if decide (b = c) then true else used sb v c) ∧
     (∀ c, c ≠ Z.to_nat b → c ≠ bmap_block sb b → vblock v' c = vblock v c)) ∧
  ((∀ b, 0 ≤ b < sb_size sb → used sb v b = true) → balloc ROOTDEV f = Panic "balloc: out of blocks").
Proof.
  intros T Hsb G Hlog Hm Hh Hr. pose proof (tx_len _ _ _ _ _ _ T) as Hlen. split.
  - intros Hfree.
    pose proof (balloc_wp st sz o Hop sb ds f v bl (λ b f', ds ≤ b < sb_size sb ∧ used sb v b = false ∧
      tx f' (fresh_view sb v b) (log_add (Z.to_nat b) (log_add (bmap_block sb b) bl))) T Hsb G Hlog Hm Hh Hr Hfree) as H.
    apply wp_ok in H as (b & f' & H & Hb & Hu & T'); [|by intros]. exists b, f'. do 2 eexists. split_and!; [exact H|exact T'| |lia|lia|done| | |].
    + pose proof (log_add_length (Z.to_nat b) (log_add (bmap_block sb b) bl)). pose proof (log_add_length (bmap_block sb b) bl). lia.
    + eapply fresh_zero; [exact G|lia|exact Hb].
    + intros c Hc. eapply fresh_used; [exact G|lia|exact (view_sizes _ _ _ _ _ _ T)|exact Hb|done].
    + intros c H1 H2. by apply fresh_same.
  - intros Hall. eapply (balloc_full st sz o sb ds); [done..| |done]. apply (room_le _ _ 2); [done|lia].
Qed.

(** C23: readi.  On a well-formed file, a read at [off] of [n] bytes returns the
    bytes of the file from [off], as many as there are up to [n], and their
    number; it returns -1 and reads nothing when [off] lies beyond the end or
    [off + n] overflows.  Neither the blocks nor the inodes change. *)
Theorem readi_reads_file f v bl ip i off n :
  fin st sz o sb ds f v bl ip i → i_type i ≠ T_DEV → 0 ≤ off < 2 ^ 32 → 0 ≤ n < 2 ^ 32 → (length bl ≤ 27)%nat →
  if decide (off ≤ d_size (i_disk i) ∧ off + n < 2 ^ 32) then
    let l := take (Z.to_nat n) (drop (Z.to_nat off) (content v (i_disk i))) in
    ∃ f', readi ip off n f = Ok (Z.of_nat (length l), l) f' ∧ logged f f' ∧ tx f' v bl
  else readi ip off n f = Ok (-1, []) f.
Proof. clear Hop.
  intros F Ht Hoff Hn Hbl. case_decide as Hc.
  - destruct Hc as [Hc1 Hc2]. set (l := take _ _).
    pose proof (readi_wp st sz o sb ds f v bl ip i off n (λ p f', p = (Z.of_nat (length l), l) ∧ logged f f' ∧ tx f' v bl)
      F Ht ltac:(lia) ltac:(lia) Hc2 Hc1 Hbl ltac:(by intros)) as H.
    apply wp_ok in H as (p & f' & H & -> & L & T). by exists f'.
  - unfold readi. assert (get_inode ip f = Ok i f) as Hi.
    { pose proof (get_inode_wp f ip i (λ a s, a = i ∧ s = f) (fi_ino _ _ _ _ _ _ _ _ _ _ F) (conj eq_refl eq_refl)) as H.
      by apply wp_ok in H as (? & ? & H & -> & ->). }
    rewrite (bind_run _ _ _ _ _ Hi). rewrite (proj2 (Z.eqb_neq _ _) Ht). unfold i_size.
    assert ((d_size (i_disk i) <? off) || (u32 (off + n) <? off) = true) as ->; [|done]. apply orb_true_iff.
    destruct (Z.ltb_spec (d_size (i_disk i)) off); [by left|right]. apply Z.ltb_lt. unfold u32.
    assert (2 ^ 32 ≤ off + n < 2 * 2 ^ 32) by lia.
    rewrite <- (Z.mod_unique_pos (off + n) (2 ^ 32) 1 (off + n - 2 ^ 32)); lia.
Qed.

(** C21: writei keeps files well-formed.  If an inode is a well-formed file (its
    addresses are distinct data blocks in use and cover its size) whose copy on
    disk is up to date, it is so again after writei, whatever blocks writei had to
    allocate; every other well-formed file that shared no block with it stays
    well-formed and still shares none, and the other inodes on disk are the same. *)
Theorem writei_well_formed f v bl ip i (off n k : nat) src :
  synced st sz o sb ds f v bl ip i → (n ≤ length src)%nat → Z.of_nat off ≤ d_size (i_disk i) → (off + n ≤ FBYTES)%nat →
  ((0 < n)%nat → (off + n ≤ (off / 512 + k) * 512)%nat) → room sz (6 * k + 1) bl → frees sb (2 * k) v →
  ∃ f' v' bl' d', writei ip src (Z.of_nat off) (Z.of_nat n) f = Ok (Z.of_nat n) f' ∧
    synced st sz o sb ds f' v' bl' ip (with_disk d' i) ∧ d_size d' = Z.max (d_size (i_disk i)) (Z.of_nat (off + n)) ∧
    (∀ j, 0 ≤ j < sb_ninodes sb → j ≠ i_inum i → disk_inode sb v' j = disk_inode sb v j) ∧
    (∀ d2, fwf sb ds v d2 → owned v d2 ## owned v (i_disk i) → fwf sb ds v' d2 ∧ owned v' d2 ## owned v' d').
Proof.
  intros Sy Hsrc Hoff Hmax Hk Hr Hf.
  pose proof (writei_wp st sz o sb ds Hop f v bl ip i off n k src
    (λ r f2, r = Z.of_nat n ∧ wrote_file st sz o sb ds f v bl ip i off n k src f2) Sy Hsrc Hoff Hmax Hk Hr Hf ltac:(done)) as Hw.
  apply wp_ok in Hw as (r & f2 & H2 & -> & v2 & bl2 & d2 & S2 & _ & C2 & [O1 O2] & _). exists f2, v2, bl2, d2. split_and!; [done|done| |done|].
  - pose proof (fw_size _ _ _ _ (fi_file _ _ _ _ _ _ _ _ _ _ (sy_fin _ _ _ _ _ _ _ _ _ _ S2))) as Hs. cbn [i_disk with_disk] in Hs.
    pose proof (fw_size _ _ _ _ (fi_file _ _ _ _ _ _ _ _ _ _ (sy_fin _ _ _ _ _ _ _ _ _ _ Sy))) as Hs0.
    apply (f_equal length) in C2. unfold splice, content in C2.
    rewrite !length_app, length_drop, !length_take, !length_fmap, !length_seq in C2. lia.
  - intros d3 W D. by destruct (O2 d3 W D) as (? & _ & ?).
Qed.

(** C22: what is written is read.  After writei of [n] bytes at [off], every read
    of the file returns the bytes of the old contents with those [n] bytes put in
    their place, at the end of the file past its old size. *)
Theorem write_read f v bl ip i (off n k : nat) src :
  synced st sz o sb ds f v bl ip i → (n ≤ length src)%nat → Z.of_nat off ≤ d_size (i_disk i) → (off + n ≤ FBYTES)%nat →
  ((0 < n)%nat → (off + n ≤ (off / 512 + k) * 512)%nat) → room sz (6 * k + 1) bl → frees sb (2 * k) v →
  let new := splice off (take n src) (content v (i_disk i)) in
  ∃ f', writei ip src (Z.of_nat off) (Z.of_nat n) f = Ok (Z.of_nat n) f' ∧
    ∀ off2 n2, (off2 ≤ length new)%nat → Z.of_nat off2 + Z.of_nat n2 < 2 ^ 32 →
      let l := take n2 (drop off2 new) in
      ∃ f'', readi ip (Z.of_nat off2) (Z.of_nat n2) f' = Ok (Z.of_nat (length l), l) f''.
Proof.
  intros Sy Hsrc Hoff Hmax Hk Hr Hf new.
  pose proof (writei_wp st sz o sb ds Hop f v bl ip i off n k src
    (λ r f2, r = Z.of_nat n ∧ wrote_file st sz o sb ds f v bl ip i off n k src f2) Sy Hsrc Hoff Hmax Hk Hr Hf ltac:(done)) as Hw.
  apply wp_ok in Hw as (r & f2 & H2 & -> & v2 & bl2 & d2 & [F2 _ _ Ht2 _] & _ & C2 & _ & _ & _ & Hlen). fold new in C2.
  exists f2. split; [done|]. intros off2 n2 Ho2 H32 l. destruct Hr as [_ Hr].
  assert (length (content v2 d2) = Z.to_nat (d_size d2)) as Hc by (unfold content; by rewrite length_fmap, length_seq).
  pose proof (fw_size _ _ _ _ (fi_file _ _ _ _ _ _ _ _ _ _ F2)) as Hs. simpl in Hs. rewrite C2 in Hc.
  pose proof (readi_wp st sz o sb ds f2 v2 bl2 ip (with_disk d2 i) (Z.of_nat off2) (Z.of_nat n2)
    (λ p f', p = (Z.of_nat (length l), l)) F2 Ht2 ltac:(lia) ltac:(lia) H32) as H.
  apply wp_ok in H as (p & f3 & H & ->); [by exists f3|simpl; lia|lia|]. intros f' _ _. simpl. rewrite !Nat2Z.id, C2. done.
Qed.
End files.
