(* ===== verification/Icache.v ===== *)
(** * The inode cache and reference counts (fs.c)

    [irep f R L]: the cache in [f] is consistent with [R], the list of all live
    pointers to inodes (each the index of a cache entry with the device and
    inode number it was obtained for), and [L], the entries whose sleep lock the
    process holds.  Every function of fs.c that hands out, copies or drops a
    pointer is specified by what it does to [R] and [L]; every other function
    keeps both. *)

From S2P Require Import Prelude CStr Monitor Sleeplock Bytes Blocks Log Fs.

Abbreviation ptr := (nat * (Z * Z))%type.
Definition ikey (i : inode) : Z * Z := (i_dev i, i_inum i).
(** How many pointers there are to entry [j]. *)
Definition nrefs (j : nat) (R : list ptr) : nat := length (filter (λ p : ptr, p.1 = j) R).

Lemma nrefs_cons j p R : nrefs j (p :: R) = ((if decide (p.1 = j) then 1 else 0) + nrefs j R)%nat.
Proof. unfold nrefs. rewrite filter_cons. by destruct (decide (p.1 = j)). Qed.
Lemma nrefs_pos j R : (0 < nrefs j R)%nat → ∃ k, (j, k) ∈ R.
Proof.
  induction R as [|[j' k] R IH]; [unfold nrefs; simpl; lia|]. rewrite nrefs_cons. simpl. intros H.
  destruct (decide (j' = j)) as [->|Hne]; [exists k; apply elem_of_cons; by left|].
  destruct IH as [k' Hk']; [lia|]. exists k'. apply elem_of_cons. by right.
Qed.
Lemma nrefs_elem j k R : (j, k) ∈ R → (0 < nrefs j R)%nat.
Proof.
  induction R as [|p R IH]; [by intros ?%elem_of_nil|]. rewrite nrefs_cons.
  intros [<-|H]%elem_of_cons; [rewrite decide_True by done; lia|]. specialize (IH H). lia.
Qed.
#[global] Instance nrefs_perm j : Proper (Permutation ==> eq) (nrefs j).
Proof. intros R R' HR. unfold nrefs. by rewrite HR. Qed.

(** What the process has besides: the number of operations in progress that the
    log counts, and the current directory. *)
Record ctx := mkCtx { c_tx : Z; c_cwd : nat }.

Section icache.
Context {S : Type} `{!BlockOps S} `{!DevSw (fstate S)}.
Context (o : ctx).
Abbreviation FM := (M (fstate S)).
Implicit Types (f : fstate S) (R : list ptr) (L : gset nat).

Record irep f R L : Prop := {
  ir_len : length (fs_inodes f) = NINODE;
  ir_free : fs_ilocked f = false;
  ir_tx : l_outstanding (fs_log f) = c_tx o;
  ir_cwd : fs_cwd f = c_cwd o;
  ir_ref j i : fs_inodes f !! j = Some i → i_ref i = Z.of_nat (nrefs j R);
  ir_key j k : (j, k) ∈ R → ∃ i, fs_inodes f !! j = Some i ∧ ikey i = k;
  ir_uniq j j' k : (j, k) ∈ R → (j', k) ∈ R → j = j';
  ir_held j i : fs_inodes f !! j = Some i → j ∈ L → sl_locked (i_lock i) = 1 ∧ sl_pid (i_lock i) = fs_pid f;
  ir_open j i : fs_inodes f !! j = Some i → j ∉ L → sl_locked (i_lock i) = 0 }.
#[global] Instance irep_proper : Proper (eq ==> Permutation ==> eq ==> iff) irep.
Proof.
  assert (∀ f R R' L, R ≡ₚ R' → irep f R L → irep f R' L) as H.
  { intros f R R' L HR []. constructor; try done.
    - intros j i Hi. rewrite <- HR. by apply ir_ref0.
    - intros j k Hk. rewrite <- HR in Hk. by apply ir_key0.
    - intros j j' k Hk Hk'. rewrite <- HR in Hk, Hk'. by eapply ir_uniq0. }
  intros f ? <- R R' HR L ? <-. split; by apply H.
Qed.

(** *** Computations that keep the pointers and the locks *)
Definition ikeeps {A} (m : FM A) : Prop := ∀ f R L, irep f R L → wlp m (λ _ f', irep f' R L) f.

Lemma ikeeps_pure {A} (m : FM A) : (∀ f a f', m f = Ok a f' → f' = f) → ikeeps m.
Proof. intros Hm f R L Hf. apply wlp_ok. intros a f' H. by rewrite (Hm _ _ _ H). Qed.
Lemma ikeeps_ret {A} (a : A) : ikeeps (mret a).
Proof. by intros f R L. Qed.
Lemma ikeeps_gets {A} (g : fstate S → A) : ikeeps (gets g).
Proof. by intros f R L. Qed.
Lemma ikeeps_get : ikeeps get.
Proof. by intros f R L. Qed.
Lemma ikeeps_panic {A} e : ikeeps (panic e : FM A).
Proof. by intros f R L. Qed.
Lemma ikeeps_undef {A} e : ikeeps (undef e : FM A).
Proof. by intros f R L. Qed.
Lemma ikeeps_spin {A} : ikeeps (spin : FM A).
Proof. by intros f R L. Qed.
Lemma ikeeps_array_get {A} w (l : list A) i : ikeeps (array_get w l i).
Proof. apply ikeeps_pure. by intros f a f' (_ & _ & ->)%array_get_inv. Qed.
Lemma ikeeps_get_inode ip : ikeeps (get_inode ip).
Proof. apply ikeeps_pure. unfold get_inode. intros f i f' H. by inv_bind. Qed.
Lemma ikeeps_bind {A B} (m : FM A) (k : A → FM B) : ikeeps m → (∀ a, ikeeps (k a)) → ikeeps (m ≫= k).
Proof.
  intros Hm Hk f R L Hf. apply wlp_bind. eapply wlp_mono; [|by apply Hm]. intros a f' Hf'. by apply Hk.
Qed.
Lemma ikeeps_when b (m : FM unit) : ikeeps m → ikeeps (when b m).
Proof. destruct b; [done|]. intros _. apply ikeeps_ret. Qed.
Lemma ikeeps_if {A} (b : bool) (m1 m2 : FM A) : ikeeps m1 → ikeeps m2 → ikeeps (if b then m1 else m2).
Proof. by destruct b. Qed.
Lemma ikeeps_for_each {I} (l : list I) (body : I → FM unit) : (∀ i, ikeeps (body i)) → ikeeps (for_each l body).
Proof.
  intros Hb. induction l as [|i l IH]; simpl; [apply ikeeps_ret|]. apply ikeeps_bind; [apply Hb|done].
Qed.
Lemma ikeeps_logm {A} (m : M (lst S) A) : frames l_outstanding m → ikeeps (logm m).
Proof.
  intros Hm f R L Hf. apply wlp_ok. intros a f' (t & Ht & ->)%zoom_ok. destruct Hf. constructor; try done. simpl.
  by rewrite (Hm _ _ _ Ht).
Qed.
Lemma frames_blk {A} (m : M S A) : frames l_outstanding (blk m).
Proof. by intros x a x' (t & _ & ->)%zoom_ok. Qed.
Lemma ikeeps_fblk {A} (m : M S A) : ikeeps (fblk m).
Proof. apply ikeeps_logm, frames_blk. Qed.
Lemma ikeeps_log_write b : ikeeps (logm (log_write b)).
Proof.
  apply ikeeps_logm. unfold log_write, acquire_log, release_log. solve_frames; apply frames_blk.
Qed.

(** An update of one entry that leaves its key, count and lock alone. *)
Lemma ikeeps_upd_inode g ip :
  (∀ i, ikey (g i) = ikey i ∧ i_ref (g i) = i_ref i ∧ i_lock (g i) = i_lock i) → ikeeps (upd_inode g ip).
Proof.
  intros Hg f R L Hf. unfold wlp, upd_inode, modify, with_inodes. simpl.
  assert (∀ j i', alter g ip (fs_inodes f) !! j = Some i' →
            ∃ i, fs_inodes f !! j = Some i ∧ ikey i' = ikey i ∧ i_ref i' = i_ref i ∧ i_lock i' = i_lock i) as H.
  { intros j i' Hi'. destruct (decide (ip = j)) as [->|Hne].
    - rewrite list_lookup_alter_eq in Hi'. apply fmap_Some in Hi' as (i & Hi & ->). exists i. by destruct (Hg i) as (? & ? & ?).
    - rewrite list_lookup_alter_ne in Hi' by done. by exists i'. }
  destruct Hf. constructor; simpl.
  - by rewrite length_alter.
  - done.
  - done.
  - done.
  - intros j i' (i & Hi & _ & -> & _)%H. by apply ir_ref0.
  - intros j k Hk. destruct (ir_key0 j k Hk) as (i & Hi & Hik).
    destruct (decide (ip = j)) as [->|Hne].
    + exists (g i). rewrite list_lookup_alter_eq, Hi. split; [done|]. destruct (Hg i) as [-> _]. done.
    + exists i. by rewrite list_lookup_alter_ne.
  - done.
  - intros j i' (i & Hi & _ & _ & ->)%H. by apply ir_held0.
  - intros j i' (i & Hi & _ & _ & ->)%H. by apply ir_open0.
Qed.
Lemma ikeeps_upd_disk g ip : ikeeps (upd_disk g ip).
Proof. by apply ikeeps_upd_inode. Qed.
Lemma ikeeps_with_valid v ip : ikeeps (upd_inode (with_valid v) ip).
Proof. by apply ikeeps_upd_inode. Qed.
Lemma ikeeps_with_disk d ip : ikeeps (upd_inode (with_disk d) ip).
Proof. by apply ikeeps_upd_inode. Qed.
End icache.

Create HintDb ikeeps.
#[export] Hint Resolve ikeeps_ret ikeeps_gets ikeeps_get ikeeps_panic ikeeps_undef ikeeps_spin ikeeps_array_get
  ikeeps_get_inode ikeeps_log_write ikeeps_fblk ikeeps_upd_disk ikeeps_with_valid ikeeps_with_disk : ikeeps.
(** Decompose a computation down to the parts known to keep the pointers. *)
Ltac solve_ikeeps :=
  repeat (first
    [ progress intros
    | solve [eauto with ikeeps]
    | apply ikeeps_bind | apply ikeeps_when | apply ikeeps_if | apply ikeeps_for_each
    | match goal with |- ikeeps _ (match ?x with _ => _ end) => destruct x end ]).

(** What the device functions must do: give back the locks and pointers they
    take. *)
Class DevSwOk (S : Type) `{!BlockOps S} `{!DevSw (fstate S)} : Prop := {
  dev_read_keeps o major rd ip n : dev_read major = Some rd → ikeeps (S := S) o (rd ip n);
  dev_write_keeps o major wr ip src n : dev_write major = Some wr → ikeeps (S := S) o (wr ip src n) }.

Section ops.
Context {S : Type} `{!BlockOps S} `{!DevSw (fstate S)} `{!DevSwOk S} (o : ctx).
Abbreviation irep := (irep (S := S) o).
Abbreviation ikeeps := (ikeeps (S := S) o).
Abbreviation FM := (M (fstate S)).
Implicit Types (f : fstate S) (R : list ptr) (L : gset nat).

Lemma ikeeps_bzero dev b : ikeeps (bzero dev b).
Proof. unfold bzero. solve_ikeeps. Qed.
Hint Resolve ikeeps_bzero : ikeeps.
Lemma ikeeps_balloc dev : ikeeps (balloc dev).
Proof.
  unfold balloc. apply ikeeps_bind; [auto with ikeeps|]. intros sb. generalize (seq 0 (Z.to_nat ((sb_size sb + BPB - 1) / BPB))).
  intros ks. induction ks as [|k ks IH]; simpl; [auto with ikeeps|]. solve_ikeeps.
Qed.
Hint Resolve ikeeps_balloc : ikeeps.
Lemma ikeeps_bfree dev b : ikeeps (bfree dev b).
Proof. unfold bfree. solve_ikeeps. Qed.
Hint Resolve ikeeps_bfree : ikeeps.
Lemma ikeeps_iupdate ip : ikeeps (iupdate ip).
Proof. unfold iupdate. solve_ikeeps. Qed.
Hint Resolve ikeeps_iupdate : ikeeps.
Lemma ikeeps_bmap ip bn : ikeeps (bmap ip bn).
Proof. unfold bmap, addr_or_alloc. solve_ikeeps. Qed.
Hint Resolve ikeeps_bmap : ikeeps.
Lemma ikeeps_itrunc ip : ikeeps (itrunc ip).
Proof. unfold itrunc, itrunc_direct. solve_ikeeps. Qed.
Hint Resolve ikeeps_itrunc : ikeeps.
Lemma ikeeps_stati ip : ikeeps (stati ip).
Proof. unfold stati. solve_ikeeps. Qed.
Lemma ikeeps_readi_loop fuel ip off n : ikeeps (readi_loop fuel ip off n).
Proof. revert off n. induction fuel as [|fuel IH]; intros off n; simpl; solve_ikeeps. Qed.
Lemma ikeeps_writei_loop fuel ip src off n : ikeeps (writei_loop fuel ip src off n).
Proof. revert src off n. induction fuel as [|fuel IH]; intros src off n; simpl; solve_ikeeps. Qed.
Hint Resolve ikeeps_readi_loop ikeeps_writei_loop : ikeeps.
Lemma ikeeps_readi ip off n : ikeeps (readi ip off n).
Proof.
  unfold readi. apply ikeeps_bind; [auto with ikeeps|]. intros i. apply ikeeps_if.
  - apply ikeeps_if; [auto with ikeeps|]. destruct (dev_read _) eqn:E; [by eapply dev_read_keeps|auto with ikeeps].
  - apply ikeeps_if; [auto with ikeeps|]. solve_ikeeps.
Qed.
Lemma ikeeps_writei ip src off n : ikeeps (writei ip src off n).
Proof.
  unfold writei. apply ikeeps_bind; [auto with ikeeps|]. intros i. apply ikeeps_if.
  - apply ikeeps_if; [auto with ikeeps|]. destruct (dev_write _) eqn:E; [by eapply dev_write_keeps|auto with ikeeps].
  - do 3 (apply ikeeps_if; [auto with ikeeps|]). solve_ikeeps.
Qed.
Hint Resolve ikeeps_readi ikeeps_writei ikeeps_stati : ikeeps.
Lemma ikeeps_read_dirent dp off msg : ikeeps (read_dirent dp off msg).
Proof. unfold read_dirent. solve_ikeeps. Qed.
Hint Resolve ikeeps_read_dirent : ikeeps.
Lemma ikeeps_namecmp s t : ikeeps (namecmp s t).
Proof. unfold namecmp. solve_ikeeps. Qed.
Hint Resolve ikeeps_namecmp : ikeeps.
Lemma ikeeps_find_free dp ks size : ikeeps (find_free dp ks size).
Proof. induction ks as [|k ks IH]; simpl; solve_ikeeps. Qed.
End ops.
#[export] Hint Resolve ikeeps_bzero ikeeps_balloc ikeeps_bfree ikeeps_iupdate ikeeps_bmap ikeeps_itrunc ikeeps_stati
  ikeeps_readi ikeeps_writei ikeeps_read_dirent ikeeps_namecmp ikeeps_find_free : ikeeps.

(** The next call of the goal, and the last one, by what is known of it. *)
Tactic Notation "wlast" uconstr(H) := eapply wlp_mono; [|eapply H; eassumption]; cbv beta.
Tactic Notation "wstep" uconstr(H) := apply wlp_bind; wlast H.

(** ** Functions that move pointers and locks *)
Section pointers.
Context {S : Type} `{!BlockOps S} `{!DevSw (fstate S)} `{!DevSwOk S} (o : ctx).
Abbreviation irep := (irep (S := S) o).
Abbreviation ikeeps := (ikeeps (S := S) o).
Abbreviation FM := (M (fstate S)).
Implicit Types (f : fstate S) (R : list ptr) (L : gset nat).

(** One entry changes, and with it the pointers to it and its lock. *)
Lemma irep_alter f R L R' L' g ip i :
  irep f R L → fs_inodes f !! ip = Some i →
  i_ref (g i) = Z.of_nat (nrefs ip R') → (∀ j, j ≠ ip → nrefs j R' = nrefs j R) →
  (∀ j k, (j, k) ∈ R' → j ≠ ip → (j, k) ∈ R) → (∀ k, (ip, k) ∈ R' → ikey (g i) = k) →
  (∀ j j' k, (j, k) ∈ R' → (j', k) ∈ R' → j = j') →
  (ip ∈ L' → sl_locked (i_lock (g i)) = 1 ∧ sl_pid (i_lock (g i)) = fs_pid f) →
  (ip ∉ L' → sl_locked (i_lock (g i)) = 0) → (∀ j, j ≠ ip → j ∈ L' ↔ j ∈ L) →
  irep (with_inodes (alter g ip) f) R' L'.
Proof.
  intros [] Hip Href Hn Hin Hk Hu Hh Ho HL. constructor; simpl.
  - by rewrite length_alter.
  - done.
  - done.
  - done.
  - intros j i'. destruct (decide (j = ip)) as [->|Hne].
    + rewrite list_lookup_alter_eq, Hip. by intros [= <-].
    + rewrite list_lookup_alter_ne by done. rewrite Hn by done. apply ir_ref0.
  - intros j k Hjk. destruct (decide (j = ip)) as [->|Hne].
    + exists (g i). rewrite list_lookup_alter_eq, Hip. split; [done|by apply Hk].
    + rewrite list_lookup_alter_ne by done. apply ir_key0. by apply Hin.
  - done.
  - intros j i'. destruct (decide (j = ip)) as [->|Hne].
    + rewrite list_lookup_alter_eq, Hip. by intros [= <-].
    + rewrite list_lookup_alter_ne, HL by done. apply ir_held0.
  - intros j i'. destruct (decide (j = ip)) as [->|Hne].
    + rewrite list_lookup_alter_eq, Hip. by intros [= <-].
    + rewrite list_lookup_alter_ne, HL by done. apply ir_open0.
Qed.
Lemma irep_inode f R L j k : irep f R L → (j, k) ∈ R → ∃ i, fs_inodes f !! j = Some i ∧ ikey i = k ∧ 1 ≤ i_ref i.
Proof.
  intros Hf Hk. destruct (ir_key _ _ _ _ Hf j k Hk) as (i & Hi & Hik). exists i. split_and!; [done..|].
  rewrite (ir_ref _ _ _ _ Hf j i Hi). pose proof (nrefs_elem _ _ _ Hk). lia.
Qed.
Lemma get_inode_run f ip i : fs_inodes f !! ip = Some i → get_inode ip f = Ok i f.
Proof.
  intros Hi. unfold get_inode. rewrite (bind_run _ _ f f f) by done. apply array_get_ok; [lia|]. by rewrite Nat2Z.id.
Qed.

(** A critical section of icache.lock that changes one entry. *)
Lemma icache_section {A} f g ip (a : A) :
  fs_ilocked f = false →
  (acquire_icache ;; upd_inode g ip ;; release_icache ;; mret a) f = Ok a (with_inodes (alter g ip) f).
Proof.
  intros Hl. unfold acquire_icache, release_icache, upd_inode, mbind, M_bind, get, modify. rewrite Hl. simpl.
  destruct f; simpl in *. by subst.
Qed.
Lemma icache_section_unit f g ip :
  fs_ilocked f = false →
  (acquire_icache ;; upd_inode g ip ;; release_icache) f = Ok tt (with_inodes (alter g ip) f).
Proof.
  intros Hl. unfold acquire_icache, release_icache, upd_inode, mbind, M_bind, get, modify. rewrite Hl. simpl.
  destruct f; simpl in *. by subst.
Qed.

(** A new pointer to entry [ip]. *)
Lemma irep_dup f R L ip k :
  irep f R L → (ip, k) ∈ R →
  irep (with_inodes (alter (λ i, with_ref (i_ref i + 1) i) ip) f) ((ip, k) :: R) L.
Proof.
  intros Hf Hk. destruct (ir_key _ _ _ _ Hf ip k Hk) as (i & Hi & Hik).
  apply (irep_alter f R L _ _ _ ip i Hf Hi); simpl.
  - rewrite nrefs_cons, decide_True by done. rewrite (ir_ref _ _ _ _ Hf ip i Hi). lia.
  - intros j Hj. by rewrite nrefs_cons, decide_False by done.
  - intros j k' [[= -> ->]|?]%elem_of_cons ?; done.
  - intros k' [[= ->]|Hk']%elem_of_cons; [done|]. destruct (ir_key _ _ _ _ Hf ip k' Hk') as (i' & Hi' & <-). by simplify_eq.
  - intros j j' k' [E|Hj]%elem_of_cons [E'|Hj']%elem_of_cons; simplify_eq; [done|..]; by eapply (ir_uniq _ _ _ _ Hf).
  - by apply (ir_held _ _ _ _ Hf ip i).
  - by apply (ir_open _ _ _ _ Hf ip i).
  - done.
Qed.
(** The first pointer to a free entry. *)
Lemma irep_new f R L ip i dev inum :
  irep f R L → fs_inodes f !! ip = Some i → i_ref i = 0 → (∀ j, (j, (dev, inum)) ∉ R) →
  irep (with_inodes (alter (λ i, mkInode dev inum 1 (i_lock i) 0 (i_disk i)) ip) f) ((ip, (dev, inum)) :: R) L.
Proof.
  intros Hf Hi Hr Hnew.
  assert (nrefs ip R = 0%nat) as Hn by (pose proof (ir_ref _ _ _ _ Hf ip i Hi); lia).
  assert (∀ k, (ip, k) ∉ R) as Hno by (intros k Hk; pose proof (nrefs_elem _ _ _ Hk); lia).
  apply (irep_alter f R L _ _ _ ip i Hf Hi); simpl.
  - rewrite nrefs_cons, decide_True by done. lia.
  - intros j Hj. by rewrite nrefs_cons, decide_False by done.
  - intros j k' [[= -> ->]|?]%elem_of_cons ?; done.
  - intros k' [[= ->]|Hk']%elem_of_cons; [done|]. by destruct (Hno k').
  - intros j j' k' [E|Hj]%elem_of_cons [E'|Hj']%elem_of_cons; simplify_eq; [done|by destruct (Hnew j')|by destruct (Hnew j)|].
    by eapply (ir_uniq _ _ _ _ Hf).
  - by apply (ir_held _ _ _ _ Hf ip i).
  - by apply (ir_open _ _ _ _ Hf ip i).
  - done.
Qed.
(** A pointer is dropped. *)
Lemma irep_drop f R L ip k :
  irep f ((ip, k) :: R) L → irep (with_inodes (alter (λ i, with_ref (i_ref i - 1) i) ip) f) R L.
Proof.
  intros Hf. assert ((ip, k) ∈ (ip, k) :: R) as Hk by (apply elem_of_cons; by left).
  destruct (ir_key _ _ _ _ Hf ip k Hk) as (i & Hi & Hik).
  apply (irep_alter f ((ip, k) :: R) L _ _ _ ip i Hf Hi); simpl.
  - rewrite (ir_ref _ _ _ _ Hf ip i Hi), nrefs_cons, decide_True by done. lia.
  - intros j Hj. by rewrite nrefs_cons, decide_False by done.
  - intros j k' Hj _. apply elem_of_cons. by right.
  - intros k' Hk'. destruct (ir_key _ _ _ _ Hf ip k') as (i' & Hi' & <-); [apply elem_of_cons; by right|]. by simplify_eq.
  - intros j j' k' Hj Hj'. apply (ir_uniq _ _ _ _ Hf j j' k'); apply elem_of_cons; by right.
  - by apply (ir_held _ _ _ _ Hf ip i).
  - by apply (ir_open _ _ _ _ Hf ip i).
  - done.
Qed.
Lemma irep_lock f R L L' lk ip i :
  irep f R L → fs_inodes f !! ip = Some i →
  (ip ∈ L' → sl_locked lk = 1 ∧ sl_pid lk = fs_pid f) → (ip ∉ L' → sl_locked lk = 0) →
  (∀ j, j ≠ ip → j ∈ L' ↔ j ∈ L) →
  irep (with_inodes (alter (with_ilock lk) ip) f) R L'.
Proof.
  intros Hf Hi Hh Ho HL. apply (irep_alter f R L _ _ _ ip i Hf Hi); simpl; try done.
  - apply (ir_ref _ _ _ _ Hf ip i Hi).
  - intros k Hk. destruct (ir_key _ _ _ _ Hf ip k Hk) as (i' & Hi' & <-). by simplify_eq.
  - apply (ir_uniq _ _ _ _ Hf).
Qed.

(** iget: a pointer to the entry for the inode, which is the cached one if there
    is one; it fails only when all entries are in use for other inodes. *)
Lemma iget_spec f R L dev inum :
  irep f R L →
  match iget dev inum f with
  | Ok ip f' => irep f' ((ip, (dev, inum)) :: R) L ∧ fs_log f' = fs_log f
  | Panic e => e = "iget: no inodes" ∧ (∀ j, (j, (dev, inum)) ∉ R) ∧ ∀ j, (j < NINODE)%nat → ∃ k, (j, k) ∈ R
  | _ => False
  end.
Proof.
  intros Hf. unfold iget.
  rewrite (bind_run _ _ tt f (with_ilocked true f))
    by (unfold acquire_icache, get, mbind, M_bind; by rewrite (ir_free _ _ _ _ Hf)).
  rewrite (bind_run _ _ (with_ilocked true f) (with_ilocked true f) (with_ilocked true f)) by done. simpl.
  assert (∀ {A} g ip (a : A), (upd_inode g ip ;; release_icache ;; mret a) (with_ilocked true f) =
                               Ok a (with_inodes (alter g ip) f)) as Hsec.
  { intros A g ip a. rewrite <- (icache_section f g ip a) by apply Hf.
    unfold acquire_icache, mbind, M_bind, get. by rewrite (ir_free _ _ _ _ Hf). }
  destruct (find_index _ (fs_inodes f)) as [ip|] eqn:E.
  - apply find_index_Some in E as (i & Hi & Hb & _). rewrite !andb_true_iff, Z.ltb_lt, !Z.eqb_eq in Hb.
    destruct Hb as [[Hr <-] <-]. rewrite Hsec. split; [|done]. apply irep_dup; [done|].
    rewrite (ir_ref _ _ _ _ Hf ip i Hi) in Hr. destruct (nrefs_pos ip R) as [k Hk]; [lia|].
    destruct (ir_key _ _ _ _ Hf ip k Hk) as (i' & Hi' & <-). by simplify_eq.
  - assert (∀ j, (j, (dev, inum)) ∉ R) as Hnew.
    { intros j Hj. destruct (irep_inode _ _ _ _ _ Hf Hj) as (i & Hi & [= <- <-] & Hr).
      rewrite find_index_None in E. specialize (E j i Hi). rewrite !Z.eqb_refl, !andb_true_r, Z.ltb_ge in E. lia. }
    destruct (find_index (λ i, i_ref i =? 0) (fs_inodes f)) as [ip|] eqn:E2.
    + apply find_index_Some in E2 as (i & Hi & Hr & _). apply Z.eqb_eq in Hr. rewrite Hsec. split; [|done].
      by apply (irep_new f R L ip i).
    + simpl. split_and!; [done..|]. intros j Hj. apply nrefs_pos.
      rewrite <- (ir_len _ _ _ _ Hf) in Hj. apply lookup_lt_is_Some_2 in Hj as [i Hi].
      rewrite find_index_None in E2. specialize (E2 j i Hi). rewrite Z.eqb_neq, (ir_ref _ _ _ _ Hf j i Hi) in E2. lia.
Qed.
Lemma iget_rep f R L dev inum :
  irep f R L → wlp (iget dev inum) (λ ip f', irep f' ((ip, (dev, inum)) :: R) L) f.
Proof. intros Hf. pose proof (iget_spec f R L dev inum Hf) as H. unfold wlp. destruct (iget dev inum f); naive_solver. Qed.
Lemma idup_rep f R L ip k :
  irep f R L → (ip, k) ∈ R → wp (idup ip) (λ ip' f', ip' = ip ∧ irep f' ((ip, k) :: R) L) f.
Proof.
  intros Hf Hk. unfold wp, idup. rewrite icache_section by apply Hf. split; [done|]. by apply irep_dup.
Qed.
End pointers.

(** ** Locks, release, directories and paths *)
Section walk.
Context {S : Type} `{!BlockOps S} `{!DevSw (fstate S)} `{!DevSwOk S} (o : ctx).
Abbreviation irep := (irep (S := S) o).
Abbreviation ikeeps := (ikeeps (S := S) o).
Abbreviation FM := (M (fstate S)).
Implicit Types (f : fstate S) (R : list ptr) (L : gset nat).

(** The three sleep-lock functions on an inode's lock. *)
Lemma ilock_op_acquire f R L ip :
  irep f R L → wlp (ilock_op acquiresleep ip) (λ _ f', (ip ∉ L) ∧ irep f' R ({[ip]} ∪ L)) f.
Proof.
  intros Hf. apply wlp_ok. intros r f' H. unfold ilock_op, get_inode in H. inv_bind. rewrite Nat2Z.id in H1.
  rename a into i. unfold alone, acquiresleep, read_state, update, mbind, M_bind, gets, modify in H. simpl in H.
  destruct (Z.eqb_spec (sl_locked (i_lock i)) 0) as [E|E]; simpl in H; [|discriminate H]. injection H as <- <-.
  assert (ip ∉ L) as Hl by (intros Hl; destruct (ir_held _ _ _ _ Hf ip i H1 Hl); congruence).
  split; [done|]. eapply irep_lock; [done..| | |]; simpl; [done|set_solver|set_solver].
Qed.
Lemma ilock_op_release f R L ip :
  irep f R L → wlp (ilock_op (λ _, releasesleep) ip) (λ _ f', irep f' R (L ∖ {[ip]})) f.
Proof.
  intros Hf. apply wlp_ok. intros r f' H. unfold ilock_op, get_inode in H. inv_bind. rewrite Nat2Z.id in H1.
  unfold alone, releasesleep, wakeup, update, mbind, M_bind, modify in H. simpl in H. injection H as <- <-.
  eapply irep_lock; [done..| | |]; simpl; [set_solver|done|set_solver].
Qed.
Lemma ilock_op_holding f R L ip :
  irep f R L → wlp (ilock_op holdingsleep ip) (λ h f', irep f' R L ∧ (h = true → ip ∈ L)) f.
Proof.
  intros Hf. apply wlp_ok. intros r f' H. unfold ilock_op, get_inode in H. inv_bind. rewrite Nat2Z.id in H1.
  unfold alone, holdingsleep, read_state, mbind, M_bind, gets in H. simpl in H. injection H as <- <-.
  rename a into i. split.
  - assert (with_ilock (i_lock i) i = i) as Ei by (by destruct i).
    match goal with |- irep (with_inodes ?g ?s) _ _ => replace (with_inodes g s) with s; [done|]; unfold with_inodes end.
    rewrite (alter_lookup_insert _ _ _ _ H1), Ei, list_insert_id by done. by match goal with |- ?s = _ => destruct s end.
  - rewrite andb_true_iff, negb_true_iff, Z.eqb_neq. intros [Hl _]. destruct (decide (ip ∈ L)) as [|Ho]; [done|].
    destruct Hl. by apply (ir_open _ _ _ _ Hf ip i).
Qed.

Lemma ilock_rep f R L ip :
  irep f R L → wlp (ilock ip) (λ _ f', (ip ∉ L) ∧ irep f' R ({[ip]} ∪ L)) f.
Proof.
  intros Hf. unfold ilock. wstep ikeeps_get_inode. intros i f1 Hf1.
  destruct (i_ref i <? 1); [done|]. wstep ilock_op_acquire.
  intros _ f2 [Hl Hf2]. eapply wlp_mono; [intros a f'; exact (conj Hl)|].
  revert f2 Hf2. generalize ({[ip]} ∪ L). intros L' f2 Hf2.
  match goal with |- wlp ?m _ _ => enough (ikeeps m) as Hk by (by apply Hk) end. solve_ikeeps.
Qed.
Lemma iunlock_rep f R L ip :
  irep f R L → wlp (iunlock ip) (λ _ f', ip ∈ L ∧ irep f' R (L ∖ {[ip]})) f.
Proof.
  intros Hf. unfold iunlock. wstep ilock_op_holding. intros h f1 [Hf1 Hh].
  wstep ikeeps_get_inode. intros i f2 Hf2.
  destruct h; [|done]. destruct (i_ref i <? 1); [done|]. simpl. apply wlp_bind.
  wlast ilock_op_release. intros _ f3 Hf3. split; [by apply Hh|done].
Qed.
Lemma iput_rep f R L ip k :
  irep f ((ip, k) :: R) L → wlp (iput ip) (λ _ f', irep f' R L ∧ ip ∉ L) f.
Proof.
  intros Hf. unfold iput. wstep ilock_op_acquire. intros _ f1 [Hl Hf1].
  wstep ikeeps_get_inode. intros i f2 Hf2.
  apply wlp_bind. eapply wlp_mono with (Q := λ _ f', irep f' ((ip, k) :: R) ({[ip]} ∪ L)).
  2: { destruct (_ && _); [|done]. simpl.
    assert (∀ A (m : inode → FM A), (∀ i, ikeeps (m i)) →
       wlp (acquire_icache ;; i ← get_inode ip; release_icache ;; m i) (λ _ f', irep f' ((ip, k) :: R) ({[ip]} ∪ L)) f2) as Hsec.
    { intros A m Hm. unfold acquire_icache, release_icache, wlp, mbind, M_bind, get.
      rewrite (ir_free _ _ _ _ Hf2). simpl. destruct (get_inode ip (with_ilocked true f2)) as [j f3| | |] eqn:E; try done.
      assert (f3 = with_ilocked true f2) as -> by (unfold get_inode in E; by inv_bind). simpl.
      replace (with_ilocked false (with_ilocked true f2)) with f2; [by apply Hm|].
      pose proof (ir_free _ _ _ _ Hf2) as Hfr. destruct f2; simpl in *. by subst. }
    apply Hsec. intros j. solve_ikeeps. }
  intros _ f3 Hf3. wstep ilock_op_release. intros _ f4 Hf4.
  unfold wlp. rewrite icache_section_unit by apply Hf4. split; [|done].
  replace (({[ip]} ∪ L) ∖ {[ip]}) with L in Hf4 by set_solver. by eapply irep_drop.
Qed.
Lemma iunlockput_rep f R L ip k :
  irep f ((ip, k) :: R) L → wlp (iunlockput ip) (λ _ f', ip ∈ L ∧ irep f' R (L ∖ {[ip]})) f.
Proof.
  intros Hf. unfold iunlockput. wstep iunlock_rep. intros _ f1 [Hl Hf1].
  wlast iput_rep. intros _ f2 [Hf2 _]. by split.
Qed.

Lemma dirlookup_rep f R L dp name :
  irep f R L →
  wlp (dirlookup dp name) (λ r f', match r with None => irep f' R L | Some (ip, _) => ∃ k, irep f' ((ip, k) :: R) L end) f.
Proof.
  intros Hf. unfold dirlookup. wstep ikeeps_get_inode. intros i f1 Hf1.
  destruct (negb _); [done|]. generalize (entries (i_size i)). intros ks. clear Hf i f. revert f1 Hf1.
  induction ks as [|k ks IH]; intros f Hf; simpl; [done|].
  wstep ikeeps_read_dirent. intros de f1 Hf1.
  destruct (de_inum de =? 0); [by apply IH|]. wstep ikeeps_namecmp. intros c f2 Hf2.
  destruct (c =? 0); [|by apply IH]. wstep ikeeps_get_inode. intros i f3 Hf3.
  wstep iget_rep. intros ip f4 Hf4. by exists (i_dev i, de_inum de).
Qed.
Lemma ikeeps_dirlink dp name inum : ikeeps (dirlink dp name inum).
Proof.
  intros f R L Hf. unfold dirlink. wstep dirlookup_rep.
  intros [[ip off]|] f1; [intros [k Hf1]|intros Hf1].
  - wstep iput_rep. by intros _ f2 [Hf2 _].
  - match goal with |- wlp ?m _ _ => enough (ikeeps m) as Hk by (by apply Hk) end. solve_ikeeps.
Qed.
Lemma ialloc_rep f R L dev type :
  irep f R L → wlp (ialloc dev type) (λ ip f', ∃ k, irep f' ((ip, k) :: R) L) f.
Proof.
  intros Hf. unfold ialloc. apply wlp_bind. unfold wlp at 1. simpl. generalize (seq 1 (Z.to_nat (sb_ninodes (fs_sb f)) - 1)).
  intros ks. revert f Hf. induction ks as [|n ks IH]; intros f Hf; simpl; [done|].
  apply wlp_bind. unfold wlp at 1. simpl. wstep ikeeps_fblk. intros bp f1 Hf1.
  wstep ikeeps_fblk. intros d f2 Hf2. destruct (_ =? 0).
  - wstep ikeeps_fblk. intros _ f3 Hf3.
    wstep ikeeps_log_write. intros _ f4 Hf4.
    wstep ikeeps_fblk. intros _ f5 Hf5.
    wlast iget_rep. intros ip f6 Hf6. by eexists.
  - wstep ikeeps_fblk. intros _ f3 Hf3. by apply IH.
Qed.

Lemma namex_loop_rep fuel f R ip k path name np L :
  irep f ((ip, k) :: R) L →
  wlp (namex_loop fuel ip path name np)
    (λ r f', match r with None => irep f' R L | Some (ip', _) => ∃ k', irep f' ((ip', k') :: R) L end) f.
Proof.
  revert f ip k path name. induction fuel as [|fuel IH]; intros f ip k path name Hf; simpl; [done|].
  destruct (skipelem path name) as [[path' name']|].
  - wstep ilock_rep. intros _ f1 [Hl Hf1].
    wstep ikeeps_get_inode. intros i f2 Hf2.
    assert (({[ip]} ∪ L) ∖ {[ip]} = L) as HL by set_solver. destruct (negb _).
    { wstep iunlockput_rep. intros _ f3 [_ Hf3]. by rewrite HL in Hf3. }
    destruct (np && _).
    { wstep iunlock_rep. intros _ f3 [_ Hf3]. rewrite HL in Hf3. by exists k. }
    wstep dirlookup_rep. intros [[nx off]|] f3.
    + intros [k' Hf3]. apply wlp_bind. rewrite Permutation_swap in Hf3.
      wlast iunlockput_rep. intros _ f4 [_ Hf4]. rewrite HL in Hf4. by eapply IH.
    + intros Hf3. wstep iunlockput_rep. intros _ f4 [_ Hf4]. by rewrite HL in Hf4.
  - destruct np; [|by exists k]. wstep iput_rep. by intros _ f1 [Hf1 _].
Qed.
Lemma namex_rep f R L path np name k :
  irep f R L → (c_cwd o, k) ∈ R →
  wlp (namex path np name)
    (λ r f', match r with None => irep f' R L | Some (ip', _) => ∃ k', irep f' ((ip', k') :: R) L end) f.
Proof.
  intros Hf Hcwd. unfold namex. apply wlp_bind.
  eapply wlp_mono with (Q := λ ip f', ∃ k', irep f' ((ip, k') :: R) L).
  - intros ip f1 [k' Hf1]. by eapply namex_loop_rep.
  - destruct (bool_decide _).
    + wlast iget_rep. intros ip f1 Hf1. by eexists.
    + apply wlp_bind. unfold wlp at 1. simpl. apply wp_wlp.
      eapply wp_mono; [|eapply idup_rep; [done|by rewrite (ir_cwd _ _ _ _ Hf)]].
      intros ip f1 [-> Hf1]. by eexists.
Qed.
End walk.

(** ** Transactions *)
Section tx.
Context {S : Type} `{!BlockOps S} `{!DevSw (fstate S)}.
Implicit Types (f : fstate S) (R : list ptr) (L : gset nat).
Definition tx_add (n : Z) (o : ctx) : ctx := mkCtx (c_tx o + n) (c_cwd o).

Lemma irep_logm {A} (m : M (lst S) A) f R L o n :
  (∀ x a x', m x = Ok a x' → l_outstanding x' = l_outstanding x + n) →
  irep o f R L → wlp (logm m) (λ _ f', irep (tx_add n o) f' R L) f.
Proof.
  intros Hm Hf. apply wlp_ok. intros a f' (t & Ht & ->)%zoom_ok. destruct Hf. constructor; try done. simpl.
  rewrite (Hm _ _ _ Ht). simpl. congruence.
Qed.
Lemma begin_op_rep f R L o : irep o f R L → wlp (logm begin_op) (λ _ f', irep (tx_add 1 o) f' R L) f.
Proof.
  apply irep_logm. intros x [] x' H.
  unfold begin_op, acquire_log, release_log, mbind, M_bind, get, modify, panic, spin in H.
  repeat case_match; simplify_eq/=; done.
Qed.
Lemma frames_commit : frames (S := lst S) l_outstanding commit.
Proof.
  assert (∀ A (m : M S A), frames l_outstanding (blk m)) as Hb by (intros; apply frames_blk).
  assert (frames (S := lst S) l_outstanding write_head) by (unfold write_head; solve_frames).
  unfold commit, write_log, write_log_one, install_trans, install_one. solve_frames.
Qed.
Lemma end_op_rep f R L o : irep o f R L → wlp (logm end_op) (λ _ f', irep (tx_add (-1) o) f' R L) f.
Proof.
  apply irep_logm. intros x [] x' H.
  unfold end_op, acquire_log, release_log, when, mbind, M_bind, get, modify, panic in H.
  destruct (l_locked x); [discriminate H|]. simpl in H. destruct (negb _); [discriminate H|].
  destruct (l_outstanding x - 1 =? 0); simpl in H; [|by injection H as <-].
  destruct (commit _) as [[] y| | |] eqn:E; try discriminate H. apply frames_commit in E. simpl in E.
  destruct (l_locked y); [discriminate H|]. simplify_eq/=. lia.
Qed.
End tx.
