(* ===== verification/File.v ===== *)
(** * Open files (file.c) and the allocation of pipes (pipe.c)

    The file table over the file system, for one process: its descriptors
    [k_ofile], its memory [k_user], the pipes by the page they live in and the
    free pages.  An operation that would have to sleep is [Spin]. *)

From S2P Require Import Prelude CStr Monitor Pipe Sleeplock Bytes Blocks Log Fs.

Definition NFILE : nat := 100.
Definition NOFILE : nat := 16.

Inductive fdtype := FD_NONE | FD_PIPE | FD_INODE.
#[global] Instance fdtype_eq_dec : EqDecision fdtype.
Proof. solve_decision. Defined.
(** [struct file] *)
Record file := mkFile {
  f_type : fdtype;
  f_ref : Z;
  f_readable : Z;
  f_writable : Z;
  f_pipe : nat;
  f_ip : nat;
  f_off : Z }.
Definition f_with_ref (r : Z) (f : file) : file :=
  mkFile (f_type f) r (f_readable f) (f_writable f) (f_pipe f) (f_ip f) (f_off f).
Definition f_with_type (t : fdtype) (f : file) : file :=
  mkFile t (f_ref f) (f_readable f) (f_writable f) (f_pipe f) (f_ip f) (f_off f).
Definition f_with_off (o : Z) (f : file) : file :=
  mkFile (f_type f) (f_ref f) (f_readable f) (f_writable f) (f_pipe f) (f_ip f) o.
Definition f_as_pipe (r w : Z) (p : nat) (f : file) : file := mkFile FD_PIPE (f_ref f) r w p (f_ip f) (f_off f).

(** The part of the process that system calls use: its size, the user stack
    pointer and its memory. *)
Record user := mkUser { u_sz : Z; u_esp : Z; u_mem : list Z }.

Record kst (S : Type) := mkK {
  k_fs : fstate S;
  k_files : list file;
  k_flocked : bool;
  k_ofile : list (option nat);
  k_pipes : gmap nat pipe;
  k_free : list nat;
  k_killed : bool;
  k_user : user }.
Arguments mkK {S} _ _ _ _ _ _ _ _.
Arguments k_fs {S} _. Arguments k_files {S} _. Arguments k_flocked {S} _. Arguments k_ofile {S} _.
Arguments k_pipes {S} _. Arguments k_free {S} _. Arguments k_killed {S} _. Arguments k_user {S} _.

Section code.
Context {S : Type} `{!BlockOps S} `{!DevSw (fstate S)}.
Abbreviation KM := (M (kst S)).
Implicit Types k : kst S.

Definition with_fs (f : fstate S) k : kst S :=
  mkK f (k_files k) (k_flocked k) (k_ofile k) (k_pipes k) (k_free k) (k_killed k) (k_user k).
Definition fs_lens : lens (kst S) (fstate S) := Lens k_fs with_fs.
Definition fsm {A} (m : M (fstate S) A) : KM A := zoom fs_lens m.
Definition with_files (g : list file → list file) k : kst S :=
  mkK (k_fs k) (g (k_files k)) (k_flocked k) (k_ofile k) (k_pipes k) (k_free k) (k_killed k) (k_user k).
Definition with_flocked (b : bool) k : kst S :=
  mkK (k_fs k) (k_files k) b (k_ofile k) (k_pipes k) (k_free k) (k_killed k) (k_user k).
Definition with_ofile (g : list (option nat) → list (option nat)) k : kst S :=
  mkK (k_fs k) (k_files k) (k_flocked k) (g (k_ofile k)) (k_pipes k) (k_free k) (k_killed k) (k_user k).
Definition with_pipes (g : gmap nat pipe → gmap nat pipe) (h : list nat → list nat) k : kst S :=
  mkK (k_fs k) (k_files k) (k_flocked k) (k_ofile k) (g (k_pipes k)) (h (k_free k)) (k_killed k) (k_user k).
Definition with_user (u : user) k : kst S :=
  mkK (k_fs k) (k_files k) (k_flocked k) (k_ofile k) (k_pipes k) (k_free k) (k_killed k) u.

Definition acquire_ftable : KM unit :=
  k ← get; if k_flocked k then panic "acquire" else modify (with_flocked true).
Definition release_ftable : KM unit :=
  k ← get; if k_flocked k then modify (with_flocked false) else panic "release".
Definition get_file (fp : nat) : KM file := k ← get; array_get "ftable.file" (k_files k) (Z.of_nat fp).
Definition upd_file (g : file → file) (fp : nat) : KM unit := modify (with_files (alter g fp)).

Definition fileinit : KM unit := modify (with_flocked false).
Definition filealloc : KM (option nat) :=
  acquire_ftable ;;
  k ← get;
  match find_index (λ f, f_ref f =? 0) (k_files k) with
  | Some fp => upd_file (f_with_ref 1) fp ;; release_ftable ;; mret (Some fp)
  | None => release_ftable ;; mret None
  end.
Definition filedup (fp : nat) : KM nat :=
  acquire_ftable ;;
  f ← get_file fp;
  if f_ref f <? 1 then panic "filedup" else
  upd_file (f_with_ref (f_ref f + 1)) fp ;;
  release_ftable ;;
  mret fp.

(** *** Pipes *)
(** A function of pipe.c on the pipe in page [p], run without waiting; a page
    that pipeclose has freed goes back to the free list. *)
Definition pipe_op (seg : pseg) (p : nat) : KM presult :=
  k ← get;
  match k_pipes k !! p with
  | None => undef "pipe"
  | Some pi =>
      match alone seg pi with
      | Ok r pi' =>
          (if freed pi' then modify (with_pipes (delete p) (cons p)) else modify (with_pipes <[p := pi']> id)) ;;
          mret r
      | Panic e => panic e
      | Undef e => undef e
      | Spin => spin
      end
  end.
(** kalloc and kfree as operations on the list of free pages. *)
Definition kalloc_page : KM (option nat) :=
  k ← get;
  match k_free k with [] => mret None | p :: r => modify (with_pipes id (λ _, r)) ;; mret (Some p) end.

Definition fileclose (fp : nat) : KM unit :=
  acquire_ftable ;;
  f ← get_file fp;
  if f_ref f <? 1 then panic "fileclose" else
  upd_file (f_with_ref (f_ref f - 1)) fp ;;
  if 0 <? f_ref f - 1 then release_ftable else
  ff ← get_file fp;
  upd_file (λ f, f_with_type FD_NONE (f_with_ref 0 f)) fp ;;
  release_ftable ;;
  match f_type ff with
  | FD_PIPE => pipe_op (pipeclose (negb (f_writable ff =? 0))) (f_pipe ff) ;; mret tt
  | FD_INODE => fsm (logm begin_op) ;; fsm (iput (f_ip ff)) ;; fsm (logm end_op)
  | FD_NONE => mret tt
  end.

Definition pipealloc_bad (f0 f1 : option nat) : KM (option (nat * nat)) :=
  match f0 with Some a => fileclose a | None => mret tt end ;;
  match f1 with Some b => fileclose b | None => mret tt end ;;
  mret None.
(** The fresh page still holds the bytes kfree filled it with. *)
Definition pipealloc : KM (option (nat * nat)) :=
  f0 ← filealloc;
  match f0 with
  | None => pipealloc_bad None None
  | Some a =>
      f1 ← filealloc;
      match f1 with
      | None => pipealloc_bad (Some a) None
      | Some b =>
          p ← kalloc_page;
          match p with
          | None => pipealloc_bad (Some a) (Some b)
          | Some p =>
              modify (with_pipes <[p := pipe_init (replicate 512 1)]> id) ;;
              upd_file (f_as_pipe 1 0 p) a ;;
              upd_file (f_as_pipe 0 1 p) b ;;
              mret (Some (a, b))
          end
      end
  end.

(** *** Reading and writing *)
Definition filestat (fp : nat) : KM (option stat_t) :=
  f ← get_file fp;
  if decide (f_type f = FD_INODE) then
    fsm (ilock (f_ip f)) ;;
    st ← fsm (stati (f_ip f));
    fsm (iunlock (f_ip f)) ;;
    mret (Some st)
  else mret None.
(** fileread: its result and the bytes put at [addr]. *)
Definition fileread (fp : nat) (n : Z) : KM (Z * list Z) :=
  f ← get_file fp;
  if f_readable f =? 0 then mret (-1, []) else
  match f_type f with
  | FD_PIPE => k ← get; pipe_op (piperead (k_killed k) n) (f_pipe f)
  | FD_INODE =>
      fsm (ilock (f_ip f)) ;;
      '(r, l) ← fsm (readi (f_ip f) (f_off f) (u32 n));
      when (0 <? r) (upd_file (f_with_off (u32 (f_off f + r))) fp) ;;
      fsm (iunlock (f_ip f)) ;;
      mret (r, l)
  | FD_NONE => panic "fileread"
  end.
Definition WRITE_MAX : Z := (MAXOPBLOCKS - 1 - 1 - 2) / 2 * 512.
Fixpoint filewrite_loop (fuel : nat) (fp : nat) (addr : list Z) (n i : Z) : KM Z :=
  match fuel with
  | O => spin
  | Datatypes.S fuel' =>
      if negb (i <? n) then mret i else
      let n1 := if WRITE_MAX <? n - i then WRITE_MAX else n - i in
      f ← get_file fp;
      fsm (logm begin_op) ;;
      fsm (ilock (f_ip f)) ;;
      r ← fsm (writei (f_ip f) (drop (Z.to_nat i) addr) (f_off f) n1);
      when (0 <? r) (upd_file (f_with_off (u32 (f_off f + r))) fp) ;;
      fsm (iunlock (f_ip f)) ;;
      fsm (logm end_op) ;;
      if r <? 0 then mret i else
      if negb (r =? n1) then panic "short filewrite" else
      filewrite_loop fuel' fp addr n (i + r)
  end.
Definition filewrite (fp : nat) (addr : list Z) (n : Z) : KM Z :=
  f ← get_file fp;
  if f_writable f =? 0 then mret (-1) else
  match f_type f with
  | FD_PIPE => k ← get; r ← pipe_op (pipewrite (k_killed k) addr n 0) (f_pipe f); mret (fst r)
  | FD_INODE =>
      i ← filewrite_loop (Datatypes.S (Z.to_nat n)) fp addr n 0;
      mret (if i =? n then n else -1)
  | FD_NONE => panic "filewrite"
  end.
End code.
