(* ===== verification/Ftable.v ===== *)
(** * The file table and its invariant (file.c)

    [krep o k P R L]: the reference count of every file of the table is the number
    of pointers to it, from the descriptors of the process and from [P] (other
    processes and local variables); an unused file has type FD_NONE; and the
    inode cache counts the inode files of the table beside the pointers of [R].
    The pipes are those that files of the table refer to: each open end of a pipe
    is one file, and pages on the free list hold no pipe. *)

From S2P Require Import Prelude CStr Monitor Pipe Sleeplock Bytes Blocks Log Fs Icache File.

Definition nfrefs (j : nat) (P : list nat) : nat := length (filter (λ p, p = j) P).
Definition inode_files (l : list file) : list nat := f_ip <$> filter (λ f, f_type f = FD_INODE) l.
Definition descriptors (l : list (option nat)) : list nat := omap id l.

Lemma nfrefs_cons j p P : nfrefs j (p :: P) = ((if decide (p = j) then 1 else 0) + nfrefs j P)%nat.
Proof. unfold nfrefs. rewrite filter_cons. by destruct (decide (p = j)). Qed.
Lemma nfrefs_elem j P : j ∈ P ↔ (0 < nfrefs j P)%nat.
Proof.
  induction P as [|p P IH]; [unfold nfrefs; simpl; split; [by intros ?%elem_of_nil|lia]|]. rewrite nfrefs_cons, elem_of_cons, IH.
  destruct (decide (p = j)); [split; [lia|by left]|]. split; [intros [?|?]; [congruence|lia]|right; lia].
Qed.
#[global] Instance nfrefs_perm j : Proper (Permutation ==> eq) (nfrefs j).
Proof. intros P P' HP. unfold nfrefs. by rewrite HP. Qed.
#[global] Instance inode_files_perm : Proper (Permutation ==> Permutation) inode_files.
Proof. intros l l' Hl. unfold inode_files. by rewrite Hl. Qed.
#[global] Instance descriptors_perm : Proper (Permutation ==> Permutation) descriptors.
Proof. intros l l' Hl. unfold descriptors. by rewrite Hl. Qed.
Lemma inode_files_cons f l :
  inode_files (f :: l) = if decide (f_type f = FD_INODE) then f_ip f :: inode_files l else inode_files l.
Proof. unfold inode_files. rewrite filter_cons. by destruct (decide _). Qed.

(** An array with one element replaced, up to order. *)
Lemma list_insert_split {A} (l : list A) j x y :
  l !! j = Some x → ∃ l', l ≡ₚ x :: l' ∧ <[j := y]> l ≡ₚ y :: l'.
Proof.
  intros Hj. exists (delete j l). split; [by apply delete_Permutation|].
  rewrite (delete_Permutation (<[j := y]> l) j y) by (apply list_lookup_insert_eq; by eapply lookup_lt_Some).
  apply Permutation_cons; [done|]. clear Hj x. revert j. induction l as [|z l IH]; intros [|j]; simpl; [done..|].
  by rewrite IH.
Qed.
Lemma inode_files_insert l j f g :
  l !! j = Some f → (f_type f = FD_INODE ↔ f_type g = FD_INODE) → f_ip f = f_ip g ∨ f_type f ≠ FD_INODE →
  inode_files (<[j := g]> l) ≡ₚ inode_files l.
Proof.
  intros Hj Ht Hip. destruct (list_insert_split l j f g Hj) as (l' & Hl & ->). rewrite Hl, !inode_files_cons.
  destruct (decide (f_type f = FD_INODE)); [|rewrite decide_False by naive_solver; done].
  rewrite decide_True by naive_solver. destruct Hip as [->|?]; done.
Qed.

(** The end of its pipe that a file is. *)
Definition pipe_end (f : file) : nat * bool := (f_pipe f, negb (f_writable f =? 0)).
Record prep (files : list file) (pipes : gmap nat pipe) (free : list nat) : Prop := {
  pr_file j f : files !! j = Some f → f_type f = FD_PIPE → ∃ p, pipes !! f_pipe f = Some p ∧ end_open (pipe_end f).2 p;
  pr_uniq j j' f f' : files !! j = Some f → files !! j' = Some f' → f_type f = FD_PIPE → f_type f' = FD_PIPE →
    pipe_end f = pipe_end f' → j = j';
  pr_end q p w : pipes !! q = Some p → end_open w p → ∃ j f, files !! j = Some f ∧ f_type f = FD_PIPE ∧ pipe_end f = (q, w);
  pr_live q p : pipes !! q = Some p → freed p = false ∧ (end_open true p ∨ end_open false p);
  pr_nodup : NoDup free;
  pr_free q : q ∈ free → pipes !! q = None }.
(** A file changes, but not as an end of a pipe. *)
Lemma prep_insert files pipes free j f g :
  files !! j = Some f → (f_type f = FD_PIPE ↔ f_type g = FD_PIPE) → (f_type f = FD_PIPE → pipe_end f = pipe_end g) →
  prep files pipes free → prep (<[j := g]> files) pipes free.
Proof.
  intros Hj Ht He [].
  assert (∀ j' f', <[j := g]> files !! j' = Some f' → f_type f' = FD_PIPE →
            ∃ f0, files !! j' = Some f0 ∧ f_type f0 = FD_PIPE ∧ pipe_end f0 = pipe_end f') as Hold.
  { intros j' f' [[<- <-]|[_ H]]%lookup_insert_Some_inv Hf'; [|by exists f'].
    apply Ht in Hf'. exists f. split_and!; [done..|by apply He]. }
  constructor; try done.
  - intros j' f' Hj' Hf'. destruct (Hold j' f' Hj' Hf') as (f0 & H0 & Ht0 & E).
    destruct (pr_file0 j' f0 H0 Ht0) as (p & Hp & Hend). exists p. rewrite <- E. split; [|done].
    by change (f_pipe f') with (pipe_end f').1; rewrite <- E.
  - intros j1 j2 f1 f2 H1 H2 Ht1 Ht2 E. destruct (Hold j1 f1 H1 Ht1) as (g1 & ? & ? & ?), (Hold j2 f2 H2 Ht2) as (g2 & ? & ? & ?).
    apply (pr_uniq0 j1 j2 g1 g2); congruence.
  - intros q p w Hq Hw. destruct (pr_end0 q p w Hq Hw) as (j' & f' & Hj' & Ht' & E).
    destruct (decide (j = j')) as [<-|Hne].
    + simplify_eq. exists j, g. rewrite list_lookup_insert_eq by (by eapply lookup_lt_Some). split_and!; [done|by apply Ht|].
      by rewrite <- (He Ht').
    + exists j', f'. by rewrite list_lookup_insert_ne.
Qed.

(** *** Closing an end of a pipe *)
Definition close_end (w : bool) (p : pipe) : pipe := if w then close_write p else close_read p.
Lemma close_end_open w v p : end_open v (close_end w p) ↔ v ≠ w ∧ end_open v p.
Proof. destruct w, v; simpl; naive_solver. Qed.
Lemma close_end_freed w p : freed (close_end w p) = freed p.
Proof. by destruct w. Qed.
#[global] Instance end_open_dec w p : Decision (end_open w p).
Proof. destruct w; simpl; apply _. Defined.
Lemma pipeclose_run w p :
  freed p = false →
  alone (pipeclose w) p = Ok (0, []) (if decide (end_open (negb w) p) then close_end w p else kfree_pipe (close_end w p)).
Proof.
  intros Hf. unfold alone, pipeclose, deref, read_state, update, wakeup, mbind, M_bind, gets, modify. simpl. rewrite Hf. simpl.
  destruct w; simpl; rewrite Hf; simpl; case_decide as E;
    (destruct (Z.eqb_spec (readopen p) 0), (Z.eqb_spec (writeopen p) 0); simpl; first [done|lia|by destruct E]).
Qed.
Lemma prep_close files pipes free j f g q w p :
  prep files pipes free → files !! j = Some f → f_type f = FD_PIPE → pipe_end f = (q, w) → f_type g = FD_NONE →
  pipes !! q = Some p →
  if decide (end_open (negb w) p)
  then prep (<[j := g]> files) (<[q := close_end w p]> pipes) free
  else prep (<[j := g]> files) (delete q pipes) (q :: free).
Proof.
  intros Hprep Hj Ht He Hg Hq. pose proof Hprep as [].
  assert (∀ j' f', <[j := g]> files !! j' = Some f' → f_type f' = FD_PIPE → j ≠ j' ∧ files !! j' = Some f' ∧ pipe_end f' ≠ (q, w)) as Hold.
  { intros j' f' [[<- <-]|[Hne H]]%lookup_insert_Some_inv Hf'; [congruence|]. split_and!; [done..|].
    intros E. apply Hne. apply (pr_uniq0 j j' f f'); congruence. }
  assert (∀ j' f', files !! j' = Some f' → f_type f' = FD_PIPE → pipe_end f' ≠ (q, w) → <[j := g]> files !! j' = Some f') as Hkeep.
  { intros j' f' Hj' _ E. rewrite list_lookup_insert_ne; [done|]. intros <-. congruence. }
  assert (∀ q' p' v, pipes !! q' = Some p' → end_open v p' → (q', v) ≠ (q, w) →
            ∃ j' f', <[j := g]> files !! j' = Some f' ∧ f_type f' = FD_PIPE ∧ pipe_end f' = (q', v)) as Hend.
  { intros q' p' v Hq' Hv Hne. destruct (pr_end0 q' p' v Hq' Hv) as (j' & f' & Hj' & Ht' & He').
    exists j', f'. split_and!; [|done..]. apply Hkeep; [done..|congruence]. }
  assert (∀ j1 j2 f1 f2, <[j := g]> files !! j1 = Some f1 → <[j := g]> files !! j2 = Some f2 → f_type f1 = FD_PIPE →
            f_type f2 = FD_PIPE → pipe_end f1 = pipe_end f2 → j1 = j2) as Hu.
  { intros j1 j2 f1 f2 H1 H2 Ht1 Ht2. destruct (Hold _ _ H1 Ht1) as (_ & ? & _), (Hold _ _ H2 Ht2) as (_ & ? & _).
    by apply (pr_uniq0 j1 j2 f1 f2). }
  case_decide as Ho.
  - constructor; try done.
    + intros j' f' H1 Ht1. destruct (Hold _ _ H1 Ht1) as (_ & Hf' & Hne). destruct (pr_file0 j' f' Hf' Ht1) as (p' & Hp' & Hv).
      destruct (decide (f_pipe f' = q)) as [Eq|Hnq]; [|exists p'; by rewrite lookup_insert_ne].
      rewrite Eq in *. exists (close_end w p). rewrite lookup_insert_eq. split; [done|]. simplify_eq.
      apply close_end_open. split; [|done]. intros E. apply Hne. unfold pipe_end in *. simpl in E.
      by rewrite E.
    + intros q' p' v [[<- <-]|[Hne Hq']]%lookup_insert_Some Hv.
      * apply close_end_open in Hv as [? ?]. by eapply Hend; [| |congruence].
      * by eapply Hend; [| |congruence].
    + intros q' p' [[<- <-]|[Hne Hq']]%lookup_insert_Some; [|by eapply pr_live0].
      rewrite close_end_freed. split; [by eapply pr_live0|]. destruct w; [right|left]; by apply close_end_open.
    + intros q' Hq'. apply pr_free0 in Hq' as E. rewrite lookup_insert_ne; [done|congruence].
  - constructor; try done.
    + intros j' f' H1 Ht1. destruct (Hold _ _ H1 Ht1) as (_ & Hf' & Hne). destruct (pr_file0 j' f' Hf' Ht1) as (p' & Hp' & Hv).
      exists p'. split; [|done]. rewrite lookup_delete_ne; [done|]. intros E0. rewrite <- E0 in Hp'. simplify_eq. apply Hne.
      unfold pipe_end in *. simpl in Hv. destruct (decide (negb (f_writable f' =? 0) = w)) as [E|E]; [by rewrite E|].
      destruct Ho. by replace (negb w) with (negb (f_writable f' =? 0)) by (destruct (negb (f_writable f' =? 0)), w; done).
    + intros q' p' v [Hne Hq']%lookup_delete_Some Hv. by eapply Hend; [| |congruence].
    + intros q' p' [Hne Hq']%lookup_delete_Some. by eapply pr_live0.
    + constructor; [|done]. intros Hin%pr_free0. congruence.
    + intros q' [->|Hq']%elem_of_cons; [apply lookup_delete_eq|]. rewrite lookup_delete_None. right. by apply pr_free0.
Qed.

Section ftable.
Context {S : Type} `{!BlockOps S} `{!DevSw (fstate S)} `{!DevSwOk S}.
Abbreviation KM := (M (kst S)).
Implicit Types (k : kst S) (P : list nat) (R : list ptr) (L : gset nat) (o : ctx).

Record kbase o k P R L : Prop := {
  kr_len : length (k_files k) = NFILE;
  kr_olen : length (k_ofile k) = NOFILE;
  kr_free : k_flocked k = false;
  kr_ref j f : k_files k !! j = Some f → f_ref f = Z.of_nat (nfrefs j (descriptors (k_ofile k) ++ P));
  kr_in j : j ∈ descriptors (k_ofile k) ++ P → (j < NFILE)%nat;
  kr_none j f : k_files k !! j = Some f → f_ref f = 0 → f_type f = FD_NONE;
  kr_ino : ∃ I, I.*1 ≡ₚ inode_files (k_files k) ∧ irep o (k_fs k) (I ++ R) L }.
Definition krep o k P R L : Prop := kbase o k P R L ∧ prep (k_files k) (k_pipes k) (k_free k).
#[global] Instance kbase_proper : Proper (eq ==> eq ==> Permutation ==> Permutation ==> eq ==> iff) kbase.
Proof.
  assert (∀ o k P P' R R' L, P ≡ₚ P' → R ≡ₚ R' → kbase o k P R L → kbase o k P' R' L) as H.
  { intros o k P P' R R' L HP HR []. constructor; try done.
    - intros j f. rewrite <- HP. apply kr_ref0.
    - intros j. rewrite <- HP. apply kr_in0.
    - destruct kr_ino0 as (I & HI & Hf). exists I. split; [done|]. by rewrite <- HR. }
  intros o ? <- k ? <- P P' HP R R' HR L ? <-. split; by apply H.
Qed.
#[global] Instance krep_proper : Proper (eq ==> eq ==> Permutation ==> Permutation ==> eq ==> iff) krep.
Proof. intros o ? <- k ? <- P P' HP R R' HR L ? <-. unfold krep. by rewrite HP, HR. Qed.

(** A file system call in the larger state. *)
Lemma fsm_wlp {A} (m : M (fstate S) A) (Q : A → list ptr → gset nat → ctx → Prop) o k P R L :
  krep o k P R L →
  (∀ I f, irep o f (I ++ R) L → wlp m (λ a f', ∃ R' L' o', Q a R' L' o' ∧ irep o' f' (I ++ R') L') f) →
  wlp (fsm m) (λ a k', ∃ R' L' o', Q a R' L' o' ∧ krep o' k' P R' L' ∧ ∃ f', k' = with_fs f' k) k.
Proof.
  intros [Hk Hp] Hm. pose proof (kr_ino _ _ _ _ _ Hk) as (I & HI & Hf). apply wlp_zoom. simpl.
  eapply wlp_mono; [|by apply Hm]. intros a f' (R' & L' & o' & HQ & Hf'). exists R', L', o'. split_and!; [done| |by eexists].
  split; [|done]. destruct Hk. constructor; try done. by exists I.
Qed.
(** The same for a post-condition that names the new pointers and locks. *)
Lemma fsm_step {A} (m : M (fstate S) A) o k P R L o' (R' : A → list ptr) (L' : A → gset nat) :
  krep o k P R L →
  (∀ I f, irep o f (I ++ R) L → wlp m (λ a f', irep o' f' (I ++ R' a) (L' a)) f) →
  wlp (fsm m) (λ a k', krep o' k' P (R' a) (L' a) ∧ ∃ f', k' = with_fs f' k) k.
Proof.
  intros Hk Hm. eapply wlp_mono; [|apply (fsm_wlp m (λ a R1 L1 o1, R1 = R' a ∧ L1 = L' a ∧ o1 = o') o k P R L Hk)].
  - intros a k' (? & ? & ? & (-> & -> & ->) & ? & ?). done.
  - intros I f Hf. eapply wlp_mono; [|by apply Hm]. intros a f' Hf'. by exists (R' a), (L' a), o'.
Qed.
Lemma fsm_keeps {A} (m : M (fstate S) A) o k P R L :
  krep o k P R L → ikeeps o m → wlp (fsm m) (λ _ k', krep o k' P R L ∧ ∃ f', k' = with_fs f' k) k.
Proof. intros Hk Hm. apply (fsm_step m o k P R L o (λ _, R) (λ _, L) Hk). intros I f Hf. by apply Hm. Qed.

Lemma fsm_begin o k P R L :
  krep o k P R L → wlp (fsm (logm begin_op)) (λ _ k', krep (tx_add 1 o) k' P R L ∧ ∃ f', k' = with_fs f' k) k.
Proof. intros Hk. eapply (fsm_step _ o k P R L _ (λ _, R) (λ _, L) Hk). intros I f. apply begin_op_rep. Qed.
Lemma fsm_end o k P R L :
  krep (tx_add 1 o) k P R L → wlp (fsm (logm end_op)) (λ _ k', krep o k' P R L ∧ ∃ f', k' = with_fs f' k) k.
Proof.
  intros Hk. eapply (fsm_step _ _ k P R L _ (λ _, R) (λ _, L) Hk). intros I f Hf.
  eapply wlp_mono; [|by apply end_op_rep]. intros ? f'. unfold tx_add. simpl.
  replace (c_tx o + 1 + -1) with (c_tx o) by lia. by destruct o.
Qed.
Lemma fsm_ilock o k P R L ip :
  krep o k P R L →
  wlp (fsm (ilock ip)) (λ _ k', (krep o k' P R ({[ip]} ∪ L) ∧ ip ∉ L) ∧ ∃ f', k' = with_fs f' k) k.
Proof.
  intros Hk. eapply wlp_mono; [|apply (fsm_wlp _ (λ _ R1 L1 o1, R1 = R ∧ L1 = {[ip]} ∪ L ∧ o1 = o ∧ ip ∉ L) o k P R L Hk)].
  - intros a k' (? & ? & ? & (-> & -> & -> & ?) & ? & ?). done.
  - intros I f Hf. eapply wlp_mono; [|by apply ilock_rep]. intros ? f' [? ?]. by exists R, ({[ip]} ∪ L), o.
Qed.
Lemma fsm_iunlock o k P R L ip :
  krep o k P R L → wlp (fsm (iunlock ip)) (λ _ k', krep o k' P R (L ∖ {[ip]}) ∧ ∃ f', k' = with_fs f' k) k.
Proof.
  intros Hk. eapply (fsm_step _ o k P R L _ (λ _, R) (λ _, L ∖ {[ip]}) Hk). intros I f Hf.
  eapply wlp_mono; [|by apply iunlock_rep]. by intros ? f' [_ ?].
Qed.
Lemma fsm_iput o k P R L ip key :
  krep o k P ((ip, key) :: R) L → wlp (fsm (iput ip)) (λ _ k', krep o k' P R L ∧ ∃ f', k' = with_fs f' k) k.
Proof.
  intros Hk. eapply (fsm_step _ o k P _ L _ (λ _, R) (λ _, L) Hk). intros I f Hf. rewrite <- Permutation_middle in Hf.
  eapply wlp_mono; [|by eapply iput_rep]. by intros ? f' [? _].
Qed.
Lemma fsm_iunlockput o k P R L ip key :
  krep o k P ((ip, key) :: R) L →
  wlp (fsm (iunlockput ip)) (λ _ k', krep o k' P R (L ∖ {[ip]}) ∧ ∃ f', k' = with_fs f' k) k.
Proof.
  intros Hk. eapply (fsm_step _ o k P _ L _ (λ _, R) (λ _, L ∖ {[ip]}) Hk). intros I f Hf. rewrite <- Permutation_middle in Hf.
  eapply wlp_mono; [|by eapply iunlockput_rep]. by intros ? f' [_ ?].
Qed.
(** Results that carry a new pointer. *)
Lemma fsm_pointer {A} (m : M (fstate S) (option A)) (ip : A → nat) o k P R L (L' : A → gset nat) :
  krep o k P R L →
  (∀ I f, irep o f (I ++ R) L →
     wlp m (λ r f', match r with None => irep o f' (I ++ R) L | Some a => ∃ key, irep o f' ((ip a, key) :: I ++ R) (L' a) end) f) →
  wlp (fsm m) (λ r k', match r with None => krep o k' P R L | Some a => ∃ key, krep o k' P ((ip a, key) :: R) (L' a) end ∧
                       ∃ f', k' = with_fs f' k) k.
Proof.
  intros Hk Hm.
  eapply wlp_mono; [|apply (fsm_wlp m (λ r R1 L1 o1, o1 = o ∧ match r with None => R1 = R ∧ L1 = L
                            | Some a => ∃ key, R1 = (ip a, key) :: R ∧ L1 = L' a end) o k P R L Hk)].
  - intros [a|] k' (? & ? & ? & [-> H] & Hk' & ?); (split; [|done]).
    + destruct H as (key & -> & ->). by exists key.
    + by destruct H as [-> ->].
  - intros I f Hf. eapply wlp_mono; [|by apply Hm]. intros [a|] f'.
    + intros [key Hf']. exists ((ip a, key) :: R), (L' a), o. split; [split; [done|by exists key]|]. by rewrite <- Permutation_middle.
    + intros Hf'. by exists R, L, o.
Qed.
End ftable.

(** ** The functions of file.c *)
Section files.
Context {S : Type} `{!BlockOps S} `{!DevSw (fstate S)} `{!DevSwOk S}.
Abbreviation KM := (M (kst S)).
Implicit Types (k : kst S) (P : list nat) (R : list ptr) (L : gset nat) (o : ctx).

Lemma get_file_inv k fp f k' : get_file fp k = Ok f k' → k_files k !! fp = Some f ∧ k' = k.
Proof. unfold get_file. intros H. inv_bind. by rewrite Nat2Z.id in *. Qed.
Lemma kbase_file o k P R L fp f : kbase o k P R L → k_files k !! fp = Some f → 1 ≤ f_ref f → fp ∈ descriptors (k_ofile k) ++ P.
Proof. intros Hk Hf Hr. rewrite (kr_ref _ _ _ _ _ Hk fp f Hf) in Hr. apply nfrefs_elem. lia. Qed.
Lemma krep_lookup o k P R L fp :
  krep o k P R L → fp ∈ descriptors (k_ofile k) ++ P → ∃ f, k_files k !! fp = Some f ∧ 1 ≤ f_ref f.
Proof.
  intros [Hk _] Hfp. destruct (lookup_lt_is_Some_2 (k_files k) fp) as [f Hf].
  { rewrite (kr_len _ _ _ _ _ Hk). by apply (kr_in _ _ _ _ _ Hk). }
  exists f. split; [done|]. rewrite (kr_ref _ _ _ _ _ Hk fp f Hf). apply nfrefs_elem in Hfp. lia.
Qed.

(** One file changes together with the pointers to it and the inode it holds. *)
Lemma kbase_alter o k P P' R R' L fp f g I :
  kbase o k P R L → k_files k !! fp = Some f →
  f_ref (g f) = Z.of_nat (nfrefs fp (descriptors (k_ofile k) ++ P')) →
  (∀ j, j ≠ fp → nfrefs j (descriptors (k_ofile k) ++ P') = nfrefs j (descriptors (k_ofile k) ++ P)) →
  (f_ref (g f) = 0 → f_type (g f) = FD_NONE) →
  I.*1 ≡ₚ inode_files (<[fp := g f]> (k_files k)) → irep o (k_fs k) (I ++ R') L →
  kbase o (with_files (alter g fp) k) P' R' L.
Proof.
  intros Hk Hf Hr Hn Ht HI Hi. destruct Hk. constructor; simpl; try done.
  - by rewrite length_alter.
  - intros j f'. destruct (decide (j = fp)) as [->|Hne].
    + rewrite list_lookup_alter_eq, Hf. by intros [= <-].
    + rewrite list_lookup_alter_ne, Hn by done. apply kr_ref0.
  - intros j Hj. destruct (decide (j = fp)) as [->|Hne].
    + rewrite <- kr_len0. by eapply lookup_lt_Some.
    + apply kr_in0. apply nfrefs_elem. rewrite <- Hn by done. by apply nfrefs_elem.
  - intros j f'. destruct (decide (j = fp)) as [->|Hne].
    + rewrite list_lookup_alter_eq, Hf. by intros [= <-].
    + rewrite list_lookup_alter_ne by done. apply kr_none0.
  - exists I. split; [|done]. by rewrite (alter_lookup_insert _ _ _ _ Hf).
Qed.
(** Only the offset or the like changes. *)
Lemma krep_update o k P R L fp f g :
  krep o k P R L → k_files k !! fp = Some f →
  f_ref (g f) = f_ref f → f_type (g f) = f_type f → f_ip (g f) = f_ip f → pipe_end (g f) = pipe_end f →
  krep o (with_files (alter g fp) k) P R L.
Proof.
  intros [Hk Hp] Hf Hr Ht Hi He. destruct (kr_ino _ _ _ _ _ Hk) as (I & HI & Hrep). split.
  - eapply (kbase_alter o k P P R R L fp f g I Hk Hf); [|done| | |done].
    + rewrite Hr. by apply (kr_ref _ _ _ _ _ Hk).
    + rewrite Hr, Ht. by apply (kr_none _ _ _ _ _ Hk fp).
    + rewrite (inode_files_insert _ _ f); [done|done|by rewrite Ht|by left].
  - simpl. rewrite (alter_lookup_insert _ _ _ _ Hf). by apply (prep_insert _ _ _ _ f); [|rewrite Ht| |].
Qed.

(** A critical section of ftable.lock. *)
Lemma ftable_section {A} k g fp (a : A) :
  k_flocked k = false →
  (upd_file g fp ;; release_ftable ;; mret a) (with_flocked true k) = Ok a (with_files (alter g fp) k).
Proof.
  intros Hl. unfold release_ftable, upd_file, mbind, M_bind, get, modify. simpl.
  destruct k; simpl in *. by subst.
Qed.
Lemma acquire_ftable_run k : k_flocked k = false → acquire_ftable k = Ok tt (with_flocked true k).
Proof. intros Hl. unfold acquire_ftable, mbind, M_bind, get. by rewrite Hl. Qed.
Lemma flocked_id k : k_flocked k = false → with_flocked false (with_flocked true k) = k.
Proof. destruct k; simpl. by intros ->. Qed.

(** filealloc: a file of its own, or none if all are in use. *)
Lemma filealloc_rep o k P R L :
  krep o k P R L →
  wp filealloc (λ r k', match r with
    | None => k' = k ∧ ∀ j, (j < NFILE)%nat → j ∈ descriptors (k_ofile k) ++ P
    | Some fp => krep o k' (fp :: P) R L ∧ (∃ f, k_files k' !! fp = Some f ∧ f_type f = FD_NONE ∧ f_ref f = 1) ∧
                 (fp ∉ descriptors (k_ofile k) ++ P) ∧ ∃ g, k' = with_files (alter g fp) k
    end) k.
Proof.
  intros [Hk Hp]. pose proof (kr_free _ _ _ _ _ Hk) as Hl. unfold wp, filealloc.
  rewrite (bind_run _ _ _ _ _ (acquire_ftable_run k Hl)).
  rewrite (bind_run _ _ (with_flocked true k) (with_flocked true k) (with_flocked true k)) by done. simpl.
  destruct (find_index _ _) as [fp|] eqn:E.
  - rewrite ftable_section by done. apply find_index_Some in E as (f & Hf & Hr & _). apply Z.eqb_eq in Hr.
    pose proof (kr_none _ _ _ _ _ Hk fp f Hf Hr) as Ht. rewrite (kr_ref _ _ _ _ _ Hk fp f Hf) in Hr.
    destruct (kr_ino _ _ _ _ _ Hk) as (I & HI & Hrep). split_and!.
    + split.
      * apply (kbase_alter o k P (fp :: P) R R L fp f (f_with_ref 1) I Hk Hf); try done; simpl.
        -- rewrite <- Permutation_middle, nfrefs_cons, decide_True by done. lia.
        -- intros j Hj. by rewrite <- Permutation_middle, nfrefs_cons, decide_False by done.
        -- rewrite HI. by rewrite (inode_files_insert _ _ f); [| |simpl|left].
      * simpl. rewrite (alter_lookup_insert _ _ _ _ Hf). by apply (prep_insert _ _ _ _ f).
    + exists (f_with_ref 1 f). simpl. by rewrite list_lookup_alter_eq, Hf.
    + rewrite nfrefs_elem. lia.
    + by eexists.
  - unfold release_ftable, mbind, M_bind, get, modify, mret, M_ret. simpl. split; [by apply flocked_id|].
    intros j Hj. rewrite <- (kr_len _ _ _ _ _ Hk) in Hj. apply lookup_lt_is_Some_2 in Hj as [f Hf].
    rewrite find_index_None in E. specialize (E j f Hf). apply Z.eqb_neq in E.
    rewrite (kr_ref _ _ _ _ _ Hk j f Hf) in E. apply nfrefs_elem. lia.
Qed.
Lemma get_file_run k fp f : k_files k !! fp = Some f → get_file fp k = Ok f k.
Proof.
  intros Hf. unfold get_file. rewrite (bind_run _ _ k k k) by done. apply array_get_ok; [lia|]. by rewrite Nat2Z.id.
Qed.
Lemma filedup_run k fp f :
  k_flocked k = false → k_files k !! fp = Some f → 1 ≤ f_ref f →
  filedup fp k = Ok fp (with_files (alter (f_with_ref (f_ref f + 1)) fp) k).
Proof.
  intros Hl Hf Hr. unfold filedup. rewrite (bind_run _ _ _ _ _ (acquire_ftable_run k Hl)).
  rewrite (bind_run _ _ f (with_flocked true k) (with_flocked true k)) by (by apply get_file_run).
  rewrite (proj2 (Z.ltb_ge _ _)) by lia. by apply ftable_section.
Qed.
(** One more pointer to a file in use. *)
Lemma krep_dup o k P R L fp f :
  krep o k P R L → k_files k !! fp = Some f → 1 ≤ f_ref f →
  krep o (with_files (alter (f_with_ref (f_ref f + 1)) fp) k) (fp :: P) R L.
Proof.
  intros [Hk Hp] Hf Hr. destruct (kr_ino _ _ _ _ _ Hk) as (I & HI & Hrep). split.
  - apply (kbase_alter o k P (fp :: P) R R L fp f (f_with_ref (f_ref f + 1)) I Hk Hf); try done; simpl.
    + rewrite <- Permutation_middle, nfrefs_cons, decide_True, (kr_ref _ _ _ _ _ Hk fp f Hf) by done. lia.
    + intros j Hj. by rewrite <- Permutation_middle, nfrefs_cons, decide_False by done.
    + lia.
    + rewrite HI. by rewrite (inode_files_insert _ _ f); [| |simpl|left].
  - simpl. rewrite (alter_lookup_insert _ _ _ _ Hf). by apply (prep_insert _ _ _ _ f).
Qed.

(** fileclose, when other pointers remain and for the last one. *)
Definition cleared (f : file) : file := f_with_type FD_NONE (f_with_ref 0 f).
Lemma fileclose_run k fp f :
  k_flocked k = false → k_files k !! fp = Some f → 1 ≤ f_ref f →
  fileclose fp k =
    if 1 <? f_ref f then Ok tt (with_files (alter (f_with_ref (f_ref f - 1)) fp) k)
    else match f_type f with
         | FD_PIPE => pipe_op (pipeclose (negb (f_writable f =? 0))) (f_pipe f) ;; mret tt
         | FD_INODE => fsm (logm begin_op) ;; fsm (iput (f_ip f)) ;; fsm (logm end_op)
         | FD_NONE => mret tt
         end (with_files (alter cleared fp) k).
Proof.
  intros Hl Hf Hr. unfold fileclose. rewrite (bind_run _ _ _ _ _ (acquire_ftable_run k Hl)).
  rewrite (bind_run _ _ f (with_flocked true k) (with_flocked true k)) by (by apply get_file_run).
  rewrite (proj2 (Z.ltb_ge _ _)) by lia.
  rewrite (bind_run _ _ tt _ (with_files (alter (f_with_ref (f_ref f - 1)) fp) (with_flocked true k))) by done.
  destruct (Z.ltb_spec 1 (f_ref f)).
  - rewrite (proj2 (Z.ltb_lt _ _)) by lia. unfold release_ftable, mbind, M_bind, get, modify. simpl. destruct k; simpl in *. by subst.
  - rewrite (proj2 (Z.ltb_ge _ _)) by lia.
    rewrite (bind_run _ _ (f_with_ref (f_ref f - 1) f) _ (with_files (alter (f_with_ref (f_ref f - 1)) fp) (with_flocked true k)))
      by (apply get_file_run; simpl; by rewrite list_lookup_alter_eq, Hf).
    match goal with |- (upd_file ?g ?a ≫= ?h) ?s = _ => rewrite (bind_run (upd_file g a) h tt s (with_files (alter cleared fp) s)) by done end.
    rewrite (bind_run release_ftable _ tt _ (with_files (alter cleared fp) k)); [reflexivity|].
    unfold release_ftable, mbind, M_bind, get, modify. simpl. f_equal. unfold with_flocked, with_files. simpl. rewrite Hl. f_equal.
    rewrite (alter_lookup_insert (f_with_ref _) _ _ _ Hf), (alter_lookup_insert cleared (k_files k) _ _ Hf).
    rewrite (alter_lookup_insert _ _ _ (f_with_ref (f_ref f - 1) f)) by (apply list_lookup_insert_eq; by eapply lookup_lt_Some).
    by rewrite list_insert_insert_eq.
Qed.
Lemma krep_drop o k P R L fp f :
  krep o k (fp :: P) R L → k_files k !! fp = Some f → 1 < f_ref f →
  krep o (with_files (alter (f_with_ref (f_ref f - 1)) fp) k) P R L.
Proof.
  intros [Hk Hp] Hf Hr. destruct (kr_ino _ _ _ _ _ Hk) as (I & HI & Hrep). split.
  - apply (kbase_alter o k (fp :: P) P R R L fp f (f_with_ref (f_ref f - 1)) I Hk Hf); try done; simpl.
    + rewrite (kr_ref _ _ _ _ _ Hk fp f Hf), <- Permutation_middle, nfrefs_cons, decide_True by done. lia.
    + intros j Hj. by rewrite <- Permutation_middle, nfrefs_cons, decide_False by done.
    + lia.
    + rewrite HI. by rewrite (inode_files_insert _ _ f); [| |simpl|left].
  - simpl. rewrite (alter_lookup_insert _ _ _ _ Hf). by apply (prep_insert _ _ _ _ f).
Qed.
(** The last pointer goes: the inode of an inode file is now held by [R]. *)
Lemma kbase_clear o k P R L fp f :
  kbase o k (fp :: P) R L → k_files k !! fp = Some f → f_ref f = 1 →
  ∃ R', kbase o (with_files (alter cleared fp) k) P (R' ++ R) L ∧
        if decide (f_type f = FD_INODE) then ∃ key, R' = [(f_ip f, key)] else R' = [].
Proof.
  intros Hk Hf Hr. destruct (kr_ino _ _ _ _ _ Hk) as (I & HI & Hrep).
  assert (nfrefs fp (descriptors (k_ofile k) ++ P) = 0%nat) as Hn.
  { rewrite (kr_ref _ _ _ _ _ Hk fp f Hf), <- Permutation_middle, nfrefs_cons, decide_True in Hr by done. lia. }
  assert (∀ I' R', I'.*1 ≡ₚ inode_files (<[fp := cleared f]> (k_files k)) → irep o (k_fs k) (I' ++ R' ++ R) L →
            kbase o (with_files (alter cleared fp) k) P (R' ++ R) L) as Hgo.
  { intros I' R' HI' Hrep'. apply (kbase_alter o k (fp :: P) P R (R' ++ R) L fp f cleared I' Hk Hf); try done; simpl.
    - lia.
    - intros j Hj. by rewrite <- Permutation_middle, nfrefs_cons, decide_False by done. }
  destruct (list_insert_split (k_files k) fp f (cleared f) Hf) as (l & Hl & Hl'). case_decide as Ht.
  - rewrite Hl, inode_files_cons, decide_True in HI by done.
    assert (∃ key I1, I ≡ₚ (f_ip f, key) :: I1 ∧ I1.*1 ≡ₚ inode_files l) as (key & I1 & HI1 & HI2).
    { assert (f_ip f ∈ I.*1) as Hin by (rewrite HI; apply elem_of_cons; by left).
      apply list_elem_of_fmap in Hin as ([ip key] & E & Hin). simpl in E. apply list_elem_of_split in Hin as (I1 & I2 & ->).
      exists key, (I1 ++ I2). subst ip. split; [by rewrite Permutation_middle|].
      rewrite <- Permutation_middle, fmap_cons in HI. by apply Permutation_cons_inv in HI. }
    exists [(f_ip f, key)]. split; [|by exists key]. apply (Hgo I1).
    + rewrite Hl', inode_files_cons, decide_False by done. done.
    + rewrite HI1 in Hrep. simpl in *. by rewrite <- Permutation_middle.
  - exists []. split; [|done]. apply (Hgo I); [|done]. rewrite HI, Hl'. rewrite Hl, !inode_files_cons.
    by rewrite !decide_False.
Qed.

Lemma prep_live_end files pipes free j f :
  prep files pipes free → files !! j = Some f → f_type f = FD_PIPE →
  ∃ p, pipes !! f_pipe f = Some p ∧ freed p = false ∧ end_open (pipe_end f).2 p.
Proof.
  intros [] Hj Ht. destruct (pr_file0 j f Hj Ht) as (p & Hp & He). exists p. split_and!; [done| |done]. by eapply pr_live0.
Qed.
Lemma kbase_pipes o k P R L g h : kbase o k P R L → kbase o (with_pipes g h k) P R L.
Proof. by intros []. Qed.
Lemma fileclose_rep o k P R L fp :
  krep o k (fp :: P) R L → wlp (fileclose fp) (λ _ k', krep o k' P R L) k.
Proof.
  intros Hkk. destruct (krep_lookup _ _ _ _ _ fp Hkk) as (f & Hf & Hr); [rewrite elem_of_app, elem_of_cons; auto|].
  destruct Hkk as [Hk Hp]. unfold wlp. rewrite (fileclose_run k fp f) by (done || apply Hk).
  destruct (Z.ltb_spec 1 (f_ref f)); [by apply krep_drop|]. assert (f_ref f = 1) as Hr1 by lia.
  destruct (kbase_clear o k P R L fp f Hk Hf Hr1) as (R' & Hk1 & HR).
  destruct (f_type f) eqn:Ht; simpl in HR.
  - subst R'. split; [done|]. simpl. rewrite (alter_lookup_insert _ _ _ _ Hf). by apply (prep_insert _ _ _ _ f); [|rewrite Ht|rewrite Ht|].
  - subst R'. destruct (prep_live_end _ _ _ _ _ Hp Hf Ht) as (p & Hq & Hfr & He).
    unfold pipe_op, mbind, M_bind, get. simpl. rewrite Hq, (pipeclose_run _ p Hfr).
    pose proof (prep_close _ _ _ fp f (cleared f) (f_pipe f) _ p Hp Hf Ht eq_refl eq_refl Hq) as Hprep.
    case_decide as Ho.
    + rewrite close_end_freed, Hfr. split; [by apply kbase_pipes|]. simpl. by rewrite (alter_lookup_insert _ _ _ _ Hf).
    + simpl. split; [by apply kbase_pipes|]. simpl. by rewrite (alter_lookup_insert _ _ _ _ Hf).
  - destruct HR as [key ->]. assert (krep o (with_files (alter cleared fp) k) P ((f_ip f, key) :: R) L) as Hk2.
    { split; [done|]. simpl. rewrite (alter_lookup_insert _ _ _ _ Hf). by apply (prep_insert _ _ _ _ f); [|rewrite Ht|rewrite Ht|]. }
    revert Hk2. generalize (with_files (alter cleared fp) k). intros k1 Hk2. fold (wlp (fsm (logm begin_op) ;; fsm (iput (f_ip f)) ;; fsm (logm end_op)) (λ _ k', krep o k' P R L) k1).
    wstep fsm_begin. intros _ k2 [Hk3 _]. wstep fsm_iput. intros _ k3 [Hk4 _]. wlast fsm_end. by intros _ k4 [? _].
Qed.

(** Reading and writing a pipe open and close nothing. *)
Lemma pipe_op_rep o k P R L seg q :
  (∀ p r p', alone seg p = Ok r p' → readopen p' = readopen p ∧ writeopen p' = writeopen p ∧ freed p' = freed p) →
  krep o k P R L → wlp (pipe_op seg q) (λ _ k', krep o k' P R L) k.
Proof.
  intros Hseg [Hk Hp]. unfold wlp, pipe_op, mbind, M_bind, get.
  destruct (k_pipes k !! q) as [p|] eqn:Hq; [|done]. destruct (alone seg p) as [r p'| | |] eqn:E; try done.
  destruct (Hseg p r p' E) as (H1 & H2 & H3). destruct (pr_live _ _ _ Hp q p Hq) as [Hfr _]. rewrite H3, Hfr.
  assert (∀ w, end_open w p' ↔ end_open w p) as Hend by (intros []; simpl; by rewrite ?H1, ?H2).
  split; [by apply kbase_pipes|]. simpl. destruct Hp. constructor; try done.
  - intros j f Hj Ht. destruct (pr_file0 j f Hj Ht) as (p0 & Hp0 & He). destruct (decide (q = f_pipe f)) as [->|Hne].
    + exists p'. rewrite lookup_insert_eq. split; [done|]. apply Hend. congruence.
    + exists p0. by rewrite lookup_insert_ne.
  - intros q' p0 w [[<- <-]|[_ Hq']]%lookup_insert_Some Hw; [apply Hend in Hw|]; by eapply pr_end0.
  - intros q' p0 [[<- <-]|[_ Hq']]%lookup_insert_Some; [|by eapply pr_live0]. rewrite !Hend, H3. by eapply pr_live0.
  - intros q' Hin%pr_free0. rewrite lookup_insert_ne; [done|]. congruence.
Qed.
Lemma alone_frames {X} (g : pipe → X) (seg : pseg) p r p' :
  frames (λ s, g s.1) seg → alone seg p = Ok r p' → g p' = g p.
Proof.
  intros Hs. unfold alone. destruct (seg (p, [])) as [[c l|r0] [p0 ws]| | |] eqn:E; try done.
  intros [= _ <-]. apply (Hs _ _ _ E).
Qed.
Lemma frames_update {X} (g : pipe → X) h : (∀ p, g (h p) = g p) → frames (λ s : pipe * list pchan, g s.1) (update h).
Proof. intros Hg. apply frames_modify. intros [p ws]. apply Hg. Qed.
Lemma frames_wakeup {X} (g : pipe → X) c : frames (λ s : pipe * list pchan, g s.1) (wakeup c).
Proof. apply frames_modify. by intros [p ws]. Qed.
Hint Resolve frames_update frames_wakeup : frames.
Lemma piperead_frames {X} (g : pipe → X) killed n : (∀ x p, g (take_byte x p) = g p) → frames (λ s, g s.1) (piperead killed n).
Proof.
  intros Hg. assert (frames (λ s, g s.1) deref) by (unfold deref, read_state; solve_frames).
  assert (∀ r, frames (λ s, g s.1) (read_loop r)) as Hl.
  { intros r. induction r as [|r IH]; simpl; solve_frames. }
  unfold piperead. solve_frames.
Qed.
Lemma pipewrite_frames {X} (g : pipe → X) killed addr n i : (∀ x p, g (put x p) = g p) → frames (λ s, g s.1) (pipewrite killed addr n i).
Proof.
  intros Hg. assert (frames (λ s, g s.1) deref) by (unfold deref, read_state; solve_frames).
  unfold pipewrite. apply frames_bind; [done|]. intros _. generalize (Z.to_nat (n - i)) as r. intros r. revert i.
  induction r as [|r IH]; intros i; simpl; solve_frames.
Qed.
Lemma piperead_rep o k P R L killed n q : krep o k P R L → wlp (pipe_op (piperead killed n) q) (λ _ k', krep o k' P R L) k.
Proof. apply pipe_op_rep. intros p r p' E. split_and!; revert E; apply alone_frames; by apply piperead_frames. Qed.
Lemma pipewrite_rep o k P R L killed addr n q : krep o k P R L → wlp (pipe_op (pipewrite killed addr n 0) q) (λ _ k', krep o k' P R L) k.
Proof. apply pipe_op_rep. intros p r p' E. split_and!; revert E; apply alone_frames; by apply pipewrite_frames. Qed.

(** *** A new pipe *)
Lemma prep_open files pipes free q a b fa fb ga gb :
  prep files pipes (q :: free) → files !! a = Some fa → files !! b = Some fb → a ≠ b →
  f_type fa = FD_NONE → f_type fb = FD_NONE → f_type ga = FD_PIPE → f_type gb = FD_PIPE →
  pipe_end ga = (q, false) → pipe_end gb = (q, true) → 
  prep (<[b := gb]> (<[a := ga]> files)) (<[q := pipe_init (replicate 512 1)]> pipes) free.
Proof.
  intros [] Ha Hb Hab Hta Htb Hga Hgb Hea Heb.
  assert (pipes !! q = None) as Hq by (apply pr_free0, elem_of_cons; by left).
  assert ((a < length files)%nat ∧ (b < length files)%nat) as [Hla Hlb] by (split; by eapply lookup_lt_Some).
  assert (∀ w, end_open w (pipe_init (replicate 512 1))) as Hinit by (intros []; simpl; lia).
  assert (∀ j f, <[b := gb]> (<[a := ga]> files) !! j = Some f → f_type f = FD_PIPE →
            (j = a ∧ f = ga) ∨ (j = b ∧ f = gb) ∨ (j ≠ a ∧ j ≠ b ∧ files !! j = Some f ∧ f_pipe f ≠ q)) as Hcase.
  { intros j f [[<- <-]|[? [[<- <-]|[? Hj]]%lookup_insert_Some_inv]]%lookup_insert_Some_inv Hf; [auto..|].
    right. right. split_and!; [done..|]. intros <-. destruct (pr_file0 j f Hj Hf) as (p & Hp & _). congruence. }
  assert (∀ f x, pipe_end f = x → f_pipe f = x.1) as Hpe by (by intros f x <-).
  constructor.
  - intros j f Hj Hf. destruct (Hcase j f Hj Hf) as [[-> ->]|[[-> ->]|(_ & _ & Hj' & Hne)]].
    + rewrite (Hpe _ _ Hea). simpl. eexists. rewrite lookup_insert_eq. split; [done|]. apply Hinit.
    + rewrite (Hpe _ _ Heb). simpl. eexists. rewrite lookup_insert_eq. split; [done|]. apply Hinit.
    + rewrite lookup_insert_ne by done. by apply (pr_file0 j).
  - intros j1 j2 f1 f2 H1 H2 Ht1 Ht2 E.
    assert (∀ f w, f_pipe f ≠ q → pipe_end f ≠ (q, w)) as Hn by (by intros f w Hf Hw; apply Hf, (Hpe _ _ Hw)).
    destruct (Hcase _ _ H1 Ht1) as [[-> ->]|[[-> ->]|(_ & _ & G1 & Hn1)]], (Hcase _ _ H2 Ht2) as [[-> ->]|[[-> ->]|(_ & _ & G2 & Hn2)]];
      try done; try congruence.
    + by destruct (Hn f2 false Hn2); congruence.
    + by destruct (Hn f2 true Hn2); congruence.
    + by destruct (Hn f1 false Hn1); congruence.
    + by destruct (Hn f1 true Hn1); congruence.
    + by apply (pr_uniq0 j1 j2 f1 f2).
  - intros q' p w [[<- <-]|[Hne Hq']]%lookup_insert_Some Hw.
    + destruct w; [exists b, gb|exists a, ga].
      * rewrite list_lookup_insert_eq by (by rewrite length_insert). done.
      * by rewrite list_lookup_insert_ne, list_lookup_insert_eq.
    + destruct (pr_end0 q' p w Hq' Hw) as (j & f & Hj & Ht & He). exists j, f.
      rewrite !list_lookup_insert_ne by congruence. done.
  - intros q' p [[<- <-]|[Hne Hq']]%lookup_insert_Some; [split; [done|left; apply Hinit]|by eapply pr_live0].
  - by apply NoDup_cons in pr_nodup0 as [_ ?].
  - intros q' Hq'. apply NoDup_cons in pr_nodup0 as [Hnq _]. rewrite lookup_insert_ne by congruence.
    apply pr_free0, elem_of_cons. by right.
Qed.
Lemma kbase_update o k P R L fp f g :
  kbase o k P R L → k_files k !! fp = Some f → f_ref (g f) = f_ref f → f_ref f ≠ 0 →
  f_type f ≠ FD_INODE → f_type (g f) ≠ FD_INODE → kbase o (with_files (alter g fp) k) P R L.
Proof.
  intros Hk Hf Hr Hr0 Ht Hg. destruct (kr_ino _ _ _ _ _ Hk) as (I & HI & Hrep).
  eapply (kbase_alter o k P P R R L fp f g I Hk Hf); [|done| | |done].
  - rewrite Hr. by apply (kr_ref _ _ _ _ _ Hk).
  - congruence.
  - rewrite (inode_files_insert _ _ f); [done|done|done|by right].
Qed.
Lemma pipealloc_rep o k P R L :
  krep o k P R L →
  wlp pipealloc (λ r k', match r with None => krep o k' P R L | Some (a, b) => krep o k' (a :: b :: P) R L end) k.
Proof.
  intros Hk. unfold pipealloc. apply wlp_bind, wp_wlp. eapply wp_mono; [|by apply filealloc_rep].
  intros [a|] k1; [|by intros [-> _]]. intros (Hk1 & (fa & Ha & Hta & Hra) & Hna & _).
  apply wlp_bind, wp_wlp. eapply wp_mono; [|by apply filealloc_rep].
  intros [b|] k2.
  2: { intros [-> _]. unfold pipealloc_bad. wstep fileclose_rep. by intros _ k2 Hk2. }
  intros (Hk2 & (fb & Hb & Htb & Hrb) & Hnb & (g & E)).
  assert (a ≠ b) as Hab by (intros ->; apply Hnb; rewrite elem_of_app, elem_of_cons; auto).
  assert (k_files k2 !! a = Some fa) as Ha2 by (rewrite E; simpl; by rewrite list_lookup_alter_ne).
  unfold kalloc_page. do 2 apply wlp_bind. unfold wlp at 1. simpl. destruct (k_free k2) as [|q free] eqn:Efree.
  - unfold wlp at 1. simpl. rewrite Permutation_swap in Hk2. unfold pipealloc_bad.
    wstep fileclose_rep. intros _ k3 Hk3. wstep fileclose_rep. by intros _ k4 Hk4.
  - unfold wlp. simpl. destruct Hk2 as [Hk2 Hp2]. rewrite Efree in Hp2. split.
    + rewrite Permutation_swap in Hk2. apply (kbase_update _ _ _ _ _ b fb); try done; simpl.
      * apply (kbase_update _ _ _ _ _ a fa); try done; simpl; [|lia|congruence]. by do 2 apply kbase_pipes.
      * by rewrite list_lookup_alter_ne.
      * lia.
      * congruence.
    + simpl. rewrite (alter_lookup_insert _ _ a fa) by done. rewrite (alter_lookup_insert _ _ b fb) by (by rewrite list_lookup_insert_ne).
      by apply (prep_open _ _ _ q a b fa fb).
Qed.

(** *** Input and output *)
Lemma get_file_wlp k fp (Q : file → kst S → Prop) :
  (∀ f, k_files k !! fp = Some f → Q f k) → wlp (get_file fp) Q k.
Proof. intros HQ. apply wlp_ok. intros f k' [Hf ->]%get_file_inv. by apply HQ. Qed.
Lemma off_rep o k P R L fp f (b : bool) off :
  krep o k P R L → k_files k !! fp = Some f →
  wlp (when b (upd_file (f_with_off off) fp)) (λ _ k', krep o k' P R L) k.
Proof. intros Hk Hf. destruct b; [|done]. unfold wlp. simpl. by apply (krep_update _ _ _ _ _ _ f). Qed.
Lemma relock (ip : nat) (L : gset nat) : ip ∉ L → ({[ip]} ∪ L) ∖ {[ip]} = L.
Proof. set_solver. Qed.
Lemma filestat_rep o k P R L fp : krep o k P R L → wlp (filestat fp) (λ _ k', krep o k' P R L) k.
Proof.
  intros Hk. unfold filestat. apply wlp_bind, get_file_wlp. intros f Hf. case_decide; [|done].
  wstep fsm_ilock. intros _ k1 [[Hk1 Hl] _].
  apply wlp_bind. eapply wlp_mono; [|eapply (fsm_keeps _ _ _ _ _ _ Hk1); auto with ikeeps]. intros st k2 [Hk2 _].
  wstep fsm_iunlock. intros _ k3 [Hk3 _]. by rewrite relock in Hk3.
Qed.
Lemma fileread_rep o k P R L fp n : krep o k P R L → wlp (fileread fp n) (λ _ k', krep o k' P R L) k.
Proof.
  intros Hk. unfold fileread. apply wlp_bind, get_file_wlp. intros f Hf. destruct (_ =? 0); [done|]. destruct (f_type f); [done| |].
  - apply wlp_bind. unfold wlp at 1. simpl. by apply piperead_rep.
  - wstep fsm_ilock. intros _ k1 [[Hk1 Hl] [f1 E1]].
    apply wlp_bind. eapply wlp_mono; [|eapply (fsm_keeps _ _ _ _ _ _ Hk1); auto with ikeeps]. intros [r l] k2 [Hk2 [f2 E2]].
    assert (k_files k2 !! fp = Some f) as Hf2 by (by subst).
    wstep (off_rep _ _ _ _ _ _ f). intros _ k3 Hk3.
    wstep fsm_iunlock. intros _ k4 [Hk4 _]. by rewrite relock in Hk4.
Qed.
Lemma filewrite_loop_rep fuel o k P R L fp addr n i :
  krep o k P R L → wlp (filewrite_loop fuel fp addr n i) (λ _ k', krep o k' P R L) k.
Proof.
  revert k i. induction fuel as [|fuel IH]; intros k i Hk; simpl; [done|]. destruct (negb (i <? n)); [done|].
  apply wlp_bind, get_file_wlp. intros f Hf.
  wstep fsm_begin. intros _ k0 [Hk0 [f0 E0]]. wstep fsm_ilock. intros _ k1 [[Hk1 Hl] [f1 E1]].
  apply wlp_bind. eapply wlp_mono; [|eapply (fsm_keeps _ _ _ _ _ _ Hk1); auto with ikeeps]. intros r k2 [Hk2 [f2 E2]].
  assert (k_files k2 !! fp = Some f) as Hf2 by (by subst).
  wstep (off_rep _ _ _ _ _ _ f). intros _ k3 Hk3.
  wstep fsm_iunlock. intros _ k4 [Hk4 _]. rewrite relock in Hk4 by done. wstep fsm_end. intros _ k5 [Hk5 _].
  destruct (r <? 0); [done|]. destruct (negb _); [done|]. by apply IH.
Qed.
Lemma filewrite_rep o k P R L fp addr n : krep o k P R L → wlp (filewrite fp addr n) (λ _ k', krep o k' P R L) k.
Proof.
  intros Hk. unfold filewrite. apply wlp_bind, get_file_wlp. intros f Hf. destruct (_ =? 0); [done|]. destruct (f_type f); [done| |].
  - apply wlp_bind. unfold wlp at 1. simpl. wstep pipewrite_rep. by intros r k1 Hk1.
  - wstep filewrite_loop_rep. by intros r k1 Hk1.
Qed.
End files.
