(* ===== verification/Sysfile.v ===== *)
(** * File system calls (sysfile.c) and their arguments (syscall.c)

    A path argument is the list of its characters before the NUL.  [name]
    buffers start with zeros where the code leaves them uninitialised; nameiparent
    fills them before they are read. *)

From S2P Require Import Prelude CStr Monitor Pipe Sleeplock Bytes Blocks Log Fs File.

Definition O_RDONLY : Z := 0.
Definition O_WRONLY : Z := 1.
Definition O_RDWR : Z := 2.
Definition O_CREATE : Z := 512.
Definition MAXARG : nat := 32.
Definition has_flag (mode flag : Z) : bool := negb (Z.land mode flag =? 0).
Definition DOT : list Z := [46; 0].
Definition DOTDOT : list Z := [46; 46; 0].
Definition no_name : list Z := replicate DIRSIZ 0.

Section code.
Context {S : Type} `{!BlockOps S} `{!DevSw (fstate S)}.
Abbreviation KM := (M (kst S)).
Abbreviation FM := (M (fstate S)).
Implicit Types k : kst S.

(** *** Arguments *)
Definition fetchint (addr : Z) : KM (option Z) :=
  k ← get;
  let u := k_user k in
  if (u_sz u <=? addr) || (u_sz u <? u32 (addr + 4)) then mret None
  else mret (Some (i32 (get32 (u_mem u) (Z.to_nat addr)))).
(** The string itself, whose length the code returns. *)
Definition fetchstr (addr : Z) : KM (option (list Z)) :=
  k ← get;
  let u := k_user k in
  if u_sz u <=? addr then mret None else
  let s := drop (Z.to_nat addr) (take (Z.to_nat (u_sz u)) (u_mem u)) in
  mret ((λ n, take n s) <$> find_index (Z.eqb 0) s).
Definition argint (n : Z) : KM (option Z) :=
  k ← get; fetchint (u32 (u_esp (k_user k) + 4 + 4 * n)).
Definition argptr (n size : Z) : KM (option Z) :=
  i ← argint n;
  match i with
  | None => mret None
  | Some i =>
      k ← get;
      let sz := u_sz (k_user k) in
      if (size <? 0) || (sz <=? u32 i) || (sz <? u32 (u32 i + size)) then mret None else mret (Some (u32 i))
  end.
Definition argstr (n : Z) : KM (option (list Z)) :=
  a ← argint n;
  match a with None => mret None | Some a => fetchstr (u32 a) end.

(** Bytes at a user address. *)
Definition user_bytes (p n : Z) : KM (list Z) :=
  k ← get; mret (take (Z.to_nat n) (drop (Z.to_nat p) (u_mem (k_user k)))).
Definition store_user (p : Z) (l : list Z) : KM unit :=
  k ← get;
  let u := k_user k in
  modify (with_user (mkUser (u_sz u) (u_esp u) (splice (Z.to_nat p) l (u_mem u)))).

Definition argfd (n : Z) : KM (option (Z * nat)) :=
  fd ← argint n;
  match fd with
  | None => mret None
  | Some fd =>
      if (fd <? 0) || (Z.of_nat NOFILE <=? fd) then mret None else
      k ← get;
      f ← array_get "ofile" (k_ofile k) fd;
      match f with None => mret None | Some f => mret (Some (fd, f)) end
  end.
Definition fdalloc (f : nat) : KM (option nat) :=
  k ← get;
  match find_index (λ o : option nat, bool_decide (o = None)) (k_ofile k) with
  | Some fd => modify (with_ofile <[fd := Some f]>) ;; mret (Some fd)
  | None => mret None
  end.

(** *** Descriptors *)
Definition sys_dup : KM Z :=
  a ← argfd 0;
  match a with
  | None => mret (-1)
  | Some (_, f) =>
      fd ← fdalloc f;
      match fd with None => mret (-1) | Some fd => filedup f ;; mret (Z.of_nat fd) end
  end.
(** The three arguments of read and write. *)
Definition args_rw : KM (option (nat * Z * Z)) :=
  a ← argfd 0;
  match a with
  | None => mret None
  | Some (_, f) =>
      n ← argint 2;
      match n with
      | None => mret None
      | Some n => p ← argptr 1 n; mret ((λ p, (f, n, p)) <$> p)
      end
  end.
Definition sys_read : KM Z :=
  a ← args_rw;
  match a with
  | None => mret (-1)
  | Some (f, n, p) => '(r, l) ← fileread f n; store_user p l ;; mret r
  end.
Definition sys_write : KM Z :=
  a ← args_rw;
  match a with
  | None => mret (-1)
  | Some (f, n, p) => l ← user_bytes p n; filewrite f l n
  end.
Definition sys_close : KM Z :=
  a ← argfd 0;
  match a with
  | None => mret (-1)
  | Some (fd, f) => modify (with_ofile <[Z.to_nat fd := None]>) ;; fileclose f ;; mret 0
  end.
(** [struct stat]: 16-bit type, 32-bit dev and ino, 16-bit nlink, 32-bit size,
    with the alignment gaps the compiler leaves. *)
Definition STAT : Z := 20.
Definition put_stat (st : stat_t) (d : list Z) : list Z :=
  put32 16 (st_size st) (put16 12 (st_nlink st) (put32 8 (st_ino st) (put32 4 (st_dev st) (put16 0 (st_type st) d)))).
Definition sys_fstat : KM Z :=
  a ← argfd 0;
  match a with
  | None => mret (-1)
  | Some (_, f) =>
      p ← argptr 1 STAT;
      match p with
      | None => mret (-1)
      | Some p =>
          st ← filestat f;
          match st with
          | None => mret (-1)
          | Some st => l ← user_bytes p STAT; store_user p (put_stat st l) ;; mret 0
          end
      end
  end.

(** *** Names *)
Definition link_bad (ip : nat) : KM Z :=
  fsm (ilock ip) ;;
  fsm (upd_disk (λ d, with_nlink (i16 (d_nlink d - 1)) d) ip) ;;
  fsm (iupdate ip) ;;
  fsm (iunlockput ip) ;;
  fsm (logm end_op) ;;
  mret (-1).
Definition sys_link : KM Z :=
  old ← argstr 0;
  match old with
  | None => mret (-1)
  | Some old =>
  new ← argstr 1;
  match new with
  | None => mret (-1)
  | Some new =>
  fsm (logm begin_op) ;;
  ip ← fsm (namei old);
  match ip with
  | None => fsm (logm end_op) ;; mret (-1)
  | Some ip =>
      fsm (ilock ip) ;;
      i ← fsm (get_inode ip);
      if i_type i =? T_DIR then fsm (iunlockput ip) ;; fsm (logm end_op) ;; mret (-1) else
      fsm (upd_disk (λ d, with_nlink (i16 (d_nlink d + 1)) d) ip) ;;
      fsm (iupdate ip) ;;
      fsm (iunlock ip) ;;
      dp ← fsm (nameiparent new no_name);
      match dp with
      | None => link_bad ip
      | Some (dp, name) =>
          fsm (ilock dp) ;;
          d ← fsm (get_inode dp);
          i ← fsm (get_inode ip);
          bad ← (if negb (i_dev d =? i_dev i) then mret true
                 else r ← fsm (dirlink dp name (i_inum i)); mret (r <? 0));
          if (bad : bool) then fsm (iunlockput dp) ;; link_bad ip
          else
            fsm (iunlockput dp) ;;
            fsm (iput ip) ;;
            fsm (logm end_op) ;;
            mret 0
      end
  end end end.

Fixpoint isdirempty_from (dp : nat) (ks : list nat) : FM bool :=
  match ks with
  | [] => mret true
  | n :: ks' =>
      de ← read_dirent dp (Z.of_nat n * DIRENT) "isdirempty: readi";
      if negb (de_inum de =? 0) then mret false else isdirempty_from dp ks'
  end.
Definition isdirempty (dp : nat) : FM bool :=
  i ← get_inode dp; isdirempty_from dp (drop 2 (entries (i_size i))).

Definition unlink_bad (dp : nat) : KM Z :=
  fsm (iunlockput dp) ;; fsm (logm end_op) ;; mret (-1).
Definition sys_unlink : KM Z :=
  path ← argstr 0;
  match path with
  | None => mret (-1)
  | Some path =>
  fsm (logm begin_op) ;;
  dp ← fsm (nameiparent path no_name);
  match dp with
  | None => fsm (logm end_op) ;; mret (-1)
  | Some (dp, name) =>
      fsm (ilock dp) ;;
      c1 ← fsm (namecmp name DOT);
      if c1 =? 0 then unlink_bad dp else
      c2 ← fsm (namecmp name DOTDOT);
      if c2 =? 0 then unlink_bad dp else
      r ← fsm (dirlookup dp name);
      match r with
      | None => unlink_bad dp
      | Some (ip, off) =>
          fsm (ilock ip) ;;
          i ← fsm (get_inode ip);
          if i_nlink i <? 1 then panic "unlink: nlink < 1" else
          full ← (if i_type i =? T_DIR then e ← fsm (isdirempty ip); mret (negb e) else mret false);
          if (full : bool) then fsm (iunlockput ip) ;; unlink_bad dp else
          w ← fsm (writei dp (replicate 16 0) off DIRENT);
          if negb (w =? DIRENT) then panic "unlink: writei" else
          i ← fsm (get_inode ip);
          when (i_type i =? T_DIR)
            (fsm (upd_disk (λ d, with_nlink (i16 (d_nlink d - 1)) d) dp) ;; fsm (iupdate dp)) ;;
          fsm (iunlockput dp) ;;
          fsm (upd_disk (λ d, with_nlink (i16 (d_nlink d - 1)) d) ip) ;;
          fsm (iupdate ip) ;;
          fsm (iunlockput ip) ;;
          fsm (logm end_op) ;;
          mret 0
      end
  end end.

(** create: the inode, locked. *)
Definition create (path : list Z) (type major minor : Z) : FM (option nat) :=
  r ← nameiparent path no_name;
  match r with
  | None => mret None
  | Some (dp, name) =>
      ilock dp ;;
      e ← dirlookup dp name;
      match e with
      | Some (ip, _) =>
          iunlockput dp ;;
          ilock ip ;;
          i ← get_inode ip;
          if (type =? T_FILE) && (i_type i =? T_FILE) then mret (Some ip)
          else iunlockput ip ;; mret None
      | None =>
          d ← get_inode dp;
          ip ← ialloc (i_dev d) type;
          ilock ip ;;
          upd_disk (λ x, with_nlink 1 (with_dev major minor x)) ip ;;
          iupdate ip ;;
          i ← get_inode ip;
          when (type =? T_DIR)
            (upd_disk (λ x, with_nlink (i16 (d_nlink x + 1)) x) dp ;;
             iupdate dp ;;
             r1 ← dirlink ip DOT (i_inum i);
             if r1 <? 0 then panic "create dots" else
             d ← get_inode dp;
             r2 ← dirlink ip DOTDOT (i_inum d);
             if r2 <? 0 then panic "create dots" else mret tt) ;;
          r ← dirlink dp name (i_inum i);
          if r <? 0 then panic "create: dirlink" else
          iunlockput dp ;;
          mret (Some ip)
      end
  end.

(** open's inode, locked: created, or found and allowed. *)
Definition open_inode (path : list Z) (omode : Z) : FM (option nat) :=
  if has_flag omode O_CREATE then create path T_FILE 0 0
  else
    r ← namei path;
    match r with
    | None => mret None
    | Some ip =>
        ilock ip ;;
        i ← get_inode ip;
        if (i_type i =? T_DIR) && negb (omode =? O_RDONLY) then iunlockput ip ;; mret None
        else mret (Some ip)
    end.
Definition sys_open : KM Z :=
  path ← argstr 0;
  match path with
  | None => mret (-1)
  | Some path =>
  om ← argint 1;
  match om with
  | None => mret (-1)
  | Some omode =>
  fsm (logm begin_op) ;;
  r ← fsm (open_inode path omode);
  match r with
  | None => fsm (logm end_op) ;; mret (-1)
  | Some ip =>
      f ← filealloc;
      fd ← match f with None => mret None | Some f => fdalloc f end;
      match f, fd with
      | Some f, Some fd =>
          fsm (iunlock ip) ;;
          fsm (logm end_op) ;;
          upd_file (λ x, mkFile FD_INODE (f_ref x)
                           (if has_flag omode O_WRONLY then 0 else 1)
                           (if has_flag omode O_WRONLY || has_flag omode O_RDWR then 1 else 0)
                           (f_pipe x) ip 0) f ;;
          mret (Z.of_nat fd)
      | _, _ =>
          match f with Some f => fileclose f | None => mret tt end ;;
          fsm (iunlockput ip) ;;
          fsm (logm end_op) ;;
          mret (-1)
      end
  end end end.

(** mkdir and mknod after begin_op. *)
Definition make_node (path : list Z) (type major minor : Z) : KM Z :=
  r ← fsm (create path type major minor);
  match r with
  | None => fsm (logm end_op) ;; mret (-1)
  | Some ip => fsm (iunlockput ip) ;; fsm (logm end_op) ;; mret 0
  end.
Definition sys_mkdir : KM Z :=
  fsm (logm begin_op) ;;
  path ← argstr 0;
  match path with
  | None => fsm (logm end_op) ;; mret (-1)
  | Some path => make_node path T_DIR 0 0
  end.
Definition sys_mknod : KM Z :=
  fsm (logm begin_op) ;;
  path ← argstr 0;
  match path with
  | None => fsm (logm end_op) ;; mret (-1)
  | Some path =>
      major ← argint 1;
      match major with
      | None => fsm (logm end_op) ;; mret (-1)
      | Some major =>
          minor ← argint 2;
          match minor with
          | None => fsm (logm end_op) ;; mret (-1)
          | Some minor => make_node path T_DEV (i16 major) (i16 minor)
          end
      end
  end.
Definition with_cwd (ip : nat) (f : fstate S) : fstate S :=
  mkFs (fs_log f) (fs_inodes f) (fs_ilocked f) (fs_sb f) (fs_pid f) ip.
Definition sys_chdir : KM Z :=
  fsm (logm begin_op) ;;
  path ← argstr 0;
  match path with
  | None => fsm (logm end_op) ;; mret (-1)
  | Some path =>
  r ← fsm (namei path);
  match r with
  | None => fsm (logm end_op) ;; mret (-1)
  | Some ip =>
      fsm (ilock ip) ;;
      i ← fsm (get_inode ip);
      if negb (i_type i =? T_DIR) then fsm (iunlockput ip) ;; fsm (logm end_op) ;; mret (-1) else
      fsm (iunlock ip) ;;
      cwd ← fsm (gets fs_cwd);
      fsm (iput cwd) ;;
      fsm (logm end_op) ;;
      fsm (modify (with_cwd ip)) ;;
      mret 0
  end end.

(** The argument vector of exec, at most MAXARG - 1 strings and the null pointer;
    [None] is the early return of -1. *)
Fixpoint exec_argv (uargv : Z) (r : nat) (i : Z) : KM (option (list (list Z))) :=
  match r with
  | O => mret None
  | Datatypes.S r' =>
      a ← fetchint (u32 (uargv + 4 * i));
      match a with
      | None => mret None
      | Some uarg =>
          if uarg =? 0 then mret (Some []) else
          s ← fetchstr (u32 uarg);
          match s with
          | None => mret None
          | Some s => l ← exec_argv uargv r' (i + 1); mret (cons s <$> l)
          end
      end
  end.
Definition exec_args : KM (option (list Z * list (list Z))) :=
  path ← argstr 0;
  match path with
  | None => mret None
  | Some path =>
      ua ← argint 1;
      match ua with
      | None => mret None
      | Some ua => l ← exec_argv (u32 ua) MAXARG 0; mret (pair path <$> l)
      end
  end.

(** [exec] of exec.c is an argument, a function of the strings of the path and of the arguments. *)
Definition sys_exec (exec : list Z → list (list Z) → KM Z) : KM Z :=
  a ← exec_args;
  match a with
  | None => mret (-1)
  | Some (path, argv) => exec path argv
  end.

Definition sys_pipe : KM Z :=
  p ← argptr 0 8;
  match p with
  | None => mret (-1)
  | Some fd =>
      r ← pipealloc;
      match r with
      | None => mret (-1)
      | Some (rf, wf) =>
          fd0 ← fdalloc rf;
          fd1 ← match fd0 with None => mret None | Some _ => fdalloc wf end;
          match fd0, fd1 with
          | Some a, Some b =>
              l ← user_bytes fd 8;
              store_user fd (put32 4 (Z.of_nat b) (put32 0 (Z.of_nat a) l)) ;;
              mret 0
          | _, _ =>
              match fd0 with Some a => modify (with_ofile <[a := None]>) | None => mret tt end ;;
              fileclose rf ;;
              fileclose wf ;;
              mret (-1)
          end
      end
  end.
End code.
