(* ===== verification/Syscalls.v ===== *)
(** * System calls keep the reference counts (sysfile.c)

    Every file system call, on every path through it, errors included, gives back
    the locks it took, closes the transaction it opened, and leaves the reference
    counts of the file table and of the inode cache equal to the number of
    pointers that remain. *)

From S2P Require Import Prelude CStr Monitor Pipe Sleeplock Bytes Blocks Log Fs Icache File Ftable Sysfile.

Section calls.
Context {S : Type} `{!BlockOps S} `{!DevSw (fstate S)} `{!DevSwOk S}.
Abbreviation KM := (M (kst S)).
Implicit Types (k : kst S) (P : list nat) (R : list ptr) (L : gset nat) (o : ctx).

(** Between system calls: no inode lock is held, and the current directory is one
    of the pointers. *)
Definition at_rest o k P R : Prop := ∃ key, krep o k P ((c_cwd o, key) :: R) ∅.

(** *** Arguments are read, not changed *)
Definition pure {A} (m : KM A) : Prop := ∀ k a k', m k = Ok a k' → k' = k.
Lemma pure_ret {A} (a : A) : pure (mret a).
Proof. by intros k b k' [= _ <-]. Qed.
Lemma pure_get : pure get.
Proof. by intros k b k' [= _ <-]. Qed.
Lemma pure_bind {A B} (m : KM A) (h : A → KM B) : pure m → (∀ a, pure (h a)) → pure (m ≫= h).
Proof. intros Hm Hh k b k' (a & k1 & H1 & H2)%bind_ok. apply Hh in H2 as ->. by apply Hm in H1. Qed.
Lemma pure_array_get {A} w (l : list A) i : pure (array_get w l i).
Proof. by intros k b k' (_ & _ & ->)%array_get_inv. Qed.
Lemma pure_if {A} (b : bool) (m1 m2 : KM A) : pure m1 → pure m2 → pure (if b then m1 else m2).
Proof. by destruct b. Qed.
Ltac solve_pure :=
  repeat first [progress intros | apply pure_ret | apply pure_get | apply pure_array_get | apply pure_bind | apply pure_if
               | assumption | match goal with |- pure (match ?x with _ => _ end) => destruct x end].
Lemma pure_argint n : pure (argint n).
Proof. unfold argint, fetchint. solve_pure. Qed.
Lemma pure_fetchint a : pure (fetchint a).
Proof. unfold fetchint. solve_pure. Qed.
Lemma pure_fetchstr a : pure (fetchstr a).
Proof. unfold fetchstr. solve_pure. Qed.
Lemma pure_argptr n size : pure (argptr n size).
Proof. pose proof (pure_argint n). unfold argptr. solve_pure. Qed.
Lemma pure_argstr n : pure (argstr n).
Proof. pose proof (pure_argint n). pose proof pure_fetchstr. unfold argstr. solve_pure; auto. Qed.
Lemma pure_user_bytes p n : pure (user_bytes p n).
Proof. unfold user_bytes. solve_pure. Qed.
(** A descriptor argument names a file of the process. *)
Lemma argfd_wlp n k :
  wlp (argfd n) (λ r k', k' = k ∧ match r with None => True | Some (fd, f) => 0 ≤ fd ∧ k_ofile k !! Z.to_nat fd = Some (Some f) end) k.
Proof.
  apply wlp_ok. intros r k' H. unfold argfd in H. inv_bind. apply pure_argint in H0 as ->.
  destruct a as [fd|]; [|by inv_bind]. destruct (_ || _); [by inv_bind|]. inv_bind.
  match goal with H : match ?x with _ => _ end _ = _ |- _ => destruct x end; by inv_bind.
Qed.
Lemma pure_argfd n : pure (argfd n).
Proof. intros k a k' H. pose proof (argfd_wlp n k) as Hw. unfold wlp in Hw. rewrite H in Hw. apply Hw. Qed.
Lemma pure_step {A B} (m : KM A) (h : A → KM B) k Q : pure m → (∀ a, wlp (h a) Q k) → wlp (m ≫= h) Q k.
Proof. intros Hm Hh. apply wlp_bind, wlp_ok. intros a k' ->%Hm. apply Hh. Qed.

(** *** Descriptors *)
Lemma descriptors_elem l fd f : l !! fd = Some (Some f) → f ∈ descriptors l.
Proof. intros H. apply list_elem_of_omap. exists (Some f). split; [by eapply list_elem_of_lookup_2|done]. Qed.
Lemma descriptors_insert l fd x y :
  l !! fd = Some x → ∃ r, descriptors l ≡ₚ option_list x ++ r ∧ descriptors (<[fd := y]> l) ≡ₚ option_list y ++ r.
Proof.
  intros H. destruct (list_insert_split l fd x y H) as (l' & H1 & H2). exists (descriptors l').
  rewrite H2. rewrite H1. destruct x, y; simpl; done.
Qed.
(** A pointer moves between the descriptors and the other pointers. *)
Lemma krep_ofile o k P P' R L fd x y :
  krep o k P R L → k_ofile k !! fd = Some x → option_list x ++ P ≡ₚ option_list y ++ P' →
  krep o (with_ofile <[fd := y]> k) P' R L.
Proof.
  intros [Hk Hp] Hx HP. split; [|done]. destruct (descriptors_insert _ _ x y Hx) as (r & Hr & Hr').
  assert (descriptors (<[fd := y]> (k_ofile k)) ++ P' ≡ₚ descriptors (k_ofile k) ++ P) as E.
  { rewrite Hr, Hr', <- !app_assoc, (Permutation_app_comm r P'), (Permutation_app_comm r P), !app_assoc. by rewrite HP. }
  constructor; simpl; try by apply Hk.
  - rewrite length_insert. apply Hk.
  - intros j f. rewrite E. apply (kr_ref _ _ _ _ _ Hk).
  - intros j. rewrite E. apply (kr_in _ _ _ _ _ Hk).
Qed.
Lemma fdalloc_run f k :
  (∃ fd, fdalloc f k = Ok (Some fd) (with_ofile <[fd := Some f]> k) ∧ k_ofile k !! fd = Some None) ∨
  (fdalloc f k = Ok None k ∧ ∀ fd, k_ofile k !! fd ≠ Some None).
Proof.
  unfold fdalloc, mbind, M_bind, get. destruct (find_index _ _) as [fd|] eqn:E.
  - apply find_index_Some in E as (x & Hx & Hb & _). apply bool_decide_eq_true in Hb as ->. left. by exists fd.
  - right. split; [done|]. intros fd Hfd. rewrite find_index_None in E. specialize (E fd None Hfd). by apply bool_decide_eq_false in E.
Qed.
Lemma fdalloc_wlp o k P R L f :
  krep o k (f :: P) R L →
  wlp (fdalloc f) (λ r k', match r with
     | None => k' = k
     | Some fd => krep o k' P R L ∧ k_ofile k' !! fd = Some (Some f) ∧ k_files k' = k_files k end) k.
Proof.
  intros Hk. unfold wlp. destruct (fdalloc_run f k) as [(fd & -> & Hfd)|[-> _]]; [|done]. split_and!; [|simpl|done].
  - by eapply krep_ofile.
  - apply list_lookup_insert_eq. by eapply lookup_lt_Some.
Qed.

(** *** Inodes by name *)
Abbreviation FM := (M (fstate S)).
Implicit Types f : fstate S.
Lemma ikeeps_step {A B} (m : FM A) (h : A → FM B) o f R L Q :
  irep o f R L → ikeeps o m → (∀ a f', irep o f' R L → wlp (h a) Q f') → wlp (m ≫= h) Q f.
Proof. intros Hf Hm Hh. apply wlp_bind. eapply wlp_mono; [|by apply Hm]. intros a f' Hf'. by apply Hh. Qed.
Hint Resolve ikeeps_dirlink : ikeeps.
Ltac keep := eapply ikeeps_step; [eassumption|solve_ikeeps|].

Lemma nameiparent_rep o f R L path name key :
  irep o f R L → (c_cwd o, key) ∈ R →
  wlp (nameiparent path name) (λ r f', match r with None => irep o f' R L | Some (ip, _) => ∃ ki, irep o f' ((ip, ki) :: R) L end) f.
Proof. intros Hf Hc. by eapply namex_rep. Qed.
Lemma namei_rep o f R L path key :
  irep o f R L → (c_cwd o, key) ∈ R →
  wlp (namei path) (λ r f', match r with None => irep o f' R L | Some ip => ∃ ki, irep o f' ((ip, ki) :: R) L end) f.
Proof.
  intros Hf Hc. unfold namei. wstep namex_rep. by intros [[ip name]|] f' Hf'.
Qed.
Lemma create_rep o f R L path type major minor key :
  irep o f R L → (c_cwd o, key) ∈ R →
  wlp (create path type major minor)
    (λ r f', match r with None => irep o f' R L | Some ip => ∃ ki, irep o f' ((ip, ki) :: R) ({[ip]} ∪ L) ∧ ip ∉ L end) f.
Proof.
  intros Hf Hc. unfold create. wstep nameiparent_rep. intros [[dp name]|] f1; [|done]. intros [kd Hf1].
  wstep ilock_rep. intros _ f2 [Hd Hf2]. wstep dirlookup_rep. intros [[ip off]|] f3.
  - intros [ki Hf3]. rewrite Permutation_swap in Hf3. wstep iunlockput_rep. intros _ f4 [_ Hf4]. rewrite relock in Hf4 by done.
    wstep ilock_rep. intros _ f5 [Hi Hf5]. keep. intros i f6 Hf6. destruct (_ && _); [by exists ki|].
    wstep iunlockput_rep. intros _ f7 [_ Hf7]. by rewrite relock in Hf7.
  - intros Hf3. keep. intros d f4 Hf4. wstep ialloc_rep. intros ip f5 [ki Hf5]. wstep ilock_rep. intros _ f6 [Hi Hf6].
    do 3 (keep; intros ? ? ?). do 2 (keep; intros ? ? ?). case_match; [done|]. rewrite Permutation_swap in H3.
    wstep iunlockput_rep. intros _ f7 [_ Hf7]. exists ki. split; [|set_solver].
    by replace (({[ip]} ∪ ({[dp]} ∪ L)) ∖ {[dp]}) with ({[ip]} ∪ L : gset nat) in Hf7 by set_solver.
Qed.
Lemma open_inode_rep o f R L path omode key :
  irep o f R L → (c_cwd o, key) ∈ R →
  wlp (open_inode path omode)
    (λ r f', match r with None => irep o f' R L | Some ip => ∃ ki, irep o f' ((ip, ki) :: R) ({[ip]} ∪ L) ∧ ip ∉ L end) f.
Proof.
  intros Hf Hc. unfold open_inode. destruct (has_flag _ _); [by eapply create_rep|].
  wstep namei_rep. intros [ip|] f1; [|done]. intros [ki Hf1]. wstep ilock_rep. intros _ f2 [Hi Hf2].
  keep. intros i f3 Hf3. destruct (_ && _); [|by exists ki]. wstep iunlockput_rep. intros _ f4 [_ Hf4]. by rewrite relock in Hf4.
Qed.

(** *** The same in the larger state *)
Lemma fsm_keep_step {A B} (m : FM A) (h : A → KM B) o k P R L Q :
  krep o k P R L → ikeeps o m → (∀ a k', krep o k' P R L → wlp (h a) Q k') → wlp (fsm m ≫= h) Q k.
Proof.
  intros Hk Hm Hh. apply wlp_bind. eapply wlp_mono; [|by eapply fsm_keeps]. intros a k' [Hk' _]. by apply Hh.
Qed.
Ltac kkeep := eapply fsm_keep_step; [eassumption|solve_ikeeps|].
Lemma fsm_namei o k P R L path key :
  krep o k P ((c_cwd o, key) :: R) L →
  wlp (fsm (namei path)) (λ r k', match r with
    | None => krep o k' P ((c_cwd o, key) :: R) L
    | Some ip => ∃ ki, krep o k' P ((ip, ki) :: (c_cwd o, key) :: R) L end) k.
Proof.
  intros Hk. eapply wlp_mono; [|apply (fsm_pointer _ id _ _ _ _ _ (λ _, L) Hk)]; [by intros r k' [? _]|].
  intros I f Hf. eapply namei_rep; [done|]. rewrite elem_of_app, elem_of_cons. auto.
Qed.
Lemma fsm_nameiparent o k P R R0 L path name key :
  krep o k P (R0 ++ (c_cwd o, key) :: R) L →
  wlp (fsm (nameiparent path name)) (λ r k', match r with
    | None => krep o k' P (R0 ++ (c_cwd o, key) :: R) L
    | Some (ip, _) => ∃ ki, krep o k' P ((ip, ki) :: R0 ++ (c_cwd o, key) :: R) L end) k.
Proof.
  intros Hk. eapply wlp_mono; [|apply (fsm_pointer _ fst _ _ _ _ _ (λ _, L) Hk)]; [by intros [[ip n]|] k' [? _]|].
  intros I f Hf. eapply wlp_mono; [|eapply nameiparent_rep; [done|]].
  - by intros [[ip n]|] f'.
  - rewrite !elem_of_app, elem_of_cons. auto.
Qed.
Lemma fsm_dirlookup o k P R L dp name :
  krep o k P R L →
  wlp (fsm (dirlookup dp name)) (λ r k', match r with
    | None => krep o k' P R L
    | Some (ip, _) => ∃ ki, krep o k' P ((ip, ki) :: R) L end) k.
Proof.
  intros Hk. eapply wlp_mono; [|apply (fsm_pointer _ fst _ _ _ _ _ (λ _, L) Hk)]; [by intros [[ip n]|] k' [? _]|].
  intros I f Hf. eapply wlp_mono; [|by apply dirlookup_rep]. by intros [[ip n]|] f'.
Qed.
(** A call that returns a locked inode. *)
Lemma fsm_locked (m : FM (option nat)) o k P R key :
  (∀ f R L, irep o f R L → (c_cwd o, key) ∈ R →
     wlp m (λ r f', match r with None => irep o f' R L | Some ip => ∃ ki, irep o f' ((ip, ki) :: R) ({[ip]} ∪ L) ∧ ip ∉ L end) f) →
  krep o k P ((c_cwd o, key) :: R) ∅ →
  wlp (fsm m) (λ r k', match r with
    | None => krep o k' P ((c_cwd o, key) :: R) ∅
    | Some ip => ∃ ki, krep o k' P ((ip, ki) :: (c_cwd o, key) :: R) ({[ip]} ∪ ∅) end ∧ ∃ f', k' = with_fs f' k) k.
Proof.
  intros Hm Hk. apply (fsm_pointer m id _ _ _ _ _ (λ ip, {[ip]} ∪ ∅) Hk).
  intros I f Hf. eapply wlp_mono; [|eapply Hm; [done|rewrite elem_of_app, elem_of_cons; auto]].
  intros [ip|] f'; [|done]. intros (ki & Hi & _). by exists ki.
Qed.
(** The common end: drop the locked inode, close the transaction, return. *)
Lemma finish o k P R key ip ki (r : Z) :
  krep (tx_add 1 o) k P ((ip, ki) :: (c_cwd o, key) :: R) ({[ip]} ∪ ∅) →
  wlp (fsm (iunlockput ip) ;; fsm (logm end_op) ;; mret r) (λ _ k', krep o k' P ((c_cwd o, key) :: R) ∅) k.
Proof.
  intros Hk. wstep fsm_iunlockput. intros _ k1 [Hk1 _]. rewrite relock in Hk1 by set_solver.
  wstep fsm_end. by intros _ k2 [Hk2 _].
Qed.

(** *** The calls *)
Lemma sys_dup_rep o k P R L : krep o k P R L → wlp sys_dup (λ _ k', krep o k' P R L) k.
Proof.
  intros Hk. unfold sys_dup. apply wlp_bind. eapply wlp_mono; [|apply argfd_wlp]. intros [[fd f]|] k1 [-> Hfd]; [|done].
  destruct Hfd as [_ Hfd]. unfold wlp, mbind, M_bind.
  destruct (fdalloc_run f k) as [(fd' & -> & Hn)|[-> _]]; [|done].
  destruct (krep_lookup _ _ _ _ _ f Hk) as (x & Hx & Hr); [rewrite elem_of_app; left; by eapply descriptors_elem|].
  rewrite (filedup_run _ f x); [|apply Hk|done|done].
  change (krep o (with_ofile <[fd' := Some f]> (with_files (alter (f_with_ref (f_ref x + 1)) f) k)) P R L).
  eapply krep_ofile; [by eapply krep_dup|done|done].
Qed.
Lemma args_rw_pure : pure args_rw.
Proof.
  pose proof pure_argfd. pose proof pure_argint. pose proof pure_argptr. unfold args_rw. solve_pure; auto.
Qed.
Lemma krep_user o k P R L u : krep o k P R L → krep o (with_user u k) P R L.
Proof. intros [Hk Hp]. split; [|done]. by destruct Hk. Qed.
Lemma sys_read_rep o k P R L : krep o k P R L → wlp sys_read (λ _ k', krep o k' P R L) k.
Proof.
  intros Hk. unfold sys_read. apply pure_step; [apply args_rw_pure|]. intros [[[f n] p]|]; [|done].
  wstep fileread_rep. intros [r l] k1 Hk1. apply wlp_bind. unfold wlp. simpl. by apply krep_user.
Qed.
Lemma sys_write_rep o k P R L : krep o k P R L → wlp sys_write (λ _ k', krep o k' P R L) k.
Proof.
  intros Hk. unfold sys_write. apply pure_step; [apply args_rw_pure|]. intros [[[f n] p]|]; [|done].
  apply pure_step; [apply pure_user_bytes|]. intros l. by apply filewrite_rep.
Qed.
Lemma sys_close_rep o k P R L : krep o k P R L → wlp sys_close (λ _ k', krep o k' P R L) k.
Proof.
  intros Hk. unfold sys_close. apply wlp_bind. eapply wlp_mono; [|apply argfd_wlp]. intros [[fd f]|] k1 [-> Hfd]; [|done].
  destruct Hfd as [_ Hfd]. apply wlp_bind. unfold wlp at 1. simpl.
  assert (krep o (with_ofile <[Z.to_nat fd := None]> k) (f :: P) R L) as Hk1 by (by eapply krep_ofile).
  wstep fileclose_rep. by intros _ k2 Hk2.
Qed.
Lemma sys_fstat_rep o k P R L : krep o k P R L → wlp sys_fstat (λ _ k', krep o k' P R L) k.
Proof.
  intros Hk. unfold sys_fstat. apply pure_step; [apply pure_argfd|]. intros [[fd f]|]; [|done].
  apply pure_step; [apply pure_argptr|]. intros [p|]; [|done]. wstep filestat_rep. intros [st|] k1 Hk1; [|done].
  apply pure_step; [apply pure_user_bytes|]. intros l. apply wlp_bind. unfold wlp. simpl. by apply krep_user.
Qed.
Lemma sys_pipe_rep o k P R L : krep o k P R L → wlp sys_pipe (λ _ k', krep o k' P R L) k.
Proof.
  intros Hk. unfold sys_pipe. apply pure_step; [apply pure_argptr|]. intros [p|]; [|done].
  wstep pipealloc_rep. intros [[a b]|] k1; [|done]. intros Hk1. wstep fdalloc_wlp. intros [fd0|] k2.
  - intros (Hk2 & Hfd0 & _). wstep fdalloc_wlp. intros [fd1|] k3.
    + intros (Hk3 & _). apply pure_step; [apply pure_user_bytes|]. intros l. apply wlp_bind. unfold wlp. simpl. by apply krep_user.
    + intros ->. apply wlp_bind. unfold wlp at 1. simpl.
      assert (krep o (with_ofile <[fd0 := None]> k2) (a :: b :: P) R L) as Hk3 by (by eapply krep_ofile).
      wstep fileclose_rep. intros _ k4 Hk4. wstep fileclose_rep. by intros _ k5 Hk5.
  - intros ->. do 2 (apply wlp_bind; unfold wlp at 1; simpl).
    wstep fileclose_rep. intros _ k4 Hk4. wstep fileclose_rep. by intros _ k5 Hk5.
Qed.

(** open's last step: the file takes over the pointer to the inode. *)
Lemma krep_open o k P R L fp (f : file) ip ki (g : file → file) :
  krep o k P ((ip, ki) :: R) L → k_files k !! fp = Some f → f_type f = FD_NONE → f_ref f = 1 →
  f_ref (g f) = 1 → f_type (g f) = FD_INODE → f_ip (g f) = ip → krep o (with_files (alter g fp) k) P R L.
Proof.
  intros [Hk Hp] Hf Ht Hr Hgr Hgt Hgi. destruct (kr_ino _ _ _ _ _ Hk) as (I & HI & Hrep). split.
  - apply (kbase_alter o k P P ((ip, ki) :: R) R L fp f g ((ip, ki) :: I) Hk Hf); try done.
    + rewrite Hgr, <- Hr. by apply (kr_ref _ _ _ _ _ Hk).
    + lia.
    + destruct (list_insert_split _ _ _ (g f) Hf) as (l & Hl & Hl'). rewrite Hl, inode_files_cons, decide_False in HI by congruence.
      rewrite Hl', inode_files_cons, decide_True by done. simpl. by rewrite HI, Hgi.
    + simpl. by rewrite Permutation_middle.
  - simpl. rewrite (alter_lookup_insert _ _ _ _ Hf). by apply (prep_insert _ _ _ _ f); [|rewrite Ht, Hgt|rewrite Ht|].
Qed.
Lemma sys_open_rep o k P R key :
  krep o k P ((c_cwd o, key) :: R) ∅ → wlp sys_open (λ _ k', krep o k' P ((c_cwd o, key) :: R) ∅) k.
Proof.
  intros Hk. unfold sys_open. apply pure_step; [apply pure_argstr|]. intros [path|]; [|done].
  apply pure_step; [apply pure_argint|]. intros [omode|]; [|done]. wstep fsm_begin. intros _ k1 [Hk1 _].
  apply wlp_bind. eapply wlp_mono; [|apply (fsm_locked _ (tx_add 1 o)); [|exact Hk1]].
  2: { intros f R1 L1 Hf Hc. by eapply open_inode_rep. }
  intros [ip|] k2 [Hk2 _]; [|wstep fsm_end; by intros _ k3 [Hk3 _]].
  destruct Hk2 as [ki Hk2]. apply wlp_bind, wp_wlp. eapply wp_mono; [|by apply filealloc_rep].
  intros [f|] k3.
  2: { intros [-> _]. unfold wlp. simpl. fold (wlp (fsm (iunlockput ip) ;; fsm (logm end_op) ;; mret (-1)) (λ _ k', krep o k' P ((c_cwd o, key) :: R) ∅) k2).
    by eapply finish. }
  intros (Hk3 & (x & Hx & Hxt & Hxr) & _ & _). wstep fdalloc_wlp. intros [fd|] k4.
  - intros (Hk4 & _ & E4). rewrite <- E4 in Hx.
    wstep fsm_iunlock. intros _ k5 [Hk5 [f5 E5]]. rewrite relock in Hk5 by set_solver. wstep fsm_end. intros _ k6 [Hk6 [f6 E6]].
    apply wlp_bind. unfold wlp. simpl. subst k6 k5. by eapply (krep_open _ _ _ _ _ f x).
  - intros ->. wstep fileclose_rep. intros _ k5 Hk5. by eapply finish.
Qed.
Lemma make_node_rep o k P R key path type major minor :
  krep (tx_add 1 o) k P ((c_cwd o, key) :: R) ∅ →
  wlp (make_node path type major minor) (λ _ k', krep o k' P ((c_cwd o, key) :: R) ∅) k.
Proof.
  intros Hk. unfold make_node. apply wlp_bind. eapply wlp_mono; [|apply (fsm_locked _ (tx_add 1 o)); [|exact Hk]].
  2: { intros f R1 L1 Hf Hc. by eapply create_rep. }
  intros [ip|] k2 [Hk2 _]; [|wstep fsm_end; by intros _ k3 [Hk3 _]]. destruct Hk2 as [ki Hk2]. by eapply finish.
Qed.
Lemma sys_mkdir_rep o k P R key :
  krep o k P ((c_cwd o, key) :: R) ∅ → wlp sys_mkdir (λ _ k', krep o k' P ((c_cwd o, key) :: R) ∅) k.
Proof.
  intros Hk. unfold sys_mkdir. wstep fsm_begin. intros _ k1 [Hk1 _]. apply pure_step; [apply pure_argstr|].
  intros [path|]; [by apply make_node_rep|]. wstep fsm_end. by intros _ k2 [Hk2 _].
Qed.
Lemma sys_mknod_rep o k P R key :
  krep o k P ((c_cwd o, key) :: R) ∅ → wlp sys_mknod (λ _ k', krep o k' P ((c_cwd o, key) :: R) ∅) k.
Proof.
  intros Hk. unfold sys_mknod. wstep fsm_begin. intros _ k1 [Hk1 _].
  assert (wlp (fsm (logm end_op) ;; mret (-1)) (λ _ k', krep o k' P ((c_cwd o, key) :: R) ∅) k1) as Hend.
  { wstep fsm_end. by intros _ k2 [Hk2 _]. }
  apply pure_step; [apply pure_argstr|]. intros [path|]; [|done].
  apply pure_step; [apply pure_argint|]. intros [major|]; [|done].
  apply pure_step; [apply pure_argint|]. intros [minor|]; [|done]. by apply make_node_rep.
Qed.
(** chdir moves the pointer of the current directory. *)
Lemma sys_chdir_rep o k P R key :
  krep o k P ((c_cwd o, key) :: R) ∅ → wlp sys_chdir (λ _ k', ∃ w, at_rest (mkCtx (c_tx o) w) k' P R) k.
Proof.
  intros Hk. unfold sys_chdir. wstep fsm_begin. intros _ k1 [Hk1 _].
  assert (∀ k', krep o k' P ((c_cwd o, key) :: R) ∅ → ∃ w, at_rest (mkCtx (c_tx o) w) k' P R) as Hdone.
  { intros k' Hk'. exists (c_cwd o), key. by destruct o. }
  apply pure_step; [apply pure_argstr|]. intros [path|].
  2: { wstep fsm_end. intros _ k2 [Hk2 _]. by apply Hdone. }
  wstep (fsm_namei (tx_add 1 o)). intros [ip|] k2.
  2: { intros Hk2. wstep fsm_end. intros _ k3 [Hk3 _]. by apply Hdone. }
  intros [ki Hk2]. change (c_cwd (tx_add 1 o)) with (c_cwd o) in Hk2. wstep fsm_ilock. intros _ k3 [[Hk3 _] _]. kkeep. intros i k4 Hk4. destruct (negb _).
  { wlast finish. intros _ k5 Hk5. by apply Hdone. }
  wstep fsm_iunlock. intros _ k5 [Hk5 _]. rewrite relock in Hk5 by set_solver. rewrite Permutation_swap in Hk5.
  apply wlp_bind. unfold wlp at 1. simpl. destruct (kr_ino _ _ _ _ _ (proj1 Hk5)) as (I & _ & Hi).
  rewrite (ir_cwd _ _ _ _ Hi). simpl.
  replace (with_fs (k_fs k5) k5) with k5 by (by destruct k5).
  wstep fsm_iput. intros _ k6 [Hk6 _]. wstep fsm_end. intros _ k7 [[Hk7 Hp7] _]. apply wlp_bind. unfold wlp. simpl.
  exists ip, ki. split; [|done]. clear Hi I. destruct Hk7 as [? ? ? ? ? ? (I & HI & Hi)]. constructor; try done.
  exists I. split; [done|]. by destruct Hi.
Qed.

Lemma link_bad_rep o k P R key ip ki :
  krep (tx_add 1 o) k P ((ip, ki) :: (c_cwd o, key) :: R) ∅ →
  wlp (link_bad ip) (λ _ k', krep o k' P ((c_cwd o, key) :: R) ∅) k.
Proof.
  intros Hk. unfold link_bad. wstep fsm_ilock. intros _ k1 [[Hk1 _] _]. do 2 (kkeep; intros ? ? ?). by eapply finish.
Qed.
Lemma sys_link_rep o k P R key :
  krep o k P ((c_cwd o, key) :: R) ∅ → wlp sys_link (λ _ k', krep o k' P ((c_cwd o, key) :: R) ∅) k.
Proof.
  intros Hk. unfold sys_link. apply pure_step; [apply pure_argstr|]. intros [old|]; [|done].
  apply pure_step; [apply pure_argstr|]. intros [new|]; [|done]. wstep fsm_begin. intros _ k1 [Hk1 _].
  wstep (fsm_namei (tx_add 1 o)). intros [ip|] k2; [|intros Hk2; wstep fsm_end; by intros _ k3 [Hk3 _]].
  intros [ki Hk2]. change (c_cwd (tx_add 1 o)) with (c_cwd o) in Hk2.
  wstep fsm_ilock. intros _ k3 [[Hk3 _] _]. kkeep. intros i k4 Hk4. destruct (_ =? T_DIR); [by eapply finish|].
  do 2 (kkeep; intros ? ? ?). wstep fsm_iunlock. intros _ k5 [Hk5 _]. rewrite relock in Hk5 by set_solver.
  apply wlp_bind. eapply wlp_mono; [|apply (fsm_nameiparent (tx_add 1 o) _ _ R [(ip, ki)] ∅ _ _ key Hk5)]. intros [[dp name]|] k6; [|intros Hk6; by eapply link_bad_rep].
  intros [kd Hk6]. change (c_cwd (tx_add 1 o)) with (c_cwd o) in Hk6. simpl in Hk6.
  wstep fsm_ilock. intros _ k7 [[Hk7 _] _]. do 2 (kkeep; intros ? ? ?).
  apply wlp_bind. eapply wlp_mono with (Q := λ _ k', krep (tx_add 1 o) k' P ((dp, kd) :: (ip, ki) :: (c_cwd o, key) :: R) ({[dp]} ∪ ∅)).
  2: { destruct (negb _); [done|]. kkeep. by intros. }
  intros bad k8 Hk8. destruct bad.
  - wstep fsm_iunlockput. intros _ k9 [Hk9 _]. rewrite relock in Hk9 by set_solver. by eapply link_bad_rep.
  - wstep fsm_iunlockput. intros _ k9 [Hk9 _]. rewrite relock in Hk9 by set_solver. wstep fsm_iput. intros _ k10 [Hk10 _].
    wstep fsm_end. by intros _ k11 [Hk11 _].
Qed.
Lemma ikeeps_isdirempty o dp : ikeeps (S := S) o (isdirempty dp).
Proof.
  unfold isdirempty. apply ikeeps_bind; [auto with ikeeps|]. intros i. generalize (drop 2 (entries (i_size i))). intros ks.
  induction ks as [|n ks IH]; simpl; solve_ikeeps.
Qed.
Hint Resolve ikeeps_isdirempty : ikeeps.
Lemma sys_unlink_rep o k P R key :
  krep o k P ((c_cwd o, key) :: R) ∅ → wlp sys_unlink (λ _ k', krep o k' P ((c_cwd o, key) :: R) ∅) k.
Proof.
  intros Hk. unfold sys_unlink, unlink_bad. apply pure_step; [apply pure_argstr|]. intros [path|]; [|done].
  wstep fsm_begin. intros _ k1 [Hk1 _].
  apply wlp_bind. eapply wlp_mono; [|apply (fsm_nameiparent (tx_add 1 o) _ _ R [] ∅ _ _ key Hk1)]. intros [[dp name]|] k2; [|intros Hk2; wstep fsm_end; by intros _ k3 [Hk3 _]].
  intros [kd Hk2]. change (c_cwd (tx_add 1 o)) with (c_cwd o) in Hk2. simpl in Hk2.
  wstep fsm_ilock. intros _ k3 [[Hk3 _] _]. kkeep. intros c1 k4 Hk4. destruct (c1 =? 0); [by eapply finish|].
  kkeep. intros c2 k5 Hk5. destruct (c2 =? 0); [by eapply finish|].
  wstep fsm_dirlookup. intros [[ip off]|] k6; [|intros Hk6; by eapply finish]. intros [ki Hk6].
  wstep fsm_ilock. intros _ k7 [[Hk7 Hi] _]. kkeep. intros i k8 Hk8. destruct (_ <? 1); [done|].
  apply wlp_bind. eapply wlp_mono with (Q := λ _ k', krep (tx_add 1 o) k' P ((ip, ki) :: (dp, kd) :: (c_cwd o, key) :: R) ({[ip]} ∪ ({[dp]} ∪ ∅))).
  2: { destruct (_ =? T_DIR); [|done]. kkeep. by intros. }
  intros full k9 Hk9. destruct full.
  - wstep fsm_iunlockput. intros _ k10 [Hk10 _]. rewrite relock in Hk10 by done. by eapply finish.
  - kkeep. intros w k10 Hk10. destruct (negb _); [done|]. kkeep. intros i' k11 Hk11.
    apply wlp_bind. eapply wlp_mono with (Q := λ _ k', krep (tx_add 1 o) k' P ((ip, ki) :: (dp, kd) :: (c_cwd o, key) :: R) ({[ip]} ∪ ({[dp]} ∪ ∅))).
    2: { destruct (_ =? T_DIR); [|done]. simpl. kkeep. intros [] kx Hkx. eapply wlp_mono; [|eapply fsm_keeps; [exact Hkx|auto with ikeeps]].
         by intros ? ? [? _]. }
    intros _ k12 Hk12. rewrite Permutation_swap in Hk12. wstep fsm_iunlockput. intros _ k13 [Hk13 _].
    replace (({[ip]} ∪ ({[dp]} ∪ ∅)) ∖ {[dp]}) with ({[ip]} ∪ ∅ : gset nat) in Hk13 by set_solver.
    do 2 (kkeep; intros ? ? ?). by eapply finish.
Qed.

Definition file_calls : list (KM Z) :=
  [sys_dup; sys_read; sys_write; sys_close; sys_fstat; sys_link; sys_unlink; sys_open; sys_mkdir; sys_mknod; sys_chdir; sys_pipe].
(** C16: every file system call, whatever its arguments and on every path through
    it, leaves the reference counts exact: if it returns, each file's count is the
    number of descriptors and other pointers to it, each inode's count the number
    of open files, current directories and other pointers to it, no two cache
    entries in use are for the same inode, no inode lock is held, the log counts
    as many operations as before, and the pipes are those with an open end, each
    end one open file. *)
Theorem file_calls_keep_counts o P R m k :
  m ∈ file_calls → at_rest o k P R → wlp m (λ _ k', ∃ w, at_rest (mkCtx (c_tx o) w) k' P R) k.
Proof.
  intros Hm [key Hk].
  assert (∀ m' : KM Z, wlp m' (λ _ k', krep o k' P ((c_cwd o, key) :: R) ∅) k →
            wlp m' (λ _ k', ∃ w, at_rest (mkCtx (c_tx o) w) k' P R) k) as Hdone.
  { intros m' Hm'. eapply wlp_mono; [|exact Hm']. intros r k' Hk'. exists (c_cwd o), key. by destruct o. }
  unfold file_calls in Hm. rewrite !elem_of_cons, elem_of_nil in Hm.
  destruct_or! Hm; try done; subst; first [by eapply sys_chdir_rep|apply Hdone];
    eauto using sys_dup_rep, sys_read_rep, sys_write_rep, sys_close_rep, sys_fstat_rep, sys_pipe_rep,
      sys_link_rep, sys_unlink_rep, sys_open_rep, sys_mkdir_rep, sys_mknod_rep.
Qed.
End calls.
