(* ===== verification/Filedemo.v ===== *)
(** * Instances for the file system theorems

    A machine with no devices, and a concrete state of the file system after boot
    over the buffer cache of bio.c, on which the theorems are applied. *)

From S2P Require Import Prelude CStr Monitor Pipe Sleeplock Blocks Bio Bytes Log Storage Fs Tx Bitmap Content Bmap Rw Inode Writei Filetx Files Icache File Ftable Sysfile Syscalls.

#[global] Instance no_devices : DevSw (fstate bst) := {| dev_read := λ _, None; dev_write := λ _, None |}.
#[global] Instance no_devices_ok : DevSwOk bst.
Proof. split; by intros. Qed.

(** The process has the root directory, in entry 0 of the cache, as its current
    directory and no open file; its stack, at the start of its memory, holds a
    return address and the argument 16. *)
Definition root_inode : inode := mkInode ROOTDEV ROOTINO 1 (initsleeplock "inode") 0 zero_dinode.
Definition free_inode : inode := mkInode 0 0 0 (initsleeplock "inode") 0 zero_dinode.
Definition free_file : file := mkFile FD_NONE 0 0 0 0 0 0.
Definition demo_fs : fstate bst :=
  mkFs (booted 1 2 (bss_bcache [] 1)) (root_inode :: replicate 49 free_inode) false
       (mkSb 0 0 0 0 0 0 0) 1 0.
Definition demo_user : user := mkUser 32 0 (replicate 4 0 ++ [16; 0; 0; 0] ++ replicate 24 7).
Definition demo_k : kst bst :=
  mkK demo_fs (replicate NFILE free_file) false (replicate NOFILE None) ∅ [5%nat] false demo_user.

Lemma replicate_Some {A} n (x y : A) i : replicate n x !! i = Some y → y = x.
Proof. intros [-> _]%lookup_replicate. done. Qed.
Lemma demo_inode j i : fs_inodes demo_fs !! j = Some i → (j = 0%nat ∧ i = root_inode) ∨ (j ≠ 0%nat ∧ i = free_inode).
Proof.
  change (fs_inodes demo_fs) with (root_inode :: replicate 49 free_inode). destruct j as [|j]; intros H; [left|right].
  - by injection H as <-.
  - split; [done|]. by apply (replicate_Some 49 free_inode i j).
Qed.
Lemma demo_irep : irep (mkCtx 0 0) demo_fs [(0%nat, (ROOTDEV, ROOTINO))] ∅.
Proof.
  constructor; try done.
  - intros j i [[-> ->]|[Hj ->]]%demo_inode; [done|]. rewrite nrefs_cons, decide_False by (simpl; congruence). done.
  - intros j k [= -> ->]%list_elem_of_singleton. by exists root_inode.
  - intros j j' k [= -> ->]%list_elem_of_singleton. by intros [= ->]%list_elem_of_singleton.
  - by intros j i [[-> ->]|[Hj ->]]%demo_inode.
Qed.
Lemma demo_at_rest : at_rest (mkCtx 0 0) demo_k [] [].
Proof.
  assert (∀ j f, k_files demo_k !! j = Some f → f = free_file) as Hfile.
  { intros j f. change (k_files demo_k) with (replicate 100 free_file). apply replicate_Some. }
  exists (ROOTDEV, ROOTINO). split; constructor.
  - reflexivity.
  - reflexivity.
  - reflexivity.
  - intros j f ->%Hfile. reflexivity.
  - intros j Hj. by apply elem_of_nil in Hj.
  - intros j f ->%Hfile. reflexivity.
  - exists []. split; [|exact demo_irep]. vm_compute. constructor.
  - intros j f ->%Hfile. discriminate.
  - intros j j' f f' ->%Hfile. discriminate.
  - intros q p w Hq. change ((∅ : gmap nat pipe) !! q = Some p) in Hq. by rewrite lookup_empty in Hq.
  - intros q p Hq. change ((∅ : gmap nat pipe) !! q = Some p) in Hq. by rewrite lookup_empty in Hq.
  - apply NoDup_singleton.
  - intros q _. apply lookup_empty.
Qed.
(** The call pipe(): descriptors 0 and 1 are stored at address 16. *)
Lemma demo_pipe_runs :
  match sys_pipe demo_k with
  | Ok r k' => (r =? 0) && bool_decide (k_ofile k' !! 1%nat = Some (Some 1%nat)) && (get32 (u_mem (k_user k')) 20 =? 1)
  | _ => false
  end = true.
Proof. vm_compute. reflexivity. Qed.
Lemma file_calls_keep_counts_witness :
  ∃ k' w, sys_pipe demo_k = Ok 0 k' ∧ at_rest (mkCtx 0 w) k' [] [] ∧
          k_ofile k' !! 1%nat = Some (Some 1%nat) ∧ get32 (u_mem (k_user k')) 20 = 1.
Proof.
  assert (sys_pipe (S := bst) ∈ file_calls) as Hin by (unfold file_calls; rewrite !elem_of_cons; tauto).
  pose proof (file_calls_keep_counts (mkCtx 0 0) [] [] sys_pipe demo_k Hin demo_at_rest) as H.
  pose proof demo_pipe_runs as Hc. revert H Hc. unfold wlp. generalize (sys_pipe demo_k).
  intros [r k'| | |]; [|discriminate..]. intros [w H]. rewrite !andb_true_iff, !Z.eqb_eq, bool_decide_eq_true.
  intros [[-> H1] H2]. exists k', w. split; [reflexivity|]. split; [exact H|]. split; assumption.
Defined.

(** * Instances for the theorems on files

    A disk of 26 blocks: the log in blocks 2 to 16, the inodes in block 17, the
    bitmap in block 18, data from block 19.  Inode 2 is a file of 510 bytes in
    block 19; blocks 20 to 25 are free. *)

Definition fd_sb : superblock := mkSb 26 7 8 15 2 17 18.
Definition fd_inode : dinode := mkDinode T_FILE 0 0 1 510 (19 :: replicate 12 0).
Definition fd_zero : block := replicate 512 0.
Definition fd_disk : list block :=
  replicate 17 fd_zero ++ [put_dinode (dip 2) fd_inode fd_zero; [255; 255; 15] ++ replicate 509 0; replicate 510 7 ++ [0; 0]] ++
  replicate 6 fd_zero.
Definition fd_i : inode := mkInode ROOTDEV 2 1 (initsleeplock "inode") 1 fd_inode.
Definition fd_view : bview := quiet fd_disk [].

Lemma fd_disk_ok : Forall (λ x, length x = BSIZE) fd_disk.
Proof. by apply (bool_decide_unpack _); vm_compute. Qed.
Lemma fd_geom : geom fd_sb (length (bv_dsk fd_view)) 19.
Proof.
  assert (∀ b, 0 ≤ b < 26 → BBLOCK b fd_sb = 18) as Hb by (intros b Hb; unfold BBLOCK, BPB; rewrite Z.div_small by lia; reflexivity).
  assert (∀ j, 0 ≤ j < 8 → IBLOCK j fd_sb = 17) as Hi by (intros j Hj; unfold IBLOCK, IPB; rewrite Z.div_small by lia; reflexivity).
  constructor; simpl; try lia.
  - intros b H. rewrite Hb by done. lia.
  - intros j b Hj H. rewrite Hb, Hi by done. lia.
  - intros b H. rewrite Hb by done. lia.
  - intros j H. rewrite Hi by done. lia.
Qed.
Lemma fd_used b : 0 ≤ b < 26 → used fd_sb fd_view b = (b <? 20).
Proof.
  assert (Forall (λ n : nat, used fd_sb fd_view (Z.of_nat n) = (Z.of_nat n <? 20)) (seq 0 26)) as H by (by apply (bool_decide_unpack _); vm_compute).
  rewrite Forall_forall in H. intros Hb. specialize (H (Z.to_nat b)). rewrite Z2Nat.id in H by lia. apply H, elem_of_seq. lia.
Qed.
Lemma fd_addr n : addr_at fd_view fd_inode n = if decide (n = 0%nat) then 19 else 0.
Proof.
  unfold addr_at. destruct (Nat.ltb_spec n 12); [|case_decide; [lia|reflexivity]].
  do 12 (destruct n as [|n]; [reflexivity|]). lia.
Qed.
Lemma fd_fwf : fwf fd_sb 19 fd_view fd_inode.
Proof.
  constructor.
  - reflexivity.
  - simpl. unfold MAXFILE, BSZ. lia.
  - intros n _. rewrite fd_addr. case_decide; [|done]. intros _. split; [simpl; lia|]. rewrite fd_used by lia. reflexivity.
  - by intros H.
  - intros n m _ _. rewrite !fd_addr. repeat case_decide; intros; congruence || lia.
  - intros n _. rewrite fd_addr. by case_decide.
  - intros n Hn. rewrite fd_addr. case_decide; [done|]. simpl in Hn. unfold BSZ in Hn. lia.
Qed.
Lemma fd_dinode_ok : dinode_ok fd_inode.
Proof.
  constructor; try (unfold s16; simpl; lia).
  - unfold s16. simpl. unfold T_FILE. lia.
  - by apply (bool_decide_unpack _); vm_compute.
Qed.
Lemma fd_frees : frees fd_sb 4 fd_view.
Proof.
  exists [20; 21; 22; 23]. split_and!; [by apply (bool_decide_unpack _); vm_compute|simpl; lia|].
  intros b Hb. assert (20 ≤ b ≤ 23) by (repeat (apply elem_of_cons in Hb as [->|Hb]; [lia|]); by apply elem_of_nil in Hb).
  split; [simpl; lia|]. rewrite fd_used by lia. lia.
Qed.
Lemma fd_on_disk : disk_inode fd_sb fd_view 2 = fd_inode.
Proof. vm_compute. reflexivity. Qed.
Lemma fd_old : file_on_disk fd_sb fd_disk 2 = replicate 510 7.
Proof. vm_compute. reflexivity. Qed.

(** The machine after boot; the file is in entry 0 of the inode cache. *)
Definition fd_fs (s : bst) : fstate bst := mkFs (booted 2 15 s) [fd_i] false fd_sb 1 0.
Lemma fd_idle : ∃ s, idle_file 2 15 fd_sb 19 (fd_fs s) fd_view 0 fd_i.
Proof.
  destruct (boot_lrep fd_disk 1 2 15 fd_disk_ok) as (s & _ & R); [apply Nat.leb_le; vm_compute; reflexivity|]. exists s. constructor; try done.
  - apply fd_geom.
  - intros b Hb. rewrite fd_used by lia. lia.
  - apply fd_fwf.
  - apply fd_dinode_ok.
Qed.
(** Four bytes across the end of the first block: the file gets a second one. *)
Definition fd_src : list Z := [1; 2; 3; 4].
Lemma file_write_atomic_witness :
  ∃ (f f' : fstate bst) v', write_tx 0 fd_src 510 4 f = Ok 4 f' ∧ lrep 2 15 (fs_log f') v' ∧
    file_on_disk fd_sb (bv_dsk v') 2 = replicate 510 7 ++ [1; 2; 3; 4].
Proof.
  destruct fd_idle as [s F].
  destruct (file_write_atomic 2 15 fd_sb 19 (fd_fs s) fd_view 0 fd_i 510 4 2 fd_src F) as (f' & v' & W & c & H & R & _ & [Hn _] & _);
    [simpl; lia|simpl; lia|unfold FBYTES, NBLOCKS; lia|intros _; simpl; lia|split; simpl; lia|exact fd_frees|].
  exists (fd_fs s), f', v'. split; [exact H|]. split; [exact R|].
  change (file_on_disk fd_sb (bv_dsk v') 2 = splice 510 (take 4 fd_src) (file_on_disk fd_sb fd_disk 2)) in Hn. rewrite Hn, fd_old. reflexivity.
Defined.
(** The same machine inside a transaction. *)
Lemma fd_synced : ∃ f : fstate bst, synced 2 15 1 fd_sb 19 f fd_view [] 0 fd_i.
Proof.
  destruct fd_idle as [s F]. destruct (begin_op_idle 2 15 (fd_fs s) fd_view (if_idle _ _ _ _ _ _ _ _ F)) as (f & _ & L & T).
  exists f. by eapply idle_synced.
Qed.
Lemma write_read_witness :
  ∃ f f' f'' : fstate bst, writei 0 fd_src 510 4 f = Ok 4 f' ∧ readi 0 509 100 f' = Ok (5, [7; 1; 2; 3; 4]) f''.
Proof.
  destruct fd_synced as [f F].
  destruct (write_read 2 15 1 fd_sb 19 ltac:(lia) f fd_view [] 0 fd_i 510 4 2 fd_src F) as (f' & H & Hr);
    [simpl; lia|simpl; lia|unfold FBYTES, NBLOCKS; lia|intros _; simpl; lia|split; simpl; lia|exact fd_frees|].
  destruct (Hr 509%nat 100%nat) as [f'' Hr'];
    [apply Nat.leb_le; vm_compute; reflexivity|simpl; lia|]. exists f, f', f''. split; [exact H|].
  assert (take 100 (drop 509 (splice 510 (take 4 fd_src) (content fd_view (i_disk fd_i)))) = [7; 1; 2; 3; 4]) as E by (vm_compute; reflexivity).
  rewrite E in Hr'. exact Hr'.
Defined.
Lemma readi_reads_file_witness :
  ∃ f f' : fstate bst, readi 0 508 10 f = Ok (2, [7; 7]) f' ∧ readi 0 511 1 f = Ok (-1, []) f.
Proof.
  destruct fd_synced as [f [F _ _ Ht _]].
  pose proof (readi_reads_file 2 15 1 fd_sb 19 f fd_view [] 0 fd_i 508 10 F Ht ltac:(lia) ltac:(lia) ltac:(simpl; lia)) as H1.
  pose proof (readi_reads_file 2 15 1 fd_sb 19 f fd_view [] 0 fd_i 511 1 F Ht ltac:(lia) ltac:(lia) ltac:(simpl; lia)) as H2.
  rewrite decide_True in H1 by (simpl; lia). rewrite decide_False in H2 by (simpl; lia). destruct H1 as (f' & H1 & _).
  assert (take (Z.to_nat 10) (drop (Z.to_nat 508) (content fd_view (i_disk fd_i))) = [7; 7]) as E by (vm_compute; reflexivity).
  rewrite E in H1. exists f, f'. split; [exact H1|exact H2].
Defined.
Lemma balloc_correct_witness : ∃ (f f' : fstate bst) b, balloc ROOTDEV f = Ok b f' ∧ 20 ≤ b < 26.
Proof.
  destruct fd_synced as [f [F _ _ _ _]]. pose proof F as [T Hsb G Hlog Hm _ _ _ _].
  destruct (balloc_correct 2 15 1 fd_sb 19 ltac:(lia) f fd_view [] T Hsb G Hlog Hm) as [H _].
  - split; [apply Nat.leb_le; reflexivity|]. intros i j Hi. discriminate Hi.
  - split; simpl; lia.
  - destruct H as (b & f' & v' & bl' & H & _ & _ & Hb & Hu & _); [exists 20; split; [simpl; lia|vm_compute; reflexivity]|].
    exists f, f', b. split; [exact H|]. simpl in Hb. rewrite fd_used in Hu by lia. apply Z.ltb_ge in Hu. lia.
Defined.
Lemma dinode_roundtrip_witness :
  dinode_at (put_dinode (dip 2) fd_inode fd_zero) (dip 2) = fd_inode ∧
  dinode_at (put_dinode (dip 2) fd_inode fd_zero) (dip 3) = zero_dinode.
Proof.
  destruct (dinode_roundtrip 2 fd_inode fd_zero fd_dinode_ok eq_refl) as (H1 & _ & H2). split; [exact H1|].
  rewrite (H2 3) by discriminate. vm_compute. reflexivity.
Defined.
Lemma writei_well_formed_witness :
  ∃ (f f' : fstate bst) v' bl' d', writei 0 fd_src 510 4 f = Ok 4 f' ∧ synced 2 15 1 fd_sb 19 f' v' bl' 0 (with_disk d' fd_i) ∧ d_size d' = 514.
Proof.
  destruct fd_synced as [f F].
  destruct (writei_well_formed 2 15 1 fd_sb 19 ltac:(lia) f fd_view [] 0 fd_i 510 4 2 fd_src F) as (f' & v' & bl' & d' & H & S' & Hd & _);
    [simpl; lia|simpl; lia|unfold FBYTES, NBLOCKS; lia|intros _; simpl; lia|split; simpl; lia|exact fd_frees|].
  exists f, f', v', bl', d'. split; [exact H|]. split; [exact S'|exact Hd].
Defined.
