(* ===== verification/Mkfs.v ===== *)
(** * mkfs (mkfs.c): building the initial file system

    The image is the list of the blocks of the file [fsfd]; exit(1) and a failed
    assert are [Panic].  xint and xshort store integers in Intel byte order, which is the order
    of [put32] and [put16] on every host, so values are modelled without them.
    The files named on the command line are given with their contents; read() returns
    512 bytes of a regular file as long as there are as many. *)

From S2P Require Import Prelude CStr Bytes Blocks Log Fs Bitmap.

Definition NINODES : Z := 200.
Definition FSSIZE : Z := 1000.
Definition nbitmap : Z := FSSIZE / (512 * 8) + 1.
Definition ninodeblocks : Z := NINODES / IPB + 1.
Definition nlog : Z := 30.
Definition nmeta : Z := 2 + nlog + ninodeblocks + nbitmap.
Definition nblocks : Z := FSSIZE - nmeta.
(** The superblock that main fills in. *)
Definition mk_sb : superblock := mkSb FSSIZE nblocks NINODES nlog 2 (2 + nlog) (2 + nlog + ninodeblocks).

Record mkst := mkMk { img : list block; freeinode : Z; freeblock : Z }.
Abbreviation MM := (M mkst).

Definition rsect (sec : Z) : MM block :=
  s ← get; match img s !! Z.to_nat sec with Some b => mret b | None => panic "read" end.
(** A write beyond the end extends the file. *)
Definition wsect (sec : Z) (buf : block) : MM unit :=
  modify (λ s,
    let n := Z.to_nat sec in
    let D := img s in
    mkMk (if (n <? length D)%nat then <[n := buf]> D else D ++ replicate (n - length D) zeros ++ [buf])
         (freeinode s) (freeblock s)).
Definition winode (inum : Z) (ip : dinode) : MM unit :=
  buf ← rsect (IBLOCK inum mk_sb); wsect (IBLOCK inum mk_sb) (put_dinode (dip inum) ip buf).
Definition rinode (inum : Z) : MM dinode :=
  buf ← rsect (IBLOCK inum mk_sb); mret (dinode_at buf (dip inum)).
Definition ialloc (type : Z) : MM Z :=
  s ← get;
  modify (λ s, mkMk (img s) (u32 (freeinode s + 1)) (freeblock s)) ;;
  winode (freeinode s) (mkDinode type 0 0 1 0 (replicate 13 0)) ;;
  mret (freeinode s).
Definition balloc (used : Z) : MM unit :=
  if 512 * 8 <=? used then panic "assert" else
  wsect (sb_bmapstart mk_sb) (foldl (λ b i, set_bit i b) zeros (seq 0 (Z.to_nat used))).

(** [freeblock++] *)
Definition next_block : MM Z :=
  s ← get; modify (λ s, mkMk (img s) (freeinode s) (u32 (freeblock s + 1))) ;; mret (freeblock s).
(** The address of block [fbn] of the file, allocated if it is missing; the inode is in memory. *)
Definition iappend_addr (din : dinode) (fbn : Z) : MM (dinode * Z) :=
  if fbn <? Z.of_nat NDIRECT then
    let a := default 0 (d_addrs din !! Z.to_nat fbn) in
    if a =? 0 then x ← next_block; mret (with_addr (Z.to_nat fbn) x din, x) else mret (din, a)
  else
    din ← (if default 0 (d_addrs din !! NDIRECT) =? 0 then x ← next_block; mret (with_addr NDIRECT x din) else mret din);
    let ia := default 0 (d_addrs din !! NDIRECT) in
    indirect ← rsect ia;
    let k := (4 * (Z.to_nat fbn - NDIRECT))%nat in
    if get32 indirect k =? 0 then
      x ← next_block; wsect ia (put32 k x indirect) ;; mret (din, x)
    else mret (din, get32 indirect k).
Fixpoint iappend_loop (fuel : nat) (din : dinode) (off n : Z) (p : list Z) : MM (dinode * Z) :=
  match fuel with
  | O => spin
  | S fuel' =>
      if n <=? 0 then mret (din, off) else
      let fbn := off / 512 in
      if MAXFILE <=? fbn then panic "assert" else
      '(din, x) ← iappend_addr din fbn;
      let n1 := Z.min n ((fbn + 1) * 512 - off) in
      buf ← rsect x;
      wsect x (splice (Z.to_nat (off - fbn * 512)) (take (Z.to_nat n1) p) buf) ;;
      iappend_loop fuel' din (off + n1) (n - n1) (drop (Z.to_nat n1) p)
  end.
Definition iappend (inum : Z) (p : list Z) : MM unit :=
  din ← rinode inum;
  '(din, off) ← iappend_loop (S (length p)) din (d_size din) (Z.of_nat (length p)) p;
  winode inum (with_size off din).

(** [struct dirent] with a name of at most DIRSIZ bytes. *)
Definition dirent (inum : Z) (name : list Z) : list Z :=
  [inum mod 256; (inum / 256) mod 256] ++ take DIRSIZ (name ++ replicate DIRSIZ 0).
Fixpoint append_chunks (fuel : nat) (inum : Z) (data : list Z) : MM unit :=
  match fuel with
  | O => spin
  | S fuel' =>
      match data with
      | [] => mret tt
      | _ => iappend inum (take 512 data) ;; append_chunks fuel' inum (drop 512 data)
      end
  end.
Definition skip_underscore (name : list Z) : list Z :=
  match name with c :: name' => if c =? 95 then name' else name | [] => [] end.
Definition add_file (rootino : Z) (f : list Z * list Z) : MM unit :=
  let '(name, data) := f in
  if bool_decide (SLASH ∈ name) then panic "assert" else
  inum ← ialloc T_FILE;
  iappend rootino (dirent inum (skip_underscore name)) ;;
  append_chunks (S (length data)) inum data.
(** The words of the superblock in its block. *)
Definition sb_words : list Z :=
  [sb_size mk_sb; sb_nblocks mk_sb; sb_ninodes mk_sb; sb_nlog mk_sb; sb_logstart mk_sb; sb_inodestart mk_sb; sb_bmapstart mk_sb].
Definition main (files : list (list Z * list Z)) : MM unit :=
  modify (λ s, mkMk (img s) (freeinode s) nmeta) ;;
  for_each (seq 0 (Z.to_nat FSSIZE)) (λ i, wsect (Z.of_nat i) zeros) ;;
  wsect 1 (put32s 0 sb_words zeros) ;;
  rootino ← ialloc T_DIR;
  (if rootino =? ROOTINO then mret tt else panic "assert") ;;
  iappend rootino (dirent rootino [46]) ;;
  iappend rootino (dirent rootino [46; 46]) ;;
  for_each files (add_file rootino) ;;
  din ← rinode rootino;
  winode rootino (with_size ((d_size din / 512 + 1) * 512) din) ;;
  s ← get;
  balloc (freeblock s).
(** mkfs on an empty file. *)
Definition mk_start : mkst := mkMk [] 1 0.

(** A small image: two files, one of them with an indirect block. *)
Definition demo_files : list (list Z * list Z) :=
  [([95; 99; 97; 116], [1; 2; 3]); ([82; 69; 65; 68; 77; 69], replicate 6200 7)].
Example mkfs_runs :
  match main demo_files mk_start with
  | Ok _ s => freeinode s = 4 ∧ freeblock s = 59 + 1 + 1 + 14 ∧ length (img s) = 1000%nat ∧
              dinode_at (img s !!! 32%nat) 192 = mkDinode T_FILE 0 0 1 6200 ([61; 62; 63; 64; 65; 66; 67; 68; 69; 70; 71; 72; 73])
  | _ => False
  end.
Proof. vm_compute. split; [reflexivity|split; [reflexivity|split; reflexivity]]. Qed.
