(* ===== verification/Mkinv.v ===== *)
(** * The blocks of files while mkfs builds the image

    [mdata D fb F]: in the image [D] the files [F] occupy blocks between the metadata
    and [fb], no block twice, and hold their contents; the blocks from [fb] on are zero. *)

From S2P Require Import Prelude CStr Bytes Blocks Log Fs Tx Bitmap Content Rw Inode Mkfs.

Definition iv (D : list block) : bview := quiet D [].
Abbreviation blk D := (vblock (iv D)).
Definition DS : Z := 59.

(** Block [n] of the contents [l], filled up with zeros. *)
Definition pad (x : list Z) : block := x ++ replicate (512 - length x) 0.
Definition chunk (l : list Z) (n : nat) : block := pad (take 512 (drop (512 * n) l)).
Lemma chunk_length l n : length (chunk l n) = 512%nat.
Proof. unfold chunk, pad. rewrite length_app, length_replicate, length_take. lia. Qed.
Lemma chunk_nil n : chunk [] n = zeros.
Proof. unfold chunk, pad. by rewrite drop_nil, take_nil. Qed.
Lemma chunk_beyond l n : (length l ≤ 512 * n)%nat → chunk l n = zeros.
Proof. intros H. unfold chunk, pad. by rewrite drop_ge, take_nil. Qed.
Lemma chunk_app_other l p n k :
  k = (length l / 512)%nat → (length (l ++ p) ≤ 512 * (k + 1))%nat → n ≠ k → chunk (l ++ p) n = chunk l n.
Proof.
  intros Hk Hlen Hne. pose proof (Nat.div_mod_eq (length l) 512) as Hd. pose proof (Nat.mod_upper_bound (length l) 512 ltac:(lia)).
  destruct (decide (n < k)%nat).
  - unfold chunk. rewrite drop_app_le by lia. rewrite take_app_le; [done|]. rewrite length_drop. lia.
  - rewrite !chunk_beyond; [done|lia|lia].
Qed.
Lemma chunk_app_last l p k :
  k = (length l / 512)%nat → (length (l ++ p) ≤ 512 * (k + 1))%nat →
  chunk (l ++ p) k = splice (length l - 512 * k) p (chunk l k).
Proof.
  intros Hk Hlen. pose proof (Nat.div_mod_eq (length l) 512) as Hd. pose proof (Nat.mod_upper_bound (length l) 512 ltac:(lia)) as Hm.
  rewrite length_app in Hlen. unfold chunk. rewrite drop_app_le by lia. set (x := drop (512 * k) l).
  assert (length x = (length l - 512 * k)%nat) as Hx by apply length_drop.
  rewrite !take_ge by (rewrite ?length_app; lia). unfold pad, splice. rewrite length_app, <- Hx, take_app_length, <- app_assoc. f_equal. f_equal.
  rewrite drop_app, drop_ge by lia. rewrite drop_replicate. cbn. f_equal. lia.
Qed.

(** ** Inodes and their blocks *)
Record ent := mkEnt { e_d : dinode; e_l : list Z; e_m : nat; e_q : bool }.
(** The blocks of an inode: 140 is the indirect block. *)
Definition slot (D : list block) (d : dinode) (n : nat) : Z := if (n =? 140)%nat then daddr d 12 else addr_at (iv D) d n.
Record holds (D : list block) (e : ent) : Prop := {
  f_ok : dinode_ok (e_d e);
  f_len : (length (e_l e) ≤ 512 * e_m e)%nat;
  f_max : (e_m e ≤ 140)%nat;
  f_addr n : (n < 140)%nat → addr_at (iv D) (e_d e) n ≠ 0 ↔ (n < e_m e)%nat;
  f_ind : daddr (e_d e) 12 ≠ 0 ↔ e_q e = true;
  f_q : (12 < e_m e)%nat → e_q e = true;
  f_blk n : (n < e_m e)%nat → blk D (Z.to_nat (addr_at (iv D) (e_d e) n)) = chunk (e_l e) n }.
Record mdata (D : list block) (fb : Z) (F : list ent) : Prop := {
  md_len : length D = 1000%nat;
  md_size j : (j < 1000)%nat → length (blk D j) = 512%nat;
  md_fb : DS ≤ fb ≤ 1000;
  md_file i e : F !! i = Some e → holds D e;
  md_range i e n : F !! i = Some e → (n ≤ 140)%nat → slot D (e_d e) n ≠ 0 → DS ≤ slot D (e_d e) n < fb;
  md_inj i j e e' n k : F !! i = Some e → F !! j = Some e' → (n ≤ 140)%nat → (k ≤ 140)%nat →
    slot D (e_d e) n ≠ 0 → slot D (e_d e) n = slot D (e_d e') k → i = j ∧ n = k;
  md_zero j : fb ≤ Z.of_nat j → (j < 1000)%nat → blk D j = zeros }.

Lemma slot_addr D d n : (n < 140)%nat → slot D d n = addr_at (iv D) d n.
Proof. intros H. unfold slot. by rewrite (proj2 (Nat.eqb_neq n 140)) by lia. Qed.
Lemma slot_ind D d : slot D d 140 = daddr d 12.
Proof. done. Qed.
(** The blocks of an inode depend only on its indirect block. *)
Lemma slot_agree D D' d n :
  (daddr d 12 ≠ 0 → blk D' (ind_block d) = blk D (ind_block d)) → slot D' d n = slot D d n.
Proof.
  intros H. unfold slot, addr_at. destruct (n =? 140)%nat; [done|]. destruct (n <? 12)%nat; [done|].
  destruct (Z.eqb_spec (daddr d 12) 0); [done|]. by rewrite H.
Qed.
Lemma file_agree D D' e :
  (∀ n, (n ≤ 140)%nat → slot D (e_d e) n ≠ 0 → blk D' (Z.to_nat (slot D (e_d e) n)) = blk D (Z.to_nat (slot D (e_d e) n))) →
  holds D e → holds D' e ∧ ∀ n, slot D' (e_d e) n = slot D (e_d e) n.
Proof.
  intros H HF. assert (∀ n, slot D' (e_d e) n = slot D (e_d e) n) as Hs.
  { intros n. apply slot_agree. intros Hi. apply (H 140%nat); [done|]. by rewrite slot_ind. }
  split; [|done]. destruct HF. split; try done.
  - intros n Hn. rewrite <- f_addr0 by done. by rewrite <- !slot_addr, Hs by done.
  - intros n Hn. rewrite <- f_blk0 by done. assert (n < 140)%nat as Hn' by lia. rewrite <- !slot_addr, Hs by done.
    apply H; [lia|]. rewrite slot_addr by done. by apply f_addr0.
Qed.
Lemma blk_insert D c x j : (c < length D)%nat → blk (<[c := x]> D) j = if decide (c = j) then x else blk D j.
Proof.
  intros Hc. unfold vblock. cbn. case_decide; [subst; by rewrite list_lookup_insert_eq|by rewrite list_lookup_insert_ne].
Qed.

(** File [i] changes in blocks of its own, and may get one new block. *)
Lemma mdata_upd D fb F i e e' D' fb' n0 :
  mdata D fb F → F !! i = Some e → length D' = 1000%nat → (∀ j, (j < 1000)%nat → length (blk D' j) = 512%nat) →
  (∀ j, blk D' j ≠ blk D j → ∃ n, (n ≤ 140)%nat ∧ slot D (e_d e) n ≠ 0 ∧ j = Z.to_nat (slot D (e_d e) n)) →
  holds D' e' →
  (∀ n, (n ≤ 140)%nat → n ≠ n0 → slot D' (e_d e') n = slot D (e_d e) n) →
  (slot D' (e_d e') n0 = slot D (e_d e) n0 ∧ fb' = fb ∨ slot D' (e_d e') n0 = fb ∧ fb' = fb + 1 ∧ fb' ≤ 1000) →
  mdata D' fb' (<[i := e']> F).
Proof.
  intros HM Hi HL HB Hch Hfile Hsame Hn0. pose proof (md_fb _ _ _ HM) as Hfb. unfold DS in Hfb.
  assert (fb ≤ fb' ≤ 1000) as Hfb' by lia. pose proof (lookup_lt_Some _ _ _ Hi) as Hlt.
  assert (∀ n, (n ≤ 140)%nat → slot D' (e_d e') n = slot D (e_d e) n ∨ n = n0 ∧ slot D' (e_d e') n = fb ∧ fb' = fb + 1) as Hslot.
  { intros n Hn. destruct (decide (n = n0)) as [->|]; [|left; by apply Hsame]. destruct Hn0 as [[? _]|(? & ? & _)]; [by left|right; done]. }
  assert (∀ j ej, F !! j = Some ej → j ≠ i → holds D' ej ∧ ∀ n, slot D' (e_d ej) n = slot D (e_d ej) n) as Hother.
  { intros j ej Hj Hne. apply file_agree; [|by eapply md_file]. intros n Hn Hs.
    destruct (decide (blk D' (Z.to_nat (slot D (e_d ej) n)) = blk D (Z.to_nat (slot D (e_d ej) n)))) as [|Hd]; [done|].
    destruct (Hch _ Hd) as (k & Hk & Hks & Heq). pose proof (md_range _ _ _ HM _ _ _ Hj Hn Hs). pose proof (md_range _ _ _ HM _ _ _ Hi Hk Hks).
    unfold DS in *. destruct (md_inj _ _ _ HM j i ej e n k Hj Hi Hn Hk Hs ltac:(lia)). done. }
  assert (∀ j ej, <[i := e']> F !! j = Some ej → (j = i ∧ ej = e') ∨ (j ≠ i ∧ F !! j = Some ej)) as Hcase.
  { intros j ej. rewrite list_lookup_insert_Some. intros [(-> & -> & _)|[? ?]]; [by left|right; done]. }
  split; [done|done|unfold DS; lia| | | |].
  - intros j ej [[-> ->]|[Hne Hj]]%Hcase; [done|]. by eapply Hother.
  - intros j ej n [[-> ->]|[Hne Hj]]%Hcase Hn Hs.
    + destruct (Hslot n Hn) as [Heq|(-> & Heq & ->)]; rewrite Heq in *; [|unfold DS; lia].
      pose proof (md_range _ _ _ HM _ _ _ Hi Hn Hs). lia.
    + destruct (Hother j ej Hj Hne) as [_ Ho]. rewrite Ho in *. pose proof (md_range _ _ _ HM _ _ _ Hj Hn Hs). lia.
  - intros j1 j2 e1 e2 n k [[-> ->]|[Hne1 Hj1]]%Hcase [[-> ->]|[Hne2 Hj2]]%Hcase Hn Hk Hs Heq.
    + split; [done|]. destruct (Hslot n Hn) as [E1|(-> & E1 & _)], (Hslot k Hk) as [E2|(-> & E2 & _)]; try done.
      * by destruct (md_inj _ _ _ HM i i e e n k Hi Hi Hn Hk ltac:(congruence) ltac:(congruence)).
      * pose proof (md_range _ _ _ HM _ _ _ Hi Hn ltac:(congruence)). lia.
      * pose proof (md_range _ _ _ HM _ _ _ Hi Hk ltac:(lia)). lia.
    + exfalso. destruct (Hother j2 e2 Hj2 Hne2) as [_ Ho]. rewrite Ho in Heq. destruct (Hslot n Hn) as [E1|(-> & E1 & _)]; rewrite E1 in *.
      * destruct (md_inj _ _ _ HM i j2 e e2 n k Hi Hj2 Hn Hk Hs Heq). congruence.
      * pose proof (md_range _ _ _ HM _ _ _ Hj2 Hk ltac:(lia)). lia.
    + exfalso. destruct (Hother j1 e1 Hj1 Hne1) as [_ Ho]. rewrite Ho in Heq, Hs. destruct (Hslot k Hk) as [E2|(-> & E2 & _)]; rewrite E2 in *.
      * destruct (md_inj _ _ _ HM j1 i e1 e n k Hj1 Hi Hn Hk Hs Heq). congruence.
      * pose proof (md_range _ _ _ HM _ _ _ Hj1 Hn ltac:(lia)). lia.
    + destruct (Hother j1 e1 Hj1 Hne1) as [_ Ho1]. destruct (Hother j2 e2 Hj2 Hne2) as [_ Ho2]. rewrite Ho1 in *. rewrite Ho2 in *.
      by eapply (md_inj _ _ _ HM).
  - intros j Hj1 Hj2. rewrite <- (md_zero _ _ _ HM j) by lia. destruct (decide (blk D' j = blk D j)) as [|Hd]; [done|]. exfalso.
    destruct (Hch _ Hd) as (k & Hk & Hks & ->). pose proof (md_range _ _ _ HM _ _ _ Hi Hk Hks). unfold DS in *. lia.
Qed.

(** ** Growing a file *)
Lemma daddr_with k a d j : (k < length (d_addrs d))%nat → daddr (with_addr k a d) j = if decide (k = j) then a else daddr d j.
Proof.
  intros Hk. unfold daddr, with_addr. cbn. case_decide; [subst; by rewrite list_lookup_insert_eq|by rewrite list_lookup_insert_ne].
Qed.
Lemma with_addr_ok k a d : dinode_ok d → 0 ≤ a < 2 ^ 32 → dinode_ok (with_addr k a d).
Proof.
  intros [] Ha. split; cbn; try done; [by rewrite length_insert|]. by apply Forall_insert.
Qed.
Section grow.
Context D fb F i e (HM : mdata D fb F) (Hi : F !! i = Some e) (Hroom : fb < 1000).
Let HF : holds D e := md_file _ _ _ HM _ _ Hi.
Let Hfb : 59 ≤ fb ≤ 1000 := md_fb _ _ _ HM.

Lemma fb_zero : blk D (Z.to_nat fb) = zeros.
Proof. pose proof Hfb. apply (md_zero _ _ _ HM); lia. Qed.
Lemma addrs_len : length (d_addrs (e_d e)) = 13%nat.
Proof. apply HF. Qed.
Lemma zeros_word k : get32 zeros k = 0.
Proof.
  assert (∀ o, byte_at zeros o = 0) as H.
  { intros o. unfold byte_at, zeros, BSIZE. destruct (decide (o < 512)%nat); [by rewrite lookup_replicate_2|].
    rewrite lookup_ge_None_2; [done|]. rewrite length_replicate. lia. }
  unfold get32. by rewrite !H.
Qed.
(** The indirect block. *)
Lemma mk_grow_indirect :
  e_q e = false → mdata D (fb + 1) (<[i := mkEnt (with_addr 12 fb (e_d e)) (e_l e) (e_m e) true]> F).
Proof.
  intros Hq. pose proof Hfb as Hfb'. pose proof addrs_len as Hal. pose proof (f_q _ _ HF) as Hfq. rewrite Hq in Hfq.
  assert (daddr (e_d e) 12 = 0) as Hd0.
  { destruct (Z.eq_dec (daddr (e_d e) 12) 0) as [|Hne]; [done|]. apply (f_ind _ _ HF) in Hne. congruence. }
  assert (∀ n, (n < 140)%nat → addr_at (iv D) (with_addr 12 fb (e_d e)) n = addr_at (iv D) (e_d e) n) as Ha.
  { intros n Hn. unfold addr_at, ind_block. rewrite !daddr_with by lia. destruct (n <? 12)%nat eqn:E.
    - apply Nat.ltb_lt in E. by rewrite decide_False by lia.
    - rewrite decide_True by done. rewrite Hd0. rewrite (proj2 (Z.eqb_neq fb 0)) by lia. cbn. by rewrite fb_zero, zeros_word. }
  eapply (mdata_upd D fb F i e _ D (fb + 1) 140); [exact HM|done|apply HM|apply HM|done| | |].
  - destruct HF as [f1 f2 f3 f4 f5 f6 f7]. split; cbn; try done.
    + apply with_addr_ok; [done|lia].
    + intros n Hn. rewrite Ha by done. by apply f4.
    + rewrite daddr_with by lia. rewrite decide_True by done. split; [done|lia].
    + intros n Hn. rewrite Ha by lia. by apply f7.
  - intros n Hn Hne. cbn. rewrite !slot_addr by lia. apply Ha. lia.
  - right. rewrite slot_ind. cbn. rewrite daddr_with by lia. rewrite decide_True by done. split; [done|]. lia.
Qed.
(** A block, in the inode or in the indirect block. *)
Lemma file_next d' D' :
  (e_m e < 140)%nat → dinode_ok d' → daddr d' 12 = daddr (e_d e) 12 → (12 ≤ e_m e → e_q e = true)%nat →
  (∀ n, (n < 140)%nat → addr_at (iv D') d' n = if decide (n = e_m e) then fb else addr_at (iv D) (e_d e) n) →
  (∀ n, (n < e_m e)%nat → blk D' (Z.to_nat (addr_at (iv D) (e_d e) n)) = blk D (Z.to_nat (addr_at (iv D) (e_d e) n))) →
  blk D' (Z.to_nat fb) = zeros →
  holds D' (mkEnt d' (e_l e) (S (e_m e)) (e_q e)).
Proof.
  intros Hm Hok Hind Hq Ha Hsame Hz. pose proof Hfb as Hfb'. destruct HF as [f1 f2 f3 f4 f5 f6 f7]. split; cbn; [done|lia|lia| | | |].
  - intros n Hn. rewrite Ha by done. case_decide; [subst; lia|]. rewrite f4 by done. lia.
  - by rewrite Hind.
  - intros ?. apply Hq. lia.
  - intros n Hn. rewrite Ha by lia. case_decide as E; [|rewrite Hsame by lia; apply f7; lia].
    rewrite Hz. subst n. symmetry. by apply chunk_beyond.
Qed.
Lemma mk_grow_direct :
  (e_m e < 12)%nat → mdata D (fb + 1) (<[i := mkEnt (with_addr (e_m e) fb (e_d e)) (e_l e) (S (e_m e)) (e_q e)]> F).
Proof.
  intros Hm. pose proof Hfb as Hfb'. pose proof addrs_len as Hal.
  assert (daddr (with_addr (e_m e) fb (e_d e)) 12 = daddr (e_d e) 12) as Hd12 by (rewrite daddr_with, decide_False; [done|lia|lia]).
  assert (∀ n, addr_at (iv D) (with_addr (e_m e) fb (e_d e)) n = if decide (n = e_m e) then fb else addr_at (iv D) (e_d e) n) as Ha.
  { intros n. unfold addr_at, ind_block. rewrite Hd12. destruct (n <? 12)%nat eqn:E.
    - rewrite daddr_with by lia. destruct (decide (e_m e = n)), (decide (n = e_m e)); congruence.
    - apply Nat.ltb_ge in E. by rewrite decide_False by lia. }
  eapply (mdata_upd D fb F i e _ D (fb + 1) (e_m e)); [exact HM|done|apply HM|apply HM|done| | |].
  - apply file_next; [lia|apply with_addr_ok; [apply HF|lia]|done|lia|intros n _; apply Ha|done|exact fb_zero].
  - intros n Hn Hne. cbn. destruct (decide (n = 140%nat)) as [->|]; [by rewrite !slot_ind|]. rewrite !slot_addr by lia. by rewrite Ha, decide_False.
  - right. cbn. rewrite slot_addr, Ha, decide_True by (lia || done). lia.
Qed.
Lemma mk_grow_entry :
  (12 ≤ e_m e < 140)%nat → e_q e = true →
  mdata (<[ind_block (e_d e) := put32 (4 * (e_m e - 12)) fb (blk D (ind_block (e_d e)))]> D) (fb + 1)
    (<[i := mkEnt (e_d e) (e_l e) (S (e_m e)) (e_q e)]> F).
Proof.
  intros Hm Hq. pose proof Hfb as Hfb'. assert (daddr (e_d e) 12 ≠ 0) as Hd0 by (by apply (f_ind _ _ HF)).
  pose proof (md_range _ _ _ HM i e 140 Hi ltac:(lia) Hd0) as Hr. rewrite slot_ind in Hr. unfold DS in Hr.
  set (c := ind_block (e_d e)). assert (Z.of_nat c = daddr (e_d e) 12) as Hc by (unfold c, ind_block; lia).
  assert (c < length D)%nat as Hcl by (rewrite (md_len _ _ _ HM); lia). pose proof (md_size _ _ _ HM c ltac:(lia)) as Hcs.
  set (x := put32 _ _ _). set (D' := <[c := x]> D).
  assert (∀ j, blk D' j = if decide (c = j) then x else blk D j) as Hb by (intros j; by apply blk_insert).
  assert (∀ n, (n < 140)%nat → addr_at (iv D') (e_d e) n = if decide (n = e_m e) then fb else addr_at (iv D) (e_d e) n) as Ha.
  { intros n Hn. unfold addr_at. fold c. destruct (n <? 12)%nat eqn:E; [apply Nat.ltb_lt in E; by rewrite decide_False by lia|].
    apply Nat.ltb_ge in E. rewrite (proj2 (Z.eqb_neq _ _) Hd0), Hb, decide_True by done. unfold x. case_decide as En.
    - subst n. rewrite get32_put32 by lia. apply u32_small. lia.
    - apply get32_put32_ne. lia. }
  eapply (mdata_upd D fb F i e _ D' (fb + 1) (e_m e)); [exact HM|done| | | | | |].
  - unfold D'. rewrite length_insert. apply HM.
  - intros j Hj. rewrite Hb. case_decide; [unfold x; by rewrite length_put32|by apply HM].
  - intros j. rewrite Hb. case_decide as E; [|done]. intros _. exists 140%nat. rewrite slot_ind. subst j. split; [lia|]. split; [done|lia].
  - apply file_next; [lia|apply HF|done|done|done| |].
    + intros n Hn. rewrite Hb. rewrite decide_False; [done|]. intros E.
      assert (addr_at (iv D) (e_d e) n ≠ 0) as Hnz by (apply (f_addr _ _ HF); lia).
      pose proof (md_range _ _ _ HM i e n Hi ltac:(lia)) as Hrn. rewrite slot_addr in Hrn by lia. specialize (Hrn Hnz). unfold DS in Hrn.
      destruct (md_inj _ _ _ HM i i e e n 140 Hi Hi ltac:(lia) ltac:(lia)) as [_ ?]; [by rewrite slot_addr by lia|rewrite slot_addr, slot_ind by lia; lia|lia].
    + rewrite Hb, decide_False by lia. exact fb_zero.
  - intros n Hn Hne. cbn. destruct (decide (n = 140%nat)) as [->|]; [by rewrite !slot_ind|]. rewrite !slot_addr by lia. by rewrite Ha, decide_False by lia.
  - right. cbn. rewrite slot_addr, Ha, decide_True by (lia || done). lia.
Qed.
End grow.
(** Data at the end of the file, within its last block. *)
Lemma write_tail D fb F i e p k :
  mdata D fb F → F !! i = Some e → k = (length (e_l e) / 512)%nat → (k < e_m e)%nat → (length (e_l e ++ p) ≤ 512 * (k + 1))%nat →
  let c := Z.to_nat (slot D (e_d e) k) in
  mdata (<[c := splice (length (e_l e) - 512 * k) p (blk D c)]> D) fb (<[i := mkEnt (e_d e) (e_l e ++ p) (e_m e) (e_q e)]> F).
Proof.
  intros HM Hi Hk Hkm Hlen c. pose proof (md_file _ _ _ HM _ _ Hi) as HF. pose proof (f_max _ _ HF) as Hmax.
  assert (slot D (e_d e) k ≠ 0) as Hs0 by (rewrite slot_addr by lia; apply (f_addr _ _ HF); lia).
  pose proof (md_range _ _ _ HM i e k Hi ltac:(lia) Hs0) as Hr. pose proof (md_fb _ _ _ HM) as Hfb. unfold DS in *.
  assert (c < length D)%nat as Hcl by (rewrite (md_len _ _ _ HM); unfold c; lia).
  assert (blk D c = chunk (e_l e) k) as Hbc by (unfold c; rewrite slot_addr by lia; by apply (f_blk _ _ HF)).
  rewrite Hbc, <- (chunk_app_last (e_l e) p k Hk Hlen). set (D' := <[c := _]> D).
  assert (∀ j, blk D' j = if decide (c = j) then chunk (e_l e ++ p) k else blk D j) as Hb by (intros j; by apply blk_insert).
  assert (∀ n, (n ≤ 140)%nat → n ≠ k → slot D (e_d e) n ≠ 0 → Z.to_nat (slot D (e_d e) n) ≠ c) as Hne.
  { intros n Hn Hnk Hnz E. pose proof (md_range _ _ _ HM i e n Hi Hn Hnz) as Hrn. unfold c, DS in *.
    destruct (md_inj _ _ _ HM i i e e n k Hi Hi Hn ltac:(lia) Hnz ltac:(lia)). done. }
  assert (∀ n, slot D' (e_d e) n = slot D (e_d e) n) as Hsl.
  { intros n. apply slot_agree. intros Hd. rewrite Hb, decide_False; [done|]. intros E. apply (Hne 140%nat); [lia|lia|by rewrite slot_ind|].
    rewrite slot_ind. unfold ind_block in E. done. }
  eapply (mdata_upd D fb F i e _ D' fb 140); [exact HM|done| | | | |intros n _ _; apply Hsl|left; split; [apply Hsl|done]].
  - unfold D'. rewrite length_insert. apply HM.
  - intros j Hj. rewrite Hb. case_decide; [apply chunk_length|by apply HM].
  - intros j. rewrite Hb. case_decide as E; [|done]. intros _. exists k. split; [lia|]. split; [done|]. by rewrite <- E.
  - destruct HF as [f1 f2 f3 f4 f5 f6 f7]. split; cbn [e_d e_l e_m e_q]; try done; [lia| |].
    + intros n Hn. rewrite <- f4 by done. by rewrite <- !slot_addr, Hsl by done.
    + intros n Hn. rewrite <- slot_addr, Hsl, Hb by lia. case_decide as E.
      * destruct (decide (n = k)) as [->|Hnk]; [done|]. exfalso. apply (Hne n); [lia|done|rewrite slot_addr by lia; apply f4; lia|done].
      * rewrite slot_addr by lia. destruct (decide (n = k)) as [->|Hnk]; [by destruct E|].
        rewrite (chunk_app_other _ _ _ k) by done. by apply f7.
Qed.
