(* ===== verification/Mkrun.v ===== *)
(** * What mkfs's functions do to the files of the image *)

From S2P Require Import Prelude CStr Bytes Blocks Log Fs Tx Bitmap Content Bmap Rw Inode Mkfs Mkinv.

(** ** Sectors *)
Lemma rsect_run sec D fi fb :
  (Z.to_nat sec < length D)%nat → rsect sec (mkMk D fi fb) = Ok (blk D (Z.to_nat sec)) (mkMk D fi fb).
Proof.
  intros H. unfold rsect, mbind, M_bind, get. cbn [img]. unfold vblock. cbn. destruct (lookup_lt_is_Some_2 D _ H) as [b Hb]. by rewrite Hb.
Qed.
Lemma wsect_run sec buf D fi fb :
  (Z.to_nat sec < length D)%nat → wsect sec buf (mkMk D fi fb) = Ok tt (mkMk (<[Z.to_nat sec := buf]> D) fi fb).
Proof. intros H. unfold wsect, modify. cbn [img freeinode freeblock]. by rewrite (proj2 (Nat.ltb_lt _ _) H). Qed.
Lemma next_block_run D fi fb : 0 ≤ fb < 1000 → next_block (mkMk D fi fb) = Ok fb (mkMk D fi (fb + 1)).
Proof. intros H. unfold next_block, mbind, M_bind, get, modify, mret, M_ret. cbn. by rewrite u32_small by lia. Qed.

(** ** The blocks a file needs *)
Definition nb (n : nat) : nat := (n + 511) / 512.
Definition with_ind (m : nat) : Z := if (12 <? m)%nat then 1 else 0.
Definition need (n : nat) : Z := Z.of_nat (nb n) + with_ind (nb n).
Lemma nb_spec n m : nb n = m ↔ (n ≤ 512 * m ∧ 512 * m < n + 512)%nat.
Proof.
  unfold nb. pose proof (Nat.div_mod_eq (n + 511) 512) as H. pose proof (Nat.mod_upper_bound (n + 511) 512 ltac:(lia)). split; [intros <-; lia|].
  intros Hm. lia.
Qed.
Lemma nb_bounds n : (n ≤ 512 * nb n ∧ 512 * nb n < n + 512)%nat.
Proof. by apply nb_spec. Qed.

Lemma same_trans d1 d2 d3 : same_meta d1 d2 → same_meta d2 d3 → same_meta d1 d3.
Proof. unfold same_meta. intuition congruence. Qed.
Definition meta_same (D D' : list block) : Prop := ∀ j, Z.of_nat j < DS → blk D' j = blk D j.
Lemma meta_trans D1 D2 D3 : meta_same D1 D2 → meta_same D2 D3 → meta_same D1 D3.
Proof. intros H1 H2 j Hj. by rewrite H2, H1. Qed.
Lemma meta_insert D c x : DS ≤ Z.of_nat c → (c < length D)%nat → meta_same D (<[c := x]> D).
Proof. intros Hc Hl j Hj. rewrite blk_insert by done. by rewrite decide_False by lia. Qed.

(** ** iappend's address computation *)
Definition cost (k m : nat) : Z := if decide (k = m) then 1 + (if decide (k = 12%nat) then 1 else 0) else 0.
Lemma ent_same (F : list ent) i e : F !! i = Some e → <[i := mkEnt (e_d e) (e_l e) (e_m e) (e_q e)]> F = F.
Proof. intros Hi. apply list_insert_id. rewrite Hi. by destruct e. Qed.
Section addr.
Context D fb F i e (fi : Z) (HM : mdata D fb F) (Hi : F !! i = Some e).
Let HF : holds D e := md_file _ _ _ HM _ _ Hi.

Lemma slot_bound k : (k ≤ 140)%nat → slot D (e_d e) k ≠ 0 → 59 ≤ slot D (e_d e) k < 1000 ∧ (Z.to_nat (slot D (e_d e) k) < length D)%nat.
Proof.
  intros Hk Hs. pose proof (md_range _ _ _ HM i e k Hi Hk Hs). pose proof (md_fb _ _ _ HM). unfold DS in *.
  rewrite (md_len _ _ _ HM). lia.
Qed.
Lemma addr_old k :
  (k < e_m e)%nat → iappend_addr (e_d e) (Z.of_nat k) (mkMk D fi fb) = Ok (e_d e, slot D (e_d e) k) (mkMk D fi fb).
Proof.
  intros Hk. pose proof (f_max _ _ HF) as Hmax. assert (addr_at (iv D) (e_d e) k ≠ 0) as Hnz by (apply (f_addr _ _ HF); lia).
  rewrite slot_addr by lia. unfold iappend_addr. rewrite Nat2Z.id. unfold addr_at in *. change NDIRECT with 12%nat.
  destruct (Nat.ltb_spec k 12) as [H12|H12].
  - rewrite (proj2 (Z.ltb_lt _ _)) by lia. change (default 0 (d_addrs (e_d e) !! k)) with (daddr (e_d e) k). by rewrite (proj2 (Z.eqb_neq _ _) Hnz).
  - rewrite (proj2 (Z.ltb_ge _ _)) by lia. change (default 0 (d_addrs (e_d e) !! 12%nat)) with (daddr (e_d e) 12).
    destruct (Z.eqb_spec (daddr (e_d e) 12) 0) as [|Hd]; [done|]. unfold mbind at 1, M_bind at 1, mret, M_ret.
    change (default 0 (d_addrs (e_d e) !! 12%nat)) with (daddr (e_d e) 12).
    destruct (slot_bound 140 ltac:(lia) Hd) as [_ Hl]. rewrite slot_ind in Hl.
    rewrite (bind_run _ _ _ _ _ (rsect_run _ D fi fb Hl)). fold (ind_block (e_d e)). by rewrite (proj2 (Z.eqb_neq _ _) Hnz).
Qed.
Lemma addr_direct :
  (e_m e < 12)%nat → fb < 1000 →
  let d' := with_addr (e_m e) fb (e_d e) in
  iappend_addr (e_d e) (Z.of_nat (e_m e)) (mkMk D fi fb) = Ok (d', slot D d' (e_m e)) (mkMk D fi (fb + 1)).
Proof.
  intros Hm Hfb d'. pose proof (md_fb _ _ _ HM) as Hfb'. unfold DS in Hfb'.
  assert (daddr (e_d e) (e_m e) = 0) as H0.
  { destruct (Z.eq_dec (daddr (e_d e) (e_m e)) 0) as [|Hne]; [done|]. exfalso.
    assert (addr_at (iv D) (e_d e) (e_m e) ≠ 0) as Hnz by (unfold addr_at; by rewrite (proj2 (Nat.ltb_lt _ _) Hm)).
    apply (f_addr _ _ HF) in Hnz; lia. }
  unfold iappend_addr. rewrite Nat2Z.id. change NDIRECT with 12%nat. rewrite (proj2 (Z.ltb_lt _ _)) by lia.
  change (default 0 (d_addrs (e_d e) !! e_m e)) with (daddr (e_d e) (e_m e)). rewrite H0. rewrite Z.eqb_refl.
  rewrite (bind_run _ _ _ _ _ (next_block_run D fi fb ltac:(lia))). fold d'. rewrite slot_addr by lia. unfold addr_at.
  rewrite (proj2 (Nat.ltb_lt _ _) Hm). unfold d'. rewrite daddr_with by (rewrite (dk_len _ (f_ok _ _ HF)); lia). by rewrite decide_True.
Qed.
Lemma addr_entry :
  (12 ≤ e_m e < 140)%nat → e_q e = true → fb < 1000 →
  let c := ind_block (e_d e) in let D' := <[c := put32 (4 * (e_m e - 12)) fb (blk D c)]> D in
  iappend_addr (e_d e) (Z.of_nat (e_m e)) (mkMk D fi fb) = Ok (e_d e, slot D' (e_d e) (e_m e)) (mkMk D' fi (fb + 1)) ∧ meta_same D D'.
Proof.
  intros Hm Hq Hfb c D'. pose proof (md_fb _ _ _ HM) as Hfb'. unfold DS in Hfb'. assert (daddr (e_d e) 12 ≠ 0) as Hd by (by apply (f_ind _ _ HF)).
  destruct (slot_bound 140 ltac:(lia) Hd) as [Hr Hl]. rewrite slot_ind in Hr, Hl.
  assert (addr_at (iv D) (e_d e) (e_m e) = 0) as H0.
  { destruct (Z.eq_dec (addr_at (iv D) (e_d e) (e_m e)) 0) as [|Hne]; [done|]. apply (f_addr _ _ HF) in Hne; lia. }
  unfold addr_at in H0. rewrite (proj2 (Nat.ltb_ge _ _)) in H0 by lia. rewrite (proj2 (Z.eqb_neq _ _) Hd) in H0. fold c in H0.
  pose proof (md_size _ _ _ HM c ltac:(unfold c, ind_block; rewrite <- (md_len _ _ _ HM); done)) as Hcs. split.
  - unfold iappend_addr. rewrite Nat2Z.id. change NDIRECT with 12%nat. rewrite (proj2 (Z.ltb_ge _ _)) by lia.
    change (default 0 (d_addrs (e_d e) !! 12%nat)) with (daddr (e_d e) 12). rewrite (proj2 (Z.eqb_neq _ _) Hd). unfold mbind at 1, M_bind at 1, mret, M_ret.
    change (default 0 (d_addrs (e_d e) !! 12%nat)) with (daddr (e_d e) 12). rewrite (bind_run _ _ _ _ _ (rsect_run _ D fi fb Hl)).
    change (Z.to_nat (daddr (e_d e) 12)) with c. rewrite H0, Z.eqb_refl. rewrite (bind_run _ _ _ _ _ (next_block_run D fi fb ltac:(lia))).
    rewrite (bind_run _ _ _ _ _ (wsect_run _ _ D fi (fb + 1) Hl)). change (Z.to_nat (daddr (e_d e) 12)) with c. fold D'. do 2 f_equal.
    rewrite slot_addr by lia. unfold addr_at. rewrite (proj2 (Nat.ltb_ge _ _)), (proj2 (Z.eqb_neq _ _) Hd) by lia. fold c.
    unfold D'. rewrite blk_insert by exact Hl. rewrite decide_True, get32_put32 by (done || lia). symmetry. apply u32_small. lia.
  - apply meta_insert; [unfold c, ind_block, DS; lia|exact Hl].
Qed.
End addr.

Lemma addr_first D fb F i e (fi : Z) :
  mdata D fb F → F !! i = Some e → e_m e = 12%nat → e_q e = false → fb < 999 →
  let e1 := mkEnt (with_addr 12 fb (e_d e)) (e_l e) (e_m e) true in
  iappend_addr (e_d e) (Z.of_nat (e_m e)) (mkMk D fi fb) = iappend_addr (e_d e1) (Z.of_nat (e_m e)) (mkMk D fi (fb + 1)).
Proof.
  intros HM Hi Hm Hq Hfb e1. pose proof (md_fb _ _ _ HM) as Hfb'. unfold DS in Hfb'. pose proof (md_file _ _ _ HM _ _ Hi) as HF.
  assert (daddr (e_d e) 12 = 0) as H0.
  { destruct (Z.eq_dec (daddr (e_d e) 12) 0) as [|Hne]; [done|]. apply (f_ind _ _ HF) in Hne. congruence. }
  rewrite Hm. unfold iappend_addr. change NDIRECT with 12%nat. change (Z.of_nat 12 <? Z.of_nat 12) with false. cbn iota.
  change (default 0 (d_addrs (e_d e) !! 12%nat)) with (daddr (e_d e) 12). rewrite H0, Z.eqb_refl.
  change (default 0 (d_addrs (e_d e1) !! 12%nat)) with (daddr (with_addr 12 fb (e_d e)) 12).
  assert (daddr (with_addr 12 fb (e_d e)) 12 = fb) as Hd by (rewrite daddr_with by (rewrite (dk_len _ (f_ok _ _ HF)); lia); by rewrite decide_True).
  rewrite Hd, (proj2 (Z.eqb_neq fb 0)) by lia. unfold mbind at 1, M_bind at 1. unfold mbind at 1, M_bind at 1.
  rewrite next_block_run by lia. done.
Qed.

(** At the boundaries of the loop the indirect block is there when it is needed. *)
Definition ent_ok (e : ent) : Prop := e_q e = (12 <? e_m e)%nat.
Lemma addr_spec D fb F i e fi k :
  mdata D fb F → F !! i = Some e → ent_ok e → (k < 140)%nat → (k ≤ e_m e)%nat → fb + cost k (e_m e) ≤ 1000 →
  ∃ D' d', let m' := Nat.max (e_m e) (S k) in
    iappend_addr (e_d e) (Z.of_nat k) (mkMk D fi fb) = Ok (d', slot D' d' k) (mkMk D' fi (fb + cost k (e_m e))) ∧
    mdata D' (fb + cost k (e_m e)) (<[i := mkEnt d' (e_l e) m' (12 <? m')%nat]> F) ∧ meta_same D D' ∧ same_meta (e_d e) d'.
Proof.
  intros HM Hi Hq Hk Hkm Hfb. unfold ent_ok, cost in *. destruct (decide (k = e_m e)) as [->|Hne].
  - rewrite Nat.max_r by lia. destruct (decide (e_m e < 12)%nat) as [Hlt|Hge].
    { rewrite decide_False in * by lia. exists D, (with_addr (e_m e) fb (e_d e)). cbn zeta. split; [apply (addr_direct D fb F i e fi HM Hi); lia|].
      split; [|split; [done|done]]. pose proof (mk_grow_direct D fb F i e HM Hi ltac:(lia) Hlt) as HG.
      rewrite Hq, (proj2 (Nat.ltb_ge 12 (e_m e))) in HG by lia. by rewrite (proj2 (Nat.ltb_ge 12 (S (e_m e)))) by lia. }
    rewrite (proj2 (Nat.ltb_lt 12 (S (e_m e)))) by lia. destruct (decide (e_m e = 12%nat)) as [H12|H12].
    + rewrite H12 in Hq. set (e1 := mkEnt (with_addr 12 fb (e_d e)) (e_l e) (e_m e) true).
      pose proof (mk_grow_indirect D fb F i e HM Hi ltac:(lia) Hq) as HM1. fold e1 in HM1.
      assert (<[i := e1]> F !! i = Some e1) as Hi1 by (apply list_lookup_insert_eq; by eapply lookup_lt_Some).
      destruct (addr_entry D (fb + 1) _ i e1 fi HM1 Hi1) as [Hrun Hmeta]; [cbn; lia|done|lia|].
      pose proof (mk_grow_entry D (fb + 1) _ i e1 HM1 Hi1 ltac:(lia) ltac:(cbn; lia) eq_refl) as HM2. rewrite list_insert_insert_eq in HM2.
      eexists _, (e_d e1). cbn zeta. split; [|split; [|split; [exact Hmeta|done]]].
      * rewrite (addr_first D fb F i e fi HM Hi H12 Hq ltac:(lia)). fold e1. replace (fb + (1 + 1)) with (fb + 1 + 1) by lia. exact Hrun.
      * replace (fb + (1 + 1)) with (fb + 1 + 1) by lia. exact HM2.
    + rewrite (proj2 (Nat.ltb_lt _ _)) in Hq by lia. destruct (addr_entry D fb F i e fi HM Hi) as [Hrun Hmeta]; [lia|done|lia|].
      pose proof (mk_grow_entry D fb F i e HM Hi ltac:(lia) ltac:(lia) Hq) as HM2. rewrite Hq in HM2.
      eexists _, (e_d e). cbn zeta. split; [exact Hrun|]. split; [exact HM2|]. split; [exact Hmeta|done].
  - rewrite Nat.max_l by lia. exists D, (e_d e). cbn zeta. rewrite Z.add_0_r. split; [apply (addr_old D fb F i e fi HM Hi); lia|].
    split; [|done]. rewrite <- Hq, (ent_same F i e Hi). exact HM.
Qed.

(** ** The loop *)
Lemma cost_need n n1 k :
  k = (n / 512)%nat → (n < n1 ≤ 512 * (k + 1))%nat → cost k (nb n) = need n1 - need n ∧ nb n1 = S k ∧ (k ≤ nb n)%nat ∧ Nat.max (nb n) (S k) = S k.
Proof.
  intros Hk Hn. pose proof (Nat.div_mod_eq n 512) as Hd. pose proof (Nat.mod_upper_bound n 512 ltac:(lia)) as Hm.
  assert (nb n1 = S k) as H1 by (apply nb_spec; lia). pose proof (nb_bounds n) as Hb.
  assert (nb n = k ∨ nb n = S k) as H0 by lia. split; [|split; [done|split; lia]].
  unfold cost, need, with_ind. rewrite H1. destruct H0 as [->| ->].
  - rewrite decide_True by done. destruct (decide (k = 12%nat)) as [->|Hne]; [done|].
    destruct (Nat.ltb_spec 12 (S k)), (Nat.ltb_spec 12 k); lia.
  - rewrite decide_False by lia. lia.
Qed.
Lemma need_mono n m : (n ≤ m)%nat → need n ≤ need m.
Proof.
  intros H. unfold need, with_ind. assert (nb n ≤ nb m)%nat by (apply Nat.Div0.div_le_mono; lia).
  destruct (Nat.ltb_spec 12 (nb n)), (Nat.ltb_spec 12 (nb m)); lia.
Qed.
Definition whole (e : ent) : Prop := e_m e = nb (length (e_l e)) ∧ ent_ok e.
Definition grown_ent (d' : dinode) (l : list Z) : ent := mkEnt d' l (nb (length l)) (12 <? nb (length l))%nat.

Lemma loop_spec fuel p : ∀ D fb F i e fi,
  mdata D fb F → F !! i = Some e → whole e → Z.of_nat (length (e_l e ++ p)) ≤ 71680 →
  fb + (need (length (e_l e ++ p)) - need (length (e_l e))) ≤ 1000 → (length p < fuel)%nat →
  ∃ D' d', let fb' := fb + (need (length (e_l e ++ p)) - need (length (e_l e))) in
    iappend_loop fuel (e_d e) (Z.of_nat (length (e_l e))) (Z.of_nat (length p)) p (mkMk D fi fb) =
      Ok (d', Z.of_nat (length (e_l e ++ p))) (mkMk D' fi fb') ∧
    mdata D' fb' (<[i := grown_ent d' (e_l e ++ p)]> F) ∧ meta_same D D' ∧ same_meta (e_d e) d'.
Proof.
  revert p. induction fuel as [|fuel IH]; intros p D fb F i e fi HM Hi [Hm Hq] Hlen Hfb Hf; [lia|]. cbn [iappend_loop].
  destruct (decide (p = [])) as [->|Hp].
  { rewrite app_nil_r in *. exists D, (e_d e). cbn zeta. rewrite Z.sub_diag, Z.add_0_r. split; [done|]. split; [|done].
    unfold grown_ent. rewrite <- Hm, <- Hq, (ent_same F i e Hi). exact HM. }
  assert (0 < length p)%nat as Hp0 by (destruct p; [done|cbn; lia]). rewrite (proj2 (Z.leb_gt _ _)) by lia.
  set (l := e_l e) in *. set (k := (length l / 512)%nat). rewrite length_app in Hlen.
  pose proof (Nat.div_mod_eq (length l) 512) as Hd. fold k in Hd. pose proof (Nat.mod_upper_bound (length l) 512 ltac:(lia)) as Hmd.
  assert (Z.of_nat (length l) / 512 = Z.of_nat k) as HkZ by (unfold k; rewrite Nat2Z.inj_div; done). rewrite HkZ.
  rewrite (proj2 (Z.leb_gt _ _)) by (unfold MAXFILE; lia).
  set (n1 := Nat.min (length p) (512 * (k + 1) - length l)). set (p1 := take n1 p).
  assert (length p1 = n1) as Hp1 by (unfold p1; rewrite length_take; lia).
  assert (length (l ++ p1) = length l + n1)%nat as Hl1 by (rewrite length_app; lia).
  destruct (cost_need (length l) (length (l ++ p1)) k eq_refl ltac:(lia)) as (Hcost & Hnb & Hknb & Hmax).
  pose proof (need_mono (length (l ++ p1)) (length (l ++ p)) ltac:(rewrite !length_app; lia)) as Hmono.
  destruct (addr_spec D fb F i e fi k HM Hi Hq ltac:(lia) ltac:(lia)) as (D1 & d1 & Hrun & HM1 & Hmt1 & Hsm1); [rewrite Hm; lia|].
  cbn zeta in HM1. change (e_l e) with l in HM1. rewrite Hm in Hrun, HM1. rewrite Hmax in HM1. rewrite Hcost in Hrun, HM1. rewrite (bind_run _ _ _ _ _ Hrun).
  set (e1 := mkEnt d1 l (S k) (12 <? S k)%nat) in *. assert (<[i := e1]> F !! i = Some e1) as Hi1 by (apply list_lookup_insert_eq; by eapply lookup_lt_Some).
  assert (slot D1 d1 k ≠ 0) as Hs1.
  { rewrite slot_addr by lia. apply (f_addr _ _ (md_file _ _ _ HM1 _ _ Hi1)); cbn [e_m e1]; lia. }
  destruct (slot_bound D1 _ _ i e1 HM1 Hi1 k ltac:(lia) Hs1) as [Hsr Hsl]. cbn [e_d e1] in Hsr, Hsl.
  replace (Z.min (Z.of_nat (length p)) ((Z.of_nat k + 1) * 512 - Z.of_nat (length l))) with (Z.of_nat n1) by lia.
  rewrite (bind_run _ _ _ _ _ (rsect_run _ D1 fi _ Hsl)). rewrite (bind_run _ _ _ _ _ (wsect_run _ _ D1 fi _ Hsl)).
  rewrite Nat2Z.id. fold p1. replace (Z.to_nat (Z.of_nat (length l) - Z.of_nat k * 512)) with (length l - 512 * k)%nat by lia.
  pose proof (write_tail D1 _ _ i e1 p1 k HM1 Hi1 eq_refl ltac:(cbn; lia) ltac:(cbn [e_l e1]; lia)) as HM2. cbn zeta in HM2.
  cbn [e_d e_l e_m e_q e1] in HM2. rewrite list_insert_insert_eq in HM2.
  set (c := Z.to_nat (slot D1 d1 k)) in *. set (D2 := <[c := splice (length l - 512 * k) p1 (blk D1 c)]> D1) in *.
  set (e2 := mkEnt d1 (l ++ p1) (S k) (12 <? S k)%nat) in *.
  assert (<[i := e2]> F !! i = Some e2) as Hi2 by (apply list_lookup_insert_eq; by eapply lookup_lt_Some).
  assert (l ++ p1 ++ drop n1 p = l ++ p) as Happ by (unfold p1; by rewrite take_drop).
  destruct (IH (drop n1 p) D2 _ _ i e2 fi HM2 Hi2) as (D3 & d3 & Hrun3 & HM3 & Hmt3 & Hsm3).
  - split; cbn [e_m e_l e2 e_q]; [by rewrite Hnb|done].
  - cbn [e_l e2]. rewrite <- app_assoc, Happ, length_app. lia.
  - cbn [e_l e2]. rewrite <- app_assoc, Happ. lia.
  - rewrite length_drop. lia.
  - cbn [e_l e_d e2] in *. rewrite <- app_assoc, Happ in *. exists D3, d3. cbn zeta in *. rewrite list_insert_insert_eq in HM3.
    replace (fb + (need (length (l ++ p1)) - need (length l)) + (need (length (l ++ p)) - need (length (l ++ p1))))
      with (fb + (need (length (l ++ p)) - need (length l))) in * by lia.
    split; [|split; [exact HM3|split; [|by eapply same_trans]]].
    + rewrite <- Hrun3, length_drop. rewrite Hl1. f_equal; lia.
    + eapply meta_trans; [exact Hmt1|]. eapply meta_trans; [|exact Hmt3]. apply meta_insert; [unfold c, DS; lia|exact Hsl].
Qed.
