(* ===== verification/Mkimg.v ===== *)
(** * The image while mkfs builds it

    [minv D G]: the inodes of the image are [G] (type and contents, from inode 1 on), their
    blocks lie one after the other behind the metadata, the other inodes are free and the
    log is empty.  ialloc, iappend and the loops over a file's data act on [G]. *)

From S2P Require Import Prelude CStr Bytes Blocks Log Fs Tx Bitmap Content Bmap Rw Inode Mkfs Mkinv Mkrun.

Abbreviation afile := (Z * list Z)%type.
Definition needs (G : list afile) : Z := foldr (λ g s, need (length g.2) + s) 0 G.
Definition mk_state (D : list block) (G : list afile) : mkst := mkMk D (1 + Z.of_nat (length G)) (DS + needs G).
Definition free_dinode : dinode := mkDinode 0 0 0 0 0 (replicate 13 0).

(** What inode [e] says about the file [g]. *)
Record entry (e : ent) (g : afile) : Prop := {
  en_whole : whole e;
  en_data : e_l e = g.2;
  en_type : d_type (e_d e) = g.1;
  en_nlink : d_nlink (e_d e) = 1;
  en_size : d_size (e_d e) = Z.of_nat (length g.2) }.
Record minv (D : list block) (G : list afile) : Prop := {
  mi_room : Z.of_nat (length G) < NINODES;
  mi_files : ∃ F, mdata D (DS + needs G) F ∧ Forall2 entry F G ∧
    ∀ i e, F !! i = Some e → disk_inode mk_sb (iv D) (1 + Z.of_nat i) = e_d e;
  mi_free inum : 0 ≤ inum < NINODES → (inum < 1 ∨ 1 + Z.of_nat (length G) ≤ inum) → disk_inode mk_sb (iv D) inum = free_dinode;
  mi_sb : blk D 1 = put32s 0 sb_words zeros;
  mi_log j : (j < 32)%nat → j ≠ 1%nat → blk D j = zeros }.

(** ** Inode blocks *)
Lemma iblock_range inum : 0 ≤ inum < NINODES → (32 ≤ iblock mk_sb inum < 58)%nat.
Proof.
  unfold NINODES, iblock, IBLOCK, mk_sb, IPB, nlog. cbn [sb_inodestart]. intros H.
  pose proof (Z.div_pos inum 8 ltac:(lia) ltac:(lia)). pose proof (Z.div_lt_upper_bound inum 8 26 ltac:(lia) ltac:(lia)). lia.
Qed.
Lemma IBLOCK_nonneg inum : 0 ≤ inum → 0 ≤ IBLOCK inum mk_sb.
Proof. unfold IBLOCK, IPB, mk_sb, nlog. cbn [sb_inodestart]. intros H. pose proof (Z.div_pos inum 8 H ltac:(lia)). lia. Qed.
Definition put_image (inum : Z) (d : dinode) (D : list block) : list block :=
  <[iblock mk_sb inum := put_dinode (dip inum) d (blk D (iblock mk_sb inum))]> D.
Lemma rinode_run inum D fi fb :
  0 ≤ inum < NINODES → length D = 1000%nat → rinode inum (mkMk D fi fb) = Ok (disk_inode mk_sb (iv D) inum) (mkMk D fi fb).
Proof.
  intros Hi HL. pose proof (iblock_range inum Hi) as Hb. unfold rinode. unfold iblock in Hb.
  by rewrite (bind_run _ _ _ _ _ (rsect_run (IBLOCK inum mk_sb) D fi fb ltac:(lia))).
Qed.
Lemma winode_run inum d D fi fb :
  0 ≤ inum < NINODES → length D = 1000%nat → winode inum d (mkMk D fi fb) = Ok tt (mkMk (put_image inum d D) fi fb).
Proof.
  intros Hi HL. pose proof (iblock_range inum Hi) as Hb. unfold winode. unfold iblock in Hb.
  rewrite (bind_run _ _ _ _ _ (rsect_run (IBLOCK inum mk_sb) D fi fb ltac:(lia))). by apply wsect_run; lia.
Qed.
Lemma blk_put_image inum d D j :
  0 ≤ inum < NINODES → length D = 1000%nat → j ≠ iblock mk_sb inum → blk (put_image inum d D) j = blk D j.
Proof.
  intros Hi HL Hj. pose proof (iblock_range inum Hi). unfold put_image. rewrite blk_insert by lia. by rewrite decide_False by done.
Qed.
Lemma disk_put_image inum d D j :
  0 ≤ inum < NINODES → 0 ≤ j → length D = 1000%nat → length (blk D (iblock mk_sb inum)) = 512%nat → dinode_ok d →
  disk_inode mk_sb (iv (put_image inum d D)) j = if decide (inum = j) then d else disk_inode mk_sb (iv D) j.
Proof.
  intros Hi Hj HL Hs Hd. pose proof (iblock_range inum Hi) as Hb.
  rewrite <- (disk_inode_put mk_sb inum d (iv D) j); [done|cbn; lia|done|done|apply IBLOCK_nonneg; lia|by apply IBLOCK_nonneg].
Qed.

(** ** Changes of the metadata keep the files *)
Lemma mdata_meta D D' fb F :
  mdata D fb F → length D' = 1000%nat → (∀ j, (j < 1000)%nat → length (blk D' j) = 512%nat) →
  (∀ j, DS ≤ Z.of_nat j → blk D' j = blk D j) → mdata D' fb F.
Proof.
  intros HM HL HS Hd. assert (∀ i e, F !! i = Some e → holds D' e ∧ ∀ n, slot D' (e_d e) n = slot D (e_d e) n) as Hf.
  { intros i e Hi. apply file_agree; [|by eapply md_file]. intros n Hn Hs. apply Hd.
    pose proof (md_range _ _ _ HM i e n Hi Hn Hs). unfold DS in *. lia. }
  split; [done|done|apply HM| | | |].
  - intros i e Hi. by eapply Hf.
  - intros i e n Hi Hn. destruct (Hf i e Hi) as [_ ->]. by eapply md_range.
  - intros i j e e' n k Hi Hj Hn Hk. destruct (Hf i e Hi) as [_ ->], (Hf j e' Hj) as [_ ->]. by eapply md_inj.
  - intros j Hj Hj'. rewrite Hd; [by apply (md_zero _ _ _ HM)|]. pose proof (md_fb _ _ _ HM). lia.
Qed.
Lemma mdata_put_image D fb F inum d : mdata D fb F → 0 ≤ inum < NINODES → mdata (put_image inum d D) fb F.
Proof.
  intros HM Hi. pose proof (iblock_range inum Hi) as Hb. pose proof (md_len _ _ _ HM) as HL.
  apply (mdata_meta D); [exact HM|unfold put_image; by rewrite length_insert| |].
  - intros j Hj. unfold put_image. rewrite blk_insert by lia. case_decide; [rewrite length_put_dinode|]; apply (md_size _ _ _ HM); lia.
  - intros j Hj. apply blk_put_image; [done|done|]. unfold DS in Hj. lia.
Qed.
Lemma mdata_resize D fb F i e z :
  mdata D fb F → F !! i = Some e → 0 ≤ z < 2 ^ 32 → mdata D fb (<[i := mkEnt (with_size z (e_d e)) (e_l e) (e_m e) (e_q e)]> F).
Proof.
  intros HM Hi Hz. eapply (mdata_upd D fb F i e _ D fb 140); [exact HM|done|apply HM|apply HM|done| |done|by left].
  destruct (md_file _ _ _ HM _ _ Hi) as [[] ? ? ? ? ? ?]. by split.
Qed.
Lemma zero_daddr z ty nl n : daddr (mkDinode ty 0 0 nl z (replicate 13 0)) n = 0.
Proof.
  unfold daddr. cbn [d_addrs]. destruct (decide (n < 13)%nat); [by rewrite lookup_replicate_2|].
  rewrite lookup_ge_None_2; [done|]. rewrite length_replicate. lia.
Qed.
Lemma zero_slot D z ty nl n : slot D (mkDinode ty 0 0 nl z (replicate 13 0)) n = 0.
Proof. unfold slot, addr_at. rewrite !zero_daddr. by destruct (n =? 140)%nat, (n <? 12)%nat. Qed.
Definition new_ent (ty : Z) : ent := mkEnt (mkDinode ty 0 0 1 0 (replicate 13 0)) [] 0 false.
Lemma new_dinode_ok ty : s16 ty → dinode_ok (mkDinode ty 0 0 1 0 (replicate 13 0)).
Proof. intros H. split; cbn; [done|unfold s16; lia..|done|]. repeat constructor; lia. Qed.
Lemma mdata_new D fb F ty : mdata D fb F → s16 ty → mdata D fb (F ++ [new_ent ty]).
Proof.
  intros HM Hty. assert (∀ i e, (F ++ [new_ent ty]) !! i = Some e → F !! i = Some e ∨ e = new_ent ty) as Hcase.
  { intros i e. rewrite lookup_app_Some, list_lookup_singleton_Some. intros [?|(_ & _ & <-)]; [by left|by right]. }
  assert (∀ n, slot D (e_d (new_ent ty)) n = 0) as Hz by (intros n; apply zero_slot).
  split; [apply HM..| | | |apply HM].
  - intros i e [Hi| ->]%Hcase; [by eapply md_file|]. split; cbn [new_ent e_d e_l e_m e_q length]; [by apply new_dinode_ok|lia|lia| | |lia|lia].
    + intros n Hn. rewrite <- slot_addr by done. rewrite zero_slot. lia.
    + rewrite zero_daddr. by split.
  - intros i e n [Hi| ->]%Hcase Hn; [by eapply md_range|]. by rewrite Hz.
  - intros i j e e' n k [Hi| ->]%Hcase Hj' Hn Hk Hs E; [|by rewrite Hz in Hs].
    apply Hcase in Hj' as Hj. destruct Hj as [Hj| ->]; [by eapply (md_inj _ _ _ HM)|rewrite Hz in E; done].
Qed.

(** ** ialloc and iappend *)
Lemma need_0 : need 0 = 0.
Proof. done. Qed.
Lemma need_nonneg n : 0 ≤ need n.
Proof. unfold need, with_ind. destruct (12 <? nb n)%nat; lia. Qed.
Lemma needs_app G G' : needs (G ++ G') = needs G + needs G'.
Proof. induction G as [|g G IH]; [done|]. cbn [app needs foldr]. fold (needs (G ++ G')) (needs G). rewrite IH. lia. Qed.
Lemma needs_nonneg G : 0 ≤ needs G.
Proof. induction G as [|g G IH]; [done|]. cbn [needs foldr]. fold (needs G). pose proof (need_nonneg (length g.2)). lia. Qed.
Lemma needs_insert G i g g' : G !! i = Some g → needs (<[i := g']> G) = needs G + (need (length g'.2) - need (length g.2)).
Proof.
  revert i. induction G as [|g0 G IH]; intros [|i] Hi; cbn in Hi; [done|done|injection Hi as ->|].
  - cbn [needs foldr insert list_insert]. lia.
  - apply IH in Hi. change (<[S i := g']> (g0 :: G)) with (g0 :: <[i := g']> G). cbn [needs foldr]. fold (needs (<[i:=g']> G)) (needs G). lia.
Qed.
Lemma minv_len D G : minv D G → length D = 1000%nat ∧ (∀ j, (j < 1000)%nat → length (blk D j) = 512%nat).
Proof. intros [_ (F & HM & _) _ _ _]. split; apply HM. Qed.

Lemma ialloc_spec D G ty :
  minv D G → Z.of_nat (length G) < 199 → s16 ty →
  ∃ D', Mkfs.ialloc ty (mk_state D G) = Ok (1 + Z.of_nat (length G)) (mk_state D' (G ++ [(ty, [])])) ∧ minv D' (G ++ [(ty, [])]).
Proof.
  intros HI Hr Hty. destruct (minv_len _ _ HI) as [HL HS]. set (inum := 1 + Z.of_nat (length G)). assert (0 ≤ inum < NINODES) as Hin by (unfold inum, NINODES; lia).
  pose proof (iblock_range inum Hin) as Hib. set (d0 := mkDinode ty 0 0 1 0 (replicate 13 0)). exists (put_image inum d0 D).
  assert (needs (G ++ [(ty, [])]) = needs G) as Hn by (rewrite needs_app; cbn [needs foldr length snd]; rewrite need_0; lia). split.
  - unfold Mkfs.ialloc, mk_state. unfold mbind at 1, M_bind at 1, get at 1. cbn [freeinode]. unfold mbind at 1, M_bind at 1, modify at 1. cbn [freeinode img freeblock].
    fold inum d0. rewrite (bind_run _ _ _ _ _ (winode_run inum d0 D _ _ Hin HL)). rewrite Hn, length_app, u32_small by (unfold NINODES in Hin; lia).
    unfold mret, M_ret. do 2 f_equal. cbn [length]. unfold inum. lia.
  - destruct HI as [_ (F & HM & HE & HD) Hfree Hsb Hlog]. pose proof (Forall2_length _ _ _ HE) as Hlen.
    assert (∀ j, 0 ≤ j → disk_inode mk_sb (iv (put_image inum d0 D)) j = if decide (inum = j) then d0 else disk_inode mk_sb (iv D) j) as Hdisk.
    { intros j Hj. apply disk_put_image; [done|done|done|apply HS; lia|by apply new_dinode_ok]. }
    split; rewrite ?length_app, ?Hn; cbn [length].
    + unfold NINODES. lia.
    + exists (F ++ [new_ent ty]). split; [by apply mdata_new; [apply mdata_put_image|]|]. split; [by apply Forall2_app; [|constructor; [split|]]|].
      intros i e Hi. rewrite Hdisk by lia. apply lookup_app_Some in Hi as [Hi|[Hi Hs]].
      * pose proof (lookup_lt_Some _ _ _ Hi). rewrite decide_False by lia. by apply HD.
      * apply list_lookup_singleton_Some in Hs as [Hs <-]. by rewrite decide_True by lia.
    + intros j Hj Hf. rewrite Hdisk, decide_False by lia. apply Hfree; [done|lia].
    + rewrite blk_put_image; [done|done|done|lia].
    + intros j Hj Hj1. rewrite blk_put_image; [by apply Hlog|done|done|lia].
Qed.
Lemma iappend_spec D G i ty l p :
  minv D G → G !! i = Some (ty, l) → Z.of_nat (length (l ++ p)) ≤ 71680 → DS + needs (<[i := (ty, l ++ p)]> G) ≤ FSSIZE →
  ∃ D', iappend (1 + Z.of_nat i) p (mk_state D G) = Ok tt (mk_state D' (<[i := (ty, l ++ p)]> G)) ∧ minv D' (<[i := (ty, l ++ p)]> G).
Proof.
  intros HI Hi Hl Hfb. destruct (minv_len _ _ HI) as [HL HS]. destruct HI as [Hroom (F & HM & HE & HD) Hfree Hsb Hlog].
  pose proof (lookup_lt_Some _ _ _ Hi) as Hlt. pose proof (Forall2_length _ _ _ HE) as Hlen.
  destruct (Forall2_lookup_r _ _ _ _ _ HE Hi) as (e & Hie & [Hw Hd Hty Hnl Hsz]). cbn [fst snd] in *.
  set (inum := 1 + Z.of_nat i). assert (0 ≤ inum < NINODES) as Hin by (unfold inum; lia). pose proof (iblock_range inum Hin) as Hib.
  pose proof (needs_insert G i _ (ty, l ++ p) Hi) as Hneeds. cbn [snd] in Hneeds. rewrite Hneeds in Hfb. unfold FSSIZE in Hfb.
  destruct (loop_spec (S (length p)) p D _ F i e (1 + Z.of_nat (length G)) HM Hie Hw) as (D1 & d1 & Hrun & HM1 & Hmt & Hsm); rewrite ?Hd; [done|lia|lia|].
  rewrite Hd in *. cbn zeta in *. destruct Hsm as (S1 & S2 & S3 & S4 & S5). pose proof (md_len _ _ _ HM1) as HL1.
  set (d2 := with_size (Z.of_nat (length (l ++ p))) d1). set (e2 := mkEnt d2 (l ++ p) (nb (length (l ++ p))) (12 <? nb (length (l ++ p)))%nat).
  assert (<[i := grown_ent d1 (l ++ p)]> F !! i = Some (grown_ent d1 (l ++ p))) as Hi1 by (apply list_lookup_insert_eq; lia).
  pose proof (mdata_resize _ _ _ i _ (Z.of_nat (length (l ++ p))) HM1 Hi1 ltac:(lia)) as HM2. cbn [grown_ent e_d e_l e_m e_q] in HM2. fold d2 in HM2. fold e2 in HM2.
  rewrite list_insert_insert_eq in HM2. assert (<[i := e2]> F !! i = Some e2) as Hi2 by (apply list_lookup_insert_eq; lia).
  exists (put_image inum d2 D1). split.
  - unfold iappend, mk_state. rewrite (bind_run _ _ _ _ _ (rinode_run inum D _ _ Hin HL)). change (disk_inode mk_sb (iv D) inum) with (disk_inode mk_sb (iv D) (1 + Z.of_nat i)). rewrite (HD i e Hie), Hsz.
    rewrite (bind_run _ _ _ _ _ Hrun). fold d2 inum. rewrite (winode_run inum d2 D1 _ _ Hin HL1), length_insert, Hneeds. do 2 f_equal. lia.
  - assert (∀ j, 0 ≤ j < NINODES → disk_inode mk_sb (iv (put_image inum d2 D1)) j = if decide (inum = j) then d2 else disk_inode mk_sb (iv D) j) as Hdisk.
    { intros j Hj. rewrite disk_put_image; [|done|lia|done|apply (md_size _ _ _ HM1); lia|exact (f_ok _ _ (md_file _ _ _ HM2 _ _ Hi2))].
      case_decide; [done|]. unfold disk_inode. rewrite Hmt; [done|]. pose proof (iblock_range j Hj). unfold DS. lia. }
    split; rewrite ?length_insert, ?Hneeds.
    + done.
    + exists (<[i := e2]> F). split; [|split].
      * apply mdata_put_image; [|done]. replace (DS + (needs G + (need (length (l ++ p)) - need (length l)))) with (DS + needs G + (need (length (l ++ p)) - need (length l))) by lia. exact HM2.
      * apply Forall2_insert; [done|]. split; cbn [e2 d2 e_d e_l fst snd d_type d_nlink d_size with_size]; [done|done|congruence|congruence|done].
      * intros k e' Hk. pose proof (lookup_lt_Some _ _ _ Hk) as Hkl. rewrite length_insert in Hkl. rewrite Hdisk by lia.
        apply list_lookup_insert_Some in Hk as [(-> & <- & _)|[Hne Hk]]; [by rewrite decide_True|]. rewrite decide_False by (unfold inum; lia). by apply HD.
    + intros j Hj Hf. rewrite Hdisk by done. rewrite decide_False by (unfold inum; lia). by apply Hfree.
    + rewrite blk_put_image; [|done|done|lia]. rewrite Hmt; [done|unfold DS; lia].
    + intros j Hj Hj1. rewrite blk_put_image; [|done|done|lia]. rewrite Hmt; [by apply Hlog|unfold DS; lia].
Qed.

(** ** The files of the command line *)
Lemma needs_grow G i ty l p q :
  G !! i = Some (ty, l) → needs (<[i := (ty, l ++ p)]> G) ≤ needs (<[i := (ty, l ++ p ++ q)]> G).
Proof.
  intros Hi. rewrite !(needs_insert G i _ _ Hi). cbn [snd]. pose proof (need_mono (length (l ++ p)) (length (l ++ p ++ q))) as H.
  rewrite !length_app in *. lia.
Qed.
Lemma append_chunks_spec fuel : ∀ data D G i ty l,
  minv D G → G !! i = Some (ty, l) → Z.of_nat (length (l ++ data)) ≤ 71680 → DS + needs (<[i := (ty, l ++ data)]> G) ≤ FSSIZE → (length data < fuel)%nat →
  ∃ D', append_chunks fuel (1 + Z.of_nat i) data (mk_state D G) = Ok tt (mk_state D' (<[i := (ty, l ++ data)]> G)) ∧ minv D' (<[i := (ty, l ++ data)]> G).
Proof.
  induction fuel as [|fuel IH]; intros data D G i ty l HI Hi Hl Hn Hf; [lia|]. cbn [append_chunks].
  destruct data as [|b data]; [rewrite app_nil_r, list_insert_id by done; by exists D|].
  set (p := take 512 (b :: data)). set (q := drop 512 (b :: data)). assert (b :: data = p ++ q) as E by (symmetry; apply take_drop).
  assert (length q < length (b :: data))%nat as Hq by (unfold q; rewrite length_drop; cbn [length]; lia). rewrite E in Hl, Hn |- *.
  pose proof (needs_grow G i ty l p q Hi). rewrite app_assoc, length_app in Hl.
  destruct (iappend_spec D G i ty l p HI Hi) as (D1 & Hrun & HI1); [lia|lia|]. rewrite (bind_run _ _ _ _ _ Hrun).
  destruct (IH q D1 _ i ty (l ++ p) HI1) as (D2 & Hrun2 & HI2).
  - apply list_lookup_insert_eq. by eapply lookup_lt_Some.
  - rewrite length_app. lia.
  - rewrite list_insert_insert_eq, <- app_assoc. done.
  - lia.
  - rewrite list_insert_insert_eq, <- app_assoc in Hrun2, HI2. by exists D2.
Qed.

(** The directory entries that mkfs writes for its files. *)
Fixpoint listing (inum : Z) (files : list (list Z * list Z)) : list Z :=
  match files with
  | [] => []
  | f :: files' => dirent inum (skip_underscore f.1) ++ listing (inum + 1) files'
  end.
Lemma length_dirent inum name : length (dirent inum name) = 16%nat.
Proof. unfold dirent. rewrite length_app, length_take, length_app, length_replicate. unfold DIRSIZ. cbn [length]. lia. Qed.
Lemma length_listing inum files : length (listing inum files) = (16 * length files)%nat.
Proof. revert inum. induction files as [|f files IH]; intros inum; [done|]. cbn [listing length]. rewrite length_app, length_dirent, IH. lia. Qed.
Definition file_ok (f : list Z * list Z) : Prop := (SLASH ∉ f.1) ∧ Z.of_nat (length f.2) ≤ 71680.
Definition as_file (f : list Z * list Z) : afile := (T_FILE, f.2).

Lemma add_file_spec D r fs f :
  let G := (T_DIR, r) :: fs in let inum := 1 + Z.of_nat (length G) in
  let G' := (T_DIR, r ++ dirent inum (skip_underscore f.1)) :: fs ++ [as_file f] in
  minv D G → Z.of_nat (length G) < 199 → file_ok f → Z.of_nat (length r) ≤ 71664 → DS + needs G' ≤ FSSIZE →
  ∃ D', add_file 1 f (mk_state D G) = Ok tt (mk_state D' G') ∧ minv D' G'.
Proof.
  intros G inum G' HI Hlen [Hs Hd] Hr Hn. destruct f as [name data]. cbn [fst snd] in *. unfold add_file. rewrite bool_decide_false by done.
  destruct (ialloc_spec D G T_FILE HI Hlen) as (D1 & Hrun1 & HI1); [unfold s16, T_FILE; lia|]. rewrite (bind_run _ _ _ _ _ Hrun1). fold inum.
  set (de := dirent inum (skip_underscore name)) in *. set (G1 := G ++ [(T_FILE, [])]) in *. set (G2 := <[0%nat := (T_DIR, r ++ de)]> G1).
  assert (G2 !! length G = Some (T_FILE, [])) as Hlast.
  { unfold G2. rewrite list_lookup_insert_ne by done. unfold G1. by rewrite lookup_app_r, Nat.sub_diag by lia. }
  assert (<[length G := (T_FILE, [] ++ data)]> G2 = G') as HG'.
  { unfold G2, G1, G'. change (<[0%nat := (T_DIR, r ++ de)]> (G ++ [(T_FILE, [])])) with ((T_DIR, r ++ de) :: fs ++ [(T_FILE, [] : list Z)]).
    change ((T_DIR, r ++ de) :: <[length fs := (T_FILE, [] ++ data)]> (fs ++ [(T_FILE, [] : list Z)]) = (T_DIR, r ++ de) :: fs ++ [(T_FILE, data)]).
    rewrite insert_app_r_alt, Nat.sub_diag by lia. done. }
  pose proof (needs_insert G2 (length G) _ (T_FILE, [] ++ data) Hlast) as Hgrow. rewrite HG' in Hgrow. cbn [snd app length] in Hgrow.
  pose proof (need_nonneg (length data)). rewrite need_0 in Hgrow.
  destruct (iappend_spec D1 G1 0 T_DIR r de HI1) as (D2 & Hrun2 & HI2); [done| |fold G2; lia|].
  { rewrite length_app. unfold de. rewrite length_dirent. lia. }
  rewrite (bind_run _ _ _ _ _ Hrun2). fold G2 in HI2 |- *.
  destruct (append_chunks_spec (S (length data)) data D2 G2 (length G) T_FILE [] HI2 Hlast) as (D3 & Hrun3 & HI3); [done|rewrite HG'; done|lia|].
  rewrite HG' in Hrun3, HI3. by exists D3.
Qed.
