(* ===== verification/Mkmain.v ===== *)
(** * main of mkfs, and the image it leaves

    [mkfs_correct]: the image is a file system that the kernel can mount, with the files
    of the command line in its root directory. *)

From S2P Require Import Prelude CStr Bytes Blocks Log Fs Tx Bitmap Content Bmap Rw Inode Mkfs Mkinv Mkrun Mkimg.

Lemma needs_cons g G : needs (g :: G) = need (length g.2) + needs G.
Proof. done. Qed.
Lemma add_files_spec files : ∀ D r fs,
  let inum := 2 + Z.of_nat (length fs) in
  let G' := (T_DIR, r ++ listing inum files) :: fs ++ (as_file <$> files) in
  minv D ((T_DIR, r) :: fs) → Z.of_nat (length fs + length files) < 199 → Forall file_ok files →
  Z.of_nat (length r + 16 * length files) ≤ 71680 → DS + needs G' ≤ FSSIZE →
  ∃ D', for_each files (add_file 1) (mk_state D ((T_DIR, r) :: fs)) = Ok tt (mk_state D' G') ∧ minv D' G'.
Proof.
  induction files as [|f files IH]; intros D r fs inum G' HI Hlen Hok Hr Hn.
  { unfold G'. cbn [listing]. rewrite fmap_nil, !app_nil_r. by exists D. }
  inversion_clear Hok as [|? ? Hf Hfs]. cbn [length] in *. set (de := dirent inum (skip_underscore f.1)).
  assert (G' = (T_DIR, (r ++ de) ++ listing (2 + Z.of_nat (length (fs ++ [as_file f]))) files) :: (fs ++ [as_file f]) ++ (as_file <$> files)) as HG'.
  { unfold G'. cbn [listing]. fold de. rewrite fmap_cons, <- !app_assoc, length_app. cbn [length app]. by replace (2 + Z.of_nat (length fs + 1)) with (inum + 1) by (unfold inum; lia). }
  assert (needs ((T_DIR, r ++ de) :: fs ++ [as_file f]) ≤ needs G') as Hle.
  { rewrite HG', !needs_cons, (needs_app (fs ++ [_])). cbn [snd]. pose proof (needs_nonneg (as_file <$> files)).
    pose proof (need_mono (length (r ++ de)) (length ((r ++ de) ++ listing (2 + Z.of_nat (length (fs ++ [as_file f]))) files)) ltac:(rewrite (length_app (r ++ de)); lia)). lia. }
  cbn [for_each]. assert (1 + Z.of_nat (length ((T_DIR, r) :: fs)) = inum) as Hin by (unfold inum; cbn [length]; lia).
  destruct (add_file_spec D r fs f HI) as (D1 & Hrun & HI1); [cbn [length]; lia|done|lia|rewrite Hin; fold de; lia|].
  rewrite Hin in Hrun, HI1. fold de in Hrun, HI1. rewrite (bind_run _ _ _ _ _ Hrun).
  destruct (IH D1 (r ++ de) (fs ++ [as_file f]) HI1) as (D2 & Hrun2 & HI2); [rewrite length_app; cbn [length]; lia|done| |by rewrite <- HG'|].
  - rewrite length_app. unfold de. rewrite length_dirent. lia.
  - rewrite <- HG' in Hrun2, HI2. by exists D2.
Qed.

(** ** The empty image *)
Lemma zeroing k m fi fb :
  for_each (seq k m) (λ i, wsect (Z.of_nat i) zeros) (mkMk (replicate k zeros) fi fb) = Ok tt (mkMk (replicate (k + m) zeros) fi fb).
Proof.
  revert k. induction m as [|m IH]; intros k; [by rewrite Nat.add_0_r|]. cbn [seq for_each].
  assert (wsect (Z.of_nat k) zeros (mkMk (replicate k zeros) fi fb) = Ok tt (mkMk (replicate (S k) zeros) fi fb)) as Hw.
  { unfold wsect, modify. cbn [img freeinode freeblock]. rewrite Nat2Z.id, length_replicate, Nat.ltb_irrefl, Nat.sub_diag. cbn [replicate app].
    do 2 f_equal. symmetry. apply replicate_cons_app. }
  rewrite (bind_run _ _ _ _ _ Hw), IH. by rewrite Nat.add_succ_r.
Qed.
Definition blank : list block := <[1%nat := put32s 0 sb_words zeros]> (replicate 1000 zeros).
Lemma blk_blank j : (j < 1000)%nat → blk blank j = if decide (1%nat = j) then put32s 0 sb_words zeros else zeros.
Proof.
  intros Hj. unfold blank. rewrite blk_insert by (rewrite length_replicate; lia). case_decide; [done|].
  unfold vblock. cbn [iv quiet bv_cur]. by rewrite lookup_replicate_2.
Qed.
Lemma byte_zeros o : byte_at zeros o = 0.
Proof.
  unfold byte_at, zeros, BSIZE. destruct (decide (o < 512)%nat); [by rewrite lookup_replicate_2|].
  rewrite lookup_ge_None_2; [done|]. rewrite length_replicate. lia.
Qed.
Lemma dinode_zeros o : dinode_at zeros o = free_dinode.
Proof.
  unfold dinode_at, free_dinode, get16, get32s. rewrite !get32_zeros, !byte_zeros. f_equal.
  change (replicate 13 0) with ((λ _ : nat, 0) <$> seq 0 13). apply list_fmap_ext. intros i x _. apply get32_zeros.
Qed.
Lemma blank_inv : minv blank [].
Proof.
  assert (length blank = 1000%nat) as HL by (unfold blank; by rewrite length_insert, length_replicate).
  split; [done| | | |].
  - exists []. split; [|by split; [constructor|]]. split; [done| |cbn; unfold DS; lia|done..|].
    + intros j Hj. rewrite blk_blank by done. case_decide; [rewrite length_put32s|]; apply length_replicate.
    + intros j Hj1 Hj2. rewrite blk_blank by done. cbn in Hj1. unfold DS in Hj1. by rewrite decide_False by lia.
  - intros inum Hi _. pose proof (iblock_range inum Hi). unfold disk_inode. rewrite blk_blank, decide_False by lia. apply dinode_zeros.
  - by rewrite blk_blank by lia.
  - intros j Hj Hj1. by rewrite blk_blank, decide_False by lia.
Qed.

(** ** Reading the files back *)
Lemma byte_chunk l o : byte_at (chunk l (o / 512)) (o mod 512) = default 0 (l !! o).
Proof.
  pose proof (Nat.div_mod_eq o 512) as Hd. pose proof (Nat.mod_upper_bound o 512 ltac:(lia)) as Hm.
  set (n := (o / 512)%nat) in *. set (k := (o mod 512)%nat) in *. unfold chunk, pad, byte_at. set (x := take 512 (drop (512 * n) l)).
  assert (length x = (length l - 512 * n) `min` 512)%nat as Hx by (unfold x; rewrite length_take, length_drop; lia).
  destruct (decide (k < length x)%nat) as [Hk|Hk].
  - rewrite lookup_app_l by done. unfold x. rewrite lookup_take_lt by done. rewrite lookup_drop. by rewrite <- Hd.
  - rewrite lookup_app_r by lia. rewrite lookup_replicate_2 by lia. rewrite lookup_ge_None_2 by lia. done.
Qed.
Lemma fblock_chunk D e n : holds D e → (n < 140)%nat → fblock (iv D) (e_d e) n = chunk (e_l e) n.
Proof.
  intros HF Hn. unfold fblock. destruct (Z.eqb_spec (addr_at (iv D) (e_d e) n) 0) as [E|E].
  - symmetry. apply chunk_beyond. pose proof (f_len _ _ HF). destruct (decide (n < e_m e)%nat) as [Hlt|]; [|lia].
    by apply (f_addr _ _ HF) in Hlt.
  - apply (f_blk _ _ HF). by apply (f_addr _ _ HF).
Qed.
Lemma fmap_default (l : list Z) m : (length l ≤ m)%nat → ((λ o, default 0 (l !! o)) <$> seq 0 m) = l ++ replicate (m - length l) 0.
Proof.
  intros Hm. apply list_eq. intros i. rewrite list_lookup_fmap. destruct (decide (i < m)%nat) as [Hi|Hi].
  - rewrite lookup_seq_lt by done. cbn [fmap option_fmap option_map Nat.add]. destruct (decide (i < length l)%nat).
    + rewrite lookup_app_l by done. destruct (lookup_lt_is_Some_2 l i ltac:(done)) as [x ->]. done.
    + rewrite lookup_app_r, lookup_replicate_2, lookup_ge_None_2 by lia. done.
  - rewrite lookup_seq_ge by lia. rewrite lookup_ge_None_2; [done|]. rewrite length_app, length_replicate. lia.
Qed.
Lemma content_file D e :
  holds D e → Z.of_nat (length (e_l e)) ≤ d_size (e_d e) ≤ 71680 →
  content (iv D) (e_d e) = e_l e ++ replicate (Z.to_nat (d_size (e_d e)) - length (e_l e)) 0.
Proof.
  intros HF Hs. unfold content. rewrite <- fmap_default by lia. apply list_fmap_ext. intros k o [-> Hk]%lookup_seq. cbn [Nat.add].
  unfold fbyte. rewrite (fblock_chunk D e); [apply byte_chunk|done|]. apply Nat.Div0.div_lt_upper_bound. lia.
Qed.
Lemma owned_slot D d c : c ∈ owned (iv D) d ↔ ∃ n, (n ≤ 140)%nat ∧ slot D d n ≠ 0 ∧ c = Z.to_nat (slot D d n).
Proof.
  rewrite owned_spec. unfold NBLOCKS. split.
  - intros [(n & Hn & Hz & ->)|[Hz ->]]; [exists n; rewrite slot_addr by done; split; [lia|done]|by exists 140%nat].
  - intros (n & Hn & Hz & ->). destruct (decide (n = 140%nat)) as [->|]; [right; done|]. left. exists n. rewrite slot_addr in * by lia. split; [lia|done].
Qed.
Lemma mdata_disjoint D fb F i j e e' : mdata D fb F → F !! i = Some e → F !! j = Some e' → i ≠ j → owned (iv D) (e_d e) ## owned (iv D) (e_d e').
Proof.
  intros HM Hi Hj Hne c (n & Hn & Hz & ->)%owned_slot (k & Hk & Hz' & E)%owned_slot. apply Hne.
  pose proof (md_range _ _ _ HM i e n Hi Hn Hz). pose proof (md_range _ _ _ HM j e' k Hj Hk Hz'). unfold DS in *.
  by destruct (md_inj _ _ _ HM i j e e' n k Hi Hj Hn Hk Hz ltac:(lia)).
Qed.
Lemma mdata_fwf D fb F i e :
  mdata D fb F → F !! i = Some e → (∀ b, DS ≤ b < fb → used mk_sb (iv D) b = true) → 0 ≤ d_size (e_d e) ≤ 512 * Z.of_nat (e_m e) → fwf mk_sb DS (iv D) (e_d e).
Proof.
  intros HM Hi Hu Hs. pose proof (md_file _ _ _ HM _ _ Hi) as HF. pose proof (f_max _ _ HF). pose proof (md_fb _ _ _ HM) as Hfb.
  assert (∀ n, (n ≤ 140)%nat → slot D (e_d e) n ≠ 0 → data_block mk_sb DS (iv D) (slot D (e_d e) n)) as Hdata.
  { intros n Hn Hz. pose proof (md_range _ _ _ HM i e n Hi Hn Hz). split; [cbn; unfold FSSIZE; lia|by apply Hu]. }
  unfold NBLOCKS, MAXFILE, BSZ in *. split; unfold NBLOCKS, MAXFILE, BSZ in *.
  - apply HF.
  - lia.
  - intros n Hn Hz. rewrite <- slot_addr in * by done. apply Hdata; [lia|done].
  - intros Hz. apply (Hdata 140%nat); [lia|done].
  - intros n m Hn Hm Hz E. rewrite <- !slot_addr in * by done. by destruct (md_inj _ _ _ HM i i e e n m Hi Hi ltac:(lia) ltac:(lia) Hz E).
  - intros n Hn Hz E. rewrite <- slot_addr in * by done. destruct (md_inj _ _ _ HM i i e e n 140 Hi Hi ltac:(lia) ltac:(lia) Hz E). lia.
  - intros n Hn. apply (f_addr _ _ HF); lia.
Qed.

(** ** The bitmap *)
Abbreviation bits n := (foldl (λ b i, set_bit i b) zeros (seq 0 n)).
Lemma length_bits n : length (bits n) = 512%nat.
Proof. induction n as [|n IH]; [apply length_replicate|]. rewrite seq_S, foldl_app. cbn [foldl]. by rewrite length_set_bit. Qed.
Lemma bits_set n b : (n ≤ 4096)%nat → bit_clear (bits n) b = negb (b <? n)%nat.
Proof.
  intros Hn. induction n as [|n IH].
  - cbn [foldl seq]. unfold bit_clear. by rewrite byte_zeros, Z.land_0_l.
  - rewrite seq_S, foldl_app. cbn [foldl Nat.add]. rewrite bit_clear_set by (rewrite length_bits; apply Nat.Div0.div_lt_upper_bound; lia).
    rewrite IH by lia. case_decide; destruct (Nat.ltb_spec b n), (Nat.ltb_spec b (S n)); (done || lia).
Qed.
Lemma used_bits D n b : blk D 58 = bits (Z.to_nat n) → 0 ≤ n ≤ 1000 → 0 ≤ b < 1000 → used mk_sb (iv D) b = (b <? n).
Proof.
  intros HD Hn Hb. unfold used, bmap_block, BBLOCK, BPB. rewrite Z.div_small, Z.mod_small by lia. change (Z.to_nat (0 + sb_bmapstart mk_sb)) with 58%nat.
  rewrite HD, bits_set, negb_involutive by lia. destruct (Nat.ltb_spec (Z.to_nat b) (Z.to_nat n)), (Z.ltb_spec b n); (done || lia).
Qed.

(** ** The finished image *)
Definition root_entries (files : list (list Z * list Z)) : list Z := dirent 1 [46] ++ dirent 1 [46; 46] ++ listing 2 files.
Definition tree (files : list (list Z * list Z)) : list afile := (T_DIR, root_entries files) :: (as_file <$> files).
Definition image_blocks (files : list (list Z * list Z)) : Z := DS + needs (tree files).
Record image (D : list block) (files : list (list Z * list Z)) : Prop := {
  im_sb : read_sb (blk D 1) = mk_sb;
  im_geom : geom mk_sb (length D) DS;
  im_log : recoverable 2 30 D ∧ hdr_list 2 D = [];
  im_used b : 0 ≤ b < FSSIZE → used mk_sb (iv D) b = (b <? image_blocks files);
  im_file k f : files !! k = Some f → let d := disk_inode mk_sb (iv D) (2 + Z.of_nat k) in
    d_type d = T_FILE ∧ d_nlink d = 1 ∧ fwf mk_sb DS (iv D) d ∧ content (iv D) d = f.2;
  im_root : let d := disk_inode mk_sb (iv D) ROOTINO in
    d_type d = T_DIR ∧ d_nlink d = 1 ∧ d_size d = (16 * (Z.of_nat (length files) + 2) / 512 + 1) * 512 ∧
    (∃ k, content (iv D) d = root_entries files ++ replicate k 0) ∧
    (fwf mk_sb DS (iv D) d ↔ (Z.of_nat (length files) + 2) mod 32 ≠ 0);
  im_disjoint i j : 1 ≤ i < 2 + Z.of_nat (length files) → 1 ≤ j < 2 + Z.of_nat (length files) → i ≠ j →
    owned (iv D) (disk_inode mk_sb (iv D) i) ## owned (iv D) (disk_inode mk_sb (iv D) j);
  im_free inum : 0 ≤ inum < NINODES → inum < 1 ∨ 2 + Z.of_nat (length files) ≤ inum → disk_inode mk_sb (iv D) inum = free_dinode }.

Lemma length_root files : length (root_entries files) = (16 * (length files + 2))%nat.
Proof. unfold root_entries. rewrite !length_app, !length_dirent, length_listing. lia. Qed.
Lemma mk_geom : geom mk_sb 1000 DS.
Proof.
  assert (∀ b, 0 ≤ b < 1000 → BBLOCK b mk_sb = 58) as HB by (intros b Hb; unfold BBLOCK, BPB; rewrite Z.div_small by lia; done).
  assert (∀ i, 0 ≤ i < NINODES → 32 ≤ IBLOCK i mk_sb < 58) as HI.
  { intros i Hi. pose proof (iblock_range i Hi) as H. unfold iblock in H. pose proof (IBLOCK_nonneg i ltac:(lia)). lia. }
  split; [done|done|done|done| | |done| | |done].
  - intros b Hb. by rewrite HB.
  - intros i b Hi Hb. rewrite HB by done. pose proof (HI i Hi). unfold DS. lia.
  - intros b Hb. rewrite HB by done. right. by cbn.
  - intros i Hi. pose proof (HI i Hi). right. change (sb_logstart mk_sb + sb_nlog mk_sb) with 32. lia.
Qed.
Lemma mk_log D : length D = 1000%nat → blk D 2 = zeros → recoverable 2 30 D ∧ hdr_list 2 D = [].
Proof.
  intros HL HD. assert (blk_at D 2 = zeros) as HB by exact HD.
  assert (hdr_n (blk_at D 2) = 0) as H0 by (rewrite HB; vm_compute; reflexivity).
  assert (hdr_list 2 D = []) as Hl by (unfold hdr_list; by rewrite H0).
  split; [|done]. split; rewrite ?H0, ?Hl; [lia|constructor| |constructor]. split; [by intros b ?%elem_of_nil|cbn; lia|lia].
Qed.

(** main's last steps. *)
Definition finish : MM unit :=
  din ← rinode 1; winode 1 (with_size ((d_size din / 512 + 1) * 512) din) ;; s ← get; Mkfs.balloc (freeblock s).
Lemma finish_run D files :
  let G := tree files in let z := (Z.of_nat (length (root_entries files)) / 512 + 1) * 512 in
  minv D G → image_blocks files ≤ FSSIZE →
  ∃ D' d, finish (mk_state D G) = Ok tt (mk_state D' G) ∧ disk_inode mk_sb (iv D) 1 = d ∧
    (length D' = 1000%nat ∧ blk D' 58 = bits (Z.to_nat (image_blocks files)) ∧ blk D' 1 = blk D 1 ∧ blk D' 2 = blk D 2) ∧
    (∀ fb F, mdata D fb F → mdata D' fb F) ∧
    ∀ j, 0 ≤ j < NINODES → disk_inode mk_sb (iv D') j = if decide (1 = j) then with_size z d else disk_inode mk_sb (iv D) j.
Proof.
  intros G z HI Hfb. destruct (minv_len _ _ HI) as [HL HS]. assert (0 ≤ 1 < NINODES) as H1 by done. pose proof (iblock_range 1 H1) as Hib.
  destruct HI as [Hroom (F & HM & HE & HD) _ _ _]. set (d := disk_inode mk_sb (iv D) 1).
  destruct (Forall2_lookup_r _ _ _ 0 _ HE eq_refl) as (e & He & [_ _ _ _ Hsz]). cbn [snd] in Hsz.
  assert (d = e_d e) as Hde by exact (HD 0%nat e He). assert (dinode_ok d) as Hdok by (rewrite Hde; exact (f_ok _ _ (md_file _ _ _ HM _ _ He))).
  assert (0 ≤ image_blocks files) as Hnn by (unfold image_blocks, DS; pose proof (needs_nonneg (tree files)); lia). unfold FSSIZE in Hfb.
  set (D1 := put_image 1 (with_size z d) D). assert (length D1 = 1000%nat) as HL1 by (unfold D1, put_image; by rewrite length_insert).
  set (D2 := <[58%nat := bits (Z.to_nat (image_blocks files))]> D1).
  assert (∀ j, blk D2 j = if decide (58%nat = j) then bits (Z.to_nat (image_blocks files)) else blk D1 j) as Hb by (intros j; apply blk_insert; lia).
  exists D2, d. split; [|split; [done|split; [split; [unfold D2; by rewrite length_insert|]|split]]].
  - unfold finish, mk_state. rewrite (bind_run _ _ _ _ _ (rinode_run 1 D _ _ H1 HL)). fold d.
    rewrite Hde, Hsz, <- Hde. fold z. rewrite (bind_run _ _ _ _ _ (winode_run 1 (with_size z d) D _ _ H1 HL)). fold D1.
    unfold mbind at 1, M_bind at 1, get at 1. cbn [freeblock]. unfold Mkfs.balloc. change (DS + needs G) with (image_blocks files). rewrite (proj2 (Z.leb_gt _ _)) by lia.
    by rewrite wsect_run by (rewrite HL1; change (Z.to_nat (sb_bmapstart mk_sb)) with 58%nat; lia).
  - split; [by rewrite Hb|]. split; rewrite Hb, decide_False by done; apply blk_put_image; (done || lia).
  - intros fb F' HM'. apply (mdata_meta D1); [by apply mdata_put_image|unfold D2; by rewrite length_insert| |].
    + intros j Hj. rewrite Hb. case_decide; [apply length_bits|]. by apply (md_size _ _ _ (mdata_put_image _ _ _ _ _ HM' H1)).
    + intros j Hj. rewrite Hb, decide_False; [done|]. unfold DS in Hj. lia.
  - intros j Hj. rewrite <- disk_put_image; [|done|lia|done|apply HS; lia|]; last first.
    { destruct Hdok. split; cbn [d_type d_major d_minor d_nlink d_size d_addrs with_size]; try done. unfold z. rewrite length_root.
      cbn [tree length G] in Hroom. rewrite length_fmap in Hroom. unfold NINODES in Hroom.
      pose proof (Z.div_pos (Z.of_nat (16 * (length files + 2))) 512 ltac:(lia) ltac:(lia)).
      pose proof (Z.div_lt_upper_bound (Z.of_nat (16 * (length files + 2))) 512 100 ltac:(lia) ltac:(lia)). lia. }
    unfold disk_inode. rewrite Hb, decide_False; [done|]. pose proof (iblock_range j Hj). lia.
Qed.

(** A file of the image, with a size that may go beyond its data. *)
Lemma entry_read D fb F i e (g : afile) sz :
  mdata D fb F → F !! i = Some e → e_l e = g.2 → d_size (e_d e) = sz → Z.of_nat (length g.2) ≤ sz ≤ 71680 →
  ∃ k, content (iv D) (e_d e) = g.2 ++ replicate k 0 ∧ k = (Z.to_nat sz - length g.2)%nat.
Proof.
  intros HM Hi Hl Hsz Hb. eexists. split; [|done]. rewrite (content_file D e (md_file _ _ _ HM _ _ Hi)); rewrite ?Hl, ?Hsz; done.
Qed.
Lemma root_fwf D fb F e n :
  mdata D fb F → F !! 0%nat = Some e → e_m e = nb (16 * (n + 2)) → (∀ b, DS ≤ b < fb → used mk_sb (iv D) b = true) →
  d_size (e_d e) = (16 * (Z.of_nat n + 2) / 512 + 1) * 512 →
  fwf mk_sb DS (iv D) (e_d e) ↔ (Z.of_nat n + 2) mod 32 ≠ 0.
Proof.
  intros HM He Hm Hu Hsz. pose proof (md_file _ _ _ HM _ _ He) as HF. pose proof (f_max _ _ HF) as Hmax.
  pose proof (nb_bounds (16 * (n + 2))) as Hnb. rewrite <- Hm in Hnb.
  pose proof (Z.div_mod (Z.of_nat n + 2) 32 ltac:(lia)) as Hd. pose proof (Z.mod_pos_bound (Z.of_nat n + 2) 32 ltac:(lia)) as Hp.
  assert (16 * (Z.of_nat n + 2) / 512 = (Z.of_nat n + 2) / 32) as Hdiv by (change 512 with (16 * 32); apply Z.div_mul_cancel_l; lia).
  rewrite Hdiv in Hsz. split.
  - intros W E. assert (addr_at (iv D) (e_d e) (e_m e) ≠ 0) as Hz by (apply (fw_alloc _ _ _ _ W); unfold BSZ; lia).
    destruct (decide (e_m e < 140)%nat) as [Hlt|Hge]; [apply (f_addr _ _ HF) in Hz; lia|].
    pose proof (fw_size _ _ _ _ W) as Hs. unfold MAXFILE, BSZ in Hs. lia.
  - intros E. apply (mdata_fwf D fb F 0 e HM He Hu). lia.
Qed.
Lemma finished D files D' d :
  minv D (tree files) → image_blocks files ≤ FSSIZE → disk_inode mk_sb (iv D) 1 = d →
  (length D' = 1000%nat ∧ blk D' 58 = bits (Z.to_nat (image_blocks files)) ∧ blk D' 1 = blk D 1 ∧ blk D' 2 = blk D 2) →
  (∀ fb F, mdata D fb F → mdata D' fb F) →
  (∀ j, 0 ≤ j < NINODES → disk_inode mk_sb (iv D') j =
     if decide (1 = j) then with_size ((Z.of_nat (length (root_entries files)) / 512 + 1) * 512) d else disk_inode mk_sb (iv D) j) →
  image D' files.
Proof.
  intros [Hroom (F & HM & HE & HD) Hfree Hsb Hlog] Hfb Hd (HL & H58 & HB1 & HB2) Hmd Hdisk. fold (image_blocks files) in HM.
  pose proof (Forall2_length _ _ _ HE) as Hlen. unfold tree in Hroom, Hlen, Hfree. cbn [length] in Hroom, Hlen, Hfree. rewrite length_fmap in Hroom, Hlen, Hfree.
  unfold NINODES in Hroom. rewrite length_root in Hdisk. unfold FSSIZE in Hfb.
  destruct (Forall2_lookup_r _ _ _ 0 _ HE eq_refl) as (e & He & [[Hem _] Hel Hty Hnl _]). cbn [fst snd] in *.
  replace (Z.of_nat (16 * (length files + 2))) with (16 * (Z.of_nat (length files) + 2)) in Hdisk by lia.
  set (z := (16 * (Z.of_nat (length files) + 2) / 512 + 1) * 512) in *. assert (16 * (Z.of_nat (length files) + 2) < z ≤ 4096) as Hz.
  { unfold z. pose proof (Z.div_mod (16 * (Z.of_nat (length files) + 2)) 512 ltac:(lia)). pose proof (Z.mod_pos_bound (16 * (Z.of_nat (length files) + 2)) 512 ltac:(lia)). lia. }
  pose proof (HD 0%nat e He) as Hde. change (1 + Z.of_nat 0) with 1 in Hde. rewrite Hd in Hde. clear Hd. subst d.
  pose proof (Hmd _ _ (mdata_resize _ _ _ 0 e z HM He ltac:(lia))) as HM'. set (e' := mkEnt (with_size z (e_d e)) (e_l e) (e_m e) (e_q e)) in *.
  set (F' := <[0%nat := e']> F) in *. assert (F' !! 0%nat = Some e') as He' by (apply list_lookup_insert_eq; lia).
  assert (∀ i x, F' !! i = Some x → disk_inode mk_sb (iv D') (1 + Z.of_nat i) = e_d x) as HD'.
  { intros i x Hx. pose proof (lookup_lt_Some _ _ _ Hx) as Hix. unfold F' in Hix. rewrite length_insert in Hix. rewrite Hdisk by (unfold NINODES; lia).
    apply list_lookup_insert_Some in Hx as [(<- & <- & _)|[Hne Hx]]; [done|]. rewrite decide_False by lia. by apply HD. }
  assert (∀ b, 0 ≤ b < 1000 → used mk_sb (iv D') b = (b <? image_blocks files)) as Hused.
  { intros b Hb. apply used_bits; [done| |done]. pose proof (md_fb _ _ _ HM). unfold DS in *. lia. }
  assert (∀ b, DS ≤ b < image_blocks files → used mk_sb (iv D') b = true) as Hu by (intros b Hb; unfold DS in Hb; rewrite Hused by lia; apply Z.ltb_lt; lia).
  split.
  - rewrite HB1, Hsb. vm_compute. reflexivity.
  - rewrite HL. apply mk_geom.
  - apply mk_log; [done|]. rewrite HB2. apply Hlog; lia.
  - exact Hused.
  - intros k f Hk d. assert (tree files !! S k = Some (as_file f)) as Hg by (change ((as_file <$> files) !! k = Some (as_file f)); by rewrite list_lookup_fmap, Hk).
    destruct (Forall2_lookup_r _ _ _ _ _ HE Hg) as (x & Hx & [[Hxm _] Hxl Hxt Hxn Hxs]). cbn [fst snd as_file] in *.
    assert (F' !! S k = Some x) as Hx' by (unfold F'; by rewrite list_lookup_insert_ne by done).
    assert (d = e_d x) as -> by (unfold d; rewrite <- (HD' _ _ Hx'); f_equal; lia).
    pose proof (md_file _ _ _ HM' _ _ Hx') as HF. pose proof (f_len _ _ HF) as Hfl. pose proof (f_max _ _ HF). rewrite Hxl in Hfl.
    split; [done|]. split; [done|]. split; [apply (mdata_fwf D' _ F' (S k) x HM' Hx' Hu); lia|].
    destruct (entry_read D' _ F' _ x (as_file f) _ HM' Hx' Hxl Hxs) as (q & -> & ->); cbn [snd as_file]; [lia|]. by rewrite Nat2Z.id, Nat.sub_diag, app_nil_r.
  - intros d. assert (d = e_d e') as -> by exact (HD' _ _ He'). split; [done|]. split; [done|]. split; [done|]. split.
    + destruct (entry_read D' _ F' _ e' (T_DIR, root_entries files) z HM' He' Hel eq_refl) as (q & Hq & _); [cbn [snd]; rewrite length_root; lia|]. by exists q.
    + apply (root_fwf D' _ F' e' _ HM' He'); [cbn [e' e_m]; by rewrite Hem, Hel, length_root|exact Hu|done].
  - intros i j Hi Hj Hne. assert (∀ i, 1 ≤ i < 2 + Z.of_nat (length files) → ∃ x, F' !! Z.to_nat (i - 1) = Some x ∧ disk_inode mk_sb (iv D') i = e_d x) as Hlook.
    { intros i' Hi'. destruct (lookup_lt_is_Some_2 F' (Z.to_nat (i' - 1))) as [x Hx]; [unfold F'; rewrite length_insert; lia|].
      exists x. split; [done|]. rewrite <- (HD' _ _ Hx). f_equal. lia. }
    destruct (Hlook i Hi) as (x & Hx & ->), (Hlook j Hj) as (y & Hy & ->). apply (mdata_disjoint D' _ F' _ _ x y HM' Hx Hy). lia.
  - intros inum Hi Hf. rewrite Hdisk, decide_False by (done || lia). apply Hfree; [done|lia].
Qed.

Lemma main_start files :
  main files mk_start =
  (rootino ← Mkfs.ialloc T_DIR;
   (if rootino =? ROOTINO then mret tt else panic "assert") ;;
   iappend rootino (dirent rootino [46]) ;;
   iappend rootino (dirent rootino [46; 46]) ;;
   for_each files (add_file rootino) ;;
   din ← rinode rootino;
   winode rootino (with_size ((d_size din / 512 + 1) * 512) din) ;;
   s ← get; Mkfs.balloc (freeblock s)) (mk_state blank []).
Proof.
  unfold main, mk_start. unfold mbind at 1, M_bind at 1, modify at 1. cbn [img freeinode].
  rewrite (bind_run _ _ _ _ _ (zeroing 0 (Z.to_nat FSSIZE) 1 nmeta)). change (0 + Z.to_nat FSSIZE)%nat with 1000%nat.
  assert (Z.to_nat 1 < length (replicate 1000 zeros))%nat as Hl by (rewrite length_replicate; lia).
  rewrite (bind_run _ _ _ _ _ (wsect_run 1 (put32s 0 sb_words zeros) (replicate 1000 zeros) 1 nmeta Hl)). done.
Qed.
(** The start of the root directory. *)
Lemma main_root (K : Z → MM unit) :
  ∃ D, (rootino ← Mkfs.ialloc T_DIR;
        (if rootino =? ROOTINO then mret tt else panic "assert") ;;
        iappend rootino (dirent rootino [46]) ;;
        iappend rootino (dirent rootino [46; 46]) ;;
        K rootino) (mk_state blank []) = K 1 (mk_state D [(T_DIR, dirent 1 [46] ++ dirent 1 [46; 46])]) ∧
       minv D [(T_DIR, dirent 1 [46] ++ dirent 1 [46; 46])].
Proof.
  destruct (ialloc_spec blank [] T_DIR blank_inv) as (D1 & Hrun1 & HI1); [done|unfold s16, T_DIR; lia|].
  rewrite (bind_run _ _ _ _ _ Hrun1). change (1 + Z.of_nat (length [])) with 1. change (1 =? ROOTINO) with true. cbn [app] in HI1 |- *.
  unfold mbind at 1, M_bind at 1, mret at 1, M_ret at 1.
  destruct (iappend_spec D1 _ 0 T_DIR [] (dirent 1 [46]) HI1 eq_refl) as (D2 & Hrun2 & HI2); [done|done|].
  rewrite (bind_run _ _ _ _ _ Hrun2).
  destruct (iappend_spec D2 _ 0 T_DIR (dirent 1 [46]) (dirent 1 [46; 46]) HI2 eq_refl) as (D3 & Hrun3 & HI3); [done|done|].
  rewrite (bind_run _ _ _ _ _ Hrun3). by exists D3.
Qed.

(** C17: mkfs, given files whose names have no slash, whose sizes fit 140 blocks, which are at
    most 198 and need with the root directory at most the 1000 blocks of the disk, leaves a
    file system: the kernel reads back the superblock, its log is empty, each file is in an
    inode of its own with exactly its contents, no block belongs to two inodes, the root directory
    lists ".", ".." and the files in order, the other inodes are free, and the bitmap
    marks exactly the metadata and the blocks handed out.  The root inode is
    well formed unless its entries fill whole blocks: then its size covers a block it lacks. *)
Theorem mkfs_correct files :
  Forall file_ok files → (length files ≤ 198)%nat → image_blocks files ≤ FSSIZE →
  ∃ D, main files mk_start = Ok tt (mkMk D (2 + Z.of_nat (length files)) (image_blocks files)) ∧ image D files.
Proof.
  intros Hok Hlen Hfb. rewrite main_start.
  destruct (main_root (λ rootino, for_each files (add_file rootino) ;; din ← rinode rootino;
     winode rootino (with_size ((d_size din / 512 + 1) * 512) din) ;; s ← get; Mkfs.balloc (freeblock s))) as (D1 & -> & HI1).
  destruct (add_files_spec files D1 (dirent 1 [46] ++ dirent 1 [46; 46]) [] HI1) as (D2 & Hrun2 & HI2);
    [cbn [length]; lia|done|rewrite length_app, !length_dirent; lia|by rewrite <- app_assoc|].
  rewrite (bind_run _ _ _ _ _ Hrun2). cbn [length] in HI2 |- *. rewrite <- app_assoc in HI2 |- *. change (2 + Z.of_nat 0) with 2 in HI2 |- *.
  cbn [app] in HI2 |- *. destruct (finish_run D2 files HI2 Hfb) as (D3 & d & Hrun3 & Hd & HB & Hmd & Hdisk).
  exists D3. split; [|exact (finished D2 files D3 d HI2 Hfb Hd HB Hmd Hdisk)].
  etrans; [exact Hrun3|]. unfold mk_state. do 2 f_equal. unfold tree. cbn [length]. rewrite length_fmap. lia.
Qed.
Lemma mkfs_correct_witness :
  ∃ D, main demo_files mk_start = Ok tt (mkMk D 4 75) ∧ image D demo_files.
Proof.
  apply (mkfs_correct demo_files).
  - repeat constructor; cbn [fst snd]; try (apply (bool_decide_unpack _); vm_compute; exact I); vm_compute; discriminate.
  - vm_compute. lia.
  - vm_compute. discriminate.
Defined.
