(* ===== verification/Exec.v ===== *)
(** * exec (exec.c)

    exec works on the file system, through the operations of [ExecFs], on the memory of
    the page tables, and on the fields of the process that it replaces.  The strings of
    argv are given by their addresses and the array ustack by the address of its place on the
    kernel stack; [fuel] bounds the length of a string.
    The message printed when there is no such file and the loading of the page register (switchuvm)
    are left out. *)

From S2P Require Import Prelude CStr Bytes Mem Kalloc Vm Blocks Log Fs.

Definition ELF_MAGIC : Z := 0x464C457F.
Definition ELF_PROG_LOAD : Z := 1.
Definition MAXARG : Z := 32.

(** [struct elfhdr], as far as exec reads it, and [struct proghdr] *)
Record elfhdr := mkElf { magic : Z; entry : Z; phoff : Z; phnum : Z }.
Definition elf_at (b : list Z) : elfhdr := mkElf (get32 b 0) (get32 b 24) (get32 b 28) (get16 b 44).
Definition ELFHDR : Z := 52.
Record proghdr := mkPh { ph_type : Z; ph_off : Z; ph_vaddr : Z; ph_filesz : Z; ph_memsz : Z }.
Definition ph_at (b : list Z) : proghdr := mkPh (get32 b 0) (get32 b 4) (get32 b 8) (get32 b 16) (get32 b 20).
Definition PROGHDR : Z := 32.

(** What exec uses of the file system. *)
Class ExecFs (F : Type) := {
  x_begin_op : M F unit;
  x_end_op : M F unit;
  x_namei : list Z → M F (option nat);
  x_ilock : nat → M F unit;
  x_readi : nat → Z → Z → M F (Z * list Z);
  x_iunlockput : nat → M F unit }.
(** readi on a file with the contents [c], as [readi_reads_file] states it. *)
Definition read_at (c : list Z) (off n : Z) : Z * list Z :=
  if decide (off ≤ Z.of_nat (length c) ∧ off + n < 2 ^ 32) then
    let l := take (Z.to_nat n) (drop (Z.to_nat off) c) in (Z.of_nat (length l), l)
  else (-1, []).
(** What exec relies on: outside and inside a transaction, with a reference to an inode, and with
    the inode locked; [xf_find] is the contents of the file that a path names. *)
Class ExecFsOk (F : Type) `{!ExecFs F} := {
  xf_idle : F → Prop;
  xf_op : F → Prop;
  xf_ref : F → nat → list Z → Prop;
  xf_open : F → nat → list Z → Prop;
  xf_find : F → list Z → option (list Z);
  xf_begin f : xf_idle f → ∃ f', x_begin_op f = Ok tt f' ∧ xf_op f' ∧ xf_find f' = xf_find f;
  xf_namei f path : xf_op f → ∃ r f', x_namei path f = Ok r f' ∧
    match r with Some ip => ∃ c, xf_find f path = Some c ∧ xf_ref f' ip c | None => xf_find f path = None ∧ xf_op f' end;
  xf_ilock f ip c : xf_ref f ip c → ∃ f', x_ilock ip f = Ok tt f' ∧ xf_open f' ip c;
  xf_small f ip c : xf_open f ip c → Z.of_nat (length c) < 2 ^ 31;
  xf_readi f ip c off n : xf_open f ip c → 0 ≤ off < 2 ^ 32 → 0 ≤ n < 2 ^ 32 →
    ∃ f', x_readi ip off n f = Ok (read_at c off n) f' ∧ xf_open f' ip c;
  xf_put f ip c : xf_open f ip c → ∃ f', x_iunlockput ip f = Ok tt f' ∧ xf_op f';
  xf_end f : xf_op f → ∃ f', x_end_op f = Ok tt f' ∧ xf_idle f' }.
(** The fields of [struct proc] and of its trap frame. *)
Record uproc := mkUp { up_pgdir : Z; up_sz : Z; up_eip : Z; up_esp : Z; up_name : list Z }.
Record xst (F : Type) := mkX { x_fs : F; x_km : kmem; x_p : uproc }.
Arguments mkX {F} _ _ _. Arguments x_fs {F} _. Arguments x_km {F} _. Arguments x_p {F} _.

(** The program name: what follows the last slash of the path. *)
Fixpoint last_component (last s : list Z) : list Z :=
  match s with
  | [] => last
  | c :: s' => if c =? 0 then last else last_component (if c =? 47 then s' else last) s'
  end.
(** strlen on memory *)
Fixpoint strlen_at (fuel : nat) (a : Z) (n : Z) : KM Z :=
  match fuel with
  | O => spin
  | S fuel' => c ← gets (λ k, km_mem k (u32 (a + n))); if c =? 0 then mret n else strlen_at fuel' a (n + 1)
  end.

Section code.
Context {F : Type} `{!ExecFs F} (kend kdata ustack : Z) (fuel : nat).
Abbreviation XM := (M (xst F)).
Definition L_fs : lens (xst F) F := Lens x_fs (λ f x, mkX f (x_km x) (x_p x)).
Definition L_km : lens (xst F) kmem := Lens x_km (λ k x, mkX (x_fs x) k (x_p x)).
Definition fs {A} (m : M F A) : XM A := zoom L_fs m.
Definition km {A} (m : KM A) : XM A := zoom L_km m.

(** ustack has 3 + MAXARG + 1 elements. *)
Definition ustack_set (i w : Z) : XM unit :=
  if i <? 3 + MAXARG + 1 then km (write_word (u32 (ustack + 4 * i)) w) else undef "ustack".
(** The jump to [bad]. *)
Definition bad (pgdir : Z) (ip : option nat) : XM Z :=
  when (negb (pgdir =? 0)) (km (freevm kend pgdir)) ;;
  match ip with
  | Some ip => fs (x_iunlockput ip) ;; fs x_end_op
  | None => mret tt
  end ;;
  mret (-1).
(** The loop over the program headers; [None] is the jump to [bad]. *)
Fixpoint load_loop (n : nat) (pgdir : Z) (ip : nat) (off sz : Z) : XM (option Z) :=
  match n with
  | O => mret (Some sz)
  | S n' =>
      '(r, b) ← fs (x_readi ip off PROGHDR);
      if negb (r =? PROGHDR) then mret None else
      let ph := ph_at b in
      if negb (ph_type ph =? ELF_PROG_LOAD) then load_loop n' pgdir ip (u32 (off + PROGHDR)) sz else
      if ph_memsz ph <? ph_filesz ph then mret None else
      if u32 (ph_vaddr ph + ph_memsz ph) <? ph_vaddr ph then mret None else
      sz ← km (allocuvm kend pgdir sz (u32 (ph_vaddr ph + ph_memsz ph)));
      if sz =? 0 then mret None else
      if negb (ph_vaddr ph mod KPGSIZE =? 0) then mret None else
      r ← loaduvm L_km (λ o n, fs (x_readi ip o n)) pgdir (ph_vaddr ph) (ph_off ph) (ph_filesz ph);
      if r <? 0 then mret None else load_loop n' pgdir ip (u32 (off + PROGHDR)) sz
  end.
(** The loop over argv: the number of arguments and the stack pointer. *)
Fixpoint push_args (pgdir sp argc : Z) (argv : list Z) : XM (option (Z * Z)) :=
  match argv with
  | [] => mret (Some (argc, sp))
  | a :: argv' =>
      if MAXARG <=? argc then mret None else
      n ← km (strlen_at fuel a 0);
      let sp := Z.land (u32 (sp - (n + 1))) (Z.lnot 3) in
      r ← km (copyout pgdir sp a (n + 1));
      if r <? 0 then mret None else
      ustack_set (3 + argc) sp ;;
      push_args pgdir sp (argc + 1) argv'
  end.
(** From the allocation of the stack to the end. *)
Definition finish_exec (path : list Z) (elf : elfhdr) (pgdir sz : Z) (argv : list Z) : XM Z :=
  let sz := PGROUNDUP sz in
  sz ← km (allocuvm kend pgdir sz (u32 (sz + 2 * KPGSIZE)));
  if sz =? 0 then bad pgdir None else
  km (clearpteu pgdir (u32 (sz - 2 * KPGSIZE))) ;;
  r ← push_args pgdir sz 0 argv;
  match r with
  | None => bad pgdir None
  | Some (argc, sp) =>
      ustack_set (3 + argc) 0 ;;
      ustack_set 0 0xffffffff ;;
      ustack_set 1 argc ;;
      ustack_set 2 (u32 (sp - (argc + 1) * 4)) ;;
      let sp := u32 (sp - (3 + argc + 1) * 4) in
      r ← km (copyout pgdir sp ustack ((3 + argc + 1) * 4));
      if r <? 0 then bad pgdir None else
      x ← get;
      match safestrcpy (up_name (x_p x)) (last_component path path) 16 with
      | None => undef "safestrcpy"
      | Some name =>
          modify (λ x, mkX (x_fs x) (x_km x) (mkUp pgdir sz (entry elf) sp name)) ;;
          km (freevm kend (up_pgdir (x_p x))) ;;
          mret 0
      end
  end.
Definition exec (path : list Z) (argv : list Z) : XM Z :=
  fs x_begin_op ;;
  ip ← fs (x_namei path);
  match ip with
  | None => fs x_end_op ;; mret (-1)
  | Some ip =>
      fs (x_ilock ip) ;;
      '(r, b) ← fs (x_readi ip 0 ELFHDR);
      if negb (r =? ELFHDR) then bad 0 (Some ip) else
      let elf := elf_at b in
      if negb (magic elf =? ELF_MAGIC) then bad 0 (Some ip) else
      pgdir ← km (setupkvm kend kdata);
      if pgdir =? 0 then bad 0 (Some ip) else
      r ← load_loop (Z.to_nat (phnum elf)) pgdir ip (phoff elf) 0;
      match r with
      | None => bad pgdir (Some ip)
      | Some sz =>
          fs (x_iunlockput ip) ;;
          fs x_end_op ;;
          finish_exec path elf pgdir sz argv
      end
  end.
End code.

(** The file system of fs.c and log.c behind exec. *)
#[global] Instance kernel_fs {S : Type} `{!BlockOps S} `{!DevSw (fstate S)} : ExecFs (fstate S) := {
  x_begin_op := logm begin_op;
  x_end_op := logm end_op;
  x_namei := namei;
  x_ilock := ilock;
  x_readi := readi;
  x_iunlockput := iunlockput }.
