(* ===== verification/Bootmain.v ===== *)
(** * The boot loader (bootmain.c)

    bootmain reads the kernel, an ELF file that starts at sector 1 of the disk, to the physical addresses that its
    program headers name.  The disk controller is the class [BootCtl] with the laws [BootCtlOk] of polled reads. *)

From S2P Require Import Prelude Mem Kalloc Blocks Ide Bytes Exec.

Definition SECTSIZE : Z := 512.
Class BootCtl (C : Type) := {
  b_outb : Z → Z → C → C;
  b_inb : Z → C → Z * C;
  b_insl : Z → C → block * C;
  (** the sector being read, whether its data can be taken, and the sectors of the drive *)
  b_reading : C → option Z;
  b_data : C → bool;
  b_sector : C → Z → block;
  b_polls : C → nat }.
Class BootCtlOk (C : Type) `{!BootCtl C} (fuel : nat) := {
  b_polls_bound c : (b_polls c < fuel)%nat;
  b_status c : let '(r, c') := b_inb 0x1F7 c in
    b_reading c' = b_reading c ∧ b_sector c' = b_sector c ∧
    if Z.land r 0xC0 =? 0x40 then b_data c' = true else (b_polls c' < b_polls c)%nat;
  (** the task file and the command to read *)
  b_command lo mid hi dev c :
    b_reading c = None → 0 ≤ lo < 256 → 0 ≤ mid < 256 → 0 ≤ hi < 256 → Z.land dev 0xf0 = 0xe0 →
    let c' := b_outb 0x1F7 0x20 (b_outb 0x1F6 dev (b_outb 0x1F5 hi (b_outb 0x1F4 mid (b_outb 0x1F3 lo (b_outb 0x1F2 1 c))))) in
    b_reading c' = Some (lba lo mid hi dev) ∧ b_sector c' = b_sector c;
  b_take c n : b_reading c = Some n → b_data c = true →
    (b_insl 128 c).1 = b_sector c n ∧ b_reading (b_insl 128 c).2 = None ∧ b_sector (b_insl 128 c).2 = b_sector c }.

Record boot (C : Type) := mkBoot { bt_ctl : C; bt_mem : mem }.
Arguments mkBoot {C} _ _.
Arguments bt_ctl {C} _.
Arguments bt_mem {C} _.
(** [insl] stores bytes at increasing addresses. *)
Fixpoint put_bytes (a : Z) (l : list Z) (m : mem) : mem :=
  match l with [] => m | x :: l' => put_bytes (u32 (a + 1)) l' (store a x m) end.

Section boot.
Context {C : Type} `{!BootCtl C} (fuel : nat).
Abbreviation BT := (M (boot C)).

Definition boot_io {A} (f : C → A * C) : BT A := λ s, let '(a, c) := f (bt_ctl s) in Ok a (mkBoot c (bt_mem s)).
Definition boot_outb (port v : Z) : BT unit := boot_io (λ c, (tt, b_outb port (u8 v) c)).
Definition boot_mem (f : mem → mem) : BT unit := modify (λ s, mkBoot (bt_ctl s) (f (bt_mem s))).
Definition boot_word (a : Z) : BT Z := gets (λ s, load_word (u32 a) (bt_mem s)).
Definition boot_half (a : Z) : BT Z := gets (λ s, bt_mem s (u32 a) + 256 * bt_mem s (u32 (a + 1))).

Fixpoint waitdisk (n : nat) : BT unit :=
  match n with
  | O => spin
  | S n' => r ← boot_io (b_inb 0x1F7); if negb (Z.land r 0xC0 =? 0x40) then waitdisk n' else mret tt
  end.
Definition readsect (dst offset : Z) : BT unit :=
  waitdisk fuel ;;
  boot_outb 0x1F2 1 ;;
  boot_outb 0x1F3 offset ;;
  boot_outb 0x1F4 (Z.shiftr offset 8) ;;
  boot_outb 0x1F5 (Z.shiftr offset 16) ;;
  boot_outb 0x1F6 (Z.lor (Z.shiftr offset 24) 0xE0) ;;
  boot_outb 0x1F7 0x20 ;;
  waitdisk fuel ;;
  d ← boot_io (b_insl (SECTSIZE / 4));
  boot_mem (put_bytes dst d).
Fixpoint readseg_loop (n : nat) (pa epa offset : Z) : BT unit :=
  match n with
  | O => spin
  | S n' =>
      if pa <? epa then readsect pa offset ;; readseg_loop n' (u32 (pa + SECTSIZE)) epa (u32 (offset + 1)) else mret tt
  end.
Definition readseg (pa count offset : Z) : BT unit :=
  let epa := u32 (pa + count) in
  readseg_loop fuel (u32 (pa - offset mod SECTSIZE)) epa (u32 (offset / SECTSIZE + 1)).

(** The loop over the program headers; the addresses of fields are those of [struct proghdr]. *)
Fixpoint boot_loop (n : nat) (ph eph : Z) : BT unit :=
  match n with
  | O => spin
  | S n' =>
      if ph <? eph then
        pa ← boot_word (ph + 12);
        filesz ← boot_word (ph + 16);
        off ← boot_word (ph + 4);
        readseg pa filesz off ;;
        memsz ← boot_word (ph + 20);
        filesz ← boot_word (ph + 16);
        when (filesz <? memsz) (boot_mem (stosb (u32 (pa + filesz)) 0 (Z.to_nat (memsz - filesz)))) ;;
        boot_loop n' (u32 (ph + PROGHDR)) eph
      else mret tt
  end.
(** The entry point that bootmain calls; [None] when it returns. *)
Definition bootmain : BT (option Z) :=
  let elf := 0x10000 in
  readseg elf 4096 0 ;;
  magic ← boot_word elf;
  if negb (magic =? ELF_MAGIC) then mret None else
  phoff ← boot_word (elf + 28);
  phnum ← boot_half (elf + 44);
  let ph := u32 (elf + phoff) in
  let eph := u32 (ph + phnum * PROGHDR) in
  boot_loop fuel ph eph ;;
  entry ← boot_word (elf + 24);
  mret (Some entry).
End boot.

(** * The boot loader loads the kernel

    [file c i]: byte [i] of the kernel file.  Whole sectors are read, so memory around a segment is overwritten:
    [span] is what loading a segment writes. *)

Section proof.
Context {C : Type} `{!BootCtl C} (fuel : nat) `{!BootCtlOk C fuel}.
Implicit Types (s : boot C) (c : C) (m : mem).

(** ** The specification *)
Definition file c (i : Z) : Z := default 0 (b_sector c (i / 512 + 1) !! Z.to_nat (i mod 512)).
Definition file32 c (i : Z) : Z := file c i + 256 * (file c (i + 1) + 256 * (file c (i + 2) + 256 * file c (i + 3))).
Definition file16 c (i : Z) : Z := file c i + 256 * file c (i + 1).
Record bseg := mkSeg { sg_paddr : Z; sg_off : Z; sg_filesz : Z; sg_memsz : Z }.
Definition seg_at c (i : Z) : bseg := mkSeg (file32 c (i + 12)) (file32 c (i + 4)) (file32 c (i + 16)) (file32 c (i + 20)).
Definition kernel_segs c : list bseg := (λ i, seg_at c (file32 c 28 + 32 * Z.of_nat i)) <$> seq 0 (Z.to_nat (file16 c 44)).
(** The bytes of a segment are those of the file, followed by zeros. *)
Definition loaded c (g : bseg) m : Prop :=
  (∀ j, 0 ≤ j < sg_filesz g → m (sg_paddr g + j) = file c (sg_off g + j)) ∧
  (∀ j, sg_filesz g ≤ j < sg_memsz g → m (sg_paddr g + j) = 0).
Definition body (g : bseg) (x : Z) : Prop := sg_paddr g ≤ x < sg_paddr g + Z.max (sg_filesz g) (sg_memsz g).
Definition span (g : bseg) (x : Z) : Prop :=
  sg_paddr g - sg_off g mod 512 ≤ x < sg_paddr g + Z.max (sg_filesz g + 511) (sg_memsz g).
(** A segment fits into memory and does not touch the page of the headers. *)
Definition seg_fits (g : bseg) : Prop :=
  sg_off g mod 512 ≤ sg_paddr g ∧ sg_paddr g + Z.max (sg_filesz g) (sg_memsz g) + 1024 < 2 ^ 32 ∧
  (∀ x, span g x → ¬ 0x10000 ≤ x < 0x11000).
(** Loading a segment does not overwrite those before it. *)
Definition in_order (l : list bseg) : Prop := ∀ i j g h x, l !! i = Some g → l !! j = Some h → (i < j)%nat → body g x → ¬ span h x.

(** ** Reading sectors *)
Definition idle s : Prop := b_reading (bt_ctl s) = None.
Lemma put_bytes_at l : ∀ a m x, 0 ≤ a → a + Z.of_nat (length l) < 2 ^ 32 →
  put_bytes a l m x = if decide (a ≤ x < a + Z.of_nat (length l)) then default 0 (l !! Z.to_nat (x - a)) else m x.
Proof.
  induction l as [|y l IH]; intros a m x Ha Hl; cbn [put_bytes length] in *; [by rewrite decide_False by lia|].
  rewrite u32_small by lia. rewrite IH by lia. unfold store. destruct (decide (a + 1 ≤ x < a + 1 + Z.of_nat (length l))).
  - rewrite decide_True by lia. replace (Z.to_nat (x - a)) with (S (Z.to_nat (x - (a + 1)))) by lia. done.
  - destruct (Z.eqb_spec x a) as [->|Hne]; [rewrite decide_True by lia; by rewrite Z.sub_diag|by rewrite decide_False by lia].
Qed.
Lemma boot_io_run {A} (f : C → A * C) s : boot_io f s = Ok (f (bt_ctl s)).1 (mkBoot (f (bt_ctl s)).2 (bt_mem s)).
Proof. unfold boot_io. by destruct (f (bt_ctl s)). Qed.
Lemma bind_boot_io {A B} (f : C → A * C) (g : A → M (boot C) B) s :
  (boot_io f ≫= g) s = g (f (bt_ctl s)).1 (mkBoot (f (bt_ctl s)).2 (bt_mem s)).
Proof. apply (bind_run _ _ _ _ _ (boot_io_run f s)). Qed.
Lemma waitdisk_run s :
  ∃ c, waitdisk fuel s = Ok tt (mkBoot c (bt_mem s)) ∧ b_reading c = b_reading (bt_ctl s) ∧ b_sector c = b_sector (bt_ctl s) ∧ b_data c = true.
Proof.
  assert (∀ n s, (b_polls (bt_ctl s) < n)%nat →
    ∃ c, waitdisk n s = Ok tt (mkBoot c (bt_mem s)) ∧ b_reading c = b_reading (bt_ctl s) ∧ b_sector c = b_sector (bt_ctl s) ∧ b_data c = true) as H.
  { clear s. induction n as [|n IH]; intros s Hn; [lia|]. cbn [waitdisk]. rewrite bind_boot_io.
    pose proof (b_status (fuel:=fuel) (bt_ctl s)) as Hst. destruct (b_inb 0x1F7 (bt_ctl s)) as [r c]. cbn [fst snd].
    destruct Hst as (Hr & Hs & Hp). destruct (Z.land r 0xC0 =? 0x40); cbn [negb]; [by exists c|].
    destruct (IH (mkBoot c (bt_mem s)) ltac:(cbn; lia)) as (c' & Hrun & Hr' & Hs' & Hd'). cbn in *. exists c'. by rewrite Hrun, Hr', Hs'. }
  apply H, (b_polls_bound (fuel:=fuel)).
Qed.
Lemma boot_regs n : 0 ≤ n < 2 ^ 24 →
  u8 (Z.lor (Z.shiftr n 24) 0xE0) = 0xE0 ∧ lba (u8 n) (u8 (Z.shiftr n 8)) (u8 (Z.shiftr n 16)) 0xE0 = n.
Proof.
  intros Hn. rewrite !Z.shiftr_div_pow2 by lia. rewrite (Z.div_small n (2 ^ 24)) by lia. split; [done|].
  unfold lba, u8. change (Z.land 0xE0 15) with 0. rewrite (Z.mod_small (n / 2 ^ 16)) by (split; [apply Z.div_pos|apply Z.div_lt_upper_bound]; lia).
  pose proof (Z.div_mod n (2 ^ 8) ltac:(lia)). pose proof (Z.div_mod (n / 2 ^ 8) (2 ^ 8) ltac:(lia)) as H2.
  rewrite Z.div_div in H2 by lia. change (2 ^ 8 * 2 ^ 8) with (2 ^ 16) in H2. lia.
Qed.
Lemma readsect_run dst n s :
  idle s → 0 ≤ n < 2 ^ 24 →
  ∃ c, readsect fuel dst n s = Ok tt (mkBoot c (put_bytes dst (b_sector (bt_ctl s) n) (bt_mem s))) ∧
    b_reading c = None ∧ b_sector c = b_sector (bt_ctl s).
Proof.
  intros Hid Hn. destruct (boot_regs n Hn) as [Hdev Hlba]. unfold readsect.
  destruct (waitdisk_run s) as (c1 & H1 & R1 & S1 & _). rewrite (bind_run _ _ _ _ _ H1). unfold boot_outb. rewrite !bind_boot_io.
  cbn [fst snd bt_ctl bt_mem]. rewrite Hdev. change (u8 1) with 1. change (u8 0x20) with 0x20. set (c2 := b_outb 0x1F7 _ _).
  assert (∀ z, 0 ≤ u8 z < 256) as Hu by (intros z; apply Z.mod_pos_bound; lia).
  destruct (b_command (fuel:=fuel) (u8 n) (u8 (Z.shiftr n 8)) (u8 (Z.shiftr n 16)) 0xE0 c1) as [R2 S2]; [by rewrite R1|apply Hu..|done|].
  rewrite Hlba in R2. fold c2 in R2, S2. destruct (waitdisk_run (mkBoot c2 (bt_mem s))) as (c3 & H3 & R3 & S3 & D3). rewrite (bind_run _ _ _ _ _ H3).
  cbn [bt_ctl bt_mem] in *. change (SECTSIZE / 4) with 128. rewrite bind_boot_io. cbn [bt_ctl bt_mem].
  destruct (b_take (fuel:=fuel) c3 n) as (T1 & T2 & T3); [by rewrite R3|done|]. assert (b_sector c3 = b_sector (bt_ctl s)) as Hs by (by rewrite S3, S2, S1).
  rewrite T1, Hs. eexists. split; [reflexivity|]. split; [done|]. cbn. by rewrite T3.
Qed.

(** ** Reading a segment *)
Hypothesis Hfuel : 2 ^ 24 < Z.of_nat fuel.
Definition whole_sectors c : Prop := ∀ n, length (b_sector c n) = BSIZE ∧ Forall (λ x, 0 ≤ x < 256) (b_sector c n).
(** Sectors from offset [o], which is on a sector boundary, to address [a]. *)
Definition copied_in c (a o : Z) (k : nat) m m' : Prop :=
  ∀ x, m' x = if decide (a ≤ x < a + 512 * Z.of_nat k) then file c (o + (x - a)) else m x.
Lemma sector_byte c n i : 0 ≤ n → 0 ≤ i < 512 → default 0 (b_sector c (n + 1) !! Z.to_nat i) = file c (n * 512 + i).
Proof.
  intros Hn Hi. unfold file. rewrite (Z.add_comm (n * 512)), Z.div_add, Z.mod_add, (Z.div_small i 512), (Z.mod_small i 512) by lia. done.
Qed.
Lemma sectors_run k : ∀ n a e o s, (k < n)%nat → idle s → whole_sectors (bt_ctl s) → 0 ≤ a → a + 512 * Z.of_nat k + 512 < 2 ^ 32 →
  a + 512 * Z.of_nat k - 512 < e ≤ a + 512 * Z.of_nat k → 0 ≤ o → o + Z.of_nat k < 2 ^ 24 - 1 →
  ∃ c m, readseg_loop fuel n a e (o + 1) s = Ok tt (mkBoot c m) ∧ b_reading c = None ∧ b_sector c = b_sector (bt_ctl s) ∧
    copied_in (bt_ctl s) a (o * 512) k (bt_mem s) m.
Proof.
  clear Hfuel. induction k as [|k IH]; intros n a e o s Hn Hid Hw Ha Hb He Ho Hk; (destruct n as [|n]; [lia|]); cbn [readseg_loop].
  { rewrite (proj2 (Z.ltb_ge _ _)) by lia. destruct s as [c m]. exists c, m. repeat (split; [done|]). intros x. by rewrite decide_False by lia. }
  rewrite (proj2 (Z.ltb_lt _ _)) by lia. destruct (readsect_run a (o + 1) s Hid ltac:(lia)) as (c1 & H1 & R1 & S1). rewrite (bind_run _ _ _ _ _ H1).
  unfold SECTSIZE. rewrite !u32_small by lia. set (m1 := put_bytes _ _ _) in *.
  destruct (IH n (a + 512) e (o + 1) (mkBoot c1 m1)) as (c & m & Hrun & R & S & Hm); [lia|done|by intros j; cbn; rewrite S1|lia|lia|lia|lia|lia|].
  cbn [bt_ctl bt_mem] in *. exists c, m. split; [exact Hrun|]. split; [done|]. split; [by rewrite S, S1|]. intros x. rewrite (Hm x).
  assert (∀ i, file c1 i = file (bt_ctl s) i) as Hfile by (intros i; unfold file; by rewrite S1).
  unfold m1. rewrite put_bytes_at by (rewrite ?(proj1 (Hw _)); unfold BSIZE; lia). rewrite (proj1 (Hw _)). unfold BSIZE. change (Z.of_nat 512) with 512.
  destruct (decide (a + 512 ≤ x < a + 512 + 512 * Z.of_nat k)).
  - rewrite decide_True by lia. rewrite Hfile. f_equal. lia.
  - destruct (decide (a ≤ x < a + 512)); [rewrite decide_True by lia; rewrite sector_byte by lia; done|by rewrite decide_False by lia].
Qed.
Lemma readseg_run g s :
  idle s → whole_sectors (bt_ctl s) → sg_off g mod 512 ≤ sg_paddr g → sg_paddr g + Z.max (sg_filesz g) (sg_memsz g) + 1024 < 2 ^ 32 →
  0 ≤ sg_off g < 2 ^ 32 → 0 ≤ sg_filesz g →
  ∃ c m, readseg fuel (sg_paddr g) (sg_filesz g) (sg_off g) s = Ok tt (mkBoot c m) ∧ b_reading c = None ∧ b_sector c = b_sector (bt_ctl s) ∧
    (∀ x, sg_paddr g ≤ x < sg_paddr g + sg_filesz g → m x = file (bt_ctl s) (sg_off g + (x - sg_paddr g))) ∧
    (∀ x, ¬ span g x → m x = bt_mem s x).
Proof using All.
  intros Hid Hw Hpa Hmax Hoff Hfs. unfold readseg, SECTSIZE. pose proof (Z.mod_pos_bound (sg_off g) 512 ltac:(lia)) as Hm.
  pose proof (Z.div_mod (sg_off g) 512 ltac:(lia)) as Hd. set (r := sg_off g mod 512) in *. set (o := sg_off g / 512) in *.
  set (a := sg_paddr g - r). rewrite !u32_small by lia. fold a. set (e := sg_paddr g + sg_filesz g).
  set (k := Z.to_nat ((e - a + 511) / 512)). pose proof (Z.div_mod (e - a + 511) 512 ltac:(lia)) as Hk. pose proof (Z.mod_pos_bound (e - a + 511) 512 ltac:(lia)).
  assert (Z.of_nat k = (e - a + 511) / 512) as Ek by (unfold k; rewrite Z2Nat.id; [done|]; apply Z.div_pos; lia).
  assert (0 ≤ o < 2 ^ 23) as Ho by (unfold o; split; [apply Z.div_pos|apply Z.div_lt_upper_bound]; lia).
  destruct (sectors_run k fuel a e o s) as (c & m & Hrun & R & S & Hc); [lia|done|done|lia|lia|lia|lia|lia|].
  exists c, m. split; [exact Hrun|]. split; [done|]. split; [done|]. split.
  - intros x Hx. rewrite (Hc x), decide_True by lia. f_equal. lia.
  - intros x Hx. rewrite (Hc x), decide_False; [done|]. intros Hin. apply Hx. unfold span. fold r a. lia.
Qed.

(** ** The headers and the segments *)
Section load.
Context (c0 : C) (Hw : whole_sectors c0).
Definition at_rest s : Prop := idle s ∧ b_sector (bt_ctl s) = b_sector c0.
Definition headers m : Prop := ∀ i, 0 ≤ i < 4096 → m (0x10000 + i) = file c0 i.
Lemma file_byte i : 0 ≤ file c0 i < 256.
Proof using Hw.
  clear Hfuel. unfold file. destruct (b_sector c0 (i / 512 + 1) !! Z.to_nat (i mod 512)) as [x|] eqn:E; cbn; [|lia].
  destruct (Hw (i / 512 + 1)) as [_ HF]. rewrite Forall_forall in HF. by apply (HF x), (list_elem_of_lookup_2 _ (Z.to_nat (i mod 512))).
Qed.
Lemma file32_range i : 0 ≤ file32 c0 i < 2 ^ 32.
Proof using Hw. clear Hfuel. unfold file32. pose proof (file_byte i). pose proof (file_byte (i + 1)). pose proof (file_byte (i + 2)). pose proof (file_byte (i + 3)). lia. Qed.
Lemma header_word a i s : headers (bt_mem s) → a = 0x10000 + i → 0 ≤ i ≤ 4092 → boot_word a s = Ok (file32 c0 i) s.
Proof.
  clear Hfuel. intros Hh -> Hi. unfold boot_word, gets, load_word, file32. rewrite !u32_small by lia. rewrite <- !Z.add_assoc, !Hh by lia. done.
Qed.
Lemma header_half a i s : headers (bt_mem s) → a = 0x10000 + i → 0 ≤ i ≤ 4094 → boot_half a s = Ok (file16 c0 i) s.
Proof.
  clear Hfuel. intros Hh -> Hi. unfold boot_half, gets, file16. rewrite !u32_small by lia. rewrite <- !Z.add_assoc, !Hh by lia. done.
Qed.
Lemma at_rest_io s c m : b_reading c = None → b_sector c = b_sector (bt_ctl s) → at_rest s → at_rest (mkBoot c m).
Proof. intros Hr Hs [_ H]. split; [done|]. cbn. by rewrite Hs. Qed.
Lemma rest_file s i : at_rest s → file (bt_ctl s) i = file c0 i.
Proof. intros [_ H]. unfold file. by rewrite H. Qed.

(** One turn of the loop. *)
Lemma load_turn i n eph s (g := seg_at c0 i) :
  at_rest s → headers (bt_mem s) → 0 ≤ i → i + 32 ≤ 4096 → seg_fits g → 0x10000 + i < eph →
  ∃ s', boot_loop fuel (S n) (0x10000 + i) eph s = boot_loop fuel n (0x10000 + (i + 32)) eph s' ∧ at_rest s' ∧
    loaded c0 g (bt_mem s') ∧ ∀ x, ¬ span g x → bt_mem s' x = bt_mem s x.
Proof using All.
  intros Hr Hh Hi1 Hi2 Hfit He. pose proof (file32_range (i + 4)) as Ro. pose proof (file32_range (i + 12)) as Rp.
  pose proof (file32_range (i + 16)) as Rf. pose proof (file32_range (i + 20)) as Rm. pose proof Hfit as (Hpa & Hmax & Hhd).
  assert (whole_sectors (bt_ctl s)) as Hws by (intros k; rewrite (proj2 Hr); apply Hw).
  destruct (readseg_run g s (proj1 Hr) Hws Hpa Hmax Ro ltac:(apply Rf)) as (c & m & Hrun & R & S & Hin & Hout).
  cbn [boot_loop]. rewrite (proj2 (Z.ltb_lt _ _) He).
  assert (∀ t k (Q : Z → M (boot C) unit), headers (bt_mem t) → 0 ≤ i + k ≤ 4092 → (boot_word (0x10000 + i + k) ≫= Q) t = Q (file32 c0 (i + k)) t) as Hword.
  { intros t k Q Ht Hk. by rewrite (bind_run _ _ _ _ _ (header_word (0x10000 + i + k) (i + k) t Ht ltac:(lia) Hk)). }
  rewrite !Hword by (done || lia). rewrite (bind_run _ _ _ _ _ Hrun).
  assert (headers m) as Hh1 by (intros j Hj; rewrite Hout; [by apply Hh|]; intros Hsp; by apply (Hhd _ Hsp); lia).
  rewrite !Hword by (done || lia). unfold PROGHDR. rewrite (u32_small (0x10000 + i + 32)) by lia. rewrite <- Z.add_assoc.
  change (file32 c0 (i + 12)) with (sg_paddr g). change (file32 c0 (i + 16)) with (sg_filesz g) in *. change (file32 c0 (i + 20)) with (sg_memsz g) in *.
  change (file32 c0 (i + 12)) with (sg_paddr g) in Rp. rewrite (u32_small (sg_paddr g + sg_filesz g)) by lia.
  assert (∀ x, sg_paddr g ≤ x < sg_paddr g + sg_filesz g → m x = file c0 (sg_off g + (x - sg_paddr g))) as Hin0.
  { intros x Hx. rewrite Hin by done. by apply rest_file. }
  destruct (Z.ltb_spec (sg_filesz g) (sg_memsz g)) as [Hlt|Hge]; cbn [when].
  - rewrite (bind_run (boot_mem _) _ tt (mkBoot c m) (mkBoot c (stosb (sg_paddr g + sg_filesz g) 0 (Z.to_nat (sg_memsz g - sg_filesz g)) m))) by done.
    pose proof (stosb_filled (sg_paddr g + sg_filesz g) 0 (Z.to_nat (sg_memsz g - sg_filesz g)) m ltac:(lia) ltac:(lia)) as Hst.
    eexists. split; [reflexivity|]. split; [by eapply at_rest_io|]. cbn [bt_mem]. split; [split|].
    + intros j Hj. rewrite (Hst _), decide_False by lia. rewrite Hin0 by lia. f_equal. lia.
    + intros j Hj. rewrite (Hst _), decide_True by lia. done.
    + intros x Hx. rewrite (Hst x), decide_False; [by apply Hout|]. intros Hb. apply Hx. unfold span. pose proof (Z.mod_pos_bound (sg_off g) 512). lia.
  - rewrite (bind_run (mret tt) _ tt (mkBoot c m) (mkBoot c m)) by done. eexists. split; [reflexivity|]. split; [by eapply at_rest_io|]. cbn [bt_mem].
    split; [split|done].
    + intros j Hj. rewrite Hin0 by lia. f_equal. lia.
    + intros j Hj. lia.
Qed.
Lemma loop_run l : ∀ n i s, at_rest s → headers (bt_mem s) → 0 ≤ i → i + 32 * Z.of_nat (length l) ≤ 4096 → (length l < n)%nat →
  (∀ j g, l !! j = Some g → g = seg_at c0 (i + 32 * Z.of_nat j) ∧ seg_fits g) → in_order l →
  ∃ s', boot_loop fuel n (0x10000 + i) (0x10000 + i + 32 * Z.of_nat (length l)) s = Ok tt s' ∧ at_rest s' ∧ headers (bt_mem s') ∧
    Forall (λ g, loaded c0 g (bt_mem s')) l ∧ ∀ x, Forall (λ g, ¬ span g x) l → bt_mem s' x = bt_mem s x.
Proof using All.
  induction l as [|g l IH]; intros n i s Hr Hh Hi Hlen Hn Hl Ho; cbn [length] in *.
  { destruct n as [|n]; [lia|]. cbn [boot_loop]. rewrite (proj2 (Z.ltb_ge _ _)) by lia. exists s. by repeat (split; [done|]). }
  destruct n as [|n]; [lia|]. destruct (Hl 0%nat g eq_refl) as [Eg Hfit]. rewrite Z.mul_0_r, Z.add_0_r in Eg. subst g.
  set (e := 0x10000 + i + 32 * Z.of_nat (S (length l))).
  destruct (load_turn i n e s Hr Hh Hi ltac:(lia) Hfit ltac:(unfold e; lia)) as (s1 & H1 & Hr1 & Hld & Hsame).
  assert (headers (bt_mem s1)) as Hh1.
  { intros j Hj. rewrite Hsame; [by apply Hh|]. intros Hsp. by apply (proj2 (proj2 Hfit) _ Hsp); lia. }
  destruct (IH n (i + 32) s1 Hr1 Hh1) as (s' & H2 & Hr2 & Hh2 & HF & Hout); [lia|lia|lia| | |].
  { intros j h Hj. destruct (Hl (S j) h Hj) as [-> Hf]. split; [f_equal; lia|done]. }
  { intros j k g h x Hj Hk Hjk. apply (Ho (S j) (S k) g h x); [done|done|lia]. }
  exists s'. rewrite H1. replace e with (0x10000 + (i + 32) + 32 * Z.of_nat (length l)) by (unfold e; lia).
  split; [exact H2|]. split; [done|]. split; [done|]. split.
  - constructor; [|done]. assert (∀ x, body (seg_at c0 i) x → bt_mem s' x = bt_mem s1 x) as Hkeep.
    { intros x Hx. apply Hout. rewrite Forall_lookup. intros j h Hj. by apply (Ho 0%nat (S j) (seg_at c0 i) h x); [done|done|lia|]. }
    destruct Hld as [L1 L2]. pose proof (file32_range (i + 16)) as Rf. change (file32 c0 (i + 16)) with (sg_filesz (seg_at c0 i)) in Rf.
    split; intros j Hj; rewrite Hkeep by (unfold body; lia); [by apply L1|by apply L2].
  - intros x [Hx HFx]%Forall_cons. rewrite Hout by done. by apply Hsame.
Qed.
End load.
End proof.

(** C19: bootmain loads the kernel.  If the file on the disk is no ELF file, it returns.  Otherwise it enters the file's entry point
    with every segment in memory at its physical address, the bytes of the file followed by zeros up to its size in memory; the
    program headers have to lie in the first page of the file, segments must not touch the page they are read to,
    and reading whole sectors for a segment must not reach into segments before it. *)
Theorem bootmain_loads {C} `{!BootCtl C} (fuel : nat) `{!BootCtlOk C fuel} (s : boot C) (c := bt_ctl s) :
  2 ^ 24 < Z.of_nat fuel → b_reading c = None → whole_sectors c →
  (file32 c 0 ≠ ELF_MAGIC → ∃ s', bootmain fuel s = Ok None s') ∧
  (file32 c 0 = ELF_MAGIC → file32 c 28 + 32 * file16 c 44 ≤ 4096 → Forall seg_fits (kernel_segs c) → in_order (kernel_segs c) →
   ∃ s', bootmain fuel s = Ok (Some (file32 c 24)) s' ∧ Forall (λ g, loaded c g (bt_mem s')) (kernel_segs c)).
Proof.
  intros Hf Hid Hw. unfold bootmain.
  destruct (readseg_run fuel Hf (mkSeg 0x10000 0 4096 4096) s Hid Hw) as (c1 & m1 & H1 & R1 & S1 & Hin & _); cbn [sg_off sg_paddr sg_filesz sg_memsz] in *;
    [rewrite Zmod_0_l; lia|lia|lia|lia|].
  rewrite (bind_run _ _ _ _ _ H1). set (s1 := mkBoot c1 m1).
  assert (at_rest c s1) as Hr by (split; [exact R1|exact S1]).
  assert (headers c (bt_mem s1)) as Hh by (intros i Hi; cbn; rewrite Hin by lia; f_equal; lia).
  rewrite (bind_run _ _ _ _ _ (header_word c 0x10000 0 s1 Hh eq_refl ltac:(lia))). split; intros Hm.
  { rewrite (proj2 (Z.eqb_neq _ _) Hm). by eexists. }
  rewrite (proj2 (Z.eqb_eq _ _) Hm). cbn [negb]. intros Hph Hfit Ho. pose proof (file32_range c Hw 28) as R28.
  rewrite (bind_run _ _ _ _ _ (header_word c (0x10000 + 28) 28 s1 Hh eq_refl ltac:(lia))).
  rewrite (bind_run _ _ _ _ _ (header_half c (0x10000 + 44) 44 s1 Hh eq_refl ltac:(lia))).
  assert (0 ≤ file16 c 44) as R44 by (unfold file16; pose proof (file_byte c Hw 44); pose proof (file_byte c Hw (44 + 1)); lia).
  unfold PROGHDR. rewrite !u32_small by lia. replace (file16 c 44 * 32) with (32 * Z.of_nat (length (kernel_segs c))).
  2: { unfold kernel_segs. rewrite length_fmap, length_seq. lia. }
  assert (Z.of_nat (length (kernel_segs c)) = file16 c 44) as Elen by (unfold kernel_segs; rewrite length_fmap, length_seq; lia).
  destruct (loop_run fuel Hf c Hw (kernel_segs c) fuel (file32 c 28) s1 Hr Hh) as (s' & H2 & Hr2 & Hh2 & HF & _); [lia|lia|lia| |done|].
  { intros j g Hj. split; [|by eapply Forall_lookup_1]. unfold kernel_segs in Hj. apply list_lookup_fmap_Some in Hj as (k & -> & Hk).
    by apply lookup_seq in Hk as [-> _]. }
  rewrite (bind_run _ _ _ _ _ H2). exists s'.
  by rewrite (bind_run _ _ _ _ _ (header_word c (0x10000 + 24) 24 s' Hh2 eq_refl ltac:(lia))).
Qed.

(** ** A disk with a small kernel *)
Record demo_boot := mkDb { db_lo : Z; db_mid : Z; db_hi : Z; db_dev : Z; db_reading : option Z; db_sectors : Z → block }.
#[global] Instance demo_bootctl : BootCtl demo_boot := {
  b_outb p v c :=
    let '(mkDb lo mid hi dev r D) := c in
    if p =? 0x1F3 then mkDb v mid hi dev r D else
    if p =? 0x1F4 then mkDb lo v hi dev r D else
    if p =? 0x1F5 then mkDb lo mid v dev r D else
    if p =? 0x1F6 then mkDb lo mid hi v r D else
    if p =? 0x1F7 then mkDb lo mid hi dev (Some (lba lo mid hi dev)) D else c;
  b_inb _ c := (0x40, c);
  b_insl _ '(mkDb lo mid hi dev r D) := (match r with Some n => D n | None => [] end, mkDb lo mid hi dev None D);
  b_reading := db_reading;
  b_data _ := true;
  b_sector := db_sectors;
  b_polls _ := 0%nat }.
#[global] Instance demo_bootctl_ok fuel : BootCtlOk demo_boot (S fuel).
Proof.
  split.
  - intros c. cbn. lia.
  - done.
  - intros lo mid hi dev [] _ _ _ _ _. done.
  - intros [] n. cbn. intros -> _. done.
Qed.
Definition pad_sector (l : list Z) : block := l ++ replicate (512 - length l) 0.
(** One segment: three bytes of the file, eight in memory at 0x100000. *)
Definition demo_kernel (n : Z) : block :=
  if n =? 1 then
    pad_sector ([0x7F; 69; 76; 70] ++ replicate 20 0 ++ [12; 0; 16; 0; 52; 0; 0; 0] ++ replicate 12 0 ++ [1; 0] ++ replicate 6 0 ++
      [1; 0; 0; 0; 0; 2; 0; 0; 0; 0; 0; 0x80; 0; 0; 16; 0; 3; 0; 0; 0; 8; 0; 0; 0])
  else if n =? 2 then pad_sector [7; 8; 9] else pad_sector [].
Definition demo_loader : boot demo_boot := mkBoot (mkDb 0 0 0 0 None demo_kernel) (λ _, 1).
Lemma demo_kernel_sectors : whole_sectors (bt_ctl demo_loader).
Proof.
  intros n. cbn. unfold demo_kernel.
  destruct (n =? 1); [|destruct (n =? 2)]; (split; [reflexivity|]); apply (bool_decide_eq_true_1 _); vm_compute; reflexivity.
Qed.
Lemma bootmain_loads_witness :
  ∃ s', bootmain (S (Z.to_nat (2 ^ 24))) demo_loader = Ok (Some 0x10000C) s' ∧
    (λ j, bt_mem s' (0x100000 + j)) <$> [0; 1; 2; 3; 4; 5; 6; 7] = [7; 8; 9; 0; 0; 0; 0; 0].
Proof.
  assert (kernel_segs (bt_ctl demo_loader) = [mkSeg 0x100000 512 3 8]) as Es by (vm_compute; reflexivity).
  destruct (bootmain_loads (S (Z.to_nat (2 ^ 24))) demo_loader) as [_ (s' & Hrun & HF)];
    [lia|reflexivity|apply demo_kernel_sectors|vm_compute; reflexivity|vm_compute; discriminate| | |].
  { rewrite Es. apply Forall_singleton. split; [vm_compute; discriminate|]. split; [vm_compute; reflexivity|]. intros x [Hx _]. change (0x100000 - 0 ≤ x) in Hx. lia. }
  { rewrite Es. intros [|i] [|j] g h x Hg Hh Hij; [lia|done..]. }
  exists s'. rewrite Es in HF. apply Forall_cons in HF as [[L1 L2] _]. cbn [sg_paddr sg_off sg_filesz sg_memsz] in L1, L2.
  split; [exact Hrun|]. cbn [fmap list_fmap]. rewrite !L1, !L2 by lia. vm_compute. reflexivity.
Defined.
(** A segment whose offset in the file is not at the start of a sector overwrites what lies before it in memory. *)
Example readseg_overwrites_before :
  match readseg 10 0x100000 2 513 demo_loader with
  | Ok _ s => bt_mem demo_loader 0xfffff = 1 ∧ bt_mem s 0xfffff = 7
  | _ => False
  end.
Proof. vm_compute. split; reflexivity. Qed.
