(* ===== verification/Execseg.v ===== *)
(** * The address space that exec builds

    [space m0 P k l d T n fl V]: the directory [d] with its tables [T] and the free list [l] share out
    the pages [P], the pages below [n] are mapped with the flags [fl], the others are not, and the user
    reads the bytes [V]; outside [P] memory is [m0]. *)

From S2P Require Import Prelude CStr Mem Kalloc Vm VmRep VmMap VmUser VmAlloc VmCopy VmOut Bytes Exec.

(** The byte a user reads at address [a]. *)
Definition vmem (k : kmem) (T : gmap Z Z) (a : Z) : Z := km_mem k (trans (km_mem k) T a).
Definition rw (_ : Z) : Z := 6.

(** The bit PTE_U of an entry. *)
Lemma page_bit2 pa : pa mod 4096 = 0 → Z.testbit pa 2 = false.
Proof. intros [q ->]%Z.mod_divide; [|done]. change 4096 with (2 ^ 12). by rewrite Z.mul_pow2_bits_low. Qed.
Lemma land_bit2 x : Z.land x 4 = if Z.testbit x 2 then 4 else 0.
Proof.
  apply Z.bits_inj'. intros i Hi. rewrite Z.land_spec. change 4 with (2 ^ 2) at 1. rewrite Z.pow2_bits_eqb by lia. destruct (Z.eqb_spec 2 i) as [<-|Hne].
  - by destruct (Z.testbit x 2).
  - rewrite andb_false_r. destruct (Z.testbit x 2); [|by rewrite Z.bits_0]. change 4 with (2 ^ 2). by rewrite Z.pow2_bits_false by lia.
Qed.
Lemma pte_user pa f : pa mod 4096 = 0 → Z.land (mk_pte pa f) PTE_U = Z.land f 4.
Proof.
  intros H. unfold mk_pte, PTE_P, PTE_U. rewrite !land_bit2, !Z.lor_spec, page_bit2 by done. by rewrite orb_false_r.
Qed.
Lemma pte_clear_user pa : pa mod 4096 = 0 → 0 ≤ pa < 2 ^ 32 → Z.land (mk_pte pa 6) (u32 (Z.lnot PTE_U)) = mk_pte pa 2.
Proof.
  intros H Hr. change (u32 (Z.lnot PTE_U)) with (Z.land (Z.ones 32) (Z.lnot 4)). unfold mk_pte, PTE_P. rewrite !Z.land_lor_distr_l.
  change (Z.land 6 (Z.land (Z.ones 32) (Z.lnot 4))) with 2. change (Z.land 1 (Z.land (Z.ones 32) (Z.lnot 4))) with 1. do 2 f_equal.
  rewrite Z.land_assoc, Z.land_ones, Z.mod_small by lia. apply Z.bits_inj'. intros i Hi. rewrite Z.land_spec, Z.lnot_spec by lia.
  change 4 with (2 ^ 2). rewrite Z.pow2_bits_eqb by lia. destruct (Z.eqb_spec 2 i) as [<-|]; [by rewrite page_bit2|apply andb_true_r].
Qed.

Section space.
Context (kend kdata : Z).
Hypothesis Hkend : KERNBASE < kend.
Abbreviation page_ok := (page_ok kend).
Abbreviation us := (us kend).
Implicit Types (m : mem) (d t p : Z) (T : gmap Z Z) (k : kmem) (l P : list Z) (V fl : Z → Z).

Record space m0 P k l d T (n : Z) fl V : Prop := {
  sp_us : us k l d T;
  sp_pool : pool k l d T ≡ₚ P;
  sp_top : 0 ≤ n ≤ UPAGES;
  sp_low j : 0 ≤ j < n → ∃ p, page_ok p ∧ ent (km_mem k) T j = mk_pte (V2P p) (fl j) ∧ (fl j = 6 ∨ fl j = 2);
  sp_high j : n ≤ j < UPAGES → present (ent (km_mem k) T j) = false;
  sp_kern j : UPAGES ≤ j → ent (km_mem k) T j = kent (kmap kdata) (λ _, 0) j;
  sp_bytes a : 0 ≤ a < n * 4096 → vmem k T a = V a;
  sp_out : outside P m0 (km_mem k) }.

Lemma upages_in k l d T j : us k l d T → 0 ≤ j < UPAGES → present (ent (km_mem k) T j) = true →
  page_ok (upage (ent (km_mem k) T j)) ∧ upage (ent (km_mem k) T j) ∈ upages (ent (km_mem k) T) ∧ upage (ent (km_mem k) T j) ∉ pt_pages d T ++ l.
Proof.
  intros U Hj Hp. destruct (us_page kend Hkend k l d T j U Hj Hp) as (Hok & Hl & Ht & _). split; [done|]. split; [apply upages_spec; by exists j|].
  rewrite elem_of_app. tauto.
Qed.
(** A mapped page of a space. *)
Section page.
Context m0 P k l d T n fl V (S : space m0 P k l d T n fl V).
Lemma sp_page j : 0 ≤ j < n → let p := upage (ent (km_mem k) T j) in
  present (ent (km_mem k) T j) = true ∧ page_ok p ∧ p ∈ P ∧ p ∉ pt_pages d T ++ l ∧ ent (km_mem k) T j = mk_pte (V2P p) (fl j).
Proof.
  intros Hj. destruct (sp_low _ _ _ _ _ _ _ _ _ S j Hj) as (p & Hok & E & Hfl). pose proof (sp_top _ _ _ _ _ _ _ _ _ S) as Ht.
  destruct (upage_mk kend p (fl j) Hok ltac:(lia)) as [Hu Hpr]. rewrite <- E in Hu, Hpr.
  destruct (upages_in k l d T j (sp_us _ _ _ _ _ _ _ _ _ S) ltac:(lia) Hpr) as (_ & Hin & Hno). rewrite Hu in *.
  split; [done|]. split; [done|]. split; [rewrite <- (sp_pool _ _ _ _ _ _ _ _ _ S); apply elem_of_app; by left|]. split; done.
Qed.
Lemma sp_user a : 0 ≤ a < n * 4096 → user_ok (km_mem k) T a ↔ fl (a / 4096) = 6.
Proof.
  intros Ha. assert (0 ≤ a / 4096 < n) as Hj by (split; [apply Z.div_pos; lia|apply Z.div_lt_upper_bound; lia]).
  destruct (sp_low _ _ _ _ _ _ _ _ _ S _ Hj) as (p & Hok & E & Hfl). destruct (sp_page _ Hj) as (Hpr & _).
  unfold user_ok. rewrite Hpr, E. destruct (page_V2P kend p Hok) as (H1 & H2 & _). rewrite pte_user by done.
  destruct Hfl as [->| ->]; (split; [|done]); [done|by intros [_ []]].
Qed.
Lemma sp_idx a : 0 ≤ a < n * 4096 → 0 ≤ a / 4096 < n.
Proof. intros Ha. split; [apply Z.div_pos; lia|apply Z.div_lt_upper_bound; lia]. Qed.
(** Another memory that agrees on the pages and the tables of the space. *)
Lemma sp_agree k' l' T' n' fl' V' :
  us k' l' d T' → pool k' l' d T' ≡ₚ P → n ≤ n' ≤ UPAGES → outside P m0 (km_mem k') →
  (∀ j, 0 ≤ j < n ∨ UPAGES ≤ j → ent (km_mem k') T' j = ent (km_mem k) T j) →
  (∀ j, n' ≤ j < UPAGES → present (ent (km_mem k') T' j) = false) →
  (∀ j, n ≤ j < n' → zero_page kend k' T' j ∧ fl' j = 6) →
  (∀ j, 0 ≤ j < n → fl' j = fl j) →
  (∀ j x, 0 ≤ j < n → in_page (upage (ent (km_mem k) T j)) x → km_mem k' x = km_mem k x) →
  (∀ a, 0 ≤ a < n * 4096 → V' a = V a) → (∀ a, n * 4096 ≤ a < n' * 4096 → V' a = 0) →
  space m0 P k' l' d T' n' fl' V'.
Proof.
  intros U' HP' Hn' Hout Hent Habs Hnew Hfl Hmem HV Hz. pose proof (sp_top _ _ _ _ _ _ _ _ _ S) as Ht. split; [done|done|lia| | | | |done].
  - intros j Hj. destruct (decide (j < n)).
    + rewrite Hent, Hfl by lia. apply S. lia.
    + destruct (Hnew j ltac:(lia)) as [(p & Hok & E & _) Hf]. exists p. rewrite Hf. split; [done|]. split; [done|]. by left.
  - exact Habs.
  - intros j Hj. rewrite Hent by lia. by apply S.
  - intros a Ha. unfold vmem, trans. assert (a mod 4096 < 4096 ∧ 0 ≤ a mod 4096) as Hm by (pose proof (Z.mod_pos_bound a 4096); lia).
    destruct (decide (a < n * 4096)) as [Hlt|Hge].
    + pose proof (sp_idx a ltac:(lia)) as Hi. rewrite Hent by lia. rewrite (Hmem (a / 4096)) by (done || unfold in_page, KPGSIZE; lia).
      rewrite HV by lia. exact (sp_bytes _ _ _ _ _ _ _ _ _ S a ltac:(lia)).
    + assert (n ≤ a / 4096 < n') as Hi by (split; [apply Z.div_le_lower_bound; lia|apply Z.div_lt_upper_bound; lia]).
      destruct (Hnew _ Hi) as [(p & Hok & -> & Hb) _]. destruct (upage_mk kend p 6 Hok ltac:(lia)) as [-> _]. rewrite Hz by lia. apply Hb.
      unfold in_page, KPGSIZE. lia.
Qed.
End page.

Lemma outside_pool m0 P k l d T k' :
  pool k l d T ≡ₚ P → outside P m0 (km_mem k) → outside (pool k l d T) (km_mem k) (km_mem k') → outside P m0 (km_mem k').
Proof. intros HP H1 H2. eapply outside_trans; [exact H1|]. eapply outside_mono; [|exact H2]. intros q. by rewrite HP. Qed.

(** allocuvm. *)
Lemma space_alloc m0 P k l d T oldsz newsz V :
  let n := (oldsz + 4095) / 4096 in
  space m0 P k l d T n rw V → 0 ≤ oldsz < KERNBASE → 0 ≤ newsz → (∀ a, n * 4096 ≤ a → V a = 0) →
  ∃ r k' l' T', allocuvm kend d oldsz newsz k = Ok r k' ∧
    ((r = Z.max oldsz newsz ∧ newsz < KERNBASE ∧ space m0 P k' l' d T' ((r + 4095) / 4096) rw V) ∨
     (r = 0 ∧ space m0 P k' l' d T' n rw V ∧ (KERNBASE ≤ newsz ∨ Z.of_nat (length P) ≤ (newsz + 4095) / 4096 + 1026))).
Proof.
  intros n S Ho Hn HV. pose proof (sp_us _ _ _ _ _ _ _ _ _ S) as U. pose proof (sp_pool _ _ _ _ _ _ _ _ _ S) as HP.
  destruct (decide (KERNBASE ≤ newsz)) as [Hbig|Hbig].
  { exists 0, k, l, T. unfold allocuvm. rewrite (proj2 (Z.leb_le _ _)) by done. split; [done|]. right. split; [done|]. split; [done|]. by left. }
  destruct (decide (newsz < oldsz)) as [Hlt|Hge].
  { exists oldsz, k, l, T. unfold allocuvm. rewrite (proj2 (Z.leb_gt _ _)), (proj2 (Z.ltb_lt _ _)) by lia. split; [done|]. left. split; [lia|]. split; [lia|done]. }
  assert ((newsz + 4095) / 4096 ≤ UPAGES) as Hhi by (unfold UPAGES, KERNBASE in *; apply Z.lt_succ_r; apply Z.div_lt_upper_bound; lia).
  assert (n ≤ (newsz + 4095) / 4096) as Hnn by (apply Z.div_le_mono; lia).
  destruct (allocuvm_spec kend Hkend k l d T oldsz newsz U ltac:(unfold KERNBASE in *; lia) ltac:(lia)) as (r & k' & l' & T' & H & U' & P' & O' & Hr).
  { intros j Hj. apply S. fold n in Hj. lia. }
  fold n in Hr. exists r, k', l', T'. split; [exact H|].
  assert (pool k' l' d T' ≡ₚ P) as HP' by (by rewrite P'). pose proof (outside_pool m0 P k l d T k' HP (sp_out _ _ _ _ _ _ _ _ _ S) O') as Hout.
  destruct Hr as [[-> [Go Gi Gm]]|(-> & [Fo Fi Fm] & Hf)]; [left; split; [lia|]; split; [lia|]|right; split; [done|split]].
  - apply (sp_agree m0 P k l d T n rw V S); [done|done|lia|done| | |by intros j Hj; split; [apply Gi|]|done| |done|intros a Ha; apply HV; lia].
    + intros j Hj. apply Go. lia.
    + intros j Hj. rewrite Go by lia. apply S. lia.
    + intros j x Hj Hx. destruct (sp_page _ _ _ _ _ _ _ _ _ S j Hj) as (_ & Hok & _ & Hno & _). apply (Gm _ x Hok Hno); [lia|done].
  - apply (sp_agree m0 P k l d T n rw V S); [done|done|pose proof (sp_top _ _ _ _ _ _ _ _ _ S); lia|done| | |lia|done| |done|lia].
    + intros j Hj. apply Fo. lia.
    + intros j Hj. destruct (decide (j < (newsz + 4095) / 4096)); [apply Fi; lia|]. rewrite Fo by lia. by apply S.
    + intros j x Hj Hx. destruct (sp_page _ _ _ _ _ _ _ _ _ S j Hj) as (_ & Hok & _ & Hno & _). apply (Fm _ x Hok Hno); [lia|done].
  - right. rewrite <- HP. apply Hf. intros j Hj. apply S. lia.
Qed.

(** A user page changes. *)
Lemma space_write m0 P k l d T n fl V j m' V' :
  space m0 P k l d T n fl V → 0 ≤ j < n → let p := upage (ent (km_mem k) T j) in
  outside [p] (km_mem k) m' → (∀ a, 0 ≤ a < n * 4096 → a / 4096 ≠ j → V' a = V a) →
  (∀ i, 0 ≤ i < 4096 → m' (p + i) = V' (j * 4096 + i)) →
  space m0 P (with_mem m' k) l d T n fl V' ∧ ∀ i, ent m' T i = ent (km_mem k) T i.
Proof.
  intros S Hj p Ho HV Hb. pose proof (sp_top _ _ _ _ _ _ _ _ _ S) as Ht. destruct (sp_page _ _ _ _ _ _ _ _ _ S j Hj) as (Hpr & Hok & HpP & Hno & _). fold p in Hok, HpP, Hno.
  destruct (us_write kend Hkend k l d T j m' (sp_us _ _ _ _ _ _ _ _ _ S) ltac:(lia) Hpr Ho) as [U He]. split; [|done].
  assert (pool (with_mem m' k) l d T = pool k l d T) as Epool.
  { assert (upages (ent m' T) = upages (ent (km_mem k) T)) as Eu by (apply upages_ext; intros i _; unfold upage_of; by rewrite He).
    unfold pool. cbn [km_mem with_mem]. by rewrite Eu. }
  split; [done|rewrite Epool; apply S|done| | | | |].
  - intros i Hi. cbn [km_mem with_mem]. rewrite He. by apply S.
  - intros i Hi. cbn [km_mem with_mem]. rewrite He. by apply S.
  - intros i Hi. cbn [km_mem with_mem]. rewrite He. by apply S.
  - intros a Ha. unfold vmem, trans. cbn [km_mem with_mem]. rewrite He. pose proof (sp_idx n a Ha) as Hi.
    pose proof (Z.mod_pos_bound a 4096 ltac:(lia)). pose proof (Z.div_mod a 4096 ltac:(lia)). destruct (decide (a / 4096 = j)) as [E|E].
    + rewrite E. change (upage (ent (km_mem k) T j)) with p. rewrite (Hb (a mod 4096)) by lia. f_equal. lia.
    + rewrite Ho; [rewrite HV by done; exact (sp_bytes _ _ _ _ _ _ _ _ _ S a Ha)|]. intros q ->%list_elem_of_singleton.
      destruct (sp_page _ _ _ _ _ _ _ _ _ S _ Hi) as (Hpr' & Hok' & _). eapply (other_page kend _ _ _ Hok' Hok); [|unfold in_page, KPGSIZE; lia].
      intros E'. apply E. eapply upages_inj; [|split; lia|split; lia|exact Hpr'|exact Hpr|exact E'].
      pose proof (us_nodup _ _ _ _ _ (sp_us _ _ _ _ _ _ _ _ _ S)) as N. unfold pool in N. by apply NoDup_app in N as [? _].
  - cbn [km_mem with_mem]. eapply outside_trans; [apply S|]. eapply outside_mono; [|exact Ho]. by intros q ->%list_elem_of_singleton.
Qed.

(** The entry of a mapped page. *)
Lemma space_walk m0 P k l d T n fl V va :
  space m0 P k l d T n fl V → 0 ≤ va < n * 4096 →
  ∃ r, ent_at T (va / 4096) r ∧ walkpgdir d va false k = Ok r k ∧ (r =? 0) = false ∧ read_word r k = Ok (ent (km_mem k) T (va / 4096)) k.
Proof.
  intros S Hva. pose proof (sp_idx n va Hva) as Hi. pose proof (sp_top _ _ _ _ _ _ _ _ _ S) as Ht. unfold UPAGES in Ht.
  destruct (sp_page _ _ _ _ _ _ _ _ _ S _ Hi) as (Hpr & _). pose proof (us_vm _ _ _ _ _ (sp_us _ _ _ _ _ _ _ _ _ S)) as Vm.
  destruct (T !! (va / 4096 / 1024)) as [t|] eqn:Et; [|unfold ent in Hpr; by rewrite Et in Hpr].
  pose proof (ent_at_intro kend _ _ _ _ _ _ Vm Et) as Ha. exists (t + 4 * (va / 4096 mod 1024)). split; [done|].
  split; [by eapply (walk_hit kend); [exact Vm|lia|]|]. split; [apply Z.eqb_neq; by destruct Ha as (_ & _ & _ & ?)|]. unfold read_word, gets, ent. by rewrite Et.
Qed.
(** clearpteu. *)
Lemma space_clear m0 P k l d T n V j :
  space m0 P k l d T n rw V → 0 ≤ j < n →
  ∃ k', clearpteu d (j * 4096) k = Ok tt k' ∧ space m0 P k' l d T n (λ i, if decide (i = j) then 2 else 6) V.
Proof.
  intros S Hj. pose proof (sp_top _ _ _ _ _ _ _ _ _ S) as Ht. assert (j * 4096 / 4096 = j) as Ej by (apply Z.div_mul; lia).
  destruct (space_walk m0 P k l d T n rw V (j * 4096) S ltac:(lia)) as (r & Ha & Hw & Hr & Hrd). rewrite Ej in *.
  destruct (sp_page _ _ _ _ _ _ _ _ _ S j Hj) as (Hpr & Hok & HpP & Hno & E). change (rw j) with 6 in E. set (p := upage (ent (km_mem k) T j)) in *.
  destruct (page_V2P kend p Hok) as (H1 & H2 & _). destruct (mk_pte_spec (V2P p) 2 H1 H2 ltac:(lia)) as (Hw2 & Hp2 & _).
  pose proof (sp_us _ _ _ _ _ _ _ _ _ S) as U.
  destruct (set_ent kend k l d T j r (mk_pte (V2P p) 2) (us_vm _ _ _ _ _ U) Ha Hw2) as (_ & k' & Hwr & St & He).
  exists k'. unfold clearpteu. rewrite (bind_run _ _ _ _ _ Hw), Hr, (bind_run _ _ _ _ _ Hrd), E, pte_clear_user by done. split; [exact Hwr|].
  assert (∀ i, upage_of (ent (km_mem k') T) i = upage_of (ent (km_mem k) T) i) as Hup.
  { intros i. unfold upage_of. rewrite He. case_decide as Ei; [|done]. rewrite Ei, Hpr, Hp2. f_equal. by destruct (upage_mk kend p 2 Hok ltac:(lia)) as [-> _]. }
  assert (upages (ent (km_mem k') T) = upages (ent (km_mem k) T)) as Eu by (apply upages_ext; intros i _; apply Hup).
  assert (pool k' l d T = pool k l d T) as Epool by (unfold pool; by rewrite Eu).
  assert (∀ i x, 0 ≤ i < n → in_page (upage (ent (km_mem k) T i)) x → km_mem k' x = km_mem k x) as Hmem.
  { intros i x Hi Hx. destruct (sp_page _ _ _ _ _ _ _ _ _ S i Hi) as (_ & Hoki & _ & Hnoi & _).
    exact (vstep_page kend d k l T k' l T _ x (us_vm _ _ _ _ _ U) St Hoki Hnoi Hx). }
  assert (∀ i, 0 ≤ i < n → upage (ent (km_mem k') T i) = upage (ent (km_mem k) T i)) as Hupi.
  { intros i Hi. rewrite He. case_decide as Ei; [|done]. subst i. by destruct (upage_mk kend p 2 Hok ltac:(lia)) as [-> _]. }
  split; [|rewrite Epool; apply S|done| | | | |].
  - split; [apply St|rewrite Epool; apply U|rewrite Eu; apply U].
  - intros i Hi. rewrite He. case_decide as Ei; [exists p; split; [done|]; split; [done|by right]|].
    destruct (sp_low _ _ _ _ _ _ _ _ _ S i Hi) as (q & Hq & Eq & _). exists q. split; [done|]. split; [done|by left].
  - intros i Hi. rewrite He, decide_False by lia. by apply S.
  - intros i Hi. rewrite He, decide_False by lia. by apply S.
  - intros a Ha'. pose proof (sp_idx n a Ha') as Hi. pose proof (Z.mod_pos_bound a 4096 ltac:(lia)). unfold vmem, trans. rewrite Hupi by done.
    assert (in_page (upage (ent (km_mem k) T (a / 4096))) (upage (ent (km_mem k) T (a / 4096)) + a mod 4096)) as Hin by (unfold in_page, KPGSIZE; lia).
    rewrite (Hmem _ _ Hi Hin). exact (sp_bytes _ _ _ _ _ _ _ _ _ S a Ha').
  - apply (outside_pool m0 P k l d T); [apply S|apply S|]. eapply outside_mono; [|apply St]. intros q Hq. apply elem_of_app. by right.
Qed.
End space.

(** * Loading the segments of a program

    [elf_image c]: what the file [c] says the memory of the program is, without pages or
    allocation; the loop over the program headers builds it. *)

(** A segment in memory. *)
Definition seg_write (c : list Z) (va off sz : Z) (V : Z → Z) (a : Z) : Z :=
  if decide (va ≤ a < va + sz) then byte_at c (Z.to_nat (off + (a - va))) else V a.
Fixpoint segments (c : list Z) (n : nat) (off sz : Z) (V : Z → Z) : option (Z * (Z → Z)) :=
  match n with
  | O => Some (sz, V)
  | S n' =>
      if decide (Z.of_nat (length c) < off + PROGHDR) then None else
      let ph := ph_at (drop (Z.to_nat off) c) in
      if decide (ph_type ph ≠ ELF_PROG_LOAD) then segments c n' (u32 (off + PROGHDR)) sz V else
      let top := ph_vaddr ph + ph_memsz ph in
      if decide (ph_filesz ph ≤ ph_memsz ph ∧ top < KERNBASE ∧ 0 < Z.max sz top ∧ ph_vaddr ph mod 4096 = 0 ∧
                 (ph_filesz ph = 0 ∨ ph_off ph + ph_filesz ph ≤ Z.of_nat (length c)))
      then segments c n' (u32 (off + PROGHDR)) (Z.max sz top) (seg_write c (ph_vaddr ph) (ph_off ph) (ph_filesz ph) V)
      else None
  end.
Definition elf_image (c : list Z) : option (Z * (Z → Z)) :=
  let elf := elf_at c in
  if decide (52 ≤ length c ∧ magic elf = ELF_MAGIC)%nat then segments c (Z.to_nat (phnum elf)) (phoff elf) 0 (λ _, 0) else None.

(** ** readi *)
Lemma read_full c off n r b :
  Z.of_nat (length c) < 2 ^ 31 → 0 ≤ off < 2 ^ 32 → 0 < n ≤ 4096 → read_at c off n = (r, b) →
  (r = n ∧ off + n ≤ Z.of_nat (length c) ∧ b = take (Z.to_nat n) (drop (Z.to_nat off) c)) ∨
  (r ≠ n ∧ r < 2 ^ 31 ∧ -1 ≤ r ∧ Z.of_nat (length c) < off + n ∧ (length b < Z.to_nat n)%nat).
Proof.
  intros Hc Ho Hn. unfold read_at. case_decide as Hd; cbv zeta; intros [= <- <-].
  - rewrite length_take, length_drop. destruct (decide (off + n ≤ Z.of_nat (length c))); [left|right]; (split; [lia|]); [done|lia].
  - right. cbn [length]. lia.
Qed.
Lemma u32_neq r n : -1 ≤ r < 2 ^ 31 → 0 < n ≤ 4096 → r ≠ n → (u32 r =? n) = false.
Proof.
  intros Hr Hn Hne. apply Z.eqb_neq. destruct (decide (r = -1)) as [->|]; [change (u32 (-1)) with (2 ^ 32 - 1); lia|]. rewrite u32_small by lia. done.
Qed.

(** ** Fields of headers *)
Definition bytes (c : list Z) : Prop := Forall (λ b, 0 ≤ b < 256) c.
Lemma byte_range c o : bytes c → 0 ≤ byte_at c o < 256.
Proof.
  intros H. unfold byte_at. destruct (c !! o) as [b|] eqn:E; [|cbn; lia]. exact (Forall_lookup_1 _ _ _ _ H E).
Qed.
Lemma get32_range c o : bytes c → 0 ≤ get32 c o < 2 ^ 32.
Proof.
  intros H. unfold get32. pose proof (byte_range c o H). pose proof (byte_range c (o + 1) H). pose proof (byte_range c (o + 2) H). pose proof (byte_range c (o + 3) H). lia.
Qed.
Lemma byte_take c n o : (o < n)%nat → byte_at (take n c) o = byte_at c o.
Proof. intros H. unfold byte_at. by rewrite lookup_take_lt. Qed.
Lemma get32_take c n o : (o + 3 < n)%nat → get32 (take n c) o = get32 c o.
Proof. intros H. unfold get32. by rewrite !byte_take by lia. Qed.
Lemma get16_take c n o : (o + 1 < n)%nat → get16 (take n c) o = get16 c o.
Proof. intros H. unfold get16. by rewrite !byte_take by lia. Qed.
Lemma ph_take c : ph_at (take 32 c) = ph_at c.
Proof. unfold ph_at. by rewrite !get32_take by lia. Qed.
Lemma elf_take c : elf_at (take 52 c) = elf_at c.
Proof. unfold elf_at. by rewrite !get32_take, get16_take by lia. Qed.
Lemma segments_mono c n : ∀ off sz V sz' V', segments c n off sz V = Some (sz', V') → sz ≤ sz'.
Proof.
  induction n as [|n IH]; intros off sz V sz' V'; cbn [segments]; [intros [= <- _]; lia|]. case_decide; [done|]. cbv zeta. case_decide; [apply IH|].
  case_decide; [|done]. intros H'%IH. lia.
Qed.

Section load.
Context {F : Type} `{!ExecFs F} `{!ExecFsOk F} (kend kdata : Z).
Hypothesis Hkend : KERNBASE < kend.
Abbreviation space := (space kend kdata).
Implicit Types (d : Z) (T : gmap Z Z) (k : kmem) (l P : list Z) (V fl : Z → Z) (f : F) (u : uproc).

Lemma fs_run {A} (m : M F A) a f f' k u : m f = Ok a f' → fs m (mkX f k u) = Ok a (mkX f' k u).
Proof. intros H. exact (zoom_run L_fs m a (mkX f k u) f' H). Qed.
Lemma km_run {A} (m : KM A) a f k k' u : m k = Ok a k' → km m (mkX f k u) = Ok a (mkX f k' u).
Proof. intros H. exact (zoom_run L_km m a (mkX f k u) k' H). Qed.

Lemma store_outside p b m : Z.of_nat (length b) ≤ 4096 → outside [p] m (store_bytes p b m).
Proof.
  intros Hb x Hx. unfold store_bytes. specialize (Hx p ltac:(by apply list_elem_of_singleton)). unfold in_page, KPGSIZE in Hx.
  destruct (Z.leb_spec p x); [|done]. rewrite lookup_ge_None_2; [done|]. lia.
Qed.
Lemma store_at p b m i : 0 ≤ i → store_bytes p b m (p + i) = default (m (p + i)) (b !! Z.to_nat i).
Proof. intros Hi. unfold store_bytes. rewrite (proj2 (Z.leb_le _ _)) by lia. do 2 f_equal. lia. Qed.

(** One page of loaduvm. *)
Lemma load_page m0 P k l d T n V va b :
  space m0 P k l d T n rw V → 0 ≤ va < n * 4096 → va mod 4096 = 0 → Z.of_nat (length b) ≤ 4096 →
  let p := upage (ent (km_mem k) T (va / 4096)) in let k' := with_mem (store_bytes p b (km_mem k)) k in
  set_mem (store_bytes p b) k = Ok tt k' ∧
  space m0 P k' l d T n rw (λ a, if decide (va ≤ a < va + Z.of_nat (length b)) then byte_at b (Z.to_nat (a - va)) else V a).
Proof.
  intros S Hva Hal Hb p k'. split; [done|]. pose proof (sp_idx n va Hva) as Hi. pose proof (Z.div_mod va 4096 ltac:(lia)) as Hd.
  destruct (space_write kend kdata Hkend m0 P k l d T n rw V (va / 4096) (store_bytes p b (km_mem k))
    (λ a, if decide (va ≤ a < va + Z.of_nat (length b)) then byte_at b (Z.to_nat (a - va)) else V a) S Hi) as [S' _]; [by apply store_outside| | |exact S'].
  - intros a Ha Hne. rewrite decide_False; [done|]. intros Hr. apply Hne.
    symmetry. apply (Z.div_unique _ _ _ (a - va)); lia.
  - intros i Hi'. rewrite store_at by lia. replace (va / 4096 * 4096 + i) with (va + i) by lia. case_decide as Hc.
    + replace (va + i - va) with i by lia. unfold byte_at. destruct (lookup_lt_is_Some_2 b (Z.to_nat i) ltac:(lia)) as [x ->]. done.
    + rewrite lookup_ge_None_2 by lia. cbn [default]. rewrite <- (sp_bytes _ _ _ _ _ _ _ _ _ _ _ S) by lia. unfold vmem, trans.
      replace ((va + i) / 4096) with (va / 4096) by (apply (Z.div_unique _ _ _ i); lia).
      replace ((va + i) mod 4096) with i by (apply (Z.mod_unique _ _ (va / 4096)); lia). done.
Qed.

Lemma loaduvm_run fuel : ∀ m0 P f ip c k l d T n V u va off j sz,
  space m0 P k l d T n rw V → xf_open f ip c → 0 ≤ va → va mod 4096 = 0 → 0 ≤ off < 2 ^ 32 → 0 ≤ j → 0 ≤ sz → va + sz ≤ n * 4096 →
  (0 < fuel)%nat → (sz + 4095) / 4096 - j < Z.of_nat fuel →
  (0 < j → j * 4096 < sz → off + j * 4096 ≤ Z.of_nat (length c)) →
  ∃ r f' k' V', loaduvm_loop L_km (λ o m, fs (x_readi ip o m)) fuel d va off (j * 4096) sz (mkX f k u) = Ok r (mkX f' k' u) ∧
    xf_open f' ip c ∧ space m0 P k' l d T n rw V' ∧
    ((r = 0 ∧ (j * 4096 < sz → off + sz ≤ Z.of_nat (length c)) ∧
      ∀ a, V' a = if decide (va + j * 4096 ≤ a < va + sz) then byte_at c (Z.to_nat (off + (a - va))) else V a) ∨
     (r = -1 ∧ j * 4096 < sz ∧ Z.of_nat (length c) < off + sz)).
Proof.
  induction fuel as [|fuel IH]; intros m0 P f ip c k l d T n V u va off j sz S Hf Hva Hal Hoff Hj Hsz Hn Hf0 Hfu Hjo; [lia|]. cbn [loaduvm_loop].
  pose proof (xf_small f ip c Hf) as Hc. pose proof (sp_top _ _ _ _ _ _ _ _ _ _ _ S) as Ht. unfold UPAGES in Ht.
  destruct (Z.ltb_spec (j * 4096) sz) as [Hlt|Hge].
  2: { exists 0, f, k, V. split; [done|]. split; [done|]. split; [done|]. left. split; [done|]. split; [lia|]. intros a. by rewrite decide_False by lia. }
  assert (0 ≤ va + j * 4096 < n * 4096) as Hva' by lia. rewrite (u32_small (va + j * 4096)) by lia.
  assert ((va + j * 4096) mod 4096 = 0) as Hal' by (by rewrite Z.mod_add).
  destruct (space_walk kend kdata Hkend m0 P k l d T n rw V (va + j * 4096) S Hva') as (pte & _ & Hw & Hp0 & Hrd).
  rewrite (bind_run _ _ _ _ _ (km_run _ _ f k k u Hw)), Hp0, (bind_run _ _ _ _ _ (km_run _ _ f k k u Hrd)).
  assert (u32 (off + j * 4096) = off + j * 4096 ∧ 0 ≤ off + j * 4096 < 2 ^ 32) as [-> Ho].
  { destruct (decide (j = 0)) as [->|]; [rewrite Z.mul_0_l, Z.add_0_r; split; [by apply u32_small|lia]|]. specialize (Hjo ltac:(lia) Hlt). split; [apply u32_small|]; lia. }
  rewrite (u32_small (sz - j * 4096)) by lia. unfold KPGSIZE.
  set (q := if sz - j * 4096 <? 4096 then sz - j * 4096 else 4096).
  assert (q = Z.min (sz - j * 4096) 4096) as Hq by (unfold q; destruct (Z.ltb_spec (sz - j * 4096) 4096); lia).
  destruct (xf_readi f ip c (off + j * 4096) q Hf Ho ltac:(lia)) as (f1 & Hrun & Hf1). rewrite (bind_run _ _ _ _ _ (fs_run _ _ f f1 k u Hrun)).
  destruct (read_at c (off + j * 4096) q) as [r b] eqn:Eb. apply read_full in Eb; [|done|done|lia].
  assert (Z.of_nat (length b) ≤ 4096) as Hb.
  { destruct Eb as [(_ & _ & ->)|(_ & _ & _ & _ & Hl)]; [rewrite length_take|]; lia. }
  destruct (load_page m0 P k l d T n V (va + j * 4096) b S Hva' Hal' Hb) as [Hset S1]. set (V1 := λ a : Z, _) in S1.
  rewrite (bind_run _ _ _ _ _ (km_run _ _ f1 k _ u Hset)). set (k1 := with_mem _ k) in *.
  destruct Eb as [(-> & Hin & ->)|(Hne & Hr1 & Hr2 & Hin & _)].
  2: { rewrite u32_neq by lia. exists (-1), f1, k1, V1. split; [done|]. split; [done|]. split; [done|]. right. split; [done|]. lia. }
  rewrite (u32_small q), Z.eqb_refl by lia. cbn [negb]. rewrite (u32_small (j * 4096 + 4096)) by lia. replace (j * 4096 + 4096) with ((j + 1) * 4096) by lia.
  assert (j * 4096 < sz → j < (sz + 4095) / 4096) as Hdv by (intros H'; apply pages_up; lia).
  destruct (IH m0 P f1 ip c k1 l d T n V1 u va off (j + 1) sz S1 Hf1 Hva Hal Hoff ltac:(lia) Hsz Hn ltac:(lia) ltac:(lia) ltac:(lia)) as (r & f2 & k2 & V2 & Hrun2 & Hf2 & S2 & Hr).
  exists r, f2, k2, V2. split; [exact Hrun2|]. split; [done|]. split; [done|]. destruct Hr as [(-> & Hlen & HV)|(-> & Hl & Hlen)]; [left|right; split; [done|lia]].
  split; [done|]. split; [intros _; destruct (decide ((j + 1) * 4096 < sz)); [by apply Hlen|lia]|]. intros a. rewrite HV.
  destruct (decide (va + (j + 1) * 4096 ≤ a < va + sz)); [by rewrite decide_True by lia|]. unfold V1.
  assert (length (take (Z.to_nat q) (drop (Z.to_nat (off + j * 4096)) c)) = Z.to_nat q) as El by (rewrite length_take, length_drop; lia). rewrite El.
  destruct (decide (va + j * 4096 ≤ a < va + sz)) as [Hr|Hr].
  - rewrite decide_True by lia. unfold byte_at. rewrite lookup_take_lt by lia. rewrite lookup_drop. do 2 f_equal. lia.
  - by rewrite decide_False by lia.
Qed.

Lemma space_ext m0 P k l d T n fl V V' : (∀ a, V a = V' a) → space m0 P k l d T n fl V → space m0 P k l d T n fl V'.
Proof. intros HV []. split; try done. intros a Ha. rewrite <- HV. by apply sp_bytes0. Qed.

(** The outcome of the loop, where the file asks for the image [X]. *)
Definition load_post m0 P ip c d u (X : option (Z * (Z → Z))) (o : outcome (xst F) (option Z)) : Prop :=
  ∃ r f' k' l' T', o = Ok r (mkX f' k' u) ∧ xf_open f' ip c ∧
    match r with
    | Some sz' => ∃ V', X = Some (sz', V') ∧ space m0 P k' l' d T' ((sz' + 4095) / 4096) rw V' ∧
        0 ≤ sz' < KERNBASE ∧ (∀ a, sz' ≤ a → V' a = 0)
    | None => (∃ n' V', space m0 P k' l' d T' n' rw V') ∧
        ∀ sz' V', X = Some (sz', V') → Z.of_nat (length P) ≤ (sz' + 4095) / 4096 + 1026
    end.
Lemma load_bad m0 P f ip c k l d T n V u (X : option (Z * (Z → Z))) :
  xf_open f ip c → space m0 P k l d T n rw V → (∀ sz' V', X = Some (sz', V') → Z.of_nat (length P) ≤ (sz' + 4095) / 4096 + 1026) →
  load_post m0 P ip c d u X (Ok None (mkX f k u)).
Proof. intros Hf S HX. exists None, f, k, l, T. split; [done|]. split; [done|]. split; [by exists n, V|done]. Qed.

Lemma load_loop_run c n : bytes c → ∀ m0 P f ip k l d T off sz V u,
  space m0 P k l d T ((sz + 4095) / 4096) rw V → xf_open f ip c → 0 ≤ off < 2 ^ 32 → 0 ≤ sz < KERNBASE → (∀ a, sz ≤ a → V a = 0) →
  load_post m0 P ip c d u (segments c n off sz V) (load_loop kend n d ip off sz (mkX f k u)).
Proof.
  intros Hb. induction n as [|n IH]; intros m0 P f ip k l d T off sz V u S Hf Hoff Hsz HV; cbn [load_loop segments].
  { exists (Some sz), f, k, l, T. split; [done|]. split; [done|]. by exists V. }
  pose proof (xf_small f ip c Hf) as Hc. destruct (xf_readi f ip c off PROGHDR Hf Hoff ltac:(done)) as (f1 & Hrun & Hf1).
  rewrite (bind_run _ _ _ _ _ (fs_run _ _ f f1 k u Hrun)). unfold PROGHDR in *.
  destruct (read_at c off 32) as [r b] eqn:Eb. apply read_full in Eb; [|done|done|lia].
  destruct Eb as [(-> & Hin & ->)|(Hne & _ & _ & Hin & _)].
  2: { rewrite (proj2 (Z.eqb_neq r 32)) by done. eapply load_bad; [done|exact S|]. by rewrite decide_True by lia. }
  rewrite Z.eqb_refl. cbn [negb]. rewrite decide_False by lia. change (Z.to_nat 32) with 32%nat. rewrite ph_take. cbv zeta.
  assert (bytes (drop (Z.to_nat off) c)) as Hbd by (by apply Forall_drop). set (ph := ph_at (drop (Z.to_nat off) c)).
  assert (0 ≤ u32 (off + 32) < 2 ^ 32) as Hoff' by (unfold u32; apply Z.mod_pos_bound; lia).
  destruct (Z.eqb_spec (ph_type ph) ELF_PROG_LOAD) as [Ety|Ety]; cbn [negb].
  2: { rewrite decide_True by done. exact (IH m0 P f1 ip k l d T _ sz V u S Hf1 Hoff' Hsz HV). }
  rewrite decide_False by (intros []; done).
  assert (0 ≤ ph_off ph < 2 ^ 32 ∧ 0 ≤ ph_vaddr ph < 2 ^ 32 ∧ 0 ≤ ph_filesz ph < 2 ^ 32 ∧ 0 ≤ ph_memsz ph < 2 ^ 32) as (Ro & Rv & Rf & Rm).
  { split; [|split; [|split]]; by apply get32_range. }
  destruct (Z.ltb_spec (ph_memsz ph) (ph_filesz ph)) as [Hm|Hm].
  { eapply load_bad; [done|exact S|]. rewrite decide_False by (intros (? & _); lia). done. }
  destruct (decide (2 ^ 32 ≤ ph_vaddr ph + ph_memsz ph)) as [Hwrap|Hwrap].
  { assert (u32 (ph_vaddr ph + ph_memsz ph) = ph_vaddr ph + ph_memsz ph - 2 ^ 32) as -> by (unfold u32; symmetry; apply (Z.mod_unique _ _ 1); lia).
    rewrite (proj2 (Z.ltb_lt _ _)) by lia. eapply load_bad; [done|exact S|]. rewrite decide_False by (unfold KERNBASE; intros (_ & ? & _); lia). done. }
  rewrite !u32_small by lia. rewrite (proj2 (Z.ltb_ge _ _)) by lia. set (top := ph_vaddr ph + ph_memsz ph) in *.
  destruct (space_alloc kend kdata Hkend m0 P k l d T sz top V S Hsz ltac:(lia)) as (r & k1 & l1 & T1 & Ha & Hr).
  { intros a Ha. apply HV. pose proof (pages_up sz ((sz + 4095) / 4096)). lia. }
  rewrite (bind_run _ _ _ _ _ (km_run _ _ f1 k k1 u Ha)). destruct Hr as [(-> & Htop & S1)|(-> & S1 & Hmem)].
  2: { rewrite Z.eqb_refl. eapply load_bad; [done|exact S1|]. case_decide as Hd; [|done]. intros sz' V' Hs%segments_mono. destruct Hmem as [|Hmem]; [lia|].
       etrans; [exact Hmem|]. apply Z.add_le_mono_r, Z.div_le_mono; lia. }
  destruct (Z.eqb_spec (Z.max sz top) 0) as [E0|E0].
  { eapply load_bad; [done|exact S1|]. rewrite decide_False by (intros (_ & _ & ? & _); lia). done. }
  destruct (Z.eqb_spec (ph_vaddr ph mod KPGSIZE) 0) as [Eal|Eal]; cbn [negb].
  2: { eapply load_bad; [done|exact S1|]. rewrite decide_False by (intros (_ & _ & _ & ? & _); done). done. }
  unfold loaduvm. rewrite Eal. cbn [negb Z.eqb].
  assert (ph_vaddr ph + ph_filesz ph ≤ (Z.max sz top + 4095) / 4096 * 4096) as Hfit by (pose proof (pages_up (Z.max sz top) ((Z.max sz top + 4095) / 4096)); lia).
  destruct (loaduvm_run (Datatypes.S NPAGES) m0 P f1 ip c k1 l1 d T1 _ V u (ph_vaddr ph) (ph_off ph) 0 (ph_filesz ph) S1 Hf1) as (r & f2 & k2 & V2 & Hl & Hf2 & S2 & Hr);
    [lia|exact Eal|lia|lia|lia|exact Hfit|lia| |lia|].
  { unfold NPAGES. change (2 ^ 32 / KPGSIZE) with (2 ^ 20). pose proof (Z.div_lt_upper_bound (ph_filesz ph + 4095) 4096 (2 ^ 20 + 1) ltac:(lia) ltac:(lia)). lia. }
  rewrite Z.mul_0_l in *. rewrite Z.add_0_r in *. rewrite (bind_run _ _ _ _ _ Hl). destruct Hr as [(-> & Hlen & HV2)|(-> & Hl1 & Hl2)].
  2: { change (-1 <? 0) with true. eapply load_bad; [done|exact S2|]. rewrite decide_False by (intros (_ & _ & _ & _ & ?); lia). done. }
  change (0 <? 0) with false. rewrite decide_True; last first.
  { split; [done|]. split; [done|]. split; [lia|]. split; [exact Eal|]. lia. }
  apply (IH m0 P f2 ip k2 l1 d T1); [|done|lia|lia|].
  - eapply space_ext; [|exact S2]. intros a. rewrite HV2. done.
  - intros a Ha'. unfold seg_write. rewrite decide_False by lia. apply HV. lia.
Qed.
End load.
