(* ===== verification/Execarg.v ===== *)
(** * The arguments on the new stack

    copyout into the space, the array ustack on the kernel stack, and the loop that pushes the
    strings of argv. *)

From S2P Require Import Prelude CStr Bytes Mem Kalloc Vm VmRep VmMap VmUser VmAlloc VmCopy VmOut Exec Execseg.

(** Bytes [s] in memory from [a] on, and the memory [V] with them. *)
Definition put_bytes (a : Z) (s : list Z) (V : Z → Z) (x : Z) : Z :=
  if decide (a ≤ x < a + Z.of_nat (length s)) then byte_at s (Z.to_nat (x - a)) else V x.
(** The stack pointer after string [s] was pushed. *)
Definition arg_sp (sp : Z) (s : list Z) : Z := (sp - (Z.of_nat (length s) + 1)) / 4 * 4.
Fixpoint arg_addrs (sp : Z) (strs : list (list Z)) : list Z :=
  match strs with [] => [] | s :: strs' => arg_sp sp s :: arg_addrs (arg_sp sp s) strs' end.
Fixpoint args_sp (sp : Z) (strs : list (list Z)) : Z :=
  match strs with [] => sp | s :: strs' => args_sp (arg_sp sp s) strs' end.
Fixpoint args_bytes (sp : Z) (strs : list (list Z)) (V : Z → Z) : Z → Z :=
  match strs with [] => V | s :: strs' => args_bytes (arg_sp sp s) strs' (put_bytes (arg_sp sp s) (s ++ [0]) V) end.
(** All pages but page [g] are open to users. *)
Definition guard (g i : Z) : Z := if decide (i = g) then 2 else 6.

Lemma arg_sp_range sp s : arg_sp sp s + Z.of_nat (length s) + 1 ≤ sp ∧ sp < arg_sp sp s + Z.of_nat (length s) + 5.
Proof. unfold arg_sp. pose proof (Z.div_mod (sp - (Z.of_nat (length s) + 1)) 4 ltac:(lia)). pose proof (Z.mod_pos_bound (sp - (Z.of_nat (length s) + 1)) 4 ltac:(lia)). lia. Qed.
Lemma args_sp_le sp strs : args_sp sp strs ≤ sp.
Proof. revert sp. induction strs as [|s strs IH]; intros sp; cbn [args_sp]; [lia|]. pose proof (IH (arg_sp sp s)). pose proof (arg_sp_range sp s). lia. Qed.
Lemma length_arg_addrs sp strs : length (arg_addrs sp strs) = length strs.
Proof. revert sp. induction strs as [|s strs IH]; intros sp; [done|]. cbn [arg_addrs length]. by rewrite IH. Qed.
Lemma land_not3 x : Z.land x (Z.lnot 3) = x / 4 * 4.
Proof. change 3 with (Z.ones 2). rewrite <- Z.ldiff_land, Z.ldiff_ones_r by lia. rewrite Z.shiftr_div_pow2, Z.shiftl_mul_pow2 by lia. done. Qed.

Section args.
Context (kend kdata : Z).
Hypothesis Hkend : KERNBASE < kend.
Abbreviation page_ok := (page_ok kend).
Abbreviation space := (space kend kdata).
Implicit Types (d : Z) (T : gmap Z Z) (k : kmem) (l P : list Z) (V fl : Z → Z).

Lemma space_present m0 P k l d T n fl V a : space m0 P k l d T n fl V → 0 ≤ a < n * 4096 → present (ent (km_mem k) T (a / 4096)) = true.
Proof. intros S Ha. by destruct (sp_page kend kdata Hkend _ _ _ _ _ _ _ _ _ S _ (sp_idx n a Ha)) as (? & _). Qed.
(** copyout to pages that are open to users, from outside the space. *)
Lemma space_copyout m0 P k l d T n fl V va buf len :
  space m0 P k l d T n fl V → 0 ≤ va → 0 ≤ len → va + len ≤ n * 4096 → 0 ≤ buf → buf + len < 2 ^ 32 →
  (∀ i p, 0 ≤ i < len → p ∈ P → ¬ in_page p (buf + i)) → (∀ a, va ≤ a < va + len → fl (a / 4096) = 6) →
  ∃ k', copyout d va buf len k = Ok 0 k' ∧ space m0 P k' l d T n fl (λ a, if decide (va ≤ a < va + len) then m0 (buf + (a - va)) else V a).
Proof.
  intros S Hva Hlen Hn Hb Hb2 Hsrc Hfl. pose proof (sp_top _ _ _ _ _ _ _ _ _ _ _ S) as Ht. unfold UPAGES in Ht. pose proof (sp_us _ _ _ _ _ _ _ _ _ _ _ S) as U.
  destruct (copyout_loop_spec kend Hkend (Datatypes.S (Z.to_nat len)) k l d T va buf len U Hva Hlen) as (k' & Hrun & U' & [C1 C2] & He);
    [unfold KERNBASE; lia|lia| | |].
  { split; [done|]. split; [done|]. intros i p Hi Hp. apply Hsrc; [done|]. rewrite <- (sp_pool _ _ _ _ _ _ _ _ _ _ _ S). apply elem_of_app. by left. }
  { intros i Hi. apply (sp_user kend kdata Hkend _ _ _ _ _ _ _ _ _ S); [lia|]. apply Hfl. lia. }
  exists k'. split; [exact Hrun|].
  assert (upages (ent (km_mem k') T) = upages (ent (km_mem k) T)) as Eu by (apply upages_ext; intros i _; unfold upage_of; by rewrite He).
  assert (∀ a, trans (km_mem k') T a = trans (km_mem k) T a) as Htr by (intros a; unfold trans; by rewrite He).
  assert (∀ a, 0 ≤ a < n * 4096 → present (ent (km_mem k) T (a / 4096)) = true) as Hpr by (intros a Ha; by apply (space_present m0 P k l d T n fl V)).
  assert (∀ i, 0 ≤ i < len → ∃ p, p ∈ P ∧ in_page p (trans (km_mem k) T (va + i))) as HinP.
  { intros i Hi. destruct (sp_page kend kdata Hkend _ _ _ _ _ _ _ _ _ S _ (sp_idx n (va + i) ltac:(lia))) as (_ & _ & HpP & _). eexists. split; [exact HpP|].
    unfold trans, in_page, KPGSIZE. pose proof (Z.mod_pos_bound (va + i) 4096). lia. }
  split; [done|unfold pool; rewrite Eu; apply S|done| | | | |].
  - intros j Hj. rewrite He. by apply S.
  - intros j Hj. rewrite He. by apply S.
  - intros j Hj. rewrite He. by apply S.
  - intros a Ha. unfold vmem. rewrite Htr. case_decide as Hc.
    + replace a with (va + (a - va)) at 1 by lia. rewrite C1 by lia. apply (sp_out _ _ _ _ _ _ _ _ _ _ _ S). intros p Hp. apply Hsrc; [lia|done].
    + rewrite C2; [exact (sp_bytes _ _ _ _ _ _ _ _ _ _ _ S a Ha)|]. intros i Hi E. apply Hc.
      apply (trans_inj kend Hkend k l d T a (va + i) U) in E; [lia|unfold KERNBASE; lia|unfold KERNBASE; lia|by apply Hpr|apply Hpr; lia].
  - eapply outside_trans; [apply S|]. intros x Hx. apply C2. intros i Hi ->. destruct (HinP i Hi) as (p & Hp & Hin). by apply (Hx p).
Qed.
Lemma space_copyout_guard m0 P k l d T n fl V va buf len :
  space m0 P k l d T n fl V → 0 ≤ va < n * 4096 → 0 < len → fl (va / 4096) ≠ 6 → copyout d va buf len k = Ok (-1) k.
Proof.
  intros S Hva Hlen Hfl. pose proof (sp_top _ _ _ _ _ _ _ _ _ _ _ S) as Ht. pose proof (sp_idx n va Hva) as Hi.
  unfold copyout. cbn [copyout_loop]. rewrite (proj2 (Z.ltb_lt _ _)) by lia. rewrite PGROUNDDOWN_div.
  pose proof (space_present m0 P k l d T n fl V va S Hva) as Hpr. destruct (T !! (va / 4096 / 1024)) as [t|] eqn:Et; [|unfold ent in Hpr; by rewrite Et in Hpr].
  pose proof (uva2ka_spec kend k l d T (va / 4096) t (sp_us _ _ _ _ _ _ _ _ _ _ _ S) ltac:(lia) Et) as Hu. rewrite decide_False in Hu.
  - by rewrite (bind_run _ _ _ _ _ Hu).
  - intros Hok. apply (sp_user kend kdata Hkend _ _ _ _ _ _ _ _ _ S) in Hok; [|lia]. rewrite Z.div_mul in Hok by lia. done.
Qed.

(** ** ustack *)
Section stack.
Context {F : Type} `{!ExecFs F} (P : list Z) (kp o : Z) (fuel : nat).
(** ustack is in a page of the kernel stack. *)
Hypothesis Hkp : page_ok kp.
Hypothesis HkpP : kp ∉ P.
Hypothesis HP : Forall page_ok P.
Hypothesis Ho : 0 ≤ o ∧ o + 36 ≤ 1024.
Abbreviation ustack := (kp + 4 * o).
Definition uword (m : mem) (i : Z) : Z := load_word (kp + 4 * (o + i)) m.

Lemma ustack_out x : in_page kp x → ∀ p, p ∈ P → ¬ in_page p x.
Proof. intros Hx p Hp. eapply (other_page kend kp p); [done|by eapply (Forall_forall page_ok)| |done]. by intros ->. Qed.
Lemma space_kernel m0 m1 m' k l d T n fl V :
  space m0 P k l d T n fl V → outside [kp] (km_mem k) m' → outside P m1 m' → space m1 P (with_mem m' k) l d T n fl V.
Proof.
  intros [U Hpool Htop Hlow Hhigh Hkern Hbytes Hout] Hm H1. pose proof U as [Vm N O].
  assert (∀ q x, q ∈ P → in_page q x → m' x = km_mem k x) as Hsame.
  { intros q x Hq Hx. apply Hm. intros p ->%list_elem_of_singleton Hk. by apply (ustack_out x Hk q). }
  assert (∀ q, q ∈ upages (ent (km_mem k) T) ++ pt_pages d T ++ l → q ∈ P) as HinP by (intros q Hq; by rewrite <- Hpool).
  assert (∀ j, ent m' T j = ent (km_mem k) T j) as He.
  { intros j. eapply (ent_frame kend); [apply Vm|]. intros q x Hq. apply Hsame, HinP. rewrite !elem_of_app. tauto. }
  assert (upages (ent m' T) = upages (ent (km_mem k) T)) as Eu by (apply upages_ext; intros j _; unfold upage_of; by rewrite He).
  assert (vm kend (with_mem m' k) l d T) as Vm'.
  { constructor; [apply kinv_mem; [apply Vm|]|eapply pt_frame; [apply Vm|]|apply Vm].
    - intros a x Ha. apply Hsame, HinP. rewrite !elem_of_app. tauto.
    - intros x. apply Hsame, HinP. rewrite !elem_of_app. right. left. apply pt_pages_spec. by left. }
  assert (us kend (with_mem m' k) l d T) as U' by (constructor; [done|unfold pool; cbn [km_mem with_mem]; by rewrite Eu|cbn [km_mem with_mem]; by rewrite Eu]).
  split; cbn [km_mem with_mem].
  - exact U'.
  - unfold pool. cbn [km_mem with_mem]. by rewrite Eu.
  - exact Htop.
  - intros j Hj. rewrite He. by apply Hlow.
  - intros j Hj. rewrite He. by apply Hhigh.
  - intros j Hj. rewrite He. by apply Hkern.
  - intros a Ha. unfold vmem, trans. cbn [km_mem with_mem]. rewrite He, <- (Hbytes a Ha).
    destruct (Hlow _ (sp_idx n a Ha)) as (p & Hok & E & Hfl). destruct (upage_mk kend p (fl (a / 4096)) Hok ltac:(lia)) as [Hu Hpr]. rewrite <- E in Hu, Hpr.
    apply (Hsame p); [|rewrite Hu; unfold in_page, KPGSIZE; pose proof (Z.mod_pos_bound a 4096); lia].
    apply HinP, elem_of_app. left. apply upages_spec. exists (a / 4096). pose proof (sp_idx n a Ha). split; [lia|]. split; [done|by rewrite Hu].
  - exact H1.
Qed.
Lemma store_word_cong a w m m' x : m x = m' x → store_word a w m x = store_word a w m' x.
Proof. intros H. unfold store_word, store. repeat case_match; done. Qed.
Lemma ustack_run i w f m0 k l d T n fl V u :
  space m0 P k l d T n fl V → 0 ≤ i < 36 → 0 ≤ w < 2 ^ 32 →
  ∃ k' m1, ustack_set (F := F) ustack i w (mkX f k u) = Ok tt (mkX f k' u) ∧ space m1 P k' l d T n fl V ∧ outside [kp] m0 m1 ∧
    uword m1 i = w ∧ ∀ j, 0 ≤ j < 36 → j ≠ i → uword m1 j = uword m0 j.
Proof.
  intros S Hi Hw. destruct (page_V2P kend kp Hkp) as (_ & _ & _ & H0 & H1). unfold ustack_set. unfold MAXARG. rewrite (proj2 (Z.ltb_lt _ _)) by lia.
  rewrite u32_small by lia. replace (kp + 4 * o + 4 * i) with (kp + 4 * (o + i)) by lia.
  set (a := kp + 4 * (o + i)). exists (with_mem (store_word a w (km_mem k)) k), (store_word a w m0). split; [done|].
  assert (∀ m, outside [kp] m (store_word a w m)) as Hst.
  { intros m x Hx. specialize (Hx kp ltac:(by apply list_elem_of_singleton)). unfold in_page, KPGSIZE in Hx. apply (store_word_frame kend); [done|lia|lia]. }
  split; [|split; [apply Hst|split; [apply (load_store_same kend); [done|lia|done]|]]].
  - eapply space_kernel; [exact S|apply Hst|]. intros x Hx. apply store_word_cong. by apply (sp_out _ _ _ _ _ _ _ _ _ _ _ S).
  - intros j Hj Hne. apply (load_store_other kend); [done|lia|lia|lia].
Qed.

(** ** The strings *)
(** The string [s] at address [a], outside the new space and the kernel stack. *)
Record str_at (m : mem) (a : Z) (s : list Z) : Prop := {
  st_nonzero : Forall (λ c, c ≠ 0) s;
  st_bytes i : 0 ≤ i ≤ Z.of_nat (length s) → m (a + i) = byte_at (s ++ [0]) (Z.to_nat i);
  st_range : 0 ≤ a ∧ a + Z.of_nat (length s) + 1 < 2 ^ 32;
  st_short : Z.of_nat (length s) < 4096;
  st_fuel : (length s < fuel)%nat;
  st_out i p : 0 ≤ i ≤ Z.of_nat (length s) → p ∈ kp :: P → ¬ in_page p (a + i) }.
Lemma str_at_agree m m' a s : str_at m a s → outside [kp] m m' → str_at m' a s.
Proof.
  intros [] Hm. split; try done. intros i Hi. rewrite Hm; [by apply st_bytes0|]. intros p ->%list_elem_of_singleton. apply st_out0; [done|]. apply elem_of_cons. by left.
Qed.
Lemma strlen_run k a s : str_at (km_mem k) a s → strlen_at fuel a 0 k = Ok (Z.of_nat (length s)) k.
Proof.
  intros [Hnz Hb Hr _ Hf _]. assert (∀ fu j, (j ≤ length s)%nat → (length s - j < fu)%nat → strlen_at fu a (Z.of_nat j) k = Ok (Z.of_nat (length s)) k) as H; [|by apply (H fuel 0%nat); lia].
  induction fu as [|fu IH]; intros j Hj Hfu; [lia|]. cbn [strlen_at]. unfold mbind at 1, M_bind at 1, gets at 1. rewrite u32_small by lia. rewrite Hb, Nat2Z.id by lia.
  destruct (decide (j = length s)) as [->|Hne].
  - unfold byte_at. by rewrite lookup_app_r, Nat.sub_diag by lia.
  - assert (byte_at (s ++ [0]) j ≠ 0) as Hc.
    { unfold byte_at. rewrite lookup_app_l by lia. destruct (lookup_lt_is_Some_2 s j ltac:(lia)) as [c Hc]. rewrite Hc. exact (Forall_lookup_1 _ _ _ _ Hnz Hc). }
    rewrite (proj2 (Z.eqb_neq _ _) Hc). replace (Z.of_nat j + 1) with (Z.of_nat (Datatypes.S j)) by lia. apply IH; lia.
Qed.
Lemma guard_stack n a : (n - 1) * 4096 ≤ a < n * 4096 → guard (n - 2) (a / 4096) = 6.
Proof. intros Ha. assert (a / 4096 = n - 1) as -> by (symmetry; apply (Z.div_unique _ _ _ (a - (n - 1) * 4096)); lia). unfold guard. by rewrite decide_False by lia. Qed.
Lemma guard_page n a : (n - 2) * 4096 ≤ a < (n - 1) * 4096 → guard (n - 2) (a / 4096) = 2.
Proof. intros Ha. assert (a / 4096 = n - 2) as -> by (symmetry; apply (Z.div_unique _ _ _ (a - (n - 2) * 4096)); lia). unfold guard. by rewrite decide_True by lia. Qed.
(** One string. *)
Lemma push_one m0 k l d T n V sp a s :
  space m0 P k l d T n (guard (n - 2)) V → 2 ≤ n → (n - 1) * 4096 ≤ sp ≤ n * 4096 → str_at m0 a s →
  Z.land (u32 (sp - (Z.of_nat (length s) + 1))) (Z.lnot 3) = arg_sp sp s ∧
  if decide ((n - 1) * 4096 ≤ arg_sp sp s)
  then ∃ k', copyout d (arg_sp sp s) a (Z.of_nat (length s) + 1) k = Ok 0 k' ∧ space m0 P k' l d T n (guard (n - 2)) (put_bytes (arg_sp sp s) (s ++ [0]) V)
  else copyout d (arg_sp sp s) a (Z.of_nat (length s) + 1) k = Ok (-1) k.
Proof.
  intros S Hn Hsp [Hnz Hb Hr Hs Hf Hout]. pose proof (sp_top _ _ _ _ _ _ _ _ _ _ _ S) as Ht. unfold UPAGES in Ht. pose proof (arg_sp_range sp s) as Hrg.
  split; [rewrite land_not3, u32_small by lia; done|]. assert ((n - 2) * 4096 ≤ arg_sp sp s) as Hlow by (unfold arg_sp in *; lia). case_decide as Hc.
  - destruct (space_copyout m0 P k l d T n (guard (n - 2)) V (arg_sp sp s) a (Z.of_nat (length s) + 1) S) as (k' & Hrun & S'); [lia|lia|lia|lia|lia| | |].
    + intros i p Hi Hp. apply Hout; [lia|]. apply elem_of_cons. by right.
    + intros x Hx. apply guard_stack. lia.
    + exists k'. split; [exact Hrun|]. eapply (space_ext kend kdata); [|exact S']. intros x. unfold put_bytes. rewrite length_app. cbn [length].
      destruct (decide (arg_sp sp s ≤ x < arg_sp sp s + (Z.of_nat (length s) + 1))) as [Hx|Hx].
      * rewrite decide_True by lia. apply Hb. lia.
      * by rewrite decide_False by lia.
  - apply (space_copyout_guard m0 P k l d T n (guard (n - 2)) V); [done|lia|lia|]. rewrite guard_page by lia. done.
Qed.

Lemma outside_one m m1 m2 : outside [kp] m m1 → outside [kp] m1 m2 → outside [kp] m m2.
Proof. apply outside_trans. Qed.
(** The loop over argv. *)
Definition push_post f u m0 l d T n V sp argc (strs : list (list Z)) (o : outcome (xst F) (option (Z * Z))) : Prop :=
  ∃ r k' m1 V', o = Ok r (mkX f k' u) ∧ space m1 P k' l d T n (guard (n - 2)) V' ∧ outside [kp] m0 m1 ∧
    match r with
    | Some (argc', sp') => argc' = argc + Z.of_nat (length strs) ∧ sp' = args_sp sp strs ∧ argc' ≤ 32 ∧ (n - 1) * 4096 ≤ sp' ∧
        V' = args_bytes sp strs V ∧ (∀ i x, arg_addrs sp strs !! i = Some x → uword m1 (3 + argc + Z.of_nat i) = x) ∧
        (∀ j, 0 ≤ j < 3 + argc → uword m1 j = uword m0 j)
    | None => 32 < argc + Z.of_nat (length strs) ∨ args_sp sp strs < (n - 1) * 4096
    end.
Lemma push_args_run argv strs : ∀ f u m0 k l d T n V sp argc,
  space m0 P k l d T n (guard (n - 2)) V → 2 ≤ n → (n - 1) * 4096 ≤ sp ≤ n * 4096 → 0 ≤ argc ≤ 32 → Forall2 (str_at m0) argv strs →
  push_post f u m0 l d T n V sp argc strs (push_args ustack fuel d sp argc argv (mkX f k u)).
Proof.
  intros f u. revert strs. induction argv as [|a argv IH]; intros strs m0 k l d T n V sp argc S Hn Hsp Hargc Hstr.
  { apply Forall2_nil_inv_l in Hstr as ->. exists (Some (argc, sp)), k, m0, V. split; [done|]. split; [done|]. split; [apply outside_refl|].
    cbn [length args_sp args_bytes arg_addrs]. split; [lia|]. split; [done|]. split; [lia|]. split; [lia|]. done. }
  apply Forall2_cons_inv_l in Hstr as (s & strs' & Hs & Hstr & ->). cbn [push_args]. unfold MAXARG.
  destruct (Z.leb_spec 32 argc) as [Hbig|Hsmall].
  { exists None, k, m0, V. split; [done|]. split; [done|]. split; [apply outside_refl|]. left. cbn [length]. lia. }
  pose proof (sp_out _ _ _ _ _ _ _ _ _ _ _ S) as Hm. assert (str_at (km_mem k) a s) as Hsk.
  { destruct Hs as [s1 s2 s3 s4 s5 s6]. split; [done| |done..]. intros i Hi. rewrite Hm; [by apply s2|]. intros p Hp. apply s6; [done|]. apply elem_of_cons. by right. }
  rewrite (bind_run _ _ _ _ _ (km_run _ _ f k k u (strlen_run k a s Hsk))).
  destruct (push_one m0 k l d T n V sp a s S Hn Hsp Hs) as [-> Hco]. pose proof (arg_sp_range sp s) as Hrg. pose proof (args_sp_le (arg_sp sp s) strs') as Hle.
  case_decide as Hfit.
  2: { rewrite (bind_run _ _ _ _ _ (km_run _ _ f k k u Hco)). change (-1 <? 0) with true. exists None, k, m0, V.
       split; [done|]. split; [done|]. split; [apply outside_refl|]. right. cbn [args_sp]. lia. }
  destruct Hco as (k1 & Hrun & S1). rewrite (bind_run _ _ _ _ _ (km_run _ _ f k k1 u Hrun)). change (0 <? 0) with false. cbv iota.
  pose proof (sp_top _ _ _ _ _ _ _ _ _ _ _ S) as Ht. unfold UPAGES in Ht.
  destruct (ustack_run (3 + argc) (arg_sp sp s) f m0 k1 l d T n _ _ u S1 ltac:(lia) ltac:(lia)) as (k2 & m2 & Hset & S2 & Hm2 & Hw & Hws).
  rewrite (bind_run _ _ _ _ _ Hset).
  assert (Forall2 (str_at m2) argv strs') as Hstr2 by (eapply Forall2_impl; [exact Hstr|]; intros; by eapply str_at_agree).
  destruct (IH strs' m2 k2 l d T n _ (arg_sp sp s) (argc + 1) S2 Hn ltac:(lia) ltac:(lia) Hstr2) as (r & k3 & m3 & V3 & Hrun3 & S3 & Hm3 & Hr).
  exists r, k3, m3, V3. split; [exact Hrun3|]. split; [done|]. split; [by eapply outside_one|]. cbn [length args_sp args_bytes arg_addrs].
  destruct r as [[argc' sp']|]; [|lia]. destruct Hr as (-> & -> & Ha & Hb & -> & Hi & Hj). split; [lia|]. split; [done|]. split; [done|]. split; [done|]. split; [done|]. split.
  - intros [|i] x Hx; cbn in Hx.
    + injection Hx as <-. rewrite Hj by lia. rewrite <- Hw. f_equal. lia.
    + rewrite <- (Hi i x Hx). f_equal. lia.
  - intros j Hj'. rewrite Hj by lia. apply Hws; lia.
Qed.
End stack.
End args.
