(* ===== verification/Execprops.v ===== *)
(** * exec as a whole

    [exec_correct]: exec replaces the address space by the one that the file describes, with the
    arguments on its stack, or fails and changes nothing. *)

From S2P Require Import Prelude CStr Bytes Mem Kalloc Vm VmRep VmMap VmUser VmAlloc VmCopy VmOut VmProps Exec Execseg Execarg.

(** ** Reading the new stack *)
Definition vword (V : Z → Z) (a : Z) : Z := V a + 256 * (V (a + 1) + 256 * (V (a + 2) + 256 * V (a + 3))).
Lemma args_bytes_above strs : ∀ sp V a, sp ≤ a → args_bytes sp strs V a = V a.
Proof.
  induction strs as [|s strs IH]; intros sp V a Ha; [done|]. cbn [args_bytes]. pose proof (arg_sp_range sp s). rewrite IH by lia.
  unfold put_bytes. rewrite length_app. cbn [length]. by rewrite decide_False by lia.
Qed.
Lemma args_bytes_below strs : ∀ sp V a, a < args_sp sp strs → args_bytes sp strs V a = V a.
Proof.
  induction strs as [|s strs IH]; intros sp V a Ha; [done|]. cbn [args_bytes args_sp] in *. rewrite IH by done.
  pose proof (args_sp_le (arg_sp sp s) strs). unfold put_bytes. by rewrite decide_False by lia.
Qed.
(** Every argument is where ustack says. *)
Lemma args_bytes_str strs : ∀ sp V i s x, strs !! i = Some s → arg_addrs sp strs !! i = Some x →
  args_sp sp strs ≤ x ∧ x + Z.of_nat (length s) + 1 ≤ sp ∧ ∀ j, 0 ≤ j ≤ Z.of_nat (length s) → args_bytes sp strs V (x + j) = byte_at (s ++ [0]) (Z.to_nat j).
Proof.
  induction strs as [|s0 strs IH]; intros sp V i s x Hi Hx; [done|]. cbn [args_bytes arg_addrs args_sp] in *. destruct i as [|i]; cbn in Hi, Hx.
  - injection Hi as ->. injection Hx as <-. split; [apply args_sp_le|]. pose proof (arg_sp_range sp s). split; [lia|]. intros j Hj. rewrite args_bytes_above by lia. unfold put_bytes.
    rewrite length_app. cbn [length]. rewrite decide_True by lia. f_equal. lia.
  - destruct (IH _ (put_bytes (arg_sp sp s0) (s0 ++ [0]) V) i s x Hi Hx) as (H1 & H2 & H3). pose proof (arg_sp_range sp s0). split; [done|]. split; [lia|done].
Qed.
Lemma last_component_terminated s : ∀ last, terminated s → terminated last → terminated (last_component last s).
Proof.
  induction s as [|c s IH]; intros last Hs Hl; [done|]. cbn [last_component]. destruct (Z.eqb_spec c 0) as [->|Hc]; [done|].
  assert (terminated s) as Hs' by (unfold terminated in *; apply elem_of_cons in Hs as [?|?]; [congruence|done]).
  destruct (c =? 47); by apply IH.
Qed.

Section old.
Context (kend kdata : Z).
Hypothesis Hkend : KERNBASE < kend.
Abbreviation page_ok := (page_ok kend).
Abbreviation us := (us kend).
Abbreviation space := (space kend kdata).
(** The process before exec, in the memory [k0]; the page [kp] holds its kernel stack. *)
Context (k0 : kmem) (l0 : list Z) (d0 : Z) (T0 : gmap Z Z) (kp : Z).
Hypothesis U0 : us k0 l0 d0 T0.
Hypothesis Hkp : page_ok kp.
Hypothesis HkpP : kp ∉ pool k0 l0 d0 T0.
Definition old_pages : list Z := upages (ent (km_mem k0) T0) ++ pt_pages d0 T0.
(** The old address space is as it was, and the same pages are free. *)
Definition untouched_process (k : kmem) : Prop :=
  ∃ l, us k l d0 T0 ∧ l ≡ₚ l0 ∧ ∀ q x, q ∈ old_pages → in_page q x → km_mem k x = km_mem k0 x.

Lemma pool_old : pool k0 l0 d0 T0 = old_pages ++ l0.
Proof. unfold pool, old_pages. by rewrite app_assoc. Qed.
Lemma old_page q : q ∈ old_pages → page_ok q ∧ q ∉ l0 ∧ q ≠ kp.
Proof.
  intros Hq. pose proof (us_nodup _ _ _ _ _ U0) as N. rewrite pool_old in N. apply NoDup_app in N as (_ & N & _). split; [|split; [by apply N|]].
  - unfold old_pages in Hq. apply elem_of_app in Hq as [Hq|Hq]; [by eapply (Forall_forall page_ok), Hq; apply U0|eapply pt_pages_ok; [apply U0|done]].
  - intros ->. apply HkpP. rewrite pool_old. apply elem_of_app. by left.
Qed.
Lemma free_pages_ok : Forall page_ok l0.
Proof. apply (kinv_pages kend k0). apply U0. Qed.
(** Memory that changed only in free pages and on the kernel stack. *)
Lemma old_same m1 m' q x : outside [kp] (km_mem k0) m1 → outside l0 m1 m' → q ∈ old_pages → in_page q x → m' x = km_mem k0 x.
Proof.
  intros H1 H2 Hq Hx. destruct (old_page q Hq) as (Hok & Hl & Hne). rewrite (outside_page kend l0 m1 m' q x H2 Hok free_pages_ok Hl Hx).
  apply (outside_page kend [kp] _ _ q x H1 Hok); [by apply Forall_singleton|by rewrite list_elem_of_singleton|done].
Qed.
Lemma free_new m1 k l d T n fl V :
  space m1 l0 k l d T n fl V → outside [kp] (km_mem k0) m1 → ∃ k', freevm kend d k = Ok tt k' ∧ untouched_process k'.
Proof.
  intros S H1. pose proof (sp_pool _ _ _ _ _ _ _ _ _ _ _ S) as HP. destruct (freevm_spec kend Hkend k l d T (sp_us _ _ _ _ _ _ _ _ _ _ _ S)) as (k' & l' & Hrun & K' & Hl' & Ho).
  exists k'. split; [exact Hrun|]. assert (outside l0 m1 (km_mem k')) as Ho'.
  { eapply outside_trans; [apply S|]. eapply outside_mono; [|exact Ho]. intros q. by rewrite HP. }
  assert (l' ≡ₚ l0) as Hl by (by rewrite Hl', HP). exists l'. split; [|split; [done|intros q x; by apply (old_same m1)]].
  eapply (parent_us kend); [exact U0|exact K'|by rewrite Hl|intros q x; by apply (old_same m1)].
Qed.
(** The old address space goes, the new one stays. *)
Lemma free_old m1 k l d T n fl V :
  space m1 l0 k l d T n fl V → outside [kp] (km_mem k0) m1 →
  ∃ k' l', freevm kend d0 k = Ok tt k' ∧ us k' l' d T ∧ pool k' l' d T ≡ₚ pool k0 l0 d0 T0 ∧
    (∀ j, ent (km_mem k') T j = ent (km_mem k) T j) ∧ (∀ a, 0 ≤ a < n * 4096 → vmem k' T a = V a).
Proof.
  intros S H1. pose proof (sp_pool _ _ _ _ _ _ _ _ _ _ _ S) as HP. pose proof (sp_us _ _ _ _ _ _ _ _ _ _ _ S) as U. pose proof U as [Vm N O].
  assert (l ⊆ l0) as Hsub by (intros q Hq; rewrite <- HP; unfold pool; rewrite !elem_of_app; tauto).
  assert (∀ q x, q ∈ old_pages → in_page q x → km_mem k x = km_mem k0 x) as Hold by (intros q x; apply (old_same m1); [done|apply S]).
  assert (us k l d0 T0) as Uo by (eapply (parent_us kend); [exact U0|apply Vm|exact Hsub|exact Hold]).
  destruct (freevm_spec kend Hkend k l d0 T0 Uo) as (k' & l' & Hrun & K' & Hl' & Ho).
  assert (∀ j, ent (km_mem k) T0 j = ent (km_mem k0) T0 j) as He0.
  { intros j. eapply (ent_frame kend); [apply U0|]. intros q x Hq. apply Hold. apply elem_of_app. by right. }
  assert (l' ≡ₚ old_pages ++ l) as Hl''.
  { rewrite Hl'. unfold pool, old_pages. assert (upages (ent (km_mem k) T0) = upages (ent (km_mem k0) T0)) as -> by (apply upages_ext; intros j _; unfold upage_of; by rewrite He0).
    by rewrite app_assoc. }
  assert (∀ q x, q ∈ upages (ent (km_mem k) T) ++ pt_pages d T → in_page q x → km_mem k' x = km_mem k x) as Hnew.
  { intros q x Hq. assert (page_ok q) as Hok by (apply elem_of_app in Hq as [Hq|Hq]; [by eapply (Forall_forall page_ok), Hq|by eapply pt_pages_ok; [apply Vm|]]).
    intros Hx. eapply (outside_page kend); [exact Ho|exact Hok|rewrite <- Hl'; by eapply kinv_pages| |exact Hx]. rewrite <- Hl', Hl''. rewrite elem_of_app. intros [Hqo|Hql].
    - destruct (old_page q Hqo) as (_ & Hq0 & _). apply Hq0. rewrite <- HP. unfold pool. rewrite !elem_of_app in *. tauto.
    - unfold pool in N. rewrite app_assoc in N. apply NoDup_app in N as (_ & N & _). by apply (N q). }
  assert (∀ j, ent (km_mem k') T j = ent (km_mem k) T j) as He.
  { intros j. eapply (ent_frame kend); [apply Vm|]. intros q x Hq. apply Hnew. apply elem_of_app. by right. }
  assert (upages (ent (km_mem k') T) = upages (ent (km_mem k) T)) as Eu by (apply upages_ext; intros j _; unfold upage_of; by rewrite He).
  exists k', l'. split; [exact Hrun|].
  assert (pool k' l' d T ≡ₚ pool k0 l0 d0 T0) as Hpool.
  { unfold pool at 1. rewrite Eu, Hl'', pool_old, <- HP. unfold pool.
    rewrite (Permutation_app_swap_app (pt_pages d T) old_pages). apply Permutation_app_swap_app. }
  split; [|split; [exact Hpool|split; [exact He|]]].
  - constructor; [constructor; [exact K'|eapply pt_frame; [apply Vm|]|]|rewrite Hpool; apply U0|rewrite Eu; exact O].
    + intros x. apply Hnew. apply elem_of_app. right. apply pt_pages_spec. by left.
    + intros q Hq Hl. rewrite Hl'', elem_of_app in Hl. destruct Hl as [Hqo|Hql]; [|by apply (vm_sep _ _ _ _ _ Vm q)].
      destruct (old_page q Hqo) as (_ & Hq0 & _). apply Hq0. rewrite <- HP. unfold pool. rewrite !elem_of_app. tauto.
  - intros a Ha. unfold vmem, trans. rewrite He. pose proof (sp_idx n a Ha) as Hi. pose proof (Z.mod_pos_bound a 4096 ltac:(lia)).
    pose proof (sp_top _ _ _ _ _ _ _ _ _ _ _ S). destruct (sp_page kend kdata Hkend _ _ _ _ _ _ _ _ _ S _ Hi) as (Hpr & _).
    rewrite (Hnew (upage (ent (km_mem k) T (a / 4096)))); [exact (sp_bytes _ _ _ _ _ _ _ _ _ _ _ S a Ha)| |unfold in_page, KPGSIZE; lia].
    apply elem_of_app. left. apply upages_spec. exists (a / 4096). split; [lia|]. split; [exact Hpr|reflexivity].
Qed.
End old.

(** ** The new address space *)
Definition new_size (sz : Z) : Z := (sz + 4095) / 4096 * 4096 + 8192.
Definition frame_sp (sz2 : Z) (strs : list (list Z)) : Z := args_sp sz2 strs - 4 * (Z.of_nat (length strs) + 4).
Definition frame (sz2 : Z) (strs : list (list Z)) : list Z :=
  [0xffffffff; Z.of_nat (length strs); frame_sp sz2 strs + 12] ++ arg_addrs sz2 strs ++ [0].
(** The arguments fit one page. *)
Definition fits (sz2 : Z) (strs : list (list Z)) : Prop := (length strs ≤ 32)%nat ∧ sz2 - 4096 ≤ frame_sp sz2 strs.
Record new_space (kend kdata : Z) k l d T (sz : Z) (V : Z → Z) (strs : list (list Z)) : Prop := {
  ns_us : us kend k l d T;
  ns_code a : 0 ≤ a < new_size sz - 8192 → user_ok (km_mem k) T a ∧ vmem k T a = V a;
  ns_guard a : new_size sz - 8192 ≤ a < new_size sz - 4096 → ¬ user_ok (km_mem k) T a;
  ns_stack a : new_size sz - 4096 ≤ a < new_size sz → user_ok (km_mem k) T a;
  ns_frame i w : frame (new_size sz) strs !! i = Some w → vword (vmem k T) (frame_sp (new_size sz) strs + 4 * Z.of_nat i) = w;
  ns_arg i s x : strs !! i = Some s → arg_addrs (new_size sz) strs !! i = Some x →
    ∀ j, 0 ≤ j ≤ Z.of_nat (length s) → vmem k T (x + j) = byte_at (s ++ [0]) (Z.to_nat j);
  ns_none n : new_size sz / 4096 ≤ n < UPAGES → present (ent (km_mem k) T n) = false;
  ns_kernel n : UPAGES ≤ n → ent (km_mem k) T n = kent (kmap kdata) (λ _, 0) n }.

Section finish.
Context {F : Type} `{!ExecFs F} `{!ExecFsOk F} (kend kdata : Z).
Hypothesis Hkend : KERNBASE < kend.
Abbreviation page_ok := (page_ok kend).
Abbreviation us := (us kend).
Abbreviation space := (space kend kdata).
Context (k0 : kmem) (l0 : list Z) (u : uproc) (T0 : gmap Z Z) (kp o : Z) (fuel : nat).
Abbreviation d0 := (up_pgdir u).
Abbreviation ustack := (kp + 4 * o).
Hypothesis U0 : us k0 l0 d0 T0.
Hypothesis Hkp : page_ok kp.
Hypothesis HkpP : kp ∉ pool k0 l0 d0 T0.
Hypothesis Ho : 0 ≤ o ∧ o + 36 ≤ 1024.
Lemma kp_free : kp ∉ l0.
Proof. intros H. apply HkpP. unfold pool. rewrite !elem_of_app. tauto. Qed.
Abbreviation uword := (uword kp o).

(** The words below the arguments. *)
Lemma frame_words (K : M (xst F) Z) f m1 k l d T n fl V argc sp :
  space m1 l0 k l d T n fl V → 0 ≤ argc ≤ 32 → 0 ≤ sp - (argc + 1) * 4 < 2 ^ 32 →
  ∃ k' m2, (ustack_set (F := F) ustack (3 + argc) 0 ;; ustack_set ustack 0 0xffffffff ;; ustack_set ustack 1 argc ;;
     ustack_set ustack 2 (u32 (sp - (argc + 1) * 4)) ;; K) (mkX f k u) = K (mkX f k' u) ∧ space m2 l0 k' l d T n fl V ∧ outside [kp] m1 m2 ∧
    uword m2 0 = 0xffffffff ∧ uword m2 1 = argc ∧ uword m2 2 = sp - (argc + 1) * 4 ∧ uword m2 (3 + argc) = 0 ∧
    ∀ j, 3 ≤ j < 3 + argc → uword m2 j = uword m1 j.
Proof.
  intros S Ha Hsp. pose proof (free_pages_ok kend k0 l0 d0 T0 U0) as Hl0. pose proof kp_free as Hk0.
  destruct (ustack_run kend kdata l0 kp o Hkp Hk0 Hl0 Ho (3 + argc) 0 f m1 k l d T n fl V u S ltac:(lia) ltac:(lia)) as (k2 & m2 & H2 & S2 & O2 & W2 & R2).
  destruct (ustack_run kend kdata l0 kp o Hkp Hk0 Hl0 Ho 0 0xffffffff f m2 k2 l d T n fl V u S2 ltac:(lia) ltac:(lia)) as (k3 & m3 & H3 & S3 & O3 & W3 & R3).
  destruct (ustack_run kend kdata l0 kp o Hkp Hk0 Hl0 Ho 1 argc f m3 k3 l d T n fl V u S3 ltac:(lia) ltac:(lia)) as (k4 & m4 & H4 & S4 & O4 & W4 & R4).
  destruct (ustack_run kend kdata l0 kp o Hkp Hk0 Hl0 Ho 2 (sp - (argc + 1) * 4) f m4 k4 l d T n fl V u S4 ltac:(lia) ltac:(lia)) as (k5 & m5 & H5 & S5 & O5 & W5 & R5).
  exists k5, m5. rewrite (u32_small (sp - (argc + 1) * 4)) by lia. rewrite (bind_run _ _ _ _ _ H2), (bind_run _ _ _ _ _ H3), (bind_run _ _ _ _ _ H4), (bind_run _ _ _ _ _ H5).
  split; [done|]. split; [exact S5|]. split; [do 3 (eapply outside_trans; [eassumption|]); exact O5|].
  split; [by rewrite R5, R4 by lia|]. split; [by rewrite R5 by lia|]. split; [exact W5|]. split; [by rewrite R5, R4, R3 by lia|].
  intros j Hj. by rewrite R5, R4, R3, R2 by lia.
Qed.

Lemma new_space_intro m2 k l d T n sz V VF strs k' l' :
  let sz2 := new_size sz in let sp := frame_sp sz2 strs in
  space m2 l0 k l d T n (guard (n - 2)) VF → 0 ≤ sz → sz2 = n * 4096 → fits sz2 strs →
  (∀ a, VF a = if decide (sp ≤ a < sp + 4 * (Z.of_nat (length strs) + 4)) then m2 (ustack + (a - sp)) else args_bytes sz2 strs V a) →
  (∀ i w, frame sz2 strs !! i = Some w → uword m2 (Z.of_nat i) = w) →
  us k' l' d T → (∀ j, ent (km_mem k') T j = ent (km_mem k) T j) → (∀ a, 0 ≤ a < n * 4096 → vmem k' T a = VF a) →
  new_space kend kdata k' l' d T sz V strs.
Proof.
  intros sz2 sp S Hsz Hn [Hargc Hfit] HVF Hw U' He HV. destruct (page_V2P kend kp Hkp) as (_ & _ & _ & Hkp0 & Hkp1).
  pose proof (args_sp_le sz2 strs) as Hle. assert (sp + 4 * (Z.of_nat (length strs) + 4) = args_sp sz2 strs) as Esp by (unfold sp, frame_sp; lia).
  fold sp in Hfit. assert (8192 ≤ sz2) as Hsz2 by (unfold sz2, new_size; pose proof (Z.div_pos (sz + 4095) 4096 ltac:(lia) ltac:(lia)); lia).
  assert (∀ a, 0 ≤ a < n * 4096 → user_ok (km_mem k') T a ↔ guard (n - 2) (a / 4096) = 6) as Hok.
  { intros a Ha. rewrite <- (sp_user kend kdata Hkend _ _ _ _ _ _ _ _ _ S a Ha). unfold user_ok. by rewrite He. }
  split; fold sz2 sp.
  - done.
  - intros a Ha. split.
    + apply Hok; [lia|]. unfold guard. rewrite decide_False; [done|]. assert (a / 4096 < n - 2) by (apply Z.div_lt_upper_bound; lia). lia.
    + rewrite HV, HVF, decide_False, args_bytes_below by lia. done.
  - intros a Ha H. apply Hok in H; [|lia]. rewrite guard_page in H by lia. lia.
  - intros a Ha. apply Hok; [lia|]. apply guard_stack. lia.
  - intros i w Hi. rewrite <- (Hw i w Hi). pose proof (lookup_lt_Some _ _ _ Hi) as Hlt. unfold frame in Hlt. rewrite !length_app, length_arg_addrs in Hlt. cbn [length] in Hlt.
    assert (∀ j, 0 ≤ j < 4 → vmem k' T (sp + 4 * Z.of_nat i + j) = m2 (kp + 4 * (o + Z.of_nat i) + j)) as Hb.
    { intros j Hj. rewrite HV, HVF, decide_True by lia. f_equal. lia. }
    unfold vword, Execarg.uword, load_word. rewrite !u32_small by lia. rewrite <- (Z.add_0_r (sp + 4 * Z.of_nat i)) at 1. rewrite !Hb by lia. by rewrite Z.add_0_r.
  - intros i s x Hi Hx j Hj. destruct (args_bytes_str strs sz2 V i s x Hi Hx) as (H1 & H2 & H3). rewrite HV, HVF, decide_False by lia. by apply H3.
  - intros j Hj. rewrite He. apply (sp_high _ _ _ _ _ _ _ _ _ _ _ S). rewrite Hn, Z.div_mul in Hj by lia. done.
  - intros j Hj. rewrite He. by apply (sp_kern _ _ _ _ _ _ _ _ _ _ _ S).
Qed.

(** The end of exec. *)
Definition finish_post f path (elf : elfhdr) sz V strs (r : outcome (xst F) Z) : Prop :=
  let sz2 := new_size sz in
  (∃ k', r = Ok (-1) (mkX f k' u) ∧ untouched_process kend k0 l0 d0 T0 k' ∧
     (KERNBASE ≤ sz2 ∨ Z.of_nat (length l0) ≤ sz2 / 4096 + 1026 ∨ ¬ fits sz2 strs)) ∨
  (∃ k' l' d T name, r = Ok 0 (mkX f k' (mkUp d sz2 (entry elf) (frame_sp sz2 strs) name)) ∧ fits sz2 strs ∧ sz2 < KERNBASE ∧
     new_space kend kdata k' l' d T sz V strs ∧ pool k' l' d T ≡ₚ pool k0 l0 d0 T0 ∧
     cstr name = take 15 (cstr (last_component path path))).
Lemma bad_run f m1 k l d T n fl V :
  space m1 l0 k l d T n fl V → outside [kp] (km_mem k0) m1 → ∃ k', bad (F := F) kend d None (mkX f k u) = Ok (-1) (mkX f k' u) ∧ untouched_process kend k0 l0 d0 T0 k'.
Proof.
  intros S H1. destruct (free_new kend kdata Hkend k0 l0 d0 T0 kp U0 Hkp HkpP m1 k l d T n fl V S H1) as (k' & Hrun & Hold).
  exists k'. split; [|done]. unfold bad. pose proof (pt_dir _ _ _ _ (vm_pt _ _ _ _ _ (us_vm _ _ _ _ _ (sp_us _ _ _ _ _ _ _ _ _ _ _ S)))) as Hd.
  destruct (page_V2P kend d Hd) as (_ & _ & _ & Hd0 & _). rewrite (proj2 (Z.eqb_neq d 0)) by lia. cbn [negb when].
  by rewrite (bind_run _ _ _ _ _ (km_run _ _ f k k' u Hrun)).
Qed.
Lemma new_size_pages sz : 0 ≤ sz < KERNBASE → PGROUNDUP sz = (sz + 4095) / 4096 * 4096 ∧ 0 ≤ (sz + 4095) / 4096 ≤ UPAGES.
Proof.
  unfold KERNBASE, UPAGES. intros H. rewrite PGROUNDUP_div by lia. split; [done|]. split; [apply Z.div_pos; lia|].
  apply Z.lt_succ_r, Z.div_lt_upper_bound; lia.
Qed.
(** The frame is copied out and the process switches over. *)
Lemma commit_run f path elf m2 k l d T n sz V strs :
  let sz2 := new_size sz in let argc := Z.of_nat (length strs) in let sp := frame_sp sz2 strs in
  space m2 l0 k l d T n (guard (n - 2)) (args_bytes sz2 strs V) → outside [kp] (km_mem k0) m2 → 0 ≤ sz → sz2 = n * 4096 → sz2 < KERNBASE →
  (length strs ≤ 32)%nat → sz2 - 4096 ≤ args_sp sz2 strs → (∀ i w, frame sz2 strs !! i = Some w → uword m2 (Z.of_nat i) = w) →
  terminated path → (16 ≤ length (up_name u))%nat →
  finish_post f path elf sz V strs
    ((r ← km (copyout d sp ustack ((3 + argc + 1) * 4));
      if r <? 0 then bad kend d None else
      x ← get;
      match safestrcpy (up_name (x_p x)) (last_component path path) 16 with
      | None => undef "safestrcpy"
      | Some name => modify (λ x, mkX (x_fs x) (x_km x) (mkUp d sz2 (entry elf) sp name)) ;; km (freevm kend (up_pgdir (x_p x))) ;; mret 0
      end) (mkX f k u)).
Proof.
  intros sz2 argc sp S H1 Hsz Hn Hk Hargc Hsp Hw Hpath Hname. destruct (page_V2P kend kp Hkp) as (_ & _ & _ & Hkp0 & Hkp1).
  pose proof (args_sp_le sz2 strs) as Hle. assert (sp + 4 * (argc + 4) = args_sp sz2 strs) as Esp by (unfold sp, frame_sp; lia).
  assert (8192 ≤ sz2) as Hsz2 by (unfold sz2, new_size; pose proof (Z.div_pos (sz + 4095) 4096 ltac:(lia) ltac:(lia)); lia).
  unfold finish_post. fold sz2 sp. destruct (decide (sz2 - 4096 ≤ sp)) as [Hfit|Hfit].
  2: { left. assert (copyout d sp ustack ((3 + argc + 1) * 4) k = Ok (-1) k) as Hco.
       { apply (space_copyout_guard kend kdata Hkend m2 l0 k l d T n (guard (n - 2)) (args_bytes sz2 strs V)); [done|lia|lia|].
         rewrite guard_page by lia. done. }
       rewrite (bind_run _ _ _ _ _ (km_run _ _ f k k u Hco)). change (-1 <? 0) with true. cbv iota.
       destruct (bad_run f _ _ _ _ _ _ _ _ S H1) as (k' & Hbad & Hold). exists k'. split; [exact Hbad|]. split; [done|]. right. right. intros [_ Hf]. fold sp in Hf. lia. }
  right. destruct (space_copyout kend kdata Hkend m2 l0 k l d T n (guard (n - 2)) _ sp ustack ((3 + argc + 1) * 4) S) as (k1 & Hco & S1); [lia|lia|lia|lia|lia| | |].
  { intros i p Hi Hp. apply (ustack_out kend l0 kp Hkp kp_free (free_pages_ok kend k0 l0 d0 T0 U0)); [unfold in_page, KPGSIZE; lia|done]. }
  { intros a Ha. apply guard_stack. lia. }
  rewrite (bind_run _ _ _ _ _ (km_run _ _ f k k1 u Hco)). change (0 <? 0) with false. cbv iota. unfold mbind at 1, M_bind at 1, get at 1. cbn [x_p].
  destruct (safestrcpy_spec (up_name u) (last_component path path) 16) as (name & -> & _ & _ & Hcs & _); [by apply last_component_terminated|lia|].
  unfold mbind at 1, M_bind at 1, modify at 1. cbn [x_fs x_km x_p].
  destruct (free_old kend kdata Hkend k0 l0 d0 T0 kp U0 Hkp HkpP m2 k1 l d T n _ _ S1 H1) as (k2 & l2 & Hfr & U2 & P2 & He2 & HV2).
  exists k2, l2, d, T, name. assert (fits sz2 strs) as Hfits by (split; [done|exact Hfit]).
  split; [by rewrite (bind_run _ _ _ _ _ (km_run _ _ f k1 k2 _ Hfr))|]. split; [done|]. split; [done|]. split; [|done].
  eapply (new_space_intro m2 k1 l d T n sz V _ strs k2 l2 S1); [done|done|done| |exact Hw|done|done|done].
  intros a. fold sz2 sp argc. replace ((3 + argc + 1) * 4) with (4 * (argc + 4)) by lia. done.
Qed.
Lemma exec_finish_run f path elf k l d T sz V argv strs :
  space (km_mem k0) l0 k l d T ((sz + 4095) / 4096) rw V → 0 ≤ sz < KERNBASE → (∀ a, sz ≤ a → V a = 0) →
  Forall2 (str_at l0 kp fuel (km_mem k0)) argv strs → terminated path → (16 ≤ length (up_name u))%nat →
  finish_post f path elf sz V strs (finish_exec kend ustack fuel path elf d sz argv (mkX f k u)).
Proof.
  intros S Hsz HV Hstr Hpath Hname. destruct (new_size_pages sz Hsz) as [Eup Hn0]. set (n0 := (sz + 4095) / 4096) in *. unfold UPAGES in Hn0.
  unfold finish_exec. rewrite Eup. unfold KPGSIZE. change (2 * 4096) with 8192. rewrite (u32_small (n0 * 4096 + 8192)) by lia.
  assert (n0 * 4096 + 8192 = new_size sz) as Esz by done. rewrite Esz.
  pose proof (outside_refl [kp] (km_mem k0)) as O0.
  destruct (decide (KERNBASE ≤ new_size sz)) as [Hbig|Hbig].
  { assert (allocuvm kend d (n0 * 4096) (new_size sz) k = Ok 0 k) as Ha by (unfold allocuvm; by rewrite (proj2 (Z.leb_le _ _)) by lia).
    rewrite (bind_run _ _ _ _ _ (km_run _ _ f k k u Ha)), Z.eqb_refl. destruct (bad_run f _ _ _ _ _ _ _ _ S O0) as (k' & Hbad & Hold).
    left. exists k'. split; [exact Hbad|]. split; [done|]. by left. }
  assert ((n0 * 4096 + 4095) / 4096 = n0) as En0 by (symmetry; apply (Z.div_unique _ _ _ 4095); lia).
  assert ((new_size sz + 4095) / 4096 = n0 + 2) as En2 by (rewrite <- Esz; symmetry; apply (Z.div_unique _ _ _ 4095); lia).
  assert (new_size sz / 4096 = n0 + 2) as En2' by (rewrite <- Esz; symmetry; apply (Z.div_unique _ _ _ 0); lia).
  destruct (space_alloc kend kdata Hkend (km_mem k0) l0 k l d T (n0 * 4096) (new_size sz) V) as (r & k1 & l1 & T1 & Ha & Hr).
  { rewrite En0. exact S. }
  { lia. }
  { lia. }
  { rewrite En0. intros a Ha. apply HV. pose proof (pages_up sz n0). fold n0 in H. lia. }
  rewrite (bind_run _ _ _ _ _ (km_run _ _ f k k1 u Ha)). destruct Hr as [(-> & _ & S1)|(-> & S1 & Hmem)].
  2: { rewrite Z.eqb_refl. destruct (bad_run f _ _ _ _ _ _ _ _ S1 O0) as (k' & Hbad & Hold). left. exists k'. split; [exact Hbad|]. split; [done|].
       right. left. rewrite En2'. rewrite En2 in Hmem. lia. }
  rewrite Z.max_r in * by lia. rewrite (proj2 (Z.eqb_neq _ 0)) by lia. rewrite En2 in S1.
  assert (u32 (new_size sz - 8192) = n0 * 4096) as -> by (rewrite <- Esz; rewrite u32_small; lia).
  destruct (space_clear kend kdata Hkend _ _ _ _ _ _ _ _ n0 S1 ltac:(lia)) as (k2 & Hcl & S2). rewrite (bind_run _ _ _ _ _ (km_run _ _ f k1 k2 u Hcl)).
  assert (space (km_mem k0) l0 k2 l1 d T1 (n0 + 2) (guard (n0 + 2 - 2)) V) as S2' by (replace (n0 + 2 - 2) with n0 by lia; exact S2).
  destruct (push_args_run kend kdata Hkend l0 kp o fuel Hkp kp_free (free_pages_ok kend k0 l0 d0 T0 U0) Ho argv strs f u (km_mem k0) k2 l1 d T1 (n0 + 2) V (new_size sz) 0 S2')
    as (r & k3 & m3 & V3 & Hpush & S3 & O3 & Hr); [lia|lia|lia|exact Hstr|].
  rewrite (bind_run _ _ _ _ _ Hpush). destruct r as [[argc sp]|].
  2: { destruct (bad_run f _ _ _ _ _ _ _ _ S3 O3) as (k' & Hbad & Hold). left. exists k'. split; [exact Hbad|]. split; [done|]. right. right.
       intros [Hf1 Hf2]. unfold frame_sp in Hf2. lia. }
  destruct Hr as (-> & -> & Hargc & Hsp & -> & Hi & _). rewrite Z.add_0_l in *.
  set (argc := Z.of_nat (length strs)) in *. set (sp := args_sp (new_size sz) strs) in *. pose proof (args_sp_le (new_size sz) strs) as Hle. fold sp in Hle.
  lazymatch goal with |- context [ustack_set ustack 2 _ ;; ?K] =>
    destruct (frame_words K f m3 k3 l1 d T1 (n0 + 2) _ _ argc sp S3 ltac:(lia) ltac:(lia)) as (k4 & m4 & Hset & S4 & O4 & W0 & W1 & W2 & W3 & Wj) end.
  rewrite Hset. clear Hset. cbv zeta. rewrite (u32_small (sp - (3 + argc + 1) * 4)) by lia.
  assert (sp - (3 + argc + 1) * 4 = frame_sp (new_size sz) strs) as Esp by (unfold frame_sp; fold sp argc; lia). rewrite Esp.
  apply (commit_run f path elf m4 k4 l1 d T1 (n0 + 2) sz V strs S4); [by eapply outside_trans|lia|lia|lia|lia|fold sp; lia| |done|done].
  intros i w Hw. unfold frame in Hw. destruct (decide (i < 3)%nat) as [Hi3|Hi3].
  - rewrite lookup_app_l in Hw by (cbn; lia). destruct i as [|[|[|i]]]; [..|lia]; injection Hw as <-; [exact W0|exact W1|]. cbn [Z.of_nat]. change (Z.of_nat 2) with 2 in *.
    rewrite <- Esp. etrans; [exact W2|]. lia.
  - rewrite lookup_app_r in Hw by (cbn; lia). cbn [length] in Hw. destruct (decide (i - 3 < length strs)%nat) as [Hin|Hin].
    + rewrite lookup_app_l in Hw by (rewrite length_arg_addrs; lia). rewrite Wj by lia. rewrite <- (Hi _ _ Hw). f_equal. lia.
    + rewrite lookup_app_r in Hw by (rewrite length_arg_addrs; lia). rewrite length_arg_addrs in Hw. apply list_lookup_singleton_Some in Hw as [Hw <-].
      rewrite <- W3. f_equal. lia.
Qed.

(** ** The whole call *)
Lemma close_run f ip c k (K : M (xst F) Z) :
  xf_open f ip c → ∃ f', xf_idle f' ∧ (fs (x_iunlockput ip) ;; fs x_end_op ;; K) (mkX f k u) = K (mkX f' k u).
Proof.
  intros Hf. destruct (xf_put f ip c Hf) as (f1 & H1 & Hop). destruct (xf_end f1 Hop) as (f2 & H2 & Hid). exists f2. split; [done|].
  by rewrite (bind_run _ _ _ _ _ (fs_run _ _ f f1 k u H1)), (bind_run _ _ _ _ _ (fs_run _ _ f1 f2 k u H2)).
Qed.
(** The jump to [bad] while the file is open. *)
Lemma bad_open f ip c k k' d :
  xf_open f ip c → (d = 0 ∧ k' = k ∨ d ≠ 0 ∧ freevm kend d k = Ok tt k') → ∃ f', xf_idle f' ∧ bad kend d (Some ip) (mkX f k u) = Ok (-1) (mkX f' k' u).
Proof.
  intros Hf Hd. unfold bad. assert (when (negb (d =? 0)) (km (freevm kend d)) (mkX f k u) = Ok tt (mkX f k' u)) as Hw.
  { destruct Hd as [[-> ->]|[Hne Hrun]]; [done|]. rewrite (proj2 (Z.eqb_neq _ _) Hne). by apply km_run. }
  rewrite (bind_run _ _ _ _ _ Hw). destruct (xf_put f ip c Hf) as (f1 & H1 & Hop). destruct (xf_end f1 Hop) as (f2 & H2 & Hid). exists f2. split; [done|].
  assert ((fs (x_iunlockput ip) ;; fs x_end_op) (mkX f k' u) = Ok tt (mkX f2 k' u)) as Hc.
  { rewrite (bind_run _ _ _ _ _ (fs_run _ _ f f1 k' u H1)). by apply fs_run. }
  by rewrite (bind_run _ _ _ _ _ Hc).
Qed.
Lemma untouched_refl : untouched_process kend k0 l0 d0 T0 k0.
Proof. by exists l0. Qed.
Hypothesis Hdata : kdata mod 4096 = 0 ∧ KERNLINK < kdata < KERNBASE + PHYSTOP.
(** An address space with the kernel's mappings only. *)
Lemma empty_space k1 l1 d T :
  us k1 l1 d T → pool k1 l1 d T ≡ₚ l0 → kernel_space kdata k1 d T → outside l0 (km_mem k0) (km_mem k1) → space (km_mem k0) l0 k1 l1 d T 0 rw (λ _, 0).
Proof.
  intros U1 HP Hks Hout. split; [done|done|unfold UPAGES; lia|lia| | |lia|done].
  - intros j Hj. rewrite Hks, (kent_below UPAGES) by (lia || by apply kernel_map_ok). done.
  - intros j Hj. apply Hks.
Qed.
Lemma setup_run :
  ∃ r k1, setupkvm kend kdata k0 = Ok r k1 ∧
    ((r = 0 ∧ untouched_process kend k0 l0 d0 T0 k1 ∧ Z.of_nat (length l0) ≤ 1025) ∨
     (r ≠ 0 ∧ ∃ l1 T, space (km_mem k0) l0 k1 l1 r T 0 rw (λ _, 0))).
Proof.
  destruct (setupkvm_spec kend kdata Hkend Hdata k0 l0 (vm_kinv _ _ _ _ _ (us_vm _ _ _ _ _ U0))) as (r & k1 & l1 & Hrun & Hout & Hr).
  exists r, k1. split; [exact Hrun|]. pose proof (outside_refl [kp] (km_mem k0)) as O0. destruct Hr as [(-> & K1 & Hl1 & Hfew)|(Hne & T & U1 & P1 & Hks)]; [left|right].
  - split; [done|]. split; [|done]. assert (∀ q x, q ∈ old_pages k0 d0 T0 → in_page q x → km_mem k1 x = km_mem k0 x) as Hsame.
    { intros q x. by apply (old_same kend k0 l0 d0 T0 kp U0 Hkp HkpP (km_mem k0)). }
    exists l1. split; [|done]. eapply (parent_us kend); [exact U0|exact K1|by rewrite Hl1|exact Hsame].
  - split; [done|]. exists l1, T. by apply empty_space.
Qed.

Definition exec_done f path strs (x : xst F) : Prop :=
  ∃ c sz V T l, xf_find f path = Some c ∧ elf_image c = Some (sz, V) ∧
    new_space kend kdata (x_km x) l (up_pgdir (x_p x)) T sz V strs ∧ pool (x_km x) l (up_pgdir (x_p x)) T ≡ₚ pool k0 l0 d0 T0 ∧
    up_sz (x_p x) = new_size sz ∧ up_eip (x_p x) = entry (elf_at c) ∧ up_esp (x_p x) = frame_sp (new_size sz) strs ∧
    cstr (up_name (x_p x)) = take 15 (cstr (last_component path path)).
(** A program that fits, and memory for it and for all the page tables there can be. *)
Definition exec_possible f path strs : Prop :=
  ∃ c sz V, xf_find f path = Some c ∧ elf_image c = Some (sz, V) ∧ new_size sz < KERNBASE ∧ fits (new_size sz) strs ∧
    new_size sz / 4096 + 1026 < Z.of_nat (length l0).
Definition exec_post f path strs (o : outcome (xst F) Z) : Prop :=
  ∃ r x, o = Ok r x ∧ xf_idle (x_fs x) ∧
    ((r = -1 ∧ x_p x = u ∧ untouched_process kend k0 l0 d0 T0 (x_km x) ∧ ¬ exec_possible f path strs) ∨ (r = 0 ∧ exec_done f path strs x)).
Lemma exec_failed f path strs f' k' :
  xf_idle f' → untouched_process kend k0 l0 d0 T0 k' → ¬ exec_possible f path strs → exec_post f path strs (Ok (-1) (mkX f' k' u)).
Proof. intros H1 H2 H3. exists (-1), (mkX f' k' u). split; [done|]. split; [done|]. left. done. Qed.
Lemma elf_parts c sz V : elf_image c = Some (sz, V) →
  (52 ≤ length c)%nat ∧ magic (elf_at c) = ELF_MAGIC ∧ segments c (Z.to_nat (phnum (elf_at c))) (phoff (elf_at c)) 0 (λ _, 0) = Some (sz, V).
Proof. unfold elf_image. cbv zeta. case_decide as H; [|done]. tauto. Qed.
(** After the program was loaded. *)
Lemma exec_finish f path f1 c k l d T sz V argv strs :
  xf_find f path = Some c → elf_image c = Some (sz, V) → xf_idle f1 →
  space (km_mem k0) l0 k l d T ((sz + 4095) / 4096) rw V → 0 ≤ sz < KERNBASE → (∀ a, sz ≤ a → V a = 0) →
  Forall2 (str_at l0 kp fuel (km_mem k0)) argv strs → terminated path → (16 ≤ length (up_name u))%nat →
  exec_post f path strs (finish_exec kend ustack fuel path (elf_at c) d sz argv (mkX f1 k u)).
Proof.
  intros Hfind Himg Hid S Hsz HV Hstr Hpath Hname.
  destruct (exec_finish_run f1 path (elf_at c) k l d T sz V argv strs S Hsz HV Hstr Hpath Hname) as [(k' & -> & Hold & Hwhy)|(k' & l' & d' & T' & name & -> & Hfit & Hk & Hns & HP & Hnm)].
  - apply exec_failed; [done|done|]. intros (c' & sz' & V' & Hf' & Hi' & H1 & H2 & H3). rewrite Hfind in Hf'. injection Hf' as <-. rewrite Himg in Hi'. injection Hi' as <- <-.
    destruct Hwhy as [?|[?|?]]; [lia|lia|done].
  - eexists 0, _. split; [done|]. split; [done|]. right. split; [done|]. exists c, sz, V, T', l'. done.
Qed.

(** C18: exec, for argument strings shorter than a page.  Whatever bytes the file has, exec never panics, and it holds no transaction and no
    lock when it returns.  Either it returns -1, and the process, its memory and the free pages are as they were, and
    this happens only if there is no such file, the file is not a program, the program or its arguments
    do not fit, or memory is short; or it returns 0, and the process has an address space with the segments of the file
    and zeros, above it a page that users cannot touch and a page of stack with argc, argv, the pointers and
    the strings, no page was lost, and the entry point, the stack pointer, the size and the name are those of the program. *)
Theorem exec_correct f path argv strs :
  xf_idle f → (∀ c, xf_find f path = Some c → bytes c) → Forall2 (str_at l0 kp fuel (km_mem k0)) argv strs →
  terminated path → (16 ≤ length (up_name u))%nat →
  exec_post f path strs (exec kend kdata ustack fuel path argv (mkX f k0 u)).
Proof.
  intros Hid Hbytes Hstr Hpath Hname. unfold exec. destruct (xf_begin f Hid) as (f1 & H1 & Hop1 & Hfind1). rewrite (bind_run _ _ _ _ _ (fs_run _ _ f f1 k0 u H1)).
  destruct (xf_namei f1 path Hop1) as (ip & f2 & H2 & Hip). rewrite (bind_run _ _ _ _ _ (fs_run _ _ f1 f2 k0 u H2)). rewrite Hfind1 in Hip.
  destruct ip as [ip|].
  2: { destruct Hip as [Hnone Hop2]. destruct (xf_end f2 Hop2) as (f3 & H3 & Hid3). rewrite (bind_run _ _ _ _ _ (fs_run _ _ f2 f3 k0 u H3)).
       apply exec_failed; [done|apply untouched_refl|]. intros (c & sz & V & Hf & _). congruence. }
  destruct Hip as (c & Hfind & Href). destruct (xf_ilock f2 ip c Href) as (f3 & H3 & Hf3). rewrite (bind_run _ _ _ _ _ (fs_run _ _ f2 f3 k0 u H3)).
  pose proof (xf_small f3 ip c Hf3) as Hc. specialize (Hbytes c Hfind).
  assert (∀ sz V, exec_possible f path strs → elf_image c = Some (sz, V) → new_size sz / 4096 + 1026 < Z.of_nat (length l0)) as Hposs.
  { intros sz V (c' & sz' & V' & Hf' & Hi' & _ & _ & H') Hi. rewrite Hfind in Hf'. injection Hf' as <-. rewrite Hi in Hi'. by injection Hi' as <- <-. }
  assert (exec_possible f path strs → ∃ sz V, elf_image c = Some (sz, V)) as Himg.
  { intros (c' & sz' & V' & Hf' & Hi' & _). rewrite Hfind in Hf'. injection Hf' as <-. eauto. }
  destruct (xf_readi f3 ip c 0 ELFHDR Hf3 ltac:(lia) ltac:(done)) as (f4 & H4 & Hf4). rewrite (bind_run _ _ _ _ _ (fs_run _ _ f3 f4 k0 u H4)). unfold ELFHDR.
  destruct (read_at c 0 52) as [r b] eqn:Eb. apply read_full in Eb; [|done|lia|lia].
  destruct (bad_open f4 ip c k0 k0 0 Hf4 ltac:(by left)) as (f5 & Hid5 & Hbad).
  destruct Eb as [(-> & Hlen & ->)|(Hne & _ & _ & Hlen & _)].
  2: { rewrite (proj2 (Z.eqb_neq r 52)) by done. cbn [negb]. rewrite Hbad. apply exec_failed; [done|apply untouched_refl|].
       intros (sz & V & Hi)%Himg. apply elf_parts in Hi as [? _]. lia. }
  rewrite Z.eqb_refl. cbn [negb]. change (Z.to_nat 52) with 52%nat. rewrite drop_0, elf_take.
  destruct (Z.eqb_spec (magic (elf_at c)) ELF_MAGIC) as [Em|Em]; cbn [negb].
  2: { rewrite Hbad. apply exec_failed; [done|apply untouched_refl|]. intros (sz & V & Hi)%Himg. by apply elf_parts in Hi as (_ & ? & _). }
  destruct setup_run as (d & k1 & Hs & Hr). rewrite (bind_run _ _ _ _ _ (km_run _ _ f4 k0 k1 u Hs)).
  assert (∀ sz, 0 ≤ sz → 0 ≤ (sz + 4095) / 4096 ∧ new_size sz / 4096 = (sz + 4095) / 4096 + 2) as Hns.
  { intros sz Hsz. split; [apply Z.div_pos; lia|]. unfold new_size. symmetry. apply (Z.div_unique _ _ _ 0); lia. }
  destruct Hr as [(-> & Hold & Hfew)|(Hd & l1 & T1 & S1)].
  { rewrite Z.eqb_refl. destruct (bad_open f4 ip c k1 k1 0 Hf4 ltac:(by left)) as (f6 & Hid6 & ->). apply exec_failed; [done|done|].
    intros Hp. destruct (Himg Hp) as (sz & V & Hi). pose proof (Hposs _ _ Hp Hi). apply elf_parts in Hi as (_ & _ & Hsg%segments_mono). destruct (Hns sz Hsg). lia. }
  rewrite (proj2 (Z.eqb_neq d 0) Hd).
  destruct (load_loop_run kend kdata Hkend c (Z.to_nat (phnum (elf_at c))) Hbytes (km_mem k0) l0 f4 ip k1 l1 d T1 (phoff (elf_at c)) 0 (λ _, 0) u S1 Hf4)
    as (r & f6 & k2 & l2 & T2 & Hl & Hf6 & Hr); [by apply get32_range|unfold KERNBASE; lia|done|].
  rewrite (bind_run _ _ _ _ _ Hl). destruct r as [sz|].
  - destruct Hr as (V & Hseg & S2 & Hsz & HV). match goal with |- exec_post _ _ _ ((_ ;; _ ;; ?K) _) => destruct (close_run f6 ip c k2 K Hf6) as (f7 & Hid7 & ->) end.
    eapply exec_finish; [exact Hfind| |exact Hid7|exact S2|done|done|done|done|done]. unfold elf_image. cbv zeta. rewrite decide_True; [exact Hseg|]. split; [lia|done].
  - destruct Hr as [(n' & V' & S2) Hfew]. pose proof (outside_refl [kp] (km_mem k0)) as O0.
    destruct (free_new kend kdata Hkend k0 l0 d0 T0 kp U0 Hkp HkpP _ k2 l2 d T2 n' rw V' S2 O0) as (k3 & Hfr & Hold).
    destruct (bad_open f6 ip c k2 k3 d Hf6 ltac:(by right)) as (f7 & Hid7 & ->). apply exec_failed; [done|done|].
    intros Hp. destruct (Himg Hp) as (sz & V & Hi). pose proof (Hposs _ _ Hp Hi). apply elf_parts in Hi as (_ & _ & Hsg). pose proof (Hfew _ _ Hsg).
    apply segments_mono in Hsg. destruct (Hns sz Hsg). lia.
Qed.
End finish.

(** ** Instances *)
(** A program of one segment: 8 bytes at address 0, entry point 0, in a file of 92 bytes. *)
Definition demo_elf : list Z :=
  [127; 69; 76; 70] ++ replicate 12 0 ++ [2; 0; 3; 0] ++ [1; 0; 0; 0] ++ [4; 0; 0; 0] ++ [52; 0; 0; 0] ++ replicate 8 0 ++ [52; 0; 32; 0; 1; 0] ++ replicate 6 0 ++
  [1; 0; 0; 0] ++ [84; 0; 0; 0] ++ replicate 8 0 ++ [8; 0; 0; 0] ++ [16; 0; 0; 0] ++ replicate 8 0 ++ [1; 2; 3; 4; 5; 6; 7; 8].
Example demo_elf_image :
  match elf_image demo_elf with
  | Some (sz, V) => sz = 16 ∧ V <$> [0; 7; 8; 4095] = [1; 8; 0; 0] ∧ new_size sz = 12288
  | None => False
  end.
Proof. vm_compute. split; [reflexivity|split; reflexivity]. Qed.
(** A file system with that file under the name "/a": the state is the number of steps of exec done. *)
Definition demo_path : list Z := [47; 97; 0].
Definition at_step (n : nat) {A} (a : A) (n' : nat) : M nat A := λ s, if (s =? n)%nat then Ok a n' else Panic "step".
#[local] Instance demo_fs : ExecFs nat := {
  x_begin_op := at_step 0 tt 1;
  x_end_op := at_step 1 tt 0;
  x_namei path := if bool_decide (path = demo_path) then at_step 1 (Some 7%nat) 2 else at_step 1 None 1;
  x_ilock _ := at_step 2 tt 3;
  x_readi _ off n := at_step 3 (read_at demo_elf off n) 3;
  x_iunlockput _ := at_step 3 tt 1 }.
#[local] Instance demo_fs_ok : ExecFsOk nat.
Proof.
  refine {| xf_idle s := s = 0%nat; xf_op s := s = 1%nat; xf_ref s _ c := s = 2%nat ∧ c = demo_elf; xf_open s _ c := s = 3%nat ∧ c = demo_elf;
    xf_find _ path := if bool_decide (path = demo_path) then Some demo_elf else None |}.
  - intros ? ->. by exists 1%nat.
  - intros ? path ->. cbn. destruct (bool_decide (path = demo_path)); [exists (Some 7%nat), 2%nat|exists None, 1%nat]; (split; [done|]); [by exists demo_elf|done].
  - intros ? ip c [-> ->]. by exists 3%nat.
  - intros ? ip c [_ ->]. done.
  - intros ? ip c off n [-> ->] _ _. by exists 3%nat.
  - intros ? ip c [-> ->]. by exists 1%nat.
  - intros ? ->. by exists 0%nat.
Defined.
Definition demo_proc : uproc := mkUp vd_dir 4096 0 4096 (replicate 16 0).
Definition demo_kp : Z := 0x80105000.
Lemma demo_kp_page : page_ok demo_kend demo_kp.
Proof. split; [reflexivity|]. vm_compute. split; [discriminate|]. split; [discriminate|reflexivity]. Qed.
Lemma demo_kp_out p x : p ∈ demo_kp :: [vd_free] → 0 ≤ x < KERNBASE → ¬ in_page p x.
Proof.
  intros Hp Hx. rewrite !elem_of_cons in Hp. unfold in_page, KPGSIZE, KERNBASE, demo_kp, vd_free in *. destruct Hp as [->|[->|?%elem_of_nil]]; [lia|lia|done].
Qed.
Lemma exec_correct_witness :
  exec_post demo_kend 0x80110000 vd_k [vd_free] demo_proc vd_T 0%nat demo_path [[]] (exec demo_kend 0x80110000 demo_kp 10 demo_path [0x1000] (mkX 0%nat vd_k demo_proc)).
Proof.
  apply (exec_correct demo_kend 0x80110000 ltac:(vm_compute; reflexivity) vd_k [vd_free] demo_proc vd_T demo_kp 0 10 vd_us demo_kp_page).
  - unfold pool. cbn [km_mem vd_k]. rewrite vd_upages. unfold pt_pages, vd_T. rewrite map_to_list_singleton. apply (bool_decide_unpack _). vm_compute. exact I.
  - lia.
  - vm_compute. split; [reflexivity|split; reflexivity].
  - reflexivity.
  - intros c. cbn. case_bool_decide; [|done]. intros [= <-]. apply (bool_decide_unpack _). vm_compute. exact I.
  - constructor; [|constructor]. split.
    + constructor.
    + intros i Hi. cbn in Hi. assert (i = 0) as -> by lia. reflexivity.
    + cbn. lia.
    + cbn. lia.
    + cbn. lia.
    + intros i p Hi Hp. cbn in Hi. apply demo_kp_out; [done|unfold KERNBASE; lia].
  - unfold terminated, demo_path. rewrite !elem_of_cons. tauto.
  - cbn. lia.
Defined.
